(* ===== verification/_CoqProject ===== *)
-Q . S2P
Prelude.v
CString.v
TextFile.v
SdpTypes.v
Bdaddr.v
Storage.v
SdpList.v
SdpUuid.v
SdpEncode.v
SdpRecord.v
SdpDecode.v
SdpAttrs.v
SdpDb.v
SdpService.v
SdpClient.v
SdpRequest.v
SdpLink.v
Ubcsp.v
UbcspCrc.v
UbcspFrame.v
UbcspPoll.v
UbcspLink.v
Sbc.v
SbcBits.v
SbcStream.v
SbcFrame.v
SbcJoint.v
SbcSafe.v
SbcTables.v
SbcAnalysis.v
SbcFilter.v
SbcSynth.v
SbcApi.v
SbcCodec.v
Heap.v
GSList.v
GUtf8.v
GString.v
GMain.v
GMainSafe.v
GMainSpec.v
Avdtp.v
AvdtpFrame.v
AvdtpAcceptor.v
AvdtpSafe.v
AvdtpTable.v
AvdtpPair.v
A2dp.v
A2dpStream.v
A2dpThread.v
