(* ===== verification/Prelude.v ===== *)
(** * BlueZ: a verified model of its protocol and storage code

    This development models the parts of the BlueZ utilities that compute
    something of their own: the Service Discovery Protocol (libs/src/sdp.c and
    the server in utils/sdpd/), device addresses (libs/src/bluetooth.c), the
    daemon's store of devices (utils/common/textfile.c, utils/hcid/storage.c),
    the BCSP link engine (utils/tools/ubcsp.c), the SBC audio codec
    (utils/sbc/), the signalling of audio streams (utils/audio/avdtp.c), their
    parameters and packets (a2dp.c, sink.c, unix.c and liba2dp.c there), and the
    lists, strings and main loop the daemons run on (utils/eglib/gmain.c).

    ** The program

    A service record ([sdp_record_t]) is a list of attributes, each a tree of
    data elements ([sdp_data_t]), sorted by attribute id, with the set of all
    UUIDs that occur in it (its search pattern). Programs build records with
    the typed setters, turn them into PDUs and register them with the server,
    which parses the PDU, stores the record in its repository under a fresh
    handle and ties it to the socket of the program. Remote devices send
    search and attribute requests; the server matches the UUIDs they name
    against the patterns, writes the attributes asked for and cuts responses
    that do not fit the MTU of the connection into parts, which it keeps in a
    cache and hands out by continuation state.

    The daemon hcid remembers link keys, trusted services and the like per
    adapter, in text files of lines "key value" that textfile.c searches and
    rewrites through a memory mapping; addresses are the keys.

    The BCSP engine sends packets over a serial line to a Bluetooth chip, as
    frames between SLIP markers with a header checksum and, on request, a CRC;
    reliable packets carry sequence numbers and are sent again until they are
    acknowledged. The caller polls the engine, one octet at a time.

    The SBC codec turns PCM into frames for A2DP and back: an analysis filter
    bank yields subband samples, scale factors and a bit allocation shared
    with the decoder say how finely each subband is quantised, subbands of two
    channels may be joined, the frame is written bit by bit with a checksum;
    the decoder parses the frame and runs the synthesis filter bank.

    AVDTP sets audio streams up between the stream end points of two devices.
    Messages travel in packets over a signalling channel; a device answers the
    commands of the other one, asking the layers above, and sends requests of
    its own, one at a time, with queues, timeouts and a retry by ABORT. An end
    point goes from idle over configured and open to streaming; each stream
    has a transport channel of its own.

    A2DP streams are configured for SBC: a sink offers parameters, the daemon or
    a client of it selects, the sink checks. The client library asks the daemon
    for what the sink offers, tells it the choice, sets an encoder up for it, and
    sends what the program writes as RTP packets of SBC frames. A thread of the
    library talks to the daemon; programs that write wait for it.

    The daemons run on a main loop: timeouts, watches of channels and watches
    of child processes are kept in lists of the loop's context; the loop polls
    the descriptors of the channels until the first timeout is due and calls
    the functions of the sources, which may add and remove sources, themselves
    included, while the loop works the lists off.

    ** The files

    Shared:
    - Prelude: the [outcome] monad, integers of a given width, byte strings and
      memory objects, and the lemmas and tactics about them.
    - CString: the string functions of the C library the sources call.
    - SdpTypes: descriptors, UUIDs, data elements, records and buffers
      (sdp.h).
    - Heap: structures in memory for eglib and AVDTP: following pointers,
      finding in and removing from lists of them.

    Addresses and storage:
    - Bdaddr: printing, parsing and checking of addresses (bluetooth.c).
    - TextFile: textfile.c over a file system whose calls may fail.
    - Storage: storage.c, every function, over TextFile.

    SDP:
    - SdpList: the list operations ([sdp_list_append], [sdp_list_remove],
      [sdp_list_insert_sorted], [sdp_list_find], ...) and the class [CompFunc]
      of what a comparison function promises to sorted lists; the instances
      are in SdpUuid ([sdp_uuid128_cmp]) and SdpRecord
      ([sdp_attrid_comp_func]).
    - SdpUuid: UUIDs of three sizes, their conversions, names and printing.
    - SdpEncode: [sdp_data_alloc] and [sdp_seq_alloc], [sdp_gen_pdu],
      [sdp_append_to_buf], [sdp_append_to_pdu], [sdp_gen_record_pdu]; the wire
      format as a reference function [sdp_encode].
    - SdpRecord: the attribute list and the search pattern.
    - SdpDecode: the extraction functions, [sdp_extract_attr_safe] and
      [sdp_extract_pdu_safe] at the top, over arbitrary bytes.
    - SdpAttrs: the typed getters and setters and [sdp_create_base_uuid].
    - SdpDb: servicedb.c over a heap of records: repository, access list and
      socket index, with the aliasing between the three.
    - SdpService: service.c: the server's own records, the daemon's interface
      ([add_record_to_server], [remove_record_from_server],
      [create_ext_inquiry_response]), and the requests of local programs.
    - SdpClient: the client side of libs/src/sdp.c over a socket that may
      answer anything: the synchronous searches, registration, update and
      removal.
    - SdpRequest: request.c and the response cache of cstate.c: the requests
      of remote devices, the dispatcher [process_request] and
      [handle_request].
    - SdpLink: a client of SdpClient connected to the server of SdpRequest.

    BCSP:
    - Ubcsp: every function of ubcsp.c; the static variables and the
      configuration are one record, a poll is a function on it.
    - UbcspCrc: the checksum against its polynomial, and damaged frames.
    - UbcspFrame: frames from one engine to another, octet by octet.
    - UbcspPoll: the invariant of the engine.
    - UbcspLink: two engines and a line that loses frames, as a step relation.

    SBC:
    - Sbc: frames: [sbc_crc8], [sbc_calculate_bits], [sbc_unpack_frame],
      [sbc_pack_frame] (sbc.c).
    - SbcBits: the bit allocation. SbcStream: reading and writing bits, and the
      checksum. SbcFrame: packing then parsing. SbcJoint: joint stereo.
      SbcSafe: the parser on hostile input.
    - SbcTables: the constants of sbc_tables.h.
    - SbcAnalysis: input buffers, analysis filters and scale factors
      (sbc_primitives.c), [sbc_analyze_audio]. SbcFilter: the filters against
      the A2DP specification.
    - SbcSynth: the synthesis filters and their specification.
    - SbcApi: [sbc_encode], [sbc_decode] and the rest of sbc.h.
    - SbcCodec: an encoder and a decoder in a row.

    AVDTP (avdtp.c):
    - Avdtp: a session: packets, commands, requests, responses, streams, stream
      end points, timers and channels.
    - AvdtpFrame: messages over packets, capabilities in messages.
    - AvdtpAcceptor: the invariant of the acceptor and what keeps it.
      AvdtpSafe: every event keeps it. AvdtpTable: the table of the states.
    - AvdtpPair: a procedure through two devices.

    A2DP (utils/audio):
    - A2dp: from the offer of a sink ([sbc_getcap_ind]) to the encoder of the
      client ([bluetooth_a2dp_setup]).
    - A2dpStream: writing to a stream ([a2dp_write], [avdtp_write]).
    - A2dpThread: the thread of the client library and [wait_for_start], as a
      step relation.

    eglib (gmain.c):
    - GSList: singly linked lists over a memory of cells.
    - GUtf8: [g_utf8_validate]. GString: the string functions and [GString].
    - GMain: the main loop. GMainSafe: its invariant, against any program that
      calls the library in order (the class [Client]) and any allocator that
      keeps addresses apart (the class [Allocator]). GMainSpec: its timing.

    ** How the code is represented

    Scalars are [Z], with the conversions of the code ([to_u8], [to_u16],
    [to_u32], [to_i32], [to_size_t]) where it narrows, widens or compares
    values of different signedness; the host is little-endian with 32-bit [int]
    and 64-bit [size_t]. A pointer into a buffer is the list of bytes from it
    to the end of its memory object, so a read past the end is visible: it is
    [Undef], as are writes outside a buffer, null and dangling dereferences.
    Out parameters are results. Allocation succeeds, but for [sbc_init], whose
    allocation is an argument. State is passed explicitly.

    SDP: chains of data elements ([next]) are lists inside the tree. The
    repository keeps records in a [gmap] from locations; freeing removes the
    entry, and using a freed record is [Undef]. The static variables of the
    server are the record [sdpd]. The time of day is the field [tm], the value
    [gettimeofday] last returned. The calls a session makes on its socket are
    the class [Socket]; the functions of the client are defined over any
    instance, and SdpLink gives the instance whose other end is the server.
    What [handle_request] asks the kernel about its client is the argument
    [peer].

    Text files: the [world] holds the contents of the files and a list of the
    faults the next system calls meet, so any call can fail, a write can be
    short; a mapping ends with its page of 4096 bytes, the tail filled with
    zeros. STORAGEDIR, set by the build, is a parameter.

    BCSP: the serial line is the octet each poll takes and gives; packets are
    lists of octets. In UbcspLink a frame arrives whole or not at all, which
    the checksums of UbcspCrc stand behind. The initialisation handshake is
    part of the engine; the link theorem starts from two engines that are up.

    SBC: samples are signed 32-bit integers and signed shifts and the sums of
    the synthesis wrap, as the compilers the code is built with do; the sums of
    the encoder, where a theorem says that none overflows, are [Undef] when
    they do. The octet [sbc_crc8] reads behind its array, which does not affect
    the result, is the parameter [stray]. The decimal fractions of the tables
    are exact rationals, rounded as the macros do. The function pointers of the
    encoder are the portable C functions. A null codec or input is not
    modelled; a null output is.

    AVDTP: a session, the stream end points and the streams in memory are one
    record; streams and end points are reached through addresses, and using one
    that is gone is [Undef]. The layers above are the argument [callbacks]: they
    answer and are told, with a state of their own, but do not call the session
    back from inside a call. Whether the next sends and connects succeed is a
    list in the state; [getsockopt] and reads of a channel that is ready
    succeed, and a hang-up is the empty packet. There is one session, which
    stays after its connection is lost, as when somebody refers to it; its
    capabilities are bytes, and [handle_transport_connect] is two functions,
    with and without a socket, since the state change of a stream that goes
    calls the second.

    A2DP: structures that travel as octets are records with functions to and
    from octets; casting too few octets is [Undef]. The messages between daemon
    and client are the records they carry. What the socket of a stream says when
    it is polled, and when, is the parameter [poll]; [send] takes whole packets.
    The encoder is given the octets of one input and the rest of the buffer. The
    steps of the thread and of writers are the locked parts and the accesses to
    the state without the lock; conversations with the daemon are one step each,
    with any result.

    eglib: the memory is a map from addresses to structures of each type; an
    allocation takes its address from the parameter [malloc], freeing removes
    the entry. The functions a program gives the loop are the parameter
    [program]: for each call a tree of the library calls it makes ([prog]),
    which may depend on the results; notifications of freed watches change what
    the program keeps, without calls back. What [poll] reports, which children
    have died, and when it returns are arguments of each round. Programs run
    one loop, on the default context, and do not nest it; reference counts do
    not overflow; the process ids of child watches are positive.

    ** Fuel

    The parser of SDP takes fuel and is proved to return with fuel above the
    number of bytes ([extract_attr_safe_total]), and to run out of every fuel
    on the inputs on which the C code does not terminate
    ([extract_seq_diverges], [truncated_uuid_hangs_server]); the search for a
    handle takes one more than the number of records, which is proved enough
    ([next_handle_fresh]). Round trips state the fuel they need in terms of the
    bytes written, and a whole exchange between client and server is proved to
    finish with 2^16 ([attr_request_fetches_record]): every part of a response
    holds a byte. The loops of textfile.c get the length of what they scan.
    [transmit], which polls an engine to the end of a frame, is proved to
    return with the length of the frame ([packet_roundtrip]). The bit
    allocation's loop gets 64 steps, more than there are bit slices; that they
    are enough is part of [bit_allocation_exact]. The loops over a [GSList] get
    the size of the memory, those of the main loop the length of the list they
    work off: while a list is worked off it only shrinks
    ([g_slist_refines_list], [main_loop_safe]). The loops of AVDTP get the length
    of the message they work off, enough for any message ([acceptor_safe],
    [capabilities_roundtrip]); writing to a stream gets one more than the octets
    to write ([writes_sound]).

    ** The theorems

    - Representation: the attribute list is a finite map
      ([attributes_refine_map]), the search pattern a finite set
      ([pattern_refines_set]), the repository a finite map from handles
      ([repository_refines_map]); UUIDs of different sizes are compared
      consistently ([uuid128_conversion]).
    - The wire format: the writer implements the reference encoding
      ([sdp_gen_pdu_refines], [sdp_gen_record_pdu_spec]) and the parser reads
      it back ([element_roundtrip], [record_roundtrip], [extract_des_roundtrip]).
    - Robustness of the parser on hostile input ([extract_attr_safe_total]),
      with the exact exceptions.
    - The setters and getters agree ([uuidseq_attr_roundtrip],
      [descriptor_lists_roundtrip], [protocol_stack_roundtrip],
      [create_base_uuid_correct]).
    - The server: searches return the matching, visible records
      ([service_search_correct], [match_uuid_correct], [check_access_correct]);
      long responses arrive whole ([continuation_reassembles]); remote
      requests never change the repository ([remote_requests_keep_repository]);
      registration, removal and the clean-up of a closed connection
      ([server_records_correct], [collect_all_correct], [next_handle_fresh]).
    - Client and server together: an attribute request brings the client
      exactly the record of the repository ([attr_request_fetches_record]).
    - Addresses print and parse back ([address_text_roundtrip]); a text file is
      a map ([textfile_refines_map]) that most failures leave alone
      ([textfile_failures_harmless]); keys and trusts are kept per device
      ([link_keys_refine], [trust_refine]).
    - BCSP: every poll is defined ([poll_well_typed]), a frame carries its
      packet ([packet_roundtrip]), a damaged frame is ignored
      ([damaged_frame_ignored]), reliable packets arrive once and in order
      over a line that loses frames ([reliable_delivery]).
    - SBC: bits and frames ([bit_allocation_exact], [sbc_crc8_correct],
      [frame_roundtrip], [joint_stereo_recovers], [unpack_frame_safe]), filters
      ([encoder_filters_stream], [synthesis_is_shift_register]), calls
      ([encode_step_sound], [decode_step_sound], [frame_length_exact]), and the
      codec from input to output ([codec_stream]).
    - AVDTP: messages survive being cut into packets ([message_roundtrip]) and
      capabilities being written ([capabilities_roundtrip]), with the
      exceptions the code has; the acceptor is safe under any events
      ([acceptor_safe]) and follows the table of its states ([command_table]);
      two devices agree after a procedure, or exactly where not
      ([procedures_agree]).
    - A2DP: the daemon selects among what is offered ([select_params_correct]);
      offer, choice, configuration and encoder agree ([negotiation_sound]); what
      is written goes out as the encoder's frames, whole and in order
      ([writes_sound]); the state of the library follows its diagram in every
      interleaving ([state_protocol]), but signals can be lost
      ([wakeup_lost]).
    - eglib: linked lists are lists ([g_slist_refines_list],
      [g_slist_sort_correct]); UTF-8 is decided ([utf8_validate_correct]);
      strings hold what was appended ([gstring_appends]); the main loop uses
      nothing that was freed and ends its rounds, whatever the functions it
      calls do ([main_loop_safe]), and calls the timeouts that are due
      ([timeouts_fire]).
    - Flaws, each exhibited by a theorem: buffer overflows in the writer, an
      overcount and endless loops in the parsers, unchecked and colliding
      continuation states, a record freed while still registered, strings
      without terminator, setters that do not replace, keys that are a prefix
      of the first key of a file, a packet of length zero never sent, an SBC
      parser that reads one octet too many ([unpack_past_end]) and an encoder
      that writes past a short output ([short_output_overflows]), a formatted
      append that reads past its buffer ([gstring_append_reads_past]), a
      concatenation without its first string ([g_strconcat_drops_first]), a
      refused START that reads as an acceptance ([procedures_agree]).

    ** Not modelled

    [sdp_set_access_protos] and [sdp_get_access_protos], which link
    alternative protocol stacks through the [next] pointer of the attribute
    itself; [sdp_svcdb_reset], which runs at exit and leaves the static lists
    dangling; printing functions; the sockets of server.c; [sdp_connect] and
    [sdp_close], which only open and close sockets, and the asynchronous
    searches of sdp.c ([sdp_process]). The MMX and NEON assembly of the SBC
    codec. Of gmain.c the creation of processes, directories, error objects,
    key files, and the parts of the loop's interface that do nothing. Of avdtp.c
    the reference count and lookup of sessions, the timer that disconnects an
    idle one, callbacks registered per stream, several sessions that share end
    points, and error strings; the safety theorem is about the acceptor, as
    the initiator's [avdtp_open_resp] uses a null stream and
    [avdtp_get_capabilities_resp] an end point that may not be there. Of the
    rest of the repository, the HCI library, the hcid daemon and its D-Bus
    services, of the audio services what carries requests of D-Bus clients and
    messages of the library, headsets and remote controls, the network, serial and input
    services, the packet dumper and the command-line tools are outside this
    development. *)

From stdpp Require Import base list numbers.
From Stdlib Require Import ZArith Lia.

Local Open Scope Z_scope.

(** * Outcomes

    Every routine that touches memory or loops returns an [outcome]: [Ret] is
    a normal return, [Undef] an access the C standard leaves undefined (a read
    or write outside its object, a dereference of NULL or of a wild pointer),
    [NoFuel] a loop that was still running when the fuel of the model ran
    out. *)

Inductive outcome (A : Type) : Type :=
  | Ret (a : A)
  | Undef
  | NoFuel.
Arguments Ret {A} _.
Arguments Undef {A}.
Arguments NoFuel {A}.

#[export] Instance outcome_ret : MRet outcome := @Ret.
#[export] Instance outcome_bind : MBind outcome := fun A B f m =>
  match m with
  | Ret a => f a
  | Undef => Undef
  | NoFuel => NoFuel
  end.

Lemma outcome_bind_ret {A B} (a : A) (f : A → outcome B) : (Ret a ≫= f) = f a.
Proof. done. Qed.

Lemma outcome_bind_assoc {A B C} (m : outcome A) (f : A → outcome B) (g : B → outcome C) :
  ((m ≫= f) ≫= g) = (m ≫= λ x, f x ≫= g).
Proof. by destruct m. Qed.

Lemma outcome_bind_Ret_inv {A B} (m : outcome A) (f : A → outcome B) b :
  (m ≫= f) = Ret b → ∃ a, m = Ret a ∧ f a = Ret b.
Proof. destruct m; naive_solver. Qed.

(** A routine that cannot fail other than by running out of fuel. *)
Definition defined {A} (m : outcome A) : Prop := m ≠ Undef.

Lemma defined_bind {A B} (m : outcome A) (f : A → outcome B) :
  defined m → (∀ a, m = Ret a → defined (f a)) → defined (m ≫= f).
Proof. unfold defined. destruct m; naive_solver. Qed.

(** * Bytes and integers of a given width *)

Definition byte_ok (z : Z) : Prop := 0 ≤ z < 256.
#[export] Instance byte_ok_dec z : Decision (byte_ok z).
Proof. unfold byte_ok. apply _. Defined.

(** Conversions of the C abstract machine the sources rely on: [size_t] is 64
    bits wide, [int] 32, [short] 16. *)
Definition to_u8 (z : Z) : Z := z mod 2 ^ 8.
Definition to_u16 (z : Z) : Z := z mod 2 ^ 16.
Definition to_u32 (z : Z) : Z := z mod 2 ^ 32.
Definition to_size_t (z : Z) : Z := z mod 2 ^ 64.
Definition to_i32 (z : Z) : Z := (z + 2 ^ 31) mod 2 ^ 32 - 2 ^ 31.
Definition to_i16 (z : Z) : Z := (z + 2 ^ 15) mod 2 ^ 16 - 2 ^ 15.

(** [n < sizeof(...)] with [n] an [int]: the comparison is done in [size_t],
    so a negative [n] is huge. *)
Definition lt_size (n sz : Z) : bool := to_size_t n <? sz.

Lemma lt_size_nonneg n sz : 0 ≤ n < 2 ^ 64 → lt_size n sz = (n <? sz).
Proof. intros. unfold lt_size, to_size_t. by rewrite Z.mod_small. Qed.

Lemma lt_size_neg n sz :
  - 2 ^ 31 ≤ n < 0 → 0 ≤ sz ≤ 2 ^ 32 → lt_size n sz = false.
Proof.
  intros. unfold lt_size, to_size_t. apply Z.ltb_ge.
  replace n with (n + 2 ^ 64 + (-1) * 2 ^ 64) by lia.
  rewrite Z.mod_add, Z.mod_small by lia. lia.
Qed.

Lemma to_i32_small z : - 2 ^ 31 ≤ z < 2 ^ 31 → to_i32 z = z.
Proof. intros. unfold to_i32. rewrite Z.mod_small; lia. Qed.

Lemma to_i16_small z : - 2 ^ 15 ≤ z < 2 ^ 15 → to_i16 z = z.
Proof. intros. unfold to_i16. rewrite Z.mod_small; lia. Qed.

Lemma testbit_above k a i : 0 ≤ a < 2 ^ k → k ≤ i → Z.testbit a i = false.
Proof.
  intros Ha Hi. destruct (decide (a = 0)) as [->|]; [apply Z.bits_0|].
  apply Z.bits_above_log2; [lia|]. apply Z.log2_lt_pow2; [lia|].
  eapply Z.lt_le_trans; [apply Ha|]. destruct (decide (0 ≤ k)).
  - by apply Z.pow_le_mono_r.
  - rewrite Z.pow_neg_r in Ha by lia. lia.
Qed.

(** Two fields that do not overlap: [|] is [+]. *)
Lemma lor_shiftl_add k a b :
  0 ≤ k → 0 ≤ a < 2 ^ k → Z.lor a (Z.shiftl b k) = a + 2 ^ k * b.
Proof.
  intros Hk Ha. rewrite <- (Z.mul_comm b), <- Z.shiftl_mul_pow2 by done.
  assert (Z.land a (Z.shiftl b k) = 0) as H0.
  { apply Z.bits_inj'. intros i Hi. rewrite Z.land_spec, Z.bits_0, Z.shiftl_spec by lia.
    destruct (decide (i < k)).
    - rewrite (Z.testbit_neg_r b) by lia. apply andb_false_r.
    - by rewrite (testbit_above k) by lia. }
  by rewrite <- Z.lxor_lor, <- Z.add_nocarry_lxor.
Qed.

(** Little-endian memory image of an [n]-byte integer: the host order. *)
Fixpoint le_split (n : nat) (z : Z) : list Z :=
  match n with
  | O => []
  | S n => z mod 256 :: le_split n (z / 256)
  end.

Fixpoint le_join (l : list Z) : Z :=
  match l with
  | [] => 0
  | b :: l => b + 256 * le_join l
  end.

(** Network byte order. *)
Definition be_split (n : nat) (z : Z) : list Z := reverse (le_split n z).
Definition be_join (l : list Z) : Z := le_join (reverse l).

(** [htons]/[htonl]/[ntohs]/[ntohl] on a little-endian host: reverse the bytes
    of the [n]-byte integer. *)
Definition bswap (n : nat) (z : Z) : Z := le_join (reverse (le_split n z)).
Definition htons (z : Z) : Z := bswap 2 z.
Definition ntohs (z : Z) : Z := bswap 2 z.
Definition htonl (z : Z) : Z := bswap 4 z.
Definition ntohl (z : Z) : Z := bswap 4 z.

Lemma length_le_split n z : length (le_split n z) = n.
Proof. revert z. induction n; intros; simpl; auto. Qed.

Lemma le_split_ok n z : Forall byte_ok (le_split n z).
Proof.
  revert z. induction n; intros; simpl; constructor; auto.
  unfold byte_ok. apply Z.mod_pos_bound. lia.
Qed.

Lemma le_join_split n z : le_join (le_split n z) = z mod 2 ^ (8 * Z.of_nat n).
Proof.
  revert z. induction n as [|n IH]; intros z; simpl le_split; simpl le_join.
  - by rewrite Z.mod_1_r.
  - rewrite IH. replace (8 * Z.of_nat (S n)) with (8 + 8 * Z.of_nat n) by lia.
    rewrite Z.pow_add_r by lia. change (2 ^ 8) with 256.
    rewrite Z.rem_mul_r by lia. lia.
Qed.

Lemma le_join_bound l :
  Forall byte_ok l → 0 ≤ le_join l < 2 ^ (8 * Z.of_nat (length l)).
Proof.
  unfold byte_ok. induction 1 as [|b l Hb _ IH]; simpl; [lia|].
  replace (8 * Z.of_nat (S (length l))) with (8 + 8 * Z.of_nat (length l)) by lia.
  rewrite Z.pow_add_r by lia. change (2 ^ 8) with 256. lia.
Qed.

Lemma le_split_join l : Forall byte_ok l → le_split (length l) (le_join l) = l.
Proof.
  unfold byte_ok. induction 1 as [|b l Hb _ IH]; simpl; [done|].
  rewrite (Z.mul_comm 256), Z.mod_add, Z.div_add, Z.mod_small, Z.div_small by lia.
  by f_equal.
Qed.

Lemma le_join_app l k :
  le_join (l ++ k) = le_join l + 2 ^ (8 * Z.of_nat (length l)) * le_join k.
Proof.
  induction l as [|b l IH]; simpl; [lia|]. rewrite IH.
  replace (8 * Z.of_nat (S (length l))) with (8 + 8 * Z.of_nat (length l)) by lia.
  rewrite Z.pow_add_r by lia. change (2 ^ 8) with 256. lia.
Qed.

Lemma le_join_zeros n : le_join (replicate n 0) = 0.
Proof. induction n as [|n IH]; simpl; lia. Qed.

Lemma length_be_split n z : length (be_split n z) = n.
Proof. unfold be_split. by rewrite length_reverse, length_le_split. Qed.

Lemma be_split_ok n z : Forall byte_ok (be_split n z).
Proof. unfold be_split. apply Forall_reverse, le_split_ok. Qed.

Lemma be_join_cons b l : be_join (b :: l) = b * 2 ^ (8 * Z.of_nat (length l)) + be_join l.
Proof. unfold be_join. rewrite reverse_cons, le_join_app, length_reverse. simpl. lia. Qed.

Lemma be_join_split n z : be_join (be_split n z) = z mod 2 ^ (8 * Z.of_nat n).
Proof. unfold be_join, be_split. by rewrite reverse_involutive, le_join_split. Qed.

Lemma be_split_join l : Forall byte_ok l → be_split (length l) (be_join l) = l.
Proof.
  intros Hl. unfold be_join, be_split. rewrite <- (length_reverse l).
  rewrite le_split_join by (by apply Forall_reverse).
  apply reverse_involutive.
Qed.

(** Leading zero bytes do not change a big-endian value. *)
Lemma be_join_zeros n l : be_join (replicate n 0 ++ l) = be_join l.
Proof.
  unfold be_join. rewrite reverse_app, reverse_replicate, le_join_app, le_join_zeros. lia.
Qed.

Lemma be_join_bound l :
  Forall byte_ok l → 0 ≤ be_join l < 2 ^ (8 * Z.of_nat (length l)).
Proof.
  intros Hl. unfold be_join. rewrite <- (length_reverse l).
  apply le_join_bound. by apply Forall_reverse.
Qed.

(** Storing [hton(z)] in host order puts [z] in network order in memory, and
    [ntoh] of a host-order load reads it back. *)
Lemma le_split_bswap n z : le_split n (bswap n z) = be_split n z.
Proof.
  unfold bswap, be_split.
  rewrite <- (length_le_split n z) at 1. rewrite <- length_reverse.
  apply le_split_join. apply Forall_reverse, le_split_ok.
Qed.

Lemma bswap_le_join l : Forall byte_ok l → bswap (length l) (le_join l) = be_join l.
Proof. intros. unfold bswap, be_join. by rewrite le_split_join. Qed.

Lemma bswap_bswap n z : bswap n (bswap n z) = z mod 2 ^ (8 * Z.of_nat n).
Proof.
  unfold bswap at 1. rewrite le_split_bswap. unfold be_split.
  by rewrite reverse_involutive, le_join_split.
Qed.

Lemma bswap_bound n z : 0 ≤ bswap n z < 2 ^ (8 * Z.of_nat n).
Proof.
  unfold bswap.
  pose proof (le_join_bound (reverse (le_split n z))) as H.
  rewrite length_reverse, length_le_split in H.
  apply H, Forall_reverse, le_split_ok.
Qed.

Lemma le_split_add n m z :
  le_split (n + m) z = le_split n z ++ le_split m (z / 2 ^ (8 * Z.of_nat n)).
Proof.
  revert z. induction n as [|n IH]; intros z; simpl.
  - by rewrite Z.div_1_r.
  - f_equal. rewrite IH. f_equal. f_equal.
    rewrite Z.div_div by lia. f_equal.
    replace (8 * Z.of_nat (S n)) with (8 + 8 * Z.of_nat n) by lia.
    rewrite Z.pow_add_r by lia. done.
Qed.

Lemma le_split_mod n z : le_split n (z mod 2 ^ (8 * Z.of_nat n)) = le_split n z.
Proof.
  rewrite <- (le_join_split n z), <- (length_le_split n z) at 1.
  apply le_split_join, le_split_ok.
Qed.

Lemma be_split_mod n z : be_split n (z mod 2 ^ (8 * Z.of_nat n)) = be_split n z.
Proof. unfold be_split. by rewrite le_split_mod. Qed.

Lemma take_le_split_app n m z l : take n (le_split (n + m) z ++ l) = le_split n z.
Proof.
  rewrite le_split_add, <- app_assoc. by rewrite take_app_length' by by rewrite length_le_split.
Qed.

Lemma le_join_split_id n z : 0 ≤ z < 2 ^ (8 * Z.of_nat n) → le_join (le_split n z) = z.
Proof. intros. by rewrite le_join_split, Z.mod_small. Qed.

Lemma be_split_1 z : be_split 1 z = [z mod 256].
Proof. done. Qed.

Lemma be_split_2_form z : ∃ x y, be_split 2 z = [x; y].
Proof. by eexists _, _. Qed.

(** The stores of the sources: [bt_put_unaligned(hton(z), p)]. *)
Lemma put_u8 z : [to_u8 z] = be_split 1 z.
Proof. done. Qed.

Lemma put_htons z : le_split 2 (htons (to_u16 z)) = be_split 2 z.
Proof. unfold htons, to_u16. rewrite le_split_bswap. apply (be_split_mod 2). Qed.

Lemma put_htonl z : le_split 4 (htonl (to_u32 z)) = be_split 4 z.
Proof. unfold htonl, to_u32. rewrite le_split_bswap. apply (be_split_mod 4). Qed.

(** Swapping a double word by swapping its halves. *)
Lemma bswap_add n m z :
  bswap (n + m) z = bswap m (z / 2 ^ (8 * Z.of_nat n)) + 2 ^ (8 * Z.of_nat m) * bswap n z.
Proof.
  unfold bswap. by rewrite le_split_add, reverse_app, le_join_app, length_reverse, length_le_split.
Qed.

Lemma bswap_mod n z : bswap n (z mod 2 ^ (8 * Z.of_nat n)) = bswap n z.
Proof. unfold bswap. by rewrite le_split_mod. Qed.

#[global] Opaque le_split be_split bswap.

(** * Memory objects

    A pointer into an object is the list of the bytes from it to the end of
    the object, so [p += n] is [drop n p] and a read past the end is
    undefined. A write replaces bytes of the whole object. *)

Definition rd (n : nat) (p : list Z) : outcome (list Z) :=
  if decide (n ≤ length p)%nat then Ret (take n p) else Undef.

(** [*(uint8_t * ) p] *)
Definition rd8 (p : list Z) : outcome Z :=
  match p with
  | b :: _ => Ret b
  | [] => Undef
  end.

(** [bt_get_unaligned] of an [n]-byte integer in host order. *)
Definition get_unaligned (n : nat) (p : list Z) : outcome Z :=
  bs ← rd n p; Ret (le_join bs).

(** [memcpy(mem + off, bs, len)] / [bt_put_unaligned] at byte offset [off]. *)
Definition wr (mem : list Z) (off : Z) (bs : list Z) : outcome (list Z) :=
  if decide (0 ≤ off ∧ off + Z.of_nat (length bs) ≤ Z.of_nat (length mem))
  then Ret (take (Z.to_nat off) mem ++ bs ++ drop (Z.to_nat off + length bs) mem)
  else Undef.

(** [p + n] for a byte count held in an [int]. *)
Definition adv (n : Z) (p : list Z) : list Z := drop (Z.to_nat n) p.

Lemma rd_ok n p : (n ≤ length p)%nat → rd n p = Ret (take n p).
Proof. intros. unfold rd. by rewrite decide_True. Qed.

Lemma rd_app n bs p : length bs = n → rd n (bs ++ p) = Ret bs.
Proof.
  intros <-. rewrite rd_ok by (rewrite length_app; lia). by rewrite take_app_length.
Qed.

Lemma rd_defined n p : (n ≤ length p)%nat → defined (rd n p).
Proof. intros. by rewrite rd_ok. Qed.

Lemma get_unaligned_app n bs p :
  length bs = n → get_unaligned n (bs ++ p) = Ret (le_join bs).
Proof. intros. unfold get_unaligned. by rewrite rd_app. Qed.

Lemma wr_length mem off bs mem' : wr mem off bs = Ret mem' → length mem' = length mem.
Proof.
  unfold wr. case_decide as H; [|done]. intros [= <-].
  rewrite !length_app, length_take, length_drop. lia.
Qed.

(** Writing the bytes that follow a prefix [a]. *)
Lemma wr_app a b c bs off :
  off = Z.of_nat (length a) → length b = length bs →
  wr (a ++ b ++ c) off bs = Ret (a ++ bs ++ c).
Proof.
  intros -> Hl. unfold wr. rewrite decide_True by (rewrite !length_app; lia).
  rewrite Nat2Z.id, take_app_length. f_equal. f_equal. f_equal.
  rewrite app_assoc, <- Hl, <- length_app. apply drop_app_length.
Qed.

(** Error numbers. *)
Definition ENOENT : Z := 2.
Definition EINVAL : Z := 22.
Definition EILSEQ : Z := 84.

(** * List lemmas the components share *)

Lemma take_add {A} n m (l : list A) : take (n + m) l = take n l ++ take m (drop n l).
Proof.
  revert l. induction n; intros l; simpl; [done|].
  destruct l; simpl; [by rewrite take_nil|]. by rewrite IHn.
Qed.

Lemma filter_all {A} (P : A → Prop) `{∀ x, Decision (P x)} (l : list A) :
  (∀ x, x ∈ l → P x) → filter P l = l.
Proof.
  induction l as [|x l IH]; intros Hl; [done|]. rewrite filter_cons_True by (apply Hl; by left).
  f_equal. apply IH. intros y Hy. apply Hl. by right.
Qed.

(** * Automation *)

Create HintDb bytes.
Create Rewrite HintDb bytes.
#[export] Hint Resolve le_split_ok be_split_ok Forall_reverse : bytes.
#[export] Hint Rewrite length_le_split length_be_split @length_app @length_reverse
  @length_take @length_drop @length_replicate : bytes.

Ltac len := repeat progress (autorewrite with bytes in *; simpl length in *; simpl default in *);
  try lia.

(** Peel the binds of a hypothesis [H : (m ≫= f) = Ret b]. *)
Ltac inv_bind H :=
  let a := fresh "a" in let Ha := fresh "Hr" in
  apply outcome_bind_Ret_inv in H; destruct H as (a & Ha & H); simpl in H.

(** Equalities between results that differ in an integer computation. *)
Ltac norm_app := repeat (progress (rewrite <- ?app_assoc; simpl app)).
Ltac feq := norm_app; repeat progress (autorewrite with bytes; simpl length);
  repeat first [reflexivity | lia | progress f_equal].
