(* ===== verification/CString.v ===== *)
(** The parts of the C library the sources use on strings: the memory functions
    on a pointer (the bytes from it to the end of its object), conversions
    between numbers and text, and the lemmas about them. *)

From stdpp Require Import base list numbers.
From Stdlib Require Import ZArith Lia.
From S2P Require Import Prelude.

Local Open Scope Z_scope.

(** * Strings in memory

    A function that looks for a terminator or another character and leaves the
    object first is undefined. A string as a value has no terminator. *)

Fixpoint strlen (p : list Z) : outcome Z :=
  match p with
  | [] => Undef
  | b :: p => if b =? 0 then Ret 0 else n ← strlen p; Ret (n + 1)
  end.

Definition tolower (b : Z) : Z := if (65 <=? b) && (b <=? 90) then b + 32 else b.
Definition toupper (b : Z) : Z := if (97 <=? b) && (b <=? 122) then b - 32 else b.

(** [strncmp] and [strncasecmp]. *)
Fixpoint compare_n (fold : Z → Z) (n : nat) (a b : list Z) : outcome Z :=
  match n with
  | O => Ret 0
  | S n =>
      match a, b with
      | x :: a, y :: b =>
          if fold x =? fold y then if x =? 0 then Ret 0 else compare_n fold n a b
          else Ret (fold x - fold y)
      | _, _ => Undef
      end
  end.
Definition strncmp (a b : list Z) (n : nat) : outcome Z := compare_n id n a b.
Definition strncasecmp (a b : list Z) (n : nat) : outcome Z := compare_n tolower n a b.

(** [memchr(p, c, n)] as an offset. *)
Fixpoint memchr (p : list Z) (c : Z) (n : nat) {struct n} : outcome (option nat) :=
  match n with
  | O => Ret None
  | S n =>
      match p with
      | [] => Undef
      | b :: p => if b =? c then Ret (Some 0%nat) else r ← memchr p c n; Ret (option_map S r)
      end
  end.

(** [strpbrk(p, set)] as an offset, and [strspn(p, set)]. *)
Fixpoint strpbrk (p set : list Z) : outcome (option nat) :=
  match p with
  | [] => Undef
  | b :: p =>
      if b =? 0 then Ret None
      else if bool_decide (b ∈ set) then Ret (Some 0%nat) else r ← strpbrk p set; Ret (option_map S r)
  end.

Fixpoint strspn (p set : list Z) : outcome nat :=
  match p with
  | [] => Undef
  | b :: p =>
      if (b =? 0) || negb (bool_decide (b ∈ set)) then Ret 0%nat else r ← strspn p set; Ret (S r)
  end.

(** The string at [p], when its terminator or the end of the [n] bytes copied
    comes first: what [strncpy(dst, p, n)] leaves in a cleared [dst]. *)
Fixpoint cstring (p : list Z) : list Z :=
  match p with
  | [] => []
  | b :: p => if b =? 0 then [] else b :: cstring p
  end.

(** [strchr] of a string, as an offset. *)
Fixpoint strchr (p : list Z) (c : Z) : option nat :=
  match p with
  | [] => None
  | b :: p => if b =? c then Some 0%nat else S <$> strchr p c
  end.

(** [strstr(p, q)], when only whether it finds something matters. *)
Fixpoint strstr (p q : list Z) : bool :=
  bool_decide (q `prefix_of` p) || match p with [] => false | _ :: p => strstr p q end.

(** [sprintf] into a buffer of [size] bytes. *)
Definition sprintf (size : Z) (s : list Z) : outcome (list Z) :=
  if Z.of_nat (length s) <? size then Ret s else Undef.

Definition snprintf_bytes (size : Z) (s : list Z) : list Z := take (Z.to_nat (size - 1)) s.

(** * Numbers as text *)

Definition hex_value (b : Z) : option Z :=
  if (48 <=? b) && (b <=? 57) then Some (b - 48)
  else if (97 <=? b) && (b <=? 102) then Some (b - 97 + 10)
  else if (65 <=? b) && (b <=? 70) then Some (b - 65 + 10)
  else None.

Definition digit (base b : Z) : option Z :=
  match hex_value b with
  | Some d => if d <? base then Some d else None
  | None => None
  end.

(** The digits at the start of [p], up to the first other character. *)
Fixpoint digits (base : Z) (p : list Z) (acc : Z) : Z :=
  match p with
  | [] => acc
  | b :: p => match digit base b with Some d => digits base p (acc * base + d) | None => acc end
  end.

(** [strtoul(p, NULL, 16)] of a string that starts with a digit and whose
    value fits [unsigned long]. *)
Definition strtoul16 (p : list Z) : Z := digits 16 p 0.

Definition isspace (b : Z) : bool := (b =? 32) || ((9 <=? b) && (b <=? 13)).

Fixpoint skip_space (p : list Z) : list Z :=
  match p with
  | b :: q => if isspace b then skip_space q else p
  | [] => []
  end.

Definition starts_digit (base : Z) (p : list Z) : bool :=
  match p with b :: _ => bool_decide (is_Some (digit base b)) | [] => false end.

(** The prefix [0x] counts when a digit follows; base 0 takes the base from
    the prefix. *)
Definition base_prefix (base : Z) (p : list Z) : Z * list Z :=
  match p with
  | z :: q =>
      if z =? 48 then
        match q with
        | x :: q =>
            if ((x =? 120) || (x =? 88)) && ((base =? 0) || (base =? 16)) && starts_digit 16 q then (16, q)
            else (if base =? 0 then 8 else base, p)
        | [] => (if base =? 0 then 8 else base, p)
        end
      else (if base =? 0 then 10 else base, p)
  | [] => (if base =? 0 then 10 else base, p)
  end.

(** A number in text form, as [strtol] and the [%d] and [%x] of [sscanf] take
    it; [None] when there is no digit. *)
Definition number (base : Z) (p : list Z) : option Z :=
  let p := skip_space p in
  let neg := match p with b :: _ => b =? 45 | [] => false end in
  let p := match p with b :: q => if (b =? 45) || (b =? 43) then q else p | [] => [] end in
  let '(base, p) := base_prefix base p in
  if starts_digit base p then
    let v := digits base p 0 in Some (if neg then - v else v)
  else None.

Definition LONG_MAX : Z := 2 ^ 63 - 1.
Definition strtol (p : list Z) (base : Z) : Z :=
  Z.max (- LONG_MAX - 1) (Z.min LONG_MAX (default 0 (number base p))).

(** [%.<n>X] of a value below [16 ^ n], a byte string as pairs of such digits,
    and the small digits of [%x]. *)
Definition hex_char (d : Z) : Z := if d <? 10 then 48 + d else 55 + d.
Definition hex_char_lower (d : Z) : Z := if d <? 10 then 48 + d else 87 + d.
Definition hex_bytes (bs : list Z) : list Z := concat (map (λ b, [hex_char (b / 16); hex_char (b mod 16)]) bs).

Fixpoint hex_lower (n : nat) (v : Z) : list Z :=
  match n with
  | O => []
  | S n => hex_lower n (v / 16) ++ [hex_char_lower (v mod 16)]
  end.

(** The number of hexadecimal digits of a value below [16 ^ 8]. *)
Definition hex_len (v : Z) : nat := Z.to_nat (Z.log2 v / 4 + 1).

(** [%d] of an [int]: at most ten digits. *)
Fixpoint decimal (n : nat) (v : Z) : list Z :=
  match n with
  | O => []
  | S n => (if v <? 10 then [] else decimal n (v / 10)) ++ [48 + v mod 10]
  end.
Definition print_d (v : Z) : list Z := if v <? 0 then 45 :: decimal 10 (- v) else decimal 10 v.

(** * Lemmas *)

Lemma strlen_unterminated blk : Forall (λ b, b ≠ 0) blk → strlen blk = Undef.
Proof.
  induction 1 as [|b blk Hb _ IH]; simpl; [done|]. rewrite (proj2 (Z.eqb_neq _ _)) by done. by rewrite IH.
Qed.

Lemma strlen_terminated s rest : Forall (λ b, b ≠ 0) s → strlen (s ++ 0 :: rest) = Ret (Z.of_nat (length s)).
Proof.
  induction 1 as [|b s Hb _ IH]; simpl; [done|]. rewrite (proj2 (Z.eqb_neq _ _)) by done.
  rewrite IH. simpl. feq.
Qed.

Lemma cstring_id s rest : Forall (λ b, b ≠ 0) s → cstring (s ++ 0 :: rest) = s.
Proof.
  induction 1 as [|b s Hb _ IH]; simpl; [done|]. rewrite (proj2 (Z.eqb_neq _ _)) by done. by rewrite IH.
Qed.

Lemma cstring_all s : Forall (λ b, b ≠ 0) s → cstring s = s.
Proof.
  induction 1 as [|b s Hb _ IH]; simpl; [done|]. rewrite (proj2 (Z.eqb_neq _ _)) by done. by rewrite IH.
Qed.

(** Comparing with a key of exactly the length compared, up to folding. *)
Lemma compare_n_key fold key p rest :
  (∀ b, fold b = fold 0 → b = 0) → Forall (λ b, b ≠ 0) key → (length key ≤ length p)%nat →
  ∃ c, compare_n fold (length key) p (key ++ rest) = Ret c ∧
    (c = 0 ↔ map fold (take (length key) p) = map fold key).
Proof.
  intros H0 Hk. revert p. induction Hk as [|y key Hy _ IH]; intros p Hl; simpl in *; [by exists 0|].
  destruct p as [|x p]; simpl in *; [lia|]. destruct (Z.eqb_spec (fold x) (fold y)) as [E|E].
  - destruct (Z.eqb_spec x 0) as [->|_]; [by destruct Hy; apply H0|].
    destruct (IH p) as (c & -> & Hc); [lia|]. exists c. split; [done|]. rewrite Hc, E. split; [by intros ->|by intros [=]].
  - eexists. split; [done|]. split; [lia|]. intros [=]. done.
Qed.

Lemma tolower_zero b : tolower b = tolower 0 → b = 0.
Proof. unfold tolower at 2. simpl. unfold tolower. destruct (_ && _) eqn:E; [|done]. apply andb_prop in E. lia. Qed.

Lemma memchr_skip w c rest n :
  c ∉ w → (length w ≤ n)%nat → memchr (w ++ rest) c n = (r ← memchr rest c (n - length w); Ret (option_map (λ i, length w + i)%nat r)).
Proof.
  revert n. induction w as [|b w IH]; intros n Hc Hn; simpl.
  - rewrite Nat.sub_0_r. by destruct (memchr rest c n) as [[]| |].
  - destruct n as [|n]; simpl in *; [lia|]. rewrite not_elem_of_cons in Hc. destruct Hc as [Hb Hc].
    rewrite (proj2 (Z.eqb_neq _ _)) by done. rewrite IH by (done || lia). by destruct (memchr rest c _) as [[]| |].
Qed.

Lemma strpbrk_first w set c rest :
  Forall (λ b, b ≠ 0 ∧ b ∉ set) w → c ≠ 0 → c ∈ set → strpbrk (w ++ c :: rest) set = Ret (Some (length w)).
Proof.
  induction 1 as [|b w [Hb Hs] _ IH]; intros Hc Hin; simpl.
  - by rewrite (proj2 (Z.eqb_neq _ _)), bool_decide_true.
  - rewrite (proj2 (Z.eqb_neq _ _)), bool_decide_false, IH by done. done.
Qed.

Lemma strpbrk_none w set rest :
  Forall (λ b, b ≠ 0 ∧ b ∉ set) w → strpbrk (w ++ 0 :: rest) set = Ret None.
Proof.
  induction 1 as [|b w [Hb Hs] _ IH]; simpl; [done|]. by rewrite (proj2 (Z.eqb_neq _ _)), bool_decide_false, IH.
Qed.

Lemma hex_value_char d : 0 ≤ d < 16 → hex_value (hex_char d) = Some d ∧ hex_char d ≠ 45.
Proof.
  intros Hd. unfold hex_value, hex_char. destruct (Z.ltb_spec d 10).
  - rewrite !(proj2 (Z.leb_le _ _)) by lia. simpl. split; [f_equal|]; lia.
  - rewrite (proj2 (Z.leb_gt (55 + d) 57)), andb_false_r by lia.
    rewrite (proj2 (Z.leb_gt 97 (55 + d))) by lia. simpl.
    rewrite !(proj2 (Z.leb_le _ _)) by lia. simpl. split; [f_equal|]; lia.
Qed.

Lemma digit_hex_char d : 0 ≤ d < 16 → digit 16 (hex_char d) = Some d.
Proof. intros Hd. unfold digit. rewrite (proj1 (hex_value_char d Hd)). by rewrite (proj2 (Z.ltb_lt _ _)) by lia. Qed.

Lemma nibbles b : byte_ok b → 0 ≤ b / 16 < 16 ∧ 0 ≤ b mod 16 < 16.
Proof.
  unfold byte_ok. intros Hb. split; [|apply Z.mod_pos_bound; lia].
  split; [apply Z.div_pos|apply Z.div_lt_upper_bound]; lia.
Qed.

Lemma digits_hex bs acc :
  Forall byte_ok bs → digits 16 (hex_bytes bs) acc = acc * 2 ^ (8 * Z.of_nat (length bs)) + be_join bs.
Proof.
  intros HF. revert acc. induction HF as [|b bs Hb _ IH]; intros acc.
  - simpl. change (be_join []) with 0. lia.
  - destruct (nibbles b Hb) as [H1 H2]. unfold hex_bytes. cbn [map concat app digits].
    rewrite !digit_hex_char by done. fold (hex_bytes bs).
    rewrite IH, be_join_cons. simpl length.
    replace (8 * Z.of_nat (S (length bs))) with (8 + 8 * Z.of_nat (length bs)) by lia.
    rewrite Z.pow_add_r by lia. change (2 ^ 8) with 256.
    pose proof (Z.div_mod b 16). nia.
Qed.

Lemma strtoul16_hex bs : Forall byte_ok bs → strtoul16 (hex_bytes bs) = be_join bs.
Proof. intros. unfold strtoul16. by rewrite digits_hex. Qed.

Lemma length_hex_bytes bs : length (hex_bytes bs) = (2 * length bs)%nat.
Proof. unfold hex_bytes. induction bs as [|b bs IH]; simpl; [done|]. rewrite IH. lia. Qed.

Lemma hex_bytes_app a b : hex_bytes (a ++ b) = hex_bytes a ++ hex_bytes b.
Proof. unfold hex_bytes. by rewrite map_app, concat_app. Qed.

Lemma hex_value_range b d :
  hex_value b = Some d → (48 ≤ b ≤ 57 ∨ 65 ≤ b ≤ 70 ∨ 97 ≤ b ≤ 102) ∧ 0 ≤ d < 16.
Proof.
  unfold hex_value. intros H.
  destruct ((48 <=? b) && (b <=? 57)) eqn:E1; [|destruct ((97 <=? b) && (b <=? 102)) eqn:E2;
    [|destruct ((65 <=? b) && (b <=? 70)) eqn:E3; [|done]]];
    injection H as <-; [apply andb_prop in E1|apply andb_prop in E2|apply andb_prop in E3]; lia.
Qed.

Lemma digit_range base b d : digit base b = Some d → (48 ≤ b ≤ 57 ∨ 65 ≤ b ≤ 70 ∨ 97 ≤ b ≤ 102) ∧ 0 ≤ d < base.
Proof.
  unfold digit. destruct (hex_value b) as [x|] eqn:Hb; [|done]. apply hex_value_range in Hb.
  destruct (Z.ltb_spec x base); [|done]. intros [= <-]. lia.
Qed.

(** A number that starts with a digit and has no prefix. *)
Lemma number_digits base c q :
  base = 10 ∨ base = 16 → is_Some (digit base c) →
  (base = 16 → c = 48 → match q with x :: _ => x ≠ 120 ∧ x ≠ 88 | [] => True end) →
  number base (c :: q) = Some (digits base (c :: q) 0).
Proof.
  intros Hb [d Hd] Hq. pose proof (digit_range _ _ _ Hd) as [Hc _].
  unfold number. cbn [skip_space]. unfold isspace.
  rewrite (proj2 (Z.eqb_neq c 32)), (proj2 (Z.leb_gt c 13)), andb_false_r by lia. cbn [orb].
  rewrite (proj2 (Z.eqb_neq c 45)), (proj2 (Z.eqb_neq c 43)) by lia. cbn [orb].
  assert (base_prefix base (c :: q) = (base, c :: q)) as ->.
  { unfold base_prefix. rewrite (proj2 (Z.eqb_neq base 0)) by lia. destruct (Z.eqb_spec c 48) as [->|]; [|done].
    destruct q as [|x q]; [done|]. destruct (Z.eqb_spec base 16) as [->|]; [|by rewrite andb_false_r].
    destruct Hq as [H1 H2]; [done|done|]. by rewrite !(proj2 (Z.eqb_neq _ _)). }
  unfold starts_digit. rewrite bool_decide_true by (by eexists). done.
Qed.

Lemma digits_stop base p acc : starts_digit base p = false → digits base p acc = acc.
Proof. destruct p as [|b p]; [done|]. simpl. intros H%bool_decide_eq_false. destruct (digit base b); [|done]. by destruct H. Qed.

Lemma strtol_small p base z : number base p = Some z → - LONG_MAX - 1 ≤ z ≤ LONG_MAX → strtol p base = z.
Proof. intros H Hz. unfold strtol. rewrite H. simpl default. lia. Qed.

(** Two hexadecimal digits. *)
Lemma strtol_byte b rest :
  byte_ok b → starts_digit 16 rest = false → strtol (hex_bytes [b] ++ rest) 16 = b.
Proof.
  intros Hb Hr. destruct (nibbles b Hb) as [H1 H2]. unfold hex_bytes. cbn [map concat app].
  apply strtol_small.
  - rewrite number_digits.
    + cbn [digits]. rewrite !digit_hex_char, digits_stop by done. f_equal. pose proof (Z.div_mod b 16). lia.
    + by right.
    + rewrite digit_hex_char by done. by eexists.
    + intros _ _. pose proof (hex_value_range _ _ (proj1 (hex_value_char _ H2))). lia.
  - unfold byte_ok, LONG_MAX in *. lia.
Qed.

(** ** Decimal numbers *)

Lemma decimal_digits n v rest :
  0 ≤ v < 10 ^ Z.of_nat n → (0 < n)%nat → digits 10 (decimal n v ++ rest) 0 = digits 10 rest v.
Proof.
  revert v rest. induction n as [|n IH]; intros v rest Hv Hn; [lia|]. cbn [decimal].
  pose proof (Z.mod_pos_bound v 10 ltac:(lia)). pose proof (Z.div_mod v 10 ltac:(lia)).
  assert (digit 10 (48 + v mod 10) = Some (v mod 10)) as Hd.
  { unfold digit, hex_value. rewrite !(proj2 (Z.leb_le _ _)) by lia. simpl.
    replace (48 + v mod 10 - 48) with (v mod 10) by lia. by rewrite (proj2 (Z.ltb_lt _ _)) by lia. }
  rewrite <- app_assoc. destruct (Z.ltb_spec v 10).
  - simpl. rewrite Hd. f_equal. rewrite Z.mod_small; lia.
  - destruct n as [|n]; [simpl in Hv; lia|].
    rewrite IH; [|split; [apply Z.div_pos; lia|]|lia].
    + cbn [app digits]. rewrite Hd. f_equal. lia.
    + apply Z.div_lt_upper_bound; [lia|]. rewrite Nat2Z.inj_succ, Z.pow_succ_r in Hv by lia. lia.
Qed.

Lemma decimal_head n v : 0 ≤ v → (0 < n)%nat → ∃ c q, decimal n v = c :: q ∧ is_Some (digit 10 c).
Proof.
  revert v. induction n as [|n IH]; intros v Hv Hn; [lia|]. cbn [decimal].
  assert (is_Some (digit 10 (48 + v mod 10))) as Hd.
  { pose proof (Z.mod_pos_bound v 10 ltac:(lia)). unfold digit, hex_value. rewrite !(proj2 (Z.leb_le _ _)) by lia. simpl.
    rewrite (proj2 (Z.ltb_lt _ _)) by lia. by eexists. }
  destruct (Z.ltb_spec v 10); [by eexists _, _|]. destruct n as [|n]; [by eexists _, _|].
  destruct (IH (v / 10)) as (c & q & -> & Hc); [apply Z.div_pos; lia|lia|]. by eexists _, _.
Qed.

Lemma decimal_chars n v : 0 ≤ v → Forall (λ c, 48 ≤ c ≤ 57) (decimal n v).
Proof.
  revert v. induction n as [|n IH]; intros v Hv; cbn [decimal]; [done|].
  pose proof (Z.mod_pos_bound v 10 ltac:(lia)). apply Forall_app. split; [|by repeat constructor; lia].
  destruct (v <? 10); [done|]. apply IH, Z.div_pos; lia.
Qed.

(** [%d] of an [int] reads back. *)
Lemma number_print_d v rest :
  - 2 ^ 31 ≤ v < 2 ^ 31 → starts_digit 10 rest = false → number 10 (print_d v ++ rest) = Some v.
Proof.
  intros Hv Hr. unfold print_d. destruct (Z.ltb_spec v 0).
  - assert (number 10 (45 :: decimal 10 (- v) ++ rest) = option_map Z.opp (number 10 (decimal 10 (- v) ++ rest))) as E.
    { destruct (decimal_head 10 (- v)) as (c & q & -> & Hd); [lia|lia|]. cbn [app].
      rewrite (number_digits 10 c); [|by left|done|by intros]. unfold number. cbn [skip_space isspace Z.eqb Z.leb Z.compare Pos.compare andb orb].
      pose proof Hd as [d Hd']. pose proof (digit_range _ _ _ Hd') as [Hc _].
      change (isspace 45) with false. cbv iota. change ((45 =? 45) || (45 =? 43)) with true. cbv iota.
      assert (base_prefix 10 (c :: q ++ rest) = (10, c :: q ++ rest)) as ->.
      { unfold base_prefix. change (10 =? 0) with false. destruct (c =? 48); [|done]. destruct (q ++ rest); [done|].
        by rewrite andb_false_r. }
      unfold starts_digit. rewrite bool_decide_true by done. done. }
    cbn [app]. rewrite E. destruct (decimal_head 10 (- v)) as (c & q & Hq & Hd); [lia|lia|].
    rewrite Hq. cbn [app]. rewrite number_digits; [|by left|done|by intros]. change (c :: q ++ rest) with ((c :: q) ++ rest).
    rewrite <- Hq, decimal_digits, digits_stop by (done || lia). simpl. f_equal. lia.
  - destruct (decimal_head 10 v) as (c & q & Hq & Hd); [lia|lia|].
    rewrite Hq. cbn [app]. rewrite number_digits; [|by left|done|by intros]. change (c :: q ++ rest) with ((c :: q) ++ rest).
    rewrite <- Hq, decimal_digits, digits_stop by (done || lia). done.
Qed.

Lemma strtol_print_d v rest :
  - 2 ^ 31 ≤ v < 2 ^ 31 → starts_digit 10 rest = false → strtol (print_d v ++ rest) 10 = v.
Proof. intros Hv Hr. apply strtol_small; [by apply number_print_d|]. unfold LONG_MAX. lia. Qed.
