(* ===== verification/TextFile.v ===== *)
(** utils/common/textfile.c: a file of lines "key value" used as a table. The
    system calls act on an explicit store of files and may fail; the mapped
    file is its contents up to the end of the last page. Theorems: the file
    implements a finite map, and where it does not. *)

From stdpp Require Import base list numbers sorting gmap.
From Stdlib Require Import ZArith Lia.
From S2P Require Import Prelude CString.

Local Open Scope Z_scope.

(** * Files and system calls

    [w_faults] says how the next system calls fare, in order: they succeed once
    it is used up. [FShort] is a [write] that stores only that many bytes. *)
Inductive fault :=
  | FOk
  | FErr (e : Z)
  | FShort (n : nat).

Record world := World {
  w_files : gmap (list Z) (list Z);
  w_dirs : list (list Z);
  w_faults : list fault
}.

Definition set_files (f : gmap (list Z) (list Z)) (w : world) : world := World f (w_dirs w) (w_faults w).

Definition next_fault (w : world) : fault * world :=
  match w_faults w with
  | [] => (FOk, w)
  | f :: l => (f, World (w_files w) (w_dirs w) l)
  end.

Definition errno_of (f : fault) : Z := match f with FErr e => e | _ => 0 end.

(** The calls return 0 or the error number. [sys_call] stands for those that
    change nothing the model keeps: [flock], [fstat]. *)
Definition sys_call (w : world) : Z * world :=
  let '(f, w) := next_fault w in (errno_of f, w).

Definition sys_open (w : world) (path : list Z) : Z * world :=
  let '(f, w) := next_fault w in
  (match f with FErr e => e | _ => match w_files w !! path with Some _ => 0 | None => ENOENT end end, w).

Definition sys_creat (w : world) (path : list Z) : Z * world :=
  let '(f, w) := next_fault w in
  match f with
  | FErr e => (e, w)
  | _ => (0, match w_files w !! path with Some _ => w | None => set_files (<[path := []]> (w_files w)) w end)
  end.

Definition sys_mkdir (w : world) (dir : list Z) : world :=
  let '(f, w) := next_fault w in
  match f with FErr _ => w | _ => World (w_files w) (w_dirs w ++ [dir]) (w_faults w) end.

(** Mapping an empty file is an error. *)
Definition sys_mmap (w : world) (size : nat) : Z * world :=
  let '(f, w) := next_fault w in
  (match f with FErr e => e | _ => if bool_decide (size = 0%nat) then EINVAL else 0 end, w).

Definition contents (w : world) (path : list Z) : list Z := default [] (w_files w !! path).

Definition sys_ftruncate (w : world) (path : list Z) (n : nat) : Z * world :=
  let '(f, w) := next_fault w in
  match f with
  | FErr e => (e, w)
  | _ => (0, set_files (<[path := take n (contents w path)]> (w_files w)) w)
  end.

(** [write] at a position of the file; the position after it. *)
Definition sys_write (w : world) (path : list Z) (pos : nat) (data : list Z) : Z * nat * world :=
  let '(f, w) := next_fault w in
  let store data :=
    let c := contents w path in
    (0, (pos + length data)%nat,
     set_files (<[path := take pos c ++ data ++ drop (pos + length data) c]> (w_files w)) w) in
  match f with
  | FErr e => (e, pos, w)
  | FShort n => store (take n data)
  | FOk => store data
  end.

Definition PAGE_SIZE : Z := 4096.
Definition PATH_MAX : Z := 4096.

(** The pages of a mapped file: zeros follow the contents. *)
Definition mapping (c : list Z) : list Z :=
  c ++ replicate (Z.to_nat ((- Z.of_nat (length c)) mod PAGE_SIZE)) 0.

(** * Creating files *)

(** The loop of [create_dirs], from the character after a slash. *)
Fixpoint create_dirs_loop (fuel : nat) (w : world) (p dir : list Z) : outcome world :=
  match strchr p 47 with
  | None => Ret w
  | Some n =>
      match fuel with
      | O => NoFuel
      | S fuel =>
          if bool_decide (n = 0%nat) then create_dirs_loop fuel w (drop 1 p) dir
          else
            let dir := dir ++ take (S n) p in
            if PATH_MAX <? Z.of_nat (length dir) then Undef
            else create_dirs_loop fuel (sys_mkdir w dir) (drop (S n) p) dir
      end
  end.

Definition create_dirs (w : world) (filename : list Z) : outcome world :=
  let '(err, w) := sys_open w filename in
  if err =? 0 then Ret w
  else
    match strchr filename 47 with
    | None => Ret w
    | Some n => create_dirs_loop (length filename) w (drop (S n) filename) [47]
    end.

Definition create_file (w : world) (filename : list Z) : outcome (Z * world) :=
  w ← create_dirs w filename;
  let '(err, w) := sys_creat w filename in
  Ret (if err =? 0 then 0 else -1, w).

Definition create_name (size : Z) (path address name : list Z) : list Z :=
  snprintf_bytes size (path ++ 47 :: address ++ 47 :: name).

(** * Finding a key *)

Definition first_of (p1 p2 : option nat) : option nat :=
  match p1, p2 with
  | None, _ => p2
  | _, None => p1
  | Some n1, Some n2 => Some (if (n1 <? n2)%nat then n1 else n2)
  end.

(** A match counts at the start of the map, or between a line break and a
    space. *)
Definition key_at (map key : list Z) (icase : bool) (ptr : nat) : outcome bool :=
  let len := length key in
  cmp ← (if icase then strncasecmp (drop ptr map) (key ++ [0]) len
         else strncmp (drop ptr map) (key ++ [0]) len);
  if cmp =? 0 then
    if bool_decide (ptr = 0%nat) then Ret true
    else
      prev ← rd8 (drop (ptr - 1) map);
      if (prev =? 13) || (prev =? 10) then b ← rd8 (drop (ptr + len) map); Ret (b =? 32) else Ret false
  else Ret false.

Fixpoint find_key_loop (fuel : nat) (map : list Z) (size : nat) (key : list Z) (icase : bool) (ptr : nat)
    : outcome (option nat) :=
  let ptrlen := (size - ptr)%nat in
  if (length key + 1 <? ptrlen)%nat then
    match fuel with
    | O => NoFuel
    | S fuel =>
        found ← key_at map key icase ptr;
        if found : bool then Ret (Some ptr)
        else
          let c := hd 0 key in
          let next := drop (S ptr) map in
          r ← (if icase then
                 p1 ← memchr next (tolower c) (ptrlen - 1);
                 p2 ← memchr next (toupper c) (ptrlen - 1);
                 Ret (first_of p1 p2)
               else memchr next c (ptrlen - 1));
          match r with
          | None => Ret None
          | Some n => find_key_loop fuel map size key icase (S ptr + n)
          end
    end
  else Ret None.

Definition find_key (map : list Z) (size : nat) (key : list Z) (icase : bool) : outcome (option nat) :=
  find_key_loop size map size key icase 0.

(** * Writing *)

Definition line_break : list Z := [13; 10].

Definition write_key_value (w : world) (path : list Z) (pos : nat) (key value : list Z) : Z * nat * world :=
  sys_write w path pos (key ++ 32 :: value ++ [10]).

(** The end of [write_key]: the file is cut at [base], the new line written, if
    there is a value, and then what followed the old one. *)
Definition rewrite_from (w : world) (path : list Z) (base : nat) (key : list Z) (value : option (list Z))
    (tail : list Z) : Z * world :=
  let '(e, w) := sys_ftruncate w path base in
  if negb (e =? 0) then (e, w)
  else
    let '(err, pos, w) := match value with
                          | Some v => write_key_value w path base key v
                          | None => (0, base, w)
                          end in
    match tail with
    | [] => (err, w)
    | _ => let '(e, _, w) := sys_write w path pos tail in (if e =? 0 then err else e, w)
    end.

(** What [write_key] does with a non-empty file once it is mapped: the error
    number. *)
Definition update_map (w : world) (path : list Z) (c key : list Z) (value : option (list Z)) (icase : bool)
    : outcome (Z * world) :=
  let size := length c in
  let map := mapping c in
  off ← find_key map size key icase;
  match off with
  | None =>
      match value with
      | Some v => let '(e, _, w) := write_key_value w path size key v in Ret (e, w)
      | None => Ret (0, w)
      end
  | Some base =>
      let off := drop base map in
      r ← strpbrk off line_break;
      match r with
      | None => Ret (EILSEQ, w)
      | Some n =>
          let len := length key in
          let vlen := to_size_t (Z.of_nat n - Z.of_nat len - 1) in
          same ← match value with
                 | Some v =>
                     if Z.of_nat (length v) =? vlen then
                       cmp ← strncmp (drop (len + 1) off) (v ++ [0]) (length v); Ret (cmp =? 0)
                     else Ret false
                 | None => Ret false
                 end;
          if same : bool then Ret (0, w)
          else
            k ← strspn (drop n off) line_break;
            let stop := (base + n + k)%nat in
            let len := to_size_t (Z.of_nat size - Z.of_nat stop) in
            if Z.of_nat size <? len then Ret (EILSEQ, w)
            else
              tail ← rd (Z.to_nat len) (drop stop map);
              Ret (rewrite_from w path base key value tail)
      end
  end.

Definition write_key (w : world) (pathname key : list Z) (value : option (list Z)) (icase : bool)
    : outcome (Z * world) :=
  let '(e, w) := sys_open w pathname in
  if negb (e =? 0) then Ret (- e, w)
  else
    let '(e, w) := sys_call w in
    if negb (e =? 0) then Ret (- e, w)
    else
      let '(e, w) := sys_call w in
      if negb (e =? 0) then Ret (- e, w)
      else
        let c := contents w pathname in
        match c with
        | [] =>
            match value with
            | Some v => let '(e, _, w) := write_key_value w pathname 0 key v in Ret (- e, w)
            | None => Ret (0, w)
            end
        | _ =>
            let '(e, w) := sys_mmap w (length c) in
            if negb (e =? 0) then Ret (- e, w)
            else r ← update_map w pathname c key value icase; Ret (- r.1, r.2)
        end.

(** * Reading *)

(** The string, [None] for NULL. *)
Definition value_at (off key : list Z) : outcome (option (list Z)) :=
  r ← strpbrk off line_break;
  match r with
  | None => Ret None
  | Some n =>
      if (n <? length key + 1)%nat then Undef
      else Ret (Some (cstring (take (n - length key - 1) (drop (length key + 1) off))))
  end.

Definition read_key (w : world) (pathname key : list Z) (icase : bool) : outcome (option (list Z) * world) :=
  let '(e, w) := sys_open w pathname in
  if negb (e =? 0) then Ret (None, w)
  else
    let '(e, w) := sys_call w in
    if negb (e =? 0) then Ret (None, w)
    else
      let '(e, w) := sys_call w in
      if negb (e =? 0) then Ret (None, w)
      else
        let c := contents w pathname in
        let '(e, w) := sys_mmap w (length c) in
        if negb (e =? 0) then Ret (None, w)
        else
          off ← find_key (mapping c) (length c) key icase;
          match off with
          | None => Ret (None, w)
          | Some base => v ← value_at (drop base (mapping c)) key; Ret (v, w)
          end.

Definition textfile_put (w : world) (pathname key value : list Z) := write_key w pathname key (Some value) false.
Definition textfile_caseput (w : world) (pathname key value : list Z) := write_key w pathname key (Some value) true.
Definition textfile_del (w : world) (pathname key : list Z) := write_key w pathname key None false.
Definition textfile_casedel (w : world) (pathname key : list Z) := write_key w pathname key None true.
Definition textfile_get (w : world) (pathname key : list Z) := read_key w pathname key false.
Definition textfile_caseget (w : world) (pathname key : list Z) := read_key w pathname key true.

(** [func] is called with the bytes up to the space and up to the line
    break. *)
Fixpoint foreach_loop {A} (fuel : nat) (off : list Z) (func : list Z → list Z → A → A) (data : A) : outcome A :=
  match fuel with
  | O => NoFuel
  | S fuel =>
      r ← strpbrk off [32];
      match r with
      | None => Ret data
      | Some n =>
          let key := take n off in
          let off := drop (n + 1) off in
          r ← strpbrk off line_break;
          match r with
          | None => Ret data
          | Some n => foreach_loop fuel (drop (n + 1) off) func (func key (take n off) data)
          end
      end
  end.

Definition textfile_foreach {A} (w : world) (pathname : list Z) (func : list Z → list Z → A → A) (data : A)
    : outcome (Z * A * world) :=
  let '(e, w) := sys_open w pathname in
  if negb (e =? 0) then Ret (- e, data, w)
  else
    let '(e, w) := sys_call w in
    if negb (e =? 0) then Ret (0, data, w)
    else
      let '(e, w) := sys_call w in
      if negb (e =? 0) then Ret (0, data, w)
      else
        let c := contents w pathname in
        let '(e, w) := sys_mmap w (length c) in
        if negb (e =? 0) then Ret (0, data, w)
        else data ← foreach_loop (S (length c)) (mapping c) func data; Ret (0, data, w).

(** * Searching for a key

    [find_key] jumps from one occurrence of the first character of the key to
    the next; that finds the first position of the file where the key stands
    at the start of a line. [fold] is the identity or [tolower]. *)

Section find.
Context (fold : Z → Z) (Hfold : ∀ b z, z < 48 → fold b = fold z → b = z).

Definition hit (key : list Z) (prev : option Z) (p : list Z) : bool :=
  bool_decide (length key + 1 < length p)%nat && bool_decide (map fold (take (length key) p) = map fold key) &&
  match prev with
  | None => true
  | Some b => ((b =? 13) || (b =? 10)) && bool_decide (p !! length key = Some 32)
  end.

Fixpoint scan (key : list Z) (prev : option Z) (p : list Z) : option nat :=
  if hit key prev p then Some 0%nat
  else match p with [] => None | b :: p => S <$> scan key (Some b) p end.

Lemma scan_short key prev p : (length p ≤ length key + 1)%nat → scan key prev p = None.
Proof.
  revert prev. induction p as [|b p IH]; intros prev Hl; cbn [scan]; unfold hit;
    rewrite bool_decide_false by lia; [done|]. cbn [andb]. rewrite IH; [done|]. simpl in Hl. lia.
Qed.

Lemma hit_false_first key prev p c q :
  key = c :: q → match p with b :: _ => fold b ≠ fold c | [] => True end → hit key prev p = false.
Proof.
  intros -> Hb. unfold hit. destruct p as [|b p]; simpl; [done|].
  rewrite (bool_decide_false (fold b :: _ = _)) by (by intros [= ?]). by rewrite andb_false_r.
Qed.

Lemma scan_hit key prev p : hit key prev p = true → scan key prev p = Some 0%nat.
Proof. destruct p; cbn [scan]; by intros ->. Qed.

(** Skipping characters that cannot start the key. *)
Lemma scan_skip key c q prev w rest :
  key = c :: q → Forall (λ b, fold b ≠ fold c) w →
  ∃ prev', scan key prev (w ++ rest) = (λ i, length w + i)%nat <$> scan key prev' rest ∧
    prev' = match last w with Some b => Some b | None => prev end.
Proof.
  intros Hk HF. revert prev. induction HF as [|b w Hb HF IH]; intros prev.
  - eexists. split; [|reflexivity]. simpl. by destruct (scan key prev rest).
  - cbn [app scan]. rewrite (hit_false_first key prev _ c q) by done.
    destruct (IH (Some b)) as (prev' & -> & ->). eexists. split.
    + rewrite <- option_fmap_compose. unfold compose. reflexivity.
    + rewrite last_cons. by destruct (last w).
Qed.

Definition newline (b : Z) : Prop := b = 13 ∨ b = 10.

Lemma scan_inside key b w rest :
  ¬ newline b → Forall (λ x, ¬ newline x) w →
  scan key (Some b) (w ++ 10 :: rest) = (λ i, length w + 1 + i)%nat <$> scan key (Some 10) rest.
Proof.
  intros Hb HF. revert b Hb. induction HF as [|x w Hx HF IH]; intros b Hb; cbn [app scan].
  - assert (hit key (Some b) (10 :: rest) = false) as ->; [|done].
    unfold hit. rewrite (proj2 (Z.eqb_neq b 13)), (proj2 (Z.eqb_neq b 10)) by (unfold newline in Hb; lia).
    by rewrite andb_false_r.
  - assert (hit key (Some b) (x :: w ++ 10 :: rest) = false) as ->.
    { unfold hit. rewrite (proj2 (Z.eqb_neq b 13)), (proj2 (Z.eqb_neq b 10)) by (unfold newline in Hb; lia).
      by rewrite andb_false_r. }
    rewrite IH by done. rewrite <- option_fmap_compose. done.
Qed.

(** ** Lines *)

Definition entry : Type := list Z * list Z.
Definition line (e : entry) : list Z := e.1 ++ 32 :: e.2 ++ [10].
Definition render (l : list entry) : list Z := concat (map line l).

Definition key_char (b : Z) : Prop := b ≠ 0 ∧ b ≠ 32 ∧ b ≠ 13 ∧ b ≠ 10.
Definition value_char (b : Z) : Prop := b ≠ 0 ∧ b ≠ 13 ∧ b ≠ 10.
Definition key_ok (k : list Z) : Prop := k ≠ [] ∧ Forall key_char k.
Definition entry_ok (e : entry) : Prop := key_ok e.1 ∧ Forall value_char e.2.

Definition same_key (a b : list Z) : Prop := map fold a = map fold b.
#[export] Instance same_key_dec a b : Decision (same_key a b).
Proof. unfold same_key. apply _. Defined.

Lemma fold_key_char b : key_char b → fold b ≠ fold 32.
Proof. intros (_ & H & _) E. by apply Hfold in E. Qed.

Lemma scan_tail e prev rest key :
  entry_ok e → (prev = None ∨ prev = Some 10) → hit key prev (line e ++ rest) = false →
  scan key prev (line e ++ rest) = (λ i, length (line e) + i)%nat <$> scan key (Some 10) rest.
Proof.
  intros [[Hne Hk] Hv] Hprev Hhit. destruct e as [k v]. simpl in *. unfold line in *. cbn [fst snd] in *.
  destruct k as [|c k]; [done|]. cbn [app scan] in *. rewrite Hhit. apply Forall_cons_iff in Hk as [Hc Hk].
  replace ((k ++ 32 :: v ++ [10]) ++ rest) with ((k ++ 32 :: v) ++ 10 :: rest) by (by rewrite <- !app_assoc; simpl; rewrite <- app_assoc).
  rewrite scan_inside.
  - rewrite <- option_fmap_compose. unfold compose. apply option_fmap_ext. intros i. len.
  - unfold newline, key_char in *. lia.
  - apply Forall_app. split; [|constructor; [unfold newline; lia|]].
    + eapply Forall_impl; [exact Hk|]. unfold newline, key_char. simpl. lia.
    + eapply Forall_impl; [exact Hv|]. unfold newline, value_char. simpl. lia.
Qed.

(** At the start of a line other than the first, the key matches the whole key
    of the line; at the start of the file, a prefix of it. *)
Lemma hit_line e rest key :
  entry_ok e → key_ok key → hit key (Some 10) (line e ++ rest) = bool_decide (same_key e.1 key).
Proof.
  intros [[_ Hk] _] [_ Hkey]. destruct e as [k v]. simpl in *. unfold hit, line. cbn [fst snd orb]. simpl (10 =? _).
  change ((false || true) && ?x) with x.
  replace ((k ++ 32 :: v ++ [10]) ++ rest) with (k ++ 32 :: (v ++ [10] ++ rest)) by (by rewrite <- app_assoc; simpl; rewrite <- app_assoc).
  set (tl := v ++ [10] ++ rest). assert (1 ≤ length tl)%nat as Htl by (unfold tl; len).
  destruct (decide (same_key k key)) as [E|E].
  - assert (length key = length k) as Hl by (rewrite <- (length_map fold key), <- E; by rewrite length_map).
    rewrite (bool_decide_true (same_key _ _)) by done. rewrite !andb_true_iff, !bool_decide_eq_true, Hl. split_and!.
    + len.
    + rewrite take_app_length. exact E.
    + by rewrite list_lookup_middle.
  - rewrite (bool_decide_false (same_key _ _)) by done. apply andb_false_iff.
    destruct (decide (length key = length k)) as [Hl|Hl].
    + left. apply andb_false_iff. right. rewrite bool_decide_false; [done|]. by rewrite Hl, take_app_length.
    + destruct (decide (length key < length k)%nat) as [Hlt|Hlt].
      * right. apply bool_decide_eq_false. rewrite lookup_app_l by done. intros Hs.
        apply list_elem_of_lookup_2 in Hs. rewrite Forall_forall in Hk. apply Hk in Hs. by destruct Hs as (_ & ? & _).
      * left. apply andb_false_iff. right. apply bool_decide_eq_false. intros Hm.
        assert (key !! length k ≠ None) as Hx by (intros ?%lookup_ge_None; lia).
        destruct (key !! length k) as [x|] eqn:Ex; [|done].
        assert (map fold key !! length k = Some (fold x)) as H1 by (rewrite list_lookup_fmap, Ex; done).
        rewrite <- Hm, list_lookup_fmap, lookup_take, list_lookup_middle in H1 by lia.
        rewrite decide_True in H1 by lia. injection H1 as H1. apply list_elem_of_lookup_2 in Ex.
        rewrite Forall_forall in Hkey. apply Hkey in Ex. by apply fold_key_char in Ex.
Qed.

(** No key of the file extends [key]. *)
Definition prefix_safe (key : list Z) (l : list entry) : Prop :=
  Forall (λ e : entry, map fold key `prefix_of` map fold e.1 → same_key e.1 key) l.

Lemma hit_first e rest key :
  entry_ok e → key_ok key → (map fold key `prefix_of` map fold e.1 → same_key e.1 key) →
  hit key None (line e ++ rest) = bool_decide (same_key e.1 key).
Proof.
  intros He Hkey Hsafe. rewrite <- (hit_line e rest) by done. unfold hit.
  destruct (bool_decide _ && bool_decide (map fold (take _ _) = _)) eqn:E; [|done]. cbn [andb orb Z.eqb Pos.eqb].
  symmetry. apply bool_decide_eq_true. apply andb_prop in E as [E1 E2]. apply bool_decide_eq_true in E1, E2.
  destruct e as [k v]. destruct He as [[_ Hk] _], Hkey as [_ Hkey]. unfold line in *. cbn [fst snd] in *.
  replace ((k ++ 32 :: v ++ [10]) ++ rest) with (k ++ 32 :: (v ++ [10] ++ rest)) in *
    by (by rewrite <- app_assoc; simpl; rewrite <- app_assoc).
  assert (length key = length k) as ->; [|by rewrite list_lookup_middle].
  destruct (decide (length key ≤ length k)%nat) as [Hle|Hlt].
  - rewrite take_app_le in E2 by done.
    assert (same_key k key) as Hs by (apply Hsafe; exists (map fold (drop (length key) k)); by rewrite <- E2, <- map_app, take_drop).
    rewrite <- (length_map fold key), <- Hs. by rewrite length_map.
  - destruct (lookup_lt_is_Some_2 key (length k)) as [x Ex]; [lia|].
    assert (map fold key !! length k = Some (fold x)) as H1 by (rewrite list_lookup_fmap, Ex; done).
    rewrite <- E2, list_lookup_fmap, lookup_take, list_lookup_middle in H1 by lia.
    rewrite decide_True in H1 by lia. injection H1 as H1. apply list_elem_of_lookup_2 in Ex.
    rewrite Forall_forall in Hkey. apply Hkey in Ex. by apply fold_key_char in Ex.
Qed.

Lemma scan_render key l prev :
  Forall entry_ok l → key_ok key → prefix_safe key l → prev = None ∨ prev = Some 10 →
  scan key prev (render l) =
  (λ p : nat * entry, length (render (take p.1 l))) <$> list_find (λ e : entry, same_key e.1 key) l.
Proof.
  intros HF Hkey. revert prev. induction HF as [|e l He _ IH]; intros prev Hsafe Hprev.
  - by rewrite scan_short by (simpl; lia).
  - apply Forall_cons_iff in Hsafe as [Hs Hsafe]. cbn [render map concat list_find]. fold (render l).
    assert (hit key prev (line e ++ render l) = bool_decide (same_key e.1 key)) as Hh
      by (destruct Hprev as [-> | ->]; [by apply hit_first|by apply hit_line]).
    case_decide as E; cbn [fmap option_fmap option_map].
    + by rewrite scan_hit by by rewrite Hh, bool_decide_true.
    + rewrite scan_tail; [|done|done|by rewrite Hh, bool_decide_false].
      rewrite IH by auto. rewrite <- !option_fmap_compose. apply option_fmap_ext. intros [i x]. unfold compose, prod_map. simpl.
      by rewrite <- length_app.
Qed.

End find.

Definition fold_of (icase : bool) : Z → Z := if icase then tolower else id.

Lemma fold_of_low icase b z : z < 48 → fold_of icase b = fold_of icase z → b = z.
Proof.
  intros Hz. destruct icase; [|done]. unfold fold_of, tolower. intros E.
  destruct (Z.leb_spec 65 b), (Z.leb_spec b 90), (Z.leb_spec 65 z), (Z.leb_spec z 90); simpl in E; lia.
Qed.

Lemma memchr_find q rest c : memchr (q ++ rest) c (length q) = Ret (fst <$> list_find (λ b, b = c) q).
Proof.
  induction q as [|b q IH]; simpl; [done|]. destruct (Z.eqb_spec b c), (decide (b = c)); try done.
  rewrite IH. by destruct (list_find _ q) as [[]|].
Qed.

Lemma first_of_find (P Q : Z → Prop) `{∀ b, Decision (P b), ∀ b, Decision (Q b)} q :
  first_of (fst <$> list_find P q) (fst <$> list_find Q q) = fst <$> list_find (λ b, P b ∨ Q b) q.
Proof.
  induction q as [|b q IH]; [done|]. simpl.
  destruct (decide (P b)) as [HP|HP], (decide (Q b)) as [HQ|HQ], (decide (P b ∨ Q b)) as [HPQ|HPQ];
    try tauto; simpl; try done.
  - by destruct (list_find Q q) as [[]|].
  - by destruct (list_find P q) as [[]|].
  - destruct (list_find P q) as [[n1 x1]|], (list_find Q q) as [[n2 x2]|], (list_find _ q) as [[n3 x3]|];
      simpl in *; try done; simplify_eq; try done.
    change (S n1 <? S n2)%nat with (n1 <? n2)%nat. by destruct (n1 <? n2)%nat.
Qed.

Lemma fold_either b c : (b = tolower c ∨ b = toupper c) ↔ tolower b = tolower c.
Proof.
  unfold tolower, toupper. destruct (Z.leb_spec 65 c), (Z.leb_spec c 90), (Z.leb_spec 97 c), (Z.leb_spec c 122),
    (Z.leb_spec 65 b), (Z.leb_spec b 90); simpl; lia.
Qed.

(** The next candidate of [find_key]. *)
Lemma next_candidate (icase : bool) q rest c :
  (if icase then
     memchr (q ++ rest) (tolower c) (length q) ≫= λ p1,
     memchr (q ++ rest) (toupper c) (length q) ≫= λ p2, Ret (first_of p1 p2)
   else memchr (q ++ rest) c (length q)) =
  Ret (fst <$> list_find (λ b, fold_of icase b = fold_of icase c) q).
Proof.
  destruct icase; rewrite !memchr_find; [|done]. rewrite !outcome_bind_ret, first_of_find. f_equal. f_equal.
  apply list_find_ext. intros b. apply fold_either.
Qed.

Definition prev_at (c : list Z) (ptr : nat) : option Z := if decide (ptr = 0%nat) then None else c !! (ptr - 1)%nat.

Lemma key_at_hit c pad key (icase : bool) ptr :
  key_ok key → (ptr + length key + 1 < length c)%nat →
  key_at (c ++ pad) key icase ptr = Ret (hit (fold_of icase) key (prev_at c ptr) (drop ptr c)).
Proof.
  intros [Hne Hk] Hl. unfold key_at.
  assert (Forall (λ b, b ≠ 0) key) as Hnz by (eapply Forall_impl; [exact Hk|]; by intros ? [? _]).
  assert (∃ cmp, (if icase then strncasecmp (drop ptr (c ++ pad)) (key ++ [0]) (length key)
                  else strncmp (drop ptr (c ++ pad)) (key ++ [0]) (length key)) = Ret cmp ∧
                 (cmp = 0 ↔ map (fold_of icase) (take (length key) (drop ptr c)) = map (fold_of icase) key))
    as (cmp & Hcmp & Hz).
  { assert (take (length key) (drop ptr (c ++ pad)) = take (length key) (drop ptr c)) as <-.
    { rewrite drop_app_le by lia. apply take_app_le. rewrite length_drop. lia. }
    destruct icase; apply compare_n_key; try done; try (rewrite length_drop, length_app; lia).
    intros b. apply tolower_zero. }
  rewrite Hcmp, outcome_bind_ret. unfold hit.
  rewrite (bool_decide_true (_ < _)%nat) by (rewrite length_drop; lia). cbn [andb].
  destruct (Z.eqb_spec cmp 0) as [E|E]; 
    [rewrite (bool_decide_true (map _ _ = map _ _)) by tauto|by rewrite (bool_decide_false (map _ _ = map _ _)) by tauto].
  unfold prev_at. destruct (decide (ptr = 0%nat)) as [->|Hp]; [done|]. rewrite bool_decide_false by done.
  destruct (lookup_lt_is_Some_2 c (ptr - 1)) as [b Hb]; [lia|]. rewrite Hb.
  assert (∀ n x, c !! n = Some x → rd8 (drop n (c ++ pad)) = Ret x) as Hrd.
  { intros n x Hx. rewrite (drop_S _ x n) by (rewrite lookup_app_l by (by eapply lookup_lt_Some); done). done. }
  rewrite (Hrd (ptr - 1)%nat b), outcome_bind_ret by done. destruct ((b =? 13) || (b =? 10)); [|done]. cbn [andb].
  destruct (lookup_lt_is_Some_2 c (ptr + length key)) as [x Hx]; [lia|]. rewrite (Hrd (ptr + length key)%nat x), outcome_bind_ret by done.
  rewrite lookup_drop, Hx. f_equal. destruct (Z.eqb_spec x 32) as [->|]; [by rewrite bool_decide_true|].
  rewrite bool_decide_false; [done|]. by intros [= ->].
Qed.

Lemma last_cons_take (b : Z) q n :
  (n ≤ length q)%nat → (b :: q) !! n = match last (take n q) with Some x => Some x | None => Some b end.
Proof.
  revert b q. induction n as [|n IH]; intros b [|x q] Hn; simpl in *; try lia; [done|done|].
  rewrite (IH x q) by lia. rewrite last_cons. by destruct (last (take n q)).
Qed.

Lemma find_key_loop_scan c pad key (icase : bool) :
  key_ok key → ∀ fuel ptr, (length c ≤ ptr + fuel)%nat → (ptr ≤ length c)%nat →
  find_key_loop fuel (c ++ pad) (length c) key icase ptr =
  Ret ((λ i, ptr + i)%nat <$> scan (fold_of icase) key (prev_at c ptr) (drop ptr c)).
Proof.
  intros Hkey. induction fuel as [|fuel IH]; intros ptr Hf Hp.
  - cbn [find_key_loop]. rewrite (proj2 (Nat.ltb_ge _ _)) by lia. by rewrite scan_short by (rewrite length_drop; lia).
  - cbn [find_key_loop]. destruct (Nat.ltb_spec (length key + 1) (length c - ptr)) as [Hlt|Hge];
      [|by rewrite scan_short by (rewrite length_drop; lia)].
    rewrite key_at_hit, outcome_bind_ret by (done || lia).
    destruct (hit _ key _ (drop ptr c)) eqn:Hh; [rewrite scan_hit by done; simpl; by rewrite Nat.add_0_r|].
    destruct (drop ptr c) as [|b q] eqn:Hd; [apply (f_equal length) in Hd; rewrite length_drop in Hd; simpl in Hd; lia|].
    assert (drop (S ptr) c = q) as Hd' by (replace (S ptr) with (ptr + 1)%nat by lia; by rewrite <- drop_drop, Hd).
    assert (length q = length c - ptr - 1)%nat as Hq by (rewrite <- Hd', length_drop; lia).
    rewrite drop_app_le, Hd', <- Hq by lia. rewrite next_candidate, outcome_bind_ret.
    destruct key as [|k0 key]; [by destruct Hkey as [? _]|]. simpl hd. cbn [scan]. rewrite Hh.
    destruct (list_find _ q) as [[n x]|] eqn:Hfind; simpl fmap; cbv iota.
    + apply list_find_Some in Hfind as (Hn & Hx & Hbefore).
      rewrite <- (take_drop n q). rewrite IH; [|lia|apply lookup_lt_Some in Hn; lia].
      destruct (scan_skip (fold_of icase) (k0 :: key) k0 key (Some b) (take n q) (drop n q)) as (prev' & -> & Hprev).
      * done.
      * apply Forall_forall. intros y Hy. apply list_elem_of_lookup in Hy as [i Hi].
        apply lookup_take_Some in Hi as [Hi Hlt']. by apply Hbefore with (1 := Hi).
      * assert (prev_at c (S ptr + n) = prev') as ->.
        { rewrite Hprev. unfold prev_at. rewrite decide_False by lia.
          replace (S ptr + n - 1)%nat with (ptr + n)%nat by lia. rewrite <- lookup_drop, Hd.
          apply last_cons_take. apply lookup_lt_Some in Hn. lia. }
        assert (drop (S ptr + n) c = drop n q) as -> by (by rewrite <- drop_drop, Hd').
        rewrite length_take, Nat.min_l by (apply lookup_lt_Some in Hn; lia).
        rewrite <- !option_fmap_compose. f_equal. apply option_fmap_ext. intros i. unfold compose. lia.
    + apply list_find_None in Hfind. rewrite <- (app_nil_r q) at 1.
      destruct (scan_skip (fold_of icase) (k0 :: key) k0 key (Some b) q []) as (prev' & -> & _); [done|done|].
      by rewrite scan_short by (simpl; lia).
Qed.

(** The position [find_key] returns, in a file of lines. *)
Lemma find_key_render l pad key (icase : bool) :
  Forall entry_ok l → key_ok key → prefix_safe (fold_of icase) key l →
  find_key (render l ++ pad) (length (render l)) key icase =
  Ret ((λ p : nat * entry, length (render (take p.1 l))) <$>
       list_find (λ e : entry, same_key (fold_of icase) e.1 key) l).
Proof.
  intros Hl Hkey Hsafe. unfold find_key. rewrite find_key_loop_scan by (done || lia).
  rewrite drop_0, (scan_render (fold_of icase)); try done; [| |by left].
  - by destruct (list_find _ l) as [[]|].
  - intros b z. apply fold_of_low.
Qed.

(** * The file as a table *)

Definition table (icase : bool) (l : list entry) : gmap (list Z) (list Z) :=
  list_to_map (map (λ e : entry, (map (fold_of icase) e.1, e.2)) l).

Definition folded (icase : bool) (l : list entry) : list (list Z) := map (λ e : entry, map (fold_of icase) e.1) l.

Definition table_ok (icase : bool) (l : list entry) : Prop := Forall entry_ok l ∧ NoDup (folded icase l).

Definition find_entry (icase : bool) (key : list Z) (l : list entry) : option (nat * entry) :=
  list_find (λ e : entry, same_key (fold_of icase) e.1 key) l.

Lemma folded_keys icase l : (map (λ e : entry, (map (fold_of icase) e.1, e.2)) l).*1 = folded icase l.
Proof. unfold folded. induction l as [|e l IH]; [done|]. cbn [map]. rewrite fmap_cons. by f_equal. Qed.

Lemma table_lookup (icase : bool) l key :
  table icase l !! map (fold_of icase) key = (λ p : nat * entry, p.2.2) <$> find_entry icase key l.
Proof.
  unfold table, find_entry. induction l as [|e l IH]; [done|]. cbn [map list_to_map foldr fst snd list_find].
  case_decide as E; unfold same_key in E.
  - rewrite E. by rewrite lookup_insert_eq.
  - rewrite lookup_insert_ne by done. change (foldr _ _ _) with (table icase l). unfold table. rewrite IH.
    by destruct (list_find _ l) as [[]|].
Qed.

Lemma find_entry_Some (icase : bool) key l i e :
  find_entry icase key l = Some (i, e) →
  ∃ l1 l2, l = l1 ++ e :: l2 ∧ take i l = l1 ∧ map (fold_of icase) e.1 = map (fold_of icase) key.
Proof.
  intros (Hi & He & _)%list_find_Some. exists (take i l), (drop (S i) l). split; [|done].
  symmetry. by apply take_drop_middle.
Qed.

Lemma table_replace (icase : bool) l1 l2 e key v :
  map (fold_of icase) e.1 = map (fold_of icase) key → table_ok icase (l1 ++ e :: l2) → entry_ok (key, v) →
  table_ok icase (l1 ++ (key, v) :: l2) ∧
  table icase (l1 ++ (key, v) :: l2) = <[map (fold_of icase) key := v]> (table icase (l1 ++ e :: l2)).
Proof.
  intros He [HF Hnd] Hkv.
  assert (folded icase (l1 ++ (key, v) :: l2) = folded icase (l1 ++ e :: l2)) as Hfold
    by (unfold folded; rewrite !map_app; simpl; by rewrite He).
  split; [split|].
  - apply Forall_app in HF as [HF1 HF2]. apply Forall_cons_iff in HF2 as [_ HF2]. apply Forall_app. split; [done|by constructor].
  - by rewrite Hfold.
  - unfold table. rewrite !map_app. cbn [map]. rewrite He. cbn [fst snd].
    set (a := map _ l1). set (b := map _ l2).
    assert (map (fold_of icase) key ∉ a.*1) as Hni.
    { unfold a. rewrite folded_keys. unfold folded in *. rewrite map_app in Hnd. cbn [map] in Hnd. rewrite He in Hnd.
      apply NoDup_app in Hnd as (_ & Hd & _). intros Hin. apply (Hd _ Hin). by left. }
    rewrite !list_to_map_app. cbn [list_to_map foldr fst snd]. fold (list_to_map (M := gmap (list Z) (list Z)) b).
    apply not_elem_of_list_to_map_1 in Hni. rewrite insert_union_r by exact Hni. by rewrite insert_insert_eq.
Qed.

Lemma table_remove (icase : bool) l1 l2 e key :
  map (fold_of icase) e.1 = map (fold_of icase) key → table_ok icase (l1 ++ e :: l2) →
  table_ok icase (l1 ++ l2) ∧
  table icase (l1 ++ l2) = delete (map (fold_of icase) key) (table icase (l1 ++ e :: l2)).
Proof.
  intros He [HF Hnd]. unfold folded in Hnd. rewrite map_app in Hnd. cbn [map] in Hnd. rewrite He in Hnd.
  apply NoDup_app in Hnd as (Hn1 & Hd & Hn2). apply NoDup_cons in Hn2 as [Hni2 Hn2].
  apply Forall_app in HF as [HF1 HF2]. apply Forall_cons_iff in HF2 as [_ HF2].
  split; [split|].
  - by apply Forall_app.
  - unfold folded. rewrite map_app. apply NoDup_app. split_and!; [done| |done].
    intros x Hx Hx2. apply (Hd x Hx). by right.
  - unfold table. rewrite !map_app. cbn [map]. rewrite He. cbn [fst snd].
    set (a := map _ l1). set (b := map _ l2).
    assert (map (fold_of icase) key ∉ a.*1) as Hni.
    { unfold a. rewrite folded_keys. unfold folded. intros Hin. apply (Hd _ Hin). by left. }
    assert (map (fold_of icase) key ∉ b.*1) as Hni' by (unfold b; by rewrite folded_keys).
    rewrite !list_to_map_app. cbn [list_to_map foldr fst snd]. fold (list_to_map (M := gmap (list Z) (list Z)) b).
    apply not_elem_of_list_to_map_1 in Hni, Hni'. rewrite <- insert_union_r by done.
    rewrite delete_insert_id; [done|]. apply lookup_union_None. done.
Qed.

Lemma table_append (icase : bool) l key v :
  find_entry icase key l = None → table_ok icase l → entry_ok (key, v) →
  table_ok icase (l ++ [(key, v)]) ∧
  table icase (l ++ [(key, v)]) = <[map (fold_of icase) key := v]> (table icase l).
Proof.
  intros Hn [HF Hnd] Hkv.
  assert (map (fold_of icase) key ∉ folded icase l) as Hni.
  { intros Hin. unfold folded in Hin. apply list_elem_of_fmap in Hin as (e & He & Hin).
    apply list_find_None in Hn. rewrite Forall_forall in Hn. by apply (Hn e Hin). }
  split; [split|].
  - apply Forall_app. split; [done|by apply Forall_singleton].
  - unfold folded in *. rewrite map_app. apply NoDup_app. split_and!; [done| |by apply NoDup_singleton].
    intros x Hx ->%list_elem_of_singleton. done.
  - unfold table. rewrite map_app. cbn [map]. rewrite list_to_map_app. cbn [list_to_map foldr fst snd].
    rewrite <- insert_union_r, map_union_empty; [done|]. apply not_elem_of_list_to_map_1. by rewrite folded_keys.
Qed.

(** ** Reading and writing a table *)

Lemma line_form (e : entry) rest : line e ++ rest = (e.1 ++ 32 :: e.2) ++ 10 :: rest.
Proof. unfold line. rewrite <- !app_assoc. simpl. by rewrite <- app_assoc. Qed.

Lemma line_break_found e rest :
  entry_ok e → strpbrk (line e ++ rest) line_break = Ret (Some (length e.1 + 1 + length e.2)%nat).
Proof.
  intros [[_ Hk] Hv]. rewrite line_form, strpbrk_first.
  - f_equal. f_equal. len.
  - apply Forall_app. split; [|constructor].
    + eapply Forall_impl; [exact Hk|]. intros b (? & ? & ? & ?). split; [done|]. unfold line_break. set_solver.
    + split; [done|]. unfold line_break. set_solver.
    + eapply Forall_impl; [exact Hv|]. intros b (? & ? & ?). split; [done|]. unfold line_break. set_solver.
  - done.
  - unfold line_break. set_solver.
Qed.

Lemma value_at_line e rest key :
  entry_ok e → length key = length e.1 → value_at (line e ++ rest) key = Ret (Some e.2).
Proof.
  intros He Hl. unfold value_at. rewrite line_break_found, outcome_bind_ret by done.
  rewrite (proj2 (Nat.ltb_ge _ _)) by lia. f_equal. f_equal. rewrite Hl.
  replace (length e.1 + 1 + length e.2 - length e.1 - 1)%nat with (length e.2) by lia.
  rewrite line_form, <- app_assoc, <- drop_drop, drop_app_length. cbn [app drop]. rewrite drop_0, take_app_length.
  apply cstring_all. destruct He as [_ Hv]. eapply Forall_impl; [exact Hv|]. by intros b [? _].
Qed.

Lemma render_app l1 l2 : render (l1 ++ l2) = render l1 ++ render l2.
Proof. unfold render. by rewrite map_app, concat_app. Qed.

Lemma render_cons e l : render (e :: l) = line e ++ render l.
Proof. done. Qed.

Lemma render_nonempty e l : render (e :: l) ≠ [].
Proof. unfold render, line. simpl. by destruct e as [[|? ?] ?]. Qed.

Lemma no_faults w : w_faults w = [] → next_fault w = (FOk, w).
Proof. unfold next_fault. by intros ->. Qed.

Lemma no_faults_call w : w_faults w = [] → sys_call w = (0, w).
Proof. intros H. unfold sys_call. by rewrite no_faults. Qed.

Lemma no_faults_open w path c : w_faults w = [] → w_files w !! path = Some c → sys_open w path = (0, w).
Proof. intros H Hc. unfold sys_open. by rewrite no_faults, Hc. Qed.

Lemma no_faults_mmap w n : w_faults w = [] → n ≠ 0%nat → sys_mmap w n = (0, w).
Proof. intros H Hn. unfold sys_mmap. by rewrite no_faults, bool_decide_false. Qed.

(** Past the locking and the size of the file. *)
Ltac calls_succeed := do 2 (rewrite no_faults_call by done; cbn [negb Z.eqb]).

Lemma same_key_length icase a b : map (fold_of icase) a = map (fold_of icase) b → length a = length b.
Proof. intros H. apply (f_equal length) in H. by rewrite !length_map in H. Qed.

Lemma find_render (icase : bool) l pad key :
  Forall entry_ok l → key_ok key → prefix_safe (fold_of icase) key l →
  find_key (render l ++ pad) (length (render l)) key icase =
  Ret ((λ p : nat * entry, length (render (take p.1 l))) <$> find_entry icase key l).
Proof. apply find_key_render. Qed.

Lemma read_key_table w path l key icase :
  w_files w !! path = Some (render l) → w_faults w = [] → table_ok icase l → key_ok key →
  prefix_safe (fold_of icase) key l →
  read_key w path key icase = Ret (table icase l !! map (fold_of icase) key, w).
Proof.
  intros Hf Hw [HF _] Hkey Hsafe. unfold read_key.
  rewrite (no_faults_open _ _ (render l)) by done. cbn [negb Z.eqb]. calls_succeed.
  assert (contents w path = render l) as -> by (unfold contents; by rewrite Hf).
  destruct l as [|e0 l0].
  { unfold sys_mmap. rewrite no_faults by done. by rewrite bool_decide_true. }
  rewrite no_faults_mmap; [|done|by intros ?%nil_length_inv%render_nonempty]. cbn [negb Z.eqb].
  unfold mapping. set (pad := replicate _ _).
  rewrite find_render, outcome_bind_ret by done. rewrite table_lookup.
  destruct (find_entry icase key (e0 :: l0)) as [[i e]|] eqn:Hfind; [|done].
  apply find_entry_Some in Hfind as (l1 & l2 & Hl & Ht & He). cbn [fmap option_fmap option_map fst snd]. rewrite Ht.
  rewrite Hl in *. rewrite render_app, <- app_assoc, drop_app_length, render_cons, <- app_assoc.
  rewrite value_at_line; [done| |by symmetry; eapply same_key_length].
  rewrite Forall_forall in HF. apply HF, elem_of_app. right. by left.
Qed.

Definition with_file (w : world) (path c : list Z) : world := set_files (<[path := c]> (w_files w)) w.

Lemma with_file_files w path c : w_files (with_file w path c) !! path = Some c.
Proof. simpl. by rewrite lookup_insert_eq. Qed.

Lemma with_file_twice w path c c' : with_file (with_file w path c) path c' = with_file w path c'.
Proof. unfold with_file, set_files. simpl. by rewrite insert_insert_eq. Qed.

Lemma with_file_id w path c : w_files w !! path = Some c → with_file w path c = w.
Proof. intros H. unfold with_file, set_files. rewrite insert_id by done. by destruct w. Qed.

Lemma write_end w path c data :
  w_faults w = [] → w_files w !! path = Some c →
  sys_write w path (length c) data = (0, (length c + length data)%nat, with_file w path (c ++ data)).
Proof.
  intros Hw Hc. unfold sys_write. rewrite no_faults by done. unfold contents. rewrite Hc. simpl default.
  by rewrite take_ge, drop_ge, app_nil_r by lia.
Qed.

Definition new_line (key : list Z) (value : option (list Z)) : list Z :=
  match value with Some v => line (key, v) | None => [] end.

Lemma rewrite_from_ok w path c base key value tail :
  w_faults w = [] → w_files w !! path = Some c → (base ≤ length c)%nat →
  rewrite_from w path base key value tail = (0, with_file w path (take base c ++ new_line key value ++ tail)).
Proof.
  intros Hw Hc Hb. unfold rewrite_from, sys_ftruncate. rewrite no_faults by done.
  assert (contents w path = c) as -> by (unfold contents; by rewrite Hc).
  fold (with_file w path (take base c)). set (w1 := with_file w path (take base c)). cbn [negb Z.eqb].
  assert (length (take base c) = base) as Hl by (rewrite length_take; lia).
  assert ((match value with Some v => write_key_value w1 path base key v | None => (0, base, w1) end) =
          (0, (base + length (new_line key value))%nat, with_file w path (take base c ++ new_line key value))) as ->.
  { destruct value as [v|]; simpl new_line.
    - unfold write_key_value. rewrite <- Hl at 1. rewrite write_end by (done || apply with_file_files).
      unfold w1. by rewrite with_file_twice, Hl.
    - rewrite app_nil_r, Nat.add_0_r. done. }
  destruct tail as [|b tail]; [by rewrite app_nil_r|].
  replace (base + length (new_line key value))%nat with (length (take base c ++ new_line key value))
    by (rewrite length_app; lia).
  rewrite write_end by (done || apply with_file_files). rewrite with_file_twice, <- app_assoc. done.
Qed.

(** The memory the mapping gives past the contents. *)
Lemma mapping_pad c : Z.of_nat (length c) mod PAGE_SIZE ≠ 0 → ∃ pad, mapping c = c ++ 0 :: pad.
Proof.
  intros Hc. unfold mapping. destruct (Z.to_nat _) as [|n] eqn:E; [|by eexists].
  unfold PAGE_SIZE in *. exfalso. apply Hc.
  pose proof (Z.mod_pos_bound (- Z.of_nat (length c)) 4096 ltac:(lia)).
  pose proof (Z.div_mod (- Z.of_nat (length c)) 4096 ltac:(lia)).
  replace (Z.of_nat (length c)) with (- (- Z.of_nat (length c) / 4096) * 4096) by lia. apply Z.mod_mul. lia.
Qed.

Lemma strspn_break rest b :
  b ≠ 13 → b ≠ 10 → strspn (10 :: b :: rest) line_break = Ret 1%nat.
Proof.
  intros H1 H2. assert (b ∉ line_break) by (unfold line_break; set_solver).
  simpl. rewrite (bool_decide_false (b ∈ _)) by done. by rewrite orb_true_r.
Qed.

Lemma same_value v v' rest :
  Forall value_char v → length v = length v' →
  ∃ c, strncmp (v' ++ rest) (v ++ [0]) (length v) = Ret c ∧ (c = 0 ↔ v' = v).
Proof.
  intros Hv Hl. destruct (compare_n_key id v (v' ++ rest) [0]) as (c & Hc & Hz).
  - by intros.
  - eapply Forall_impl; [exact Hv|]. by intros b [? _].
  - rewrite length_app. lia.
  - exists c. split; [exact Hc|]. rewrite Hz, !map_id, Hl, take_app_length. done.
Qed.

(** The test for an unchanged value; [n] is where the line ends. *)
Lemma same_check (e : entry) (value : option (list Z)) (key rest : list Z) :
  match value with Some v => Forall value_char v ∧ length key = length e.1 | None => True end →
  Z.of_nat (length e.2) < 2 ^ 63 →
  (match value with
   | Some v =>
       if Z.of_nat (length v) =?
          to_size_t (Z.of_nat (length e.1 + 1 + length e.2) - Z.of_nat (length key) - 1) then
         strncmp (drop (length key + 1) (line e ++ rest)) (v ++ [0]) (length v) ≫= λ cmp, Ret (cmp =? 0)
       else Ret false
   | None => Ret false
   end) = Ret (bool_decide (value = Some e.2)).
Proof.
  intros Hv Hsize. destruct value as [v|]; [|done]. destruct Hv as [Hv Hl].
  assert (to_size_t (Z.of_nat (length e.1 + 1 + length e.2) - Z.of_nat (length key) - 1) = Z.of_nat (length e.2)) as ->
    by (unfold to_size_t; rewrite Z.mod_small; lia).
  destruct (Z.eqb_spec (Z.of_nat (length v)) (Z.of_nat (length e.2))) as [E|E].
  - rewrite line_form, <- app_assoc, <- drop_drop, Hl, drop_app_length. cbn [app drop]. rewrite drop_0.
    destruct (same_value v e.2 (10 :: rest)) as (c & -> & Hc); [done|lia|].
    rewrite outcome_bind_ret. f_equal. destruct (Z.eqb_spec c 0).
    + rewrite bool_decide_true; [done|]. f_equal. symmetry. tauto.
    + rewrite bool_decide_false; [done|]. intros [= ->]. tauto.
  - rewrite bool_decide_false; [done|]. intros [= ->]. done.
Qed.

Lemma line_end e rest : drop (length e.1 + 1 + length e.2) (line e ++ rest) = 10 :: rest.
Proof. rewrite line_form. apply drop_app_length'. len. Qed.

Lemma length_line e : length (line e) = (length e.1 + 1 + length e.2 + 1)%nat.
Proof. unfold line. rewrite length_app. simpl. rewrite length_app. simpl. lia. Qed.

Lemma breaks_after_line l2 pad : Forall entry_ok l2 → strspn (10 :: render l2 ++ 0 :: pad) line_break = Ret 1%nat.
Proof.
  intros HF. destruct l2 as [|[[|b k] v] l2]; [by apply strspn_break| |]; apply Forall_cons_iff in HF as [[[Hne Hk] _] _].
  - done.
  - apply Forall_cons_iff in Hk as [(_ & _ & ? & ?) _]. by apply strspn_break.
Qed.

(** What is done with the line [find_key] has found. *)
Lemma update_map_at w path l1 e l2 key value icase :
  w_faults w = [] → w_files w !! path = Some (render (l1 ++ e :: l2)) → Forall entry_ok (l1 ++ e :: l2) →
  find_key (mapping (render (l1 ++ e :: l2))) (length (render (l1 ++ e :: l2))) key icase =
    Ret (Some (length (render l1))) →
  Z.of_nat (length (render (l1 ++ e :: l2))) < 2 ^ 63 →
  Z.of_nat (length (render (l1 ++ e :: l2))) mod PAGE_SIZE ≠ 0 →
  match value with Some v => Forall value_char v ∧ length key = length e.1 | None => True end →
  update_map w path (render (l1 ++ e :: l2)) key value icase =
  Ret (0, if bool_decide (value = Some e.2) then w
          else with_file w path (render l1 ++ new_line key value ++ render l2)).
Proof.
  intros Hw Hf HF Hfind Hsize Hpage Hv. unfold update_map. rewrite Hfind, outcome_bind_ret.
  destruct (mapping_pad _ Hpage) as [pad ->]. apply Forall_app in HF as [_ HF]. apply Forall_cons_iff in HF as [Heok HF2].
  set (len1 := length (render l1)). set (n := (length e.1 + 1 + length e.2)%nat).
  assert (length (render (l1 ++ e :: l2)) = len1 + n + 1 + length (render l2))%nat as Hlen.
  { rewrite render_app, render_cons, !length_app, length_line. lia. }
  assert (drop len1 (render (l1 ++ e :: l2) ++ 0 :: pad) = line e ++ (render l2 ++ 0 :: pad)) as Hdrop.
  { rewrite render_app, <- app_assoc. unfold len1. rewrite drop_app_length, render_cons. by rewrite <- app_assoc. }
  rewrite Hdrop, line_break_found, outcome_bind_ret by done.
  rewrite same_check by (done || lia). rewrite outcome_bind_ret. destruct (bool_decide (value = Some e.2)); [done|].
  rewrite line_end, breaks_after_line, outcome_bind_ret by done. fold n.
  assert (to_size_t (Z.of_nat (length (render (l1 ++ e :: l2))) - Z.of_nat (len1 + n + 1)) =
          Z.of_nat (length (render l2))) as ->.
  { unfold to_size_t. rewrite Hlen in *. rewrite Z.mod_small; lia. }
  rewrite (proj2 (Z.ltb_ge _ _)) by lia. rewrite Nat2Z.id.
  assert (drop (len1 + n + 1) (render (l1 ++ e :: l2) ++ 0 :: pad) = render l2 ++ 0 :: pad) as ->.
  { rewrite <- Nat.add_assoc, <- drop_drop, Hdrop, <- drop_drop. unfold n. by rewrite line_end. }
  rewrite rd_app, outcome_bind_ret by done.
  rewrite rewrite_from_ok with (c := render (l1 ++ e :: l2)); [|done|done|lia].
  unfold len1. by rewrite render_app, take_app_length.
Qed.

(** [write_key] on a file of lines, past the system calls. *)
Lemma write_key_runs w path c key value icase :
  w_files w !! path = Some c → w_faults w = [] →
  write_key w path key value icase =
  match c with
  | [] => Ret (0, match value with Some v => with_file w path (line (key, v)) | None => w end)
  | _ => r ← update_map w path c key value icase; Ret (- r.1, r.2)
  end.
Proof.
  intros Hf Hw. unfold write_key. rewrite (no_faults_open _ _ c) by done. cbn [negb Z.eqb]. calls_succeed.
  assert (contents w path = c) as -> by (unfold contents; by rewrite Hf).
  destruct c as [|b c].
  - destruct value as [v|]; [|done]. unfold write_key_value. change 0%nat with (length (@nil Z)).
    by rewrite write_end.
  - rewrite no_faults_mmap by done. done.
Qed.

Lemma write_key_table w path l key value icase :
  w_files w !! path = Some (render l) → w_faults w = [] → table_ok icase l → key_ok key →
  match value with Some v => Forall value_char v | None => True end →
  prefix_safe (fold_of icase) key l → Z.of_nat (length (render l)) < 2 ^ 63 →
  l = [] ∨ Z.of_nat (length (render l)) mod PAGE_SIZE ≠ 0 →
  ∃ l', write_key w path key value icase = Ret (0, with_file w path (render l')) ∧ table_ok icase l' ∧
    table icase l' = partial_alter (λ _, value) (map (fold_of icase) key) (table icase l).
Proof.
  intros Hf Hw Hok Hkey Hv Hsafe Hsize Hpage. rewrite (write_key_runs _ _ (render l)) by done.
  destruct (find_entry icase key l) as [[i e]|] eqn:Hfind.
  - pose proof Hfind as (l1 & l2 & -> & Ht & He)%find_entry_Some.
    assert (i = length l1) as ->.
    { apply list_find_Some in Hfind as (Hi%lookup_lt_Some & _). rewrite <- Ht, length_take. lia. }
    destruct Hpage as [E|Hpage]; [by destruct l1|].
    rewrite (update_map_at _ _ _ e); try done; [|apply Hok| |].
    2: { unfold mapping. rewrite find_render, Hfind by (done || apply Hok). simpl. by rewrite take_app_length. }
    2: { destruct value; [|done]. split; [done|]. by symmetry; eapply same_key_length. }
    destruct (render (l1 ++ e :: l2)) as [|b c] eqn:Hr; [rewrite render_app in Hr; by apply app_eq_nil in Hr as [_ ?%render_nonempty]|].
    rewrite outcome_bind_ret. cbn [fst snd]. rewrite <- Hr in *. destruct value as [v|].
    + destruct (decide (v = e.2)) as [->|Hne].
      * rewrite bool_decide_true by done. exists (l1 ++ e :: l2). split_and!; [by rewrite with_file_id|done|].
        symmetry. change (<[map (fold_of icase) key := e.2]> (table icase (l1 ++ e :: l2)) = table icase (l1 ++ e :: l2)).
        apply insert_id. by rewrite table_lookup, Hfind.
      * rewrite bool_decide_false by congruence. destruct (table_replace icase l1 l2 e key v) as [H1 H2]; [done|done|by split|].
        exists (l1 ++ (key, v) :: l2). split_and!; [by rewrite render_app, render_cons|done|exact H2].
    + destruct (table_remove icase l1 l2 e key) as [H1 H2]; [done|done|].
      exists (l1 ++ l2). split_and!; [by rewrite bool_decide_false, render_app|done|exact H2].
  - assert ((update_map w path (render l) key value icase ≫= λ r, Ret (- r.1, r.2)) =
            Ret (0, with_file w path (render l ++ new_line key value))) as Hupd.
    { unfold update_map, mapping. rewrite find_render, Hfind, outcome_bind_ret by (done || apply Hok).
      cbn [fmap option_fmap option_map]. destruct value as [v|]; simpl new_line.
      - unfold write_key_value. by rewrite write_end.
      - rewrite app_nil_r, with_file_id by done. done. }
    destruct value as [v|]; simpl new_line in Hupd.
    + destruct (table_append icase l key v) as [H1 H2]; [done|done|by split|].
      exists (l ++ [(key, v)]). split_and!; [|done|exact H2]. rewrite render_app.
      assert (render [(key, v)] = line (key, v)) as -> by apply app_nil_r.
      destruct l as [|e l]; [done|]. destruct (render (e :: l)) eqn:E; [by apply render_nonempty in E|].
      by rewrite Hupd.
    + exists l. split_and!; [|done|].
      * rewrite app_nil_r in Hupd. destruct (render l); [|done]. by rewrite with_file_id.
      * symmetry. change (delete (map (fold_of icase) key) (table icase l) = table icase l).
        apply delete_id. by rewrite table_lookup, Hfind.
Qed.

(** Enumeration: [func] is called for every entry in order. *)
Lemma foreach_lines {A} l end_ (func : list Z → list Z → A → A) fuel data :
  Forall entry_ok l →
  foreach_loop (length l + fuel) (render l ++ end_) func data =
  foreach_loop fuel end_ func (foldl (λ d e, func e.1 e.2 d) data l).
Proof.
  intros HF. revert data. induction HF as [|e l He HF IH]; intros data; [done|].
  cbn [foreach_loop foldl length Nat.add]. rewrite render_cons, <- app_assoc. destruct He as [[_ Hk] Hv].
  assert (line e ++ render l ++ end_ = e.1 ++ 32 :: (e.2 ++ 10 :: (render l ++ end_))) as ->
    by (rewrite line_form, <- app_assoc; done).
  rewrite strpbrk_first, outcome_bind_ret; [|eapply Forall_impl; [exact Hk|]|done|set_solver].
  2: { intros b (? & ? & _). split; [done|]. set_solver. }
  rewrite <- drop_drop, drop_app_length. cbn [drop]. rewrite drop_0, take_app_length.
  rewrite strpbrk_first, outcome_bind_ret; [|eapply Forall_impl; [exact Hv|]|done|unfold line_break; set_solver].
  2: { intros b (? & ? & ?). split; [done|]. unfold line_break. set_solver. }
  rewrite <- drop_drop, drop_app_length. cbn [drop]. rewrite drop_0, take_app_length. apply IH.
Qed.

Lemma length_render l : (length l ≤ length (render l))%nat.
Proof. induction l as [|e l IH]; [simpl; lia|]. rewrite render_cons, length_app, length_line. simpl length. lia. Qed.

Lemma foreach_table {A} w path l (func : list Z → list Z → A → A) data :
  w_files w !! path = Some (render l) → w_faults w = [] → Forall entry_ok l →
  l = [] ∨ Z.of_nat (length (render l)) mod PAGE_SIZE ≠ 0 →
  textfile_foreach w path func data = Ret (0, foldl (λ d e, func e.1 e.2 d) data l, w).
Proof.
  intros Hf Hw HF Hpage. unfold textfile_foreach. rewrite (no_faults_open _ _ (render l)) by done. cbn [negb Z.eqb].
  calls_succeed. assert (contents w path = render l) as -> by (unfold contents; by rewrite Hf).
  destruct l as [|e l]; [unfold sys_mmap; rewrite no_faults by done; by rewrite bool_decide_true|].
  destruct Hpage as [?|Hpage]; [done|]. rewrite no_faults_mmap; [|done|by intros ?%nil_length_inv%render_nonempty].
  cbn [negb Z.eqb]. destruct (mapping_pad _ Hpage) as [pad ->]. pose proof (length_render (e :: l)).
  replace (S (length (render (e :: l)))) with (length (e :: l) + S (length (render (e :: l)) - length (e :: l)))%nat by lia.
  by rewrite foreach_lines by done.
Qed.


(** ["mode on", "name x"] *)
Definition example_lines : list entry :=
  [([109; 111; 100; 101], [111; 110]); ([110; 97; 109; 101], [120])].
Definition example_world : world := World {[[47] := render example_lines]} [] [].

Lemma example_lines_ok icase : table_ok icase example_lines.
Proof.
  split.
  - repeat constructor; simpl; try done.
  - unfold folded. destruct icase; vm_compute; repeat constructor; set_solver.
Qed.




(** The first key of a file. A key that is missing but is extended by the
    key of the first line is taken to be there: [textfile_get] returns the text
    one character after the match, and [textfile_del] deletes the entry of
    the other key. The test for the space after the key is skipped when the
    match is at the start of the map. *)
Theorem textfile_first_key_prefix (w : world) (path key y v : list Z) (x : Z) (l : list entry)
    (Hfile : w_files w !! path = Some (render ((key ++ x :: y, v) :: l))) (Hfaults : w_faults w = [])
    (Hok : table_ok false ((key ++ x :: y, v) :: l)) (Hkey : key_ok key)
    (Hsize : Z.of_nat (length (render ((key ++ x :: y, v) :: l))) < 2 ^ 63)
    (Hpage : Z.of_nat (length (render ((key ++ x :: y, v) :: l))) mod PAGE_SIZE ≠ 0) :
  textfile_get w path key = Ret (Some (y ++ 32 :: v), w) ∧
  textfile_del w path key = Ret (0, with_file w path (render l)).
Proof.
  set (e := (key ++ x :: y, v)) in *. destruct Hok as [HF _].
  assert (Hfind : ∀ pad, find_key (render (e :: l) ++ pad) (length (render (e :: l))) key false = Ret (Some 0%nat)).
  { intros pad. unfold find_key. rewrite find_key_loop_scan by (done || lia). rewrite drop_0, scan_hit; [done|].
    unfold hit, prev_at. rewrite decide_True by done. rewrite andb_true_r, andb_true_iff, !bool_decide_eq_true.
    rewrite render_cons. unfold line, e. simpl. split.
    - len.
    - by rewrite <- !app_assoc, take_app_length. }
  destruct (mapping_pad _ Hpage) as [pad Hpad].
  pose proof HF as [Heok _]%Forall_cons_iff. pose proof (render_nonempty e l) as Hne.
  split.
  - unfold textfile_get, read_key. rewrite (no_faults_open _ _ (render (e :: l))) by done. cbn [negb Z.eqb]. calls_succeed.
    assert (contents w path = render (e :: l)) as -> by (unfold contents; by rewrite Hfile).
    rewrite no_faults_mmap by (done || by intros ?%nil_length_inv). cbn [negb Z.eqb].
    rewrite Hpad, Hfind, outcome_bind_ret. cbv iota.
    rewrite drop_0, render_cons, <- app_assoc. unfold value_at. rewrite line_break_found, outcome_bind_ret by done.
    unfold e at 1 2 3. cbn [fst snd]. rewrite length_app. simpl length at 2 3 4.
    rewrite (proj2 (Nat.ltb_ge _ _)) by lia. rewrite outcome_bind_ret. f_equal. f_equal. f_equal.
    assert (line e ++ render l ++ 0 :: pad = (key ++ [x]) ++ (y ++ 32 :: v) ++ 10 :: render l ++ 0 :: pad) as ->
      by (rewrite line_form; unfold e; cbn [fst snd]; by rewrite <- !app_assoc).
    replace (length key + 1)%nat with (length (key ++ [x])) by len. rewrite drop_app_length.
    rewrite take_app_length' by len. apply cstring_all. destruct Heok as [[_ Hk] Hv]. unfold e in *. cbn [fst snd] in *.
    apply Forall_app in Hk as [_ Hk]. apply Forall_cons_iff in Hk as [_ Hk]. apply Forall_app. split; [|constructor; [done|]].
    + eapply Forall_impl; [exact Hk|]. by intros ? [? _].
    + eapply Forall_impl; [exact Hv|]. by intros ? [? _].
  - unfold textfile_del. rewrite (write_key_runs _ _ (render (e :: l))) by done.
    assert (update_map w path (render (e :: l)) key None false = Ret (0, with_file w path (render l))) as Hu.
    { apply (update_map_at w path [] e l key None false); try done.
      change (find_key (mapping (render (e :: l))) (length (render (e :: l))) key false = Ret (Some 0%nat)).
      rewrite Hpad. apply Hfind. }
    destruct (render (e :: l)); [done|]. by rewrite Hu.
Qed.

Lemma textfile_first_key_prefix_witness :
  textfile_get example_world [47] [109; 111] = Ret (Some [101; 32; 111; 110], example_world) ∧
  textfile_del example_world [47] [109; 111] = Ret (0, with_file example_world [47] (render (drop 1 example_lines))).
Proof.
  apply (textfile_first_key_prefix example_world [47] [109; 111] [101] [111; 110] 100 (drop 1 example_lines)).
  - reflexivity.
  - reflexivity.
  - apply (example_lines_ok false).
  - split; [done|]. by repeat constructor.
  - vm_compute. reflexivity.
  - vm_compute. discriminate.
Defined.

Lemma mapping_full c : Z.of_nat (length c) mod PAGE_SIZE = 0 → mapping c = c.
Proof. intros H. unfold mapping. rewrite Z.mod_opp_l_z by (done || by unfold PAGE_SIZE). apply app_nil_r. Qed.

Lemma find_last l (e : entry) : NoDup (folded false (l ++ [e])) → find_entry false e.1 (l ++ [e]) = Some (length l, e).
Proof.
  intros Hnd. unfold folded in Hnd. rewrite map_app in Hnd. apply NoDup_app in Hnd as (_ & Hd & _).
  apply list_find_app_Some. right. split; [lia|split].
  - apply list_find_None, Forall_forall. intros x Hx Hs. apply (Hd (map (fold_of false) x.1)).
    + by apply (list_elem_of_fmap_2 (λ e : entry, map (fold_of false) e.1)).
    + apply list_elem_of_singleton. exact Hs.
  - rewrite Nat.sub_diag. cbn [list_find]. by rewrite decide_True.
Qed.

(** A file that fills its last page exactly: finding the end of the last line
    reads past the mapping when that entry is changed or removed, and
    enumerating the entries does so always. *)
Theorem textfile_page_boundary (w : world) (path : list Z) (l : list entry) (e : entry)
    (Hfile : w_files w !! path = Some (render (l ++ [e]))) (Hfaults : w_faults w = [])
    (Hok : table_ok false (l ++ [e])) (Hsafe : prefix_safe (fold_of false) e.1 (l ++ [e]))
    (Hpage : Z.of_nat (length (render (l ++ [e]))) mod PAGE_SIZE = 0) :
  textfile_del w path e.1 = Undef ∧ textfile_foreach w path (λ k v d, (k, v) :: d) [] = Undef.
Proof.
  destruct Hok as [HF Hnd]. pose proof (length_render (l ++ [e])) as Hlr.
  assert (render (l ++ [e]) ≠ []) as Hne.
  { rewrite render_app. intros E%app_eq_nil. by destruct E as [_ E%render_nonempty]. }
  assert (entry_ok e) as Heok by (rewrite Forall_forall in HF; apply HF, elem_of_app; right; by left).
  split.
  - unfold textfile_del. rewrite (write_key_runs _ _ (render (l ++ [e]))) by done.
    assert (update_map w path (render (l ++ [e])) e.1 None false = Undef) as Hu.
    { unfold update_map. rewrite mapping_full by done. rewrite <- (app_nil_r (render (l ++ [e]))) at 1.
      rewrite find_render, find_last, outcome_bind_ret by (done || apply Heok). cbn [fmap option_fmap option_map fst].
      rewrite take_app_length, render_app, drop_app_length, render_cons, line_break_found, outcome_bind_ret by done.
      rewrite outcome_bind_ret, line_end. done. }
    destruct (render (l ++ [e])); [done|]. by rewrite Hu.
  - unfold textfile_foreach. rewrite (no_faults_open _ _ (render (l ++ [e]))) by done. cbn [negb Z.eqb]. calls_succeed.
    assert (contents w path = render (l ++ [e])) as -> by (unfold contents; by rewrite Hfile).
    rewrite no_faults_mmap by (done || by intros ?%nil_length_inv). cbn [negb Z.eqb].
    rewrite mapping_full by done. rewrite <- (app_nil_r (render (l ++ [e]))) at 2.
    replace (S (length (render (l ++ [e]))))
      with (length (l ++ [e]) + S (length (render (l ++ [e])) - length (l ++ [e])))%nat by lia.
    by rewrite foreach_lines by done.
Qed.

(** ** Creating the file *)

Lemma strchr_bound p c n : strchr p c = Some n → (n < length p)%nat.
Proof.
  revert n. induction p as [|b p IH]; intros n; simpl; [done|]. destruct (b =? c); [intros [= <-]; lia|].
  destruct (strchr p c) as [m|]; [|done]. intros [= <-]. specialize (IH _ eq_refl). lia.
Qed.

Lemma create_dirs_loop_quiet fuel w p dir :
  w_faults w = [] → (length p ≤ fuel)%nat → Z.of_nat (length dir + length p) ≤ PATH_MAX →
  ∃ w', create_dirs_loop fuel w p dir = Ret w' ∧ w_files w' = w_files w ∧ w_faults w' = [].
Proof.
  revert w p dir. induction fuel as [|fuel IH]; intros w p dir Hw Hf Hl; cbn [create_dirs_loop];
    (destruct (strchr p 47) as [n|] eqn:Hn; [apply strchr_bound in Hn|by exists w]); [lia|].
  case_bool_decide.
  - apply IH; [done|rewrite length_drop; lia..].
  - assert (length (take (S n) p) = S n) as Ht by (rewrite length_take; lia).
    rewrite (proj2 (Z.ltb_ge _ _)) by (rewrite length_app; lia).
    destruct (IH (sys_mkdir w (dir ++ take (S n) p)) (drop (S n) p) (dir ++ take (S n) p)) as (w' & -> & H1 & H2).
    + unfold sys_mkdir. by rewrite no_faults.
    + rewrite length_drop. lia.
    + rewrite length_app, length_drop. lia.
    + exists w'. split_and!; [done| |done]. rewrite H1. unfold sys_mkdir. by rewrite no_faults.
Qed.

Lemma create_file_quiet w filename :
  w_faults w = [] → Z.of_nat (length filename) ≤ PATH_MAX →
  ∃ w', create_file w filename = Ret (0, w') ∧ w_files w' !! filename = Some (contents w filename) ∧
    (∀ p, contents w' p = contents w p) ∧ w_faults w' = [].
Proof.
  intros Hw Hl.
  assert (∃ w1, create_dirs w filename = Ret w1 ∧ w_files w1 = w_files w ∧ w_faults w1 = []) as (w1 & H1 & H2 & H3).
  { unfold create_dirs, sys_open. rewrite no_faults by done. destruct (w_files w !! filename); [by exists w|].
    simpl (ENOENT =? 0). cbv iota. destruct (strchr filename 47) as [n|] eqn:Hn; [|by exists w].
    apply strchr_bound in Hn. apply create_dirs_loop_quiet; [done|rewrite length_drop; lia|].
    rewrite length_drop. simpl length. lia. }
  unfold create_file. rewrite H1, outcome_bind_ret. unfold sys_creat. rewrite no_faults by done. rewrite H2.
  unfold contents. destruct (w_files w !! filename) as [c|] eqn:Hc.
  - exists w1. rewrite H2. split_and!; [done|done|by intros|done].
  - eexists. split; [done|]. simpl. rewrite lookup_insert_eq. split_and!; [done| |done].
    intros p. rewrite lookup_insert. case_decide as E; [subst p; by rewrite Hc|done].
Qed.

(** ** Tables keyed by device addresses

    All keys have the length of an address, so no key extends another. The
    state of such a file as a client of the table sees it. *)

Definition ADDR_LEN : nat := 17.

Definition device_table (icase : bool) (w : world) (path : list Z) (m : gmap (list Z) (list Z)) : Prop :=
  ∃ l, contents w path = render l ∧ table_ok icase l ∧ table icase l = m ∧
       map_Forall (λ k _, length k = ADDR_LEN) m.

(** There is room on the last page. *)
Definition page_room (w : world) (path : list Z) : Prop :=
  Z.of_nat (length (contents w path)) < 2 ^ 63 ∧
  (contents w path = [] ∨ Z.of_nat (length (contents w path)) mod PAGE_SIZE ≠ 0).

Definition device_key (k : list Z) : Prop := length k = ADDR_LEN ∧ Forall key_char k.

Lemma device_key_ok k : device_key k → key_ok k.
Proof. intros [Hl Hk]. split; [|done]. by intros ->. Qed.

Lemma table_elem icase l e : NoDup (folded icase l) → e ∈ l → table icase l !! map (fold_of icase) e.1 = Some e.2.
Proof.
  intros Hnd He. unfold table. apply elem_of_list_to_map_1; [by rewrite folded_keys|].
  by apply (list_elem_of_fmap_2 (λ e : entry, (map (fold_of icase) e.1, e.2))).
Qed.

Lemma device_prefix_safe icase l k :
  table_ok icase l → map_Forall (λ k _, length k = ADDR_LEN) (table icase l) → device_key k →
  prefix_safe (fold_of icase) k l.
Proof.
  intros [_ Hnd] Hm [Hl _]. apply Forall_forall. intros e He Hp. apply (table_elem icase) in He; [|done].
  apply Hm in He. symmetry. apply prefix_length_eq; [done|]. rewrite !length_map in *. lia.
Qed.

Lemma device_get icase w path m k :
  device_table icase w path m → w_faults w = [] → device_key k →
  read_key w path k icase = Ret (m !! map (fold_of icase) k, w).
Proof.
  intros (l & Hc & Hok & <- & Hm) Hw Hk. destruct (w_files w !! path) as [c|] eqn:Hf.
  - unfold contents in Hc. rewrite Hf in Hc. simpl in Hc. subst c.
    apply read_key_table; try done; [by apply device_key_ok|by apply device_prefix_safe].
  - assert (l = []) as ->.
    { unfold contents in Hc. rewrite Hf in Hc. simpl in Hc. destruct l; [done|]. symmetry in Hc. by apply render_nonempty in Hc. }
    unfold read_key, sys_open. rewrite no_faults by done. rewrite Hf. unfold table. simpl. by rewrite lookup_empty.
Qed.

(** Storing or removing a value once the file exists. *)
Lemma device_write icase w path m k value :
  device_table icase w path m → w_faults w = [] → is_Some (w_files w !! path) → device_key k →
  match value with Some v => Forall value_char v | None => True end → page_room w path →
  ∃ w', write_key w path k value icase = Ret (0, w') ∧
    device_table icase w' path (partial_alter (λ _, value) (map (fold_of icase) k) m) ∧
    (∀ p, p ≠ path → contents w' p = contents w p) ∧ w_faults w' = [].
Proof.
  intros (l & Hc & Hok & <- & Hm) Hw [c Hf] Hk Hv [Hsize Hpage].
  assert (c = render l) as -> by (unfold contents in Hc; by rewrite Hf in Hc).
  rewrite Hc in Hsize, Hpage.
  destruct (write_key_table w path l k value icase) as (l' & H1 & H2 & H3); try done.
  - by apply device_key_ok.
  - by apply device_prefix_safe.
  - destruct Hpage as [E|?]; [|by right]. left. destruct l; [done|]. by apply render_nonempty in E.
  - eexists. split_and!; [exact H1| | |done].
    + exists l'. split_and!; [unfold contents; by rewrite with_file_files|done|done|].
      intros k' v Hlk. destruct (decide (k' = map (fold_of icase) k)) as [->|Hne].
      * rewrite length_map. apply Hk.
      * rewrite lookup_partial_alter_ne in Hlk by done. by apply Hm in Hlk.
    + intros p Hp. unfold contents, with_file. simpl. by rewrite lookup_insert_ne.
Qed.
