(* ===== verification/SdpTypes.v ===== *)
(** The data of the Service Discovery Protocol library: the constants of
    libs/include/bluetooth/sdp.h, UUIDs, data elements ([sdp_data_t]), service
    records ([sdp_record_t]) and growable PDU buffers ([sdp_buf_t]). *)

From stdpp Require Import base list numbers.
From Stdlib Require Import ZArith Lia.
From S2P Require Import Prelude CString.

Local Open Scope Z_scope.

(** * Constants *)

Definition SDP_DATA_NIL : Z := 0x00.
Definition SDP_UINT8 : Z := 0x08.
Definition SDP_UINT16 : Z := 0x09.
Definition SDP_UINT32 : Z := 0x0A.
Definition SDP_UINT64 : Z := 0x0B.
Definition SDP_UINT128 : Z := 0x0C.
Definition SDP_INT8 : Z := 0x10.
Definition SDP_INT16 : Z := 0x11.
Definition SDP_INT32 : Z := 0x12.
Definition SDP_INT64 : Z := 0x13.
Definition SDP_INT128 : Z := 0x14.
Definition SDP_UUID16 : Z := 0x19.
Definition SDP_UUID32 : Z := 0x1A.
Definition SDP_UUID128 : Z := 0x1C.
Definition SDP_TEXT_STR8 : Z := 0x25.
Definition SDP_TEXT_STR16 : Z := 0x26.
Definition SDP_TEXT_STR32 : Z := 0x27.
Definition SDP_BOOL : Z := 0x28.
Definition SDP_SEQ8 : Z := 0x35.
Definition SDP_SEQ16 : Z := 0x36.
Definition SDP_SEQ32 : Z := 0x37.
Definition SDP_ALT8 : Z := 0x3D.
Definition SDP_ALT16 : Z := 0x3E.
Definition SDP_ALT32 : Z := 0x3F.
Definition SDP_URL_STR8 : Z := 0x45.
Definition SDP_URL_STR16 : Z := 0x46.
Definition SDP_URL_STR32 : Z := 0x47.

Definition SDP_ATTR_RECORD_HANDLE : Z := 0x0000.
Definition SDP_ATTR_SVCLASS_ID_LIST : Z := 0x0001.
Definition SDP_ATTR_RECORD_STATE : Z := 0x0002.
Definition SDP_ATTR_SERVICE_ID : Z := 0x0003.
Definition SDP_ATTR_PROTO_DESC_LIST : Z := 0x0004.
Definition SDP_ATTR_BROWSE_GRP_LIST : Z := 0x0005.
Definition SDP_ATTR_LANG_BASE_ATTR_ID_LIST : Z := 0x0006.
Definition SDP_ATTR_SVCINFO_TTL : Z := 0x0007.
Definition SDP_ATTR_SERVICE_AVAILABILITY : Z := 0x0008.
Definition SDP_ATTR_PFILE_DESC_LIST : Z := 0x0009.
Definition SDP_ATTR_DOC_URL : Z := 0x000a.
Definition SDP_ATTR_CLNT_EXEC_URL : Z := 0x000b.
Definition SDP_ATTR_ICON_URL : Z := 0x000c.
Definition SDP_ATTR_ADD_PROTO_DESC_LIST : Z := 0x000d.
Definition SDP_ATTR_GROUP_ID : Z := 0x0200.
Definition SDP_ATTR_VERSION_NUM_LIST : Z := 0x0200.
Definition SDP_ATTR_SVCDB_STATE : Z := 0x0201.
Definition SDP_ATTR_SVCNAME_PRIMARY : Z := 0x0100.
Definition SDP_ATTR_SVCDESC_PRIMARY : Z := 0x0101.
Definition SDP_ATTR_PROVNAME_PRIMARY : Z := 0x0102.

Definition L2CAP_UUID : Z := 0x0100.
Definition RFCOMM_UUID : Z := 0x0003.
Definition PUBLIC_BROWSE_GROUP : Z := 0x1002.

Definition SDP_PDU_CHUNK_SIZE : Z := 1024.
Definition SDP_REQ_BUFFER_SIZE : Z := 2048.
Definition SDP_RSP_BUFFER_SIZE : Z := 65535.
Definition SDP_MAX_ATTR_LEN : Z := 65535.
Definition USHRT_MAX : Z := 65535.
Definition UCHAR_MAX : Z := 255.

(** The classes of descriptors the [switch] statements of sdp.c group. *)
Definition is_seq (dtd : Z) : bool :=
  (dtd =? SDP_SEQ8) || (dtd =? SDP_SEQ16) || (dtd =? SDP_SEQ32).
Definition is_alt (dtd : Z) : bool :=
  (dtd =? SDP_ALT8) || (dtd =? SDP_ALT16) || (dtd =? SDP_ALT32).
Definition is_str (dtd : Z) : bool :=
  (dtd =? SDP_TEXT_STR8) || (dtd =? SDP_TEXT_STR16) || (dtd =? SDP_TEXT_STR32) ||
  (dtd =? SDP_URL_STR8) || (dtd =? SDP_URL_STR16) || (dtd =? SDP_URL_STR32).
Definition SDP_IS_UUID (dtd : Z) : bool :=
  (dtd =? SDP_UUID16) || (dtd =? SDP_UUID32) || (dtd =? SDP_UUID128).

(** Width in bytes of the payload of the integer descriptors, [None] for a
    descriptor that is not an integer (nor NIL). *)
Definition int_width (dtd : Z) : option nat :=
  if dtd =? SDP_DATA_NIL then Some 0%nat
  else if (dtd =? SDP_BOOL) || (dtd =? SDP_INT8) || (dtd =? SDP_UINT8) then Some 1%nat
  else if (dtd =? SDP_INT16) || (dtd =? SDP_UINT16) then Some 2%nat
  else if (dtd =? SDP_INT32) || (dtd =? SDP_UINT32) then Some 4%nat
  else if (dtd =? SDP_INT64) || (dtd =? SDP_UINT64) then Some 8%nat
  else if (dtd =? SDP_INT128) || (dtd =? SDP_UINT128) then Some 16%nat
  else None.

(** Width in bytes of the length field that follows a string, sequence or
    alternative descriptor. *)
Definition len_width (dtd : Z) : option nat :=
  if (dtd =? SDP_SEQ8) || (dtd =? SDP_ALT8) || (dtd =? SDP_TEXT_STR8) || (dtd =? SDP_URL_STR8)
  then Some 1%nat
  else if (dtd =? SDP_SEQ16) || (dtd =? SDP_ALT16) || (dtd =? SDP_TEXT_STR16)
          || (dtd =? SDP_URL_STR16)
  then Some 2%nat
  else if (dtd =? SDP_SEQ32) || (dtd =? SDP_ALT32) || (dtd =? SDP_TEXT_STR32)
          || (dtd =? SDP_URL_STR32)
  then Some 4%nat
  else None.

(** * UUIDs

    [uuid_t] is a tagged union; the tag of a zeroed object (a [memset] record
    field) is none of the three. [Uuid128] keeps the sixteen bytes in memory
    order. *)
Inductive uuid_t :=
  | UuidNone
  | Uuid16 (v : Z)
  | Uuid32 (v : Z)
  | Uuid128 (bs : list Z).

#[export] Instance uuid_t_eq_dec : EqDecision uuid_t.
Proof. solve_decision. Defined.

Definition uuid_type (u : uuid_t) : Z :=
  match u with
  | UuidNone => 0
  | Uuid16 _ => SDP_UUID16
  | Uuid32 _ => SDP_UUID32
  | Uuid128 _ => SDP_UUID128
  end.

(** The sixteen bytes of [uuid->value], which the comparison functions read
    whatever the tag: the creation functions zero the object first. *)
Definition uuid_value (u : uuid_t) : list Z :=
  match u with
  | UuidNone => replicate 16 0
  | Uuid16 v => le_split 2 v ++ replicate 14 0
  | Uuid32 v => le_split 4 v ++ replicate 12 0
  | Uuid128 bs => bs
  end.

Definition uuid_ok (u : uuid_t) : Prop :=
  match u with
  | UuidNone => False
  | Uuid16 v => 0 ≤ v < 2 ^ 16
  | Uuid32 v => 0 ≤ v < 2 ^ 32
  | Uuid128 bs => length bs = 16%nat ∧ Forall byte_ok bs
  end.

(** * Data elements

    [sdp_data_t] without its [next] pointer: a chain of elements is a list.
    [val] is the union: [VInt] any of the int8..uint64 members (as the bits of
    the zero-extended 64-bit word), [V128] the 128-bit members in memory
    order, [VStr] the malloc'd block [str] points to (whole block, terminator
    included when there is one), [VSeq] the chain [dataseq] points to, [VNull]
    the union as [memset] leaves it; [VSeq []] is also the null pointer. *)
Inductive sdp_data : Type :=
  | SdpData (dtd : Z) (attrId : Z) (val : sdp_val) (unitSize : Z)
with sdp_val : Type :=
  | VNull
  | VInt (bits : Z)
  | V128 (bs : list Z)
  | VUuid (u : uuid_t)
  | VStr (blk : list Z)
  | VSeq (l : list sdp_data).

Definition dtd (d : sdp_data) : Z := let '(SdpData t _ _ _) := d in t.
Definition attrId (d : sdp_data) : Z := let '(SdpData _ a _ _) := d in a.
Definition val (d : sdp_data) : sdp_val := let '(SdpData _ _ v _) := d in v.
Definition unitSize (d : sdp_data) : Z := let '(SdpData _ _ _ n) := d in n.
Definition set_attrId (a : Z) (d : sdp_data) : sdp_data :=
  let '(SdpData t _ v n) := d in SdpData t a v n.

(** Induction through the chains. *)
Section sdp_data_ind.
Variable P : sdp_data → Prop.
Hypothesis P_leaf : ∀ t a v n, (∀ l, v ≠ VSeq l) → P (SdpData t a v n).
Hypothesis P_seq : ∀ t a l n, Forall P l → P (SdpData t a (VSeq l) n).

Fixpoint sdp_data_nested_ind (d : sdp_data) : P d.
Proof using P_leaf P_seq.
  destruct d as [t a v n]. destruct v as [| | | | |l]; try (apply P_leaf; done).
  apply P_seq. induction l as [|d l IH]; constructor; [apply sdp_data_nested_ind|apply IH].
Defined.
End sdp_data_ind.

#[export] Instance sdp_data_eq_dec : EqDecision sdp_data.
Proof.
  unfold EqDecision. fix go 1. intros [t a v n] [t' a' v' n'].
  destruct (decide (t = t')) as [->|]; [|right; congruence].
  destruct (decide (a = a')) as [->|]; [|right; congruence].
  destruct (decide (n = n')) as [->|]; [|right; congruence].
  assert (Decision (v = v')) as [->|Hne]; [|by left|right; congruence].
  destruct v, v'; try (right; congruence); try (by left).
  - destruct (decide (bits = bits0)) as [->|]; [by left|right; congruence].
  - destruct (decide (bs = bs0)) as [->|]; [by left|right; congruence].
  - destruct (decide (u = u0)) as [->|]; [by left|right; congruence].
  - destruct (decide (blk = blk0)) as [->|]; [by left|right; congruence].
  - destruct (List.list_eq_dec go l l0) as [->|]; [by left|right; congruence].
Defined.

(** * Records and buffers *)

Record sdp_record := SdpRecord {
  handle : Z;
  pattern : list uuid_t;
  attrlist : list sdp_data;
  svclass : uuid_t
}.

Definition set_handle (h : Z) (r : sdp_record) : sdp_record :=
  SdpRecord h (pattern r) (attrlist r) (svclass r).
Definition set_pattern (p : list uuid_t) (r : sdp_record) : sdp_record :=
  SdpRecord (handle r) p (attrlist r) (svclass r).
Definition set_attrlist (l : list sdp_data) (r : sdp_record) : sdp_record :=
  SdpRecord (handle r) (pattern r) l (svclass r).
Definition set_svclass (u : uuid_t) (r : sdp_record) : sdp_record :=
  SdpRecord (handle r) (pattern r) (attrlist r) u.

#[export] Instance sdp_record_eq_dec : EqDecision sdp_record.
Proof. solve_decision. Defined.

(** [data] is the whole memory object the buffer points to; [buf_size] is what
    the code believes its size to be. *)
Record sdp_buf := SdpBuf {
  buf_data : list Z;
  data_size : Z;
  buf_size : Z
}.

(** [const void *value]: a null pointer, a pointer into memory that holds
    plain bytes, or the head of a chain of data elements. *)
Inductive sdp_ptr :=
  | PNull
  | PMem (p : list Z)
  | PSeq (l : list sdp_data).

(** Arithmetic on descriptors. *)
Ltac dtd_lia :=
  unfold SDP_DATA_NIL, SDP_UINT8, SDP_UINT16, SDP_UINT32, SDP_UINT64, SDP_UINT128, SDP_INT8,
    SDP_INT16, SDP_INT32, SDP_INT64, SDP_INT128, SDP_UUID16, SDP_UUID32, SDP_UUID128,
    SDP_TEXT_STR8, SDP_TEXT_STR16, SDP_TEXT_STR32, SDP_BOOL, SDP_SEQ8, SDP_SEQ16, SDP_SEQ32,
    SDP_ALT8, SDP_ALT16, SDP_ALT32, SDP_URL_STR8, SDP_URL_STR16, SDP_URL_STR32 in *; lia.

(** * Elements of search patterns and attribute lists

    What the [data] pointers of such a list refer to: attribute ids
    ([uint16_t]), ranges of them ([uint32_t]) or UUIDs. *)
Inductive des_elt :=
  | DesU16 (v : Z)
  | DesU32 (v : Z)
  | DesUuid (u : uuid_t).

(** The memory of an element; of a UUID, the tag, its padding and the value. *)
Definition des_mem (e : des_elt) : list Z :=
  match e with
  | DesU16 v => le_split 2 v
  | DesU32 v => le_split 4 v
  | DesUuid u => [uuid_type u; 0; 0; 0] ++ uuid_value u
  end.

(** * PDUs

    The identifiers, the error codes, and the size of [sdp_pdu_hdr_t]: the
    identifier, the transaction id and the parameter length, packed. *)
Definition SDP_ERROR_RSP : Z := 0x01.
Definition SDP_SVC_SEARCH_REQ : Z := 0x02.
Definition SDP_SVC_SEARCH_RSP : Z := 0x03.
Definition SDP_SVC_ATTR_REQ : Z := 0x04.
Definition SDP_SVC_ATTR_RSP : Z := 0x05.
Definition SDP_SVC_SEARCH_ATTR_REQ : Z := 0x06.
Definition SDP_SVC_SEARCH_ATTR_RSP : Z := 0x07.
Definition SDP_SVC_REGISTER_REQ : Z := 0x75.
Definition SDP_SVC_REGISTER_RSP : Z := 0x76.
Definition SDP_SVC_UPDATE_REQ : Z := 0x77.
Definition SDP_SVC_UPDATE_RSP : Z := 0x78.
Definition SDP_SVC_REMOVE_REQ : Z := 0x79.
Definition SDP_SVC_REMOVE_RSP : Z := 0x80.

Definition SDP_SERVER_RECORD_HANDLE : Z := 0x0000.
Definition SDP_INVALID_RECORD_HANDLE : Z := 0x0002.
Definition SDP_INVALID_SYNTAX : Z := 0x0003.
Definition SDP_INVALID_PDU_SIZE : Z := 0x0004.
Definition SDP_INVALID_CSTATE : Z := 0x0005.
Definition SDP_RECORD_PERSIST : Z := 0x01.
Definition SDP_DEVICE_RECORD : Z := 0x02.
Definition SDP_PDU_HDR : Z := 5.

(** * Device addresses: six bytes *)
Definition bdaddr := list Z.
Definition BDADDR_ANY : bdaddr := replicate 6 0.
Definition BDADDR_LOCAL : bdaddr := [0; 0; 0; 0xff; 0xff; 0xff].
