(* ===== verification/Bdaddr.v ===== *)
(** libs/src/bluetooth.c: device addresses and their text form. An address is
    its six bytes in the order of the air interface, least significant first;
    a string is the list of its characters. *)

From stdpp Require Import base list numbers sorting.
From Stdlib Require Import ZArith Lia.
From S2P Require Import Prelude CString SdpTypes.

Local Open Scope Z_scope.

(** * The functions *)

Definition baswap (src : bdaddr) : bdaddr := map (λ i, src !!! (5 - i)%nat) (seq 0 6).

(** ["%2.2X:%2.2X:%2.2X:%2.2X:%2.2X:%2.2X"] *)
Definition print_octets (sep : Z) (b : list Z) : list Z :=
  match b with
  | [] => []
  | x :: b => foldl (λ s y, s ++ sep :: hex_bytes [y]) (hex_bytes [x]) b
  end.

Definition batostr (ba : bdaddr) : list Z := print_octets 58 ba.
Definition ba2str (ba : bdaddr) : list Z := print_octets 58 (baswap ba).
Definition ba2oui (ba : bdaddr) : list Z := print_octets 45 (take 3 (baswap ba)).

(** ":00:00:00:00:00" *)
Definition missing_octets : list Z := [58; 48; 48; 58; 48; 48; 58; 48; 48; 58; 48; 48; 58; 48; 48].

(** The loop of [strtoba] and [str2ba], with [k] octets to go. *)
Fixpoint parse_octets (k : nat) (ptr : list Z) : list Z :=
  match k with
  | O => []
  | S k =>
      to_u8 (strtol ptr 16) ::
      parse_octets k
        (drop 1 (match k with
                 | O => ptr
                 | S _ => match strchr ptr 58 with Some n => drop n ptr | None => missing_octets end
                 end))
  end.

Definition strtoba (str : list Z) : bdaddr := parse_octets 6 str.
Definition str2ba (str : list Z) : bdaddr := baswap (parse_octets 6 str).

Definition hex_upper (c : Z) : bool := negb ((c <? 48) || ((57 <? c) && (c <? 65)) || (70 <? c)).

(** The loop of [bachk] over the copy, terminator included. *)
Fixpoint bachk_loop (ptr : list Z) : outcome Z :=
  match ptr with
  | a :: b :: c :: rest =>
      if a =? 0 then Ret 0
      else if negb (hex_upper (toupper a)) then Ret (-1)
      else if negb (hex_upper (toupper b)) then Ret (-1)
      else if toupper c =? 0 then Ret 0
      else if negb (toupper c =? 58) then Ret (-1)
      else bachk_loop rest
  | _ => Undef
  end.

(** [None] is NULL. *)
Definition bachk (str : option (list Z)) : outcome Z :=
  match str with
  | None => Ret (-1)
  | Some str => if negb (Z.of_nat (length str) =? 17) then Ret (-1) else bachk_loop (str ++ [0])
  end.

(** * Correctness *)

Definition bdaddr_ok (ba : bdaddr) : Prop := length ba = 6%nat ∧ Forall byte_ok ba.

Lemma baswap_reverse ba : length ba = 6%nat → baswap ba = reverse ba.
Proof. intros H. do 6 (destruct ba as [|? ba]; [done|]). destruct ba; [|done]. reflexivity. Qed.

(** The text of a list of pairs of characters. *)
Definition pairs_text (l : list (Z * Z)) : list Z :=
  match l with
  | [] => []
  | p :: l => p.1 :: p.2 :: concat (map (λ p, [58; p.1; p.2]) l)
  end.

Definition upper_pair (p : Z * Z) : Z * Z := (toupper p.1, toupper p.2).
Definition hex_pair (p : Z * Z) : Prop := hex_upper (toupper p.1) = true ∧ hex_upper (toupper p.2) = true.
Definition pair_value (p : Z * Z) : Z := default 0 (hex_value p.1) * 16 + default 0 (hex_value p.2).
Definition pair_of (b : Z) : Z * Z := (hex_char (b / 16), hex_char (b mod 16)).

Lemma hex_upper_value c :
  hex_upper (toupper c) = true →
  ∃ d, hex_value c = Some d ∧ 0 ≤ d < 16 ∧ hex_char d = toupper c ∧ c ≠ 0 ∧ c ≠ 58 ∧ c ≠ 120 ∧ c ≠ 88.
Proof.
  unfold hex_upper, toupper, hex_value, hex_char. intros H.
  destruct (Z.leb_spec 97 c), (Z.leb_spec c 122), (Z.leb_spec c 102), (Z.leb_spec 65 c), (Z.leb_spec c 70),
    (Z.leb_spec 48 c), (Z.leb_spec c 57); simpl in *; try lia;
    (eexists; split; [done|]; case_match; lia).
Qed.

Lemma hex_pair_of b : byte_ok b → hex_pair (pair_of b) ∧ pair_value (pair_of b) = b ∧
  toupper (pair_of b).1 = (pair_of b).1 ∧ toupper (pair_of b).2 = (pair_of b).2.
Proof.
  intros Hb. destruct (nibbles b Hb) as [H1 H2]. unfold hex_pair, pair_value, pair_of. cbn [fst snd].
  assert (∀ d, 0 ≤ d < 16 → toupper (hex_char d) = hex_char d ∧ hex_upper (hex_char d) = true) as H.
  { intros d Hd. unfold toupper, hex_upper, hex_char. destruct (Z.ltb_spec d 10).
    - rewrite (proj2 (Z.leb_gt 97 (48 + d))) by lia. cbn [andb]. split; [done|]. lia.
    - rewrite (proj2 (Z.leb_gt 97 (55 + d))) by lia. cbn [andb]. split; [done|]. lia. }
  destruct (H _ H1) as [-> ->], (H _ H2) as [-> ->]. rewrite (proj1 (hex_value_char _ H1)), (proj1 (hex_value_char _ H2)).
  simpl. pose proof (Z.div_mod b 16). split_and!; done || lia.
Qed.

Lemma pair_value_spec p : hex_pair p → byte_ok (pair_value p) ∧ pair_of (pair_value p) = (toupper p.1, toupper p.2).
Proof.
  intros [H1 H2]. apply hex_upper_value in H1 as (d1 & E1 & Hd1 & C1 & _), H2 as (d2 & E2 & Hd2 & C2 & _).
  unfold pair_value, pair_of. rewrite E1, E2. simpl default.
  assert ((d1 * 16 + d2) / 16 = d1 ∧ (d1 * 16 + d2) mod 16 = d2) as [-> ->].
  { rewrite Z.div_add_l, Z.div_small, (Z.add_comm (_ * _)), Z.mod_add, Z.mod_small by lia. lia. }
  rewrite C1, C2. split; [unfold byte_ok; lia|done].
Qed.

Lemma strtol_pair p rest :
  hex_pair p → starts_digit 16 rest = false → strtol (p.1 :: p.2 :: rest) 16 = pair_value p.
Proof.
  destruct p as [a b]. intros Hp Hr. pose proof (proj1 (pair_value_spec _ Hp)) as Hv. destruct Hp as [H1 H2].
  simpl in *. apply hex_upper_value in H1 as (d1 & E1 & Hd1 & _), H2 as (d2 & E2 & Hd2 & _ & _ & _ & Hx).
  assert (digit 16 a = Some d1 ∧ digit 16 b = Some d2) as [D1 D2].
  { unfold digit. rewrite E1, E2, !(proj2 (Z.ltb_lt _ _)) by lia. done. }
  apply strtol_small; [|unfold byte_ok, LONG_MAX in *; lia].
  rewrite number_digits; [|by right|by rewrite D1; eexists|by intros].
  cbn [digits]. rewrite D1, D2, digits_stop by done. unfold pair_value. simpl. by rewrite E1, E2.
Qed.

Lemma parse_pairs l : Forall hex_pair l → parse_octets (length l) (pairs_text l) = map pair_value l.
Proof.
  induction 1 as [|p l Hp Hl IH]; [done|]. cbn [pairs_text length parse_octets map].
  rewrite strtol_pair; [|done|by destruct l].
  destruct (pair_value_spec p Hp) as [Hv _]. unfold to_u8. rewrite Z.mod_small by done. f_equal.
  destruct l as [|q l]; [done|].
  pose proof Hp as [(d1 & _ & _ & _ & _ & Hc1 & _)%hex_upper_value (d2 & _ & _ & _ & _ & Hc2 & _)%hex_upper_value].
  cbn [map concat app strchr length]. rewrite !(proj2 (Z.eqb_neq _ _)) by done.
  change (58 =? 58) with true. cbn [fmap option_fmap option_map drop]. exact IH.
Qed.

Lemma bachk_pairs l : l ≠ [] → Forall hex_pair l → bachk_loop (pairs_text l ++ [0]) = Ret 0.
Proof.
  intros Hne HF. induction HF as [|p l Hp HF IH]; [done|]. destruct Hp as [H1 H2].
  pose proof H1 as (_ & _ & _ & _ & Hz & _)%hex_upper_value.
  assert (∃ c rest, concat (map (λ p, [58; p.1; p.2]) l) ++ [0] = c :: rest ∧
    ((c = 0 ∧ l = []) ∨ (c = 58 ∧ l ≠ [] ∧ rest = pairs_text l ++ [0]))) as (c & rest & E & Hc).
  { destruct l as [|q l]; [by exists 0, []; auto|]. do 2 eexists. split; [reflexivity|]. right. done. }
  cbn [pairs_text app bachk_loop]. rewrite E. cbv beta iota. rewrite (proj2 (Z.eqb_neq _ _)) by done. rewrite H1, H2. cbn [negb].
  destruct Hc as [[-> ->]|(-> & Hl & ->)]; [done|]. change (toupper 58 =? 0) with false.
  change (toupper 58 =? 58) with true. cbn [negb]. by apply IH.
Qed.

Lemma print_pairs bs : print_octets 58 bs = pairs_text (map pair_of bs).
Proof.
  destruct bs as [|b bs]; [done|]. unfold print_octets.
  change (pairs_text (map pair_of (b :: bs)))
    with (hex_bytes [b] ++ concat (map (λ p, [58; p.1; p.2]) (map pair_of bs))).
  generalize (hex_bytes [b]). induction bs as [|x bs IH]; intros s; cbn [foldl map concat].
  - by rewrite app_nil_r.
  - rewrite IH. by rewrite <- app_assoc.
Qed.

Lemma toupper_pairs l : map toupper (pairs_text l) = pairs_text (map upper_pair l).
Proof.
  destruct l as [|p l]; [done|]. simpl. do 2 f_equal. induction l as [|q l IH]; simpl; [done|]. by rewrite IH.
Qed.

Lemma length_pairs_text l : l ≠ [] → length (pairs_text l) = (3 * length l - 1)%nat.
Proof.
  destruct l as [|p l]; [done|]. intros _. simpl.
  assert (length (concat (map (λ p : Z * Z, [58%Z; p.1; p.2]) l)) = 3 * length l)%nat as ->; [|lia].
  induction l as [|q l IH]; simpl; [done|]. rewrite IH. lia.
Qed.

Lemma toupper_not c z : c ≠ z → z < 65 → toupper c ≠ z.
Proof. intros. unfold toupper. destruct (_ && _) eqn:E; [apply andb_prop in E|]; lia. Qed.

(** A text that [bachk] accepts. *)
Lemma bachk_inv k s :
  Forall (λ c, c ≠ 0) s → length s = (3 * k + 2)%nat → bachk_loop (s ++ [0]) = Ret 0 →
  ∃ l, length l = S k ∧ Forall hex_pair l ∧ s = pairs_text l.
Proof.
  revert s. induction k as [|k IH]; intros s Hs Hl Hrun;
    (destruct s as [|a s]; [simpl in Hl; lia|]; destruct s as [|b s]; [simpl in Hl; lia|]).
  - destruct s as [|? s]; [|simpl in Hl; lia]. cbn [app bachk_loop] in Hrun.
    apply Forall_cons_iff in Hs as [Ha _]. rewrite (proj2 (Z.eqb_neq _ _)) in Hrun by done.
    destruct (hex_upper (toupper a)) eqn:E1; [|done]. destruct (hex_upper (toupper b)) eqn:E2; [|done].
    exists [(a, b)]. split_and!; [done|by repeat constructor|done].
  - destruct s as [|c s]; [simpl in Hl; lia|]. cbn [app bachk_loop] in Hrun.
    apply Forall_cons_iff in Hs as [Ha Hs]. apply Forall_cons_iff in Hs as [Hb Hs].
    apply Forall_cons_iff in Hs as [Hc Hs]. rewrite (proj2 (Z.eqb_neq _ _)) in Hrun by done.
    destruct (hex_upper (toupper a)) eqn:E1; [|done]. destruct (hex_upper (toupper b)) eqn:E2; [|done].
    cbn [negb] in Hrun. rewrite (proj2 (Z.eqb_neq (toupper c) 0)) in Hrun by (by apply toupper_not).
    destruct (Z.eqb_spec (toupper c) 58) as [E|]; [|done].
    assert (c = 58) as -> by (destruct (decide (c = 58)); [done|]; by apply toupper_not in E).
    destruct (IH s) as (l & Hll & HF & ->); [done|simpl in Hl; lia|done|].
    exists ((a, b) :: l). split_and!; [simpl; lia|by constructor|]. by destruct l.
Qed.

Lemma bachk_total k s :
  length s = (3 * k + 2)%nat → bachk_loop (s ++ [0]) = Ret 0 ∨ bachk_loop (s ++ [0]) = Ret (-1).
Proof.
  revert s. induction k as [|k IH]; intros s Hl;
    (destruct s as [|a s]; [simpl in Hl; lia|]; destruct s as [|b s]; [simpl in Hl; lia|]).
  - destruct s as [|? s]; [|simpl in Hl; lia]. cbn [app bachk_loop]. change (toupper 0 =? 0) with true.
    repeat (case_match; auto).
  - destruct s as [|c s]; [simpl in Hl; lia|]. cbn [app bachk_loop].
    destruct (IH s) as [-> | ->]; [simpl in Hl; lia| |]; repeat (case_match; auto).
Qed.

Lemma ba2str_pairs ba : bdaddr_ok ba → ba2str ba = pairs_text (map pair_of (reverse ba)).
Proof. intros [Hl _]. unfold ba2str. by rewrite baswap_reverse, print_pairs. Qed.

Lemma pairs_of_ok ba : Forall byte_ok ba → Forall hex_pair (map pair_of ba).
Proof. intros HF. apply Forall_map. eapply Forall_impl; [exact HF|]. intros x Hx. by apply hex_pair_of. Qed.

Lemma pairs_of_value ba : Forall byte_ok ba → map pair_value (map pair_of ba) = ba.
Proof.
  intros HF. rewrite map_map. rewrite <- (map_id ba) at 2. apply map_ext_Forall.
  eapply Forall_impl; [exact HF|]. intros x Hx. by apply hex_pair_of.
Qed.

Lemma parse_octets_ok k s : length (parse_octets k s) = k ∧ Forall byte_ok (parse_octets k s).
Proof.
  revert s. induction k as [|k IH]; intros s; simpl; [done|]. split; [by rewrite (proj1 (IH _))|].
  constructor; [|apply IH]. unfold to_u8, byte_ok. apply Z.mod_pos_bound. lia.
Qed.

Lemma str2ba_ok s : bdaddr_ok (str2ba s) ∧ reverse (str2ba s) = parse_octets 6 s.
Proof.
  destruct (parse_octets_ok 6 s) as [Hl HF]. unfold str2ba. rewrite baswap_reverse by done.
  rewrite reverse_involutive. split; [|done]. split; [by rewrite length_reverse|by apply Forall_reverse].
Qed.

Lemma text_of_upper q s :
  pairs_text q = map toupper s → ∃ l, s = pairs_text l ∧ q = map upper_pair l.
Proof.
  assert (∀ q s, map toupper s = concat (map (λ p : Z * Z, [58; p.1; p.2]) q) →
            ∃ l, s = concat (map (λ p : Z * Z, [58; p.1; p.2]) l) ∧ q = map upper_pair l) as Htl.
  { clear. induction q as [|[a b] q IH]; intros s H; simpl in H.
    - apply map_eq_nil in H as ->. by exists [].
    - do 3 (destruct s as [|? s]; [done|]). simpl in H. injection H as H1 H2 H3 H.
      apply IH in H as (l & -> & ->). exists ((z0, z1) :: l). simpl. unfold upper_pair at 2. simpl.
      rewrite H2, H3. split; [|done]. do 2 f_equal. destruct (decide (z = 58)); [done|]. by apply toupper_not in H1. }
  destruct q as [|[a b] q]; simpl; intros H; [symmetry in H; apply map_eq_nil in H as ->; by exists []|].
  do 2 (destruct s as [|? s]; [done|]). simpl in H. injection H as -> -> H.
  apply eq_sym in H. apply Htl in H as (l & -> & ->). by exists ((z, z0) :: l).
Qed.

Lemma bachk_iff s :
  Forall (λ c, c ≠ 0) s → bachk (Some s) = Ret 0 ↔ ba2str (str2ba s) = map toupper s.
Proof.
  intros Hs. destruct (str2ba_ok s) as [Hok Hrev]. rewrite ba2str_pairs, Hrev by done.
  destruct (parse_octets_ok 6 s) as [Hl6 HF6]. unfold bachk. split.
  - destruct (Z.eqb_spec (Z.of_nat (length s)) 17) as [E|]; [|done]. cbn [negb]. intros Hrun.
    destruct (bachk_inv 5 s) as (l & Hl & HF & ->); [done|lia|done|].
    rewrite <- Hl, parse_pairs, toupper_pairs, map_map by done. f_equal. apply map_ext_Forall.
    eapply Forall_impl; [exact HF|]. intros p Hp. by apply pair_value_spec.
  - intros H. assert (length s = 17%nat) as Hl.
    { rewrite <- (length_map toupper), <- H, length_pairs_text, length_map, Hl6; [done|].
      intros ?%map_eq_nil. by destruct (parse_octets 6 s). }
    rewrite Hl. change (negb (Z.of_nat 17 =? 17)) with false. cbv iota.
    destruct (text_of_upper _ _ H) as (l & -> & Hq).
    apply bachk_pairs.
    + intros ->. by destruct (parse_octets 6 _).
    + apply Forall_forall. intros p Hp. assert (upper_pair p ∈ map pair_of (parse_octets 6 (pairs_text l))) as Hin.
      { rewrite Hq. by apply list_elem_of_fmap_2. }
      apply list_elem_of_fmap in Hin as (b & Hb & Hin). rewrite Forall_forall in HF6. apply HF6 in Hin.
      destruct (hex_pair_of b Hin) as ([H1 H2] & _ & E1 & E2). rewrite E1, <- Hb in H1. rewrite E2, <- Hb in H2. done.
Qed.

Lemma str2ba_ba2str ba : bdaddr_ok ba → str2ba (ba2str ba) = ba.
Proof.
  intros Hba. unfold str2ba. rewrite ba2str_pairs by done. destruct Hba as [Hl HF].
  replace 6%nat with (length (map pair_of (reverse ba))) by by rewrite length_map, length_reverse.
  apply Forall_reverse in HF. rewrite parse_pairs, pairs_of_value by auto using pairs_of_ok.
  rewrite baswap_reverse by by rewrite length_reverse. apply reverse_involutive.
Qed.

(** Addresses and text. The text of an address reads back as the address,
    in both byte orders, and [bachk] accepts it. Conversely [bachk] accepts a
    string, in any case, exactly when it is the text of the address that
    [str2ba] reads from it, and rejects every other string. *)
Theorem address_text_roundtrip (ba : bdaddr) (s : list Z) (Hba : bdaddr_ok ba) (Hs : Forall (λ c, c ≠ 0) s) :
  str2ba (ba2str ba) = ba ∧ strtoba (batostr ba) = ba ∧
  length (ba2str ba) = 17%nat ∧ bachk (Some (ba2str ba)) = Ret 0 ∧
  (bachk (Some s) = Ret 0 ∨ bachk (Some s) = Ret (-1)) ∧
  (bachk (Some s) = Ret 0 ↔ ba2str (str2ba s) = map toupper s).
Proof.
  pose proof Hba as [Hl HF].
  assert (length (ba2str ba) = 17%nat) as H17.
  { rewrite ba2str_pairs by done. rewrite length_pairs_text; rewrite ?length_map, ?length_reverse, ?Hl; [done|].
    intros E%map_eq_nil. apply (f_equal length) in E. by rewrite length_reverse, Hl in E. }
  split_and!.
  - by apply str2ba_ba2str.
  - unfold strtoba, batostr. rewrite print_pairs. replace 6%nat with (length (map pair_of ba)) by by rewrite length_map.
    by rewrite parse_pairs, pairs_of_value by auto using pairs_of_ok.
  - done.
  - unfold bachk. rewrite H17. change (negb (Z.of_nat 17 =? 17)) with false. cbv iota. rewrite ba2str_pairs by done.
    apply bachk_pairs; [|by apply pairs_of_ok, Forall_reverse].
    intros E%map_eq_nil. apply (f_equal length) in E. by rewrite length_reverse, Hl in E.
  - unfold bachk. destruct (Z.eqb_spec (Z.of_nat (length s)) 17) as [E|]; cbn [negb]; [|by right].
    apply (bachk_total 5). lia.
  - by apply bachk_iff.
Qed.

Lemma address_text_roundtrip_witness :
  str2ba (ba2str [0x01; 0x23; 0x45; 0x67; 0x89; 0xab]) = [0x01; 0x23; 0x45; 0x67; 0x89; 0xab] ∧
  bachk (Some [48; 48; 58; 49; 49; 58; 97; 97; 58; 66; 66; 58; 99; 99; 58; 102; 70]) = Ret 0.
Proof.
  destruct (address_text_roundtrip [0x01; 0x23; 0x45; 0x67; 0x89; 0xab]
    [48; 48; 58; 49; 49; 58; 97; 97; 58; 66; 66; 58; 99; 99; 58; 102; 70]) as (H1 & _ & _ & _ & _ & H2).
  - split; [done|]. by repeat constructor.
  - by repeat constructor.
  - split; [done|]. apply H2. vm_compute. reflexivity.
Defined.

Lemma ba2str_ok ba : bdaddr_ok ba → length (ba2str ba) = 17%nat ∧ Forall (λ c, 48 ≤ c ≤ 70) (ba2str ba).
Proof.
  intros Hba. rewrite ba2str_pairs by done. destruct Hba as [Hl HF]. split.
  - rewrite length_pairs_text, length_map, length_reverse, Hl; [done|].
    intros E%map_eq_nil. apply (f_equal length) in E. by rewrite length_reverse, Hl in E.
  - assert (∀ b, byte_ok b → 48 ≤ (pair_of b).1 ≤ 70 ∧ 48 ≤ (pair_of b).2 ≤ 70) as Hp.
    { intros b Hb. destruct (nibbles b Hb) as [H1 H2]. unfold pair_of, hex_char. cbn [fst snd].
      repeat case_match; lia. }
    apply Forall_reverse in HF. generalize dependent (reverse ba). clear Hl. intros l HF.
    destruct HF as [|b l Hb HF]; [done|]. simpl. destruct (Hp b Hb). do 2 (constructor; [done|]).
    induction HF as [|c l Hc HF IH]; simpl; [done|]. destruct (Hp c Hc). constructor; [lia|]. by do 2 (constructor; [done|]).
Qed.

Lemma ba2str_inj a b : bdaddr_ok a → bdaddr_ok b → ba2str a = ba2str b → a = b.
Proof.
  intros Ha Hb E. by rewrite <- (str2ba_ba2str a), E, str2ba_ba2str by done.
Qed.
