(* ===== verification/Storage.v ===== *)
(** utils/hcid/storage.c: what the daemon remembers of adapters and remote
    devices, in text files named after the adapter. Theorems: link keys and
    the trusted services of a device read back as they were written, and a
    change for one device leaves the others alone. *)

From stdpp Require Import base list numbers sorting gmap.
From Stdlib Require Import ZArith Lia.
From S2P Require Import Prelude CString TextFile SdpTypes Bdaddr.

Local Open Scope Z_scope.

(** The names of the files and keys, as strings. *)
Definition str_config : list Z := [99; 111; 110; 102; 105; 103].
Definition str_discovto : list Z := [100; 105; 115; 99; 111; 118; 116; 111].
Definition str_mode : list Z := [109; 111; 100; 101].
Definition str_onmode : list Z := [111; 110; 109; 111; 100; 101].
Definition str_off : list Z := [111; 102; 102].
Definition str_name : list Z := [110; 97; 109; 101].
Definition str_names : list Z := [110; 97; 109; 101; 115].
Definition str_class : list Z := [99; 108; 97; 115; 115].
Definition str_classes : list Z := [99; 108; 97; 115; 115; 101; 115].
Definition str_eir : list Z := [101; 105; 114].
Definition str_l2cap : list Z := [108; 50; 99; 97; 112].
Definition str_manufacturers : list Z := [109; 97; 110; 117; 102; 97; 99; 116; 117; 114; 101; 114; 115].
Definition str_features : list Z := [102; 101; 97; 116; 117; 114; 101; 115].
Definition str_lastseen : list Z := [108; 97; 115; 116; 115; 101; 101; 110].
Definition str_lastused : list Z := [108; 97; 115; 116; 117; 115; 101; 100].
Definition str_linkkeys : list Z := [108; 105; 110; 107; 107; 101; 121; 115].
Definition str_pincodes : list Z := [112; 105; 110; 99; 111; 100; 101; 115].
Definition str_trusts : list Z := [116; 114; 117; 115; 116; 115].
Definition str_profiles : list Z := [112; 114; 111; 102; 105; 108; 101; 115].

(** * The functions *)

Section storage.
(** The directory the build configures. *)
Context (STORAGEDIR : list Z).

Definition create_filename (addr : bdaddr) (name : list Z) : list Z :=
  create_name PATH_MAX STORAGEDIR (ba2str addr) name.

(** The end of every function that stores something. *)
Definition store (w : world) (filename key value : list Z) : outcome (Z * world) :=
  r ← create_file w filename; textfile_put r.2 filename key value.

Definition write_discoverable_timeout (w : world) (addr : bdaddr) (timeout : Z) : outcome (Z * world) :=
  store w (create_filename addr str_config) str_discovto (snprintf_bytes 32 (print_d timeout)).

(** The readers return the status, and what they store on success. *)
Definition read_discoverable_timeout (w : world) (addr : bdaddr) : outcome (Z * option Z * world) :=
  r ← textfile_get w (create_filename addr str_config) str_discovto;
  Ret (match r.1 with
       | None => (- ENOENT, None)
       | Some str => match number 10 str with Some n => (0, Some (to_i32 n)) | None => (- ENOENT, None) end
       end, r.2).

Definition write_device_mode (w : world) (addr : bdaddr) (mode : list Z) : outcome (Z * world) :=
  let filename := create_filename addr str_config in
  r ← create_file w filename;
  let w := r.2 in
  r ← (if bool_decide (mode = str_off) then Ret (0, w) else textfile_put w filename str_onmode mode);
  textfile_put r.2 filename str_mode mode.

Definition read_mode_key (w : world) (addr : bdaddr) (key : list Z) (length : Z)
    : outcome (Z * option (list Z) * world) :=
  r ← textfile_get w (create_filename addr str_config) key;
  Ret (match r.1 with
       | None => (- ENOENT, None)
       | Some str => (0, Some (take (Z.to_nat (length - 1)) str))
       end, r.2).
Definition read_device_mode (w : world) (addr : bdaddr) (length : Z) := read_mode_key w addr str_mode length.
Definition read_on_mode (w : world) (addr : bdaddr) (length : Z) := read_mode_key w addr str_onmode length.

(** Control characters of a name become dots. *)
Definition printable (name : list Z) : list Z :=
  map (λ c, if (c <? 32) || (c =? 127) then 46 else c) (take 248 name).

Definition write_local_name (w : world) (addr : bdaddr) (name : list Z) : outcome (Z * world) :=
  store w (create_filename addr str_config) str_name (printable name).

Definition read_name_key (w : world) (filename key : list Z) : outcome (Z * option (list Z) * world) :=
  r ← textfile_get w filename key;
  Ret (match r.1 with
       | None => (- ENOENT, None)
       | Some str => (0, Some (if 248 <? Z.of_nat (length str) then take 248 str else str))
       end, r.2).
Definition read_local_name (w : world) (addr : bdaddr) := read_name_key w (create_filename addr str_config) str_name.

(** [strtol] of the [n] characters at [off], copied to a buffer of three
    bytes; the string is followed by its terminator. *)
Definition field_value (str : list Z) (off n : nat) (base : Z) : outcome Z :=
  bs ← rd n (drop off (str ++ [0])); Ret (to_u8 (strtol (cstring bs) base)).

Fixpoint hex_fields (str : list Z) (off count : nat) : outcome (list Z) :=
  match count with
  | O => Ret []
  | S count => b ← field_value str off 2 16; bs ← hex_fields str (off + 2) count; Ret (b :: bs)
  end.

(** The class is stored most significant byte first. *)
Definition write_local_class (w : world) (addr : bdaddr) (class : list Z) : outcome (Z * world) :=
  str ← sprintf 9 ([48; 120] ++ concat (map (hex_lower 2) (reverse (take 3 class))));
  store w (create_filename addr str_config) str_class str.

Definition read_local_class (w : world) (addr : bdaddr) : outcome (Z * option (list Z) * world) :=
  r ← textfile_get w (create_filename addr str_config) str_class;
  match r.1 with
  | None => Ret (- ENOENT, None, r.2)
  | Some str => bs ← hex_fields str 2 3; Ret (0, Some (reverse bs), r.2)
  end.

Definition write_remote_class (w : world) (local peer : bdaddr) (class : Z) : outcome (Z * world) :=
  r ← create_file w (create_filename local str_classes);
  str ← sprintf 9 ([48; 120] ++ hex_lower (Nat.max 6 (hex_len class)) class);
  textfile_put r.2 (create_filename local str_classes) (ba2str peer) str.

Definition read_remote_class (w : world) (local peer : bdaddr) : outcome (Z * option Z * world) :=
  r ← textfile_get w (create_filename local str_classes) (ba2str peer);
  Ret (match r.1 with
       | None => (- ENOENT, None)
       | Some str => match number 16 str with Some n => (0, Some (to_u32 n)) | None => (- ENOENT, None) end
       end, r.2).

Definition write_device_name (w : world) (local peer : bdaddr) (name : list Z) : outcome (Z * world) :=
  store w (create_filename local str_names) (ba2str peer) (printable name).
Definition read_device_name (w : world) (local peer : bdaddr) :=
  read_name_key w (create_filename local str_names) (ba2str peer).

Definition write_remote_eir (w : world) (local peer : bdaddr) (data : list Z) : outcome (Z * world) :=
  store w (create_filename local str_eir) (ba2str peer) (hex_bytes (take 240 data)).

Definition write_l2cap_info (w : world) (local peer : bdaddr) (mtu_result mtu mask_result mask : Z)
    : outcome (Z * world) :=
  let m := print_d (if mtu_result =? 0 then mtu else -1) in
  let str := m ++ 32 :: (if mask_result =? 0 then 48 :: 120 :: hex_lower (Nat.max 8 (hex_len mask)) mask
                         else [45; 49]) in
  store w (create_filename local str_l2cap) (ba2str peer) (snprintf_bytes 18 str).

(** The pairs of result and value, [None] where the value is not set. *)
Definition read_l2cap_info (w : world) (local peer : bdaddr)
    : outcome (Z * option (Z * option Z * (Z * option Z)) * world) :=
  r ← textfile_get w (create_filename local str_l2cap) (ba2str peer);
  Ret (match r.1 with
       | None => (- ENOENT, None)
       | Some str =>
           match strchr str 32 with
           | None => (- ENOENT, None)
           | Some n =>
               let m := take n str in
               let msk := drop (S n) str in
               (0, Some (if hd 0 m =? 45 then (1, None) else (0, Some (to_u16 (strtol m 0))),
                         if hd 0 msk =? 45 then (1, None) else (0, Some (to_u32 (strtol msk 16)))))
           end
       end, r.2).

Definition write_version_info (w : world) (local peer : bdaddr) (manufacturer lmp_ver lmp_subver : Z)
    : outcome (Z * world) :=
  str ← sprintf 16 (print_d manufacturer ++ 32 :: print_d lmp_ver ++ 32 :: print_d lmp_subver);
  store w (create_filename local str_manufacturers) (ba2str peer) str.

Definition write_features_info (w : world) (local peer : bdaddr) (features : list Z) : outcome (Z * world) :=
  store w (create_filename local str_features) (ba2str peer) (hex_bytes (take 8 features)).

(** [tm] is what [strftime] makes of the time in 24 bytes. *)
Definition write_lastseen_info (w : world) (local peer : bdaddr) (tm : list Z) : outcome (Z * world) :=
  store w (create_filename local str_lastseen) (ba2str peer) tm.
Definition write_lastused_info (w : world) (local peer : bdaddr) (tm : list Z) : outcome (Z * world) :=
  store w (create_filename local str_lastused) (ba2str peer) tm.

(** ** Link keys *)

(** With a negative length, the PIN length stored before is kept. *)
Definition write_link_key (w : world) (local peer : bdaddr) (key : list Z) (type length : Z)
    : outcome (Z * world) :=
  str ← sprintf 38 (hex_bytes (take 16 key) ++ 32 :: print_d type ++ 32 :: print_d length);
  let filename := create_filename local str_linkkeys in
  r ← create_file w filename;
  let addr := ba2str peer in
  r ← (if length <? 0 then
         t ← textfile_get r.2 filename addr;
         match t.1 with
         | Some tmp =>
             if 34 <? Z.of_nat (List.length tmp) then
               bs ← rd 3 (drop 34 (tmp ++ [0]));
               m ← wr (str ++ replicate (38 - List.length str) 0) 34 bs;
               Ret (cstring m, t.2)
             else Ret (str, t.2)
         | None => Ret (str, t.2)
         end
       else Ret (str, r.2));
  textfile_put r.2 filename addr r.1.

(** The key, and the type where the caller wants it. *)
Definition read_link_key (w : world) (local peer : bdaddr) (want : bool) : outcome (Z * option (list Z * Z) * world) :=
  r ← textfile_get w (create_filename local str_linkkeys) (ba2str peer);
  match r.1 with
  | None => Ret (- ENOENT, None, r.2)
  | Some str =>
      key ← hex_fields str 0 16;
      type ← (if want then field_value str 33 2 10 else Ret 0);
      Ret (0, Some (key, type), r.2)
  end.

Definition read_pin_length (w : world) (local peer : bdaddr) : outcome (Z * world) :=
  r ← textfile_get w (create_filename local str_linkkeys) (ba2str peer);
  Ret (match r.1 with
       | None => - ENOENT
       | Some str => if Z.of_nat (length str) <? 36 then - ENOENT else to_i32 (strtol (drop 35 str) 10)
       end, r.2).

(** The length, and the PIN. [strncpy] of sixteen characters leaves no
    terminator after sixteen, and [strlen] reads on. *)
Definition read_pin_code (w : world) (local peer : bdaddr) (pin : list Z) : outcome (Z * list Z * world) :=
  r ← textfile_get w (create_filename local str_pincodes) (ba2str peer);
  match r.1 with
  | None => Ret (- ENOENT, pin, r.2)
  | Some str =>
      let bs := take 16 str in
      pin ← wr pin 0 (bs ++ replicate (16 - length bs) 0);
      n ← strlen pin;
      Ret (n, pin, r.2)
  end.

(** ** Trusted services *)

(** The words between spaces; there is always one. *)
Fixpoint service_string_to_list (services : list Z) : list (list Z) :=
  match services with
  | [] => [[]]
  | b :: services =>
      let l := service_string_to_list services in
      if b =? 32 then [] :: l else match l with s :: l => (b :: s) :: l | [] => [[b]] end
  end.

(** [len] counts what [snprintf] would have stored, and the room left is
    computed from it without a check. *)
Fixpoint list_to_string_loop (services : list (list Z)) (str : list Z) (len : Z) : outcome (list Z) :=
  match services with
  | [] => Ret str
  | ident :: next =>
      if 1023 <? len then Undef
      else
        let piece := ident ++ match next with [] => [] | _ => [32] end in
        let str := if len =? Z.of_nat (length str) then str ++ snprintf_bytes (1024 - len - 1) piece else str in
        list_to_string_loop next str (len + Z.of_nat (length piece))
  end.
Definition service_list_to_string (services : list (list Z)) : outcome (list Z) :=
  list_to_string_loop services [] 0.

Fixpoint remove_first (s : list Z) (l : list (list Z)) : list (list Z) :=
  match l with
  | [] => []
  | x :: l => if bool_decide (x = s) then l else x :: remove_first s l
  end.

Definition services_of (str : option (list Z)) : list (list Z) :=
  match str with Some s => service_string_to_list s | None => [] end.

Definition write_trust (w : world) (local : bdaddr) (addr service : list Z) (trust : bool) : outcome (Z * world) :=
  let filename := create_filename local str_trusts in
  r ← create_file w filename;
  r ← textfile_caseget r.2 filename addr;
  let '(str, w) := r in
  let services := services_of str in
  if Bool.eqb (bool_decide (service ∈ services)) trust then Ret (0, w)
  else
    let services := if trust then services ++ [service] else remove_first service services in
    match trust, services with
    | false, [] => textfile_casedel w filename addr
    | _, _ => new_str ← service_list_to_string services; textfile_caseput w filename addr new_str
    end.

Definition read_trust (w : world) (local : bdaddr) (addr service : list Z) : outcome (bool * world) :=
  r ← textfile_caseget w (create_filename local str_trusts) addr;
  Ret (match r.1 with Some s => bool_decide (service ∈ service_string_to_list s) | None => false end, r.2).

Definition append_trust (service key value : list Z) (trusts : list (list Z)) : list (list Z) :=
  if strstr value service then trusts ++ [key] else trusts.

Definition list_trusts (w : world) (local : bdaddr) (service : list Z) : outcome (list (list Z) * world) :=
  r ← textfile_foreach w (create_filename local str_trusts) (append_trust service) [];
  let '(e, trusts, w) := r in
  Ret (if e <? 0 then [] else trusts, w).

(** ** Profiles, and removal *)

Definition write_device_profiles (w : world) (src dst : bdaddr) (profiles : option (list Z)) : outcome (Z * world) :=
  match profiles with
  | None => Ret (- EINVAL, w)
  | Some profiles => store w (create_filename src str_profiles) (ba2str dst) profiles
  end.

Definition delete_entry (w : world) (src : bdaddr) (storage key : list Z) : outcome (Z * world) :=
  textfile_del w (create_filename src storage) key.

End storage.

(** * Correctness *)

Section correctness.
Context (STORAGEDIR : list Z).

Lemma length_create_filename addr name : Z.of_nat (length (create_filename STORAGEDIR addr name)) ≤ PATH_MAX.
Proof. unfold create_filename, create_name, snprintf_bytes, PATH_MAX. rewrite length_take. lia. Qed.

Lemma ba2str_device_key ba : bdaddr_ok ba → device_key (ba2str ba).
Proof.
  intros Hba. destruct (ba2str_ok ba Hba) as [Hl HF]. split; [done|].
  eapply Forall_impl; [exact HF|]. unfold key_char. simpl. lia.
Qed.

Lemma device_table_ext icase w w' path m :
  contents w' path = contents w path → device_table icase w path m → device_table icase w' path m.
Proof. intros E (l & Hc & H). exists l. by rewrite E. Qed.

Lemma page_room_ext w w' path : contents w' path = contents w path → page_room w path → page_room w' path.
Proof. unfold page_room. by intros ->. Qed.

(** Creating the file and storing a value in it. *)
Lemma store_ok w addr name m key value :
  let filename := create_filename STORAGEDIR addr name in
  device_table false w filename m → w_faults w = [] → device_key key → Forall value_char value →
  page_room w filename →
  ∃ w', store w filename key value = Ret (0, w') ∧ device_table false w' filename (<[key := value]> m) ∧
    (∀ p, p ≠ filename → contents w' p = contents w p) ∧ w_faults w' = [].
Proof.
  intros filename Hm Hw Hk Hv Hpage. unfold store.
  destruct (create_file_quiet w filename Hw (length_create_filename _ _)) as (w1 & -> & H1 & H2 & H3).
  rewrite outcome_bind_ret. cbn [snd]. unfold textfile_put.
  destruct (device_write false w1 filename m key (Some value)) as (w' & H4 & H5 & H6 & H7); try done.
  - by apply (device_table_ext _ w).
  - by apply (page_room_ext w).
  - exists w'. rewrite map_id in H5. split_and!; [done|exact H5| |done].
    intros p Hp. by rewrite H6, H2.
Qed.

Lemma get_ok w filename m key :
  device_table false w filename m → w_faults w = [] → device_key key →
  textfile_get w filename key = Ret (m !! key, w).
Proof. intros Hm Hw Hk. unfold textfile_get. rewrite (device_get false _ _ m) by done. by rewrite map_id. Qed.

(** ** Link keys *)

Definition link_text (key : list Z) (type length : Z) : list Z :=
  hex_bytes key ++ 32 :: print_d type ++ 32 :: print_d length.

Definition key_info_ok (key : list Z) (type length : Z) : Prop :=
  List.length key = 16%nat ∧ Forall byte_ok key ∧ 0 ≤ type < 10 ∧ -1 ≤ length ≤ 16.

(** The texts of the types and lengths, by enumeration. *)
Lemma print_type type : 0 ≤ type < 10 → print_d type = [48 + type].
Proof. intros H. unfold print_d. rewrite (proj2 (Z.ltb_ge _ _)) by lia. simpl. rewrite (proj2 (Z.ltb_lt _ _)) by lia. by rewrite Z.mod_small by lia. Qed.

Definition length_text_ok (n : Z) : bool :=
  (length (print_d n) - 1 <=? 1)%nat && (1 <=? length (print_d n))%nat
  && forallb (λ b, (45 <=? b) && (b <=? 57)) (print_d n)
  && ((0 <=? n) || bool_decide (print_d n = [45; 49])).

Lemma print_length n :
  -1 ≤ n ≤ 16 → (1 ≤ length (print_d n) ≤ 2)%nat ∧ Forall value_char (print_d n) ∧ (n < 0 → print_d n = [45; 49]).
Proof.
  intros Hn. assert (n ∈ seqZ (-1) 18) as Hin by (apply elem_of_seqZ; lia). revert Hin.
  assert (Forall length_text_ok (seqZ (-1) 18)) as HF by (apply forallb_True; vm_compute; exact I).
  rewrite Forall_forall in HF. intros Hin. specialize (HF _ Hin). unfold length_text_ok in HF.
  rewrite !andb_True, orb_True, forallb_True in HF. destruct HF as [[[H1 H2] H3] H4].
  apply Is_true_true, Nat.leb_le in H1, H2. split_and!; [lia|lia| |].
  - eapply Forall_impl; [exact H3|]. unfold value_char. intros b Hb. simpl in Hb. apply Is_true_true in Hb. lia.
  - intros Hneg. destruct H4 as [H4|H4]; [apply Is_true_true in H4; lia|by apply bool_decide_unpack in H4].
Qed.

Lemma hex_bytes_chars bs : Forall byte_ok bs → Forall (λ c, 48 ≤ c ≤ 70) (hex_bytes bs).
Proof.
  intros HF. induction HF as [|b bs Hb _ IH]; [done|]. destruct (nibbles b Hb) as [H1 H2].
  unfold hex_bytes, hex_char in *. cbn [map concat app].
  constructor; [destruct (Z.ltb_spec (b / 16) 10); lia|]. constructor; [destruct (Z.ltb_spec (b mod 16) 10); lia|]. exact IH.
Qed.

Lemma hex_fields_spec bs pre rest :
  Forall byte_ok bs →
  hex_fields (pre ++ hex_bytes bs ++ rest) (length pre) (length bs) = Ret bs.
Proof.
  intros HF. revert pre. induction HF as [|b bs Hb _ IH]; intros pre; [done|].
  change (hex_bytes (b :: bs)) with (hex_bytes [b] ++ hex_bytes bs). cbn [length hex_fields]. unfold field_value.
  assert (length (hex_bytes [b]) = 2%nat) as Hl by (by rewrite length_hex_bytes).
  rewrite <- !app_assoc, drop_app_length, rd_app, !outcome_bind_ret by done.
  assert (cstring (hex_bytes [b]) = hex_bytes [b]) as ->.
  { apply cstring_all. eapply Forall_impl; [apply hex_bytes_chars; by constructor|]. simpl. lia. }
  rewrite <- (app_nil_r (hex_bytes [b])), strtol_byte by done. unfold to_u8. rewrite Z.mod_small by done.
  rewrite app_nil_r. replace (length pre + 2)%nat with (length (pre ++ hex_bytes [b])) by (rewrite length_app; lia).
  rewrite (app_assoc pre), IH. done.
Qed.

Lemma link_text_ok key type n :
  key_info_ok key type n → Forall value_char (link_text key type n) ∧
  (36 ≤ length (link_text key type n) ≤ 37)%nat ∧
  drop 34 (link_text key type n) = 32 :: print_d n.
Proof.
  intros (Hl & HF & Ht & Hn). destruct (print_length n Hn) as (H1 & H2 & _). unfold link_text.
  rewrite print_type by done. pose proof (length_hex_bytes key) as Hh. rewrite Hl in Hh. split_and!.
  - apply Forall_app. split; [|repeat constructor; try lia; done].
    eapply Forall_impl; [by apply hex_bytes_chars|]. unfold value_char. simpl. lia.
  - rewrite length_app. simpl. lia.
  - rewrite length_app. simpl. lia.
  - change 34%nat with (32 + 2)%nat. rewrite <- drop_drop, drop_app_length' by lia. done.
Qed.

(** What the reader makes of such a text. *)
Lemma link_text_key key type n (want : bool) :
  key_info_ok key type n →
  (key' ← hex_fields (link_text key type n) 0 16;
   type' ← (if want then field_value (link_text key type n) 33 2 10 else Ret 0);
   Ret (key', type')) = Ret (key, if want then type else 0).
Proof.
  intros (Hl & HF & Ht & Hn). unfold link_text.
  pose proof (hex_fields_spec key [] (32 :: print_d type ++ 32 :: print_d n) HF) as E. rewrite Hl in E.
  cbn [app length] in E. rewrite E, outcome_bind_ret. destruct want; [|done]. unfold field_value.
  rewrite print_type by done. cbn [app].
  pose proof (length_hex_bytes key) as Hh. rewrite Hl in Hh.
  replace (hex_bytes key ++ 32 :: 48 + type :: 32 :: print_d n) with ((hex_bytes key ++ [32]) ++ [48 + type; 32] ++ print_d n)
    by (by rewrite <- app_assoc).
  rewrite <- (app_assoc (hex_bytes key ++ [32])), drop_app_length' by (rewrite length_app; simpl; lia).
  rewrite <- app_assoc, rd_app, outcome_bind_ret by done. f_equal. f_equal.
  rewrite cstring_all by (repeat constructor; lia). unfold to_u8. change [48 + type; 32] with ([48 + type] ++ [32]).
  rewrite <- print_type, strtol_print_d by (done || lia). by rewrite Z.mod_small by lia.
Qed.

Lemma link_text_length key type n :
  key_info_ok key type n →
  (if Z.of_nat (length (link_text key type n)) <? 36 then - ENOENT
   else to_i32 (strtol (drop 35 (link_text key type n)) 10)) = n.
Proof.
  intros Hok. destruct (link_text_ok key type n Hok) as (_ & Hl & Hd). destruct Hok as (_ & _ & _ & Hn).
  rewrite (proj2 (Z.ltb_ge _ _)) by lia. change 35%nat with (34 + 1)%nat. rewrite <- drop_drop, Hd. rewrite skipn_cons, drop_0.
  rewrite <- (app_nil_r (print_d n)), strtol_print_d by (done || lia).
  apply to_i32_small. lia.
Qed.

(** A new text with the length of the stored one copied into it. *)
Lemma link_text_kept key type n old_key old_type old_n :
  n < 0 → key_info_ok key type n → key_info_ok old_key old_type old_n →
  (bs ← rd 3 (drop 34 (link_text old_key old_type old_n ++ [0]));
   m ← wr (link_text key type n ++ replicate (38 - length (link_text key type n)) 0) 34 bs;
   Ret (cstring m)) = Ret (link_text key type old_n).
Proof.
  intros Hneg Hok Hold. destruct (link_text_ok _ _ _ Hold) as (_ & Hl & Hd). 
  rewrite drop_app_le, Hd by lia. destruct Hold as (_ & _ & _ & Hold).
  destruct (print_length old_n Hold) as (H1 & Hv & _). destruct (link_text_ok _ _ _ Hok) as (Hc & _).
  destruct Hok as (Hlk & HF & Ht & Hn). destruct (print_length n Hn) as (_ & _ & Hp). specialize (Hp Hneg).
  unfold link_text in *. rewrite Hp in *. rewrite print_type in * by done.
  pose proof (length_hex_bytes key) as Hh. rewrite Hlk in Hh.
  assert (Forall (λ b, b ≠ 0) (hex_bytes key ++ [32; 48 + type])) as Hz.
  { apply Forall_app. split; [|repeat constructor; lia].
    eapply Forall_impl; [by apply hex_bytes_chars|]. simpl. lia. }
  assert (Forall (λ b, b ≠ 0) (print_d old_n)) as Hz' by (eapply Forall_impl; [exact Hv|]; unfold value_char; tauto).
  rewrite (length_app (hex_bytes key)). cbn [length]. rewrite Hh. cbn [app].
  replace (hex_bytes key ++ 32 :: 48 + type :: 32 :: [45; 49]) with ((hex_bytes key ++ [32; 48 + type]) ++ [32; 45; 49])
    by (by rewrite <- app_assoc).
  replace (hex_bytes key ++ 32 :: 48 + type :: 32 :: print_d old_n) with ((hex_bytes key ++ [32; 48 + type]) ++ 32 :: print_d old_n)
    by (by rewrite <- app_assoc).
  change (replicate _ 0) with [0]. rewrite <- (app_assoc (hex_bytes key ++ [32; 48 + type])).
  destruct (print_d old_n) as [|a [|b [|c r]]]; simpl in H1; try lia.
  - change (rd 3 _) with (Ret [32; a; 0]). rewrite outcome_bind_ret.
    rewrite wr_app, outcome_bind_ret by (done || (rewrite length_app; simpl; lia)). f_equal.
    change ([32; a; 0] ++ [0]) with ([32; a] ++ [0; 0]).
    rewrite app_assoc. apply cstring_id, Forall_app. split; [done|by constructor].
  - change (rd 3 _) with (Ret [32; a; b]). rewrite outcome_bind_ret.
    rewrite wr_app, outcome_bind_ret by (done || (rewrite length_app; simpl; lia)). f_equal.
    rewrite app_assoc. apply cstring_id, Forall_app. split; [done|by constructor].
Qed.

(** The specification of the file: a map from devices to keys, types and PIN
    lengths. *)
Definition key_info : Type := list Z * Z * Z.
Definition info_text (i : key_info) : list Z := link_text i.1.1 i.1.2 i.2.
Definition info_ok (i : key_info) : Prop := key_info_ok i.1.1 i.1.2 i.2.

Definition link_keys (w : world) (local : bdaddr) (ks : gmap bdaddr key_info) : Prop :=
  w_faults w = [] ∧ map_Forall (λ _ i, info_ok i) ks ∧
  ∃ m, device_table false w (create_filename STORAGEDIR local str_linkkeys) m ∧
       ∀ peer, bdaddr_ok peer → m !! ba2str peer = info_text <$> ks !! peer.

(** What is stored for a key without a known PIN length. *)
Definition stored_info (ks : gmap bdaddr key_info) (peer : bdaddr) (key : list Z) (type n : Z) : key_info :=
  (key, type, if n <? 0 then match ks !! peer with Some i => i.2 | None => n end else n).

Lemma stored_info_ok ks peer key type n :
  map_Forall (λ _ i, info_ok i) ks → key_info_ok key type n → info_ok (stored_info ks peer key type n).
Proof.
  intros Hks (H1 & H2 & H3 & H4). unfold stored_info, info_ok. simpl. split_and!; try done.
  all: destruct (n <? 0); [|lia]; destruct (ks !! peer) as [i|] eqn:E; [|lia]; apply Hks in E; destruct E as (_ & _ & _ & E); lia.
Qed.

(** The body of [write_link_key] up to the final store. *)
Lemma write_link_key_text w local peer key type n m ks :
  let filename := create_filename STORAGEDIR local str_linkkeys in
  device_table false w filename m → w_faults w = [] → bdaddr_ok peer → key_info_ok key type n →
  m !! ba2str peer = info_text <$> ks !! peer → map_Forall (λ _ i, info_ok i) ks →
  write_link_key STORAGEDIR w local peer key type n =
  store w filename (ba2str peer) (info_text (stored_info ks peer key type n)).
Proof.
  intros filename Hm Hw Hp Hok Hlk Hks. unfold write_link_key, store. fold filename.
  destruct (link_text_ok _ _ _ Hok) as (Hc & Hl & _). rewrite take_ge by (destruct Hok; lia).
  change (hex_bytes key ++ _) with (link_text key type n). unfold sprintf.
  rewrite (proj2 (Z.ltb_lt (Z.of_nat (length (link_text key type n))) 38)), outcome_bind_ret by lia.
  destruct (create_file_quiet w filename Hw (length_create_filename _ _)) as (w1 & -> & H1 & H2 & H3).
  rewrite !outcome_bind_ret. cbn [snd]. unfold stored_info, info_text. cbn [fst snd].
  destruct (Z.ltb_spec n 0) as [Hneg|Hpos]; [|done].
  assert (device_table false w1 filename m) as Hm1 by (by apply (device_table_ext _ w)).
  rewrite (get_ok w1 filename m) by (done || by apply ba2str_device_key).
  rewrite outcome_bind_ret. cbn [fst snd]. rewrite Hlk. destruct (ks !! peer) as [[[k0 t0] n0]|] eqn:E; [|done].
  apply Hks in E. unfold info_ok in E. cbn [fst snd] in E. cbn [fmap option_fmap option_map].
  destruct (link_text_ok _ _ _ E) as (_ & Hl0 & _). unfold info_text. cbn [fst snd].
  rewrite (proj2 (Z.ltb_lt 34 _)) by lia.
  pose proof (link_text_kept _ _ _ _ _ _ Hneg Hok E) as Hk. revert Hk.
  destruct (rd 3 _) as [bs| |]; [|discriminate..]. rewrite !outcome_bind_ret.
  destruct (wr _ 34 bs) as [mem| |]; [|discriminate..]. rewrite !outcome_bind_ret.
  by intros [= ->].
Qed.

(** The link keys of an adapter are a map from devices to a key, its type
    and the length of the PIN it was made from: [write_link_key] inserts into
    that map, keeping the PIN length stored before when the new one is
    unknown (negative), and for every device, stored or not,
    [read_link_key] and [read_pin_length] look it up; no other file
    changes. *)
Theorem link_keys_refine (w : world) (local peer : bdaddr) (ks : gmap bdaddr key_info) (key : list Z) (type n : Z)
    (Hks : link_keys w local ks) (Hpeer : bdaddr_ok peer) (Hinfo : key_info_ok key type n)
    (Hroom : page_room w (create_filename STORAGEDIR local str_linkkeys)) :
  let lookup w ks := ∀ dev want, bdaddr_ok dev →
    read_link_key STORAGEDIR w local dev want =
      Ret (match ks !! dev with
           | Some (key, type, _) => (0, Some (key, if want then type else 0))
           | None => (- ENOENT, None)
           end, w) ∧
    read_pin_length STORAGEDIR w local dev = Ret (match ks !! dev with Some (_, n) => n | None => - ENOENT end, w) in
  let ks' := <[peer := stored_info ks peer key type n]> ks in
  lookup w ks ∧
  ∃ w', write_link_key STORAGEDIR w local peer key type n = Ret (0, w') ∧ link_keys w' local ks' ∧ lookup w' ks' ∧
    ∀ path, path ≠ create_filename STORAGEDIR local str_linkkeys → contents w' path = contents w path.
Proof.
  intros lookup ks'.
  assert (∀ w ks, link_keys w local ks → lookup w ks) as Hlookup.
  { clear. intros w ks (Hw & Hks & m & Hm & Hlk) dev want Hdev. unfold read_link_key, read_pin_length.
    rewrite (get_ok w _ m) by (done || by apply ba2str_device_key). rewrite !outcome_bind_ret. cbn [fst snd].
    rewrite Hlk by done. destruct (ks !! dev) as [[[k t] n]|] eqn:E; [|done]. apply Hks in E.
    cbn [fmap option_fmap option_map]. unfold info_text. cbn [fst snd].
    pose proof (link_text_key k t n want E) as Hk. rewrite (link_text_length k t n E). split; [|done].
    revert Hk. destruct (hex_fields _ 0 16) as [k'| |]; [|discriminate..]. rewrite !outcome_bind_ret.
    destruct (if want then _ else Ret 0) as [t'| |]; [|discriminate..]. rewrite !outcome_bind_ret. by intros [= -> ->]. }
  split; [by apply Hlookup|]. destruct Hks as (Hw & Hks & m & Hm & Hlk).
  rewrite (write_link_key_text w local peer key type n m ks) by (done || by apply Hlk).
  assert (info_ok (stored_info ks peer key type n)) as Hnew by (by apply stored_info_ok).
  destruct (store_ok w local str_linkkeys m (ba2str peer) (info_text (stored_info ks peer key type n)))
    as (w' & -> & Hm' & Hother & Hw'); try done.
  { by apply ba2str_device_key. }
  { by apply link_text_ok. }
  exists w'. assert (link_keys w' local ks') as Hks'.
  { split_and!; [done| |].
    - by apply map_Forall_insert_2.
    - eexists. split; [exact Hm'|]. intros dev Hdev. unfold ks'. destruct (decide (dev = peer)) as [->|Hne].
      + by rewrite !lookup_insert_eq.
      + rewrite !lookup_insert_ne; [by apply Hlk|done|]. intros E. apply Hne. symmetry. by apply ba2str_inj. }
  split_and!; [done..|by apply Hlookup|done].
Qed.

(** ** Trusted services *)

Definition join_words (l : list (list Z)) : list Z :=
  match l with [] => [] | s :: l => s ++ concat (map (cons 32) l) end.

Lemma split_word s rest :
  Forall (λ c, c ≠ 32) s → service_string_to_list (s ++ rest) =
    match service_string_to_list rest with x :: l => (s ++ x) :: l | [] => [s] end.
Proof.
  induction 1 as [|b s Hb _ IH]; cbn [app service_string_to_list].
  - destruct rest as [|b rest]; [done|]. cbn [service_string_to_list]. destruct (b =? 32); [done|].
    by destruct (service_string_to_list rest).
  - rewrite (proj2 (Z.eqb_neq _ _)) by done. rewrite IH. by destruct (service_string_to_list rest).
Qed.

Lemma split_join l : l ≠ [] → Forall (Forall (λ c, c ≠ 32)) l → service_string_to_list (join_words l) = l.
Proof.
  destruct l as [|s l]; [done|]. intros _ HF. revert s HF. induction l as [|t l IH]; intros s HF.
  - cbn. rewrite split_word by (by inversion HF). cbn. by rewrite app_nil_r.
  - apply Forall_cons in HF as [Hs HF]. specialize (IH t HF). cbn in IH |- *. rewrite split_word by done.
    cbn. by rewrite IH, app_nil_r.
Qed.

Lemma split_words str :
  ∃ s l, service_string_to_list str = s :: l ∧ join_words (s :: l) = str ∧ Forall (Forall (λ c, c ≠ 32)) (s :: l).
Proof.
  induction str as [|b str (s & l & E & Hj & HF)].
  - exists [], []. split_and!; [done..|]. by repeat constructor.
  - cbn [service_string_to_list]. rewrite E. destruct (Z.eqb_spec b 32) as [->|Hb].
    + exists [], (s :: l). split_and!; [done| |by constructor]. cbn in Hj |- *. by rewrite Hj.
    + exists (b :: s), l. split_and!; [done| |].
      * cbn in Hj |- *. by rewrite Hj.
      * apply Forall_cons in HF as [Hs HF]. by repeat constructor.
Qed.

(** The buffer of 1024 bytes takes strings of up to 1022 characters. *)
Lemma list_to_string_join l : 
  Z.of_nat (length (join_words l)) ≤ 1022 → service_list_to_string l = Ret (join_words l).
Proof.
  intros Hl. unfold service_list_to_string. destruct l as [|s l]; [done|].
  assert (∀ str, Z.of_nat (length (str ++ join_words (s :: l))) ≤ 1022 →
    list_to_string_loop (s :: l) str (Z.of_nat (length str)) = Ret (str ++ join_words (s :: l))) as H; [|by apply (H [])].
  clear Hl. revert s. induction l as [|t l IH]; intros s str Hl; rewrite !length_app in Hl.
  - cbn in Hl |- *. rewrite app_nil_r in *. rewrite (proj2 (Z.ltb_ge _ _)) by lia. rewrite Z.eqb_refl.
    unfold snprintf_bytes. by rewrite take_ge by lia.
  - change (join_words (s :: t :: l)) with (s ++ 32 :: join_words (t :: l)) in *. 
    rewrite length_app in Hl. cbn [length] in Hl. cbn [list_to_string_loop].
    rewrite (proj2 (Z.ltb_ge _ _)) by lia. rewrite Z.eqb_refl. unfold snprintf_bytes.
    rewrite take_ge by (rewrite length_app; simpl; lia).
    replace (str ++ s ++ 32 :: join_words (t :: l)) with ((str ++ s ++ [32]) ++ join_words (t :: l))
      by (by rewrite <- !app_assoc).
    rewrite <- IH by (rewrite !length_app; cbn [length]; lia).
    assert (Z.of_nat (length str) + Z.of_nat (length (s ++ [32])) = Z.of_nat (length (str ++ s ++ [32]))) as E
      by (rewrite !length_app; lia).
    cbn [list_to_string_loop]. by rewrite !E.
Qed.

Lemma elem_remove_first s t l : NoDup l → t ∈ remove_first s l ↔ t ∈ l ∧ t ≠ s.
Proof.
  induction 1 as [|x l Hx _ IH]; cbn [remove_first]; [set_solver|]. case_bool_decide as E; [subst|]; set_solver.
Qed.

Lemma remove_first_sublist s l : remove_first s l `sublist_of` l.
Proof.
  induction l as [|x l IH]; cbn [remove_first]; [done|]. case_bool_decide; [by apply sublist_cons|by apply sublist_skip].
Qed.

Lemma sublist_Forall {A} (P : A → Prop) k l : Forall P l → k `sublist_of` l → Forall P k.
Proof. rewrite !Forall_forall. intros H Hs x Hx. eapply H, elem_of_sublist; done. Qed.

Lemma length_join_sublist k l : k `sublist_of` l → (length (join_words k) ≤ length (join_words l))%nat.
Proof.
  assert (∀ l : list (list Z), length (concat (map (cons 32) l)) = (sum_list (length <$> l) + length l)%nat) as H.
  { clear. intros l. induction l as [|s l IH]; [done|].
    cbn [map concat app length]. rewrite length_app, IH, fmap_cons. cbn. lia. }
  assert (∀ l : list (list Z), l ≠ [] → (length (join_words l) + 1 = sum_list (length <$> l) + length l)%nat) as H'.
  { intros [|s l0]; [done|]. intros _. unfold join_words. rewrite length_app, H, fmap_cons. cbn. lia. }
  intros Hs. assert (sum_list (length <$> k) ≤ sum_list (length <$> l) ∧ length k ≤ length l)%nat as [H1 H2].
  { clear -Hs. induction Hs as [|x l1 l2 _ [IH1 IH2]|x l1 l2 _ [IH1 IH2]]; cbn; split; lia. }
  destruct k as [|s k]; [simpl; lia|]. destruct l as [|t l]; [by apply sublist_nil_r in Hs|].
  pose proof (H' (s :: k) ltac:(done)). pose proof (H' (t :: l) ltac:(done)). lia.
Qed.

(** The specification of the file: the set of trusted pairs of a device, by
    its address in lower case, and a service. *)
Definition trusts (w : world) (local : bdaddr) (T : gset (list Z * list Z)) : Prop :=
  w_faults w = [] ∧ ∃ m, device_table true w (create_filename STORAGEDIR local str_trusts) m ∧
    map_Forall (λ _ str, NoDup (service_string_to_list str)) m ∧
    ∀ addr service, (addr, service) ∈ T ↔ service ∈ services_of (m !! addr).

Definition word (s : list Z) : Prop := Forall (λ c, c ≠ 32) s ∧ Forall value_char s.

Definition device_text (addr : list Z) : list Z := map tolower addr.

Lemma table_values icase w path m k v : device_table icase w path m → m !! k = Some v → Forall value_char v.
Proof.
  intros (l & _ & [HF _] & <- & _) Hk. apply elem_of_list_to_map_2, list_elem_of_fmap in Hk as (e & E & He).
  rewrite Forall_forall in HF. destruct (HF e He) as [_ Hv]. by injection E as _ ->.
Qed.

(** The new list of services of a device, and the value stored for it. *)
Definition new_services (l : list (list Z)) (service : list Z) (trust : bool) : list (list Z) :=
  if trust then l ++ [service] else remove_first service l.
Definition new_value (l : list (list Z)) : option (list Z) :=
  match l with [] => None | _ => Some (join_words l) end.

Lemma services_of_words v : Forall (Forall (λ c, c ≠ 32)) (services_of v) ∧ new_value (services_of v) = v.
Proof.
  destruct v as [str|]; [|done]. destruct (split_words str) as (s & l & E & Hj & HF). simpl. rewrite E.
  split; [done|]. by rewrite <- Hj.
Qed.

Lemma new_value_services l : Forall (Forall (λ c, c ≠ 32)) l → services_of (new_value l) = l.
Proof. intros HF. destruct l as [|s l]; [done|]. by apply (split_join (s :: l)). Qed.

Lemma join_words_app l s : join_words (l ++ [s]) = match l with [] => s | _ => join_words l ++ 32 :: s end.
Proof. destruct l as [|t l]; cbn; [by rewrite app_nil_r|]. by rewrite map_app, concat_app, <- app_assoc; cbn; rewrite app_nil_r. Qed.

Lemma join_words_chars l : Forall (Forall value_char) l ↔ Forall value_char (join_words l).
Proof.
  destruct l as [|s l]; [split; constructor|]. unfold join_words. rewrite Forall_cons, Forall_app.
  apply and_iff_compat_l. induction l as [|t l IH]; [split; constructor|]. cbn [map concat app].
  rewrite !Forall_cons, Forall_app, IH. unfold value_char. split; [intros [H1 H2]|intros (_ & H1 & H2)]; split_and?; done.
Qed.

Lemma new_services_ok v service trust :
  word service → default True (Forall value_char <$> v) → NoDup (services_of v) →
  (trust = true → service ∉ services_of v) →
  let l := new_services (services_of v) service trust in
  Forall (Forall (λ c, c ≠ 32)) l ∧ Forall value_char (join_words l) ∧ NoDup l ∧
  (∀ s, s ∈ l ↔ if trust then s = service ∨ s ∈ services_of v else s ∈ services_of v ∧ s ≠ service) ∧
  Z.of_nat (length (join_words l)) ≤ Z.of_nat (length (default [] v)) + Z.of_nat (length service) + 1.
Proof.
  intros [Hw1 Hw2] Hv Hnd Hnew l. destruct (services_of_words v) as [Hwords Hval].
  assert (Forall (Forall value_char) (services_of v)) as Hchars.
  { destruct (services_of v) eqn:E; [constructor|]. apply join_words_chars. rewrite <- Hval in Hv. done. }
  assert (length (join_words (services_of v)) = length (default [] v)) as Hlen.
  { rewrite <- Hval at 2. by destruct (services_of v). }
  subst l. destruct trust; unfold new_services.
  - split_and!.
    + apply Forall_app. by split; [|constructor].
    + apply join_words_chars, Forall_app. by split; [|constructor].
    + apply NoDup_app. split_and!; [done| |apply NoDup_singleton]. intros x Hx. intros ->%list_elem_of_singleton. by apply Hnew.
    + intros s. set_solver.
    + rewrite join_words_app. destruct (services_of v) eqn:E; [lia|]. rewrite length_app. cbn [length] in *. lia.
  - pose proof (remove_first_sublist service (services_of v)) as Hsub. split_and!.
    + by eapply sublist_Forall.
    + apply join_words_chars. by eapply sublist_Forall.
    + by eapply sublist_NoDup.
    + intros s. by apply elem_remove_first.
    + apply length_join_sublist in Hsub. lia.
Qed.

(** Storing the new value, or removing the entry when no service is left. *)
Lemma write_services w local m addr l (trust : bool) :
  let filename := create_filename STORAGEDIR local str_trusts in
  device_table true w filename m → w_faults w = [] → is_Some (w_files w !! filename) → device_key addr →
  Forall value_char (join_words l) → Z.of_nat (length (join_words l)) ≤ 1022 → (trust = true → l ≠ []) →
  page_room w filename →
  ∃ w', match trust, l with
        | false, [] => textfile_casedel w filename addr
        | _, _ => new_str ← service_list_to_string l; textfile_caseput w filename addr new_str
        end = Ret (0, w') ∧
    device_table true w' filename (partial_alter (λ _, new_value l) (device_text addr) m) ∧
    (∀ p, p ≠ filename → contents w' p = contents w p) ∧ w_faults w' = [].
Proof.
  intros filename Hm Hw Hf Hk Hv Hl Ht Hpage.
  destruct (device_write true w filename m addr (new_value l)) as (w' & H1 & H2 & H3 & H4); try done.
  { unfold new_value. by destruct l. }
  exists w'. split_and!; try done. rewrite list_to_string_join, outcome_bind_ret by done.
  unfold textfile_casedel, textfile_caseput. destruct l, trust; try done. by destruct (Ht eq_refl).
Qed.

Definition trust_update (T : gset (list Z * list Z)) (pair : list Z * list Z) (trust : bool) : gset (list Z * list Z) :=
  if trust then {[pair]} ∪ T else T ∖ {[pair]}.

(** The table after a change for one device, and the set it stands for. *)
Lemma trusts_alter (w' : world) local T m k service trust :
  let l := new_services (services_of (m !! k)) service trust in
  (∀ addr s, (addr, s) ∈ T ↔ s ∈ services_of (m !! addr)) →
  map_Forall (λ _ str, NoDup (service_string_to_list str)) m →
  device_table true w' (create_filename STORAGEDIR local str_trusts) (partial_alter (λ _, new_value l) k m) →
  w_faults w' = [] → Forall (Forall (λ c, c ≠ 32)) l → NoDup l →
  (∀ s, s ∈ l ↔ if trust then s = service ∨ s ∈ services_of (m !! k) else s ∈ services_of (m !! k) ∧ s ≠ service) →
  trusts w' local (trust_update T (k, service) trust).
Proof.
  intros l HT Hnd Hm Hw Hwords Hl Helem. split; [done|]. eexists. split; [exact Hm|]. split.
  - intros a str Ha. destruct (decide (a = k)) as [->|Hne].
    + rewrite lookup_partial_alter_eq in Ha. pose proof (new_value_services l Hwords) as E. rewrite Ha in E.
      simpl in E. by rewrite E.
    + rewrite lookup_partial_alter_ne in Ha by done. by eapply Hnd.
  - intros a s. destruct (decide (a = k)) as [->|Hne].
    + rewrite lookup_partial_alter_eq, new_value_services, Helem by done. specialize (HT k s).
      unfold trust_update. destruct trust; set_solver.
    + rewrite lookup_partial_alter_ne by done. specialize (HT a s). unfold trust_update. destruct trust; set_solver.
Qed.

(** A change to what already holds. *)
Lemma trusts_same w w' local T k service (trust : bool) :
  trusts w local T → contents w' (create_filename STORAGEDIR local str_trusts) =
    contents w (create_filename STORAGEDIR local str_trusts) → w_faults w' = [] →
  ((k, service) ∈ T ↔ trust = true) → trusts w' local (trust_update T (k, service) trust).
Proof.
  intros (Hw & m & Hm & Hnd & HT) Hc Hw' Hin. split; [done|]. exists m. split_and!; [by apply (device_table_ext _ w)|done|].
  intros a s. rewrite <- HT. unfold trust_update. destruct trust; [assert ((k, service) ∈ T) by tauto|assert ((k, service) ∉ T)]; set_solver.
Qed.

(** The trusted services of an adapter's devices are a set of pairs of a
    device and a service: [write_trust] adds the pair or removes it,
    [read_trust] is membership, the device's address counts in either case
    of its letters, and no other file changes. The list of a device has to
    fit in the 1022 characters the code's buffer holds. *)
Theorem trust_refine (w : world) (local : bdaddr) (T : gset (list Z * list Z)) (addr service : list Z) (trust : bool)
    (HT : trusts w local T) (Haddr : device_key addr) (Hservice : word service)
    (Hroom : page_room w (create_filename STORAGEDIR local str_trusts))
    (Hfit : ∀ str, textfile_caseget w (create_filename STORAGEDIR local str_trusts) addr = Ret (Some str, w) →
      Z.of_nat (length str) + Z.of_nat (length service) + 1 ≤ 1022)
    (Hshort : Z.of_nat (length service) ≤ 1000) :
  let lookup w T := ∀ addr' service', device_key addr' →
    read_trust STORAGEDIR w local addr' service' = Ret (bool_decide ((device_text addr', service') ∈ T), w) in
  let pair := (device_text addr, service) in
  let T' := trust_update T pair trust in
  lookup w T ∧
  ∃ w', write_trust STORAGEDIR w local addr service trust = Ret (0, w') ∧ trusts w' local T' ∧ lookup w' T' ∧
    ∀ path, path ≠ create_filename STORAGEDIR local str_trusts → contents w' path = contents w path.
Proof.
  set (filename := create_filename STORAGEDIR local str_trusts) in *. intros lookup pair T'.
  assert (∀ w m, device_table true w filename m → w_faults w = [] → 
    ∀ a, device_key a → textfile_caseget w filename a = Ret (m !! device_text a, w)) as Hget.
  { clear. intros w m Hm Hw a Ha. unfold textfile_caseget. by rewrite (device_get true _ _ m). }
  assert (∀ w T, trusts w local T → lookup w T) as Hlookup.
  { clear -Hget. intros w T (Hw & m & Hm & _ & HT) a s Ha. unfold read_trust. fold filename.
    rewrite (Hget w m) by done. rewrite outcome_bind_ret. cbn [fst snd]. do 2 f_equal. specialize (HT (device_text a) s).
    destruct (m !! device_text a); apply bool_decide_ext || (symmetry; apply bool_decide_false); rewrite HT; [done|set_solver]. }
  split; [by apply Hlookup|]. destruct HT as (Hw & m & Hm & Hnd & HT).
  unfold write_trust. fold filename.
  destruct (create_file_quiet w filename Hw (length_create_filename _ _)) as (w1 & -> & Hf & Hc1 & Hw1).
  assert (device_table true w1 filename m) as Hm1 by (by apply (device_table_ext _ w)).
  rewrite outcome_bind_ret. cbn [snd]. rewrite (Hget w1 m) by done. rewrite outcome_bind_ret.
  pose proof (λ s, Hfit s) as Hfits. rewrite (Hget w m) in Hfits by done. clear Hfit.
  set (v := m !! device_text addr) in *.
  assert (default [] v = [] ∨ v = Some (default [] v)) as Hv by (destruct v; [by right|by left]).
  assert (Hlen : Z.of_nat (length (default [] v)) + Z.of_nat (length service) + 1 ≤ 1022).
  { destruct v as [str|]; [by apply Hfits|]. simpl. lia. }
  pose proof (HT (device_text addr) service) as Hpair. fold v in Hpair.
  destruct (Bool.eqb (bool_decide (service ∈ services_of v)) trust) eqn:Hsame.
  - apply Bool.eqb_prop in Hsame. exists w1. assert (trusts w1 local T') as HT'.
    { apply (trusts_same w); [by split; [|exists m]|done..|]. rewrite Hpair, <- Hsame. by rewrite bool_decide_eq_true. }
    split_and!; [done..|by apply Hlookup|done].
  - apply Bool.eqb_false_iff in Hsame.
    destruct (new_services_ok v service trust) as (N1 & N2 & N3 & N4 & N5); [done| | | |].
    { destruct v eqn:E; [|done]. simpl. by eapply table_values. }
    { destruct v as [str|] eqn:E; [|constructor]. by eapply Hnd. }
    { intros -> Hin. by rewrite bool_decide_true in Hsame. }
    destruct (write_services w1 local m addr (new_services (services_of v) service trust) trust)
      as (w' & Hw2 & Hm' & Hc' & Hw'); try done.
    { lia. }
    { intros ->. unfold new_services. by destruct (services_of v). }
    { by apply (page_room_ext w). }
    exists w'. assert (trusts w' local T') as HT' by (by eapply trusts_alter).
    split_and!; [exact Hw2|done|by apply Hlookup|]. intros p Hp. by rewrite Hc', Hc1.
Qed.

End correctness.

(** A file with one key. *)
Definition example_peer : bdaddr := [1; 2; 3; 4; 5; 6].
Definition example_key : list Z := seqZ 0 16.
Definition example_keys (local : bdaddr) : world :=
  World {[create_filename [47] local str_linkkeys := render [(ba2str example_peer, info_text (example_key, 4, 6))]]} [] [].

Lemma example_keys_ok local : link_keys [47] (example_keys local) local {[example_peer := (example_key, 4, 6)]}.
Proof.
  assert (bdaddr_ok example_peer) as Hp by (split; [done|by repeat constructor]).
  assert (info_ok (example_key, 4, 6)) as Hi by (split_and!; try done; by repeat constructor).
  split_and!; [done|by apply map_Forall_singleton|].
  exists {[ba2str example_peer := info_text (example_key, 4, 6)]}. split.
  - exists [(ba2str example_peer, info_text (example_key, 4, 6))]. split_and!.
    + unfold contents, example_keys. cbn [w_files]. by rewrite lookup_singleton_eq.
    + split; [|apply NoDup_singleton]. constructor; [|constructor]. split; [by apply device_key_ok, ba2str_device_key|].
      by apply link_text_ok.
    + done.
    + by apply map_Forall_singleton.
  - intros dev Hdev. destruct (decide (dev = example_peer)) as [->|Hne].
    + by rewrite !lookup_singleton_eq.
    + rewrite !lookup_singleton_ne; [done|done|]. intros E. apply Hne. symmetry. by apply ba2str_inj.
Qed.

Lemma link_keys_refine_witness :
  ∃ w', write_link_key [47] (example_keys example_peer) example_peer example_peer (seqZ 100 16) 5 (-1) = Ret (0, w') ∧
    read_link_key [47] w' example_peer example_peer true = Ret (0, Some (seqZ 100 16, 5), w') ∧
    read_pin_length [47] w' example_peer example_peer = Ret (6, w').
Proof.
  assert (bdaddr_ok example_peer) as Hp by (split; [done|by repeat constructor]).
  destruct (link_keys_refine [47] (example_keys example_peer) example_peer example_peer _ (seqZ 100 16) 5 (-1)
    (example_keys_ok example_peer) Hp) as (_ & w' & H1 & _ & H2 & _).
  - split_and!; try done; by repeat constructor.
  - vm_compute. split; [done|]. right. discriminate.
  - exists w'. split; [exact H1|]. exact (H2 example_peer true Hp).
Defined.

(** A file with one device, trusted for the services "a" and "b". *)
Definition example_trusts (local : bdaddr) : world :=
  World {[create_filename [47] local str_trusts := render [(ba2str example_peer, [97; 32; 98])]]} [] [].
Definition example_pairs : gset (list Z * list Z) :=
  {[(device_text (ba2str example_peer), [97]); (device_text (ba2str example_peer), [98])]}.

Lemma example_trusts_ok local : trusts [47] (example_trusts local) local example_pairs.
Proof.
  assert (bdaddr_ok example_peer) as Hp by (split; [done|by repeat constructor]).
  split; [done|]. exists {[device_text (ba2str example_peer) := [97; 32; 98]]}. split_and!.
  - exists [(ba2str example_peer, [97; 32; 98])]. split_and!.
    + unfold contents, example_trusts. cbn [w_files]. by rewrite lookup_singleton_eq.
    + split; [|apply NoDup_singleton]. constructor; [|constructor]. split; [by apply device_key_ok, ba2str_device_key|].
      by repeat constructor.
    + done.
    + by apply map_Forall_singleton.
  - apply map_Forall_singleton. change (NoDup [[97]; [98]]). repeat constructor; set_solver.
  - intros a s. unfold example_pairs. destruct (decide (a = device_text (ba2str example_peer))) as [->|Hne].
    + rewrite lookup_singleton_eq. cbn. set_solver.
    + rewrite lookup_singleton_ne by done. cbn. set_solver.
Qed.

Lemma trust_refine_witness :
  ∃ w', write_trust [47] (example_trusts example_peer) example_peer (ba2str example_peer) [97] false = Ret (0, w') ∧
    read_trust [47] w' example_peer (device_text (ba2str example_peer)) [97] = Ret (false, w') ∧
    read_trust [47] w' example_peer (device_text (ba2str example_peer)) [98] = Ret (true, w').
Proof.
  assert (bdaddr_ok example_peer) as Hp by (split; [done|by repeat constructor]).
  destruct (trust_refine [47] (example_trusts example_peer) example_peer example_pairs (ba2str example_peer) [97] false
    (example_trusts_ok example_peer)) as (_ & w' & H1 & _ & H2 & _).
  - by apply ba2str_device_key.
  - split; by repeat constructor.
  - vm_compute. split; [done|]. right. discriminate.
  - vm_compute. intros str [= <-]. discriminate.
  - vm_compute. discriminate.
  - exists w'. split; [exact H1|].
    assert (device_key (device_text (ba2str example_peer))) as Hk by (split; [done|by repeat constructor]).
    split; [exact (H2 _ [97] Hk)|exact (H2 _ [98] Hk)].
Defined.
