(* ===== verification/SdpList.v ===== *)
(** The singly-linked lists of libs/src/sdp.c and sdp_lib.h, as Rocq lists of
    the [data] pointers' targets, and the interface a comparison function
    offers to the sorted lists the library keeps. *)

From stdpp Require Import base list numbers sorting.
From Stdlib Require Import ZArith Lia.
From S2P Require Import Prelude CString SdpTypes.

Local Open Scope Z_scope.

Section operations.
Context {A : Type}.
Implicit Types (l : list A) (f : A → A → Z).

Definition sdp_list_len l : Z := Z.of_nat (length l).

Definition sdp_list_append l (d : A) : list A := l ++ [d].

(** The first node [f] says equals [u]. *)
Fixpoint sdp_list_find l (u : A) f : option A :=
  match l with
  | [] => None
  | d :: l => if f d u =? 0 then Some d else sdp_list_find l u f
  end.

(** Insert before the first node that is not smaller. *)
Fixpoint sdp_list_insert_sorted l (d : A) f : list A :=
  match l with
  | [] => [d]
  | p :: l' => if f p d >=? 0 then d :: l else p :: sdp_list_insert_sorted l' d f
  end.

(** Unlink the first node whose data is [d]; the code compares pointers. *)
Fixpoint sdp_list_remove `{EqDecision A} l (d : A) : list A :=
  match l with
  | [] => []
  | p :: l => if decide (p = d) then l else p :: sdp_list_remove l d
  end.

(** [sdp_list_foreach] with a callback that updates a state and may run into
    undefined behaviour. *)
Fixpoint sdp_list_foreach {S} l (f : A → S → outcome S) (u : S) : outcome S :=
  match l with
  | [] => Ret u
  | d :: l => u ← f d u; sdp_list_foreach l f u
  end.
End operations.

(** What a comparison function promises to the sorted lists: its sign is a
    strict order, and zero is an equivalence the order does not see. *)
Class CompFunc {A} (f : A → A → Z) : Prop := {
  comp_sym a b : f a b < 0 ↔ 0 < f b a;
  comp_trans a b c : f a b < 0 → f b c < 0 → f a c < 0;
  comp_refl a : f a a = 0;
  comp_zero a b c : f a b = 0 → Z.sgn (f a c) = Z.sgn (f b c)
}.

Section sorted.
Context {A : Type} (f : A → A → Z) `{!CompFunc f}.
Implicit Types l : list A.

(** Strictly increasing: sorted and without duplicates. *)
Definition sdp_sorted l : Prop := StronglySorted (λ a b, f a b < 0) l.

Lemma comp_zero_sym a b : f a b = 0 → f b a = 0.
Proof using Type*.
  intros H. pose proof (comp_sym a b). pose proof (comp_sym b a). lia.
Qed.

Lemma insert_sorted_perm l d : sdp_list_insert_sorted l d f ≡ₚ d :: l.
Proof using Type.
  induction l as [|p l IH]; simpl; [done|].
  destruct (f p d >=? 0); [done|]. rewrite IH. by constructor.
Qed.

Lemma elem_of_insert_sorted l d x : x ∈ sdp_list_insert_sorted l d f ↔ x = d ∨ x ∈ l.
Proof using Type. by rewrite insert_sorted_perm, elem_of_cons. Qed.

Lemma insert_sorted_sorted l d :
  sdp_sorted l → (∀ x, x ∈ l → f x d ≠ 0) → sdp_sorted (sdp_list_insert_sorted l d f).
Proof using Type*.
  unfold sdp_sorted. induction 1 as [|p l Hs IH Hp]; intros Hd; simpl.
  { repeat constructor. }
  destruct (Z.geb_spec (f p d) 0) as [Hge|Hlt].
  - assert (f d p < 0) as Hdp.
    { apply comp_sym. specialize (Hd p (list_elem_of_here _ _)). lia. }
    constructor; [by constructor|]. constructor; [done|].
    eapply Forall_impl; [done|]. intros x Hx. by eapply comp_trans.
  - constructor; [apply IH; intros; by apply Hd, list_elem_of_further|].
    rewrite insert_sorted_perm. by constructor.
Qed.

Lemma find_Some l u x : sdp_list_find l u f = Some x → x ∈ l ∧ f x u = 0.
Proof using Type.
  induction l as [|d l IH]; simpl; [done|].
  destruct (Z.eqb_spec (f d u) 0); intros H.
  - simplify_eq. by split; [left|].
  - destruct (IH H). by split; [right|].
Qed.

Lemma find_None l u : sdp_list_find l u f = None ↔ ∀ x, x ∈ l → f x u ≠ 0.
Proof using Type.
  induction l as [|d l IH]; simpl.
  { split; [intros _ x Hx; by apply elem_of_nil in Hx|done]. }
  destruct (Z.eqb_spec (f d u) 0).
  - split; [done|]. intros H. destruct (H d); [by left|done].
  - rewrite IH. setoid_rewrite elem_of_cons. split; [intros H x [->|?]; auto|intros H x ?; auto].
Qed.

(** In a strictly sorted list at most one element compares equal. *)
Lemma sorted_unique l x y u :
  sdp_sorted l → x ∈ l → y ∈ l → f x u = 0 → f y u = 0 → x = y.
Proof using Type*.
  intros Hs Hx Hy Hxu Hyu.
  assert (f x y = 0) as Hxy.
  { pose proof (comp_zero x u y Hxu) as H. rewrite (comp_zero_sym _ _ Hyu) in H. lia. }
  assert (f y x = 0) as Hyx by by apply comp_zero_sym.
  induction Hs as [|p l Hs IH Hp]; [by apply elem_of_nil in Hx|].
  rewrite Forall_forall in Hp. apply elem_of_cons in Hx as [->|Hx], Hy as [->|Hy].
  - done.
  - specialize (Hp y Hy). lia.
  - specialize (Hp x Hx). lia.
  - by apply IH.
Qed.

Lemma find_sorted l u x :
  sdp_sorted l → x ∈ l → f x u = 0 → sdp_list_find l u f = Some x.
Proof using Type*.
  intros Hs Hx Hu. destruct (sdp_list_find l u f) as [y|] eqn:Hf.
  - apply find_Some in Hf as [? ?]. f_equal. by eapply sorted_unique.
  - rewrite find_None in Hf. by destruct (Hf x).
Qed.

Lemma remove_sublist `{EqDecision A} l d : sublist (sdp_list_remove l d) l.
Proof using Type.
  induction l as [|p l IH]; simpl; [done|]. case_decide; by constructor.
Qed.

Lemma remove_perm `{EqDecision A} l d : d ∈ l → l ≡ₚ d :: sdp_list_remove l d.
Proof using Type.
  induction l as [|p l IH]; simpl; [by intros ?%elem_of_nil|].
  intros [->|Hd]%elem_of_cons; [by rewrite decide_True|]. case_decide as Hp; [by subst|].
  rewrite IH at 1 by done. apply perm_swap.
Qed.

Lemma StronglySorted_sublist (R : A → A → Prop) l k :
  sublist l k → StronglySorted R k → StronglySorted R l.
Proof using Type.
  induction 1 as [|x l k Hs IH|x l k Hs IH]; intros HS; inversion HS; subst; auto.
  constructor; auto. rewrite Forall_forall in *. intros y Hy. eauto using elem_of_sublist.
Qed.

Lemma remove_sorted `{EqDecision A} l d : sdp_sorted l → sdp_sorted (sdp_list_remove l d).
Proof using Type. intros Hs. eapply StronglySorted_sublist; [apply remove_sublist|done]. Qed.

Lemma elem_of_remove `{EqDecision A} l d x :
  sdp_sorted l → x ∈ sdp_list_remove l d ↔ x ∈ l ∧ x ≠ d.
Proof using Type*.
  induction 1 as [|p l Hs IH Hp]; simpl.
  { split; [intros Hx; by apply elem_of_nil in Hx|]. intros [Hx _]; by apply elem_of_nil in Hx. }
  rewrite Forall_forall in Hp. case_decide as Hpd; subst.
  - rewrite elem_of_cons. split; [|naive_solver]. intros Hx. split; [by right|].
    intros ->. specialize (Hp d Hx). rewrite comp_refl in Hp. lia.
  - rewrite !elem_of_cons, IH. naive_solver.
Qed.

(** [sdp_list_find] does not depend on the representative it is asked for. *)
Lemma find_congr l u v : f u v = 0 → sdp_list_find l u f = sdp_list_find l v f.
Proof using Type*.
  intros Huv. induction l as [|d l IH]; simpl; [done|]. rewrite IH.
  pose proof (comp_zero u v d Huv). pose proof (comp_sym d u). pose proof (comp_sym u d).
  pose proof (comp_sym d v). pose proof (comp_sym v d).
  destruct (Z.eqb_spec (f d u) 0), (Z.eqb_spec (f d v) 0); try done; exfalso; lia.
Qed.
End sorted.

(** Comparing by an integer key. *)
Lemma comp_func_key {A} (key : A → Z) : CompFunc (λ a b, key a - key b).
Proof. split; intros; lia. Qed.

(** [memcmp]: the difference of the first bytes that differ. The code always
    compares objects of one size; lists of different lengths are ordered the
    shorter first, which makes the function a total order on all lists. *)
Fixpoint memcmp (l k : list Z) : Z :=
  match l, k with
  | a :: l, b :: k => if a =? b then memcmp l k else a - b
  | [], [] => 0
  | [], _ => -1
  | _, [] => 1
  end.

Lemma memcmp_eq l k : memcmp l k = 0 ↔ l = k.
Proof.
  revert k. induction l as [|a l IH]; intros [|b k]; simpl; try done.
  destruct (Z.eqb_spec a b) as [->|Hne].
  - rewrite IH. naive_solver.
  - split; [lia|]. intros; simplify_eq.
Qed.

Lemma memcmp_sym l k : memcmp k l = - memcmp l k.
Proof.
  revert k. induction l as [|a l IH]; intros [|b k]; simpl; try done.
  destruct (Z.eqb_spec a b), (Z.eqb_spec b a); subst; try lia. apply IH.
Qed.

Lemma memcmp_trans l k m : memcmp l k < 0 → memcmp k m < 0 → memcmp l m < 0.
Proof.
  revert k m. induction l as [|a l IH]; intros [|b k] [|c m]; simpl; try lia.
  destruct (Z.eqb_spec a b), (Z.eqb_spec b c), (Z.eqb_spec a c); subst; try lia.
  apply IH.
Qed.

(** Comparing by the memory image of a key. *)
Lemma comp_func_memcmp {A} (key : A → list Z) : CompFunc (λ a b, memcmp (key a) (key b)).
Proof.
  split; intros.
  - rewrite (memcmp_sym (key a)). lia.
  - by eapply memcmp_trans.
  - by apply memcmp_eq.
  - apply memcmp_eq in H as ->. done.
Qed.

Definition bacmp (a b : bdaddr) : Z := memcmp a b.
