(* ===== verification/SdpUuid.v ===== *)
(** UUIDs of libs/src/sdp.c: creation, comparison, conversion between the
    16-, 32- and 128-bit forms over the Bluetooth base UUID, printing, and the
    name tables of protocols and service classes. *)

From stdpp Require Import base list numbers strings.
From Stdlib Require Import ZArith Lia Ascii.
From S2P Require Import Prelude CString SdpTypes SdpList.

Local Open Scope Z_scope.

(** * Creation and comparison *)

Definition bluetooth_base_uuid : list Z :=
  [0x00; 0x00; 0x00; 0x00; 0x00; 0x00; 0x10; 0x00;
   0x80; 0x00; 0x00; 0x80; 0x5F; 0x9B; 0x34; 0xFB].

Definition sdp_uuid16_create (v : Z) : uuid_t := Uuid16 (to_u16 v).
Definition sdp_uuid32_create (v : Z) : uuid_t := Uuid32 (to_u32 v).
(** [memcpy] of sixteen bytes from [p]. *)
Definition sdp_uuid128_create (p : list Z) : outcome uuid_t :=
  bs ← rd 16 p; Ret (Uuid128 bs).

Definition sdp_uuid16_cmp (u1 u2 : uuid_t) : Z :=
  memcmp (take 2 (uuid_value u1)) (take 2 (uuid_value u2)).
Definition sdp_uuid128_cmp (u1 u2 : uuid_t) : Z :=
  memcmp (uuid_value u1) (uuid_value u2).

(** * Conversions *)

(** Bytes 2 and 3 of the base are loaded in host order, [htons(uuid16)] is
    added with 16-bit wrap-around and the sum is stored back. *)
Definition sdp_uuid16_to_uuid128 (v : Z) : uuid_t :=
  let data1 := le_join (take 2 (drop 2 bluetooth_base_uuid)) in
  let data1 := to_u16 (data1 + htons v) in
  Uuid128 (take 2 bluetooth_base_uuid ++ le_split 2 data1 ++ drop 4 bluetooth_base_uuid).

Definition sdp_uuid32_to_uuid128 (v : Z) : uuid_t :=
  let data0 := le_join (take 4 bluetooth_base_uuid) in
  let data0 := to_u32 (data0 + htonl v) in
  Uuid128 (le_split 4 data0 ++ drop 4 bluetooth_base_uuid).

(** An unknown type leaves the freshly zeroed object. *)
Definition sdp_uuid_to_uuid128 (u : uuid_t) : uuid_t :=
  match u with
  | Uuid128 bs => Uuid128 bs
  | Uuid32 v => sdp_uuid32_to_uuid128 v
  | Uuid16 v => sdp_uuid16_to_uuid128 v
  | UuidNone => UuidNone
  end.

(** The result flag and the converted UUID: a 128-bit UUID over the base
    becomes a 16- or 32-bit one, any other 128-bit UUID is left alone. *)
Definition sdp_uuid128_to_uuid (u : uuid_t) : bool * uuid_t :=
  match u with
  | Uuid128 bs =>
      if bool_decide (drop 4 bs = drop 4 bluetooth_base_uuid) then
        let data := htonl (le_join (take 4 bs)) in
        if data <=? 0xffff then (true, Uuid16 (to_u16 data)) else (true, Uuid32 data)
      else (false, u)
  | _ => (true, u)
  end.

(** The [int] result of a 32-bit UUID is reinterpreted as signed. *)
Definition sdp_uuid_to_proto (u : uuid_t) : Z :=
  match sdp_uuid128_to_uuid u with
  | (true, Uuid16 v) => v
  | (true, Uuid32 v) => to_i32 v
  | _ => 0
  end.

#[global] Arguments sdp_uuid16_to_uuid128 : simpl never.
#[global] Arguments sdp_uuid32_to_uuid128 : simpl never.
#[global] Arguments sdp_uuid128_to_uuid : simpl never.

(** * Names *)

(** [struct tupla] arrays; the terminating entry with index 0 is the end of
    the list. *)
Definition tupla : Type := Z * string.

Definition Protocol : list tupla :=
  [(0x0001, "SDP"); (0x0002, "UDP"); (0x0003, "RFCOMM"); (0x0004, "TCP");
   (0x0005, "TCS-BIN"); (0x0006, "TCS-AT"); (0x0008, "OBEX"); (0x0009, "IP");
   (0x000a, "FTP"); (0x000c, "HTTP"); (0x000e, "WSP"); (0x000f, "BNEP");
   (0x0010, "UPNP"); (0x0011, "HIDP"); (0x0012, "HCRP-Ctrl"); (0x0014, "HCRP-Data");
   (0x0016, "HCRP-Notify"); (0x0017, "AVCTP"); (0x0019, "AVDTP"); (0x001b, "CMTP");
   (0x001d, "UDI"); (0x001e, "MCAP-Ctrl"); (0x001f, "MCAP-Data"); (0x0100, "L2CAP")]%string.

Definition ServiceClass : list tupla :=
  [(0x1000, "SDP Server"); (0x1001, "Browse Group Descriptor"); (0x1002, "Public Browse Group");
   (0x1101, "Serial Port"); (0x1102, "LAN Access Using PPP"); (0x1103, "Dialup Networking");
   (0x1104, "IrMC Sync"); (0x1105, "OBEX Object Push"); (0x1106, "OBEX File Transfer");
   (0x1107, "IrMC Sync Command"); (0x1108, "Headset"); (0x1109, "Cordless Telephony");
   (0x110a, "Audio Source"); (0x110b, "Audio Sink"); (0x110c, "AV Remote Target");
   (0x110d, "Advanced Audio"); (0x110e, "AV Remote"); (0x110f, "Video Conferencing");
   (0x1110, "Intercom"); (0x1111, "Fax"); (0x1112, "Headset Audio Gateway"); (0x1113, "WAP");
   (0x1114, "WAP Client"); (0x1115, "PAN User"); (0x1116, "Network Access Point");
   (0x1117, "PAN Group Network"); (0x1118, "Direct Printing"); (0x1119, "Reference Printing");
   (0x111a, "Imaging"); (0x111b, "Imaging Responder"); (0x111c, "Imaging Automatic Archive");
   (0x111d, "Imaging Referenced Objects"); (0x111e, "Handsfree");
   (0x111f, "Handsfree Audio Gateway"); (0x1120, "Direct Printing Ref. Objects");
   (0x1121, "Reflected UI"); (0x1122, "Basic Printing"); (0x1123, "Printing Status");
   (0x1124, "Human Interface Device"); (0x1125, "Hardcopy Cable Replacement");
   (0x1126, "HCR Print"); (0x1127, "HCR Scan"); (0x1128, "Common ISDN Access");
   (0x1129, "Video Conferencing Gateway"); (0x112a, "UDI MT"); (0x112b, "UDI TA");
   (0x112c, "Audio/Video"); (0x112d, "SIM Access"); (0x112e, "Phonebook Access - PCE");
   (0x112f, "Phonebook Access - PSE"); (0x1130, "Phonebook Access"); (0x1200, "PnP Information");
   (0x1201, "Generic Networking"); (0x1202, "Generic File Transfer"); (0x1203, "Generic Audio");
   (0x1204, "Generic Telephony"); (0x1205, "UPnP"); (0x1206, "UPnP IP"); (0x1300, "UPnP PAN");
   (0x1301, "UPnP LAP"); (0x1302, "UPnP L2CAP"); (0x1303, "Video Source"); (0x1304, "Video Sink");
   (0x1305, "Video Distribution"); (0x1400, "MDP"); (0x1401, "MDP Source"); (0x1402, "MDP Sink");
   (0x2112, "Apple Agent")]%string.

Fixpoint string_lookup (pt0 : list tupla) (index : Z) : string :=
  match pt0 with
  | [] => ""
  | (i, str) :: pt => if i =? index then str else string_lookup pt index
  end.

Definition string_lookup_uuid (pt0 : list tupla) (u : uuid_t) : string :=
  match sdp_uuid128_to_uuid u with
  | (true, Uuid16 v) => string_lookup pt0 v
  | (true, Uuid32 v) => string_lookup pt0 (to_i32 v)
  | _ => ""
  end.

(** Printing. [snprintf(str, n, ...)] stores at most [n - 1] characters and the
    terminator; the functions below return the C result and the string left
    in the buffer, [None] when [n] is 0 and nothing is stored. *)
Definition hexdigit (d : Z) : ascii :=
  ascii_of_nat (Z.to_nat (if d <? 10 then 48 + d else 87 + d)).

(** ["%.<n>x"] of a value below [16 ^ n]. *)
Fixpoint hex_digits (n : nat) (v : Z) : string :=
  match n with
  | O => EmptyString
  | S n => (hex_digits n (v / 16) ++ String (hexdigit (v mod 16)) EmptyString)%string
  end.

Definition snprintf (n : Z) (s : string) : option string :=
  if n =? 0 then None else Some (String.substring 0 (Z.to_nat (n - 1)) s).

(** ["%x"] of the [uint8_t] tag in the error message: no leading zero. *)
Definition hex_u8 (v : Z) : string :=
  if v <? 16 then hex_digits 1 v else hex_digits 2 v.

Definition type_unknown (v : Z) : string :=
  ("Type of UUID (" ++ hex_u8 v ++ ") unknown.")%string.

Definition uuid2str (message : list tupla) (uuid : option uuid_t) (n : Z) : Z * option string :=
  match uuid with
  | None => (-2, snprintf n "NULL")
  | Some (Uuid16 v) => (0, snprintf n (string_lookup message v))
  | Some (Uuid32 v) => (0, snprintf n (string_lookup message (to_i32 v)))
  | Some (Uuid128 bs) => (0, snprintf n (string_lookup_uuid message (Uuid128 bs)))
  | Some UuidNone => (-1, snprintf n (type_unknown 0))
  end.

Definition sdp_proto_uuid2strn := uuid2str Protocol.
Definition sdp_svclass_uuid2strn := uuid2str ServiceClass.
Definition sdp_profile_uuid2strn := uuid2str ServiceClass.

(** The six fields of a 128-bit UUID, each loaded in host order and printed
    through [ntohl]/[ntohs]. *)
Definition sdp_uuid2strn (uuid : option uuid_t) (n : Z) : Z * option string :=
  match uuid with
  | None => (-2, snprintf n "NULL")
  | Some (Uuid16 v) => (0, snprintf n (hex_digits 4 v))
  | Some (Uuid32 v) => (0, snprintf n (hex_digits 8 v))
  | Some (Uuid128 bs) =>
      let data0 := le_join (take 4 bs) in
      let data1 := le_join (take 2 (drop 4 bs)) in
      let data2 := le_join (take 2 (drop 6 bs)) in
      let data3 := le_join (take 2 (drop 8 bs)) in
      let data4 := le_join (take 4 (drop 10 bs)) in
      let data5 := le_join (take 2 (drop 14 bs)) in
      (0, snprintf n (hex_digits 8 (ntohl data0) ++ "-" ++ hex_digits 4 (ntohs data1) ++ "-"
                      ++ hex_digits 4 (ntohs data2) ++ "-" ++ hex_digits 4 (ntohs data3) ++ "-"
                      ++ hex_digits 8 (ntohl data4) ++ hex_digits 4 (ntohs data5))%string)
  | Some UuidNone => (-1, snprintf n (type_unknown 0))
  end.

(** * Properties *)

(** What the conversions to 128 bits compute: the base with the short value in
    network order in its leading four bytes. *)
Lemma uuid16_to_uuid128_eq v :
  sdp_uuid16_to_uuid128 v =
  Uuid128 (replicate 2 0 ++ be_split 2 v ++ drop 4 bluetooth_base_uuid).
Proof.
  unfold sdp_uuid16_to_uuid128, to_u16, htons. simpl le_join.
  rewrite Z.add_0_l, Z.mod_small by apply (bswap_bound 2). by rewrite le_split_bswap.
Qed.

Lemma uuid32_to_uuid128_eq v :
  sdp_uuid32_to_uuid128 v = Uuid128 (be_split 4 v ++ drop 4 bluetooth_base_uuid).
Proof.
  unfold sdp_uuid32_to_uuid128, to_u32, htonl. simpl le_join.
  rewrite Z.add_0_l, Z.mod_small by apply (bswap_bound 4). by rewrite le_split_bswap.
Qed.

(** The number a 128-bit UUID over the base stands for. *)
Lemma uuid128_to_uuid_base l :
  length l = 4%nat → Forall byte_ok l →
  sdp_uuid128_to_uuid (Uuid128 (l ++ drop 4 bluetooth_base_uuid)) =
  (true, if be_join l <=? 0xffff then Uuid16 (be_join l) else Uuid32 (be_join l)).
Proof.
  intros Hl Hok. unfold sdp_uuid128_to_uuid.
  rewrite drop_app_length', take_app_length', bool_decide_true by done.
  unfold htonl. pose proof (bswap_le_join l Hok) as Hsw. rewrite Hl in Hsw. rewrite !Hsw.
  pose proof (be_join_bound l Hok) as Hb. rewrite Hl in Hb.
  destruct (Z.leb_spec (be_join l) 0xffff); [|done].
  unfold to_u16. by rewrite Z.mod_small by lia.
Qed.

Lemma uuid16_base_num v : 0 ≤ v < 2 ^ 16 → be_join (replicate 2 0 ++ be_split 2 v) = v.
Proof. intros. rewrite be_join_zeros, be_join_split, Z.mod_small; lia. Qed.

Lemma uuid32_base_num v : 0 ≤ v < 2 ^ 32 → be_join (be_split 4 v) = v.
Proof. intros. rewrite be_join_split, Z.mod_small; lia. Qed.

Lemma uuid16_128_16 v :
  0 ≤ v < 2 ^ 16 → sdp_uuid128_to_uuid (sdp_uuid16_to_uuid128 v) = (true, Uuid16 v).
Proof.
  intros Hv. rewrite uuid16_to_uuid128_eq, app_assoc, uuid128_to_uuid_base.
  - rewrite uuid16_base_num by done. destruct (Z.leb_spec v 0xffff); [done|lia].
  - len.
  - apply Forall_app; split; [by repeat constructor|apply be_split_ok].
Qed.

Lemma uuid32_128_32 v :
  0 ≤ v < 2 ^ 32 →
  sdp_uuid128_to_uuid (sdp_uuid32_to_uuid128 v) =
  (true, if v <=? 0xffff then Uuid16 v else Uuid32 v).
Proof.
  intros Hv. rewrite uuid32_to_uuid128_eq, uuid128_to_uuid_base.
  - by rewrite uuid32_base_num.
  - len.
  - apply be_split_ok.
Qed.

#[export] Instance sdp_uuid128_cmp_comp : CompFunc sdp_uuid128_cmp :=
  comp_func_memcmp uuid_value.

Lemma uuid_to_uuid128_ok u : uuid_ok u → uuid_ok (sdp_uuid_to_uuid128 u).
Proof.
  destruct u as [|v|v|bs]; unfold sdp_uuid_to_uuid128; try done; intros Hv.
  - rewrite uuid16_to_uuid128_eq. split; [by len|].
    repeat (apply Forall_app; split); try apply be_split_ok; by repeat constructor.
  - rewrite uuid32_to_uuid128_eq. split; [by len|].
    apply Forall_app; split; [apply be_split_ok|by repeat constructor].
Qed.

Lemma uuid_to_uuid128_form u :
  uuid_ok u → ∃ bs, sdp_uuid_to_uuid128 u = Uuid128 bs ∧ length bs = 16%nat ∧ Forall byte_ok bs.
Proof.
  intros Hu. pose proof (uuid_to_uuid128_ok u Hu) as H.
  destruct u as [|v|v|bs]; unfold sdp_uuid_to_uuid128 in *; try done.
  - rewrite uuid16_to_uuid128_eq in *. by eexists.
  - rewrite uuid32_to_uuid128_eq in *. by eexists.
  - by eexists.
Qed.

(** The canonical short form of a UUID: what a 16-, 32- or 128-bit UUID is
    reduced to before its number is looked at. *)
Definition uuid_canon (u : uuid_t) : uuid_t := snd (sdp_uuid128_to_uuid (sdp_uuid_to_uuid128 u)).

Lemma be_join_inj l k :
  length l = length k → Forall byte_ok l → Forall byte_ok k → be_join l = be_join k → l = k.
Proof.
  intros Hl Hokl Hokk H. rewrite <- (be_split_join l), <- (be_split_join k) by done. congruence.
Qed.

Lemma uuid128_canon_inj b1 b2 :
  uuid_ok (Uuid128 b1) → uuid_ok (Uuid128 b2) →
  snd (sdp_uuid128_to_uuid (Uuid128 b1)) = snd (sdp_uuid128_to_uuid (Uuid128 b2)) → b1 = b2.
Proof.
  intros [Hl1 Ho1] [Hl2 Ho2] H.
  assert (length (take 4 b1) = 4%nat ∧ length (take 4 b2) = 4%nat) as [? ?] by (split; len).
  assert (Forall byte_ok (take 4 b1) ∧ Forall byte_ok (take 4 b2)) as [? ?]
    by (split; by apply Forall_take).
  destruct (decide (drop 4 b1 = drop 4 bluetooth_base_uuid)) as [E1|N1],
    (decide (drop 4 b2 = drop 4 bluetooth_base_uuid)) as [E2|N2].
  - rewrite <- (take_drop 4 b1), <- (take_drop 4 b2), E1, E2 in H.
    rewrite !uuid128_to_uuid_base in H by done. simpl in H.
    rewrite <- (take_drop 4 b1), <- (take_drop 4 b2), E1, E2. f_equal.
    apply be_join_inj; [congruence|done|done|]. repeat case_match; simplify_eq; done.
  - unfold sdp_uuid128_to_uuid in H. rewrite bool_decide_true, bool_decide_false in H by done.
    case_match; simplify_eq.
  - unfold sdp_uuid128_to_uuid in H. rewrite bool_decide_false, bool_decide_true in H by done.
    case_match; simplify_eq.
  - unfold sdp_uuid128_to_uuid in H. rewrite !bool_decide_false in H by done. by simplify_eq.
Qed.

Lemma uuid_cmp_canon u w :
  uuid_ok u → uuid_ok w →
  sdp_uuid128_cmp (sdp_uuid_to_uuid128 u) (sdp_uuid_to_uuid128 w) = 0 ↔ uuid_canon u = uuid_canon w.
Proof.
  intros Hu Hw. unfold sdp_uuid128_cmp, uuid_canon. rewrite memcmp_eq.
  destruct (uuid_to_uuid128_form u Hu) as (b1 & -> & ? & ?).
  destruct (uuid_to_uuid128_form w Hw) as (b2 & -> & ? & ?).
  split; [simpl; by intros ->|]. intros Heq. by apply uuid128_canon_inj in Heq.
Qed.

Lemma uuid_to_proto_128 u :
  uuid_ok u → sdp_uuid_to_proto (sdp_uuid_to_uuid128 u) = sdp_uuid_to_proto u.
Proof.
  destruct u as [|v|v|bs]; unfold sdp_uuid_to_uuid128, sdp_uuid_to_proto; try done; simpl; intros Hv.
  - by rewrite uuid16_128_16.
  - rewrite uuid32_128_32 by done. simpl. destruct (Z.leb_spec v 0xffff); [|done].
    by rewrite to_i32_small by lia.
Qed.

(** Converting a UUID to its 128-bit form loses nothing. Two UUIDs, of any
    of the three sizes, have equal 128-bit forms under [sdp_uuid128_cmp] (the
    comparison every search pattern uses) exactly when [sdp_uuid128_to_uuid]
    gives them the same short form; a 16-bit UUID comes back as itself, a
    32-bit one as itself or, when its value fits, as the 16-bit one; and the
    protocol number read from a UUID does not depend on its size. *)
Theorem uuid128_conversion (u w : uuid_t) (Hu : uuid_ok u) (Hw : uuid_ok w) :
  (sdp_uuid128_cmp (sdp_uuid_to_uuid128 u) (sdp_uuid_to_uuid128 w) = 0 ↔
     uuid_canon u = uuid_canon w) ∧
  (∀ v, u = Uuid16 v → uuid_canon u = Uuid16 v) ∧
  (∀ v, u = Uuid32 v → uuid_canon u = if v <=? 0xffff then Uuid16 v else Uuid32 v) ∧
  sdp_uuid_to_proto (sdp_uuid_to_uuid128 u) = sdp_uuid_to_proto u.
Proof.
  split_and!.
  - by apply uuid_cmp_canon.
  - intros v ->. unfold uuid_canon, sdp_uuid_to_uuid128. by rewrite uuid16_128_16.
  - intros v ->. unfold uuid_canon, sdp_uuid_to_uuid128. by rewrite uuid32_128_32.
  - by apply uuid_to_proto_128.
Qed.

Lemma uuid128_conversion_witness :
  sdp_uuid128_cmp (sdp_uuid_to_uuid128 (Uuid16 0x1101)) (sdp_uuid_to_uuid128 (Uuid32 0x1101)) = 0.
Proof.
  apply (uuid128_conversion (Uuid16 0x1101) (Uuid32 0x1101)); vm_compute; intuition congruence.
Defined.
