(* ===== verification/SdpEncode.v ===== *)
(** Building data elements and writing them into PDU buffers: the allocation
    and encoding half of libs/src/sdp.c. The reference encoder [sdp_encode] is
    the wire format; [sdp_gen_pdu] is shown to write exactly it. *)

From stdpp Require Import base list numbers.
From Stdlib Require Import ZArith Lia.
From S2P Require Import Prelude CString SdpTypes SdpList SdpUuid.

Local Open Scope Z_scope.

(** * Byte order *)

(** [ntoh64] of a little-endian host, as the source computes it from two
    32-bit swaps. *)
Definition ntoh64 (n : Z) : Z :=
  let tmp := ntohl (Z.land n 0xffffffff) in
  let h := ntohl (to_u32 (Z.shiftr n 32)) in
  Z.lor h (Z.shiftl tmp 32).

(** [ntoh128]: copy with the sixteen bytes reversed. *)
Definition ntoh128 (bs : list Z) : list Z := reverse bs.

(** * Allocation of data elements *)

Definition ptr_mem (v : sdp_ptr) : list Z :=
  match v with
  | PMem p => p
  | _ => []
  end.

Definition ptr_seq (v : sdp_ptr) : outcome (list sdp_data) :=
  match v with
  | PNull => Ret []
  | PSeq l => Ret l
  | PMem _ => Undef
  end.

(** [for (; seq; seq = seq->next) d->unitSize += seq->unitSize] *)
Definition chain_size (l : list sdp_data) : Z := foldr (λ d n, unitSize d + n) 0 l.

(** The C function returns NULL ([None]) for an unknown descriptor and for a
    missing or oversized string. [malloc] is taken to succeed. *)
Definition sdp_data_alloc_with_length (t : Z) (value : sdp_ptr) (length : Z)
    : outcome (option sdp_data) :=
  if t =? SDP_DATA_NIL then Ret (Some (SdpData t 0 VNull 1))
  else if (t =? SDP_UINT128) || (t =? SDP_INT128) then
    bs ← rd 16 (ptr_mem value); Ret (Some (SdpData t 0 (V128 bs) (1 + 16)))
  else match int_width t with
  | Some w =>
      z ← get_unaligned w (ptr_mem value);
      Ret (Some (SdpData t 0 (VInt z) (1 + Z.of_nat w)))
  | None =>
  if t =? SDP_UUID16 then
    z ← get_unaligned 2 (ptr_mem value);
    Ret (Some (SdpData t 0 (VUuid (sdp_uuid16_create z)) (1 + 2)))
  else if t =? SDP_UUID32 then
    z ← get_unaligned 4 (ptr_mem value);
    Ret (Some (SdpData t 0 (VUuid (sdp_uuid32_create z)) (1 + 4)))
  else if t =? SDP_UUID128 then
    u ← sdp_uuid128_create (ptr_mem value);
    Ret (Some (SdpData t 0 (VUuid u) (1 + 16)))
  else if (t =? SDP_URL_STR8) || (t =? SDP_URL_STR16) ||
          (t =? SDP_TEXT_STR8) || (t =? SDP_TEXT_STR16) then
    match value with
    | PNull => Ret None
    | _ =>
        if length <=? USHRT_MAX then
          blk ← rd (Z.to_nat length) (ptr_mem value);
          Ret (Some (SdpData t 0 (VStr blk) (1 + length)))
        else Ret None
    end
  else if (t =? SDP_URL_STR32) || (t =? SDP_TEXT_STR32) then Ret (Some (SdpData t 0 VNull 1))
  else if is_alt t || is_seq t then
    seq ← ptr_seq value;
    let hd := if (t =? SDP_ALT8) || (t =? SDP_SEQ8) then 1
              else if (t =? SDP_ALT16) || (t =? SDP_SEQ16) then 2
              else 4 in
    Ret (Some (SdpData t 0 (VSeq seq) (1 + hd + chain_size seq)))
  else Ret None
  end.

Definition sdp_data_alloc (t : Z) (value : sdp_ptr) : outcome (option sdp_data) :=
  if (t =? SDP_URL_STR8) || (t =? SDP_URL_STR16) || (t =? SDP_TEXT_STR8) || (t =? SDP_TEXT_STR16)
  then
    match value with
    | PNull => Ret None
    | _ => n ← strlen (ptr_mem value); sdp_data_alloc_with_length t value n
    end
  else sdp_data_alloc_with_length t value 0.

(** [sdp_seq_append]: [d] becomes the last element of the chain, and the chain
    that hung off [d] is cut. *)
Definition sdp_seq_append (seq : list sdp_data) (d : sdp_data) : list sdp_data := seq ++ [d].

(** The loop of [sdp_seq_alloc]: [done] holds the elements before [curr], and
    [chain] the chain that starts at [curr] ([curr->next] is overwritten when
    the next element is linked). *)
Fixpoint seq_alloc_loop (dtds : list Z) (values : list sdp_ptr)
    (done chain : list sdp_data) : outcome (option (list sdp_data)) :=
  match dtds, values with
  | [], _ => Ret (Some (done ++ chain))
  | _, [] => Undef
  | t :: dtds, v :: values =>
      data ← (if (SDP_SEQ8 <=? t) && (t <=? SDP_ALT32) then ptr_seq v
              else d ← sdp_data_alloc t v; Ret (option_list d));
      match data with
      | [] => Ret None
      | _ :: _ => seq_alloc_loop dtds values (done ++ take 1 chain) data
      end
  end.

Definition sdp_seq_alloc (dtds : list Z) (values : list sdp_ptr) : outcome (option sdp_data) :=
  seq ← seq_alloc_loop dtds values [] [];
  match seq with
  | None => Ret None
  | Some l => sdp_data_alloc SDP_SEQ8 (PSeq l)
  end.

(** * Writing data elements *)

(** The first sixteen bytes of the [val] union in memory. Reading an address
    as a number has no value in the model. *)
Definition val_image (v : sdp_val) : outcome (list Z) :=
  match v with
  | VNull => Ret (replicate 16 0)
  | VInt z => Ret (le_split 8 z ++ replicate 8 0)
  | V128 bs => Ret bs
  | VUuid u => Ret ([uuid_type u; 0; 0; 0] ++ take 12 (uuid_value u))
  | VSeq [] => Ret (replicate 16 0)
  | VStr _ | VSeq _ => Undef
  end.

(** [d->val.uint<8n>]: the low [n] bytes of the union in host order. *)
Definition val_uint (n : nat) (v : sdp_val) : outcome Z :=
  im ← val_image v; Ret (le_join (take n im)).

#[global] Arguments val_uint : simpl never.

Definition val_uuid (v : sdp_val) : outcome uuid_t :=
  match v with
  | VUuid u => Ret u
  | VNull => Ret UuidNone
  | _ => Undef
  end.

(** [d->val.dataseq]: an address read from a non-pointer member is wild unless
    it is null. *)
Definition val_dataseq (v : sdp_val) : outcome (list sdp_data) :=
  match v with
  | VSeq l => Ret l
  | VStr _ => Undef
  | _ => im ← val_image v; if le_join (take 8 im) =? 0 then Ret [] else Undef
  end.

(** [d->val.str]; [None] is NULL. *)
Definition val_str (v : sdp_val) : outcome (option (list Z)) :=
  match v with
  | VStr blk => Ret (Some blk)
  | VSeq (_ :: _) => Undef
  | _ => im ← val_image v; if le_join (take 8 im) =? 0 then Ret None else Undef
  end.

Definition set_buf_data (m : list Z) (b : sdp_buf) : sdp_buf :=
  SdpBuf m (data_size b) (buf_size b).
Definition add_data_size (n : Z) (b : sdp_buf) : sdp_buf :=
  SdpBuf (buf_data b) (data_size b + n) (buf_size b).

(** [off] is the position of [ptr] in its object [mem]. *)
Definition sdp_set_seq_len (mem : list Z) (off : Z) (length : Z) : outcome (list Z) :=
  t ← rd8 (adv off mem);
  match len_width t with
  | Some 1%nat => wr mem (off + 1) [to_u8 length]
  | Some 2%nat => wr mem (off + 1) (le_split 2 (htons (to_u16 length)))
  | Some _ => wr mem (off + 1) (le_split 4 (htonl (to_u32 length)))
  | None => Ret mem
  end.

(** Writes the descriptor and skips the room of the length field; returns the
    buffer and the bytes taken. *)
Definition sdp_set_data_type (buf : sdp_buf) (t : Z) : outcome (sdp_buf * Z) :=
  m ← wr (buf_data buf) (data_size buf) [t];
  let n := match len_width t with Some w => 1 + Z.of_nat w | None => 1 end in
  Ret (add_data_size n (set_buf_data m buf), n).

Definition sdp_set_attrid (buf : sdp_buf) (attr : Z) : outcome sdp_buf :=
  m ← wr (buf_data buf) 0 [SDP_UINT16];
  m ← wr m 1 (le_split 2 (htons attr));
  Ret (SdpBuf m (1 + 2) (buf_size buf)).

(** The loop over the chain of a sequence; [gen] is [sdp_gen_pdu]. *)
Fixpoint get_data_size (gen : sdp_data → sdp_buf → outcome (sdp_buf * Z))
    (l : list sdp_data) (buf : sdp_buf) (n : Z) : outcome (sdp_buf * Z) :=
  match l with
  | [] => Ret (buf, n)
  | d :: l =>
      r ← gen d buf;
      get_data_size gen l r.1 (n + r.2)
  end.

(** The source bytes of a scalar element: [None] when [src] stays NULL. *)
Definition gen_pdu_src (t : Z) (v : sdp_val) : outcome (option (list Z)) :=
  if (t =? SDP_UINT8) || (t =? SDP_INT8) || (t =? SDP_BOOL) then
    z ← val_uint 1 v; Ret (Some (le_split 1 z))
  else if (t =? SDP_UINT16) || (t =? SDP_INT16) then
    z ← val_uint 2 v; Ret (Some (le_split 2 (htons z)))
  else if (t =? SDP_UINT32) || (t =? SDP_INT32) then
    z ← val_uint 4 v; Ret (Some (le_split 4 (htonl z)))
  else if (t =? SDP_UINT64) || (t =? SDP_INT64) then
    z ← val_uint 8 v; Ret (Some (le_split 8 (ntoh64 z)))
  else if (t =? SDP_UINT128) || (t =? SDP_INT128) then
    im ← val_image v; Ret (Some (ntoh128 im))
  else if t =? SDP_UUID16 then
    u ← val_uuid v; Ret (Some (le_split 2 (htons (le_join (take 2 (uuid_value u))))))
  else if t =? SDP_UUID32 then
    u ← val_uuid v; Ret (Some (le_split 4 (htonl (le_join (take 4 (uuid_value u))))))
  else if t =? SDP_UUID128 then
    u ← val_uuid v; Ret (Some (uuid_value u))
  else Ret None.

(** [memcpy(buf->data + buf->data_size, src, ...)] and the size update. *)
Definition buf_put (buf : sdp_buf) (bs : list Z) : outcome sdp_buf :=
  m ← wr (buf_data buf) (data_size buf) bs;
  Ret (add_data_size (Z.of_nat (length bs)) (set_buf_data m buf)).

(** Appends the PDU form of [d] to [buf]; the result is the PDU size. *)
Fixpoint sdp_gen_pdu (d : sdp_data) (buf : sdp_buf) {struct d} : outcome (sdp_buf * Z) :=
  let '(SdpData t _ v usize) := d in
  let seqp := data_size buf in
  r ← sdp_set_data_type buf t;
  let '(buf, pdu_size) := r in
  if is_str t then
    src ← val_str v;
    let dsize := to_u32 (usize - 1) in
    m ← sdp_set_seq_len (buf_data buf) seqp dsize;
    let buf := set_buf_data m buf in
    match src with
    | Some blk =>
        bs ← rd (Z.to_nat dsize) blk;
        buf ← buf_put buf bs;
        Ret (buf, pdu_size + dsize)
    | None => Ret (buf, pdu_size + dsize)
    end
  else if is_seq t || is_alt t then
    match v with
    | VSeq l =>
        r ← get_data_size sdp_gen_pdu l buf 0;
        m ← sdp_set_seq_len (buf_data r.1) seqp r.2;
        Ret (set_buf_data m r.1, pdu_size + r.2)
    | v =>
        _ ← val_dataseq v;
        m ← sdp_set_seq_len (buf_data buf) seqp 0;
        Ret (set_buf_data m buf, pdu_size)
    end
  else
    src ← gen_pdu_src t v;
    match src with
    | Some bs =>
        buf ← buf_put buf bs;
        Ret (buf, pdu_size + Z.of_nat (length bs))
    | None => Ret (buf, pdu_size)
    end.

(** * Attribute lists in a buffer *)

(** [realloc]: the old contents, then indeterminate bytes, which no code reads
    before writing them. *)
Definition realloc (m : list Z) (n : Z) : list Z :=
  take (Z.to_nat n) (m ++ replicate (Z.to_nat n) 0).

(** The second half of [sdp_append_to_buf]: a sequence that outgrows an 8-bit
    length becomes a SEQ16 (the payload moves up one byte), and the length
    field is set. *)
Definition append_fix_header (dst : sdp_buf) : outcome sdp_buf :=
  t ← rd8 (buf_data dst);
  dst ← (if (UCHAR_MAX <? data_size dst) && (t =? SDP_SEQ8) then
           moved ← rd (Z.to_nat (data_size dst - 2)) (adv 2 (buf_data dst));
           m ← wr (buf_data dst) 3 moved;
           m ← wr m 0 [SDP_SEQ16];
           Ret (add_data_size 1 (set_buf_data m dst))
         else Ret dst);
  t ← rd8 (buf_data dst);
  m ← (if t =? SDP_SEQ8 then wr (buf_data dst) 1 [to_u8 (data_size dst - 2)]
       else if t =? SDP_SEQ16 then
         wr (buf_data dst) 1 (le_split 2 (htons (to_u16 (data_size dst - 3))))
       else if t =? SDP_SEQ32 then
         wr (buf_data dst) 1 (le_split 4 (htonl (to_u32 (data_size dst - 5))))
       else Ret (buf_data dst));
  Ret (set_buf_data m dst).

(** Appends [len] bytes of [data] to the sequence in [dst]. A write through the
    pointer taken before [realloc] is undefined. *)
Definition sdp_append_to_buf (dst : sdp_buf) (data : list Z) (len : Z) : outcome sdp_buf :=
  t ← rd8 (buf_data dst);
  let grow := buf_size dst <? data_size dst + len in
  let need := SDP_PDU_CHUNK_SIZE * (len / SDP_PDU_CHUNK_SIZE + 1) in
  let dst := if grow
             then SdpBuf (realloc (buf_data dst) (buf_size dst + need)) (data_size dst)
                    (buf_size dst + need)
             else dst in
  dst ← (if (data_size dst =? 0) && (t =? 0) then
           if grow then Undef
           else m ← wr (buf_data dst) 0 [SDP_SEQ8];
                Ret (add_data_size 2 (set_buf_data m dst))
         else Ret dst);
  bs ← rd (Z.to_nat len) data;
  dst ← buf_put dst bs;
  append_fix_header dst.

(** The attribute identifier and value are built in a 256-byte stack buffer
    and then appended. *)
Definition sdp_append_to_pdu (pdu : sdp_buf) (d : sdp_data) : outcome sdp_buf :=
  append ← sdp_set_attrid (SdpBuf (replicate 256 0) 0 256) (attrId d);
  r ← sdp_gen_pdu d append;
  sdp_append_to_buf pdu (buf_data r.1) (data_size r.1).

Definition sdp_gen_record_pdu (rec : sdp_record) : outcome sdp_buf :=
  sdp_list_foreach (attrlist rec) (λ d pdu, sdp_append_to_pdu pdu d)
    (SdpBuf (replicate (Z.to_nat SDP_PDU_CHUNK_SIZE) 0) 0 SDP_PDU_CHUNK_SIZE).

(** * Reference encoder

    The wire format of a data element: a descriptor byte, for strings and
    sequences the payload length in network order, and the payload. *)

Definition encode_scalar (t : Z) (v : sdp_val) (usize : Z) : list Z :=
  match v with
  | VNull | VSeq _ => []
  | VInt z => match int_width t with Some w => be_split w z | None => [] end
  | V128 bs => reverse bs
  | VUuid (Uuid16 z) => be_split 2 z
  | VUuid (Uuid32 z) => be_split 4 z
  | VUuid (Uuid128 bs) => bs
  | VUuid UuidNone => []
  | VStr blk => take (Z.to_nat (usize - 1)) blk
  end.

Definition len_field (t : Z) (n : nat) : list Z :=
  match len_width t with
  | Some w => be_split w (Z.of_nat n)
  | None => []
  end.

Fixpoint sdp_encode (d : sdp_data) : list Z :=
  let '(SdpData t _ v usize) := d in
  let body := match v with
              | VSeq l => concat (map sdp_encode l)
              | v => encode_scalar t v usize
              end in
  t :: len_field t (length body) ++ body.

Definition sdp_encode_list (l : list sdp_data) : list Z := concat (map sdp_encode l).

(** Elements whose value is the one the descriptor announces and whose payload
    fits the length field of the descriptor. *)
Fixpoint data_wf (d : sdp_data) : Prop :=
  let '(SdpData t _ v usize) := d in
  match v with
  | VNull => t = SDP_DATA_NIL
  | VInt z =>
      match int_width t with
      | Some w => (w = 1 ∨ w = 2 ∨ w = 4 ∨ w = 8)%nat ∧ 0 ≤ z < 2 ^ (8 * Z.of_nat w)
      | None => False
      end
  | V128 bs => int_width t = Some 16%nat ∧ length bs = 16%nat ∧ Forall byte_ok bs
  | VUuid u => uuid_type u = t ∧ uuid_ok u
  | VStr blk =>
      is_str t = true ∧ Forall byte_ok blk ∧ 1 ≤ usize < 2 ^ 32 ∧
      usize - 1 ≤ Z.of_nat (length blk) ∧
      usize - 1 < 2 ^ (8 * Z.of_nat (default 0%nat (len_width t)))
  | VSeq l =>
      is_seq t || is_alt t = true ∧
      Z.of_nat (length (sdp_encode_list l)) < 2 ^ (8 * Z.of_nat (default 0%nat (len_width t))) ∧
      foldr (λ d P, data_wf d ∧ P) True l
  end.

Lemma data_wf_seq t a l n :
  data_wf (SdpData t a (VSeq l) n) ↔
  is_seq t || is_alt t = true ∧
  Z.of_nat (length (sdp_encode_list l)) < 2 ^ (8 * Z.of_nat (default 0%nat (len_width t))) ∧
  Forall data_wf l.
Proof.
  simpl. assert (foldr (λ d P, data_wf d ∧ P) True l ↔ Forall data_wf l) as ->; [|done].
  induction l as [|d l IH]; simpl; [by split|]. by rewrite Forall_cons_iff, IH.
Qed.

(** Case analysis of a descriptor from a class test. *)
Ltac split_dtd H :=
  repeat match type of H with
  | (_ || _) = true => apply orb_true_iff in H; destruct H as [H|H]
  | (_ =? _) = true => apply Z.eqb_eq in H
  end.

Lemma int_width_cases t w :
  int_width t = Some w →
  (w = 0%nat ∧ t = SDP_DATA_NIL) ∨
  (w = 1%nat ∧ (t = SDP_BOOL ∨ t = SDP_INT8 ∨ t = SDP_UINT8)) ∨
  (w = 2%nat ∧ (t = SDP_INT16 ∨ t = SDP_UINT16)) ∨
  (w = 4%nat ∧ (t = SDP_INT32 ∨ t = SDP_UINT32)) ∨
  (w = 8%nat ∧ (t = SDP_INT64 ∨ t = SDP_UINT64)) ∨
  (w = 16%nat ∧ (t = SDP_INT128 ∨ t = SDP_UINT128)).
Proof.
  unfold int_width. intros H.
  repeat match type of H with
  | (if ?b then _ else _) = _ => let E := fresh "E" in destruct b eqn:E
  end; simplify_eq;
  match goal with E : _ = true |- _ => split_dtd E end; subst; intuition congruence.
Qed.

(** The range of descriptors each kind of value goes with. *)
Lemma data_wf_range t a v n :
  data_wf (SdpData t a v n) →
  match v with
  | VNull => t = 0
  | VInt _ | V128 _ => 0 ≤ t ≤ 0x14 ∨ t = SDP_BOOL
  | VUuid _ => SDP_UUID16 ≤ t ≤ SDP_UUID128
  | VStr _ => SDP_TEXT_STR8 ≤ t ≤ SDP_TEXT_STR32 ∨ SDP_URL_STR8 ≤ t ≤ SDP_URL_STR32
  | VSeq _ => SDP_SEQ8 ≤ t ≤ SDP_SEQ32 ∨ SDP_ALT8 ≤ t ≤ SDP_ALT32
  end.
Proof.
  intros Hwf. destruct v as [|z|bs|u|blk|l]; simpl in Hwf.
  - done.
  - destruct (int_width t) eqn:Hw; [|done]. apply int_width_cases in Hw. dtd_lia.
  - destruct Hwf as [Hw _]. apply int_width_cases in Hw. dtd_lia.
  - destruct Hwf as [Hw ?]. destruct u; simpl in *; dtd_lia.
  - destruct Hwf as [Hw _]. unfold is_str in Hw. split_dtd Hw; dtd_lia.
  - destruct Hwf as [Hw _]. unfold is_seq, is_alt in Hw. split_dtd Hw; dtd_lia.
Qed.

(** ** [ntoh64] *)

Lemma ntoh64_bswap n : 0 ≤ n < 2 ^ 64 → ntoh64 n = bswap 8 n.
Proof.
  intros Hn. unfold ntoh64, ntohl.
  change 0xffffffff with (Z.ones 32). rewrite Z.land_ones, Z.shiftr_div_pow2 by lia.
  rewrite lor_shiftl_add by (first [lia|apply (bswap_bound 4)]).
  pose proof (bswap_add 4 4 n) as Hadd. pose proof (bswap_mod 4 n) as H1.
  pose proof (bswap_mod 4 (n / 2 ^ 32)) as H2.
  change (8 * Z.of_nat 4) with 32 in *. unfold to_u32. by rewrite H1, H2, <- Hadd.
Qed.

(** ** [sdp_gen_pdu] writes the wire format *)

Lemma wr_at a b c bs mem off :
  mem = a ++ b ++ c → off = Z.of_nat (length a) → length b = length bs →
  wr mem off bs = Ret (a ++ bs ++ c).
Proof. intros -> -> Hl. by apply wr_app. Qed.

Lemma len_width_cases t w : len_width t = Some w → (w = 1 ∨ w = 2 ∨ w = 4)%nat.
Proof. unfold len_width. intros H. repeat case_match; simplify_eq; auto. Qed.

Lemma sdp_set_seq_len_spec pre t w lf rest n mem off :
  mem = pre ++ (t :: lf) ++ rest → off = Z.of_nat (length pre) →
  len_width t = Some w → length lf = w →
  sdp_set_seq_len mem off n = Ret (pre ++ (t :: be_split w n) ++ rest).
Proof.
  intros -> -> Hw Hlf. unfold sdp_set_seq_len, adv.
  rewrite Nat2Z.id, drop_app_length. simpl. rewrite Hw.
  assert (∀ bs, bs = be_split w n →
    wr (pre ++ t :: lf ++ rest) (Z.of_nat (length pre) + 1) bs =
    Ret (pre ++ t :: be_split w n ++ rest)) as Hwr.
  { intros bs ->. erewrite (wr_at (pre ++ [t]) lf rest).
    - by rewrite <- app_assoc.
    - by rewrite <- app_assoc.
    - len.
    - by len. }
  destruct (len_width_cases t w Hw) as [->|[->| ->]]; apply Hwr.
  - apply put_u8.
  - apply put_htons.
  - apply put_htonl.
Qed.

Lemma sdp_set_data_type_spec buf pre t lf rest :
  buf_data buf = pre ++ lf ++ rest → data_size buf = Z.of_nat (length pre) →
  length lf = (1 + default 0%nat (len_width t))%nat →
  ∃ lf', length lf' = default 0%nat (len_width t) ∧
  sdp_set_data_type buf t =
  Ret (SdpBuf (pre ++ (t :: lf') ++ rest) (Z.of_nat (length pre) + Z.of_nat (length lf)) (buf_size buf),
       Z.of_nat (length lf)).
Proof.
  intros Hd Hs Hlf. destruct lf as [|b lf]; [done|]. exists lf. split; [by simpl in Hlf; lia|].
  unfold sdp_set_data_type. rewrite (wr_at pre [b] (lf ++ rest)); [|by rewrite Hd|done|done].
  simpl. unfold add_data_size, set_buf_data. simpl. rewrite Hs.
  destruct (len_width t); simpl in *; repeat f_equal; lia.
Qed.

Lemma buf_put_spec buf pre room post bs :
  buf_data buf = pre ++ room ++ post → data_size buf = Z.of_nat (length pre) →
  length room = length bs →
  buf_put buf bs =
  Ret (SdpBuf (pre ++ bs ++ post) (Z.of_nat (length pre) + Z.of_nat (length bs)) (buf_size buf)).
Proof.
  intros Hd Hs Hl. unfold buf_put. rewrite (wr_at pre room post) by done.
  simpl. unfold add_data_size. simpl. by rewrite Hs.
Qed.

Lemma val_uint_VInt n z :
  (n ≤ 8)%nat → 0 ≤ z < 2 ^ (8 * Z.of_nat n) → val_uint n (VInt z) = Ret z.
Proof.
  intros Hn Hz. unfold val_uint, val_image. rewrite outcome_bind_ret.
  replace 8%nat with (n + (8 - n))%nat at 1 by lia.
  by rewrite take_le_split_app, le_join_split_id.
Qed.

(** The source bytes the encoder picks are the payload of the wire format. *)
Lemma gen_pdu_src_spec t a v n :
  data_wf (SdpData t a v n) → (∀ l, v ≠ VSeq l) → is_str t = false →
  gen_pdu_src t v = Ret (if t =? SDP_DATA_NIL then None else Some (encode_scalar t v n)).
Proof.
  intros Hwf Hv Hs. destruct v as [|z|bs|u|blk|l]; simpl in Hwf.
  - by subst.
  - destruct (int_width t) as [w|] eqn:Hw; [|done]. destruct Hwf as [Hws Hz]. simpl. rewrite Hw.
    apply int_width_cases in Hw.
    repeat match goal with
    | H : _ ∨ _ |- _ => destruct H
    | H : _ ∧ _ |- _ => destruct H
    end; try lia; subst; unfold gen_pdu_src; with_strategy opaque [val_uint] simpl;
    rewrite val_uint_VInt by (first [lia|done]); rewrite outcome_bind_ret; unfold htons, htonl;
    rewrite ?ntoh64_bswap, ?le_split_bswap by done; done.
  - destruct Hwf as (Hw & Hl & Hok). apply int_width_cases in Hw.
    repeat match goal with
    | H : _ ∨ _ |- _ => destruct H
    | H : _ ∧ _ |- _ => destruct H
    end; try lia; subst; done.
  - destruct Hwf as (<- & Hu). destruct u as [|z|z|bs]; simpl in Hu; [done| | |done];
    unfold gen_pdu_src; cbn -[take]; rewrite take_app_length' by (by rewrite length_le_split);
    rewrite le_join_split_id by done; unfold htons, htonl; by rewrite le_split_bswap.
  - destruct Hwf as (? & _). congruence.
  - by destruct (Hv l).
Qed.

Lemma is_str_len_width t : is_str t = true → ∃ w, len_width t = Some w.
Proof. unfold is_str. intros H. split_dtd H; subst; by eexists. Qed.

Lemma is_seq_len_width t : is_seq t || is_alt t = true → ∃ w, len_width t = Some w.
Proof. unfold is_seq, is_alt. intros H. split_dtd H; subst; by eexists. Qed.

Lemma is_seq_not_str t : is_seq t || is_alt t = true → is_str t = false.
Proof. unfold is_seq, is_alt. intros H. split_dtd H; by subst. Qed.

(** Well-formed scalars are neither strings nor sequences, and carry no length
    field. *)
Lemma scalar_class t a v n :
  data_wf (SdpData t a v n) → (∀ l, v ≠ VSeq l) → (∀ b, v ≠ VStr b) →
  is_str t = false ∧ is_seq t || is_alt t = false ∧ len_width t = None.
Proof.
  intros Hwf Hv Hs. destruct v as [|z|bs|u|blk|l]; simpl in Hwf.
  - by subst.
  - destruct (int_width t) as [w|] eqn:Hw; [|done]. apply int_width_cases in Hw.
    destruct_and?; destruct_or?; destruct_and?; destruct_or?; try lia; by subst.
  - destruct Hwf as (Hw & _ & _). apply int_width_cases in Hw.
    destruct_and?; destruct_or?; destruct_and?; destruct_or?; try lia; by subst.
  - destruct Hwf as [<- ?]. by destruct u.
  - by destruct (Hs blk).
  - by destruct (Hv l).
Qed.

(** Room for an element in a buffer: [room] starts at the write position and
    [post] is what follows. *)
Definition has_room (buf : sdp_buf) (pre room post : list Z) : Prop :=
  buf_data buf = pre ++ room ++ post ∧ data_size buf = Z.of_nat (length pre).

(** [gen] writes [enc] into any room of its size. *)
Definition writes (gen : sdp_buf → outcome (sdp_buf * Z)) (enc : list Z) : Prop :=
  ∀ buf pre room post, has_room buf pre room post → length room = length enc →
  gen buf = Ret (SdpBuf (pre ++ enc ++ post) (Z.of_nat (length (pre ++ enc))) (buf_size buf),
                 Z.of_nat (length enc)).

Lemma get_data_size_spec gen l :
  Forall (λ d, writes (gen d) (sdp_encode d)) l →
  ∀ buf pre room post n, has_room buf pre room post →
  length room = length (sdp_encode_list l) →
  get_data_size gen l buf n =
  Ret (SdpBuf (pre ++ sdp_encode_list l ++ post)
         (Z.of_nat (length (pre ++ sdp_encode_list l))) (buf_size buf),
       n + Z.of_nat (length (sdp_encode_list l))).
Proof.
  induction 1 as [|d l Hd _ IH]; intros buf pre room post n [Hb Hs] Hl.
  - destruct room; [|done]. destruct buf as [m s z]; simpl in *. subst.
    rewrite app_nil_r, Z.add_0_r. done.
  - simpl. unfold sdp_encode_list in *. simpl in *. rewrite length_app in Hl.
    rewrite (Hd buf pre (take (length (sdp_encode d)) room)
               (drop (length (sdp_encode d)) room ++ post)); [|split|].
    + rewrite outcome_bind_ret. simpl.
      erewrite (IH _ (pre ++ sdp_encode d) (drop (length (sdp_encode d)) room) post).
      * simpl. rewrite !length_app, <- !app_assoc. feq.
      * split; simpl; [by rewrite <- !app_assoc|done].
      * len.
    + rewrite Hb. rewrite (app_assoc (take _ _)), take_drop. done.
    + done.
    + len.
Qed.

(** Strings and sequences: descriptor, room for the length, payload, length. *)
Lemma len_field_length t n :
  length (len_field t n) = default 0%nat (len_width t).
Proof. unfold len_field. destruct (len_width t); simpl; by len. Qed.

Lemma encode_cons t a v n :
  sdp_encode (SdpData t a v n) =
  t :: len_field t (length (match v with VSeq l => sdp_encode_list l
                                       | v => encode_scalar t v n end))
    ++ match v with VSeq l => sdp_encode_list l | v => encode_scalar t v n end.
Proof. by destruct v. Qed.

Lemma gen_pdu_writes_scalar t a v n :
  data_wf (SdpData t a v n) → (∀ l, v ≠ VSeq l) → (∀ b, v ≠ VStr b) →
  writes (sdp_gen_pdu (SdpData t a v n)) (sdp_encode (SdpData t a v n)).
Proof.
  intros Hwf Hv Hs buf pre room post [Hb Hsz] Hl.
  destruct (scalar_class _ _ _ _ Hwf Hv Hs) as (E1 & E2 & E3).
  assert (sdp_encode (SdpData t a v n) = t :: encode_scalar t v n) as He.
  { rewrite encode_cons. unfold len_field. rewrite E3. destruct v; try done. by destruct (Hv l). }
  rewrite He in Hl |- *. destruct room as [|r room]; [done|]. simpl in Hl.
  destruct (sdp_set_data_type_spec buf pre t [r] (room ++ post)) as (lf & Hlf & Hset);
    [by rewrite Hb|done|by rewrite E3|].
  rewrite E3 in Hlf. destruct lf; [|done].
  simpl. rewrite Hset. simpl. rewrite E1, E2.
  rewrite (gen_pdu_src_spec t a v n) by done. simpl.
  destruct (Z.eqb_spec t SDP_DATA_NIL) as [->|Hnil].
  - assert (v = VNull) as ->.
    { destruct v as [|z|bs|u|blk|l]; simpl in Hwf; try done; exfalso.
      - destruct Hwf as [? _]. lia.
      - destruct Hwf as [? _]. done.
      - destruct Hwf as [? ?]. by destruct u.
      - by destruct (Hs blk).
      - by destruct (Hv l). }
    simpl in *. destruct room; [|done]. rewrite length_app. simpl. feq.
  - rewrite (buf_put_spec _ (pre ++ [t]) room post) by (simpl; len; by rewrite <- ?app_assoc).
    simpl. rewrite <- app_assoc. simpl. len. feq.
Qed.

Lemma gen_pdu_writes_str t a blk n :
  data_wf (SdpData t a (VStr blk) n) →
  writes (sdp_gen_pdu (SdpData t a (VStr blk) n)) (sdp_encode (SdpData t a (VStr blk) n)).
Proof.
  intros Hwf buf pre room post [Hb Hsz] Hl.
  destruct Hwf as (E1 & Hok & Hn & Hblk & Hw).
  destruct (is_str_len_width t E1) as [w E3]. rewrite encode_cons in Hl |- *. simpl in Hl |- *.
  set (s := take (Z.to_nat (n - 1)) blk) in *.
  assert (length s = Z.to_nat (n - 1)) as Hs by (unfold s; rewrite length_take; lia).
  assert (length (len_field t (length s)) = w) as Hlf by (by rewrite len_field_length, E3).
  destruct (sdp_set_data_type_spec buf pre t (take (1 + w) room) (drop (1 + w) room ++ post))
    as (lf & Hlf' & Hset).
  { rewrite Hb, (app_assoc (take _ _)), take_drop. done. }
  { done. }
  { rewrite E3. len. }
  rewrite Hset. simpl. rewrite E1. simpl.
  rewrite E3 in Hlf'. simpl in Hlf'.
  unfold to_u32. rewrite Z.mod_small by lia.
  rewrite (sdp_set_seq_len_spec pre t w lf (drop (1 + w) room ++ post)) by done. simpl.
  rewrite (rd_ok (Z.to_nat (n - 1))) by lia. fold s. rewrite outcome_bind_ret.
  erewrite (buf_put_spec _ (pre ++ t :: be_split w (n - 1)) (drop (1 + w) room) post).
  - simpl. unfold len_field in *. rewrite E3. rewrite Hs, Z2Nat.id by lia.
    rewrite <- app_assoc. simpl. len. feq.
  - simpl. by rewrite <- app_assoc.
  - simpl. len.
  - len.
Qed.

Lemma gen_pdu_writes_seq t a l n :
  data_wf (SdpData t a (VSeq l) n) →
  Forall (λ d, writes (sdp_gen_pdu d) (sdp_encode d)) l →
  writes (sdp_gen_pdu (SdpData t a (VSeq l) n)) (sdp_encode (SdpData t a (VSeq l) n)).
Proof.
  intros Hwf HF buf pre room post [Hb Hsz] Hl.
  apply data_wf_seq in Hwf as (E2 & Hw & _).
  pose proof (is_seq_not_str t E2) as E1.
  destruct (is_seq_len_width t E2) as [w E3]. rewrite encode_cons in Hl |- *.
  assert (length (len_field t (length (sdp_encode_list l))) = w) as Hlf
    by (by rewrite len_field_length, E3).
  destruct (sdp_set_data_type_spec buf pre t (take (1 + w) room) (drop (1 + w) room ++ post))
    as (lf & Hlf' & Hset).
  { rewrite Hb, (app_assoc (take _ _)), take_drop. done. }
  { done. }
  { rewrite E3. simpl in Hl. len. }
  simpl. rewrite Hset. simpl. rewrite E1, E2. rewrite E3 in Hlf'. simpl in Hlf', Hl.
  erewrite (get_data_size_spec _ _ HF _ (pre ++ t :: lf) (drop (1 + w) room) post).
  - rewrite outcome_bind_ret. simpl.
    rewrite (sdp_set_seq_len_spec pre t w lf (sdp_encode_list l ++ post));
      [|by rewrite <- app_assoc|done|done|done].
    simpl. unfold set_buf_data, len_field in *. rewrite E3. simpl.
    rewrite !length_app. simpl. len. feq.
  - split; simpl; [by rewrite <- app_assoc|]. len.
  - len.
Qed.

Lemma gen_pdu_writes d : data_wf d → writes (sdp_gen_pdu d) (sdp_encode d).
Proof.
  induction d as [t a v n Hv|t a l n IH] using sdp_data_nested_ind; intros Hwf.
  - destruct v; try (by apply gen_pdu_writes_scalar). by apply gen_pdu_writes_str.
  - apply gen_pdu_writes_seq; [done|]. apply data_wf_seq in Hwf as (_ & _ & HF).
    apply Forall_forall. rewrite Forall_forall in IH, HF. auto.
Qed.

(** ** Sequences of attributes *)

(** A data element sequence with the smallest header the code uses. *)
Definition seq_frame (body : list Z) : list Z :=
  if Z.of_nat (length body) + 2 <=? UCHAR_MAX
  then SDP_SEQ8 :: be_split 1 (Z.of_nat (length body)) ++ body
  else SDP_SEQ16 :: be_split 2 (Z.of_nat (length body)) ++ body.

(** The buffer holds the sequence whose payload is [body]. *)
Definition framed (buf : sdp_buf) (body : list Z) : Prop :=
  buf_size buf = Z.of_nat (length (buf_data buf)) ∧
  ∃ rest, buf_data buf = seq_frame body ++ rest ∧
          data_size buf = Z.of_nat (length (seq_frame body)).

(** A buffer nothing was written to. *)
Definition fresh_buf (buf : sdp_buf) : Prop :=
  buf_size buf = Z.of_nat (length (buf_data buf)) ∧ data_size buf = 0 ∧
  ∃ rest, buf_data buf = 0 :: 0 :: rest.

Lemma fix_header_seq8 x b rest n :
  Z.of_nat (length b) < 2 ^ 16 - 3 →
  (255 < Z.of_nat (length b) + 2 → rest ≠ []) →
  n = Z.of_nat (length (SDP_SEQ8 :: x :: b ++ rest)) →
  ∃ buf, append_fix_header (SdpBuf (SDP_SEQ8 :: x :: b ++ rest) (Z.of_nat (length b) + 2) n) = Ret buf
         ∧ framed buf b ∧ buf_size buf = n.
Proof.
  intros Hlen Hroom ->. unfold append_fix_header, framed, seq_frame, UCHAR_MAX. simpl buf_data.
  simpl data_size. simpl rd8. rewrite outcome_bind_ret.
  destruct (Z.ltb_spec 255 (Z.of_nat (length b) + 2)) as [Hp|Hp]; simpl andb; cbv iota beta.
  - destruct rest as [|r rest]; [by destruct (Hroom Hp)|].
    change (adv 2 (SDP_SEQ8 :: x :: b ++ r :: rest)) with (b ++ r :: rest).
    rewrite rd_ok by len. rewrite outcome_bind_ret.
    rewrite take_app_length' by lia.
    assert (∃ y b', [SDP_SEQ8; x] ++ b ++ r :: rest = [SDP_SEQ8; x; y] ++ b' ++ rest ∧ length b' = length b)
      as (y & b' & Hb' & Hl').
    { destruct b as [|y b']; [simpl in Hp; lia|]. exists y, (b' ++ [r]).
      simpl. rewrite <- app_assoc. split; [done|]. rewrite length_app. simpl. lia. }
    simpl app in Hb'. rewrite Hb'.
    rewrite (wr_at [SDP_SEQ8; x; y] b' rest) by done. rewrite outcome_bind_ret.
    rewrite (wr_at [] [SDP_SEQ8] (x :: y :: b ++ rest)) by done. rewrite outcome_bind_ret.
    simpl. rewrite put_htons.
    rewrite (wr_at [SDP_SEQ16] [x; y] (b ++ rest)) by (first [done|by len]). simpl.
    eexists. split; [done|]. split_and!; simpl; [feq| |feq].
    exists rest. rewrite (proj2 (Z.leb_gt _ _)) by lia.
    replace (Z.of_nat (length b) + 2 + 1 - 3) with (Z.of_nat (length b)) by lia.
    split; [by norm_app|feq].
  - simpl. rewrite put_u8, (wr_at [SDP_SEQ8] [x] (b ++ rest)) by (first [done|by len]). simpl.
    eexists. split; [done|]. split_and!; simpl; [feq| |feq].
    exists rest. rewrite (proj2 (Z.leb_le _ _)) by lia.
    replace (Z.of_nat (length b) + 2 - 2) with (Z.of_nat (length b)) by lia.
    split; [|feq]. by norm_app.
Qed.

Lemma fix_header_seq16 x y b rest n :
  Z.of_nat (length b) < 2 ^ 16 → 255 < Z.of_nat (length b) + 2 →
  n = Z.of_nat (length (SDP_SEQ16 :: x :: y :: b ++ rest)) →
  ∃ buf, append_fix_header (SdpBuf (SDP_SEQ16 :: x :: y :: b ++ rest) (Z.of_nat (length b) + 3) n)
         = Ret buf ∧ framed buf b ∧ buf_size buf = n.
Proof.
  intros Hlen Hp ->. unfold append_fix_header, framed, seq_frame, UCHAR_MAX. simpl.
  rewrite andb_false_r. simpl.
  rewrite put_htons, (wr_at [SDP_SEQ16] [x; y] (b ++ rest)) by (first [done|by len]). simpl.
  eexists. split; [done|]. split_and!; simpl; [feq| |feq].
  exists rest. rewrite (proj2 (Z.leb_gt _ _)) by lia.
  replace (Z.of_nat (length b) + 3 - 3) with (Z.of_nat (length b)) by lia.
  split; [by norm_app|feq].
Qed.

Lemma realloc_grow m n :
  (length m ≤ Z.to_nat n)%nat → realloc m n = m ++ replicate (Z.to_nat n - length m) 0.
Proof.
  intros Hn. unfold realloc. rewrite take_app_ge by done. f_equal.
  rewrite take_replicate. f_equal. lia.
Qed.

(** The payload store and the header update on a buffer that already has a
    header of either size. *)
Lemma put_fix_header buf b e :
  framed buf b → Z.of_nat (length b + length e) < 2 ^ 16 - 3 →
  data_size buf + Z.of_nat (length e) ≤ buf_size buf →
  (data_size buf + Z.of_nat (length e) = buf_size buf →
     UCHAR_MAX < data_size buf ∨ data_size buf + Z.of_nat (length e) ≤ UCHAR_MAX) →
  ∃ buf', (d ← buf_put buf e; append_fix_header d) = Ret buf' ∧ framed buf' (b ++ e)
          ∧ buf_size buf' = buf_size buf.
Proof.
  intros [Hbs (rest & Hd & Hs)] Hlen Hfit Hroom.
  rewrite Hd, length_app in Hbs.
  assert (length e ≤ length rest)%nat as Hle by lia.
  rewrite (buf_put_spec buf (seq_frame b) (take (length e) rest) (drop (length e) rest));
    [|by rewrite take_drop|done|len].
  rewrite outcome_bind_ret. rewrite Hs in Hfit, Hroom.
  unfold seq_frame in Hs, Hfit, Hroom, Hbs |- *. unfold UCHAR_MAX in *.
  pose proof (length_drop rest (length e)) as Hdr.
  destruct (Z.leb_spec (Z.of_nat (length b) + 2) 255) as [H8|H16].
  - rewrite be_split_1 in *. set (x := Z.of_nat (length b) mod 256) in *.
    destruct (fix_header_seq8 x (b ++ e) (drop (length e) rest) (buf_size buf)) as (buf' & H1 & H2 & H3).
    + len.
    + intros Hp Hnil. rewrite Hnil in Hdr. simpl in Hdr. len.
    + len.
    + exists buf'. split; [|done]. rewrite <- H1. f_equal. feq.
  - destruct (be_split_2_form (Z.of_nat (length b))) as (x & y & Hx). rewrite Hx in *.
    destruct (fix_header_seq16 x y (b ++ e) (drop (length e) rest) (buf_size buf)) as (buf' & H1 & H2 & H3).
    + len.
    + len.
    + len.
    + exists buf'. split; [|done]. rewrite <- H1. f_equal. feq.
Qed.

Lemma seq_frame_head b : ∃ t l, seq_frame b = t :: l ∧ (t = SDP_SEQ8 ∨ t = SDP_SEQ16).
Proof. unfold seq_frame. case_match; eauto. Qed.

Lemma append_to_buf_framed buf b e junk :
  framed buf b → Z.of_nat (length b + length e) < 2 ^ 16 - 3 →
  (data_size buf + Z.of_nat (length e) = buf_size buf →
     UCHAR_MAX < data_size buf ∨ data_size buf + Z.of_nat (length e) ≤ UCHAR_MAX) →
  ∃ buf', sdp_append_to_buf buf (e ++ junk) (Z.of_nat (length e)) = Ret buf'
          ∧ framed buf' (b ++ e) ∧ buf_size buf ≤ buf_size buf'.
Proof.
  intros Hf Hlen Hroom. unfold sdp_append_to_buf.
  destruct (seq_frame_head b) as (t & l & Ht & Htt). destruct Hf as [Hbs (rest & Hd & Hs)].
  rewrite Hd, Ht. simpl rd8. rewrite outcome_bind_ret. rewrite <- Ht, <- Hd.
  assert ((data_size buf =? 0) = false) as Hds.
  { apply Z.eqb_neq. rewrite Hs, Ht. simpl. lia. }
  assert ((t =? 0) = false) as Ht0 by (by destruct Htt as [-> | ->]).
  destruct (Z.ltb_spec (buf_size buf) (data_size buf + Z.of_nat (length e))) as [Hg|Hg];
    cbv zeta; simpl data_size; rewrite Hds; simpl andb; cbv iota.
  - rewrite outcome_bind_ret, Nat2Z.id, rd_app, outcome_bind_ret by done.
    set (need := SDP_PDU_CHUNK_SIZE * _).
    assert (Z.of_nat (length e) + 1 ≤ need) as Hneed.
    { unfold need, SDP_PDU_CHUNK_SIZE.
      pose proof (Z.mod_pos_bound (Z.of_nat (length e)) 1024). pose proof (Z.div_mod (Z.of_nat (length e)) 1024). lia. }
    assert (data_size buf ≤ buf_size buf) as Hle.
    { rewrite Hbs, Hs, Hd, length_app. lia. }
    destruct (put_fix_header (SdpBuf (realloc (buf_data buf) (buf_size buf + need)) (data_size buf)
                                (buf_size buf + need)) b e) as (buf' & H1 & H2 & H3); simpl; try lia.
    + rewrite realloc_grow by lia. split; simpl; [len|].
      rewrite Hd, <- app_assoc. by eexists.
    + exists buf'. split; [done|]. split; [done|]. simpl in H3. lia.
  - rewrite outcome_bind_ret, Nat2Z.id, rd_app, outcome_bind_ret by done.
    destruct (put_fix_header buf b e) as (buf' & H1 & H2 & H3); try done; try lia.
    + split; [done|]. by exists rest.
    + exists buf'. split; [done|]. split; [done|]. lia.
Qed.

Lemma append_to_buf_fresh buf e junk :
  fresh_buf buf → Z.of_nat (length e) < 2 ^ 16 - 3 → Z.of_nat (length e) + 3 ≤ buf_size buf →
  ∃ buf', sdp_append_to_buf buf (e ++ junk) (Z.of_nat (length e)) = Ret buf'
          ∧ framed buf' e ∧ buf_size buf' = buf_size buf.
Proof.
  intros (Hbs & Hs & rest & Hd) Hlen Hroom. unfold sdp_append_to_buf.
  rewrite Hd. simpl rd8. rewrite outcome_bind_ret. rewrite <- Hd.
  rewrite (proj2 (Z.ltb_ge _ _)) by lia. cbv zeta. rewrite Hs. simpl andb. cbv iota.
  rewrite (wr_at [] [0] (0 :: rest)) by (first [by rewrite Hd|done]). simpl.
  rewrite Nat2Z.id, rd_app, outcome_bind_ret by done.
  rewrite Hd in Hbs. simpl in Hbs.
  rewrite (buf_put_spec _ [SDP_SEQ8; 0] (take (length e) rest) (drop (length e) rest)).
  - rewrite outcome_bind_ret.
    destruct (fix_header_seq8 0 e (drop (length e) rest) (buf_size buf)) as (buf' & H1 & H2 & H3).
    + lia.
    + intros _ Hnil. apply (f_equal length) in Hnil. rewrite length_drop in Hnil. simpl in Hnil. lia.
    + len.
    + exists buf'. split; [|done]. rewrite <- H1. f_equal. feq.
  - simpl. by rewrite take_drop.
  - simpl. rewrite Hs. done.
  - len.
Qed.

(** One attribute in PDU form. *)
Definition attr_encode (d : sdp_data) : list Z :=
  SDP_UINT16 :: be_split 2 (attrId d) ++ sdp_encode d.

Lemma append_pdu_stack d :
  data_wf d → (length (attr_encode d) ≤ 256)%nat →
  ∃ junk, (append ← sdp_set_attrid (SdpBuf (replicate 256 0) 0 256) (attrId d); sdp_gen_pdu d append) =
  Ret (SdpBuf (attr_encode d ++ junk) (Z.of_nat (length (attr_encode d))) 256,
       Z.of_nat (length (sdp_encode d))).
Proof.
  intros Hwf Hlen. unfold attr_encode in *. simpl in Hlen. rewrite length_app, length_be_split in Hlen.
  set (k := length (sdp_encode d)) in *.
  assert (replicate 256 0 = [0] ++ [0; 0] ++ replicate k 0 ++ replicate (253 - k) 0) as Hrep.
  { replace 256%nat with (3 + (k + (253 - k)))%nat by lia.
    rewrite (replicate_add 3), replicate_add. done. }
  exists (replicate (253 - k) 0). rewrite Hrep. unfold sdp_set_attrid. simpl buf_data.
  rewrite (wr_at [] [0] ([0; 0] ++ replicate k 0 ++ replicate (253 - k) 0)) by done.
  rewrite outcome_bind_ret. unfold htons. rewrite le_split_bswap.
  rewrite (wr_at [SDP_UINT16] [0; 0] (replicate k 0 ++ replicate (253 - k) 0)) by (first [done|by len]).
  rewrite !outcome_bind_ret. simpl buf_size.
  erewrite (gen_pdu_writes d Hwf _ (SDP_UINT16 :: be_split 2 (attrId d)) (replicate k 0)).
  - simpl. feq.
  - split; simpl; [by norm_app|]. len.
  - by len.
Qed.

(** The payload of the PDU form of a record. *)
Definition record_body (l : list sdp_data) : list Z := concat (map attr_encode l).

Lemma record_body_cons d l : record_body (d :: l) = attr_encode d ++ record_body l.
Proof. done. Qed.

(** Attributes [sdp_append_to_pdu] can hold in its stack buffer. *)
Definition attr_fits (d : sdp_data) : Prop := data_wf d ∧ (length (attr_encode d) ≤ 256)%nat.

Lemma append_to_pdu_framed pdu b d :
  framed pdu b → attr_fits d → 1024 ≤ buf_size pdu →
  Z.of_nat (length b + length (attr_encode d)) < 2 ^ 16 - 3 →
  ∃ pdu', sdp_append_to_pdu pdu d = Ret pdu' ∧ framed pdu' (b ++ attr_encode d)
          ∧ 1024 ≤ buf_size pdu'.
Proof.
  intros Hf [Hwf Hfit] Hbs Hlen. unfold sdp_append_to_pdu.
  destruct (append_pdu_stack d Hwf Hfit) as [junk Hst].
  apply outcome_bind_Ret_inv in Hst as (append & -> & Hst).
  rewrite outcome_bind_ret, Hst, outcome_bind_ret. simpl.
  destruct (append_to_buf_framed pdu b (attr_encode d) junk Hf Hlen) as (pdu' & H1 & H2 & H3).
  - intros. left. unfold UCHAR_MAX. lia.
  - exists pdu'. split_and!; [done|done|lia].
Qed.

Lemma append_to_pdu_fresh pdu d :
  fresh_buf pdu → attr_fits d → 1024 ≤ buf_size pdu →
  ∃ pdu', sdp_append_to_pdu pdu d = Ret pdu' ∧ framed pdu' (attr_encode d)
          ∧ 1024 ≤ buf_size pdu'.
Proof.
  intros Hf [Hwf Hfit] Hbs. unfold sdp_append_to_pdu.
  destruct (append_pdu_stack d Hwf Hfit) as [junk Hst].
  apply outcome_bind_Ret_inv in Hst as (append & -> & Hst).
  rewrite outcome_bind_ret, Hst, outcome_bind_ret. simpl.
  destruct (append_to_buf_fresh pdu (attr_encode d) junk Hf) as (pdu' & H1 & H2 & H3); [lia|lia|].
  exists pdu'. split_and!; [done|done|lia].
Qed.

Lemma foreach_append_framed l pdu b :
  framed pdu b → Forall attr_fits l → 1024 ≤ buf_size pdu →
  Z.of_nat (length b + length (record_body l)) < 2 ^ 16 - 3 →
  ∃ pdu', sdp_list_foreach l (λ d pdu, sdp_append_to_pdu pdu d) pdu = Ret pdu'
          ∧ framed pdu' (b ++ record_body l).
Proof.
  intros Hf HF. revert pdu b Hf. induction HF as [|d l Hd _ IH]; intros pdu b Hf Hbs Hlen.
  - exists pdu. simpl. rewrite app_nil_r. done.
  - rewrite record_body_cons, length_app in *. cbn [sdp_list_foreach].
    destruct (append_to_pdu_framed pdu b d) as (p1 & H1 & H2 & H3); [done|done|done|len|].
    rewrite H1, outcome_bind_ret.
    destruct (IH p1 (b ++ attr_encode d)) as (p2 & H4 & H5); [done|done|len|].
    exists p2. split; [done|]. by rewrite app_assoc.
Qed.

Lemma fresh_initial :
  fresh_buf (SdpBuf (replicate (Z.to_nat SDP_PDU_CHUNK_SIZE) 0) 0 SDP_PDU_CHUNK_SIZE).
Proof.
  split_and!; cbn [buf_data buf_size data_size].
  - by rewrite length_replicate.
  - done.
  - exists (replicate 1022 0). vm_compute. reflexivity.
Qed.

(** The PDU form of a record is one sequence of its attributes in list order. *)
Lemma gen_record_pdu_framed rec :
  attrlist rec ≠ [] → Forall attr_fits (attrlist rec) →
  Z.of_nat (length (record_body (attrlist rec))) < 2 ^ 16 - 3 →
  ∃ pdu, sdp_gen_record_pdu rec = Ret pdu ∧ framed pdu (record_body (attrlist rec)).
Proof.
  intros Hne HF Hlen. unfold sdp_gen_record_pdu.
  destruct (attrlist rec) as [|d l]; [done|].
  apply Forall_cons_iff in HF as [Hd HF]. rewrite record_body_cons, length_app in *.
  cbn [sdp_list_foreach].
  destruct (append_to_pdu_fresh (SdpBuf (replicate (Z.to_nat SDP_PDU_CHUNK_SIZE) 0) 0 SDP_PDU_CHUNK_SIZE) d)
    as (p1 & H1 & H2 & H3); [|done|done|].
  - apply fresh_initial.
  - rewrite H1, outcome_bind_ret. apply foreach_append_framed; [done|done|done|len].
Qed.

(** C3: encoding refines the wire format. For every well-formed data element,
    of any nesting, [sdp_gen_pdu] run on a buffer with enough room writes
    exactly the reference encoding at the write position, leaves every other
    byte alone, moves the write position by its length and returns that
    length. *)
Theorem sdp_gen_pdu_refines (d : sdp_data) (Hwf : data_wf d)
    (buf : sdp_buf) (pre room post : list Z) (Hroom : has_room buf pre room post)
    (Hlen : length room = length (sdp_encode d)) :
  sdp_gen_pdu d buf =
  Ret (SdpBuf (pre ++ sdp_encode d ++ post) (Z.of_nat (length (pre ++ sdp_encode d))) (buf_size buf),
       Z.of_nat (length (sdp_encode d))).
Proof. by apply (gen_pdu_writes d Hwf buf pre room post). Qed.

Definition example_seq : sdp_data :=
  SdpData SDP_SEQ8 0
    (VSeq [SdpData SDP_UUID16 0 (VUuid (Uuid16 0x0100)) 3;
           SdpData SDP_UINT16 0 (VInt 25) 3;
           SdpData SDP_TEXT_STR8 0 (VStr [72; 105]) 3]) 12.

Lemma example_seq_wf : data_wf example_seq.
Proof.
  apply data_wf_seq. split_and!; [done|vm_compute; reflexivity|].
  repeat constructor; vm_compute; intuition congruence.
Qed.

Lemma sdp_gen_pdu_refines_witness :
  sdp_gen_pdu example_seq (SdpBuf (replicate 20 0) 0 20) =
  Ret (SdpBuf (sdp_encode example_seq ++ replicate 8 0) 12 20, 12).
Proof.
  apply (sdp_gen_pdu_refines example_seq) with (pre := []) (room := replicate 12 0) (post := replicate 8 0).
  - apply example_seq_wf.
  - split; reflexivity.
  - vm_compute. reflexivity.
Defined.

(** The PDU form of a service record. [sdp_gen_record_pdu] of a record
    with at least one attribute, each of at most 256 bytes in PDU form, never
    accesses memory out of bounds and leaves in the buffer one data element
    sequence, with the header size its length asks for, that holds the
    attributes in list order, each as a 16-bit identifier and its value. *)
Theorem sdp_gen_record_pdu_spec (rec : sdp_record) (Hne : attrlist rec ≠ [])
    (Hfit : Forall attr_fits (attrlist rec))
    (Hlen : Z.of_nat (length (record_body (attrlist rec))) < 2 ^ 16 - 3) :
  ∃ pdu, sdp_gen_record_pdu rec = Ret pdu ∧
         take (Z.to_nat (data_size pdu)) (buf_data pdu) = seq_frame (record_body (attrlist rec)) ∧
         data_size pdu ≤ buf_size pdu.
Proof.
  destruct (gen_record_pdu_framed rec Hne Hfit Hlen) as (pdu & H1 & Hbs & rest & Hd & Hs).
  exists pdu. split; [done|]. rewrite Hs, Nat2Z.id, Hd, take_app_length. split; [done|].
  rewrite Hbs, Hd, length_app. lia.
Qed.

Definition example_attr (a : Z) (d : sdp_data) : sdp_data := set_attrId a d.
Definition example_rec : sdp_record :=
  SdpRecord 0x10000 []
    [example_attr 0 (SdpData SDP_UINT32 0 (VInt 0x10000) 5); example_attr 4 example_seq] UuidNone.

Lemma sdp_gen_record_pdu_spec_witness :
  ∃ pdu, sdp_gen_record_pdu example_rec = Ret pdu ∧
         take (Z.to_nat (data_size pdu)) (buf_data pdu) = seq_frame (record_body (attrlist example_rec)) ∧
         data_size pdu ≤ buf_size pdu.
Proof.
  apply (sdp_gen_record_pdu_spec example_rec).
  - done.
  - repeat constructor; vm_compute; intuition congruence.
  - vm_compute. reflexivity.
Defined.

(** ** Out-of-bounds writes *)

Lemma wr_overflow mem off bs :
  Z.of_nat (length mem) < off + Z.of_nat (length bs) → wr mem off bs = Undef.
Proof. intros H. unfold wr. rewrite decide_False; [done|lia]. Qed.

(** The room check of [sdp_append_to_buf] does not count the two header
    bytes it adds to a buffer that is still empty: on such a buffer, any
    append whose size is within two bytes of the buffer size, and at most the
    buffer size, writes past the end of the buffer. *)
Theorem sdp_append_to_buf_header_overflow (buf : sdp_buf) (data : list Z) (len : Z)
    (Hfresh : fresh_buf buf) (Hdata : 0 ≤ len ≤ Z.of_nat (length data))
    (Hlen : buf_size buf - 2 < len ≤ buf_size buf) :
  sdp_append_to_buf buf data len = Undef.
Proof.
  destruct Hfresh as (Hbs & Hs & rest & Hd). unfold sdp_append_to_buf.
  rewrite Hd. simpl rd8. rewrite outcome_bind_ret. rewrite <- Hd.
  rewrite (proj2 (Z.ltb_ge _ _)) by lia. cbv zeta. rewrite Hs. simpl andb. cbv iota.
  rewrite (wr_at [] [0] (0 :: rest)) by (first [by rewrite Hd|done]). simpl.
  rewrite rd_ok, outcome_bind_ret by lia. unfold buf_put. simpl.
  rewrite Hd in Hbs. simpl in Hbs. rewrite Hs.
  rewrite wr_overflow; [done|]. len.
Qed.

Lemma sdp_append_to_buf_header_overflow_witness :
  sdp_append_to_buf (SdpBuf (replicate (Z.to_nat SDP_PDU_CHUNK_SIZE) 0) 0 SDP_PDU_CHUNK_SIZE)
    (replicate 1024 7) 1024 = Undef.
Proof.
  apply (sdp_append_to_buf_header_overflow
           (SdpBuf (replicate (Z.to_nat SDP_PDU_CHUNK_SIZE) 0) 0 SDP_PDU_CHUNK_SIZE)).
  - apply fresh_initial.
  - rewrite length_replicate. lia.
  - simpl. unfold SDP_PDU_CHUNK_SIZE. lia.
Defined.

(** [sdp_append_to_pdu] builds an attribute in a 256-byte buffer on its
    stack without checking the size: a text or URL attribute whose string has
    between 252 and 255 bytes, which [sdp_data_alloc] accepts and every
    8-bit-length descriptor can express, is written past the end of it. *)
Theorem sdp_append_to_pdu_stack_overflow (pdu : sdp_buf) (t attr : Z) (str : list Z)
    (Ht : t = SDP_TEXT_STR8 ∨ t = SDP_URL_STR8) (Hstr : (252 ≤ length str ≤ 255)%nat) :
  sdp_append_to_pdu pdu (SdpData t attr (VStr str) (1 + Z.of_nat (length str))) = Undef.
Proof.
  unfold sdp_append_to_pdu, sdp_set_attrid. simpl attrId. simpl buf_data. simpl buf_size.
  change (replicate 256 0) with ([0] ++ [0; 0] ++ replicate 253 0).
  rewrite (wr_at [] [0] ([0; 0] ++ replicate 253 0)), outcome_bind_ret by done.
  unfold htons. rewrite le_split_bswap.
  rewrite (wr_at [SDP_UINT16] [0; 0] (replicate 253 0)), !outcome_bind_ret by (first [done|by len]).
  assert (is_str t = true ∧ len_width t = Some 1%nat) as [E1 E3] by (by destruct Ht as [-> | ->]).
  unfold sdp_gen_pdu.
  destruct (sdp_set_data_type_spec
    (SdpBuf ([SDP_UINT16] ++ be_split 2 attr ++ replicate 253 0) (1 + 2) 256)
    (SDP_UINT16 :: be_split 2 attr) t (replicate 2 0) (replicate 251 0)) as (lf & Hlf & Hset);
    [done|simpl; by len|by rewrite E3|].
  rewrite E3 in Hlf. rewrite Hset, !outcome_bind_ret. cbv beta iota. rewrite E1.
  simpl val_str. rewrite outcome_bind_ret. unfold to_u32. rewrite Z.mod_small by lia.
  rewrite (sdp_set_seq_len_spec (SDP_UINT16 :: be_split 2 attr) t 1 lf (replicate 251 0))
    by (first [done|simpl; by len]).
  rewrite outcome_bind_ret, rd_ok by lia. rewrite outcome_bind_ret. unfold buf_put.
  rewrite wr_overflow; [done|]. simpl. len.
Qed.

Lemma sdp_append_to_pdu_stack_overflow_witness :
  sdp_append_to_pdu (SdpBuf (replicate (Z.to_nat SDP_PDU_CHUNK_SIZE) 0) 0 SDP_PDU_CHUNK_SIZE)
    (SdpData SDP_TEXT_STR8 SDP_ATTR_SVCNAME_PRIMARY (VStr (replicate 252 65)) 253) = Undef.
Proof.
  apply (sdp_append_to_pdu_stack_overflow _ SDP_TEXT_STR8 SDP_ATTR_SVCNAME_PRIMARY (replicate 252 65)).
  - by left.
  - rewrite length_replicate. lia.
Defined.
