(* ===== verification/SdpRecord.v ===== *)
(** Service records of libs/src/sdp.c: the sorted attribute list, the search
    pattern and the service class, with the operations every other part of
    the library goes through. The attribute list refines a finite map from
    attribute identifiers to data elements. *)

From stdpp Require Import base list numbers sorting gmap.
From Stdlib Require Import ZArith Lia.
From S2P Require Import Prelude CString SdpTypes SdpList SdpUuid SdpEncode.

Local Open Scope Z_scope.

(** * Operations *)

Definition sdp_record_alloc : sdp_record := SdpRecord 0xffffffff [] [] UuidNone.

(** [d1->attrId - d2->attrId], both promoted from [uint16_t]. *)
Definition sdp_attrid_comp_func (d1 d2 : sdp_data) : Z := attrId d1 - attrId d2.

(** [sdp_data_get]: search with a template of which only [attrId] is read. *)
Definition sdp_data_get (rec : sdp_record) (a : Z) : option sdp_data :=
  sdp_list_find (attrlist rec) (SdpData 0 a VNull 0) sdp_attrid_comp_func.

(** The class a ServiceClassIDList attribute gives the record: its first
    element, when the attribute is a sequence that starts with a UUID; the old
    class otherwise. *)
Definition extract_svclass_uuid (data : sdp_data) (uuid : uuid_t) : outcome uuid_t :=
  if (dtd data <? SDP_SEQ8) || (SDP_SEQ32 <? dtd data) then Ret uuid
  else
    l ← val_dataseq (val data);
    match l with
    | [] => Ret uuid
    | d :: _ =>
        if (dtd d <? SDP_UUID16) || (SDP_UUID128 <? dtd d) then Ret uuid
        else val_uuid (val d)
    end.

(** [-1] when the attribute exists. [None] is the null pointer, which the
    function dereferences when the attribute does not exist yet. *)
Definition sdp_attr_add (rec : sdp_record) (attr : Z) (d : option sdp_data)
    : outcome (Z * sdp_record) :=
  match sdp_data_get rec attr with
  | Some _ => Ret (-1, rec)
  | None =>
      match d with
      | None => Undef
      | Some d =>
          let d := set_attrId attr d in
          let rec := set_attrlist (sdp_list_insert_sorted (attrlist rec) d sdp_attrid_comp_func) rec in
          if attr =? SDP_ATTR_SVCLASS_ID_LIST then
            u ← extract_svclass_uuid d (svclass rec); Ret (0, set_svclass u rec)
          else Ret (0, rec)
      end
  end.

Definition sdp_attr_remove (rec : sdp_record) (attr : Z) : sdp_record :=
  let rec := match sdp_data_get rec attr with
             | Some d => set_attrlist (sdp_list_remove (attrlist rec) d) rec
             | None => rec
             end in
  if attr =? SDP_ATTR_SVCLASS_ID_LIST then set_svclass UuidNone rec else rec.

Definition sdp_attr_replace (rec : sdp_record) (attr : Z) (d : option sdp_data)
    : outcome sdp_record :=
  let rec := match sdp_data_get rec attr with
             | Some p => set_attrlist (sdp_list_remove (attrlist rec) p) rec
             | None => rec
             end in
  match d with
  | None => Undef
  | Some d =>
      let d := set_attrId attr d in
      let rec := set_attrlist (sdp_list_insert_sorted (attrlist rec) d sdp_attrid_comp_func) rec in
      if attr =? SDP_ATTR_SVCLASS_ID_LIST then
        u ← extract_svclass_uuid d (svclass rec); Ret (set_svclass u rec)
      else Ret rec
  end.

(** The pattern holds the 128-bit form of every UUID seen in the record, once,
    in the order of [memcmp]. *)
Definition sdp_pattern_add_uuid (rec : sdp_record) (uuid : uuid_t) : sdp_record :=
  let uuid128 := sdp_uuid_to_uuid128 uuid in
  match sdp_list_find (pattern rec) uuid128 sdp_uuid128_cmp with
  | None => set_pattern (sdp_list_insert_sorted (pattern rec) uuid128 sdp_uuid128_cmp) rec
  | Some _ => rec
  end.

Definition sdp_pattern_add_uuidseq (rec : sdp_record) (seq : list uuid_t) : sdp_record :=
  foldl sdp_pattern_add_uuid rec seq.

(** * Invariant *)

#[export] Instance sdp_attrid_comp : CompFunc sdp_attrid_comp_func := comp_func_key attrId.

(** Attributes in strictly increasing order of identifier, UUIDs in strictly
    increasing order of their bytes. *)
Definition record_ok (rec : sdp_record) : Prop :=
  sdp_sorted sdp_attrid_comp_func (attrlist rec) ∧
  sdp_sorted sdp_uuid128_cmp (pattern rec).

(** The attributes as a finite map. *)
Definition attr_map (l : list sdp_data) : gmap Z sdp_data :=
  list_to_map (map (λ d, (attrId d, d)) l).

Lemma attrId_set a d : attrId (set_attrId a d) = a.
Proof. by destruct d. Qed.

Lemma attr_map_lookup l a x :
  sdp_sorted sdp_attrid_comp_func l →
  attr_map l !! a = Some x ↔ x ∈ l ∧ attrId x = a.
Proof.
  intros Hs. unfold attr_map. induction Hs as [|d l Hs IH Hd]; simpl.
  { rewrite lookup_empty. split; [done|]. intros [Hx _]. by apply elem_of_nil in Hx. }
  rewrite Forall_forall in Hd. unfold sdp_attrid_comp_func in Hd.
  rewrite elem_of_cons. destruct (decide (attrId d = a)) as [<-|Hne].
  - rewrite lookup_insert_eq. split.
    + intros [= ->]. auto.
    + intros [[->|Hx] Ha]; [done|]. specialize (Hd x Hx). lia.
  - rewrite lookup_insert_ne, IH by done. split; [tauto|].
    intros [[->|Hx] Ha]; [done|auto].
Qed.

Lemma data_get_lookup rec a :
  sdp_sorted sdp_attrid_comp_func (attrlist rec) →
  sdp_data_get rec a = attr_map (attrlist rec) !! a.
Proof.
  intros Hs. unfold sdp_data_get. destruct (attr_map _ !! a) as [x|] eqn:Hx.
  - apply attr_map_lookup in Hx as [Hx Ha]; [|done].
    apply find_sorted; [apply _|done|done|]. unfold sdp_attrid_comp_func. simpl. lia.
  - apply find_None. intros y Hy Hya. unfold sdp_attrid_comp_func in Hya. simpl in Hya.
    assert (attr_map (attrlist rec) !! a = Some y); [|congruence].
    apply attr_map_lookup; [done|]. split; [done|lia].
Qed.

Lemma attr_map_ext l k :
  sdp_sorted sdp_attrid_comp_func l → sdp_sorted sdp_attrid_comp_func k →
  (∀ x, x ∈ l ↔ x ∈ k) → attr_map l = attr_map k.
Proof.
  intros Hl Hk Hlk. apply map_eq. intros a. apply option_eq. intros x.
  rewrite !attr_map_lookup by done. by rewrite Hlk.
Qed.

Lemma attr_map_insert l d :
  sdp_sorted sdp_attrid_comp_func l → attr_map l !! attrId d = None →
  sdp_sorted sdp_attrid_comp_func (sdp_list_insert_sorted l d sdp_attrid_comp_func) ∧
  attr_map (sdp_list_insert_sorted l d sdp_attrid_comp_func) = <[attrId d := d]> (attr_map l).
Proof.
  intros Hs Hn.
  assert (sdp_sorted sdp_attrid_comp_func (sdp_list_insert_sorted l d sdp_attrid_comp_func)) as Hs'.
  { apply insert_sorted_sorted; [apply _|done|]. intros x Hx Hxd.
    unfold sdp_attrid_comp_func in Hxd.
    assert (attr_map l !! attrId d = Some x); [|congruence].
    apply attr_map_lookup; [done|]. split; [done|lia]. }
  split; [done|]. apply map_eq. intros a. apply option_eq. intros x.
  rewrite attr_map_lookup, elem_of_insert_sorted by done.
  destruct (decide (attrId d = a)) as [<-|Hne].
  - rewrite lookup_insert_eq. split.
    + intros [[->|Hx] Ha]; [done|].
      assert (attr_map l !! attrId d = Some x); [by apply attr_map_lookup|congruence].
    + intros [= ->]. auto.
  - rewrite lookup_insert_ne, attr_map_lookup by done. split.
    + intros [[->|Hx] Ha]; [done|auto].
    + tauto.
Qed.

Lemma attr_map_remove l a p :
  sdp_sorted sdp_attrid_comp_func l → attr_map l !! a = Some p →
  attr_map (sdp_list_remove l p) = delete a (attr_map l).
Proof.
  intros Hs Hp. apply map_eq. intros b. apply option_eq. intros x.
  rewrite attr_map_lookup, elem_of_remove by (try apply remove_sorted; done || apply _).
  rewrite lookup_delete. case_decide as Hab.
  - subst b. split; [|done]. intros [[Hx Hne] Ha].
    assert (attr_map l !! a = Some x); [by apply attr_map_lookup|congruence].
  - rewrite attr_map_lookup by done. split; [tauto|]. intros [Hx Ha]. split_and!; [done| |done].
    intros ->. apply attr_map_lookup in Hp as [_ Hp]; [congruence|done].
Qed.

(** * The attribute operations *)

(** The class of a record is only looked for in a well-formed attribute. *)
Lemma extract_svclass_defined d u : data_wf d → ∃ u', extract_svclass_uuid d u = Ret u'.
Proof.
  destruct d as [t a v n]. intros Hwf. unfold extract_svclass_uuid. simpl dtd. simpl val.
  destruct ((t <? SDP_SEQ8) || (SDP_SEQ32 <? t)) eqn:Hr; [eauto|].
  apply orb_false_iff in Hr as [Hr1%Z.ltb_ge Hr2%Z.ltb_ge].
  pose proof (data_wf_range _ _ _ _ Hwf) as Hrange.
  destruct v as [| | | | |l]; try dtd_lia.
  apply data_wf_seq in Hwf as (_ & _ & HF).
  simpl. destruct HF as [|e l He HF]; [eauto|].
  destruct ((dtd e <? SDP_UUID16) || (SDP_UUID128 <? dtd e)) eqn:Hu; [eauto|].
  apply orb_false_iff in Hu as [Hu1%Z.ltb_ge Hu2%Z.ltb_ge].
  destruct e as [t' a' v' n']. pose proof (data_wf_range _ _ _ _ He). simpl in *.
  destruct v'; simpl; eauto; dtd_lia.
Qed.

Lemma data_wf_set_attrId a d : data_wf (set_attrId a d) ↔ data_wf d.
Proof. by destruct d. Qed.

(** Removing the attribute [a], if there is one. *)
Lemma remove_found rec a :
  record_ok rec →
  let rec' := match sdp_data_get rec a with
              | Some p => set_attrlist (sdp_list_remove (attrlist rec) p) rec
              | None => rec
              end in
  record_ok rec' ∧ attr_map (attrlist rec') = delete a (attr_map (attrlist rec)) ∧
  pattern rec' = pattern rec ∧ handle rec' = handle rec ∧ svclass rec' = svclass rec.
Proof.
  intros [Hs Hp]. rewrite data_get_lookup by done.
  destruct (attr_map (attrlist rec) !! a) as [p|] eqn:Ha; simpl.
  - split_and!; try done. + split; [by apply remove_sorted|done]. + by apply attr_map_remove.
  - split_and!; try done. symmetry. by apply delete_id.
Qed.

(** Inserting under an identifier that is free. *)
Lemma insert_free rec a d :
  record_ok rec → attr_map (attrlist rec) !! a = None →
  let l := sdp_list_insert_sorted (attrlist rec) (set_attrId a d) sdp_attrid_comp_func in
  record_ok (set_attrlist l rec) ∧ attr_map l = <[a := set_attrId a d]> (attr_map (attrlist rec)).
Proof.
  intros [Hs Hp] Ha. destruct (attr_map_insert (attrlist rec) (set_attrId a d)) as [Hs' Hm].
  - done.
  - by rewrite attrId_set.
  - rewrite attrId_set in Hm. simpl. by split; [split|].
Qed.

Lemma attr_replace_spec rec a d rec' :
  record_ok rec → sdp_attr_replace rec a (Some d) = Ret rec' →
  record_ok rec' ∧
  attr_map (attrlist rec') = <[a := set_attrId a d]> (attr_map (attrlist rec)) ∧
  pattern rec' = pattern rec ∧ handle rec' = handle rec.
Proof.
  intros Hok Hr. unfold sdp_attr_replace in Hr.
  destruct (remove_found rec a Hok) as (Hok1 & Hm1 & Hp1 & Hh1 & _).
  set (rec1 := match sdp_data_get rec a with Some _ => _ | None => _ end) in *.
  destruct (insert_free rec1 a d Hok1) as [Hok2 Hm2]; [by rewrite Hm1, lookup_delete_eq|].
  rewrite Hm1, insert_delete_eq in Hm2. simpl in Hr.
  destruct (a =? SDP_ATTR_SVCLASS_ID_LIST); [inv_bind Hr|]; simplify_eq; simpl; split_and!; done.
Qed.

(** Whatever the attribute list looks like, the rest of the record stays. *)
Lemma attr_replace_keeps rec a d rec' :
  sdp_attr_replace rec a d = Ret rec' → handle rec' = handle rec ∧ pattern rec' = pattern rec.
Proof.
  intros Hr. unfold sdp_attr_replace in Hr.
  set (rec1 := match sdp_data_get rec a with Some _ => _ | None => _ end) in Hr.
  assert (handle rec1 = handle rec ∧ pattern rec1 = pattern rec) as [<- <-]
    by (unfold rec1; by destruct (sdp_data_get rec a)).
  destruct d as [d|]; [|done]. simpl in Hr.
  destruct (a =? SDP_ATTR_SVCLASS_ID_LIST); [inv_bind Hr|]; by simplify_eq.
Qed.

Lemma attr_replace_class rec a d u :
  extract_svclass_uuid d (svclass rec) = Ret u →
  ∃ rec', sdp_attr_replace rec a (Some d) = Ret rec' ∧
          svclass rec' = if a =? SDP_ATTR_SVCLASS_ID_LIST then u else svclass rec.
Proof.
  intros Hu. unfold sdp_attr_replace.
  set (rec1 := match sdp_data_get rec a with Some _ => _ | None => _ end).
  assert (svclass rec1 = svclass rec) as Hs by (unfold rec1; by destruct (sdp_data_get rec a)).
  destruct (a =? SDP_ATTR_SVCLASS_ID_LIST); [|by eexists]. simpl. rewrite Hs.
  destruct d as [t b v n]. change (extract_svclass_uuid (set_attrId a (SdpData t b v n)) (svclass rec))
    with (extract_svclass_uuid (SdpData t b v n) (svclass rec)). rewrite Hu. by eexists.
Qed.

Lemma attr_replace_defined rec a d : data_wf d → ∃ rec', sdp_attr_replace rec a (Some d) = Ret rec'.
Proof.
  intros Hwf. unfold sdp_attr_replace. case_match; [|eauto].
  match goal with |- context [extract_svclass_uuid ?x ?u] =>
    destruct (extract_svclass_defined x u) as [u' ->] end; [by apply data_wf_set_attrId|eauto].
Qed.

Lemma attr_add_spec rec a d :
  record_ok rec → data_wf d →
  match attr_map (attrlist rec) !! a with
  | Some _ => sdp_attr_add rec a (Some d) = Ret (-1, rec)
  | None => ∃ rec', sdp_attr_add rec a (Some d) = Ret (0, rec') ∧ record_ok rec' ∧
      attr_map (attrlist rec') = <[a := set_attrId a d]> (attr_map (attrlist rec)) ∧
      pattern rec' = pattern rec ∧ handle rec' = handle rec
  end.
Proof.
  intros Hok Hwf. unfold sdp_attr_add. rewrite data_get_lookup by apply Hok.
  destruct (attr_map (attrlist rec) !! a) eqn:Ha; [done|].
  destruct (insert_free rec a d Hok Ha) as [Hok' Hm].
  case_match; [|by eexists].
  match goal with |- context [extract_svclass_uuid ?x ?u] =>
    destruct (extract_svclass_defined x u) as [u' ->] end; [by apply data_wf_set_attrId|].
  by eexists.
Qed.

Lemma attr_remove_spec rec a :
  record_ok rec →
  record_ok (sdp_attr_remove rec a) ∧
  attr_map (attrlist (sdp_attr_remove rec a)) = delete a (attr_map (attrlist rec)).
Proof.
  intros Hok. unfold sdp_attr_remove. destruct (remove_found rec a Hok) as (Hok1 & Hm1 & _).
  destruct (a =? SDP_ATTR_SVCLASS_ID_LIST); by split.
Qed.

(** C38: the attribute list is a finite map. On every record in which it is
    sorted and free of duplicates, [sdp_data_get] is the lookup of that map;
    [sdp_attr_replace] is insertion, [sdp_attr_remove] is deletion and
    [sdp_attr_add] inserts when the identifier is free and otherwise returns
    -1 and changes nothing; each of them keeps the list sorted and free of
    duplicates, so a record never has two attributes with one identifier. *)
Theorem attributes_refine_map (rec : sdp_record) (a : Z) (d : sdp_data)
    (Hok : record_ok rec) (Hwf : data_wf d) :
  sdp_data_get rec a = attr_map (attrlist rec) !! a ∧
  (∃ rec', sdp_attr_replace rec a (Some d) = Ret rec' ∧ record_ok rec' ∧
     attr_map (attrlist rec') = <[a := set_attrId a d]> (attr_map (attrlist rec))) ∧
  (record_ok (sdp_attr_remove rec a) ∧
     attr_map (attrlist (sdp_attr_remove rec a)) = delete a (attr_map (attrlist rec))) ∧
  match attr_map (attrlist rec) !! a with
  | Some _ => sdp_attr_add rec a (Some d) = Ret (-1, rec)
  | None => ∃ rec', sdp_attr_add rec a (Some d) = Ret (0, rec') ∧ record_ok rec' ∧
      attr_map (attrlist rec') = <[a := set_attrId a d]> (attr_map (attrlist rec))
  end.
Proof.
  split_and!.
  - apply data_get_lookup, Hok.
  - destruct (attr_replace_defined rec a d Hwf) as [rec' Hr]. exists rec'.
    by destruct (attr_replace_spec _ _ _ _ Hok Hr) as (? & ? & _).
  - by apply attr_remove_spec.
  - by apply attr_remove_spec.
  - pose proof (attr_add_spec rec a d Hok Hwf) as H. case_match; [done|].
    destruct H as (rec' & ? & ? & ? & _). by eexists.
Qed.

Lemma record_alloc_ok : record_ok sdp_record_alloc.
Proof. split; constructor. Qed.

Lemma attributes_refine_map_witness :
  sdp_data_get sdp_record_alloc 4 = attr_map (attrlist sdp_record_alloc) !! 4 ∧
  ∃ rec', sdp_attr_replace sdp_record_alloc 4 (Some example_seq) = Ret rec' ∧ record_ok rec' ∧
     attr_map (attrlist rec') = <[4 := set_attrId 4 example_seq]> (attr_map []).
Proof.
  pose proof example_seq_wf.
  destruct (attributes_refine_map sdp_record_alloc 4 example_seq) as (H1 & H2 & _).
  - apply record_alloc_ok.
  - done.
  - by split.
Defined.

(** * The search pattern *)

(** The record matches the UUID [u]. *)
Definition has_uuid (rec : sdp_record) (u : uuid_t) : Prop :=
  sdp_list_find (pattern rec) (sdp_uuid_to_uuid128 u) sdp_uuid128_cmp ≠ None.

Lemma pattern_add_ok rec u : record_ok rec → record_ok (sdp_pattern_add_uuid rec u).
Proof.
  intros [Hs Hp]. unfold sdp_pattern_add_uuid. case_match eqn:Hf; [done|]. split; [done|]. simpl.
  apply insert_sorted_sorted; [apply _|done|]. by apply find_None.
Qed.

Lemma pattern_addseq_ok rec l : record_ok rec → record_ok (sdp_pattern_add_uuidseq rec l).
Proof.
  unfold sdp_pattern_add_uuidseq. revert rec. induction l; simpl; [done|].
  intros. by apply IHl, pattern_add_ok.
Qed.

Lemma find_insert_sorted {A} (f : A → A → Z) `{!CompFunc f} l d u :
  (∃ x, sdp_list_find (sdp_list_insert_sorted l d f) u f = Some x) ↔
  f d u = 0 ∨ ∃ x, sdp_list_find l u f = Some x.
Proof.
  split.
  - intros [x Hx]. apply find_Some in Hx as [[->|Hx]%elem_of_insert_sorted Hu]; [by left|right].
    destruct (sdp_list_find l u f) eqn:Hf; [eauto|]. rewrite find_None in Hf. by destruct (Hf x Hx).
  - intros H. destruct (sdp_list_find (sdp_list_insert_sorted l d f) u f) eqn:Hf; [eauto|].
    rewrite find_None in Hf. exfalso. destruct H as [H|[x Hx]].
    + apply (Hf d); [|done]. apply elem_of_insert_sorted. by left.
    + apply find_Some in Hx as [Hx Hu]. apply (Hf x); [|done].
      apply elem_of_insert_sorted. by right.
Qed.

Lemma has_uuid_add rec u w :
  uuid_ok u → uuid_ok w →
  has_uuid (sdp_pattern_add_uuid rec u) w ↔ uuid_canon u = uuid_canon w ∨ has_uuid rec w.
Proof.
  intros Hu Hw. unfold has_uuid, sdp_pattern_add_uuid. rewrite <- uuid_cmp_canon by done.
  assert (∀ o : option uuid_t, o ≠ None ↔ ∃ x, o = Some x) as Hno.
  { intros [x|]; split; try done; eauto. by intros [? ?]. }
  rewrite !Hno. case_match eqn:Hf.
  - split; [by right|]. intros [Heq|?]; [|done]. apply find_Some in Hf as [Hx Hxu].
    rewrite <- (find_congr sdp_uuid128_cmp _ _ _ Heq).
    destruct (sdp_list_find (pattern rec) (sdp_uuid_to_uuid128 u) sdp_uuid128_cmp) eqn:E; [eauto|].
    rewrite find_None in E. by destruct (E _ Hx).
  - simpl. by rewrite find_insert_sorted by apply _.
Qed.

Lemma has_uuid_addseq rec l w :
  Forall uuid_ok l → uuid_ok w →
  has_uuid (sdp_pattern_add_uuidseq rec l) w ↔ (∃ u, u ∈ l ∧ uuid_canon u = uuid_canon w) ∨ has_uuid rec w.
Proof.
  intros HF Hw. unfold sdp_pattern_add_uuidseq. revert rec.
  induction HF as [|u l Hu _ IH]; intros rec; simpl.
  - split; [by right|]. intros [(u & Hu & _)|?]; [by apply elem_of_nil in Hu|done].
  - rewrite IH, has_uuid_add by done. setoid_rewrite elem_of_cons. naive_solver.
Qed.

(** The search pattern is the set of UUIDs added to it, whatever their
    size. Adding a UUID keeps the pattern sorted and free of duplicates; a
    UUID is then found in it exactly when it was found before or has the same
    canonical form as the one added; and adding it again changes nothing. *)
Theorem pattern_refines_set (rec : sdp_record) (u w : uuid_t)
    (Hok : record_ok rec) (Hu : uuid_ok u) (Hw : uuid_ok w) :
  record_ok (sdp_pattern_add_uuid rec u) ∧
  (has_uuid (sdp_pattern_add_uuid rec u) w ↔ uuid_canon u = uuid_canon w ∨ has_uuid rec w) ∧
  (uuid_canon u = uuid_canon w →
     sdp_pattern_add_uuid (sdp_pattern_add_uuid rec u) w = sdp_pattern_add_uuid rec u).
Proof.
  split_and!.
  - by apply pattern_add_ok.
  - by apply has_uuid_add.
  - intros Heq. unfold sdp_pattern_add_uuid at 1.
    assert (has_uuid (sdp_pattern_add_uuid rec u) w) as Hh by (apply has_uuid_add; auto).
    unfold has_uuid in Hh. by case_match.
Qed.

Lemma pattern_refines_set_witness :
  has_uuid (sdp_pattern_add_uuid sdp_record_alloc (Uuid32 0x1101)) (Uuid16 0x1101).
Proof.
  apply (pattern_refines_set sdp_record_alloc (Uuid32 0x1101) (Uuid16 0x1101)).
  - apply record_alloc_ok.
  - vm_compute; intuition congruence.
  - vm_compute; intuition congruence.
  - left. vm_compute. reflexivity.
Defined.
