(* ===== verification/SdpDecode.v ===== *)
(** Parsing of PDUs: the extraction half of libs/src/sdp.c. A parser takes the
    bytes from its pointer to the end of the object, the [int] count of bytes
    the caller vouches for, and the running count of scanned bytes; results
    are returned instead of stored through pointers. *)

From stdpp Require Import base list numbers sorting gmap.
From Stdlib Require Import ZArith Lia.
From S2P Require Import Prelude CString SdpTypes SdpList SdpUuid SdpEncode SdpRecord.

Local Open Scope Z_scope.

(** * Scalars *)

(** [None] is the result -1. *)
Definition sdp_uuid_extract_safe (p : list Z) (bufsize scanned : Z)
    : outcome (option uuid_t * Z) :=
  if lt_size bufsize 1 then Ret (None, scanned)
  else
    type ← rd8 p;
    if negb (SDP_IS_UUID type) then Ret (None, scanned)
    else
      let p := adv 1 p in
      let scanned := scanned + 1 in
      let bufsize := bufsize - 1 in
      if type =? SDP_UUID16 then
        if lt_size bufsize 2 then Ret (None, scanned)
        else z ← get_unaligned 2 p; Ret (Some (sdp_uuid16_create (ntohs z)), scanned + 2)
      else if type =? SDP_UUID32 then
        if lt_size bufsize 4 then Ret (None, scanned)
        else z ← get_unaligned 4 p; Ret (Some (sdp_uuid32_create (ntohl z)), scanned + 4)
      else
        if lt_size bufsize 16 then Ret (None, scanned)
        else u ← sdp_uuid128_create p; Ret (Some u, scanned + 16).

(** The value of an integer descriptor of [w] payload bytes. *)
Definition extract_int_val (w : nat) (p : list Z) : outcome sdp_val :=
  match w with
  | 0%nat => Ret VNull
  | 1%nat => z ← rd8 p; Ret (VInt z)
  | 2%nat => z ← get_unaligned 2 p; Ret (VInt (ntohs z))
  | 4%nat => z ← get_unaligned 4 p; Ret (VInt (ntohl z))
  | 8%nat => z ← get_unaligned 8 p; Ret (VInt (ntoh64 z))
  | _ => bs ← rd 16 p; Ret (V128 (ntoh128 bs))
  end.

Definition extract_int (p : list Z) (bufsize len : Z) : outcome (option sdp_data * Z) :=
  if lt_size bufsize 1 then Ret (None, len)
  else
    t ← rd8 p;
    let p := adv 1 p in
    let len := len + 1 in
    let bufsize := bufsize - 1 in
    match int_width t with
    | Some w =>
        if lt_size bufsize (Z.of_nat w) then Ret (None, len)
        else v ← extract_int_val w p; Ret (Some (SdpData t 0 v 0), len + Z.of_nat w)
    | None => Ret (None, len)
    end.

Definition extract_uuid (p : list Z) (bufsize len : Z) (rec : option sdp_record)
    : outcome (option sdp_data * Z * option sdp_record) :=
  r ← sdp_uuid_extract_safe p bufsize len;
  match r with
  | (None, len) => Ret (None, len, rec)
  | (Some u, len) =>
      t ← rd8 p;
      Ret (Some (SdpData t 0 (VUuid u) 0), len, (λ r, sdp_pattern_add_uuid r u) <$> rec)
  end.

(** The 16-bit form adds the string length to [*len] here and again at the end
    of the function. *)
Definition extract_str (p : list Z) (bufsize len : Z) : outcome (option sdp_data * Z) :=
  if lt_size bufsize 1 then Ret (None, len)
  else
    t ← rd8 p;
    let p := adv 1 p in
    let len := len + 1 in
    let bufsize := bufsize - 1 in
    let finish n p len bufsize :=
      if bufsize <? n then Ret (None, len)
      else
        s ← rd (Z.to_nat n) p;
        Ret (Some (SdpData t 0 (VStr (s ++ [0])) (n + 1)), len + n) in
    if (t =? SDP_TEXT_STR8) || (t =? SDP_URL_STR8) then
      if lt_size bufsize 1 then Ret (None, len)
      else n ← rd8 p; finish n (adv 1 p) (len + 1) (bufsize - 1)
    else if (t =? SDP_TEXT_STR16) || (t =? SDP_URL_STR16) then
      if lt_size bufsize 2 then Ret (None, len)
      else n ← get_unaligned 2 p;
           let n := ntohs n in
           finish n (adv 2 p) (len + (2 + n)) (bufsize - 2)
    else Ret (None, len).

(** * Sequences *)

(** The offset of the payload (0 on failure), the descriptor and the payload
    length; [dtd0] and [size0] are what the out parameters hold before. *)
Definition sdp_extract_seqtype_safe (buf : list Z) (bufsize dtd0 size0 : Z) : outcome (Z * Z * Z) :=
  if lt_size bufsize 1 then Ret (0, dtd0, size0)
  else
    t ← rd8 buf;
    let buf := adv 1 buf in
    let bufsize := bufsize - 1 in
    if (t =? SDP_SEQ8) || (t =? SDP_ALT8) then
      if lt_size bufsize 1 then Ret (0, t, size0)
      else n ← rd8 buf; Ret (2, t, n)
    else if (t =? SDP_SEQ16) || (t =? SDP_ALT16) then
      if lt_size bufsize 2 then Ret (0, t, size0)
      else n ← get_unaligned 2 buf; Ret (3, t, ntohs n)
    else if (t =? SDP_SEQ32) || (t =? SDP_ALT32) then
      if lt_size bufsize 4 then Ret (0, t, size0)
      else n ← get_unaligned 4 buf; Ret (5, t, to_i32 (ntohl n))
    else Ret (0, t, size0).

(** The parser of one element, as [extract_seq] calls it. *)
Definition attr_parser : Type :=
  list Z → Z → Z → option sdp_record → outcome (option sdp_data * Z * option sdp_record).

(** [while (n < seqlen)]: the elements found, the bytes they took and the
    record. *)
Fixpoint extract_seq_loop (attr : attr_parser) (fuel : nat) (p : list Z) (bufsize seqlen n : Z)
    (acc : list sdp_data) (rec : option sdp_record) : outcome (list sdp_data * Z * option sdp_record) :=
  if n <? seqlen then
    match fuel with
    | O => NoFuel
    | S fuel =>
        r ← attr p bufsize 0 rec;
        match r with
        | (None, _, rec) => Ret (acc, n, rec)
        | (Some curr, attrlen, rec) =>
            extract_seq_loop attr fuel (adv attrlen p) (bufsize - attrlen) seqlen (n + attrlen)
              (acc ++ [curr]) rec
        end
    end
  else Ret (acc, n, rec).

Definition extract_seq (attr : attr_parser) (fuel : nat) (p : list Z) (bufsize : Z)
    (rec : option sdp_record) : outcome (option sdp_data * Z * option sdp_record) :=
  r ← sdp_extract_seqtype_safe p bufsize 0 0;
  let '(len, t, seqlen) := r in
  if len =? 0 then Ret (Some (SdpData t 0 (VSeq []) 0), 0, rec)
  else if bufsize <? len then Ret (None, len, rec)
  else
    r ← extract_seq_loop attr fuel (adv len p) (bufsize - len) seqlen 0 [] rec;
    let '(l, n, rec) := r in
    Ret (Some (SdpData t 0 (VSeq l) 0), len + n, rec).

Fixpoint sdp_extract_attr_safe (fuel : nat) (p : list Z) (bufsize size : Z)
    (rec : option sdp_record) : outcome (option sdp_data * Z * option sdp_record) :=
  match fuel with
  | O => NoFuel
  | S fuel =>
      if lt_size bufsize 1 then Ret (None, size, rec)
      else
        t ← rd8 p;
        if bool_decide (is_Some (int_width t)) then
          r ← extract_int p bufsize 0; Ret (r.1, size + r.2, rec)
        else if SDP_IS_UUID t then
          r ← extract_uuid p bufsize 0 rec; Ret (r.1.1, size + r.1.2, r.2)
        else if is_str t then
          r ← extract_str p bufsize 0; Ret (r.1, size + r.2, rec)
        else if is_seq t || is_alt t then
          r ← extract_seq (sdp_extract_attr_safe fuel) fuel p bufsize rec;
          Ret (r.1.1, size + r.1.2, r.2)
        else Ret (None, size, rec)
  end.

(** * Records *)

(** The loop of [sdp_extract_pdu_safe]: [fuel] bounds its iterations and
    [afuel] the nesting of each attribute. *)
Fixpoint extract_pdu_loop (afuel fuel : nat) (p : list Z) (bufsize seqlen extracted : Z)
    (rec : sdp_record) : outcome sdp_record :=
  if (extracted <? seqlen) && (0 <? bufsize) then
    match fuel with
    | O => NoFuel
    | S fuel =>
        if lt_size bufsize 3 then Ret rec
        else
          _ ← rd8 p;
          attr ← get_unaligned 2 (adv 1 p);
          let attr := ntohs attr in
          r ← sdp_extract_attr_safe afuel (adv 3 p) (bufsize - 3) 0 (Some rec);
          let '(data, attrlen, rec) := (r.1.1, r.1.2, default rec r.2) in
          let n := 3 + attrlen in
          match data with
          | None => Ret rec
          | Some data =>
              rec ← (if attr =? SDP_ATTR_RECORD_HANDLE
                     then h ← val_uint 4 (val data); Ret (set_handle h rec) else Ret rec);
              rec ← (if attr =? SDP_ATTR_SVCLASS_ID_LIST
                     then u ← extract_svclass_uuid data (svclass rec); Ret (set_svclass u rec)
                     else Ret rec);
              rec ← sdp_attr_replace rec attr (Some data);
              extract_pdu_loop afuel fuel (adv n p) (bufsize - n) seqlen (extracted + n) rec
          end
    end
  else Ret rec.

(** The record and [*scanned]. *)
Definition sdp_extract_pdu_safe (fuel : nat) (buf : list Z) (bufsize : Z)
    : outcome (sdp_record * Z) :=
  r ← sdp_extract_seqtype_safe buf bufsize 0 0;
  let '(scanned, _, seqlen) := r in
  rec ← extract_pdu_loop fuel fuel (adv scanned buf) (bufsize - scanned) seqlen 0 sdp_record_alloc;
  Ret (rec, scanned + seqlen).

(** The wrappers that vouch for [SDP_MAX_ATTR_LEN] bytes. *)
Definition sdp_uuid_extract (p : list Z) (scanned : Z) := sdp_uuid_extract_safe p SDP_MAX_ATTR_LEN scanned.
Definition sdp_extract_seqtype (buf : list Z) (dtd0 size0 : Z) :=
  sdp_extract_seqtype_safe buf SDP_MAX_ATTR_LEN dtd0 size0.
Definition sdp_extract_attr (fuel : nat) (p : list Z) (size : Z) (rec : option sdp_record) :=
  sdp_extract_attr_safe fuel p SDP_MAX_ATTR_LEN size rec.
Definition sdp_extract_pdu (fuel : nat) (buf : list Z) := sdp_extract_pdu_safe fuel buf SDP_MAX_ATTR_LEN.

(** * Round trip *)

(** What an element becomes on the wire and back: identifiers and the unit
    sizes of everything but strings are not transmitted, and a received string
    is terminated. *)
Fixpoint decoded (d : sdp_data) : sdp_data :=
  let '(SdpData t _ v n) := d in
  match v with
  | VStr blk => SdpData t 0 (VStr (take (Z.to_nat (n - 1)) blk ++ [0])) n
  | VSeq l => SdpData t 0 (VSeq (map decoded l)) 0
  | v => SdpData t 0 v 0
  end.

(** The UUIDs of an element, in the order the parser meets them. *)
Fixpoint data_uuids (d : sdp_data) : list uuid_t :=
  let '(SdpData _ _ v _) := d in
  match v with
  | VUuid u => [u]
  | VSeq l => concat (map data_uuids l)
  | _ => []
  end.

(** Elements the parser reads back: no string with a length field of more than
    8 bits, and no payload of 2 GiB or more. *)
Fixpoint decodable (d : sdp_data) : Prop :=
  let '(SdpData t _ v _) := d in
  match v with
  | VStr _ => t = SDP_TEXT_STR8 ∨ t = SDP_URL_STR8
  | VSeq l => Z.of_nat (length (sdp_encode_list l)) < 2 ^ 31 ∧ foldr (λ d P, decodable d ∧ P) True l
  | _ => True
  end.

Lemma decodable_seq t a l n :
  decodable (SdpData t a (VSeq l) n) ↔
  Z.of_nat (length (sdp_encode_list l)) < 2 ^ 31 ∧ Forall decodable l.
Proof.
  simpl. assert (foldr (λ d P, decodable d ∧ P) True l ↔ Forall decodable l) as ->; [|done].
  induction l as [|d l IH]; simpl; [by split|]. by rewrite Forall_cons_iff, IH.
Qed.

Definition add_uuids (rec : option sdp_record) (l : list uuid_t) : option sdp_record :=
  (λ r, sdp_pattern_add_uuidseq r l) <$> rec.

Lemma add_uuids_nil rec : add_uuids rec [] = rec.
Proof. by destruct rec. Qed.

Lemma add_uuids_app rec l k : add_uuids (add_uuids rec l) k = add_uuids rec (l ++ k).
Proof.
  destruct rec; [|done]. unfold add_uuids, sdp_pattern_add_uuidseq. simpl. by rewrite foldl_app.
Qed.

(** [bufsize] vouches for at least [n] bytes. *)
Ltac fits := rewrite lt_size_nonneg, (proj2 (Z.ltb_ge _ _)) by (simpl in *; lia).

Lemma adv_app n l k : n = Z.of_nat (length l) → adv n (l ++ k) = k.
Proof. intros ->. unfold adv. by rewrite Nat2Z.id, drop_app_length. Qed.

Lemma adv_cons b l : adv 1 (b :: l) = l.
Proof. done. Qed.

Lemma get_be n z rest :
  (get_unaligned n (be_split n z ++ rest)) = Ret (le_join (be_split n z)).
Proof. apply get_unaligned_app. by len. Qed.

Lemma bswap_be n z : 0 ≤ z < 2 ^ (8 * Z.of_nat n) → bswap n (le_join (be_split n z)) = z.
Proof.
  intros Hz. pose proof (bswap_le_join (be_split n z) (be_split_ok n z)) as H.
  rewrite length_be_split in H. by rewrite H, be_join_split, Z.mod_small.
Qed.

Lemma be_split_1_small z rest : 0 ≤ z < 256 → be_split 1 z ++ rest = z :: rest.
Proof. intros. by rewrite be_split_1, Z.mod_small. Qed.

(** Integers. *)
Lemma extract_int_val_spec w z rest :
  (w = 1 ∨ w = 2 ∨ w = 4 ∨ w = 8)%nat → 0 ≤ z < 2 ^ (8 * Z.of_nat w) →
  extract_int_val w (be_split w z ++ rest) = Ret (VInt z).
Proof.
  intros [->|[->|[->| ->]]] Hz; unfold extract_int_val.
  - by rewrite be_split_1_small.
  - rewrite get_be, outcome_bind_ret. unfold ntohs. by rewrite bswap_be.
  - rewrite get_be, outcome_bind_ret. unfold ntohl. by rewrite bswap_be.
  - rewrite get_be, outcome_bind_ret, ntoh64_bswap, bswap_be; try done.
    pose proof (le_join_bound _ (be_split_ok 8 z)) as Hb. by rewrite length_be_split in Hb.
Qed.

Lemma extract_int_spec t a v n rest bufsize :
  data_wf (SdpData t a v n) → is_Some (int_width t) →
  Z.of_nat (length (sdp_encode (SdpData t a v n))) ≤ bufsize < 2 ^ 31 →
  extract_int (sdp_encode (SdpData t a v n) ++ rest) bufsize 0 =
  Ret (Some (SdpData t 0 v 0), Z.of_nat (length (sdp_encode (SdpData t a v n)))).
Proof.
  intros Hwf [w Hw] Hb. pose proof (int_width_cases t w Hw) as Hc.
  assert (len_width t = None) as Hlw.
  { destruct_or?; destruct_and?; destruct_or?; by subst. }
  pose proof (data_wf_range _ _ _ _ Hwf) as Hr.
  rewrite encode_cons in *. unfold len_field in *. rewrite Hlw in *.
  unfold extract_int. fits. simpl. rewrite Hw. destruct v as [|z|bs|u|blk|l].
  - simpl in Hwf. subst t. vm_compute in Hw. simplify_eq. simpl. fits. done.
  - simpl in *. rewrite Hw in *. destruct Hwf as [Hws Hz]. len. fits.
    rewrite adv_cons, extract_int_val_spec by done. simpl. feq.
  - simpl in *. destruct Hwf as (Hw' & Hl & Hok). rewrite Hw in Hw'. simplify_eq. len. fits.
    unfold extract_int_val. rewrite adv_cons, rd_app by by len. simpl. unfold ntoh128.
    rewrite reverse_involutive. feq.
  - dtd_lia.
  - dtd_lia.
  - dtd_lia.
Qed.

(** UUIDs. *)
Lemma uuid_extract_spec u rest bufsize scanned :
  uuid_ok u →
  Z.of_nat (length (sdp_encode (SdpData (uuid_type u) 0 (VUuid u) 0))) ≤ bufsize < 2 ^ 31 →
  sdp_uuid_extract_safe (sdp_encode (SdpData (uuid_type u) 0 (VUuid u) 0) ++ rest) bufsize scanned =
  Ret (Some u, scanned + Z.of_nat (length (sdp_encode (SdpData (uuid_type u) 0 (VUuid u) 0)))).
Proof.
  intros Hu Hb. unfold sdp_uuid_extract_safe. destruct u as [|z|z|bs]; [done|..]; simpl in Hu, Hb;
    rewrite ?length_be_split in Hb; simpl; fits; simpl.
  - fits. change (adv 1 (SDP_UUID16 :: be_split 2 z ++ rest)) with (be_split 2 z ++ rest).
    rewrite get_be, outcome_bind_ret. unfold ntohs, sdp_uuid16_create, to_u16.
    rewrite bswap_be, Z.mod_small by done. feq.
  - fits. change (adv 1 (SDP_UUID32 :: be_split 4 z ++ rest)) with (be_split 4 z ++ rest).
    rewrite get_be, outcome_bind_ret. unfold ntohl, sdp_uuid32_create, to_u32.
    rewrite bswap_be, Z.mod_small by done. feq.
  - destruct Hu as [Hl Hok]. fits.
    change (adv 1 (SDP_UUID128 :: bs ++ rest)) with (bs ++ rest).
    unfold sdp_uuid128_create. rewrite rd_app by done. simpl. feq.
Qed.

(** Strings. *)
Lemma extract_str_spec t a blk n rest bufsize :
  data_wf (SdpData t a (VStr blk) n) → t = SDP_TEXT_STR8 ∨ t = SDP_URL_STR8 →
  Z.of_nat (length (sdp_encode (SdpData t a (VStr blk) n))) ≤ bufsize < 2 ^ 31 →
  extract_str (sdp_encode (SdpData t a (VStr blk) n) ++ rest) bufsize 0 =
  Ret (Some (decoded (SdpData t a (VStr blk) n)),
       Z.of_nat (length (sdp_encode (SdpData t a (VStr blk) n)))).
Proof.
  intros (Hs & Hok & Hn & Hblk & Hw) Ht Hb.
  assert (len_width t = Some 1%nat) as Hlw by (by destruct Ht as [->| ->]).
  rewrite Hlw in Hw. simpl in Hw.
  assert (length (take (Z.to_nat (n - 1)) blk) = Z.to_nat (n - 1)) as Hl by (rewrite length_take; lia).
  rewrite encode_cons in *. unfold len_field in *. rewrite Hlw in *. simpl in Hb |- *. len.
  unfold extract_str. fits. simpl.
  assert ((t =? SDP_TEXT_STR8) || (t =? SDP_URL_STR8) = true) as -> by (by destruct Ht as [->| ->]).
  fits. rewrite adv_cons, <- app_assoc, be_split_1_small by lia. simpl. rewrite adv_cons.
  rewrite (proj2 (Z.ltb_ge _ _)) by lia. rewrite rd_app by len. simpl. feq.
Qed.

(** Sequence headers. *)
Lemma extract_seqtype_spec t w n rest bufsize dtd0 size0 :
  is_seq t || is_alt t = true → len_width t = Some w →
  0 ≤ n < 2 ^ (8 * Z.of_nat w) → n < 2 ^ 31 → 1 + Z.of_nat w ≤ bufsize < 2 ^ 31 →
  sdp_extract_seqtype_safe (t :: be_split w n ++ rest) bufsize dtd0 size0 =
  Ret (1 + Z.of_nat w, t, n).
Proof.
  intros Ht Hw Hn Hn' Hb. unfold sdp_extract_seqtype_safe. fits. simpl.
  assert ((w = 1%nat ∧ (t = SDP_SEQ8 ∨ t = SDP_ALT8)) ∨ (w = 2%nat ∧ (t = SDP_SEQ16 ∨ t = SDP_ALT16)) ∨
    (w = 4%nat ∧ (t = SDP_SEQ32 ∨ t = SDP_ALT32))) as Hc.
  { unfold is_seq, is_alt in Ht. split_dtd Ht; subst; vm_compute in Hw; simplify_eq; auto 10. }
  destruct Hc as [[-> Hc]|[[-> Hc]|[-> Hc]]]; destruct Hc as [->| ->]; simpl; fits;
    rewrite adv_cons, ?be_split_1_small, ?get_be, ?outcome_bind_ret by done; try done;
    unfold ntohs, ntohl; rewrite bswap_be, ?to_i32_small by lia; done.
Qed.

Lemma encode_list_cons d l : sdp_encode_list (d :: l) = sdp_encode d ++ sdp_encode_list l.
Proof. done. Qed.

Lemma length_encode_pos d : (0 < length (sdp_encode d))%nat.
Proof. destruct d. simpl. lia. Qed.

Lemma length_encode_list l : (length l ≤ length (sdp_encode_list l))%nat.
Proof.
  induction l as [|d l IH]; [done|]. rewrite encode_list_cons, length_app.
  pose proof (length_encode_pos d). simpl. lia.
Qed.

Lemma length_encode_elem d l : d ∈ l → (length (sdp_encode d) ≤ length (sdp_encode_list l))%nat.
Proof.
  induction 1 as [|d e l _ IH]; rewrite encode_list_cons, length_app; lia.
Qed.

(** What the loop asks of the parser of elements: it reads back [d] from
    its encoding, whatever follows. *)
Definition reads_back (attr : attr_parser) (d : sdp_data) : Prop :=
  ∀ rest bufsize size rec, Z.of_nat (length (sdp_encode d)) ≤ bufsize < 2 ^ 31 →
  attr (sdp_encode d ++ rest) bufsize size rec =
  Ret (Some (decoded d), size + Z.of_nat (length (sdp_encode d)), add_uuids rec (data_uuids d)).

Lemma extract_seq_loop_spec attr l :
  Forall (reads_back attr) l →
  ∀ fuel rest bufsize seqlen n acc rec, (length l ≤ fuel)%nat →
  seqlen = n + Z.of_nat (length (sdp_encode_list l)) →
  Z.of_nat (length (sdp_encode_list l)) ≤ bufsize < 2 ^ 31 →
  extract_seq_loop attr fuel (sdp_encode_list l ++ rest) bufsize seqlen n acc rec =
  Ret (acc ++ map decoded l, seqlen, add_uuids rec (concat (map data_uuids l))).
Proof.
  induction 1 as [|d l Hd _ IH]; intros fuel rest bufsize seqlen n acc rec Hf -> Hb.
  - simpl. rewrite add_uuids_nil. destruct fuel; simpl; rewrite Z.add_0_r, Z.ltb_irrefl, app_nil_r; done.
  - rewrite encode_list_cons, length_app in *. pose proof (length_encode_pos d).
    destruct fuel as [|fuel]; simpl in Hf; [lia|]. simpl extract_seq_loop.
    rewrite (proj2 (Z.ltb_lt _ _)) by lia. rewrite <- app_assoc, Hd, outcome_bind_ret by lia.
    simpl. rewrite adv_app by done. rewrite IH by lia. rewrite <- app_assoc, add_uuids_app. feq.
Qed.

(** The class of descriptors a kind of value goes with, as the parser tests it. *)
Lemma wf_dispatch t a v n :
  data_wf (SdpData t a v n) →
  bool_decide (is_Some (int_width t)) = match v with VNull | VInt _ | V128 _ => true | _ => false end ∧
  SDP_IS_UUID t = match v with VUuid _ => true | _ => false end ∧
  is_str t = match v with VStr _ => true | _ => false end ∧
  is_seq t || is_alt t = match v with VSeq _ => true | _ => false end.
Proof.
  intros Hwf. destruct v as [|z|bs|u|blk|l].
  - simpl in Hwf. by subst.
  - simpl in Hwf. destruct (int_width t) eqn:Hw; [|done]. apply int_width_cases in Hw.
    destruct_or?; destruct_and?; destruct_or?; by subst.
  - destruct Hwf as [Hw _]. rewrite Hw. apply int_width_cases in Hw.
    destruct_or?; destruct_and?; destruct_or?; by subst.
  - destruct Hwf as [<- Hu]. by destruct u.
  - destruct Hwf as [Hw _]. unfold is_str in Hw. split_dtd Hw; by subst.
  - apply data_wf_seq in Hwf as [Hw _]. unfold is_seq, is_alt in Hw. split_dtd Hw; by subst.
Qed.

Lemma rd8_encode t a v n rest : rd8 (sdp_encode (SdpData t a v n) ++ rest) = Ret t.
Proof. done. Qed.

Lemma attr_reads_back d :
  data_wf d → decodable d → ∀ fuel, (length (sdp_encode d) < fuel)%nat →
  reads_back (sdp_extract_attr_safe fuel) d.
Proof.
  induction d as [t a v n Hv|t a l n IH] using sdp_data_nested_ind;
    intros Hwf Hd fuel Hf rest bufsize size rec Hb; destruct fuel as [|fuel]; try lia;
    destruct (wf_dispatch _ _ _ _ Hwf) as (E1 & E2 & E3 & E4);
    match goal with Hb : context [sdp_encode ?d] |- _ => pose proof (length_encode_pos d) end;
    cbn [sdp_extract_attr_safe]; fits; rewrite rd8_encode, outcome_bind_ret, E1.
  - destruct v as [|z|bs|u|blk|l]; [..|by destruct (Hv l)]; rewrite ?E2, ?E3.
    1-3: rewrite extract_int_spec, outcome_bind_ret by (try done; by apply bool_decide_eq_true_1 in E1);
         simpl; by rewrite add_uuids_nil.
    + destruct Hwf as [<- Hu].
      assert (sdp_encode (SdpData (uuid_type u) a (VUuid u) n) =
              sdp_encode (SdpData (uuid_type u) 0 (VUuid u) 0)) as He by (by rewrite !encode_cons).
      rewrite He in *. unfold extract_uuid. rewrite uuid_extract_spec by done.
      rewrite encode_cons at 2. by destruct rec.
    + rewrite extract_str_spec, outcome_bind_ret by done. simpl. by rewrite add_uuids_nil.
  - rewrite E2, E3, E4. apply data_wf_seq in Hwf as (Hseq & Hl & HF).
    apply decodable_seq in Hd as [Hl' HD]. destruct (is_seq_len_width t Hseq) as [w Hw].
    rewrite Hw in Hl. simpl in Hl. unfold extract_seq. rewrite encode_cons in *.
    unfold len_field in *. rewrite Hw in *. len. rewrite <- app_comm_cons, <- app_assoc.
    rewrite extract_seqtype_spec, outcome_bind_ret by (done || lia).
    rewrite (proj2 (Z.eqb_neq _ _)), (proj2 (Z.ltb_ge _ _)) by lia.
    rewrite app_comm_cons, adv_app by len.
    rewrite extract_seq_loop_spec with (l := l); try lia.
    + simpl. feq.
    + apply Forall_forall. intros d Hd. rewrite Forall_forall in *.
      pose proof (length_encode_elem d l Hd). apply IH; auto. lia.
    + pose proof (length_encode_list l). lia.
Qed.

(** ** Records *)

(** An attribute as the receiver stores it. *)
Definition wire_attr (d : sdp_data) : sdp_data := set_attrId (attrId d) (decoded d).

(** The handle and the class a receiver takes from the attributes. *)
Definition recv_handle (h : Z) (l : list sdp_data) : Z :=
  foldl (λ h d, match val d with
                | VInt z => if attrId d =? SDP_ATTR_RECORD_HANDLE then z else h
                | _ => h
                end) h l.

Definition recv_class (u : uuid_t) (l : list sdp_data) : uuid_t :=
  foldl (λ u d, if attrId d =? SDP_ATTR_SVCLASS_ID_LIST then
                  match extract_svclass_uuid d u with Ret u' => u' | _ => u end
                else u) u l.

(** Attributes that survive the trip: a 16-bit identifier, a value the parser
    reads back, and a handle attribute that holds a 32-bit integer. *)
Definition attr_portable (d : sdp_data) : Prop :=
  data_wf d ∧ decodable d ∧ 0 ≤ attrId d < 2 ^ 16 ∧
  (attrId d = SDP_ATTR_RECORD_HANDLE → dtd d = SDP_UINT32).

Lemma extract_svclass_wire d u : extract_svclass_uuid (wire_attr d) u = extract_svclass_uuid d u.
Proof.
  destruct d as [t a v n]. unfold extract_svclass_uuid, wire_attr. simpl.
  assert (∀ t a v n, val (SdpData t a v n) = v) as Hval by done.
  destruct v as [| | | | |[|e l]]; simpl; try done. destruct e as [t' a' v' n'].
  by destruct v'.
Qed.

Lemma extract_svclass_set a d u : extract_svclass_uuid (set_attrId a d) u = extract_svclass_uuid d u.
Proof. by destruct d. Qed.

Lemma extract_svclass_idem d u u' :
  extract_svclass_uuid d u = Ret u' → extract_svclass_uuid d u' = Ret u'.
Proof.
  unfold extract_svclass_uuid. case_match; [naive_solver|]. intros H'. inv_bind H'. rewrite Hr. simpl.
  case_match; [naive_solver|]. case_match; naive_solver.
Qed.

Lemma insert_sorted_last {A} (f : A → A → Z) l d :
  Forall (λ x, f x d < 0) l → sdp_list_insert_sorted l d f = l ++ [d].
Proof.
  induction 1 as [|x l Hx _ IH]; simpl; [done|]. destruct (Z.geb_spec (f x d) 0); [lia|]. by rewrite IH.
Qed.

Lemma attr_replace_last rec a d u :
  Forall (λ x, attrId x < a) (attrlist rec) →
  (a = SDP_ATTR_SVCLASS_ID_LIST → extract_svclass_uuid d (svclass rec) = Ret u) →
  sdp_attr_replace rec a (Some d) =
  Ret (SdpRecord (handle rec) (pattern rec) (attrlist rec ++ [set_attrId a d])
         (if a =? SDP_ATTR_SVCLASS_ID_LIST then u else svclass rec)).
Proof.
  intros Hlt Hu. unfold sdp_attr_replace.
  assert (sdp_data_get rec a = None) as ->.
  { apply find_None. intros x Hx. rewrite Forall_forall in Hlt. specialize (Hlt x Hx).
    unfold sdp_attrid_comp_func. simpl. lia. }
  rewrite insert_sorted_last.
  - destruct (Z.eqb_spec a SDP_ATTR_SVCLASS_ID_LIST) as [->|]; [|done].
    simpl. by rewrite extract_svclass_set, Hu.
  - eapply Forall_impl; [done|]. intros x Hx. unfold sdp_attrid_comp_func. rewrite attrId_set; simpl in Hx; lia.
Qed.

Lemma pattern_addseq_fields rec l :
  handle (sdp_pattern_add_uuidseq rec l) = handle rec ∧
  attrlist (sdp_pattern_add_uuidseq rec l) = attrlist rec ∧
  svclass (sdp_pattern_add_uuidseq rec l) = svclass rec.
Proof.
  unfold sdp_pattern_add_uuidseq. revert rec. induction l as [|u l IH]; intros rec; simpl; [done|].
  destruct (IH (sdp_pattern_add_uuid rec u)) as (-> & -> & ->).
  unfold sdp_pattern_add_uuid. by destruct (sdp_list_find _ _ _).
Qed.

Definition received (rec : sdp_record) (l : list sdp_data) : sdp_record :=
  SdpRecord (recv_handle (handle rec) l)
    (pattern (sdp_pattern_add_uuidseq rec (concat (map data_uuids l))))
    (attrlist rec ++ map wire_attr l) (recv_class (svclass rec) l).

(** What an iteration of the loop does with the attribute it has parsed. *)
Lemma store_attr rec d :
  attr_portable d → Forall (λ x, attrId x < attrId d) (attrlist rec) →
  (rec ← (if attrId d =? SDP_ATTR_RECORD_HANDLE
          then h ← val_uint 4 (val (decoded d)); Ret (set_handle h rec) else Ret rec);
   rec ← (if attrId d =? SDP_ATTR_SVCLASS_ID_LIST
          then u ← extract_svclass_uuid (decoded d) (svclass rec); Ret (set_svclass u rec)
          else Ret rec);
   sdp_attr_replace rec (attrId d) (Some (decoded d))) =
  Ret (SdpRecord (recv_handle (handle rec) [d]) (pattern rec) (attrlist rec ++ [wire_attr d])
         (recv_class (svclass rec) [d])).
Proof.
  intros (Hwf & Hd & Ha & Hh) Hlt. unfold recv_handle, recv_class. simpl foldl.
  destruct (extract_svclass_defined d (svclass rec) Hwf) as [u Hu].
  pose proof (extract_svclass_idem _ _ _ Hu) as Hu'.
  assert (∀ u, extract_svclass_uuid (decoded d) u = extract_svclass_uuid d u) as Hdec.
  { intros. rewrite <- (extract_svclass_set (attrId d)). apply extract_svclass_wire. }
  destruct (Z.eqb_spec (attrId d) SDP_ATTR_RECORD_HANDLE) as [H0|H0].
  - assert (∃ z, val d = VInt z ∧ val (decoded d) = VInt z ∧ 0 ≤ z < 2 ^ 32) as (z & Hz & Hz' & Hb).
    { clear -Hwf Hh H0. destruct d as [t a v n]. simpl in Hh. rewrite Hh in * by done.
      pose proof (data_wf_range _ _ _ _ Hwf) as Hr.
      destruct v as [|z|bs| | |]; try (unfold SDP_UINT32 in Hr; dtd_lia).
      - exists z. split_and!; try done; apply Hwf.
      - by destruct Hwf as [? _]. }
    rewrite Hz, Hz', val_uint_VInt, H0, !outcome_bind_ret by (done || lia).
    rewrite H0 in Hlt. unfold wire_attr. rewrite H0.
    change (SDP_ATTR_RECORD_HANDLE =? SDP_ATTR_SVCLASS_ID_LIST) with false. cbv iota. rewrite outcome_bind_ret.
    by rewrite attr_replace_last with (u := u).
  - rewrite outcome_bind_ret.
    assert (match val d with VInt _ => handle rec | _ => handle rec end = handle rec) as ->
      by (by destruct (val d)).
    destruct (Z.eqb_spec (attrId d) SDP_ATTR_SVCLASS_ID_LIST) as [H1|H1].
    + rewrite Hdec, Hu, !outcome_bind_ret, attr_replace_last with (u := u); [|done|by rewrite Hdec].
      by rewrite (proj2 (Z.eqb_eq _ _)) by done.
    + rewrite outcome_bind_ret. rewrite attr_replace_last with (u := u); [|done|done].
      by rewrite (proj2 (Z.eqb_neq _ _)) by done.
Qed.

Lemma received_cons rec d l :
  received rec (d :: l) =
  received (SdpRecord (recv_handle (handle rec) [d])
              (pattern (sdp_pattern_add_uuidseq rec (data_uuids d)))
              (attrlist rec ++ [wire_attr d]) (recv_class (svclass rec) [d])) l.
Proof.
  unfold received. cbn [handle pattern attrlist svclass map concat]. f_equal.
  - assert (∀ k r r', pattern r = pattern r' →
      pattern (sdp_pattern_add_uuidseq r k) = pattern (sdp_pattern_add_uuidseq r' k)) as Hp.
    { unfold sdp_pattern_add_uuidseq. induction k as [|u k IH]; intros r r' Hr; [done|]. simpl.
      apply IH. unfold sdp_pattern_add_uuid. rewrite Hr.
      by destruct (sdp_list_find (pattern r') _ _). }
    unfold sdp_pattern_add_uuidseq at 1. rewrite foldl_app. by apply Hp.
  - by rewrite <- app_assoc.
Qed.

Lemma extract_pdu_loop_spec afuel l :
  Forall attr_portable l → sdp_sorted sdp_attrid_comp_func l →
  ∀ fuel rest bufsize seqlen extracted rec,
  (∀ x d, x ∈ attrlist rec → d ∈ l → attrId x < attrId d) →
  (length (record_body l) < fuel)%nat → (length (record_body l) < afuel)%nat →
  seqlen = extracted + Z.of_nat (length (record_body l)) →
  Z.of_nat (length (record_body l)) ≤ bufsize < 2 ^ 31 →
  extract_pdu_loop afuel fuel (record_body l ++ rest) bufsize seqlen extracted rec =
  Ret (received rec l).
Proof.
  intros HF Hs. revert HF. induction Hs as [|d l Hs IH Hd]; intros HF fuel rest bufsize seqlen
    extracted rec Hlt Hf Haf -> Hb.
  - unfold received. simpl. rewrite app_nil_r.
    destruct fuel; simpl; rewrite Z.add_0_r, Z.ltb_irrefl; by destruct rec.
  - apply Forall_cons_iff in HF as [Hp HF]. rewrite record_body_cons, length_app in *.
    unfold attr_encode in *. simpl length in *. rewrite length_app, length_be_split in *.
    destruct fuel as [|fuel]; [lia|]. cbn [extract_pdu_loop].
    rewrite !(proj2 (Z.ltb_lt _ _)) by lia. cbn [andb]. fits. cbv iota.
    simpl rd8. rewrite outcome_bind_ret. simpl app. rewrite adv_cons, <- !app_assoc, get_be, outcome_bind_ret.
    destruct Hp as (Hwf & Hdec & Ha & Hh). unfold ntohs. rewrite bswap_be by done.
    rewrite app_comm_cons, adv_app by (simpl; rewrite length_be_split; lia).
    rewrite attr_reads_back, outcome_bind_ret by (done || lia). cbv zeta. cbn [fst snd].
    simpl default.
    pose proof (pattern_addseq_fields rec (data_uuids d)) as (E1 & E2 & E3).
    set (rec1 := sdp_pattern_add_uuidseq rec (data_uuids d)) in *.
    pose proof (store_attr rec1 d) as St. rewrite <- !outcome_bind_assoc in St. rewrite <- !outcome_bind_assoc, St.
    + rewrite outcome_bind_ret, app_assoc, adv_app by (simpl; len).
      rewrite E1, E2, E3, received_cons. apply IH; try lia; [done|]. simpl. intros x e Hx He.
      apply elem_of_app in Hx as [Hx|Hx].
      * apply Hlt; [done|]. by right.
      * apply list_elem_of_singleton in Hx as ->. rewrite Forall_forall in Hd.
        specialize (Hd e He). unfold sdp_attrid_comp_func in Hd. unfold wire_attr. rewrite attrId_set. lia.
    + done.
    + rewrite E2. apply Forall_forall. intros x Hx. apply Hlt; [done|]. by left.
Qed.

Lemma length_seq_frame b : (length (seq_frame b) ≤ length b + 3)%nat.
Proof. unfold seq_frame. case_match; simpl; rewrite length_app, length_be_split; lia. Qed.

Lemma extract_pdu_frame l rest bufsize fuel :
  Forall attr_portable l → sdp_sorted sdp_attrid_comp_func l →
  Z.of_nat (length (record_body l)) < 2 ^ 16 → Z.of_nat (length (record_body l)) < Z.of_nat fuel →
  Z.of_nat (length (seq_frame (record_body l))) ≤ bufsize < 2 ^ 31 →
  sdp_extract_pdu_safe fuel (seq_frame (record_body l) ++ rest) bufsize =
  Ret (received sdp_record_alloc l, Z.of_nat (length (seq_frame (record_body l)))).
Proof.
  intros HF Hs Hlen Hf Hb. unfold sdp_extract_pdu_safe, seq_frame, UCHAR_MAX in *.
  destruct (Z.leb_spec (Z.of_nat (length (record_body l)) + 2) 255) as [Hl|Hl]; simpl length in *;
    rewrite length_app, length_be_split in *; simpl app; rewrite <- app_assoc;
    (rewrite extract_seqtype_spec by (done || lia)); rewrite outcome_bind_ret;
    rewrite app_comm_cons, adv_app by (simpl; len);
    (rewrite extract_pdu_loop_spec with (l := l); [|done|done|by intros ? ? ?%elem_of_nil|lia..]);
    rewrite outcome_bind_ret; feq.
Qed.

(** C1: records survive the trip. Take a record whose attributes are sorted,
    portable (well formed, no string with a length field of more than 8 bits)
    and of at most 256 bytes each in PDU form, and whose handle and service
    class are the ones its attributes announce. Parsing the PDU
    [sdp_gen_record_pdu] produces returns, with enough fuel, a record with the
    same handle, service class and attributes (strings now terminated), whose
    search pattern holds the UUIDs of the attributes, and reports the whole
    PDU as scanned. *)
Theorem record_roundtrip (rec : sdp_record) (Hne : attrlist rec ≠ []) (Hok : record_ok rec)
    (Hfit : Forall attr_fits (attrlist rec)) (Hport : Forall attr_portable (attrlist rec))
    (Hlen : Z.of_nat (length (record_body (attrlist rec))) < 2 ^ 16 - 3)
    (Hh : handle rec = recv_handle 0xffffffff (attrlist rec))
    (Hc : svclass rec = recv_class UuidNone (attrlist rec)) :
  ∃ pdu, sdp_gen_record_pdu rec = Ret pdu ∧
    ∀ fuel, 2 ^ 16 ≤ Z.of_nat fuel →
    sdp_extract_pdu_safe fuel (take (Z.to_nat (data_size pdu)) (buf_data pdu)) (data_size pdu) =
    Ret (SdpRecord (handle rec)
           (pattern (sdp_pattern_add_uuidseq sdp_record_alloc
                       (concat (map data_uuids (attrlist rec)))))
           (map wire_attr (attrlist rec)) (svclass rec),
         data_size pdu).
Proof.
  destruct (gen_record_pdu_framed rec Hne Hfit Hlen) as (pdu & H1 & Hbs & rest & Hd & Hs).
  exists pdu. split; [done|]. intros fuel Hfuel.
  rewrite Hs, Nat2Z.id, Hd, take_app_length. rewrite <- (app_nil_r (seq_frame _)) at 1.
  pose proof (length_seq_frame (record_body (attrlist rec))).
  rewrite extract_pdu_frame by (done || apply Hok || lia). unfold received. simpl. by rewrite Hh, Hc.
Qed.

(** * Safety and termination on arbitrary input

    The parsers are run on [q ++ junk] with [bufsize] the length of [q]: the
    object may be longer than what the caller vouches for. *)

Definition blen (q : list Z) : Z := Z.of_nat (length q).

Lemma lt_size_false q k :
  blen q < 2 ^ 31 → lt_size (blen q) k = false → k ≤ blen q.
Proof. intros Hq H. unfold blen in *. rewrite lt_size_nonneg in H by lia. by apply Z.ltb_ge in H. Qed.

Lemma rd_prefix n q junk : (n ≤ length q)%nat → rd n (q ++ junk) = Ret (take n q).
Proof. intros Hn. rewrite rd_ok by (rewrite length_app; lia). by rewrite take_app_le. Qed.

Lemma get_prefix n q junk : (n ≤ length q)%nat → ∃ z, get_unaligned n (q ++ junk) = Ret z.
Proof. intros Hn. unfold get_unaligned. rewrite rd_prefix by done. by eexists. Qed.

(** What a parser of a scalar does with [q]: it returns, having taken no more
    than [q], and at least a byte when it returns an element. *)
Definition leaf_post {A} (q : list Z) (m : outcome (option A * Z)) : Prop :=
  ∃ o n, m = Ret (o, n) ∧ 0 ≤ n ≤ blen q ∧ (o ≠ None → 0 < n).

Lemma leaf_ret {A} q (o : option A) n :
  0 ≤ n ≤ blen q → (o ≠ None → 0 < n) → leaf_post q (Ret (o, n)).
Proof. intros. by exists o, n. Qed.

Ltac leaf := apply leaf_ret; [unfold blen in *; simpl length in *; lia | by intros; try lia].

Lemma blen_cons b q : blen (b :: q) - 1 = blen q.
Proof. unfold blen. simpl length. lia. Qed.

Lemma extract_int_post q junk : blen q < 2 ^ 31 → leaf_post q (extract_int (q ++ junk) (blen q) 0).
Proof.
  intros Hq. unfold extract_int. destruct (lt_size (blen q) 1) eqn:E; [leaf|].
  apply lt_size_false in E; [|done]. destruct q as [|t q]; [done|].
  simpl rd8. rewrite outcome_bind_ret, blen_cons. simpl app. rewrite adv_cons.
  destruct (int_width t) as [w|] eqn:Hw; [|leaf].
  destruct (lt_size (blen q) (Z.of_nat w)) eqn:E'; [leaf|].
  apply lt_size_false in E'; [|unfold blen in *; simpl length in *; lia].
  assert (∃ v, extract_int_val w (q ++ junk) = Ret v) as [v ->]; [|leaf].
  unfold blen in *. apply int_width_cases in Hw.
  destruct Hw as [[-> _]|[[-> _]|[[-> _]|[[-> _]|[[-> _]|[-> _]]]]]]; simpl extract_int_val.
  - by eexists.
  - destruct q; [done|]. by eexists.
  - destruct (get_prefix 2 q junk) as [z ->]; [lia|]. by eexists.
  - destruct (get_prefix 4 q junk) as [z ->]; [lia|]. by eexists.
  - destruct (get_prefix 8 q junk) as [z ->]; [lia|]. by eexists.
  - rewrite rd_prefix by lia. by eexists.
Qed.

Lemma uuid_extract_post q junk :
  blen q < 2 ^ 31 → leaf_post q (sdp_uuid_extract_safe (q ++ junk) (blen q) 0).
Proof.
  intros Hq. unfold sdp_uuid_extract_safe. destruct (lt_size (blen q) 1) eqn:E; [leaf|].
  apply lt_size_false in E; [|done]. destruct q as [|t q]; [done|].
  simpl rd8. rewrite outcome_bind_ret, blen_cons. simpl app. rewrite adv_cons.
  assert (blen q < 2 ^ 31) as Hq' by (unfold blen in *; simpl length in *; lia).
  destruct (negb (SDP_IS_UUID t)); [leaf|]. cbv zeta.
  destruct (t =? SDP_UUID16); [|destruct (t =? SDP_UUID32)].
  - destruct (lt_size (blen q) 2) eqn:E'; [leaf|]. apply lt_size_false in E'; [|done]. unfold blen in E'.
    destruct (get_prefix 2 q junk) as [z ->]; [lia|]. rewrite outcome_bind_ret. leaf.
  - destruct (lt_size (blen q) 4) eqn:E'; [leaf|]. apply lt_size_false in E'; [|done]. unfold blen in E'.
    destruct (get_prefix 4 q junk) as [z ->]; [lia|]. rewrite outcome_bind_ret. leaf.
  - destruct (lt_size (blen q) 16) eqn:E'; [leaf|]. apply lt_size_false in E'; [|done]. unfold blen in E'.
    unfold sdp_uuid128_create. rewrite rd_prefix by lia. rewrite !outcome_bind_ret. leaf.
Qed.

Definition no_str16 (q : list Z) : Prop :=
  Forall (λ b, byte_ok b ∧ b ≠ SDP_TEXT_STR16 ∧ b ≠ SDP_URL_STR16) q.

(** No descriptor of a sequence or alternative among the last four bytes. *)
Definition tail_clean (q : list Z) : Prop :=
  Forall (λ b, is_seq b || is_alt b = false) (drop (length q - 4) q).

#[export] Instance no_str16_dec q : Decision (no_str16 q).
Proof. unfold no_str16. apply _. Defined.
#[export] Instance tail_clean_dec q : Decision (tail_clean q).
Proof. unfold tail_clean. apply _. Defined.

Lemma no_str16_drop n q : no_str16 q → no_str16 (drop n q).
Proof. apply Forall_drop. Qed.

Lemma tail_clean_drop n q : tail_clean q → tail_clean (drop n q).
Proof.
  unfold tail_clean. rewrite length_drop, drop_drop.
  replace (n + (length q - n - 4))%nat with (length q - 4 + (n + (length q - n - 4) - (length q - 4)))%nat by lia.
  rewrite <- drop_drop. apply Forall_drop.
Qed.

Lemma extract_str_post q junk :
  no_str16 q → blen q < 2 ^ 31 → leaf_post q (extract_str (q ++ junk) (blen q) 0).
Proof.
  intros H16 Hq. unfold extract_str. destruct (lt_size (blen q) 1) eqn:E; [leaf|].
  apply lt_size_false in E; [|done]. destruct q as [|t q]; [done|].
  simpl rd8. rewrite outcome_bind_ret, blen_cons. simpl app. rewrite adv_cons.
  apply Forall_cons_iff in H16 as [(Hb & H1 & H2) H16]. cbv zeta.
  destruct ((t =? SDP_TEXT_STR8) || (t =? SDP_URL_STR8)).
  - destruct (lt_size (blen q) 1) eqn:E'; [leaf|].
    apply lt_size_false in E'; [|unfold blen in *; simpl length in *; lia].
    destruct q as [|n q]; [done|]. simpl rd8. rewrite outcome_bind_ret, blen_cons. simpl app. rewrite adv_cons.
    apply Forall_cons_iff in H16 as [(Hn & _) _]. unfold byte_ok in Hn.
    destruct (Z.ltb_spec (blen q) n) as [Hl|Hl]; [leaf|].
    rewrite rd_prefix by (unfold blen in *; lia). rewrite outcome_bind_ret. leaf.
  - rewrite (proj2 (Z.eqb_neq t SDP_TEXT_STR16)), (proj2 (Z.eqb_neq t SDP_URL_STR16)) by done.
    simpl. leaf.
Qed.

(** A failed header is reported as offset 0; otherwise the header is inside
    [q], and it cannot fail where no sequence descriptor is near the end. *)
Lemma extract_seqtype_post q junk dtd0 size0 :
  blen q < 2 ^ 31 → 0 < blen q →
  ∃ n t len, sdp_extract_seqtype_safe (q ++ junk) (blen q) dtd0 size0 = Ret (n, t, len) ∧
    (n = 0 ∨ 2 ≤ n ≤ blen q) ∧
    (tail_clean q → (∃ b k, q = b :: k ∧ is_seq b || is_alt b = true) → n ≠ 0).
Proof.
  intros Hq Hpos. unfold sdp_extract_seqtype_safe. destruct (lt_size (blen q) 1) eqn:E.
  { unfold blen in *. rewrite lt_size_nonneg in E by lia. apply Z.ltb_lt in E. lia. }
  clear E. destruct q as [|t q]; [done|]. simpl rd8. rewrite outcome_bind_ret, blen_cons.
  simpl app. rewrite adv_cons. cbv zeta.
  assert (blen q < 2 ^ 31) as Hq' by (unfold blen in *; simpl length in *; lia).
  assert (∀ w, (w ≤ 4)%nat → lt_size (blen q) (Z.of_nat w) = true →
    tail_clean (t :: q) → (∃ b k, t :: q = b :: k ∧ is_seq b || is_alt b = true) → False) as Hfail.
  { intros w Hw Hlt Hc (b & k & [= <- <-] & Hb). unfold blen in *. rewrite lt_size_nonneg in Hlt by lia.
    apply Z.ltb_lt in Hlt. unfold tail_clean in Hc. simpl length in Hc.
    replace (S (length q) - 4)%nat with 0%nat in Hc by lia. apply Forall_cons_iff in Hc as [Hc _].
    simpl in Hc. congruence. }
  destruct ((t =? SDP_SEQ8) || (t =? SDP_ALT8)) eqn:E1; [|
    destruct ((t =? SDP_SEQ16) || (t =? SDP_ALT16)) eqn:E2; [|
      destruct ((t =? SDP_SEQ32) || (t =? SDP_ALT32)) eqn:E3]].
  - destruct (lt_size (blen q) 1) eqn:E.
    + eexists _, _, _. split_and!; [done|by left|]. intros. by destruct (Hfail 1%nat); [lia|..].
    + apply lt_size_false in E; [|done]. destruct q as [|n q]; [done|]. simpl rd8. rewrite outcome_bind_ret.
      eexists _, _, _. split_and!; [done|right; unfold blen; simpl length; lia|done].
  - destruct (lt_size (blen q) 2) eqn:E.
    + eexists _, _, _. split_and!; [done|by left|]. intros. by destruct (Hfail 2%nat); [lia|..].
    + apply lt_size_false in E; [|done]. unfold blen in E. destruct (get_prefix 2 q junk) as [z ->]; [lia|].
      eexists _, _, _. split_and!; [done|right; unfold blen; simpl length; lia|done].
  - destruct (lt_size (blen q) 4) eqn:E.
    + eexists _, _, _. split_and!; [done|by left|]. intros. by destruct (Hfail 4%nat); [lia|..].
    + apply lt_size_false in E; [|done]. unfold blen in E. destruct (get_prefix 4 q junk) as [z ->]; [lia|].
      eexists _, _, _. split_and!; [done|right; unfold blen; simpl length; lia|done].
  - eexists _, _, _. split_and!; [done|by left|]. intros _ (b & k & [= <- <-] & Hb).
    unfold is_seq, is_alt in Hb. exfalso. split_dtd Hb; by subst.
Qed.

(** The same for a parser with fuel: it never runs into undefined behaviour,
    and runs out of fuel only when there is less of it than input, or when a
    sequence descriptor sits among the last four bytes. *)
Definition post {A} (fuel : nat) (q : list Z) (size : Z) (m : outcome (option A * Z * option sdp_record))
    : Prop :=
  match m with
  | Ret (o, n, _) => size ≤ n ≤ size + blen q ∧ (tail_clean q → o ≠ None → size < n)
  | Undef => False
  | NoFuel => ¬ (tail_clean q ∧ (length q < fuel)%nat)
  end.

Lemma post_leaf {A} fuel q size (m : outcome (option A * Z)) (f : option A * Z → option sdp_record) :
  leaf_post q m → post fuel q size (r ← m; Ret (r.1, size + r.2, f r)).
Proof.
  intros (o & n & -> & Hn & Ho). simpl. split; [lia|]. intros _ H. specialize (Ho H). lia.
Qed.

Lemma adv_prefix n q junk : 0 ≤ n ≤ blen q → adv n (q ++ junk) = drop (Z.to_nat n) q ++ junk.
Proof. unfold adv, blen. intros. by rewrite drop_app_le by lia. Qed.

Lemma blen_drop n q : 0 ≤ n ≤ blen q → blen q - n = blen (drop (Z.to_nat n) q).
Proof. unfold blen. rewrite length_drop. lia. Qed.

Lemma seq_loop_post (attr : attr_parser) fuel junk (q0 : list Z) :
  (∀ q rec, (length q ≤ length q0)%nat → no_str16 q →
     post fuel q 0 (attr (q ++ junk) (blen q) 0 rec)) →
  ∀ lfuel q seqlen n acc rec, (length q ≤ length q0)%nat → no_str16 q → blen q < 2 ^ 31 →
  match extract_seq_loop attr lfuel (q ++ junk) (blen q) seqlen n acc rec with
  | Ret (_, n', _) => n ≤ n' ≤ n + blen q
  | Undef => False
  | NoFuel => ¬ (tail_clean q ∧ (length q < fuel)%nat ∧ (length q < lfuel)%nat)
  end.
Proof.
  intros Hattr. induction lfuel as [|lfuel IH]; intros q seqlen n acc rec Hq H16 Hb; cbn [extract_seq_loop].
  - destruct (n <? seqlen); [lia|]. unfold blen. lia.
  - destruct (n <? seqlen); [|unfold blen; lia].
    specialize (Hattr q rec Hq H16). destruct (attr (q ++ junk) (blen q) 0 rec) as [[[o m] rec']| |];
      simpl in Hattr |- *; [|done|tauto].
    destruct Hattr as [Hm Ho]. destruct o as [d|]; [|unfold blen; lia].
    rewrite adv_prefix, blen_drop by lia. pose proof (blen_drop m q) as Hd.
    set (q' := drop (Z.to_nat m) q) in *.
    assert (length q' ≤ length q)%nat as Hlen by (unfold q'; rewrite length_drop; lia).
    specialize (IH q' seqlen (n + m) (acc ++ [d]) rec' ltac:(lia)
                  (no_str16_drop _ _ H16) ltac:(unfold blen in *; lia)).
    destruct (extract_seq_loop _ _ _ _ _ _ _ _) as [[[? n'] ?]| |]; [lia|done|].
    intros (Hc & Hf & Hlf). apply IH. split; [by apply tail_clean_drop|].
    specialize (Ho Hc ltac:(done)). unfold q'. rewrite length_drop. unfold blen in *. lia.
Qed.

Lemma extract_seq_post attr fuel junk q rec :
  (∀ q' rec, (length q' < length q)%nat → no_str16 q' →
     post fuel q' 0 (attr (q' ++ junk) (blen q') 0 rec)) →
  no_str16 q → blen q < 2 ^ 31 → (∃ b k, q = b :: k ∧ is_seq b || is_alt b = true) →
  post (S fuel) q 0 (extract_seq attr fuel (q ++ junk) (blen q) rec).
Proof.
  intros Hattr H16 Hb Hseq. unfold extract_seq.
  destruct (extract_seqtype_post q junk 0 0) as (n & t & len & -> & Hn & Hc); [done| |].
  { destruct Hseq as (b & k & -> & _). unfold blen. simpl length. lia. }
  rewrite outcome_bind_ret. cbv beta iota. destruct (Z.eqb_spec n 0) as [->|Hne].
  - simpl. split; [unfold blen; lia|]. intros Ht. by destruct (Hc Ht Hseq).
  - destruct Hn as [|Hn]; [done|]. rewrite (proj2 (Z.ltb_ge _ _)) by lia.
    rewrite adv_prefix, blen_drop by lia. pose proof (blen_drop n q) as Hd.
    set (q' := drop (Z.to_nat n) q) in *.
    assert (length q' < length q)%nat as Hlen by (unfold q', blen in *; rewrite length_drop; lia).
    assert (blen q' < 2 ^ 31) as Hb' by (unfold blen in *; lia).
    epose proof (seq_loop_post attr fuel junk q' _ fuel q' len 0 [] rec ltac:(lia)
                  (no_str16_drop _ _ H16) Hb') as Hl.
    Unshelve. 2: { intros. apply Hattr; [lia|done]. }
    destruct (extract_seq_loop _ _ _ _ _ _ _ _) as [[[? n'] ?]| |]; simpl; [|done|].
    + split; [lia|]. intros _ _. lia.
    + intros [Ht Hf]. apply Hl. split; [by apply tail_clean_drop|]. lia.
Qed.

Lemma extract_attr_post fuel junk q size rec :
  no_str16 q → blen q < 2 ^ 31 →
  post fuel q size (sdp_extract_attr_safe fuel (q ++ junk) (blen q) size rec).
Proof.
  revert q size rec. induction fuel as [|fuel IH]; intros q size rec H16 Hb; [simpl; lia|].
  cbn [sdp_extract_attr_safe]. destruct (lt_size (blen q) 1) eqn:E.
  { simpl. unfold blen. split; [lia|done]. }
  apply lt_size_false in E; [|done]. destruct q as [|t q]; [done|]. simpl rd8. rewrite outcome_bind_ret.
  change (t :: q ++ junk) with ((t :: q) ++ junk).
  case_bool_decide; [|destruct (SDP_IS_UUID t); [|destruct (is_str t); [|
    destruct (is_seq t || is_alt t) eqn:Hs]]].
  - by apply (post_leaf _ _ _ _ (λ _, rec)), extract_int_post.
  - unfold extract_uuid. destruct (uuid_extract_post (t :: q) junk Hb) as (o & n & -> & Hn & Ho).
    rewrite outcome_bind_ret. destruct o as [u|]; simpl; (split; [lia|]); [|done].
    intros _ _. specialize (Ho ltac:(done)). lia.
  - by apply (post_leaf _ _ _ _ (λ _, rec)), extract_str_post.
  - pose proof (extract_seq_post (sdp_extract_attr_safe fuel) fuel junk (t :: q) rec) as Hp.
    specialize (Hp ltac:(intros; apply IH; [done|unfold blen in *; lia]) H16 Hb ltac:(eauto)).
    destruct (extract_seq _ _ _ _ _) as [[[o n] r]| |]; simpl in Hp |- *; [|done|done].
    destruct Hp as [Hn Ho]. split; [lia|]. intros. specialize (Ho ltac:(done) ltac:(done)). lia.
  - simpl. unfold blen. split; [lia|done].
Qed.

(** C11: data elements survive the trip. What [sdp_gen_pdu] writes for a
    well-formed data element, of any nesting and without 16- or 32-bit string
    descriptors, [sdp_extract_attr_safe] reads back wherever it starts in a
    buffer and whatever follows it: it returns the element, counts exactly the
    bytes written, and adds the element's UUIDs to the record's pattern. *)
Theorem element_roundtrip (d : sdp_data) (Hwf : data_wf d) (Hd : decodable d)
    (buf : sdp_buf) (pre room post : list Z) (Hroom : has_room buf pre room post)
    (Hlen : length room = length (sdp_encode d)) (fuel : nat)
    (Hfuel : (length (sdp_encode d) < fuel)%nat) (bufsize size : Z) (rec : option sdp_record)
    (Hb : Z.of_nat (length (sdp_encode d)) ≤ bufsize < 2 ^ 31) :
  ∃ buf' n, sdp_gen_pdu d buf = Ret (buf', n) ∧
    sdp_extract_attr_safe fuel (adv (data_size buf) (buf_data buf')) bufsize size rec =
    Ret (Some (decoded d), size + n, add_uuids rec (data_uuids d)).
Proof.
  eexists _, _. split; [by apply (gen_pdu_writes d Hwf buf pre room post)|].
  destruct Hroom as [_ ->]. cbn [buf_data]. rewrite adv_app by done. by apply attr_reads_back.
Qed.

Lemma element_roundtrip_witness :
  ∃ buf' n, sdp_gen_pdu example_seq (SdpBuf (replicate 20 0) 0 20) = Ret (buf', n) ∧
    sdp_extract_attr_safe 13 (adv 0 (buf_data buf')) 20 0 None =
    Ret (Some (decoded example_seq), 0 + n, None).
Proof.
  apply (element_roundtrip example_seq) with (buf := SdpBuf (replicate 20 0) 0 20) (pre := [])
    (room := replicate 12 0) (post := replicate 8 0) (rec := None).
  - apply example_seq_wf.
  - vm_compute. auto 10.
  - split; reflexivity.
  - vm_compute. reflexivity.
  - vm_compute. lia.
  - vm_compute. intuition congruence.
Defined.

Lemma record_roundtrip_witness :
  ∃ pdu, sdp_gen_record_pdu example_rec = Ret pdu ∧
    ∀ fuel, 2 ^ 16 ≤ Z.of_nat fuel →
    sdp_extract_pdu_safe fuel (take (Z.to_nat (data_size pdu)) (buf_data pdu)) (data_size pdu) =
    Ret (SdpRecord (handle example_rec)
           (pattern (sdp_pattern_add_uuidseq sdp_record_alloc
                       (concat (map data_uuids (attrlist example_rec)))))
           (map wire_attr (attrlist example_rec)) (svclass example_rec),
         data_size pdu).
Proof.
  apply (record_roundtrip example_rec).
  - done.
  - split; repeat constructor.
  - repeat constructor; vm_compute; intuition congruence.
  - repeat constructor; vm_compute; intuition congruence.
  - vm_compute. reflexivity.
  - reflexivity.
  - reflexivity.
Defined.



(** ** Where the parser goes wrong *)

(** A string with a 16-bit length is counted twice. Parsing a TEXT_STR16
    or URL_STR16 element of [n] bytes returns the right string but advances the
    caller by [3 + 2n] bytes instead of the [3 + n] the element takes. *)
Theorem extract_str16_overcounts (t : Z) (s rest : list Z) (bufsize size : Z)
    (rec : option sdp_record) (fuel : nat)
    (Ht : t = SDP_TEXT_STR16 ∨ t = SDP_URL_STR16) (Hs : Z.of_nat (length s) < 2 ^ 16)
    (Hb : 3 + Z.of_nat (length s) ≤ bufsize < 2 ^ 31) :
  sdp_extract_attr_safe (S fuel) (t :: be_split 2 (Z.of_nat (length s)) ++ s ++ rest) bufsize size rec =
  Ret (Some (SdpData t 0 (VStr (s ++ [0])) (Z.of_nat (length s) + 1)),
       size + (3 + 2 * Z.of_nat (length s)), rec).
Proof.
  assert (extract_str (t :: be_split 2 (Z.of_nat (length s)) ++ s ++ rest) bufsize 0 =
    Ret (Some (SdpData t 0 (VStr (s ++ [0])) (Z.of_nat (length s) + 1)),
         3 + 2 * Z.of_nat (length s))) as He.
  { unfold extract_str. fits. simpl rd8. rewrite outcome_bind_ret, adv_cons. cbv zeta.
    assert ((t =? SDP_TEXT_STR8) || (t =? SDP_URL_STR8) = false ∧
            (t =? SDP_TEXT_STR16) || (t =? SDP_URL_STR16) = true) as [-> ->] by (by destruct Ht as [->| ->]).
    fits. rewrite get_be, outcome_bind_ret. unfold ntohs. rewrite bswap_be by (simpl; lia).
    rewrite adv_app by (by len). rewrite (proj2 (Z.ltb_ge _ _)) by lia.
    rewrite rd_app by lia. rewrite outcome_bind_ret. feq. }
  cbn [sdp_extract_attr_safe]. fits. simpl rd8. rewrite outcome_bind_ret, He.
  by destruct Ht as [->| ->].
Qed.

Lemma extract_str16_overcounts_witness :
  sdp_extract_attr_safe 1 [0x26; 0; 4; 65; 66; 67; 68] 7 0 None =
  Ret (Some (SdpData SDP_TEXT_STR16 0 (VStr [65; 66; 67; 68; 0]) 5), 11, None).
Proof.
  apply (extract_str16_overcounts SDP_TEXT_STR16 [65; 66; 67; 68] [] 7 0 None 0).
  - by left.
  - vm_compute. reflexivity.
  - vm_compute. intuition congruence.
Defined.

(** Which makes the parser read out of bounds. Inside a sequence the
    overcounted bytes make the remaining size negative; the size checks compare
    it as an unsigned number and pass, so the next element is read past the
    nine bytes received. *)
Theorem extract_str16_out_of_bounds (fuel : nat) (Hf : (3 ≤ fuel)%nat) :
  sdp_extract_attr_safe fuel [0x35; 20; 0x26; 0; 4; 65; 66; 67; 68] 9 0 None = Undef.
Proof. do 3 (destruct fuel as [|fuel]; [lia|]). vm_compute. reflexivity. Qed.

Lemma extract_str16_out_of_bounds_witness :
  sdp_extract_attr_safe 3 [0x35; 20; 0x26; 0; 4; 65; 66; 67; 68] 9 0 None = Undef.
Proof. apply (extract_str16_out_of_bounds 3). lia. Defined.

(** A truncated sequence header inside a sequence makes the parser loop
    forever. It is reported as an empty element that took no bytes, so the
    loop over the outer sequence makes no progress: no amount of fuel is
    enough, for any sequence or alternative descriptor and any length byte. *)
Theorem extract_seq_diverges (t n : Z) (size : Z) (rec : option sdp_record) (fuel : nat)
    (Ht : is_seq t || is_alt t = true) (Hn : 0 < n < 256) :
  sdp_extract_attr_safe fuel [SDP_SEQ8; n; t] 3 size rec = NoFuel.
Proof.
  destruct fuel as [|fuel]; [done|].
  assert (∀ r, sdp_extract_attr_safe fuel [t] 1 0 r = NoFuel ∨
               sdp_extract_attr_safe fuel [t] 1 0 r = Ret (Some (SdpData t 0 (VSeq []) 0), 0, r)) as Hin.
  { intros r. destruct fuel as [|fuel]; [by left|right].
    unfold is_seq, is_alt in Ht. split_dtd Ht; by subst. }
  assert (∀ lfuel acc r, extract_seq_loop (sdp_extract_attr_safe fuel) lfuel [t] 1 n 0 acc r = NoFuel) as Hl.
  { induction lfuel as [|lfuel IH]; intros acc r; cbn [extract_seq_loop];
      rewrite (proj2 (Z.ltb_lt _ _)) by lia; [done|].
    destruct (Hin r) as [->| ->]; [done|]. rewrite outcome_bind_ret. apply IH. }
  cbn [sdp_extract_attr_safe]. change (lt_size 3 1) with false. cbv iota. simpl rd8.
  rewrite outcome_bind_ret. change (bool_decide (is_Some (int_width SDP_SEQ8))) with false.
  change (SDP_IS_UUID SDP_SEQ8) with false. change (is_str SDP_SEQ8) with false.
  change (is_seq SDP_SEQ8 || is_alt SDP_SEQ8) with true. cbv iota. unfold extract_seq.
  change (sdp_extract_seqtype_safe [SDP_SEQ8; n; t] 3 0 0) with (Ret (2, SDP_SEQ8, n)).
  rewrite outcome_bind_ret. cbn [Z.eqb Z.ltb]. change (adv 2 [SDP_SEQ8; n; t]) with [t].
  change (3 - 2) with 1. by rewrite Hl.
Qed.

Lemma extract_seq_diverges_witness : sdp_extract_attr_safe 1000 [SDP_SEQ8; 1; SDP_SEQ8] 3 0 None = NoFuel.
Proof. apply (extract_seq_diverges SDP_SEQ8 1 0 None 1000); [reflexivity|lia]. Defined.
