(* ===== verification/SdpAttrs.v ===== *)
(** The typed accessors of libs/src/sdp.c: reading and setting the universal
    attributes of a service record (service classes, protocol stacks,
    languages, profiles, integers, strings) on top of the record operations,
    and the parser of the base UUID string. *)

From stdpp Require Import base list numbers sorting gmap.
From Stdlib Require Import ZArith Lia.
From S2P Require Import Prelude CString SdpTypes SdpList SdpUuid SdpEncode SdpRecord SdpDecode.

Local Open Scope Z_scope.

(** * Reading *)

(** A chain of elements is tested for NULL without being followed. *)
Definition val_null (v : sdp_val) : bool :=
  match v with
  | VStr _ | VSeq (_ :: _) => false
  | v => match val_image v with Ret im => le_join (take 8 im) =? 0 | _ => false end
  end.

(** [seq] is the chain that starts at the protocol UUID. *)
Definition find_port (seq : list sdp_data) (proto : Z) : outcome Z :=
  match seq with
  | [] | [_] => Ret 0
  | d :: port :: _ =>
      if SDP_IS_UUID (dtd d) then
        u ← val_uuid (val d);
        if sdp_uuid_to_proto u =? proto then
          if dtd port =? SDP_UINT8 then val_uint 1 (val port)
          else if dtd port =? SDP_UINT16 then val_uint 2 (val port)
          else Ret 0
        else Ret 0
      else Ret 0
  end.

Fixpoint proto_port_stack (p : list (list sdp_data)) (proto : Z) : outcome Z :=
  match p with
  | [] => Ret 0
  | seq :: p =>
      port ← find_port seq proto;
      if port =? 0 then proto_port_stack p proto else Ret port
  end.

Fixpoint proto_port_loop (l : list (list (list sdp_data))) (proto : Z) : outcome Z :=
  match l with
  | [] => Ret 0
  | p :: l =>
      port ← proto_port_stack p proto;
      if port =? 0 then proto_port_loop l proto else Ret port
  end.

(** A list of protocol stacks, each a list of descriptor chains. *)
Definition sdp_get_proto_port (l : list (list (list sdp_data))) (proto : Z) : outcome Z :=
  if negb (proto =? L2CAP_UUID) && negb (proto =? RFCOMM_UUID) then Ret (-1)
  else proto_port_loop l proto.

(** The chain after the UUID of [proto]; [None] is NULL at the end of the
    search, [Some []] the NULL after the last element. A null descriptor chain
    is dereferenced. *)
Fixpoint proto_desc_stack (p : list (list sdp_data)) (proto : Z) : outcome (option (list sdp_data)) :=
  match p with
  | [] => Ret None
  | [] :: _ => Undef
  | (d :: next) :: p =>
      if SDP_IS_UUID (dtd d) then
        u ← val_uuid (val d);
        if sdp_uuid_to_proto u =? proto then Ret (Some next) else proto_desc_stack p proto
      else proto_desc_stack p proto
  end.

Fixpoint sdp_get_proto_desc (l : list (list (list sdp_data))) (proto : Z)
    : outcome (option (list sdp_data)) :=
  match l with
  | [] => Ret None
  | p :: l =>
      r ← proto_desc_stack p proto;
      match r with
      | Some next => Ret (Some next)
      | None => sdp_get_proto_desc l proto
      end
  end.

(** [for (curr = ...; curr; curr = curr->next) append(..., curr->val.dataseq)] *)
Fixpoint dataseqs (l : list sdp_data) : outcome (list (list sdp_data)) :=
  match l with
  | [] => Ret []
  | d :: l => s ← val_dataseq (val d); r ← dataseqs l; Ret (s :: r)
  end.

Fixpoint proto_stacks (pdlist : list sdp_data) : outcome (list (list (list sdp_data))) :=
  match pdlist with
  | [] => Ret []
  | d :: pdlist =>
      l ← val_dataseq (val d);
      pds ← dataseqs l;
      ap ← proto_stacks pdlist;
      Ret (pds :: ap)
  end.

(** [None] is the result -1 with [errno] set. *)
Definition sdp_get_add_access_protos (rec : sdp_record) : outcome (option (list (list (list sdp_data)))) :=
  match sdp_data_get rec SDP_ATTR_ADD_PROTO_DESC_LIST with
  | None => Ret None
  | Some pdlist => l ← val_dataseq (val pdlist); ap ← proto_stacks l; Ret (Some ap)
  end.

Fixpoint uuidseq_loop (l : list sdp_data) (seqp : list uuid_t) : outcome (option (list uuid_t)) :=
  match l with
  | [] => Ret (Some seqp)
  | d :: l =>
      if (dtd d <? SDP_UUID16) || (SDP_UUID128 <? dtd d) then Ret None
      else u ← val_uuid (val d); uuidseq_loop l (sdp_list_append seqp u)
  end.

Definition sdp_get_uuidseq_attr (rec : sdp_record) (attr : Z) : outcome (option (list uuid_t)) :=
  match sdp_data_get rec attr with
  | None => Ret None
  | Some sdpdata =>
      if (SDP_SEQ8 <=? dtd sdpdata) && (dtd sdpdata <=? SDP_SEQ32) then
        l ← val_dataseq (val sdpdata); uuidseq_loop l []
      else Ret None
  end.

Record sdp_lang_attr := SdpLangAttr { code_ISO639 : Z; encoding : Z; base_offset : Z }.

(** Three elements at a time; a chain whose length is not a multiple of three
    makes the code follow a null pointer. *)
Fixpoint lang_loop (l : list sdp_data) : outcome (list sdp_lang_attr) :=
  match l with
  | [] => Ret []
  | pCode :: pEncoding :: pOffset :: l =>
      c ← val_uint 2 (val pCode);
      e ← val_uint 2 (val pEncoding);
      o ← val_uint 2 (val pOffset);
      r ← lang_loop l;
      Ret (SdpLangAttr c e o :: r)
  | _ => Undef
  end.

Definition sdp_get_lang_attr (rec : sdp_record) : outcome (option (list sdp_lang_attr)) :=
  match sdp_data_get rec SDP_ATTR_LANG_BASE_ATTR_ID_LIST with
  | None => Ret None
  | Some d => l ← val_dataseq (val d); r ← lang_loop l; Ret (Some r)
  end.

Record sdp_profile_desc := SdpProfileDesc { profile_uuid : uuid_t; profile_version : Z }.

(** [while (seq && seq->val.dataseq)]: the UUID alone gets version 0x100. *)
Fixpoint profile_loop (l : list sdp_data) : outcome (list sdp_profile_desc) :=
  match l with
  | [] => Ret []
  | seq :: l =>
      if val_null (val seq) then Ret []
      else if SDP_IS_UUID (dtd seq) then
        u ← val_uuid (val seq);
        r ← profile_loop l;
        Ret (SdpProfileDesc u 0x100 :: r)
      else
        s ← val_dataseq (val seq);
        match s with
        | puuid :: pVnum :: _ =>
            u ← val_uuid (val puuid);
            version ← val_uint 2 (val pVnum);
            r ← profile_loop l;
            Ret (SdpProfileDesc u version :: r)
        | _ => profile_loop l
        end
  end.

Definition sdp_get_profile_descs (rec : sdp_record) : outcome (option (list sdp_profile_desc)) :=
  match sdp_data_get rec SDP_ATTR_PFILE_DESC_LIST with
  | None => Ret None
  | Some d =>
      if val_null (val d) then Ret None
      else l ← val_dataseq (val d); r ← profile_loop l; Ret (Some r)
  end.

(** The result list points into the elements of the attribute. *)
Definition sdp_get_server_ver (rec : sdp_record) : outcome (option (list sdp_val)) :=
  match sdp_data_get rec SDP_ATTR_VERSION_NUM_LIST with
  | None => Ret None
  | Some d => l ← val_dataseq (val d); Ret (Some (map val l))
  end.

Definition sdp_get_int_attr (rec : sdp_record) (attrid : Z) : outcome (option Z) :=
  match sdp_data_get rec attrid with
  | Some d =>
      if (dtd d =? SDP_BOOL) || (dtd d =? SDP_UINT8) || (dtd d =? SDP_UINT16) ||
         (dtd d =? SDP_UINT32) || (dtd d =? SDP_INT8) || (dtd d =? SDP_INT16) || (dtd d =? SDP_INT32)
      then z ← val_uint 4 (val d); Ret (Some (to_i32 z))
      else Ret None
  | None => Ret None
  end.

(** The string copied to [value]; [strlen] and [valuelen] are compared in
    [size_t]. *)
Definition sdp_get_string_attr (rec : sdp_record) (attrid valuelen : Z) : outcome (option (list Z)) :=
  match sdp_data_get rec attrid with
  | Some d =>
      if (dtd d =? SDP_TEXT_STR8) || (dtd d =? SDP_TEXT_STR16) || (dtd d =? SDP_TEXT_STR32) then
        s ← val_str (val d);
        match s with
        | None => Undef
        | Some blk =>
            n ← strlen blk;
            if n <? to_size_t valuelen then Ret (Some (take (Z.to_nat n) blk)) else Ret None
        end
      else Ret None
  | None => Ret None
  end.

(** The macro [get_basic_attr]: [get] reads the member of the union. *)
Definition get_basic_attr {A} (rec : sdp_record) (attr : Z) (get : sdp_val → outcome A)
    : outcome (option A) :=
  match sdp_data_get rec attr with
  | Some d => x ← get (val d); Ret (Some x)
  | None => Ret None
  end.

Definition sdp_get_service_id rec := get_basic_attr rec SDP_ATTR_SERVICE_ID val_uuid.
Definition sdp_get_group_id rec := get_basic_attr rec SDP_ATTR_GROUP_ID val_uuid.
Definition sdp_get_record_state rec := get_basic_attr rec SDP_ATTR_RECORD_STATE (val_uint 4).
Definition sdp_get_service_avail rec := get_basic_attr rec SDP_ATTR_SERVICE_AVAILABILITY (val_uint 1).
Definition sdp_get_service_ttl rec := get_basic_attr rec SDP_ATTR_SVCINFO_TTL (val_uint 4).
Definition sdp_get_database_state rec := get_basic_attr rec SDP_ATTR_SVCDB_STATE (val_uint 4).

(** * Setting *)

(** 0 on success, -1 when the element cannot be allocated. *)
Definition sdp_attr_add_new (rec : sdp_record) (attr t : Z) (value : sdp_ptr)
    : outcome (Z * sdp_record) :=
  d ← sdp_data_alloc t value;
  match d with
  | Some _ => rec ← sdp_attr_replace rec attr d; Ret (0, rec)
  | None => Ret (-1, rec)
  end.

(** A C string as the argument of [sdp_attr_add_new]. *)
Definition cstr (s : option (list Z)) : sdp_ptr :=
  match s with
  | Some p => PMem p
  | None => PNull
  end.

Definition sdp_set_info_attr (rec : sdp_record) (name prov desc : option (list Z))
    : outcome sdp_record :=
  let set attr s rec := match s with
                        | Some _ => r ← sdp_attr_add_new rec attr SDP_TEXT_STR8 (cstr s); Ret r.2
                        | None => Ret rec
                        end in
  rec ← set SDP_ATTR_SVCNAME_PRIMARY name rec;
  rec ← set SDP_ATTR_PROVNAME_PRIMARY prov rec;
  set SDP_ATTR_SVCDESC_PRIMARY desc rec.

Definition sdp_set_url_attr (rec : sdp_record) (client doc icon : option (list Z))
    : outcome sdp_record :=
  r ← sdp_attr_add_new rec SDP_ATTR_CLNT_EXEC_URL SDP_URL_STR8 (cstr client);
  r ← sdp_attr_add_new r.2 SDP_ATTR_DOC_URL SDP_URL_STR8 (cstr doc);
  r ← sdp_attr_add_new r.2 SDP_ATTR_ICON_URL SDP_URL_STR8 (cstr icon);
  Ret r.2.

Definition sdp_set_service_id (rec : sdp_record) (u : uuid_t) : outcome sdp_record :=
  rec ← match u with
        | UuidNone => Ret rec
        | _ => r ← sdp_attr_add_new rec SDP_ATTR_SERVICE_ID (uuid_type u) (PMem (uuid_value u)); Ret r.2
        end;
  Ret (sdp_pattern_add_uuid rec u).

Definition sdp_set_group_id (rec : sdp_record) (u : uuid_t) : outcome sdp_record :=
  rec ← match u with
        | UuidNone => Ret rec
        | _ => r ← sdp_attr_add_new rec SDP_ATTR_GROUP_ID (uuid_type u) (PMem (uuid_value u)); Ret r.2
        end;
  Ret (sdp_pattern_add_uuid rec u).

(** Whether the loop of [sdp_set_uuidseq_attr] leaves [status] at 0: no null
    pointer and no unknown type. *)
Definition uuidseq_status (seq : list (option uuid_t)) : bool :=
  forallb (λ o, match o with None | Some UuidNone => false | _ => true end) seq.

Definition sdp_set_uuidseq_attr (rec : sdp_record) (aid : Z) (seq : list (option uuid_t))
    : outcome (Z * sdp_record) :=
  if sdp_list_len seq =? 0 then Ret (-1, rec)
  else if uuidseq_status seq then
    let l := omap id seq in
    data ← sdp_seq_alloc (map uuid_type l) (map (λ u, PMem (uuid_value u)) l);
    rec ← sdp_attr_replace rec aid data;
    Ret (0, sdp_pattern_add_uuidseq rec l)
  else Ret (-1, rec).

Definition sdp_set_service_classes rec seq := sdp_set_uuidseq_attr rec SDP_ATTR_SVCLASS_ID_LIST seq.
Definition sdp_get_service_classes rec := sdp_get_uuidseq_attr rec SDP_ATTR_SVCLASS_ID_LIST.
Definition sdp_set_browse_groups rec seq := sdp_set_uuidseq_attr rec SDP_ATTR_BROWSE_GRP_LIST seq.
Definition sdp_set_service_ttl rec ttl :=
  sdp_attr_add_new rec SDP_ATTR_SVCINFO_TTL SDP_UINT32 (PMem (le_split 4 ttl)).
Definition sdp_set_record_state rec state :=
  sdp_attr_add_new rec SDP_ATTR_RECORD_STATE SDP_UINT32 (PMem (le_split 4 state)).
Definition sdp_set_service_avail rec avail :=
  sdp_attr_add_new rec SDP_ATTR_SERVICE_AVAILABILITY SDP_UINT8 (PMem (le_split 1 avail)).

(** An entry of a protocol stack: the code is given either a [uuid_t] or an
    [sdp_data_t] and tells them apart by their first byte. *)
Inductive proto_elt :=
  | EltUuid (u : uuid_t)
  | EltData (d : sdp_data).

Definition elt_dtd (e : proto_elt) : Z :=
  match e with
  | EltUuid u => uuid_type u
  | EltData d => dtd d
  end.

(** [values[pslen]] for an element; [None] when no case of the [switch]
    applies and the array keeps what it held. A data element whose first byte
    is a UUID descriptor is taken for a [uuid_t], whose value lies over the
    padding of the element. *)
Definition elt_value (e : proto_elt) : outcome (option sdp_ptr) :=
  match e with
  | EltUuid UuidNone => Ret None
  | EltUuid u => Ret (Some (PMem (uuid_value u)))
  | EltData d =>
      if SDP_IS_UUID (dtd d) then Undef
      else if (dtd d =? SDP_UINT8) || (dtd d =? SDP_UINT16) then
        im ← val_image (val d); Ret (Some (PMem im))
      else if is_seq (dtd d) then Ret (Some (PSeq [d]))
      else Ret None
  end.

(** Stores to the arrays of ten pointers; the loop guard compares with the
    size of the array in bytes. *)
Definition arr_set {A} (a : list A) (i : nat) (x : A) : outcome (list A) :=
  if decide (i < length a)%nat then Ret (<[i := x]> a) else Undef.

Fixpoint proto_elts (elts : list proto_elt) (pslen : nat) (dtds : list Z) (values : list sdp_ptr)
    : outcome (nat * list Z * list sdp_ptr) :=
  match elts with
  | [] => Ret (pslen, dtds, values)
  | e :: elts =>
      if decide (pslen < 80)%nat then
        dtds ← arr_set dtds pslen (elt_dtd e);
        v ← elt_value e;
        values ← match v with
                 | Some v => arr_set values pslen v
                 | None => Ret values
                 end;
        proto_elts elts (S pslen) dtds values
      else Ret (pslen, dtds, values)
  end.

(** The outer loop; an entry [None] of [seqs] was never written. *)
Fixpoint proto_seqs (proto : list (list proto_elt)) (dtds : list Z) (values : list sdp_ptr)
    : outcome (list (option sdp_data)) :=
  match proto with
  | [] => Ret []
  | elts :: proto =>
      r ← proto_elts elts 0 dtds values;
      let '(pslen, dtds, values) := r in
      s ← sdp_seq_alloc (take pslen dtds) (take pslen values);
      seqs ← proto_seqs proto dtds values;
      Ret (s :: seqs)
  end.

(** Array slots nothing was stored to hold a pointer no byte can be read
    through. *)
Definition access_proto_to_dataseq (proto : list (list proto_elt)) : outcome (option sdp_data) :=
  seqs ← proto_seqs proto (replicate 10 0) (replicate 10 (PMem []));
  if decide (Forall is_Some seqs) then
    let seqs := omap id seqs in
    sdp_seq_alloc (map dtd seqs) (map (λ s, PSeq [s]) seqs)
  else Undef.

Fixpoint access_protos_loop (ap : list (list (list proto_elt))) (protos : list sdp_data)
    : outcome (list sdp_data) :=
  match ap with
  | [] => Ret protos
  | p :: ap =>
      seq ← access_proto_to_dataseq p;
      match seq with
      | Some seq => access_protos_loop ap (sdp_seq_append protos seq)
      | None => Undef
      end
  end.

(** The result of [sdp_attr_add] is ignored. *)
Definition sdp_set_add_access_protos (rec : sdp_record) (ap : list (list (list proto_elt)))
    : outcome (Z * sdp_record) :=
  protos ← access_protos_loop ap [];
  d ← match protos with
      | [] => Ret None
      | _ => sdp_data_alloc SDP_SEQ8 (PSeq protos)
      end;
  r ← sdp_attr_add rec SDP_ATTR_ADD_PROTO_DESC_LIST d;
  Ret (0, r.2).

Definition sdp_set_lang_attr (rec : sdp_record) (seq : list (option sdp_lang_attr))
    : outcome (Z * sdp_record) :=
  if decide (Forall is_Some seq) then
    let langs := omap id seq in
    let u16 z := PMem (le_split 2 z) in
    d ← sdp_seq_alloc (replicate (3 * length langs) SDP_UINT16)
          (concat (map (λ l, [u16 (code_ISO639 l); u16 (encoding l); u16 (base_offset l)]) langs));
    r ← sdp_attr_add rec SDP_ATTR_LANG_BASE_ATTR_ID_LIST d;
    Ret (0, r.2)
  else Ret (-1, rec).

(** The loop over the profiles, up to a null pointer: the status, the
    sequences built and the record, whose pattern grows on the way. An unknown
    UUID type leaves [dtds[0]] unset, which [sdp_seq_alloc] reads. *)
Fixpoint profile_seqs (profiles : list (option sdp_profile_desc)) (rec : sdp_record)
    : outcome (bool * list (option sdp_data) * sdp_record) :=
  match profiles with
  | [] => Ret (true, [], rec)
  | None :: _ => Ret (false, [], rec)
  | Some p :: profiles =>
      match profile_uuid p with
      | UuidNone => Undef
      | u =>
          seq ← sdp_seq_alloc [uuid_type u; SDP_UINT16]
                  [PMem (uuid_value u); PMem (le_split 2 (profile_version p))];
          let rec := match seq with Some _ => sdp_pattern_add_uuid rec u | None => rec end in
          r ← profile_seqs profiles rec;
          let '(ok, seqs, rec) := r in
          Ret (ok, seq :: seqs, rec)
      end
  end.

Definition sdp_set_profile_descs (rec : sdp_record) (profiles : list (option sdp_profile_desc))
    : outcome (Z * sdp_record) :=
  r ← profile_seqs profiles rec;
  let '(ok, seqs, rec) := r in
  if ok : bool then
    if decide (Forall is_Some seqs) then
      let seqs := omap id seqs in
      d ← sdp_seq_alloc (map dtd seqs) (map (λ s, PSeq [s]) seqs);
      r ← sdp_attr_add rec SDP_ATTR_PFILE_DESC_LIST d;
      Ret (0, r.2)
    else Undef
  else Ret (-1, rec).

(** * Building sequences *)

(** One iteration of [sdp_seq_alloc] yields the single element [d]. *)
Definition allocs (t : Z) (v : sdp_ptr) (d : sdp_data) : Prop :=
  (if (SDP_SEQ8 <=? t) && (t <=? SDP_ALT32) then ptr_seq v
   else d ← sdp_data_alloc t v; Ret (option_list d)) = Ret [d].

Section seq_alloc.
Context {A : Type} (f : A → Z) (g : A → sdp_ptr) (h : A → sdp_data).

Lemma seq_alloc_loop_all l done chain :
  (length chain ≤ 1)%nat → Forall (λ x, allocs (f x) (g x) (h x)) l →
  seq_alloc_loop (map f l) (map g l) done chain = Ret (Some (done ++ chain ++ map h l)).
Proof using Type.
  intros Hc HF. revert done chain Hc. induction HF as [|x l Hx _ IH]; intros done chain Hc; cbn [map seq_alloc_loop].
  - by rewrite app_nil_r.
  - unfold allocs in Hx. rewrite Hx, outcome_bind_ret, IH by (simpl; lia).
    rewrite take_ge by lia. by rewrite <- app_assoc.
Qed.

Lemma seq_alloc_all l :
  Forall (λ x, allocs (f x) (g x) (h x)) l →
  sdp_seq_alloc (map f l) (map g l) =
  Ret (Some (SdpData SDP_SEQ8 0 (VSeq (map h l)) (1 + 1 + chain_size (map h l)))).
Proof using Type.
  intros HF. unfold sdp_seq_alloc. by rewrite seq_alloc_loop_all by (simpl; lia || done).
Qed.
End seq_alloc.

(** The element of a UUID and of an unsigned 16-bit number. *)
Definition uuid_elt (u : uuid_t) : sdp_data :=
  SdpData (uuid_type u) 0 (VUuid u)
    (match u with UuidNone => 1 | Uuid16 _ => 1 + 2 | Uuid32 _ => 1 + 4 | Uuid128 _ => 1 + 16 end).
Definition u16_elt (z : Z) : sdp_data := SdpData SDP_UINT16 0 (VInt z) (1 + 2).
Definition seq8_elt (l : list sdp_data) : sdp_data := SdpData SDP_SEQ8 0 (VSeq l) (1 + 1 + chain_size l).

Lemma get_le_split n z rest :
  0 ≤ z < 2 ^ (8 * Z.of_nat n) → get_unaligned n (le_split n z ++ rest) = Ret z.
Proof. intros Hz. rewrite get_unaligned_app by by len. by rewrite le_join_split_id. Qed.

Lemma allocs_uuid u : uuid_ok u → allocs (uuid_type u) (PMem (uuid_value u)) (uuid_elt u).
Proof.
  intros Hu. destruct u as [|z|z|bs]; [done|..]; unfold allocs; simpl; unfold sdp_data_alloc; simpl;
    unfold sdp_data_alloc_with_length; simpl.
  - rewrite get_le_split by done. simpl. unfold sdp_uuid16_create, to_u16. by rewrite Z.mod_small.
  - rewrite get_le_split by done. simpl. unfold sdp_uuid32_create, to_u32. by rewrite Z.mod_small.
  - destruct Hu as [Hl _]. unfold sdp_uuid128_create. rewrite rd_ok by lia. simpl. by rewrite take_ge by lia.
Qed.

Lemma allocs_u16 z rest : 0 ≤ z < 2 ^ 16 → allocs SDP_UINT16 (PMem (le_split 2 z ++ rest)) (u16_elt z).
Proof.
  intros Hz. unfold allocs, sdp_data_alloc. simpl. unfold sdp_data_alloc_with_length. simpl.
  by rewrite get_le_split.
Qed.

Lemma allocs_seq t d : (SDP_SEQ8 <=? t) && (t <=? SDP_ALT32) = true → allocs t (PSeq [d]) d.
Proof. intros Ht. unfold allocs. by rewrite Ht. Qed.

(** * UUID sequences *)

Lemma extract_svclass_seq u l c :
  uuid_ok u → extract_svclass_uuid (seq8_elt (map uuid_elt (u :: l))) c = Ret u.
Proof. by destruct u. Qed.

Lemma uuidseq_loop_elts l acc :
  Forall uuid_ok l → uuidseq_loop (map uuid_elt l) acc = Ret (Some (acc ++ l)).
Proof.
  intros HF. revert acc. induction HF as [|u l Hu _ IH]; intros acc; cbn [map uuidseq_loop].
  - by rewrite app_nil_r.
  - assert ((dtd (uuid_elt u) <? SDP_UUID16) || (SDP_UUID128 <? dtd (uuid_elt u)) = false) as ->
      by (by destruct u). simpl. rewrite IH. unfold sdp_list_append. by rewrite <- app_assoc.
Qed.

Lemma omap_id_Some {A} (l : list A) : omap id (map Some l) = l.
Proof. induction l as [|x l IH]; simpl; [done|]. f_equal. exact IH. Qed.

(** UUID lists are stored and found again. Setting a non-empty list of
    UUIDs of any size as the attribute [aid] succeeds, keeps the record
    invariant, and reading the attribute returns that list; every UUID of the
    list becomes part of the search pattern and no other does; and when the
    attribute is the ServiceClassIDList, its first UUID becomes the service
    class of the record. *)
Theorem uuidseq_attr_roundtrip (rec : sdp_record) (aid : Z) (u : uuid_t) (l : list uuid_t)
    (Hok : record_ok rec) (Hl : Forall uuid_ok (u :: l)) :
  ∃ rec', sdp_set_uuidseq_attr rec aid (map Some (u :: l)) = Ret (0, rec') ∧ record_ok rec' ∧
    sdp_get_uuidseq_attr rec' aid = Ret (Some (u :: l)) ∧
    (∀ w, uuid_ok w → has_uuid rec' w ↔
          (∃ x, x ∈ u :: l ∧ uuid_canon x = uuid_canon w) ∨ has_uuid rec w) ∧
    (aid = SDP_ATTR_SVCLASS_ID_LIST → svclass rec' = u).
Proof.
  pose proof (Forall_inv Hl) as Hu.
  destruct (attr_replace_class rec aid (seq8_elt (map uuid_elt (u :: l))) u) as (r1 & Hr1 & Hcls);
    [by apply extract_svclass_seq|].
  destruct (attr_replace_spec _ _ _ _ Hok Hr1) as (Hok1 & Hm & Hp & Hh).
  destruct (pattern_addseq_fields r1 (u :: l)) as (_ & Hal & Hsv).
  exists (sdp_pattern_add_uuidseq r1 (u :: l)). split_and!.
  - unfold sdp_set_uuidseq_attr. rewrite omap_id_Some.
    assert (uuidseq_status (map Some (u :: l)) = true) as ->.
    { apply forallb_forall. intros o Ho. apply list_elem_of_In, list_elem_of_fmap in Ho as (x & -> & Hx).
      rewrite Forall_forall in Hl. specialize (Hl x Hx). by destruct x. }
    rewrite seq_alloc_all with (h := uuid_elt).
    + rewrite outcome_bind_ret. unfold seq8_elt in Hr1. by rewrite Hr1.
    + eapply Forall_impl; [done|]. intros. by apply allocs_uuid.
  - by apply pattern_addseq_ok.
  - unfold sdp_get_uuidseq_attr. rewrite data_get_lookup by (by apply pattern_addseq_ok).
    rewrite Hal, Hm, lookup_insert_eq. simpl dtd. simpl val. cbn [val_dataseq].
    change ((SDP_SEQ8 <=? SDP_SEQ8) && (SDP_SEQ8 <=? SDP_SEQ32)) with true. cbv iota.
    rewrite outcome_bind_ret. by apply (uuidseq_loop_elts (u :: l) []).
  - intros w Hw. rewrite has_uuid_addseq by done. unfold has_uuid. by rewrite Hp.
  - intros ->. by rewrite Hsv, Hcls.
Qed.

Lemma uuidseq_attr_roundtrip_witness :
  ∃ rec', sdp_set_uuidseq_attr sdp_record_alloc 1 [Some (Uuid16 0x1101); Some (Uuid32 0x12345)] = Ret (0, rec') ∧
    sdp_get_uuidseq_attr rec' 1 = Ret (Some [Uuid16 0x1101; Uuid32 0x12345]).
Proof.
  destruct (uuidseq_attr_roundtrip sdp_record_alloc 1 (Uuid16 0x1101) [Uuid32 0x12345])
    as (rec' & H1 & _ & H2 & _).
  - apply record_alloc_ok.
  - repeat constructor; vm_compute; congruence.
  - by exists rec'.
Defined.

(** * Language, profile and protocol lists *)

(** Adding an attribute that is not the ServiceClassIDList. *)
Lemma attr_add_free rec a d :
  record_ok rec → attr_map (attrlist rec) !! a = None → a ≠ SDP_ATTR_SVCLASS_ID_LIST →
  ∃ rec', sdp_attr_add rec a (Some d) = Ret (0, rec') ∧ record_ok rec' ∧
    sdp_data_get rec' a = Some (set_attrId a d) ∧ pattern rec' = pattern rec.
Proof.
  intros Hok Ha Hne. unfold sdp_attr_add. rewrite data_get_lookup, Ha by apply Hok.
  destruct (insert_free rec a d Hok Ha) as [Hok' Hm]. cbv zeta.
  rewrite (proj2 (Z.eqb_neq _ _)) by done. eexists. split_and!; [done|done| |done].
  rewrite data_get_lookup by apply Hok'. simpl. by rewrite Hm, lookup_insert_eq.
Qed.

Lemma attr_add_taken rec a d x :
  record_ok rec → attr_map (attrlist rec) !! a = Some x → sdp_attr_add rec a d = Ret (-1, rec).
Proof. intros Hok Ha. unfold sdp_attr_add. by rewrite data_get_lookup, Ha by apply Hok. Qed.

Definition u16_ok (z : Z) : Prop := 0 ≤ z < 2 ^ 16.
Definition lang_ok (l : sdp_lang_attr) : Prop :=
  u16_ok (code_ISO639 l) ∧ u16_ok (encoding l) ∧ u16_ok (base_offset l).
Definition lang_words (l : list sdp_lang_attr) : list Z :=
  concat (map (λ l, [code_ISO639 l; encoding l; base_offset l]) l).

Lemma val_u16_elt z : u16_ok z → val_uint 2 (val (u16_elt z)) = Ret z.
Proof. intros. apply val_uint_VInt; [lia|done]. Qed.

Lemma lang_loop_words l : Forall lang_ok l → lang_loop (map u16_elt (lang_words l)) = Ret l.
Proof.
  induction 1 as [|[c e o] l (Hc & He & Ho) _ IH]; [done|]. simpl in Hc, He, Ho.
  unfold lang_words. cbn [map concat app lang_loop code_ISO639 encoding base_offset].
  rewrite !val_u16_elt, !outcome_bind_ret by done. fold (lang_words l). by rewrite IH.
Qed.

Lemma allocs_u16_words ws :
  Forall u16_ok ws →
  sdp_seq_alloc (map (λ _, SDP_UINT16) ws) (map (λ z, PMem (le_split 2 z)) ws) =
  Ret (Some (seq8_elt (map u16_elt ws))).
Proof.
  intros HF. apply seq_alloc_all. eapply Forall_impl; [done|]. intros z Hz. simpl.
  rewrite <- (app_nil_r (le_split 2 z)). by apply allocs_u16.
Qed.

Lemma lang_words_ok l : Forall lang_ok l → Forall u16_ok (lang_words l).
Proof.
  unfold lang_words. induction 1 as [|x l (? & ? & ?) _ IH]; simpl; [done|]. constructor; [done|constructor; [done|by constructor]].
Qed.

Lemma lang_words_dtds l :
  replicate (3 * length l) SDP_UINT16 = map (λ _, SDP_UINT16) (lang_words l).
Proof.
  unfold lang_words. induction l as [|x l IH]; simpl; [done|].
  replace (length l + S (length l + S (length l + 0)))%nat with (2 + 3 * length l)%nat by lia.
  simpl. by rewrite <- IH.
Qed.

Lemma lang_words_values l :
  concat (map (λ l, [PMem (le_split 2 (code_ISO639 l)); PMem (le_split 2 (encoding l));
                     PMem (le_split 2 (base_offset l))]) l) =
  map (λ z, PMem (le_split 2 z)) (lang_words l).
Proof. unfold lang_words. induction l as [|x l IH]; simpl; [done|]. by rewrite IH. Qed.

Lemma Forall_is_Some_map {A} (l : list A) : Forall is_Some (map Some l).
Proof. apply Forall_forall. intros o Ho. apply list_elem_of_fmap in Ho as (x & -> & _). eauto. Qed.

(** What [sdp_set_lang_attr] hands to [sdp_attr_add]. *)
Lemma set_lang_attr_eq rec l :
  Forall lang_ok l →
  sdp_set_lang_attr rec (map Some l) =
  (r ← sdp_attr_add rec SDP_ATTR_LANG_BASE_ATTR_ID_LIST (Some (seq8_elt (map u16_elt (lang_words l))));
   Ret (0, r.2)).
Proof.
  intros HF. unfold sdp_set_lang_attr. rewrite decide_True by apply Forall_is_Some_map.
  rewrite omap_id_Some. cbv zeta. rewrite lang_words_dtds, lang_words_values.
  by rewrite allocs_u16_words by by apply lang_words_ok.
Qed.

(** Profiles. *)
Definition profile_ok (p : sdp_profile_desc) : Prop :=
  uuid_ok (profile_uuid p) ∧ u16_ok (profile_version p).
Definition profile_elt (p : sdp_profile_desc) : sdp_data :=
  seq8_elt [uuid_elt (profile_uuid p); u16_elt (profile_version p)].

Lemma profile_alloc u z :
  uuid_ok u → u16_ok z →
  sdp_seq_alloc [uuid_type u; SDP_UINT16] [PMem (uuid_value u); PMem (le_split 2 z)] =
  Ret (Some (profile_elt (SdpProfileDesc u z))).
Proof.
  intros Hu Hz.
  apply (seq_alloc_all (λ b : bool, if b then uuid_type u else SDP_UINT16)
           (λ b, if b then PMem (uuid_value u) else PMem (le_split 2 z))
           (λ b, if b then uuid_elt u else u16_elt z) [true; false]).
  repeat constructor; [by apply allocs_uuid|]. rewrite <- (app_nil_r (le_split 2 z)). by apply allocs_u16.
Qed.

Lemma profile_seqs_eq l rec :
  Forall profile_ok l →
  profile_seqs (map Some l) rec =
  Ret (true, map Some (map profile_elt l), sdp_pattern_add_uuidseq rec (map profile_uuid l)).
Proof.
  intros HF. revert rec. induction HF as [|[u z] l [Hu Hz] _ IH]; intros rec; [done|].
  cbn [map profile_seqs profile_uuid profile_version]. simpl in Hu, Hz.
  destruct u; [done|..]; rewrite profile_alloc, outcome_bind_ret, IH by done; done.
Qed.

Lemma set_profile_descs_eq rec l :
  Forall profile_ok l →
  sdp_set_profile_descs rec (map Some l) =
  (r ← sdp_attr_add (sdp_pattern_add_uuidseq rec (map profile_uuid l)) SDP_ATTR_PFILE_DESC_LIST
         (Some (seq8_elt (map profile_elt l)));
   Ret (0, r.2)).
Proof.
  intros HF. unfold sdp_set_profile_descs. rewrite profile_seqs_eq, outcome_bind_ret by done.
  rewrite decide_True by apply Forall_is_Some_map. cbv zeta. rewrite omap_id_Some.
  rewrite seq_alloc_all with (h := id).
  - by rewrite map_id.
  - apply Forall_forall. intros d Hd. apply list_elem_of_fmap in Hd as (p & -> & _). by apply allocs_seq.
Qed.

Lemma profile_loop_elts l : Forall profile_ok l → profile_loop (map profile_elt l) = Ret l.
Proof.
  induction 1 as [|[u z] l [Hu Hz] _ IH]; [done|]. simpl in Hu, Hz. cbn [map profile_loop].
  assert (val_null (val (profile_elt (SdpProfileDesc u z))) = false) as -> by done.
  assert (SDP_IS_UUID (dtd (profile_elt (SdpProfileDesc u z))) = false) as -> by done.
  cbn [profile_elt seq8_elt val val_dataseq]. rewrite outcome_bind_ret. cbn [profile_uuid profile_version].
  change (val_uuid (val (uuid_elt u))) with (Ret u).
  by rewrite val_u16_elt, !outcome_bind_ret, IH.
Qed.

(** Language and profile descriptors are stored and found again. On a
    record without the attribute, setting the LanguageBaseAttributeIDList or
    the BluetoothProfileDescriptorList succeeds, and reading the attribute
    returns the descriptors that were given, in order, with their 16-bit
    fields and their UUIDs in the size they had. *)
Theorem descriptor_lists_roundtrip (rec : sdp_record) (langs : list sdp_lang_attr)
    (profiles : list sdp_profile_desc) (Hok : record_ok rec)
    (Hlangs : Forall lang_ok langs) (Hprofiles : Forall profile_ok profiles) (Hne : profiles ≠ []) :
  (attr_map (attrlist rec) !! SDP_ATTR_LANG_BASE_ATTR_ID_LIST = None →
   ∃ rec', sdp_set_lang_attr rec (map Some langs) = Ret (0, rec') ∧ record_ok rec' ∧
           sdp_get_lang_attr rec' = Ret (Some langs)) ∧
  (attr_map (attrlist rec) !! SDP_ATTR_PFILE_DESC_LIST = None →
   ∃ rec', sdp_set_profile_descs rec (map Some profiles) = Ret (0, rec') ∧ record_ok rec' ∧
           sdp_get_profile_descs rec' = Ret (Some profiles)).
Proof.
  split; intros Ha.
  - rewrite set_lang_attr_eq by done.
    destruct (attr_add_free rec _ (seq8_elt (map u16_elt (lang_words langs))) Hok Ha)
      as (rec' & -> & Hok' & Hg & _); [done|].
    exists rec'. split_and!; [done|done|]. unfold sdp_get_lang_attr. rewrite Hg.
    cbn [seq8_elt set_attrId val val_dataseq]. by rewrite outcome_bind_ret, lang_loop_words.
  - rewrite set_profile_descs_eq by done.
    destruct (pattern_addseq_fields rec (map profile_uuid profiles)) as (_ & Hal & _).
    pose proof (pattern_addseq_ok rec (map profile_uuid profiles) Hok) as Hok1.
    rewrite <- Hal in Ha.
    destruct (attr_add_free _ _ (seq8_elt (map profile_elt profiles)) Hok1 Ha)
      as (rec' & -> & Hok' & Hg & _); [done|].
    exists rec'. split_and!; [done|done|]. unfold sdp_get_profile_descs. rewrite Hg.
    cbn [seq8_elt set_attrId val val_dataseq]. destruct profiles as [|p profiles]; [done|].
    cbn [map val_null]. change (profile_elt p :: map profile_elt profiles) with (map profile_elt (p :: profiles)).
    by rewrite outcome_bind_ret, profile_loop_elts.
Qed.

Lemma descriptor_lists_roundtrip_witness :
  ∃ rec', sdp_set_lang_attr sdp_record_alloc [Some (SdpLangAttr 0x656e 106 0x100)] = Ret (0, rec') ∧
          record_ok rec' ∧ sdp_get_lang_attr rec' = Ret (Some [SdpLangAttr 0x656e 106 0x100]).
Proof.
  apply (descriptor_lists_roundtrip sdp_record_alloc [SdpLangAttr 0x656e 106 0x100]
           [SdpProfileDesc (Uuid16 0x1108) 0x100]).
  - apply record_alloc_ok.
  - repeat constructor; vm_compute; congruence.
  - repeat constructor; vm_compute; congruence.
  - done.
  - reflexivity.
Defined.

(** The first write wins. The comments above [sdp_set_lang_attr],
    [sdp_set_profile_descs] and the protocol setters promise that the existing
    value is replaced; the functions go through [sdp_attr_add], ignore its
    failure and return 0: on a record that has the attribute, they report
    success and leave every attribute as it was. *)
Theorem descriptor_setters_do_not_replace (rec : sdp_record) (langs : list sdp_lang_attr)
    (profiles : list sdp_profile_desc) (Hok : record_ok rec)
    (Hlangs : Forall lang_ok langs) (Hprofiles : Forall profile_ok profiles) :
  (is_Some (attr_map (attrlist rec) !! SDP_ATTR_LANG_BASE_ATTR_ID_LIST) →
   sdp_set_lang_attr rec (map Some langs) = Ret (0, rec)) ∧
  (is_Some (attr_map (attrlist rec) !! SDP_ATTR_PFILE_DESC_LIST) →
   ∃ rec', sdp_set_profile_descs rec (map Some profiles) = Ret (0, rec') ∧
           attrlist rec' = attrlist rec).
Proof.
  split; intros [x Ha].
  - rewrite set_lang_attr_eq by done. by erewrite attr_add_taken.
  - rewrite set_profile_descs_eq by done.
    destruct (pattern_addseq_fields rec (map profile_uuid profiles)) as (_ & Hal & _).
    rewrite <- Hal in Ha. erewrite attr_add_taken; [|by apply pattern_addseq_ok|done].
    by eexists.
Qed.

Lemma descriptor_setters_do_not_replace_witness :
  let rec := SdpRecord 0 [] [SdpData SDP_SEQ8 6 (VSeq []) 2] UuidNone in
  sdp_set_lang_attr rec [Some (SdpLangAttr 0x656e 106 0x100)] = Ret (0, rec).
Proof.
  intros rec. apply (descriptor_setters_do_not_replace rec [SdpLangAttr 0x656e 106 0x100] []).
  - split; repeat constructor.
  - repeat constructor; vm_compute; congruence.
  - constructor.
  - by eexists.
Defined.

(** ** Protocol stacks *)

(** An entry of a protocol layer: a UUID, or an unsigned 8- or 16-bit port. *)
Definition elt_ok (e : proto_elt) : Prop :=
  match e with
  | EltUuid u => uuid_ok u
  | EltData (SdpData t _ (VInt z) _) =>
      (t = SDP_UINT8 ∧ byte_ok z) ∨ (t = SDP_UINT16 ∧ u16_ok z)
  | EltData _ => False
  end.

(** The element that ends up in the attribute. *)
Definition elt_elt (e : proto_elt) : sdp_data :=
  match e with
  | EltUuid u => uuid_elt u
  | EltData (SdpData t _ v _) => SdpData t 0 v (if t =? SDP_UINT8 then 1 + 1 else 1 + 2)
  end.

Definition elt_ptr (e : proto_elt) : sdp_ptr :=
  match e with
  | EltUuid u => PMem (uuid_value u)
  | EltData (SdpData _ _ (VInt z) _) => PMem (le_split 8 z ++ replicate 8 0)
  | EltData _ => PNull
  end.

Definition layer_ok (l : list proto_elt) : Prop := Forall elt_ok l ∧ (length l ≤ 10)%nat.

Lemma elt_value_ok e : elt_ok e → elt_value e = Ret (Some (elt_ptr e)).
Proof.
  destruct e as [u|[t a v n]]; simpl; [by destruct u|]. destruct v; try done.
  intros [[-> _]|[-> _]]; done.
Qed.

Lemma elt_allocs e : elt_ok e → allocs (elt_dtd e) (elt_ptr e) (elt_elt e).
Proof.
  destruct e as [u|[t a v n]]; simpl; [apply allocs_uuid|]. destruct v as [|z| | | |]; try done.
  intros [[-> Hz]|[-> Hz]]; unfold allocs, sdp_data_alloc, sdp_data_alloc_with_length; simpl.
  - rewrite (le_split_add 1 7), <- app_assoc, get_le_split by done. done.
  - rewrite (le_split_add 2 6), <- app_assoc, get_le_split by done. done.
Qed.

Lemma arr_set_mid {A} (a b c : list A) x y i :
  i = length a → arr_set (a ++ x :: c) i y = Ret (a ++ y :: c).
Proof.
  intros ->. unfold arr_set. rewrite decide_True by (rewrite length_app; simpl; lia).
  by rewrite insert_app_r_alt, Nat.sub_diag by lia.
Qed.

Lemma proto_elts_spec elts a b c d :
  Forall elt_ok elts → length a = length c → length b = length d →
  (length a + length b ≤ 10)%nat → (length elts ≤ length b)%nat →
  ∃ b' d', proto_elts elts (length a) (a ++ b) (c ++ d) =
           Ret ((length a + length elts)%nat, a ++ map elt_dtd elts ++ b', c ++ map elt_ptr elts ++ d') ∧
           length b' = (length b - length elts)%nat ∧ length d' = (length b - length elts)%nat.
Proof.
  intros HF. revert a b c d. induction HF as [|e elts He _ IH]; intros a b c d Hac Hbd Hl Hlen.
  - exists b, d. simpl. rewrite !Nat.add_0_r, Nat.sub_0_r. by rewrite <- Hbd.
  - simpl in Hlen. destruct b as [|x b]; [simpl in Hlen; lia|]. destruct d as [|y d]; [done|].
    simpl in Hbd, Hl, Hlen. cbn [proto_elts]. rewrite decide_True by lia.
    rewrite (arr_set_mid a [] b), outcome_bind_ret, elt_value_ok, outcome_bind_ret by done.
    rewrite (arr_set_mid c [] d), outcome_bind_ret by done.
    destruct (IH (a ++ [elt_dtd e]) b (c ++ [elt_ptr e]) d) as (b' & d' & Heq & Hb' & Hd');
      [len|len|len|lia|].
    exists b', d'. rewrite <- !app_assoc in Heq. rewrite length_app in Heq. simpl length in Heq.
    rewrite Nat.add_1_r in Heq. simpl in Heq |- *. rewrite Heq. split_and!; [feq|lia|lia].
Qed.

Lemma proto_seqs_spec proto dtds values :
  Forall layer_ok proto → length dtds = 10%nat → length values = 10%nat →
  proto_seqs proto dtds values = Ret (map Some (map (λ l, seq8_elt (map elt_elt l)) proto)).
Proof.
  intros HF. revert dtds values. induction HF as [|l proto [Hl Hlen] _ IH]; intros dtds values Hd Hv; [done|].
  cbn [proto_seqs map].
  destruct (proto_elts_spec l [] dtds [] values) as (b' & d' & Heq & Hb' & Hd'); [done|done|lia|simpl; lia|lia|].
  simpl in Heq. rewrite Heq, outcome_bind_ret. cbv beta iota.
  rewrite !take_app_length' by (by rewrite length_map).
  rewrite seq_alloc_all with (h := elt_elt) by (eapply Forall_impl; [done|]; intros; by apply elt_allocs).
  rewrite outcome_bind_ret, IH by (len; rewrite ?length_map; lia). done.
Qed.

Definition stack_elt (p : list (list proto_elt)) : sdp_data :=
  seq8_elt (map (λ l, seq8_elt (map elt_elt l)) p).

Lemma access_proto_spec p : Forall layer_ok p → access_proto_to_dataseq p = Ret (Some (stack_elt p)).
Proof.
  intros HF. unfold access_proto_to_dataseq. rewrite proto_seqs_spec, outcome_bind_ret by done.
  rewrite decide_True by apply Forall_is_Some_map. cbv zeta. rewrite omap_id_Some.
  rewrite seq_alloc_all with (h := id).
  - by rewrite map_id.
  - apply Forall_forall. intros d Hd. apply list_elem_of_fmap in Hd as (l & -> & _). by apply allocs_seq.
Qed.

Lemma access_protos_loop_spec ap acc :
  Forall (Forall layer_ok) ap → access_protos_loop ap acc = Ret (acc ++ map stack_elt ap).
Proof.
  intros HF. revert acc. induction HF as [|p ap Hp _ IH]; intros acc; cbn [access_protos_loop map].
  - by rewrite app_nil_r.
  - rewrite access_proto_spec, outcome_bind_ret, IH by done. unfold sdp_seq_append. by rewrite <- app_assoc.
Qed.

Lemma dataseqs_seq8 ls : dataseqs (map seq8_elt ls) = Ret ls.
Proof. induction ls as [|l ls IH]; simpl; [done|]. by rewrite IH. Qed.

Lemma proto_stacks_elts ap : proto_stacks (map stack_elt ap) = Ret (map (map (map elt_elt)) ap).
Proof.
  induction ap as [|p ap IH]; [done|]. cbn [map proto_stacks stack_elt seq8_elt val val_dataseq].
  rewrite outcome_bind_ret, <- (map_map (map elt_elt) seq8_elt), dataseqs_seq8, outcome_bind_ret.
  by rewrite IH.
Qed.

Lemma set_add_access_protos_spec rec ap :
  record_ok rec → attr_map (attrlist rec) !! SDP_ATTR_ADD_PROTO_DESC_LIST = None →
  ap ≠ [] → Forall (Forall layer_ok) ap →
  ∃ rec', sdp_set_add_access_protos rec ap = Ret (0, rec') ∧ record_ok rec' ∧
    sdp_get_add_access_protos rec' = Ret (Some (map (map (map elt_elt)) ap)).
Proof.
  intros Hok Ha Hne HF. unfold sdp_set_add_access_protos.
  rewrite access_protos_loop_spec, outcome_bind_ret by done. cbn [app].
  destruct (attr_add_free rec SDP_ATTR_ADD_PROTO_DESC_LIST (seq8_elt (map stack_elt ap)) Hok Ha)
    as (rec' & Hadd & Hok' & Hg & _); [done|].
  exists rec'. split_and!; [|done|].
  - destruct ap as [|p ap]; [done|]. cbn [map]. unfold seq8_elt in Hadd. cbn [map] in Hadd.
    change (sdp_data_alloc SDP_SEQ8 (PSeq (stack_elt p :: map stack_elt ap))) with
      (Ret (Some (SdpData SDP_SEQ8 0 (VSeq (stack_elt p :: map stack_elt ap))
                    (1 + 1 + chain_size (stack_elt p :: map stack_elt ap))))).
    by rewrite outcome_bind_ret, Hadd.
  - unfold sdp_get_add_access_protos. rewrite Hg. cbn [seq8_elt set_attrId val val_dataseq].
    by rewrite outcome_bind_ret, proto_stacks_elts.
Qed.

(** The port a layer gives a protocol, 0 for none, and the first of a list of
    stacks. *)
Definition layer_port (proto : Z) (l : list proto_elt) : Z :=
  match l with
  | EltUuid u :: EltData (SdpData _ _ (VInt z) _) :: _ => if sdp_uuid_to_proto u =? proto then z else 0
  | _ => 0
  end.
Definition first_port (proto : Z) (ls : list (list proto_elt)) : Z :=
  default 0 (head (filter (λ p, p ≠ 0) (map (layer_port proto) ls))).

Lemma find_port_elts proto l :
  Forall elt_ok l → find_port (map elt_elt l) proto = Ret (layer_port proto l).
Proof.
  intros HF. destruct l as [|e [|e' l]]; [done|by destruct e|].
  pose proof (Forall_inv HF) as He. pose proof (Forall_inv (Forall_inv_tail HF)) as He'. clear HF.
  cbn [map find_port]. destruct e as [u|[t a v n]]; simpl in He.
  - assert (SDP_IS_UUID (dtd (elt_elt (EltUuid u))) = true) as -> by (by destruct u). simpl.
    destruct e' as [w|[t' a' v' n']]; simpl in He'.
    + destruct (_ =? proto); [|done]. by destruct w.
    + destruct v' as [|z| | | |]; try done. destruct (_ =? proto); [|done].
      destruct He' as [[-> Hz]|[-> Hz]]; simpl; by apply val_uint_VInt; [lia|].
  - destruct v as [|z| | | |]; try done. destruct He as [[-> _]|[-> _]]; done.
Qed.

Lemma proto_port_stack_elts proto p :
  Forall layer_ok p → proto_port_stack (map (map elt_elt) p) proto = Ret (first_port proto p).
Proof.
  unfold first_port. induction 1 as [|l p [Hl _] _ IH]; [done|]. cbn [map proto_port_stack].
  rewrite find_port_elts, outcome_bind_ret, IH by done.
  destruct (Z.eqb_spec (layer_port proto l) 0) as [->|Hne]; [done|].
  by rewrite filter_cons_True.
Qed.

Lemma first_port_app proto p q :
  first_port proto (p ++ q) = if first_port proto p =? 0 then first_port proto q else first_port proto p.
Proof.
  unfold first_port. rewrite map_app, filter_app.
  destruct (filter _ (map (layer_port proto) p)) as [|x k] eqn:Hf; [done|]. simpl.
  assert (x ≠ 0) as Hx.
  { assert (x ∈ x :: k) as Hin by by left. rewrite <- Hf in Hin. by apply list_elem_of_filter in Hin as [? _]. }
  by rewrite (proj2 (Z.eqb_neq _ _)).
Qed.

Lemma proto_port_loop_elts proto ap :
  Forall (Forall layer_ok) ap →
  proto_port_loop (map (map (map elt_elt)) ap) proto = Ret (first_port proto (concat ap)).
Proof.
  induction 1 as [|p ap Hp _ IH]; [done|]. cbn [map proto_port_loop concat].
  rewrite proto_port_stack_elts, outcome_bind_ret, IH, first_port_app by done.
  by destruct (first_port proto p =? 0).
Qed.

(** Protocol stacks are stored and the port is found again. For any
    non-empty list of protocol stacks with at most ten entries per layer, on a
    record without the attribute, [sdp_set_add_access_protos] succeeds,
    [sdp_get_add_access_protos] returns the stacks layer by layer, and
    [sdp_get_proto_port] on them is the first non-zero port of a layer of the
    protocol asked for, whatever the size its UUID was given in. *)
Theorem protocol_stack_roundtrip (rec : sdp_record) (ap : list (list (list proto_elt)))
    (Hok : record_ok rec)
    (Ha : attr_map (attrlist rec) !! SDP_ATTR_ADD_PROTO_DESC_LIST = None)
    (Hne : ap ≠ []) (Hap : Forall (Forall layer_ok) ap) :
  ∃ rec' protos, sdp_set_add_access_protos rec ap = Ret (0, rec') ∧ record_ok rec' ∧
    sdp_get_add_access_protos rec' = Ret (Some protos) ∧ protos = map (map (map elt_elt)) ap ∧
    (∀ proto, proto = L2CAP_UUID ∨ proto = RFCOMM_UUID →
       sdp_get_proto_port protos proto = Ret (first_port proto (concat ap))).
Proof.
  destruct (set_add_access_protos_spec rec ap Hok Ha Hne Hap) as (rec' & H1 & H2 & H3).
  exists rec', (map (map (map elt_elt)) ap). split_and!; try done.
  intros proto Hp. unfold sdp_get_proto_port.
  destruct Hp as [->| ->]; simpl; by apply proto_port_loop_elts.
Qed.

Definition example_stack : list (list proto_elt) :=
  [[EltUuid (Uuid16 L2CAP_UUID)];
   [EltUuid (Uuid32 RFCOMM_UUID); EltData (SdpData SDP_UINT8 0 (VInt 7) 2)]].

Lemma protocol_stack_roundtrip_witness :
  ∃ rec' protos, sdp_set_add_access_protos sdp_record_alloc [example_stack] = Ret (0, rec') ∧
    sdp_get_add_access_protos rec' = Ret (Some protos) ∧ sdp_get_proto_port protos RFCOMM_UUID = Ret 7.
Proof.
  destruct (protocol_stack_roundtrip sdp_record_alloc [example_stack]) as (rec' & protos & H1 & _ & H2 & _ & H3).
  - apply record_alloc_ok.
  - reflexivity.
  - done.
  - repeat constructor; simpl; try lia; vm_compute; intuition congruence.
  - exists rec', protos. split_and!; [done|done|]. rewrite H3 by (by right). vm_compute. reflexivity.
Defined.

(** ** Strings *)

Lemma data_get_wire rec a :
  sdp_data_get (set_attrlist (map wire_attr (attrlist rec)) rec) a = wire_attr <$> sdp_data_get rec a.
Proof.
  unfold sdp_data_get. simpl. induction (attrlist rec) as [|d l IH]; simpl; [done|].
  unfold sdp_attrid_comp_func at 1. unfold wire_attr at 1. rewrite attrId_set.
  change (attrId d - attrId (SdpData 0 a VNull 0)) with (sdp_attrid_comp_func d (SdpData 0 a VNull 0)).
  by destruct (sdp_attrid_comp_func d (SdpData 0 a VNull 0) =? 0).
Qed.

(** A locally set string cannot be read back. [sdp_attr_add_new] stores a
    text string without its terminator, and [sdp_get_string_attr] measures it
    with [strlen], which runs past the end of the block, for every string and
    every buffer size; the same string in a received record, where it is
    terminated, is returned whenever it fits the caller's buffer. *)
Theorem string_attr_needs_terminator (rec : sdp_record) (attr valuelen : Z) (s rest : list Z)
    (Hok : record_ok rec) (Hattr : attr ≠ SDP_ATTR_SVCLASS_ID_LIST)
    (Hs : Forall (λ b, b ≠ 0) s) (Hlen : Z.of_nat (length s) < valuelen ≤ USHRT_MAX) :
  ∃ rec', sdp_attr_add_new rec attr SDP_TEXT_STR8 (PMem (s ++ 0 :: rest)) = Ret (0, rec') ∧
    record_ok rec' ∧ sdp_get_string_attr rec' attr valuelen = Undef ∧
    sdp_get_string_attr
      (set_attrlist (map wire_attr (attrlist rec')) rec') attr valuelen = Ret (Some s).
Proof.
  set (d := SdpData SDP_TEXT_STR8 0 (VStr s) (1 + Z.of_nat (length s))).
  assert (sdp_data_alloc SDP_TEXT_STR8 (PMem (s ++ 0 :: rest)) = Ret (Some d)) as Hd.
  { unfold sdp_data_alloc. simpl. rewrite strlen_terminated by done. simpl.
    unfold sdp_data_alloc_with_length. simpl. unfold USHRT_MAX in *.
    rewrite (proj2 (Z.leb_le _ _)) by lia. rewrite Nat2Z.id, rd_app by done. done. }
  destruct (attr_replace_class rec attr d (svclass rec)) as (rec' & Hr & _); [done|].
  destruct (attr_replace_spec _ _ _ _ Hok Hr) as (Hok' & Hm & _).
  exists rec'. unfold sdp_attr_add_new. rewrite Hd, outcome_bind_ret, Hr. split_and!; [done|done| |].
  - unfold sdp_get_string_attr. rewrite data_get_lookup, Hm, lookup_insert_eq by apply Hok'.
    simpl. by rewrite strlen_unterminated.
  - unfold sdp_get_string_attr. rewrite data_get_wire, data_get_lookup, Hm, lookup_insert_eq by apply Hok'.
    unfold d, wire_attr. simpl.
    replace (1 + Z.of_nat (length s) - 1) with (Z.of_nat (length s)) by lia.
    rewrite Nat2Z.id, firstn_all, strlen_terminated, outcome_bind_ret by done.
    unfold to_size_t, USHRT_MAX in *. rewrite Z.mod_small, (proj2 (Z.ltb_lt _ _)) by lia.
    by rewrite Nat2Z.id, take_app_length.
Qed.

Lemma string_attr_needs_terminator_witness :
  ∃ rec', sdp_attr_add_new sdp_record_alloc SDP_ATTR_SVCNAME_PRIMARY SDP_TEXT_STR8 (PMem [72; 105; 0]) = Ret (0, rec') ∧
    sdp_get_string_attr rec' SDP_ATTR_SVCNAME_PRIMARY 100 = Undef.
Proof.
  destruct (string_attr_needs_terminator sdp_record_alloc SDP_ATTR_SVCNAME_PRIMARY 100 [72; 105] [])
    as (rec' & H1 & _ & H2 & _).
  - apply record_alloc_ok.
  - done.
  - by repeat constructor.
  - vm_compute. intuition congruence.
  - by exists rec'.
Defined.

(** * The base UUID as a string *)

(** The next group of the string: its characters, and what follows the
    separator. A missing separator is a null pointer the code computes with. *)
Definition next_group (p : list Z) : outcome (list Z * list Z) :=
  match strchr p 45 with
  | Some n => Ret (take n p, drop (S n) p)
  | None => Undef
  end.

Definition store_group (p : list Z) : list Z := le_split 4 (htonl (to_u32 (strtoul16 p))).

(** [None] is NULL, for a string not of the form 8-4-4-4-12. *)
Definition sdp_create_base_uuid (baseStr : list Z) : outcome (option (list Z)) :=
  g ← next_group baseStr;
  let '(g1, p) := g in
  if negb (Z.of_nat (length g1) =? 8) then Ret None
  else
    g ← next_group p;
    let '(g2, p) := g in
    if negb (Z.of_nat (length g2) =? 4) then Ret None
    else
      g ← next_group p;
      let '(g3, p) := g in
      if negb (Z.of_nat (length g3) =? 4) then Ret None
      else
        g ← next_group p;
        let '(g4, p) := g in
        if negb (Z.of_nat (length g4) =? 4) then Ret None
        else
          Ret (Some (store_group g1 ++ store_group (g2 ++ g3) ++ store_group (g4 ++ take 4 p) ++
                     store_group (drop 4 p))).

(** ["00000000-0000-1000-8000-00805F9B34FB"] *)
Definition BASE_UUID : list Z :=
  [48;48;48;48;48;48;48;48;45;48;48;48;48;45;49;48;48;48;45;56;48;48;48;45;
   48;48;56;48;53;70;57;66;51;52;70;66].

(** The characters of a UUID in the 8-4-4-4-12 form. *)
Definition uuid_string (bs : list Z) : list Z :=
  hex_bytes (take 4 bs) ++ 45 :: hex_bytes (take 2 (drop 4 bs)) ++ 45 :: hex_bytes (take 2 (drop 6 bs)) ++
  45 :: hex_bytes (take 2 (drop 8 bs)) ++ 45 :: hex_bytes (drop 10 bs).

Lemma store_group_hex bs : Forall byte_ok bs → length bs = 4%nat → store_group (hex_bytes bs) = bs.
Proof.
  intros HF Hl. unfold store_group. rewrite put_htonl, strtoul16_hex by done.
  rewrite <- Hl. by apply be_split_join.
Qed.

Lemma next_group_hex bs rest :
  Forall byte_ok bs → next_group (hex_bytes bs ++ 45 :: rest) = Ret (hex_bytes bs, rest).
Proof.
  intros HF. unfold next_group.
  assert (strchr (hex_bytes bs ++ 45 :: rest) 45 = Some (length (hex_bytes bs))) as ->.
  { induction HF as [|b bs Hb _ IH]; [done|]. destruct (nibbles b Hb) as [H1 H2].
    unfold hex_bytes. cbn [map concat app strchr length].
    rewrite (proj2 (Z.eqb_neq _ _) (proj2 (hex_value_char _ H1))),
      (proj2 (Z.eqb_neq _ _) (proj2 (hex_value_char _ H2))).
    fold (hex_bytes bs). by rewrite IH. }
  by rewrite take_app_length, (app_assoc _ [45] rest : hex_bytes bs ++ 45 :: rest = _),
    drop_app_length' by (rewrite length_app; simpl; lia).
Qed.

Lemma create_base_uuid_groups a b c d e :
  Forall byte_ok (a ++ b ++ c ++ d ++ e) → length a = 4%nat → length b = 2%nat → length c = 2%nat →
  length d = 2%nat → length e = 6%nat →
  sdp_create_base_uuid (hex_bytes a ++ 45 :: hex_bytes b ++ 45 :: hex_bytes c ++ 45 :: hex_bytes d ++
                        45 :: hex_bytes e) = Ret (Some (a ++ b ++ c ++ d ++ e)).
Proof.
  rewrite !Forall_app. intros (Ha & Hb & Hc & Hd & He) La Lb Lc Ld Le. unfold sdp_create_base_uuid.
  rewrite next_group_hex, outcome_bind_ret, length_hex_bytes, La by done.
  rewrite next_group_hex. 2: done. rewrite outcome_bind_ret, length_hex_bytes, Lb.
  rewrite next_group_hex. 2: done. rewrite outcome_bind_ret, length_hex_bytes, Lc.
  rewrite next_group_hex. 2: done. rewrite outcome_bind_ret, length_hex_bytes, Ld. cbv iota beta.
  simpl negb. cbv iota.
  rewrite <- (take_drop 2 e) in He |- *. apply Forall_app in He as [He1 He2].
  assert (length (take 2 e) = 2%nat) as L1 by (rewrite length_take; lia).
  assert (length (drop 2 e) = 4%nat) as L2 by (rewrite length_drop; lia).
  rewrite hex_bytes_app, take_app_length', drop_app_length' by (by rewrite length_hex_bytes, L1).
  rewrite <- !hex_bytes_app, !store_group_hex by (try (apply Forall_app; split); try done; rewrite ?length_app; lia).
  by rewrite <- !app_assoc.
Qed.

(** The base UUID the library starts from is the one its string names.
    [sdp_create_base_uuid] turns the text form of any UUID back into its
    sixteen bytes in network order; on the string of the Bluetooth base UUID
    it gives exactly the constant the conversions add to. *)
Theorem create_base_uuid_correct (bs : list Z) (Hbs : Forall byte_ok bs) (Hlen : length bs = 16%nat) :
  sdp_create_base_uuid (uuid_string bs) = Ret (Some bs) ∧
  sdp_create_base_uuid BASE_UUID = Ret (Some bluetooth_base_uuid).
Proof.
  split; [|vm_compute; reflexivity].
  assert (bs = take 4 bs ++ take 2 (drop 4 bs) ++ take 2 (drop 6 bs) ++ take 2 (drop 8 bs) ++ drop 10 bs) as E.
  { do 17 (destruct bs as [|? bs]; [done|]). done. }
  unfold uuid_string. rewrite create_base_uuid_groups; try (rewrite ?length_take, ?length_drop; lia).
  - by rewrite <- E.
  - by rewrite <- E.
Qed.

Lemma create_base_uuid_correct_witness :
  sdp_create_base_uuid (uuid_string (replicate 16 0xab)) = Ret (Some (replicate 16 0xab)).
Proof.
  apply (create_base_uuid_correct (replicate 16 0xab)); [|reflexivity].
  repeat constructor; vm_compute; congruence.
Defined.
