(* ===== verification/SdpDb.v ===== *)
(** The service repository of the SDP server, utils/sdpd/servicedb.c: the list
    of registered records, the list of the devices they belong to, and the
    index of the records to drop when a client's socket closes. Records are
    shared objects: the three lists, the rest of the server and its clients
    hold pointers to them, so they live in a heap. *)

From stdpp Require Import base list numbers sorting gmap.
From Stdlib Require Import ZArith Lia.
From S2P Require Import Prelude CString SdpTypes SdpList SdpUuid SdpEncode SdpRecord.

Local Open Scope Z_scope.

(** * State *)

(** Addresses of records. An address is not given out twice, so that a
    dangling pointer stays recognisable. *)
Abbreviation loc := positive (only parsing).

Record sdp_access := SdpAccess { acc_handle : Z; acc_device : bdaddr }.
#[export] Instance sdp_access_eq_dec : EqDecision sdp_access.
Proof. solve_decision. Defined.

Record sdp_indexed := SdpIndexed { idx_sock : Z; idx_record : loc }.

Record svcdb := Svcdb {
  heap : gmap loc sdp_record;
  next_loc : loc;
  service_db : list loc;
  access_db : list sdp_access;
  socket_index : list sdp_indexed
}.

Definition set_heap (h : gmap loc sdp_record) (db : svcdb) : svcdb :=
  Svcdb h (next_loc db) (service_db db) (access_db db) (socket_index db).
Definition set_service_db (l : list loc) (db : svcdb) : svcdb :=
  Svcdb (heap db) (next_loc db) l (access_db db) (socket_index db).
Definition set_access_db (l : list sdp_access) (db : svcdb) : svcdb :=
  Svcdb (heap db) (next_loc db) (service_db db) l (socket_index db).
Definition set_socket_index (l : list sdp_indexed) (db : svcdb) : svcdb :=
  Svcdb (heap db) (next_loc db) (service_db db) (access_db db) l.

Definition svcdb_init : svcdb := Svcdb ∅ 1 [] [] [].

(** ** Records in the heap *)

Definition deref (db : svcdb) (p : loc) : outcome sdp_record :=
  match heap db !! p with
  | Some r => Ret r
  | None => Undef
  end.

(** A store through the pointer [p]. *)
Definition modify (db : svcdb) (p : loc) (r : sdp_record) : svcdb := set_heap (<[p := r]> (heap db)) db.

Definition new_record (db : svcdb) (r : sdp_record) : loc * svcdb :=
  (next_loc db,
   Svcdb (<[next_loc db := r]> (heap db)) (Pos.succ (next_loc db)) (service_db db) (access_db db)
     (socket_index db)).

(** [sdp_record_free]; freeing twice is undefined. *)
Definition sdp_record_free (db : svcdb) (p : loc) : outcome svcdb :=
  _ ← deref db p; Ret (set_heap (delete p (heap db)) db).

(** * List operations with a comparison that follows pointers *)

Fixpoint sdp_list_find_m {A} (l : list A) (f : A → outcome Z) : outcome (option A) :=
  match l with
  | [] => Ret None
  | p :: l => c ← f p; if c =? 0 then Ret (Some p) else sdp_list_find_m l f
  end.

Fixpoint sdp_list_insert_sorted_m {A} (l : list A) (d : A) (f : A → outcome Z) : outcome (list A) :=
  match l with
  | [] => Ret [d]
  | p :: l' =>
      c ← f p;
      if c >=? 0 then Ret (d :: l) else r ← sdp_list_insert_sorted_m l' d f; Ret (p :: r)
  end.

(** [rec1->handle - rec2->handle]: an unsigned difference returned as [int]. *)
Definition handle_diff (h1 h2 : Z) : Z := to_i32 (h1 - h2).

Definition record_sort (db : svcdb) (h : Z) (p : loc) : outcome Z :=
  r ← deref db p; Ret (handle_diff (handle r) h).

Definition access_sort (a b : sdp_access) : Z := handle_diff (acc_handle a) (acc_handle b).

Definition compare_indices (a b : sdp_indexed) : Z := to_i32 (idx_sock a - idx_sock b).

(** * Operations *)

Definition sdp_record_add (db : svcdb) (device : bdaddr) (rec : loc) : outcome svcdb :=
  r ← deref db rec;
  l ← sdp_list_insert_sorted_m (service_db db) rec (record_sort db (handle r));
  let dev := SdpAccess (handle r) device in
  Ret (set_access_db (sdp_list_insert_sorted (access_db db) dev access_sort) (set_service_db l db)).

Definition record_locate (db : svcdb) (h : Z) : outcome (option loc) :=
  sdp_list_find_m (service_db db) (record_sort db h).

Definition access_locate (db : svcdb) (h : Z) : option sdp_access :=
  sdp_list_find (access_db db) (SdpAccess h []) access_sort.

Definition sdp_record_find (db : svcdb) (h : Z) : outcome (option loc) := record_locate db h.

Definition sdp_record_remove (db : svcdb) (h : Z) : outcome (Z * svcdb) :=
  p ← record_locate db h;
  match p with
  | None => Ret (-1, db)
  | Some r =>
      let db := set_service_db (sdp_list_remove (service_db db) r) db in
      match access_locate db h with
      | Some a => Ret (0, set_access_db (sdp_list_remove (access_db db) a) db)
      | None => Ret (0, db)
      end
  end.

Definition sdp_get_record_list (db : svcdb) : list loc := service_db db.
Definition sdp_get_access_list (db : svcdb) : list sdp_access := access_db db.

(** Whether [device] may see the record. *)
Definition sdp_check_access (db : svcdb) (h : Z) (device : bdaddr) : bool :=
  match access_locate db h with
  | None => true
  | Some a =>
      negb (negb (bacmp (acc_device a) device =? 0) && negb (bacmp (acc_device a) BDADDR_ANY =? 0) &&
            negb (bacmp device BDADDR_ANY =? 0))
  end.

Fixpoint next_handle_loop (fuel : nat) (db : svcdb) (h : Z) : outcome Z :=
  match fuel with
  | O => NoFuel
  | S fuel =>
      p ← sdp_record_find db h;
      match p with
      | Some _ => next_handle_loop fuel db (to_u32 (h + 1))
      | None => Ret h
      end
  end.

(** One more probe than there are records is enough. *)
Definition sdp_next_handle (db : svcdb) : outcome Z :=
  next_handle_loop (S (length (service_db db))) db 0x10000.

Definition sdp_svcdb_set_collectable (db : svcdb) (rec : loc) (sock : Z) : svcdb :=
  set_socket_index (sdp_list_insert_sorted (socket_index db) (SdpIndexed sock rec) compare_indices) db.

(** Unlink the first index entry of the record. *)
Fixpoint collect_loop (l : list sdp_indexed) (rec : loc) : list sdp_indexed :=
  match l with
  | [] => []
  | item :: l => if decide (rec = idx_record item) then l else item :: collect_loop l rec
  end.

Definition sdp_svcdb_collect (db : svcdb) (rec : loc) : svcdb :=
  set_socket_index (collect_loop (socket_index db) rec) db.

(** The walk over the index: [q] holds the entries before [p], which stay. *)
Fixpoint collect_all_loop (db : svcdb) (sock : Z) (q p : list sdp_indexed) : outcome svcdb :=
  match p with
  | [] => Ret (set_socket_index q db)
  | item :: next =>
      if idx_sock item =? sock then
        r ← deref db (idx_record item);
        res ← sdp_record_remove db (handle r);
        db ← sdp_record_free res.2 (idx_record item);
        collect_all_loop db sock q next
      else if sock <? idx_sock item then Ret (set_socket_index (q ++ p) db)
      else collect_all_loop db sock (q ++ [item]) next
  end.

Definition sdp_svcdb_collect_all (db : svcdb) (sock : Z) : outcome svcdb :=
  collect_all_loop db sock [] (socket_index db).

(** * Invariant and abstraction *)

Definition handle_of (db : svcdb) (p : loc) : Z :=
  match heap db !! p with
  | Some r => handle r
  | None => 0
  end.

Definition handles (db : svcdb) : list Z := map (handle_of db) (service_db db).

(** The repository as a map from handles to records, and to their devices. *)
Definition db_map (db : svcdb) : gmap Z loc :=
  list_to_map (map (λ p, (handle_of db p, p)) (service_db db)).
Definition access_map (db : svcdb) : gmap Z bdaddr :=
  list_to_map (map (λ a, (acc_handle a, acc_device a)) (access_db db)).

Definition u32_ok (z : Z) : Prop := 0 ≤ z < 2 ^ 32.

(** Every registered record is alive, handles are unique, and every record has
    exactly one access entry. *)
Record db_ok (db : svcdb) : Prop := DbOk {
  db_live : Forall (λ p, ∃ r, heap db !! p = Some r ∧ u32_ok (handle r)) (service_db db);
  db_nodup : NoDup (handles db);
  db_access : map acc_handle (access_db db) ≡ₚ handles db;
  db_next : ∀ p, is_Some (heap db !! p) → (p < next_loc db)%positive
}.

(** Index entries point to registered records, one entry per record, in the
    order of the sockets. *)
Definition index_ok (db : svcdb) : Prop :=
  Forall (λ i, idx_record i ∈ service_db db) (socket_index db) ∧
  NoDup (map idx_record (socket_index db)) ∧
  StronglySorted (λ i j, idx_sock i ≤ idx_sock j) (socket_index db).

Lemma handle_diff_zero h1 h2 : u32_ok h1 → u32_ok h2 → handle_diff h1 h2 = 0 ↔ h1 = h2.
Proof.
  unfold u32_ok, handle_diff, to_i32. intros H1 H2. split; [|intros ->; by rewrite Z.sub_diag].
  intros H. destruct (decide (h1 - h2 + 2 ^ 31 < 0)).
  - rewrite <- (Z.mod_add _ 1) in H by lia. rewrite Z.mod_small in H; lia.
  - destruct (decide (2 ^ 32 ≤ h1 - h2 + 2 ^ 31)).
    + rewrite <- (Z.mod_add _ (-1)) in H by lia. rewrite Z.mod_small in H; lia.
    + rewrite Z.mod_small in H; lia.
Qed.

Lemma record_find_spec db h :
  Forall (λ p, ∃ r, heap db !! p = Some r ∧ u32_ok (handle r)) (service_db db) → u32_ok h →
  sdp_record_find db h = Ret (db_map db !! h).
Proof.
  intros HF Hh. unfold sdp_record_find, record_locate, db_map.
  induction HF as [|p l (r & Hp & Hr) _ IH]; cbn [sdp_list_find_m map]; [done|].
  unfold record_sort, deref, handle_of at 1. rewrite Hp. simpl.
  destruct (Z.eqb_spec (handle_diff (handle r) h) 0) as [E|E].
  - apply handle_diff_zero in E as <-; [|done|done]. by rewrite lookup_insert_eq.
  - rewrite lookup_insert_ne by (intros <-; by apply E, handle_diff_zero). apply IH.
Qed.

Lemma keys_map {A B} (f : A → Z) (g : A → B) l : (map (λ x, (f x, g x)) l).*1 = map f l.
Proof. induction l as [|x l IH]; simpl; [done|]. by f_equal. Qed.

Lemma db_map_keys db : (map (λ p, (handle_of db p, p)) (service_db db)).*1 = handles db.
Proof. apply keys_map. Qed.

Lemma db_map_lookup db h p :
  NoDup (handles db) → db_map db !! h = Some p ↔ p ∈ service_db db ∧ handle_of db p = h.
Proof.
  intros Hnd. unfold db_map. rewrite <- elem_of_list_to_map.
  - rewrite list_elem_of_fmap. split.
    + intros (q & [= -> ->] & Hq). done.
    + intros [Hp <-]. by exists p.
  - by rewrite db_map_keys.
Qed.

Lemma handles_lookup db h : h ∈ handles db ↔ ∃ p, p ∈ service_db db ∧ handle_of db p = h.
Proof. unfold handles. rewrite list_elem_of_fmap. naive_solver. Qed.

Lemma db_map_is_Some db h : NoDup (handles db) → is_Some (db_map db !! h) ↔ h ∈ handles db.
Proof.
  intros Hnd. rewrite handles_lookup. unfold is_Some. by setoid_rewrite db_map_lookup.
Qed.

(** ** Adding *)

Lemma insert_sorted_m_perm {A} (l : list A) d f :
  Forall (λ p, ∃ c, f p = Ret c) l → ∃ l', sdp_list_insert_sorted_m l d f = Ret l' ∧ l' ≡ₚ d :: l.
Proof.
  induction 1 as [|p l [c Hc] _ (l' & IH & Hp)]; cbn [sdp_list_insert_sorted_m]; [by eexists|].
  rewrite Hc, outcome_bind_ret. case_match; [by eexists|]. rewrite IH. eexists. split; [done|].
  rewrite Hp. by constructor.
Qed.

(** Operations that keep the heap keep what the pointers mean. *)
Lemma handle_of_heap db db' : heap db' = heap db → handle_of db' = handle_of db.
Proof. intros H. unfold handle_of. by rewrite H. Qed.

Lemma record_add_spec db dev p r :
  db_ok db → heap db !! p = Some r → u32_ok (handle r) → db_map db !! handle r = None →
  ∃ db', sdp_record_add db dev p = Ret db' ∧ db_ok db' ∧
    db_map db' = <[handle r := p]> (db_map db) ∧
    access_map db' = <[handle r := dev]> (access_map db) ∧
    service_db db' ≡ₚ p :: service_db db ∧ heap db' = heap db ∧ next_loc db' = next_loc db ∧
    socket_index db' = socket_index db.
Proof.
  intros [Hl Hn Ha Hx] Hp Hr Hm. unfold sdp_record_add, deref. rewrite Hp. simpl.
  destruct (insert_sorted_m_perm (service_db db) p (record_sort db (handle r))) as (l' & -> & Hperm).
  { eapply Forall_impl; [done|]. intros q (rq & Hq & _). unfold record_sort, deref. rewrite Hq. by eexists. }
  simpl. eexists. split; [done|].
  set (db' := set_access_db _ _).
  assert (handle_of db' = handle_of db) as Hho by by apply handle_of_heap.
  assert (handles db' ≡ₚ handle r :: handles db) as Hh.
  { unfold handles. rewrite Hho. simpl. change fmap with map. rewrite Hperm. simpl.
    unfold handle_of at 1. by rewrite Hp. }
  assert (handle r ∉ handles db) as Hfresh.
  { rewrite <- db_map_is_Some by done. rewrite Hm. by intros [? ?]. }
  assert (NoDup (handles db')) as Hn' by (rewrite Hh; by constructor).
  assert (map acc_handle (access_db db') ≡ₚ handle r :: map acc_handle (access_db db)) as Hacc.
  { simpl. by rewrite insert_sorted_perm. }
  split_and!; try done.
  - split; try done.
    + simpl. rewrite Hperm. constructor; [by exists r|]. eapply Forall_impl; [done|]. done.
    + by rewrite Hacc, Hh, Ha.
  - unfold db_map. rewrite Hho. rewrite (list_to_map_proper _ (map (λ p, (handle_of db p, p)) (p :: service_db db))).
    + simpl. unfold handle_of at 1. by rewrite Hp.
    + rewrite keys_map, <- Hho. exact Hn'.
    + simpl service_db. by rewrite Hperm.
  - unfold access_map. rewrite (list_to_map_proper _ (map (λ a, (acc_handle a, acc_device a))
      (SdpAccess (handle r) dev :: access_db db))).
    + done.
    + rewrite keys_map, Hacc, Ha. by constructor.
    + simpl. by rewrite insert_sorted_perm.
Qed.

(** ** Removing *)

(** Deleting the entry of a record from a list of keyed entries. *)
Lemma list_to_map_remove {A B} (f : A → Z) (g : A → B) l l' x :
  l ≡ₚ x :: l' → NoDup (map f l) →
  list_to_map (map (λ y, (f y, g y)) l') =@{gmap Z B} delete (f x) (list_to_map (map (λ y, (f y, g y)) l)).
Proof.
  intros Hp Hn. rewrite (list_to_map_proper (map _ l) (map (λ y, (f y, g y)) (x :: l'))).
  - simpl. rewrite delete_insert_id; [done|]. apply not_elem_of_list_to_map. rewrite keys_map.
    rewrite Hp in Hn. simpl in Hn. by inversion Hn.
  - by rewrite keys_map.
  - by rewrite Hp.
Qed.

Lemma access_locate_spec db h :
  db_ok db → u32_ok h →
  match access_locate db h with
  | Some a => a ∈ access_db db ∧ acc_handle a = h
  | None => h ∉ handles db
  end.
Proof.
  intros [Hl Hn Ha Hx] Hh.
  assert (∀ a, a ∈ access_db db → u32_ok (acc_handle a)) as Hu.
  { intros a Hin. assert (acc_handle a ∈ handles db) as Hin'.
    { rewrite <- Ha. apply list_elem_of_fmap. by exists a. }
    apply handles_lookup in Hin' as (p & Hp & Hph). rewrite Forall_forall in Hl.
    destruct (Hl p Hp) as (r & Hr & Hur). unfold handle_of in Hph. rewrite Hr in Hph. by rewrite <- Hph. }
  unfold access_locate. destruct (sdp_list_find (access_db db) (SdpAccess h []) access_sort) as [a|] eqn:Hf.
  - apply find_Some in Hf as [Hin Hs]. split; [done|]. unfold access_sort in Hs. simpl in Hs.
    by apply (handle_diff_zero _ _ (Hu a Hin) Hh).
  - rewrite find_None in Hf. rewrite <- Ha. intros (a & Hah & Hin)%list_elem_of_fmap.
    apply (Hf a Hin). unfold access_sort. simpl. apply handle_diff_zero; [by apply Hu|done|done].
Qed.

Lemma record_remove_spec db h :
  db_ok db → u32_ok h →
  match db_map db !! h with
  | None => sdp_record_remove db h = Ret (-1, db)
  | Some p => ∃ db', sdp_record_remove db h = Ret (0, db') ∧ db_ok db' ∧
      db_map db' = delete h (db_map db) ∧ access_map db' = delete h (access_map db) ∧
      service_db db' = sdp_list_remove (service_db db) p ∧ heap db' = heap db ∧
      next_loc db' = next_loc db ∧ socket_index db' = socket_index db
  end.
Proof.
  intros Hok Hh. pose proof Hok as [Hl Hn Ha Hx]. unfold sdp_record_remove.
  change (record_locate db h) with (sdp_record_find db h). rewrite record_find_spec by done.
  destruct (db_map db !! h) as [p|] eqn:Hm; simpl; [|done].
  apply db_map_lookup in Hm as [Hp Hph]; [|done].
  pose proof (remove_perm (service_db db) p Hp) as Hperm.
  pose proof (access_locate_spec db h Hok Hh) as Hloc.
  change (access_locate (set_service_db _ db) h) with (access_locate db h).
  destruct (access_locate db h) as [a|].
  2: { exfalso. apply Hloc, handles_lookup. eauto. }
  destruct Hloc as [Hin Hah]. pose proof (remove_perm (access_db db) a Hin) as Hpa.
  eexists. split; [done|]. set (db' := set_access_db _ _).
  assert (handle_of db' = handle_of db) as Hho by by apply handle_of_heap.
  assert (handles db ≡ₚ h :: handles db') as Hh'.
  { unfold handles at 1. rewrite Hperm. simpl. rewrite Hph. unfold handles. by rewrite Hho. }
  split_and!; try done.
  - rewrite Hperm in Hl. apply Forall_cons_iff in Hl as [_ Hl]. split; try done.
    + rewrite Hh' in Hn. by inversion Hn.
    + rewrite Hpa, Hh' in Ha. simpl in Ha. rewrite Hah in Ha. by apply Permutation_cons_inv in Ha.
  - unfold db_map. rewrite Hho, <- Hph. by apply list_to_map_remove.
  - unfold access_map. rewrite <- Hah. apply list_to_map_remove; [done|]. by rewrite Ha.
Qed.

(** ** Access *)

Lemma access_map_lookup db h d :
  db_ok db → access_map db !! h = Some d ↔ SdpAccess h d ∈ access_db db.
Proof.
  intros [_ Hn Ha _]. unfold access_map. rewrite <- elem_of_list_to_map.
  - rewrite list_elem_of_fmap. split.
    + by intros ([? ?] & [= -> ->] & ?).
    + intros Hin. by exists (SdpAccess h d).
  - by rewrite keys_map, Ha.
Qed.

Lemma check_access_spec db h dev :
  db_ok db → u32_ok h →
  sdp_check_access db h dev = true ↔
  ∀ d, access_map db !! h = Some d → d = dev ∨ d = BDADDR_ANY ∨ dev = BDADDR_ANY.
Proof.
  intros Hok Hh. unfold sdp_check_access, bacmp. pose proof (access_locate_spec db h Hok Hh) as Hloc.
  destruct (access_locate db h) as [[k a]|]; simpl.
  - destruct Hloc as [Hin Hk]. simpl in Hk. subst k. apply access_map_lookup in Hin; [|done].
    rewrite Hin, !negb_andb, !negb_involutive, !orb_true_iff, !Z.eqb_eq, !memcmp_eq. naive_solver.
  - split; [|done]. intros _ d Hd. apply access_map_lookup in Hd; [|done]. exfalso.
    apply Hloc. rewrite <- (db_access db Hok). apply list_elem_of_fmap. by exists (SdpAccess h d).
Qed.

(** ** Fresh handles *)

Lemma next_handle_loop_spec db fuel h :
  db_ok db → 0x10000 ≤ h → (∀ k, 0x10000 ≤ k < h → k ∈ handles db) →
  Z.of_nat (length (service_db db)) < h - 0x10000 + Z.of_nat fuel →
  h + Z.of_nat fuel ≤ 2 ^ 32 →
  ∃ h', next_handle_loop fuel db h = Ret h' ∧ h ≤ h' < 2 ^ 32 ∧ (h' ∉ handles db) ∧
        (∀ k, 0x10000 ≤ k < h' → k ∈ handles db).
Proof.
  intros Hok. revert h. induction fuel as [|fuel IH]; intros h Hge Hk Hlen Hmax.
  - exfalso. assert (seqZ 0x10000 (h - 0x10000) ⊆+ handles db) as Hsub.
    { apply NoDup_submseteq; [apply NoDup_seqZ|]. intros k Hin%elem_of_seqZ. apply Hk. lia. }
    apply submseteq_length in Hsub. rewrite length_seqZ in Hsub. unfold handles in Hsub.
    rewrite length_map in Hsub. lia.
  - cbn [next_handle_loop]. rewrite record_find_spec by (apply Hok || (split; lia)).
    rewrite outcome_bind_ret. destruct (db_map db !! h) as [p|] eqn:Hm.
    + unfold to_u32. destruct (decide (fuel = 0%nat)) as [->|].
      * exfalso. assert (seqZ 0x10000 (h + 1 - 0x10000) ⊆+ handles db) as Hsub.
        { apply NoDup_submseteq; [apply NoDup_seqZ|]. intros k Hin%elem_of_seqZ.
          destruct (decide (k = h)) as [->|]; [|apply Hk; lia].
          apply db_map_is_Some; [apply Hok|eauto]. }
        apply submseteq_length in Hsub. rewrite length_seqZ in Hsub. unfold handles in Hsub.
        rewrite length_map in Hsub. lia.
      * rewrite Z.mod_small by lia. destruct (IH (h + 1)) as (h' & -> & Hr & Hf & Hall); try lia.
        { intros k Hin. destruct (decide (k = h)) as [->|]; [|apply Hk; lia].
          apply db_map_is_Some; [apply Hok|eauto]. }
        exists h'. split_and!; try done; lia.
    + exists h. split_and!; try done; try lia. rewrite <- db_map_is_Some by apply Hok.
      rewrite Hm. by intros [? ?].
Qed.

(** ** Collecting the records of a socket *)

Lemma remove_filter {A} `{EqDecision A} (l : list A) d :
  NoDup l → sdp_list_remove l d = filter (λ x, x ≠ d) l.
Proof.
  induction 1 as [|x l Hx Hn IH]; [done|]. simpl. case_decide as Hd.
  - subst. rewrite filter_cons_False by tauto. symmetry. apply filter_all.
    intros y Hy ->. done.
  - rewrite filter_cons_True by done. by rewrite IH.
Qed.

Lemma db_ok_nodup db : db_ok db → NoDup (service_db db).
Proof. intros [_ Hn _ _]. unfold handles in Hn. by apply NoDup_fmap_1 in Hn. Qed.

Lemma db_ok_live db : db_ok db → Forall (λ p, is_Some (heap db !! p)) (service_db db).
Proof. intros [Hl _ _ _]. eapply Forall_impl; [exact Hl|]. intros p (r & Hr & _). eauto. Qed.

(** A change of the heap outside the registered records. *)
Lemma db_ok_heap db h :
  db_ok db → (∀ p, p ∈ service_db db → h !! p = heap db !! p) →
  (∀ p, is_Some (h !! p) → (p < next_loc db)%positive) → db_ok (set_heap h db).
Proof.
  intros [Hl Hn Ha Hx] Hh Hnx.
  assert (handles (set_heap h db) = handles db) as Hhs.
  { unfold handles. apply list_fmap_ext. intros i p Hp. unfold handle_of. simpl.
    by rewrite Hh by by eapply list_elem_of_lookup_2. }
  split; simpl; try done; [|by rewrite Hhs..].
  rewrite Forall_forall in Hl |- *. intros p Hp. rewrite Hh by done. by apply Hl.
Qed.

Lemma db_ok_free db p : db_ok db → p ∉ service_db db → db_ok (set_heap (delete p (heap db)) db).
Proof.
  intros Hok Hp. apply db_ok_heap; [done| |].
  - intros q Hq. apply lookup_delete_ne. by intros ->.
  - intros q. rewrite lookup_delete. case_decide; [by intros [? ?]|]. apply Hok.
Qed.

(** Changing a record in place, when its handle stays or it is not registered. *)
Lemma modify_spec db p r r' :
  db_ok db → heap db !! p = Some r → handle r' = handle r ∨ p ∉ service_db db →
  db_ok (modify db p r') ∧ db_map (modify db p r') = db_map db ∧
  access_map (modify db p r') = access_map db.
Proof.
  intros Hok Hp Hr. unfold modify.
  assert (∀ q, q ∈ service_db db → handle_of (set_heap (<[p := r']> (heap db)) db) q = handle_of db q) as Hho.
  { intros q Hq. unfold handle_of. simpl. rewrite lookup_insert. case_decide as E; [subst q|done].
    rewrite Hp. destruct Hr as [Hr|Hr]; [congruence|done]. }
  assert (handles (set_heap (<[p := r']> (heap db)) db) = handles db) as Hhs.
  { unfold handles. apply list_fmap_ext. intros i q Hq. apply Hho. by eapply list_elem_of_lookup_2. }
  pose proof Hok as [Hl Hn Ha Hx]. split_and!; [split|..].
  - rewrite Forall_forall in Hl |- *. intros q Hq. simpl. rewrite lookup_insert. case_decide as E.
    + subst q. exists r'. split; [done|]. destruct Hr as [->|Hr]; [|by destruct Hr].
      destruct (Hl p Hq) as (r1 & H1 & Hu). rewrite Hp in H1. by simplify_eq.
    + by apply Hl.
  - by rewrite Hhs.
  - by rewrite Hhs.
  - simpl. intros q. rewrite lookup_insert. case_decide as E; [subst|apply Hx]. intros _. apply Hx. eauto.
  - unfold db_map. f_equal. apply list_fmap_ext. intros i q Hq. f_equal. apply Hho.
    by eapply list_elem_of_lookup_2.
  - done.
Qed.

(** The records of the index entries of a socket. *)
Definition doomed (sock : Z) (l : list sdp_indexed) : list loc :=
  map idx_record (filter (λ i, idx_sock i = sock) l).

Lemma doomed_later sock l :
  Forall (λ i, sock < idx_sock i) l → doomed sock l = [] ∧ filter (λ i, idx_sock i ≠ sock) l = l.
Proof.
  unfold doomed. induction 1 as [|i l Hi _ [IH1 IH2]]; [done|].
  rewrite filter_cons_False, filter_cons_True by lia. by rewrite IH1, IH2.
Qed.

(** What an iteration does with a record of the socket. *)
Lemma remove_and_free db x :
  db_ok db → x ∈ service_db db →
  ∃ r, heap db !! x = Some r ∧ ∃ db1 db2, deref db x = Ret r ∧
    sdp_record_remove db (handle r) = Ret (0, db1) ∧ sdp_record_free db1 x = Ret db2 ∧ db_ok db2 ∧
    service_db db2 = filter (λ y, y ≠ x) (service_db db) ∧
    (∀ y, heap db2 !! y = if decide (y = x) then None else heap db !! y).
Proof.
  intros Hok Hx. pose proof Hok as [Hl Hn Ha _]. rewrite Forall_forall in Hl.
  destruct (Hl x Hx) as (r & Hr & Hu). exists r. split; [done|].
  pose proof (record_remove_spec db (handle r) Hok Hu) as Hrm.
  assert (db_map db !! handle r = Some x) as Hm.
  { apply db_map_lookup; [done|]. split; [done|]. unfold handle_of. by rewrite Hr. }
  rewrite Hm in Hrm. destruct Hrm as (db1 & H1 & Hok1 & _ & _ & Hsd & Hh & _).
  rewrite remove_filter in Hsd by by apply db_ok_nodup.
  exists db1, (set_heap (delete x (heap db1)) db1). unfold sdp_record_free, deref. rewrite Hh, Hr.
  split_and!; try done.
  - rewrite <- Hh. apply db_ok_free; [done|]. rewrite Hsd, list_elem_of_filter. tauto.
  - intros y. simpl. rewrite lookup_delete. repeat case_decide; congruence.
Qed.

Lemma collect_all_loop_spec sock p : ∀ db q,
  db_ok db → Forall (λ i, idx_record i ∈ service_db db) p → NoDup (map idx_record p) →
  StronglySorted (λ i j, idx_sock i ≤ idx_sock j) p →
  ∃ db', collect_all_loop db sock q p = Ret db' ∧ db_ok db' ∧
    socket_index db' = q ++ filter (λ i, idx_sock i ≠ sock) p ∧
    service_db db' = filter (λ x, x ∉ doomed sock p) (service_db db) ∧
    (∀ x, heap db' !! x = if decide (x ∈ doomed sock p) then None else heap db !! x).
Proof.
  induction p as [|i p IH]; intros db q Hok Hin Hnd Hs; cbn [collect_all_loop].
  { exists (set_socket_index q db). split_and!; try done.
    - by destruct Hok.
    - simpl. by rewrite app_nil_r.
    - simpl. symmetry. apply filter_all. intros x _ Hx. by apply elem_of_nil in Hx. }
  apply Forall_cons_iff in Hin as [Hi Hin]. apply NoDup_cons in Hnd as [Hni Hnd].
  inversion Hs as [|? ? Hs' Hle]; subst.
  destruct (Z.eqb_spec (idx_sock i) sock) as [E|E].
  - destruct (remove_and_free db (idx_record i) Hok Hi) as (r & Hr & db1 & db2 & Hd & Hrm & Hf & Hok2 & Hsd & Hhp).
    rewrite Hd, outcome_bind_ret, Hrm, outcome_bind_ret. cbn [snd]. rewrite Hf, outcome_bind_ret.
    destruct (IH db2 q) as (db' & H1 & H2 & H3 & H4 & H5); try done.
    { rewrite Forall_forall in Hin |- *. intros j Hj. rewrite Hsd. apply list_elem_of_filter.
      split; [|by apply Hin]. intros Heq. apply Hni, list_elem_of_fmap. by exists j. }
    exists db'. unfold doomed. rewrite filter_cons_False, filter_cons_True by tauto.
    cbn [map]. fold (doomed sock p). split_and!; try done.
    + rewrite H4, Hsd, list_filter_filter. apply list_filter_iff. intros x. rewrite elem_of_cons. tauto.
    + intros x. rewrite H5, Hhp. repeat case_decide; try done; rewrite elem_of_cons in *; tauto.
  - destruct (Z.ltb_spec sock (idx_sock i)) as [Hlt|Hge].
    + destruct (doomed_later sock (i :: p)) as [-> ->].
      { constructor; [done|]. eapply Forall_impl; [done|]. simpl. lia. }
      exists (set_socket_index (q ++ i :: p) db). split_and!; try done.
      * by destruct Hok.
      * simpl. symmetry. apply filter_all. intros x _ Hx. by apply elem_of_nil in Hx.
    + destruct (IH db (q ++ [i])) as (db' & H1 & H2 & H3 & H4 & H5); try done.
      exists db'. unfold doomed. rewrite filter_cons_True, filter_cons_False by done.
      split_and!; try done. by rewrite H3, <- app_assoc.
Qed.

Definition sock_ok (s : Z) : Prop := 0 ≤ s < 2 ^ 31.

Lemma compare_indices_diff a b :
  sock_ok (idx_sock a) → sock_ok (idx_sock b) → compare_indices a b = idx_sock a - idx_sock b.
Proof. unfold sock_ok, compare_indices. intros. apply to_i32_small. lia. Qed.

Lemma insert_index_sorted l d :
  Forall (λ i, sock_ok (idx_sock i)) (d :: l) →
  StronglySorted (λ i j, idx_sock i ≤ idx_sock j) l →
  StronglySorted (λ i j, idx_sock i ≤ idx_sock j) (sdp_list_insert_sorted l d compare_indices).
Proof.
  intros HF Hs. apply Forall_cons_iff in HF as [Hd HF]. revert HF.
  induction Hs as [|p l Hs IH Hp]; intros HF; simpl; [repeat constructor|].
  apply Forall_cons_iff in HF as [Hpo HF]. rewrite compare_indices_diff by done.
  destruct (Z.geb_spec (idx_sock p - idx_sock d) 0) as [Hge|Hlt].
  - constructor; [by constructor|]. constructor; [lia|]. eapply Forall_impl; [exact Hp|]. intros x Hx. simpl in Hx. lia.
  - constructor; [by apply IH|]. rewrite insert_sorted_perm. constructor; [lia|done].
Qed.

Lemma set_collectable_ok db p sock :
  index_ok db → p ∈ service_db db → p ∉ map idx_record (socket_index db) →
  Forall (λ i, sock_ok (idx_sock i)) (SdpIndexed sock p :: socket_index db) →
  index_ok (sdp_svcdb_set_collectable db p sock).
Proof.
  intros (Hi & Hn & Hs) Hp Hnew HF. unfold index_ok, sdp_svcdb_set_collectable. simpl. split_and!.
  - rewrite insert_sorted_perm. by constructor.
  - rewrite insert_sorted_perm. by constructor.
  - by apply insert_index_sorted.
Qed.

(** C12: the repository refines a finite map from handles to records. While
    handles are unique, looking a handle up is the lookup of that map; adding
    a record under a free handle inserts it, and its device in the access map;
    removing a handle deletes it from both, and removing one that is not there
    returns -1 and changes nothing. The operations keep the invariant: every
    registered record is alive, handles are unique and every record has
    exactly one access entry. *)
Theorem repository_refines_map (db : svcdb) (h : Z) (Hok : db_ok db) (Hh : u32_ok h) :
  sdp_record_find db h = Ret (db_map db !! h) ∧
  (∀ dev p r, heap db !! p = Some r → handle r = h → db_map db !! h = None →
     ∃ db', sdp_record_add db dev p = Ret db' ∧ db_ok db' ∧
       db_map db' = <[h := p]> (db_map db) ∧ access_map db' = <[h := dev]> (access_map db)) ∧
  match db_map db !! h with
  | None => sdp_record_remove db h = Ret (-1, db)
  | Some p => ∃ db', sdp_record_remove db h = Ret (0, db') ∧ db_ok db' ∧
      db_map db' = delete h (db_map db) ∧ access_map db' = delete h (access_map db)
  end.
Proof.
  split_and!.
  - apply record_find_spec; [apply Hok|done].
  - intros dev p r Hp <- Hm.
    destruct (record_add_spec db dev p r Hok Hp Hh Hm) as (db' & ? & ? & ? & ? & _). by exists db'.
  - pose proof (record_remove_spec db h Hok Hh) as H. case_match; [|done].
    destruct H as (db' & ? & ? & ? & ? & _). by exists db'.
Qed.

Definition example_db : svcdb :=
  Svcdb (<[1%positive := SdpRecord 0x10000 [] [] UuidNone]>
          (<[2%positive := SdpRecord 0x10001 [] [] UuidNone]> ∅)) 3 [1%positive] [SdpAccess 0x10000 BDADDR_ANY] [].

Lemma example_db_ok : db_ok example_db.
Proof.
  split.
  - constructor; [|constructor]. eexists. split; [reflexivity|]. vm_compute. intuition congruence.
  - repeat constructor. by intros ?%elem_of_nil.
  - reflexivity.
  - intros p. simpl. rewrite !lookup_insert. repeat case_decide; subst; try (intros _; vm_compute; reflexivity).
    rewrite lookup_empty. by intros [? ?].
Qed.

Lemma repository_refines_map_witness :
  sdp_record_find example_db 0x10000 = Ret (db_map example_db !! 0x10000).
Proof.
  apply (repository_refines_map example_db 0x10000).
  - apply example_db_ok.
  - vm_compute. intuition congruence.
Defined.

(** Access control. A record is visible to a device exactly when it has
    no access entry, or was registered for that device or for any device, or
    the request comes from a local client, which uses the wildcard address. *)
Theorem check_access_correct (db : svcdb) (h : Z) (dev : bdaddr) (Hok : db_ok db) (Hh : u32_ok h) :
  sdp_check_access db h dev = true ↔
  ∀ d, access_map db !! h = Some d → d = dev ∨ d = BDADDR_ANY ∨ dev = BDADDR_ANY.
Proof. by apply check_access_spec. Qed.

Lemma check_access_correct_witness : sdp_check_access example_db 0x10000 [1; 2; 3; 4; 5; 6] = true.
Proof.
  apply (check_access_correct example_db 0x10000).
  - apply example_db_ok.
  - vm_compute. intuition congruence.
  - intros d. vm_compute. intros [= <-]. auto.
Defined.

(** Fresh handles. While fewer than 2^32 - 2^16 records are registered,
    the search for a handle terminates after at most one probe more than there
    are records, and returns the smallest handle from 0x10000 up that no
    registered record uses. *)
Theorem next_handle_fresh (db : svcdb) (Hok : db_ok db)
    (Hsize : Z.of_nat (length (service_db db)) < 2 ^ 32 - 2 ^ 16) :
  ∃ h, sdp_next_handle db = Ret h ∧ 0x10000 ≤ h < 2 ^ 32 ∧ db_map db !! h = None ∧
       (∀ k, 0x10000 ≤ k < h → is_Some (db_map db !! k)).
Proof.
  destruct (next_handle_loop_spec db (S (length (service_db db))) 0x10000 Hok)
    as (h & H1 & H2 & H3 & H4); try lia.
  exists h. split_and!; [done|lia|lia| |].
  - apply eq_None_not_Some. by rewrite db_map_is_Some by apply Hok.
  - intros k Hk. apply db_map_is_Some; [apply Hok|by apply H4].
Qed.

Lemma next_handle_fresh_witness :
  ∃ h, sdp_next_handle example_db = Ret h ∧ 0x10000 ≤ h < 2 ^ 32 ∧ db_map example_db !! h = None ∧
       (∀ k, 0x10000 ≤ k < h → is_Some (db_map example_db !! k)).
Proof.
  apply (next_handle_fresh example_db); [apply example_db_ok|]. vm_compute. reflexivity.
Defined.

(** Closing a socket collects exactly its records. Marking a registered
    record as collectable keeps the index sorted by socket with one entry per
    record; [sdp_svcdb_collect_all] then runs without touching freed memory,
    removes from the repository and frees the records registered over the
    socket, and leaves every other record, and the index of the other sockets,
    as they were. *)
Theorem collect_all_correct (db : svcdb) (sock : Z) (Hok : db_ok db) (Hidx : index_ok db) :
  (∀ p, p ∈ service_db db → p ∉ map idx_record (socket_index db) →
     Forall (λ i, sock_ok (idx_sock i)) (SdpIndexed sock p :: socket_index db) →
     index_ok (sdp_svcdb_set_collectable db p sock)) ∧
  ∃ db', sdp_svcdb_collect_all db sock = Ret db' ∧ db_ok db' ∧ index_ok db' ∧
    service_db db' = filter (λ x, x ∉ doomed sock (socket_index db)) (service_db db) ∧
    socket_index db' = filter (λ i, idx_sock i ≠ sock) (socket_index db) ∧
    (∀ x, heap db' !! x = if decide (x ∈ doomed sock (socket_index db)) then None else heap db !! x).
Proof.
  split; [intros; by apply set_collectable_ok|].
  destruct Hidx as (Hi & Hn & Hs).
  destruct (collect_all_loop_spec sock (socket_index db) db [] Hok Hi Hn Hs) as (db' & H1 & H2 & H3 & H4 & H5).
  exists db'. split_and!; try done. split_and!; rewrite H3; simpl.
  - rewrite Forall_forall in Hi |- *. intros i [Hne Hin]%list_elem_of_filter. rewrite H4.
    apply list_elem_of_filter. split; [|by apply Hi].
    intros (j & Hj & [Hjs Hjin]%list_elem_of_filter)%list_elem_of_fmap.
    assert (i = j) as ->; [|done]. apply list_elem_of_lookup in Hin as [a Ha], Hjin as [b Hb].
    assert (a = b) as ->; [|congruence]. eapply NoDup_lookup; [exact Hn| |].
    + by rewrite list_lookup_fmap, Ha.
    + rewrite list_lookup_fmap, Hb. simpl. by rewrite Hj.
  - eapply sublist_NoDup; [exact Hn|]. apply (fmap_sublist idx_record), sublist_filter.
  - eapply StronglySorted_sublist; [|done]. apply sublist_filter.
Qed.

Lemma collect_all_correct_witness :
  ∃ db', sdp_svcdb_collect_all (set_socket_index [SdpIndexed 7 1%positive] example_db) 7 = Ret db' ∧
         service_db db' = [] ∧ heap db' !! 1%positive = None.
Proof.
  destruct (collect_all_correct (set_socket_index [SdpIndexed 7 1%positive] example_db) 7)
    as (_ & db' & H1 & _ & _ & H2 & _ & H3).
  - destruct example_db_ok. by split.
  - split_and!; [repeat constructor| |repeat constructor]. constructor; [by intros ?%elem_of_nil|constructor].
  - exists db'. split_and!; [done|by rewrite H2|by rewrite H3].
Defined.
