(* ===== verification/SdpService.v ===== *)
(** Service registration in the SDP server, utils/sdpd/service.c: the records
    the server registers for itself, adding and removing records on behalf of
    the daemon, and the register, update and remove requests of local
    clients. *)

From stdpp Require Import base list numbers sorting gmap.
From Stdlib Require Import ZArith Lia.
From S2P Require Import Prelude CString SdpTypes SdpList SdpUuid SdpEncode SdpRecord SdpDecode SdpAttrs SdpDb.

Local Open Scope Z_scope.

(** * State *)

(** The static variables of service.c, of cstate.c ([cstates], [tm]) and the
    repository. The callback of [set_service_classes_callback] receives the
    value stored in [service_classes]. *)
Record sdpd := Sdpd {
  sdb : svcdb;
  server : option loc;
  service_classes : Z;
  did_vendor : Z;
  did_product : Z;
  did_version : Z;
  tm : Z;
  cstates : list (Z * list Z)
}.

Definition set_db (db : svcdb) (s : sdpd) : sdpd :=
  Sdpd db (server s) (service_classes s) (did_vendor s) (did_product s) (did_version s) (tm s) (cstates s).
Definition set_server (p : option loc) (s : sdpd) : sdpd :=
  Sdpd (sdb s) p (service_classes s) (did_vendor s) (did_product s) (did_version s) (tm s) (cstates s).
Definition set_classes (v : Z) (s : sdpd) : sdpd :=
  Sdpd (sdb s) (server s) v (did_vendor s) (did_product s) (did_version s) (tm s) (cstates s).
Definition set_did (v p n : Z) (s : sdpd) : sdpd :=
  Sdpd (sdb s) (server s) (service_classes s) v p n (tm s) (cstates s).
Definition set_cstates (l : list (Z * list Z)) (s : sdpd) : sdpd :=
  Sdpd (sdb s) (server s) (service_classes s) (did_vendor s) (did_product s) (did_version s) (tm s) l.

Definition sdpd_init (now : Z) : sdpd := Sdpd svcdb_init None 0 0 0 0 now [].


(** [rec->... = ...] through a pointer: apply [f] to the record. *)
Definition with_record (s : sdpd) (p : loc) (f : sdp_record → outcome sdp_record) : outcome sdpd :=
  r ← deref (sdb s) p; r ← f r; Ret (set_db (modify (sdb s) p r) s).

(** * Server state *)

Definition sdp_get_time (s : sdpd) : Z := to_u32 (tm s).

Definition update_db_timestamp (s : sdpd) : outcome sdpd :=
  d ← sdp_data_alloc SDP_UINT32 (PMem (le_split 4 (sdp_get_time s)));
  match server s with
  | Some p => with_record s p (λ r, sdp_attr_replace r SDP_ATTR_SVCDB_STATE d)
  | None => Undef
  end.

(** The bits of the class of device a service class stands for. *)
Definition svclass_bits (uuid16 : Z) : Z :=
  if (uuid16 =? 0x1103) || (uuid16 =? 0x1128) then 0x42
  else if (uuid16 =? 0x1104) || (uuid16 =? 0x1105) || (uuid16 =? 0x1106) || (uuid16 =? 0x1107) ||
          (uuid16 =? 0x112f) then 0x10
  else if (uuid16 =? 0x1108) || (uuid16 =? 0x111e) then 0x20
  else if (uuid16 =? 0x1109) || (uuid16 =? 0x1110) || (uuid16 =? 0x1111) || (uuid16 =? 0x112d) ||
          (uuid16 =? 0x1112) || (uuid16 =? 0x111f) then 0x40
  else if (uuid16 =? 0x110a) || (uuid16 =? 0x1303) then 0x08
  else if (uuid16 =? 0x110b) || (uuid16 =? 0x1304) then 0x04
  else if (uuid16 =? 0x1115) || (uuid16 =? 0x1116) || (uuid16 =? 0x1117) then 0x02
  else 0.

Fixpoint svclass_loop (db : svcdb) (l : list loc) (v : Z) : outcome Z :=
  match l with
  | [] => Ret v
  | p :: l =>
      rec ← deref db p;
      match svclass rec with
      | Uuid16 u => svclass_loop db l (Z.lor v (svclass_bits u))
      | _ => svclass_loop db l v
      end
  end.

Definition update_svclass_list (s : sdpd) : outcome sdpd :=
  v ← svclass_loop (sdb s) (sdp_get_record_list (sdb s)) 0; Ret (set_classes v s).

Definition get_service_classes (s : sdpd) : Z := service_classes s.

(** ** Extended inquiry response *)

(** The 16-bit classes collected, and whether the list is incomplete. The
    search for a duplicate stops at the first equal entry, at index [i]. *)
Fixpoint eir_search (uuid : list Z) (u : Z) (i : Z) : Z :=
  match uuid with
  | [] => i
  | v :: uuid => if v =? u then i else eir_search uuid u (i + 1)
  end.

Fixpoint eir_collect (db : svcdb) (l : list loc) (uuid : list Z) : outcome (list Z * bool) :=
  match l with
  | [] => Ret (uuid, false)
  | p :: l =>
      rec ← deref db p;
      match svclass rec with
      | Uuid16 u =>
          if u <? 0x1100 then eir_collect db l uuid
          else
            let index := Z.of_nat (length uuid) in
            if 23 <? index then Ret (uuid, true)
            else if eir_search uuid u 0 =? index - 1 then eir_collect db l uuid
            else eir_collect db l (uuid ++ [u])
      | _ => eir_collect db l uuid
      end
  end.

Definition le16 (z : Z) : list Z := [Z.land z 0xff; Z.shiftr (Z.land z 0xff00) 8].

(** [name] is the string without its terminator; the result is the buffer. *)
Definition create_ext_inquiry_response (s : sdpd) (name : option (list Z)) (data : list Z)
    : outcome (list Z) :=
  r ← match name with
      | Some name =>
          let len := if 48 <? Z.of_nat (length name) then 48 else Z.of_nat (length name) in
          let t := if 48 <? Z.of_nat (length name) then 0x08 else 0x09 in
          data ← wr data 0 ([to_u8 (len + 1); t] ++ take (Z.to_nat len) name);
          Ret (data, len + 2)
      | None => Ret (data, 0)
      end;
  let '(data, off) := r in
  r ← (if did_vendor s =? 0 then Ret (data, off)
       else data ← wr data off ([9; 11] ++ le16 0x0002 ++ le16 (did_vendor s) ++ le16 (did_product s) ++
                                le16 (did_version s));
            Ret (data, off + 10));
  let '(data, off) := r in
  data ← wr data (off + 1) [0x03];
  r ← eir_collect (sdb s) (sdp_get_record_list (sdb s)) [];
  let '(uuid, partial) := r in
  data ← (if partial : bool then wr data (off + 1) [0x02] else Ret data);
  if (0 <? Z.of_nat (length uuid)) then
    data ← wr data off [to_u8 (Z.of_nat (length uuid) * 2 + 1)];
    wr data (off + 2) (concat (map le16 uuid))
  else Ret data.

(** * Records of the server itself *)

Definition add_attr (attr t : Z) (value : list Z) (r : sdp_record) : outcome sdp_record :=
  d ← sdp_data_alloc t (PMem value); res ← sdp_attr_add r attr d; Ret res.2.

(** A new record with the handle [h], added for every device and given its
    handle attribute. *)
Definition new_server_record (s : sdpd) (h : Z) : outcome (loc * sdpd) :=
  let '(p, db) := new_record (sdb s) (set_handle h sdp_record_alloc) in
  db ← sdp_record_add db BDADDR_ANY p;
  s ← with_record (set_db db s) p (add_attr SDP_ATTR_RECORD_HANDLE SDP_UINT32 (le_split 4 h));
  Ret (p, s).

Definition register_public_browse_group (s : sdpd) : outcome sdpd :=
  r ← new_server_record s (SDP_SERVER_RECORD_HANDLE + 1);
  let '(browse, s) := r in
  s ← with_record s browse (λ r,
        res ← sdp_set_service_classes r [Some (sdp_uuid16_create 0x1001)]; Ret res.2);
  with_record s browse (λ r,
    res ← sdp_attr_add_new r SDP_ATTR_GROUP_ID SDP_UUID16 (PMem (le_split 2 PUBLIC_BROWSE_GROUP));
    Ret res.2).

Definition register_server_service (s : sdpd) : outcome sdpd :=
  r ← new_server_record s SDP_SERVER_RECORD_HANDLE;
  let '(p, s) := r in
  let s := set_server (Some p) s in
  s ← with_record s p (λ r,
        res ← sdp_set_service_classes r [Some (sdp_uuid16_create 0x1000)]; Ret res.2);
  s ← with_record s p (λ r,
        d ← sdp_seq_alloc [SDP_UINT16] [PMem (le_split 2 (Z.lor (Z.shiftl 1 8) 0))];
        res ← sdp_attr_add r SDP_ATTR_VERSION_NUM_LIST d; Ret res.2);
  s ← update_db_timestamp s;
  update_svclass_list s.

Definition register_device_id (s : sdpd) (vendor product version : Z) : outcome sdpd :=
  let s := set_did vendor product version s in
  h ← sdp_next_handle (sdb s);
  r ← new_server_record s h;
  let '(p, s) := r in
  s ← with_record s p (λ r,
        res ← sdp_set_service_classes r [Some (sdp_uuid16_create 0x1200)];
        res ← sdp_set_browse_groups res.2 [Some (sdp_uuid16_create PUBLIC_BROWSE_GROUP)];
        res ← sdp_set_profile_descs res.2 [Some (SdpProfileDesc (sdp_uuid16_create 0x1200) 0x0102)];
        r ← add_attr 0x0200 SDP_UINT16 (le_split 2 0x0102) res.2;
        r ← add_attr 0x0201 SDP_UINT16 (le_split 2 vendor) r;
        r ← add_attr 0x0202 SDP_UINT16 (le_split 2 product) r;
        r ← add_attr 0x0203 SDP_UINT16 (le_split 2 version) r;
        r ← add_attr 0x0204 SDP_BOOL (le_split 1 1) r;
        add_attr 0x0205 SDP_UINT16 (le_split 2 0x0002) r);
  s ← update_db_timestamp s;
  update_svclass_list s.

(** * Records of the daemon *)

(** Every record belongs to a browse group: the root group when it names none. *)
Definition add_root_group (r : sdp_record) : sdp_record :=
  match sdp_data_get r SDP_ATTR_BROWSE_GRP_LIST with
  | None => sdp_pattern_add_uuid r (sdp_uuid16_create PUBLIC_BROWSE_GROUP)
  | Some _ => r
  end.

Definition set_handle_attr (r : sdp_record) : outcome sdp_record :=
  d ← sdp_data_alloc SDP_UINT32 (PMem (le_split 4 (handle r)));
  r ← sdp_attr_replace r SDP_ATTR_RECORD_HANDLE d;
  Ret (add_root_group r).

Definition add_record_to_server (s : sdpd) (src : bdaddr) (rec : loc) : outcome (Z * sdpd) :=
  r ← deref (sdb s) rec;
  res ← (if handle r =? 0xffffffff then
           h ← sdp_next_handle (sdb s);
           s ← with_record s rec (λ r, Ret (set_handle h r));
           Ret (0x10000 <=? h, s)
         else
           f ← sdp_record_find (sdb s) (handle r);
           Ret (bool_decide (f = None), s));
  let '(ok, s) := res in
  if negb ok then Ret (-1, s)
  else
    db ← sdp_record_add (sdb s) src rec;
    s ← with_record (set_db db s) rec set_handle_attr;
    s ← update_db_timestamp s;
    s ← update_svclass_list s;
    Ret (0, s).

Definition remove_record_from_server (s : sdpd) (h : Z) : outcome (Z * sdpd) :=
  f ← sdp_record_find (sdb s) h;
  match f with
  | None => Ret (- ENOENT, s)
  | Some rec =>
      r ← sdp_record_remove (sdb s) h;
      let s := set_db r.2 s in
      s ← (if r.1 =? 0 then s ← update_db_timestamp s; update_svclass_list s else Ret s);
      db ← sdp_record_free (sdb s) rec;
      Ret (0, set_db db s)
  end.

(** * Requests of local clients *)

(** [sdp_req_t]: [req_buf] is the request PDU, header included, to the end of
    its memory object; [req_len] the number of bytes received. *)
Record sdp_req := SdpReq {
  req_device : bdaddr;
  req_bdaddr : bdaddr;
  req_local : bool;
  req_sock : Z;
  req_mtu : Z;
  req_flags : Z;
  req_buf : list Z;
  req_len : Z
}.

(** The loop of [extract_pdu_server] over the record at [rec]; the flag is
    [extractStatus == 0]. *)
Fixpoint extract_server_loop (afuel fuel : nat) (s : sdpd) (rec : loc) (p : list Z)
    (bufsize seqlen localExtractedLength : Z) (ok : bool) : outcome (bool * sdpd) :=
  if localExtractedLength <? seqlen then
    match fuel with
    | O => NoFuel
    | S fuel =>
        if lt_size bufsize 3 then Ret (ok, s)
        else
          _ ← rd8 p;
          attrId ← get_unaligned 2 (adv 1 p);
          let attrId := ntohs attrId in
          r ← deref (sdb s) rec;
          res ← sdp_extract_attr_safe afuel (adv 3 p) (bufsize - 3) 0 (Some r);
          let '(pAttr, attrValueLength, r') := (res.1.1, res.1.2, default r res.2) in
          let s := set_db (modify (sdb s) rec r') s in
          let attrSize := 3 + attrValueLength in
          match pAttr with
          | None => Ret (ok, s)
          | Some _ =>
              s ← with_record s rec (λ r, sdp_attr_replace r attrId pAttr);
              extract_server_loop afuel fuel s rec (adv attrSize p) (bufsize - attrSize) seqlen
                (localExtractedLength + attrSize) true
          end
    end
  else Ret (ok, s).

(** The record the PDU is for: an existing one, whose attributes are dropped,
    or a new one, which is added to the repository when its handle is known. *)
Definition server_record (s : sdpd) (device : bdaddr) (found : option loc) (known : option Z)
    : outcome (loc * sdpd) :=
  match found with
  | Some rec => s ← with_record s rec (λ r, Ret (set_attrlist [] r)); Ret (rec, s)
  | None =>
      match known with
      | Some h =>
          let '(rec, db) := new_record (sdb s) (set_handle h sdp_record_alloc) in
          db ← sdp_record_add db device rec;
          Ret (rec, set_db db s)
      | None =>
          let '(rec, db) := new_record (sdb s) sdp_record_alloc in
          Ret (rec, set_db db s)
      end
  end.

(** The record ([None] is NULL), [*scanned] and the state. *)
Definition extract_pdu_server (fuel : nat) (s : sdpd) (device : bdaddr) (p : list Z) (bufsize : Z)
    (handleExpected : Z) : outcome (option loc * Z * sdpd) :=
  r ← sdp_extract_seqtype_safe p bufsize 0 0;
  let '(scanned, _, seqlen) := r in
  let p := adv scanned p in
  let bufsize := bufsize - scanned in
  if lt_size bufsize 2 then Ret (None, scanned, s)
  else
    lookAheadAttrId ← get_unaligned 2 (adv 1 p);
    let lookAheadAttrId := ntohs lookAheadAttrId in
    if (lookAheadAttrId =? SDP_ATTR_RECORD_HANDLE) && lt_size bufsize 8 then Ret (None, scanned, s)
    else
      known ← (if lookAheadAttrId =? SDP_ATTR_RECORD_HANDLE then
                 h ← get_unaligned 4 (adv 4 p); Ret (Some (ntohl h))
               else if handleExpected =? 0xffffffff then Ret None
               else Ret (Some handleExpected));
      found ← match known with
              | Some h => sdp_record_find (sdb s) h
              | None => Ret None
              end;
      r ← server_record s device found known;
      let '(rec, s) := r in
      r ← extract_server_loop fuel fuel s rec p bufsize seqlen 0 false;
      let '(ok, s) := r in
      Ret (Some rec, if ok : bool then scanned + seqlen else scanned, s).

(** [bt_put_unaligned(htons(z), rsp->data); rsp->data_size = 2] *)
Definition rsp_u16 (rsp : sdp_buf) (z : Z) : outcome sdp_buf :=
  m ← wr (buf_data rsp) 0 (le_split 2 (htons (to_u16 z)));
  Ret (SdpBuf m 2 (buf_size rsp)).

Definition rsp_u32 (rsp : sdp_buf) (z : Z) : outcome sdp_buf :=
  m ← wr (buf_data rsp) 0 (le_split 4 (htonl (to_u32 z)));
  Ret (SdpBuf m 4 (buf_size rsp)).

(** What is done with a record that is not in the repository yet. *)
Definition register_new (s : sdpd) (device : bdaddr) (flags sock : Z) (rec : loc) : outcome sdpd :=
  db ← sdp_record_add (sdb s) device rec;
  let db := if Z.land flags SDP_RECORD_PERSIST =? 0 then sdp_svcdb_set_collectable db rec sock else db in
  with_record (set_db db s) rec set_handle_attr.

(** Status, response and state. The flag byte is not counted off [bufsize]. *)
Definition service_register_req (fuel : nat) (s : sdpd) (req : sdp_req) (rsp : sdp_buf)
    : outcome (Z * sdp_buf * sdpd) :=
  let p := adv SDP_PDU_HDR (req_buf req) in
  let bufsize := req_len req - SDP_PDU_HDR in
  flags ← rd8 p;
  let p := adv 1 p in
  r ← (if Z.land flags SDP_DEVICE_RECORD =? 0 then Ret (req_device req, p, bufsize)
       else dev ← rd 6 p; Ret (dev, adv 6 p, bufsize - 6));
  let '(device, p, bufsize) := r in
  let invalid s := rsp ← rsp_u16 rsp SDP_INVALID_SYNTAX; Ret (-1, rsp, s) in
  let success s rec :=
    s ← update_db_timestamp s;
    s ← update_svclass_list s;
    r ← deref (sdb s) rec;
    rsp ← rsp_u32 rsp (handle r);
    Ret (0, rsp, s) in
  r ← extract_pdu_server fuel s device p bufsize 0xffffffff;
  let '(rec, _, s) := r in
  match rec with
  | None => invalid s
  | Some rec =>
      r ← deref (sdb s) rec;
      if handle r =? 0xffffffff then
        h ← sdp_next_handle (sdb s);
        s ← with_record s rec (λ r, Ret (set_handle h r));
        if h <? 0x10000 then
          db ← sdp_record_free (sdb s) rec; invalid (set_db db s)
        else
          s ← register_new s device flags (req_sock req) rec; success s rec
      else
        f ← sdp_record_find (sdb s) (handle r);
        match f with
        | Some _ => success s rec
        | None => s ← register_new s device flags (req_sock req) rec; success s rec
        end
  end.

(** The arguments of the debug calls of the failure branch are evaluated: a
    null record is dereferenced. *)
Definition service_update_req (fuel : nat) (s : sdpd) (req : sdp_req) (rsp : sdp_buf)
    : outcome (Z * sdp_buf * sdpd) :=
  let p := adv SDP_PDU_HDR (req_buf req) in
  let bufsize := req_len req - SDP_PDU_HDR in
  h ← get_unaligned 4 p;
  let h := ntohl h in
  orec ← sdp_record_find (sdb s) h;
  r ← match orec with
      | Some _ =>
          r ← extract_pdu_server fuel s BDADDR_ANY (adv 4 p) (bufsize - 4) h;
          let '(nrec, _, s) := r in
          match nrec with
          | None => Undef
          | Some nrec =>
              r ← deref (sdb s) nrec;
              if h =? handle r then
                s ← update_db_timestamp s; s ← update_svclass_list s; Ret (0, s)
              else
                db ← sdp_record_free (sdb s) nrec; Ret (SDP_INVALID_SYNTAX, set_db db s)
          end
      | None => Ret (SDP_INVALID_RECORD_HANDLE, s)
      end;
  let '(status, s) := r in
  rsp ← rsp_u16 rsp status;
  Ret (status, rsp, s).

Definition service_remove_req (s : sdpd) (req : sdp_req) (rsp : sdp_buf)
    : outcome (Z * sdp_buf * sdpd) :=
  h ← get_unaligned 4 (adv SDP_PDU_HDR (req_buf req));
  let h := ntohl h in
  f ← sdp_record_find (sdb s) h;
  r ← match f with
      | Some rec =>
          r ← sdp_record_remove (sdp_svcdb_collect (sdb s) rec) h;
          db ← sdp_record_free r.2 rec;
          let s := set_db db s in
          if r.1 =? 0 then s ← update_db_timestamp s; s ← update_svclass_list s; Ret (r.1, s)
          else Ret (r.1, s)
      | None => Ret (SDP_INVALID_RECORD_HANDLE, s)
      end;
  let '(status, s) := r in
  rsp ← rsp_u16 rsp status;
  Ret (status, rsp, s).

(** * Correctness *)

(** The repository is well formed and the server's own record is alive. *)
Definition server_ok (s : sdpd) : Prop :=
  db_ok (sdb s) ∧ ∃ p, server s = Some p ∧ is_Some (heap (sdb s) !! p).

(** The class bits of all registered records. *)
Definition class_bits (db : svcdb) (p : loc) : Z :=
  match svclass <$> heap db !! p with
  | Some (Uuid16 u) => svclass_bits u
  | _ => 0
  end.
Definition classes_of (db : svcdb) : Z := foldl (λ v p, Z.lor v (class_bits db p)) 0 (service_db db).

Lemma svclass_loop_spec db l v :
  Forall (λ p, is_Some (heap db !! p)) l →
  svclass_loop db l v = Ret (foldl (λ v p, Z.lor v (class_bits db p)) v l).
Proof.
  intros HF. revert v. induction HF as [|p l [r Hr] _ IH]; intros v; cbn [svclass_loop foldl]; [done|].
  unfold deref, class_bits at 2. rewrite Hr. cbn [fmap option_fmap option_map]. rewrite outcome_bind_ret.
  destruct (svclass r); rewrite IH; cbn; by rewrite ?Z.lor_0_r.
Qed.

Lemma update_svclass_spec s :
  db_ok (sdb s) → update_svclass_list s = Ret (set_classes (classes_of (sdb s)) s).
Proof.
  intros Hok. unfold update_svclass_list, sdp_get_record_list.
  by rewrite svclass_loop_spec by by apply db_ok_live.
Qed.

Lemma update_db_timestamp_spec s :
  server_ok s →
  ∃ sp r r', server s = Some sp ∧ heap (sdb s) !! sp = Some r ∧ handle r' = handle r ∧
    update_db_timestamp s = Ret (set_db (modify (sdb s) sp r') s).
Proof.
  intros (Hok & sp & Hs & r & Hr). unfold update_db_timestamp, with_record, deref. rewrite Hs.
  set (d := SdpData SDP_UINT32 0 (VInt (le_join (take 4 (le_split 4 (sdp_get_time s))))) (1 + 4)).
  assert (sdp_data_alloc SDP_UINT32 (PMem (le_split 4 (sdp_get_time s))) = Ret (Some d)) as ->.
  { unfold sdp_data_alloc, sdp_data_alloc_with_length. simpl. unfold get_unaligned.
    rewrite rd_ok by by len. done. }
  rewrite outcome_bind_ret, Hr, outcome_bind_ret.
  destruct (attr_replace_class r SDP_ATTR_SVCDB_STATE d (svclass r)) as (r' & Hr' & _); [done|].
  rewrite Hr', outcome_bind_ret. exists sp, r, r'. split_and!; try done.
  by apply attr_replace_keeps in Hr' as [? _].
Qed.

(** The two updates after a change of the repository. *)
Lemma updates_spec s :
  server_ok s →
  ∃ s', (s ← update_db_timestamp s; update_svclass_list s) = Ret s' ∧ server_ok s' ∧
    db_map (sdb s') = db_map (sdb s) ∧ access_map (sdb s') = access_map (sdb s) ∧
    service_classes s' = classes_of (sdb s') ∧ server s' = server s ∧
    service_db (sdb s') = service_db (sdb s) ∧
    (∀ p, server s ≠ Some p → heap (sdb s') !! p = heap (sdb s) !! p) ∧
    (∀ p, is_Some (heap (sdb s') !! p) ↔ is_Some (heap (sdb s) !! p)).
Proof.
  intros Hok. destruct (update_db_timestamp_spec s Hok) as (sp & r & r' & Hs & Hr & Hh & ->).
  rewrite outcome_bind_ret. destruct Hok as [Hok _].
  destruct (modify_spec (sdb s) sp r r' Hok Hr) as (Hok' & Hm & Ha); [by left|].
  rewrite update_svclass_spec by done. eexists. split; [done|]. simpl. split_and!; try done.
  - split; [done|]. exists sp. split; [done|]. simpl. rewrite lookup_insert_eq. eauto.
  - intros p Hp. apply lookup_insert_ne. congruence.
  - intros p. rewrite lookup_insert. case_decide as E; [subst p; rewrite Hr; split; eauto|done].
Qed.

Definition handle_elt (h : Z) : sdp_data := SdpData SDP_UINT32 0 (VInt h) (1 + 4).

Lemma set_handle_attr_spec r :
  record_ok r → u32_ok (handle r) →
  ∃ r', set_handle_attr r = Ret r' ∧ record_ok r' ∧ handle r' = handle r ∧
    sdp_data_get r' SDP_ATTR_RECORD_HANDLE = Some (handle_elt (handle r)) ∧
    (sdp_data_get r SDP_ATTR_BROWSE_GRP_LIST = None → has_uuid r' (Uuid16 PUBLIC_BROWSE_GROUP)).
Proof.
  intros Hok Hu. unfold set_handle_attr.
  assert (sdp_data_alloc SDP_UINT32 (PMem (le_split 4 (handle r))) = Ret (Some (handle_elt (handle r)))) as ->.
  { unfold sdp_data_alloc, sdp_data_alloc_with_length. simpl. rewrite <- (app_nil_r (le_split 4 (handle r))).
    by rewrite get_le_split. }
  rewrite outcome_bind_ret.
  destruct (attr_replace_class r SDP_ATTR_RECORD_HANDLE (handle_elt (handle r)) (svclass r)) as (r1 & H1 & _);
    [done|].
  destruct (attr_replace_spec _ _ _ _ Hok H1) as (Hok1 & Hm & Hp & Hh). rewrite H1, outcome_bind_ret.
  assert (sdp_data_get r1 SDP_ATTR_RECORD_HANDLE = Some (handle_elt (handle r))) as Hg.
  { by rewrite data_get_lookup, Hm, lookup_insert_eq by apply Hok1. }
  eexists. split; [done|]. unfold add_root_group.
  destruct (sdp_data_get r1 SDP_ATTR_BROWSE_GRP_LIST) eqn:Hb.
  - split_and!; try done. intros Hn. rewrite data_get_lookup, Hm, lookup_insert_ne in Hb by (apply Hok1 || done).
    rewrite data_get_lookup in Hn by apply Hok. congruence.
  - destruct (pattern_addseq_fields r1 [sdp_uuid16_create PUBLIC_BROWSE_GROUP]) as (E1 & E2 & _).
    unfold sdp_pattern_add_uuidseq in E1, E2. simpl in E1, E2. split_and!.
    + by apply pattern_add_ok.
    + congruence.
    + unfold sdp_data_get in *. by rewrite E2.
    + intros _. apply has_uuid_add; [done|done|]. by left.
Qed.

(** Registering a record that is not in the repository under the handle it
    carries. *)
Lemma add_under_handle s src rec r :
  server_ok s → server s ≠ Some rec → heap (sdb s) !! rec = Some r → record_ok r → u32_ok (handle r) →
  db_map (sdb s) !! handle r = None →
  ∃ s' r', (db ← sdp_record_add (sdb s) src rec;
            s ← with_record (set_db db s) rec set_handle_attr;
            s ← update_db_timestamp s; s ← update_svclass_list s; Ret (0, s)) = Ret (0, s') ∧
    server_ok s' ∧ db_map (sdb s') = <[handle r := rec]> (db_map (sdb s)) ∧
    access_map (sdb s') = <[handle r := src]> (access_map (sdb s)) ∧
    service_classes s' = classes_of (sdb s') ∧ server s' = server s ∧
    heap (sdb s') !! rec = Some r' ∧ record_ok r' ∧ handle r' = handle r ∧
    sdp_data_get r' SDP_ATTR_RECORD_HANDLE = Some (handle_elt (handle r)) ∧
    (sdp_data_get r SDP_ATTR_BROWSE_GRP_LIST = None → has_uuid r' (Uuid16 PUBLIC_BROWSE_GROUP)).
Proof.
  intros (Hok & sp & Hsp & Hlive) Hne Hrec Hrok Hu Hm.
  destruct (record_add_spec (sdb s) src rec r Hok Hrec Hu Hm)
    as (db1 & -> & Hok1 & Hm1 & Ha1 & Hsd & Hh1 & Hnx & Hsi).
  rewrite outcome_bind_ret. unfold with_record, deref. cbn [sdb set_db]. rewrite Hh1, Hrec, outcome_bind_ret.
  destruct (set_handle_attr_spec r Hrok Hu) as (r' & -> & Hrok' & Hh' & Hg & Hbg). rewrite !outcome_bind_ret.
  rewrite <- Hh1 in Hrec.
  destruct (modify_spec db1 rec r r' Hok1 Hrec) as (Hok2 & Hm2 & Ha2); [by left|].
  set (s2 := set_db (modify db1 rec r') (set_db db1 s)).
  destruct (updates_spec s2) as (s' & H1 & H2 & H3 & H4 & H5 & H6 & H7 & H8 & _).
  { split; [done|]. exists sp. split; [done|]. simpl. rewrite lookup_insert. case_decide; [eauto|]. by rewrite Hh1. }
  exists s', r'. split_and!; try done.
  - apply outcome_bind_Ret_inv in H1 as (s3 & -> & H1). by rewrite outcome_bind_ret, H1.
  - by rewrite H3, <- Hm1.
  - by rewrite H4, <- Ha1.
  - rewrite H8 by done. simpl. by rewrite lookup_insert_eq.
Qed.

Lemma with_record_ret s p r r' f :
  heap (sdb s) !! p = Some r → f r = Ret r' → with_record s p f = Ret (set_db (modify (sdb s) p r') s).
Proof. intros Hp Hf. unfold with_record, deref. rewrite Hp, outcome_bind_ret, Hf. done. Qed.

Lemma next_handle_spec db :
  db_ok db → Z.of_nat (length (service_db db)) < 2 ^ 32 - 2 ^ 16 →
  ∃ h, sdp_next_handle db = Ret h ∧ 0x10000 ≤ h ∧ u32_ok h ∧ db_map db !! h = None.
Proof.
  intros Hok Hsize. destruct (next_handle_loop_spec db (S (length (service_db db))) 0x10000 Hok)
    as (h & H1 & H2 & H3 & _); try lia.
  exists h. split_and!; [done|lia|split; lia|]. apply eq_None_not_Some. by rewrite db_map_is_Some by apply Hok.
Qed.

Lemma add_record_runs s src rec r :
  server_ok s → server s ≠ Some rec → heap (sdb s) !! rec = Some r → record_ok r → u32_ok (handle r) →
  Z.of_nat (length (service_db (sdb s))) < 2 ^ 32 - 2 ^ 16 → rec ∉ service_db (sdb s) →
  handle r = 0xffffffff ∨ db_map (sdb s) !! handle r = None →
  ∃ s' h r', add_record_to_server s src rec = Ret (0, s') ∧ server_ok s' ∧
    db_map (sdb s) !! h = None ∧ (if handle r =? 0xffffffff then 0x10000 ≤ h else h = handle r) ∧
    db_map (sdb s') = <[h := rec]> (db_map (sdb s)) ∧
    access_map (sdb s') = <[h := src]> (access_map (sdb s)) ∧
    service_classes s' = classes_of (sdb s') ∧
    heap (sdb s') !! rec = Some r' ∧ record_ok r' ∧ handle r' = h ∧
    sdp_data_get r' SDP_ATTR_RECORD_HANDLE = Some (handle_elt h).
Proof.
  intros Hok Hne Hrec Hr Hu Hsize Hnew Hfree. pose proof Hok as (Hdb & sp & Hsp & Hlive).
  unfold add_record_to_server. unfold deref at 1. rewrite Hrec, outcome_bind_ret.
  destruct (Z.eqb_spec (handle r) 0xffffffff) as [E|E].
  - destruct (next_handle_spec (sdb s) Hdb Hsize) as (h & -> & Hge & Huh & Hm).
    rewrite outcome_bind_ret, (with_record_ret s rec r (set_handle h r)) by done. rewrite !outcome_bind_ret.
    rewrite (proj2 (Z.leb_le _ _)) by lia. cbn [negb].
    destruct (modify_spec (sdb s) rec r (set_handle h r) Hdb Hrec) as (Hdb1 & Hm1 & Ha1); [by right|].
    set (s1 := set_db (modify (sdb s) rec (set_handle h r)) s).
    destruct (add_under_handle s1 src rec (set_handle h r)) as (s' & r' & -> & H).
    + split; [done|]. exists sp. split; [done|]. simpl. rewrite lookup_insert. case_decide; eauto.
    + done.
    + simpl. by rewrite lookup_insert_eq.
    + done.
    + done.
    + simpl. by rewrite Hm1.
    + destruct H as (H1 & H2 & H3 & H4 & H5 & H6 & H7 & H8 & H9 & _). simpl in H2, H3.
      exists s', h, r'. rewrite Hm1 in H2. rewrite Ha1 in H3. by split_and!.
  - destruct Hfree as [|Hfree]; [done|].
    rewrite record_find_spec, outcome_bind_ret, Hfree by (apply Hdb || done).
    rewrite bool_decide_true by done. rewrite outcome_bind_ret. cbn [negb].
    destruct (add_under_handle s src rec r) as (s' & r' & -> & H); try done.
    destruct H as (H1 & H2 & H3 & H4 & H5 & H6 & H7 & H8 & H9 & _).
    exists s', (handle r), r'. by split_and!.
Qed.

Lemma remove_record_runs s h rec :
  server_ok s → u32_ok h → server s ≠ Some rec → db_map (sdb s) !! h = Some rec →
  ∃ s', remove_record_from_server s h = Ret (0, s') ∧ server_ok s' ∧
    db_map (sdb s') = delete h (db_map (sdb s)) ∧
    access_map (sdb s') = delete h (access_map (sdb s)) ∧ heap (sdb s') !! rec = None.
Proof.
  intros (Hdb & sp & Hsp & Hlive) Hh Hne Hm. unfold remove_record_from_server.
  rewrite record_find_spec, outcome_bind_ret, Hm by (apply Hdb || done).
  pose proof (record_remove_spec (sdb s) h Hdb Hh) as Hrm. rewrite Hm in Hrm.
  destruct Hrm as (db1 & -> & Hdb1 & Hm1 & Ha1 & Hsd & Hhp & _). rewrite outcome_bind_ret. cbn [fst snd].
  change (0 =? 0) with true. cbv iota.
  destruct (updates_spec (set_db db1 s)) as (s2 & H1 & (Hdb2 & _) & H3 & H4 & _ & H6 & H7 & H8 & H9).
  { split; [done|]. exists sp. split; [done|]. simpl. by rewrite Hhp. }
  rewrite H1, outcome_bind_ret. unfold sdp_record_free, deref.
  apply db_map_lookup in Hm as [Hin _]; [|apply Hdb].
  assert (is_Some (heap (sdb s2) !! rec)) as [r2 Hr2].
  { apply H9. simpl. rewrite Hhp. pose proof (db_ok_live _ Hdb) as HF. rewrite Forall_forall in HF. by apply HF. }
  rewrite Hr2, !outcome_bind_ret.
  assert (rec ∉ service_db (sdb s2)) as Hnot.
  { rewrite H7. simpl. rewrite Hsd, remove_filter, list_elem_of_filter by by apply db_ok_nodup. tauto. }
  eexists. split; [done|]. simpl. split_and!.
  - split; [by apply db_ok_free|]. exists sp. split; [simpl; by rewrite H6|]. simpl.
    rewrite lookup_delete_ne by congruence. apply H9. simpl. by rewrite Hhp.
  - rewrite <- Hm1. transitivity (db_map (sdb s2)); [|done]. unfold db_map. simpl. f_equal.
    apply list_fmap_ext. intros i q Hq. f_equal. unfold handle_of. simpl. rewrite lookup_delete_ne; [done|].
    intros ->. apply Hnot. by eapply list_elem_of_lookup_2.
  - rewrite <- Ha1. exact H4.
  - apply lookup_delete_eq.
Qed.

(** The daemon's records. [add_record_to_server] given a record without a
    handle registers it under a fresh one; given a record with a handle it
    registers it under that handle, unless the handle is in use, when it
    returns -1 and changes nothing. The record registered carries its handle
    as its handle attribute, and the service classes of the device are those
    of the repository after the change. [remove_record_from_server] takes the
    record out of the repository and frees it, and returns an error for an
    unknown handle. Both keep the server's invariant. *)
Theorem server_records_correct (s : sdpd) (src : bdaddr) (rec : loc) (r : sdp_record) (h : Z)
    (Hok : server_ok s) (Hserver : server s ≠ Some rec) (Hrec : heap (sdb s) !! rec = Some r)
    (Hr : record_ok r) (Hu : u32_ok (handle r)) (Hh : u32_ok h)
    (Hsize : Z.of_nat (length (service_db (sdb s))) < 2 ^ 32 - 2 ^ 16) :
  (handle r ≠ 0xffffffff → is_Some (db_map (sdb s) !! handle r) →
     add_record_to_server s src rec = Ret (-1, s)) ∧
  (rec ∉ service_db (sdb s) → handle r = 0xffffffff ∨ db_map (sdb s) !! handle r = None →
     ∃ s' h r', add_record_to_server s src rec = Ret (0, s') ∧ server_ok s' ∧
       db_map (sdb s) !! h = None ∧ (if handle r =? 0xffffffff then 0x10000 ≤ h else h = handle r) ∧
       db_map (sdb s') = <[h := rec]> (db_map (sdb s)) ∧
       access_map (sdb s') = <[h := src]> (access_map (sdb s)) ∧
       service_classes s' = classes_of (sdb s') ∧
       heap (sdb s') !! rec = Some r' ∧ record_ok r' ∧ handle r' = h ∧
       sdp_data_get r' SDP_ATTR_RECORD_HANDLE = Some (handle_elt h)) ∧
  (db_map (sdb s) !! h = None → remove_record_from_server s h = Ret (- ENOENT, s)) ∧
  (db_map (sdb s) !! h = Some rec →
     ∃ s', remove_record_from_server s h = Ret (0, s') ∧ server_ok s' ∧
       db_map (sdb s') = delete h (db_map (sdb s)) ∧
       access_map (sdb s') = delete h (access_map (sdb s)) ∧
       heap (sdb s') !! rec = None).
Proof.
  split_and!.
  - intros Hne [p Hp]. unfold add_record_to_server, deref. rewrite Hrec, outcome_bind_ret.
    rewrite (proj2 (Z.eqb_neq _ _)) by done. rewrite record_find_spec by (apply Hok || done).
    by rewrite Hp.
  - intros Hnew Hfree. by apply add_record_runs.
  - intros Hn. unfold remove_record_from_server. rewrite record_find_spec by (apply Hok || done). by rewrite Hn.
  - intros Hm. by apply remove_record_runs.
Qed.

Definition example_server : sdpd := Sdpd example_db (Some 1%positive) 0 0 0 0 7 [].

Lemma example_server_ok : server_ok example_server.
Proof. split; [apply example_db_ok|]. exists 1%positive. split; [done|]. by eexists. Qed.

Lemma server_records_correct_witness :
  ∃ s' h r', add_record_to_server example_server BDADDR_ANY 2%positive = Ret (0, s') ∧ server_ok s' ∧
    h = 0x10001 ∧ heap (sdb s') !! 2%positive = Some r' ∧ handle r' = h.
Proof.
  destruct (server_records_correct example_server BDADDR_ANY 2%positive
              (SdpRecord 0x10001 [] [] UuidNone) 0x10001) as (_ & H & _).
  - apply example_server_ok.
  - discriminate.
  - reflexivity.
  - by repeat constructor.
  - vm_compute. intuition congruence.
  - vm_compute. intuition congruence.
  - reflexivity.
  - destruct H as (s' & h & r' & H1 & H2 & _ & H3 & _ & _ & _ & H4 & _ & H5 & _).
    + by intros ?%list_elem_of_singleton.
    + right. reflexivity.
    + exists s', h, r'. by split_and!.
Defined.

(** An update request for the record [h] whose record body announces the
    handle [h2]. *)
Definition update_pdu (h h2 : Z) : list Z :=
  [0x77; 0; 1; 0; 14] ++ le_split 4 (htonl h) ++
  [SDP_SEQ8; 8; SDP_UINT16; 0; 0; SDP_UINT32] ++ le_split 4 (htonl h2).

(** An update request whose record body names a handle that is not
    registered is refused with a syntax error, but leaves the repository
    pointing to a freed record: [extract_pdu_server] has added the record it
    allocated to [service_db], and the failure branch frees it without
    removing it. The next search of the repository for a higher handle reads
    freed memory, and so does the next request that walks the records. *)
Theorem refused_update_leaves_dangling_record :
  ∃ s' rsp p,
    service_update_req 10 example_server
      (SdpReq BDADDR_ANY BDADDR_ANY true 3 672 0 (update_pdu 0x10000 0x10001) 19)
      (SdpBuf (repeat 0 16) 0 16) = Ret (SDP_INVALID_SYNTAX, rsp, s') ∧
    buf_data rsp = [0; 3] ++ repeat 0 14 ∧
    p ∈ service_db (sdb s') ∧ heap (sdb s') !! p = None ∧ sdp_record_find (sdb s') 0x10001 = Undef.
Proof.
  do 2 eexists. exists 3%positive. split; [vm_compute; reflexivity|]. split_and!; try reflexivity.
  apply (bool_decide_unpack _). vm_compute. exact I.
Qed.
