(* ===== verification/SdpClient.v ===== *)
(** The client side of libs/src/sdp.c: a session with an SDP server over a
    socket, the three synchronous searches, and registration, update and
    removal of records with the local server. The socket is a class; the
    responses it delivers may be anything. *)

From stdpp Require Import base list numbers sorting.
From Stdlib Require Import ZArith Lia.
From S2P Require Import Prelude CString SdpTypes SdpList SdpUuid SdpEncode SdpRecord SdpDecode.

Local Open Scope Z_scope.

(** * Sockets and sessions *)

(** The system calls of a session on its socket. [sk_send] is [send]: the
    number of bytes taken, negative on an error. [sk_wait] is [select] with the
    time-out of a response: false when it expires. [sk_recv] is [recv] into
    [size] bytes: the bytes stored, [None] on an error. *)
Class Socket (T : Type) := {
  sk_send : T → list Z → Z * T;
  sk_wait : T → bool * T;
  sk_recv : T → Z → option (list Z) * T
}.

(** The members of [sdp_session_t] the synchronous functions use, other than
    the socket. *)
Record sdp_session := SdpSession { sess_local : bool; sess_tid : Z }.

Definition sdp_gen_tid (ss : sdp_session) : Z * sdp_session :=
  (sess_tid ss, SdpSession (sess_local ss) (to_u16 (sess_tid ss + 1))).

(** [bt_put_unaligned(htons(v), p)] and [htonl] at an offset of a block. *)
Definition put_be16 (m : list Z) (off v : Z) : outcome (list Z) := wr m off (le_split 2 (htons (to_u16 v))).
Definition put_be32 (m : list Z) (off v : Z) : outcome (list Z) := wr m off (le_split 4 (htonl (to_u32 v))).

Definition SDP_ATTR_REQ_INDIVIDUAL : Z := 1.
Definition SDP_ATTR_REQ_RANGE : Z := 2.

(** ** Building requests *)

(** [values[i]]: of a UUID, its value; the tag used for every element is the
    one the caller chose. *)
Definition dataseq_value (t : Z) (e : des_elt) : sdp_ptr :=
  PMem (if SDP_IS_UUID t then drop 4 (des_mem e) else des_mem e).

(** Writes the sequence at [off]; the result is the block and the length. The
    sequence is built in a block of 256 bytes. *)
Definition gen_dataseq_pdu (dst : list Z) (off : Z) (seq : list des_elt) (t : Z) : outcome (list Z * Z) :=
  dataseq ← sdp_seq_alloc (map (λ _, t) seq) (map (dataseq_value t) seq);
  match dataseq with
  | None => Undef
  | Some d =>
      r ← sdp_gen_pdu d (SdpBuf (replicate 256 0) 0 256);
      bs ← rd (Z.to_nat (data_size r.1)) (buf_data r.1);
      m ← wr dst off bs;
      Ret (m, r.2)
  end.

(** All elements are sent with the tag of the first one. *)
Definition gen_searchseq_pdu (dst : list Z) (off : Z) (seq : list uuid_t) : outcome (list Z * Z) :=
  match seq with
  | [] => Undef
  | uuid :: _ => gen_dataseq_pdu dst off (map DesUuid seq) (uuid_type uuid)
  end.

Definition gen_attridseq_pdu (dst : list Z) (off : Z) (seq : list des_elt) (t : Z) : outcome (list Z * Z) :=
  gen_dataseq_pdu dst off seq t.

(** [cstate] is the offset of the continuation state in the response. *)
Definition copy_cstate (m : list Z) (off pdata_len : Z) (rsp : list Z) (cstate : option Z)
    : outcome (list Z * Z) :=
  match cstate with
  | Some c =>
      len ← rd8 (adv c rsp);
      let len := if pdata_len <=? len then to_u8 (pdata_len - 1) else len in
      m ← wr m off [len];
      bs ← rd (Z.to_nat len) (adv (c + 1) rsp);
      m ← wr m (off + 1) bs;
      Ret (m, len + 1)
  | None => m ← wr m off [0]; Ret (m, 1)
  end.

(** ** Exchanging PDUs *)

Section exchange.
Context {T : Type} `{Socket T}.

Fixpoint sdp_send_req (fuel : nat) (t : T) (buf : list Z) (sent size : Z) : outcome (Z * T) :=
  if sent <? size then
    match fuel with
    | O => NoFuel
    | S fuel =>
        bs ← rd (Z.to_nat (size - sent)) (adv sent buf);
        let '(n, t) := sk_send t bs in
        if n <? 0 then Ret (-1, t) else sdp_send_req fuel t buf (to_u32 (sent + n)) size
    end
  else Ret (0, t).

Definition sdp_read_rsp (t : T) (buf : list Z) (size : Z) : outcome (Z * list Z * T) :=
  let '(ready, t) := sk_wait t in
  if negb ready then Ret (-1, buf, t)
  else
    let '(d, t) := sk_recv t size in
    match d with
    | None => Ret (-1, buf, t)
    | Some d =>
        let d := take (Z.to_nat size) d in
        buf ← wr buf 0 d;
        Ret (Z.of_nat (length d), buf, t)
    end.

(** [*rspsize], [None] for -1, and the response buffer. *)
Definition sdp_send_req_w4_rsp (fuel : nat) (t : T) (reqbuf rspbuf : list Z) (reqsize : Z)
    : outcome (option Z * list Z * T) :=
  r ← sdp_send_req fuel t reqbuf 0 reqsize;
  let '(st, t) := r in
  if st <? 0 then Ret (None, rspbuf, t)
  else
    r ← sdp_read_rsp t rspbuf SDP_RSP_BUFFER_SIZE;
    let '(n, rspbuf, t) := r in
    if n <? 0 then Ret (None, rspbuf, t)
    else if n =? 0 then Ret (None, rspbuf, t)
    else
      reqtid ← rd 2 (adv 1 reqbuf);
      rsptid ← rd 2 (adv 1 rspbuf);
      if bool_decide (reqtid = rsptid) then Ret (Some n, rspbuf, t) else Ret (None, rspbuf, t).

(** The head of the loop of a search: continuation state, length and
    transaction id go into the request, the response is awaited and its header
    looked at. [None] is an error. The result has the request, the response
    and the session as the loop leaves them. *)
Definition transact (fuel : nat) (t : T) (ss : sdp_session) (req rsp : list Z) (reqsize : Z)
    (cstate : option Z) : outcome (option Z * list Z * list Z * sdp_session * T) :=
  r ← copy_cstate req reqsize (SDP_REQ_BUFFER_SIZE - reqsize) rsp cstate;
  let '(req, n) := r in
  let reqsize := reqsize + n in
  req ← put_be16 req 3 (reqsize - SDP_PDU_HDR);
  let '(tid, ss) := sdp_gen_tid ss in
  req ← put_be16 req 1 tid;
  r ← sdp_send_req_w4_rsp fuel t req rsp reqsize;
  let '(rspsize, rsp, t) := r in
  match rspsize with
  | None => Ret (None, req, rsp, ss, t)
  | Some n =>
      if lt_size n SDP_PDU_HDR then Ret (None, req, rsp, ss, t)
      else
        id ← rd8 rsp;
        if id =? SDP_ERROR_RSP then Ret (None, req, rsp, ss, t) else Ret (Some n, req, rsp, ss, t)
  end.

(** ** Service search *)

Fixpoint extract_record_handle_seq (count : nat) (p : list Z) (bufsize : Z) (seq : list Z) (scanned : Z)
    : outcome (list Z * Z) :=
  match count with
  | O => Ret (seq, scanned)
  | S count =>
      if lt_size bufsize 4 then Ret (seq, scanned)
      else
        h ← get_unaligned 4 p;
        extract_record_handle_seq count (adv 4 p) (bufsize - 4) (sdp_list_append seq (ntohl h)) (scanned + 4)
  end.

(** Status and [*rsp]. A response without room for a continuation state leaves
    [cstate] as it was. *)
Fixpoint search_req_loop (fuel : nat) (t : T) (ss : sdp_session) (req rsp : list Z) (reqsize : Z)
    (cstate : option Z) (seq : list Z) : outcome (Z * list Z * sdp_session * T) :=
  match fuel with
  | O => NoFuel
  | S fuel =>
      r ← transact (S fuel) t ss req rsp reqsize cstate;
      let '(rspsize, req, rsp, ss, t) := r in
      match rspsize with
      | None => Ret (-1, seq, ss, t)
      | Some rspsize =>
          rsplen ← get_unaligned 2 (adv 3 rsp);
          let rsplen := ntohs rsplen in
          let pdata_len := rspsize - SDP_PDU_HDR in
          if lt_size pdata_len 4 then Ret (-1, seq, ss, t)
          else
            total ← get_unaligned 2 (adv SDP_PDU_HDR rsp);
            count ← get_unaligned 2 (adv (SDP_PDU_HDR + 2) rsp);
            let rec_count := ntohs count in
            if rec_count =? 0 then Ret (-1, seq, ss, t)
            else
              r ← extract_record_handle_seq (Z.to_nat rec_count) (adv (SDP_PDU_HDR + 4) rsp) (pdata_len - 4) seq 4;
              let '(seq, scanned) := r in
              if scanned <? rsplen then
                if rspsize <? SDP_PDU_HDR + scanned + 1 then Ret (-1, seq, ss, t)
                else
                  cstate_len ← rd8 (adv (SDP_PDU_HDR + scanned) rsp);
                  if 0 <? cstate_len then
                    search_req_loop fuel t ss req rsp reqsize (Some (SDP_PDU_HDR + scanned)) seq
                  else Ret (0, seq, ss, t)
              else
                match cstate with
                | Some _ => search_req_loop fuel t ss req rsp reqsize cstate seq
                | None => Ret (0, seq, ss, t)
                end
      end
  end.

(** [reqbuf] and [rspbuf] are the blocks [malloc] returned. *)
Definition sdp_service_search_req (fuel : nat) (t : T) (ss : sdp_session) (search : list uuid_t)
    (max_rec_num : Z) (reqbuf rspbuf : list Z) : outcome (Z * list Z * sdp_session * T) :=
  req ← wr reqbuf 0 [SDP_SVC_SEARCH_REQ];
  r ← gen_searchseq_pdu req SDP_PDU_HDR search;
  let '(req, seqlen) := r in
  req ← put_be16 req (SDP_PDU_HDR + seqlen) max_rec_num;
  search_req_loop fuel t ss req rspbuf (SDP_PDU_HDR + seqlen + 2) None [].

(** ** Attribute requests *)

(** The loop both attribute searches have: the size of the attribute list,
    the list itself (the parts put together, or the only part with all that
    follows it in the response) and the number of bytes vouched for. *)
Fixpoint attr_rsp_loop (fuel : nat) (t : T) (ss : sdp_session) (req rsp : list Z) (reqsize : Z)
    (cstate : option Z) (concat_buf : list Z) (attr_list_len : Z)
    : outcome (option (Z * list Z * Z) * sdp_session * T) :=
  match fuel with
  | O => NoFuel
  | S fuel =>
      r ← transact (S fuel) t ss req rsp reqsize cstate;
      let '(rspsize, req, rsp, ss, t) := r in
      match rspsize with
      | None => Ret (None, ss, t)
      | Some rspsize =>
          let pdata_len := rspsize - SDP_PDU_HDR in
          if lt_size pdata_len 2 then Ret (None, ss, t)
          else
            count ← get_unaligned 2 (adv SDP_PDU_HDR rsp);
            let rsp_count := ntohs count in
            let attr_list_len := attr_list_len + rsp_count in
            let pdata := adv (SDP_PDU_HDR + 2) rsp in
            let pdata_len := pdata_len - 2 in
            if lt_size pdata_len (rsp_count + 1) then Ret (None, ss, t)
            else
              cstate_len ← rd8 (adv rsp_count pdata);
              r ← (if (0 <? cstate_len) || bool_decide (concat_buf ≠ []) then
                     bs ← rd (Z.to_nat rsp_count) pdata;
                     Ret (if 0 <? cstate_len then Some (SDP_PDU_HDR + 2 + rsp_count) else None,
                          concat_buf ++ bs)
                   else Ret (cstate, concat_buf));
              let '(cstate, concat_buf) := r in
              match cstate with
              | Some _ => attr_rsp_loop fuel t ss req rsp reqsize cstate concat_buf attr_list_len
              | None =>
                  let found := match concat_buf with
                               | [] => (attr_list_len, pdata, pdata_len)
                               | _ => (attr_list_len, concat_buf, Z.of_nat (length concat_buf))
                               end in
                  Ret (Some found, ss, t)
              end
      end
  end.

Definition attr_type (reqtype : Z) : Z :=
  if reqtype =? SDP_ATTR_REQ_INDIVIDUAL then SDP_UINT16 else SDP_UINT32.

(** The record, [None] for NULL. *)
Definition sdp_service_attr_req (fuel : nat) (t : T) (ss : sdp_session) (h reqtype : Z)
    (attrids : list des_elt) (reqbuf rspbuf : list Z) : outcome (option sdp_record * sdp_session * T) :=
  if negb (reqtype =? SDP_ATTR_REQ_INDIVIDUAL) && negb (reqtype =? SDP_ATTR_REQ_RANGE) then
    Ret (None, ss, t)
  else
    req ← wr reqbuf 0 [SDP_SVC_ATTR_REQ];
    req ← put_be32 req SDP_PDU_HDR h;
    req ← put_be16 req (SDP_PDU_HDR + 4) 65535;
    r ← gen_attridseq_pdu req (SDP_PDU_HDR + 6) attrids (attr_type reqtype);
    let '(req, seqlen) := r in
    if seqlen =? -1 then Ret (None, ss, t)
    else
      r ← attr_rsp_loop fuel t ss req rspbuf (SDP_PDU_HDR + 6 + seqlen) None [] 0;
      let '(found, ss, t) := r in
      match found with
      | None => Ret (None, ss, t)
      | Some (attr_list_len, pdata, pdata_len) =>
          if 0 <? attr_list_len then
            r ← sdp_extract_pdu_safe fuel pdata pdata_len; Ret (Some r.1, ss, t)
          else Ret (None, ss, t)
      end.

(** [do ... while (scanned < attr_list_len && pdata_len > 0)] *)
Fixpoint extract_records (fuel afuel : nat) (pdata : list Z) (pdata_len scanned attr_list_len : Z)
    (rec_list : list sdp_record) : outcome (list sdp_record) :=
  match fuel with
  | O => NoFuel
  | S fuel =>
      r ← sdp_extract_pdu_safe afuel pdata pdata_len;
      let '(rec, recsize) := r in
      if recsize =? 0 then Ret rec_list
      else
        let scanned := scanned + recsize in
        let pdata_len := pdata_len - recsize in
        let rec_list := sdp_list_append rec_list rec in
        if (scanned <? attr_list_len) && (0 <? pdata_len) then
          extract_records fuel afuel (adv recsize pdata) pdata_len scanned attr_list_len rec_list
        else Ret rec_list
  end.

(** Status and [*rsp]. *)
Definition sdp_service_search_attr_req (fuel : nat) (t : T) (ss : sdp_session) (search : list uuid_t)
    (reqtype : Z) (attrids : list des_elt) (reqbuf rspbuf : list Z)
    : outcome (Z * list sdp_record * sdp_session * T) :=
  if negb (reqtype =? SDP_ATTR_REQ_INDIVIDUAL) && negb (reqtype =? SDP_ATTR_REQ_RANGE) then
    Ret (-1, [], ss, t)
  else
    req ← wr reqbuf 0 [SDP_SVC_SEARCH_ATTR_REQ];
    r ← gen_searchseq_pdu req SDP_PDU_HDR search;
    let '(req, n) := r in
    req ← put_be16 req (SDP_PDU_HDR + n) SDP_MAX_ATTR_LEN;
    r ← gen_attridseq_pdu req (SDP_PDU_HDR + n + 2) attrids (attr_type reqtype);
    let '(req, seqlen) := r in
    if seqlen =? -1 then Ret (EINVAL, [], ss, t)
    else
      r ← attr_rsp_loop fuel t ss req rspbuf (SDP_PDU_HDR + n + 2 + seqlen) None [] 0;
      let '(found, ss, t) := r in
      match found with
      | None => Ret (-1, [], ss, t)
      | Some (attr_list_len, pdata, pdata_len) =>
          if 0 <? attr_list_len then
            r ← sdp_extract_seqtype_safe pdata pdata_len 0 seqlen;
            let '(scanned, _, seqlen) := r in
            if negb (scanned =? 0) && negb (seqlen =? 0) then
              l ← extract_records fuel fuel (adv scanned pdata) (pdata_len - scanned) scanned attr_list_len [];
              Ret (0, l, ss, t)
            else Ret (0, [], ss, t)
          else Ret (0, [], ss, t)
      end.

(** ** Registration with the local server *)

(** Status and [*handle], [None] when it is not set. *)
Definition sdp_device_record_register_binary (fuel : nat) (t : T) (ss : sdp_session) (device : bdaddr)
    (data : list Z) (size flags : Z) (reqbuf rspbuf : list Z)
    : outcome (Z * option Z * sdp_session * T) :=
  if negb (sess_local ss) then Ret (-1, None, ss, t)
  else
    req ← wr reqbuf 0 [SDP_SVC_REGISTER_REQ];
    let '(tid, ss) := sdp_gen_tid ss in
    req ← put_be16 req 1 tid;
    let any := bacmp device BDADDR_ANY =? 0 in
    req ← wr req SDP_PDU_HDR (if any then [to_u8 flags] else to_u8 (Z.lor flags SDP_DEVICE_RECORD) :: device);
    let reqsize := SDP_PDU_HDR + 1 + (if any then 0 else 6) in
    bs ← rd (Z.to_nat size) data;
    req ← wr req reqsize bs;
    let reqsize := reqsize + size in
    req ← put_be16 req 3 (reqsize - SDP_PDU_HDR);
    r ← sdp_send_req_w4_rsp fuel t req rspbuf reqsize;
    let '(rspsize, rsp, t) := r in
    match rspsize with
    | None => Ret (-1, None, ss, t)
    | Some rspsize =>
        if lt_size rspsize SDP_PDU_HDR then Ret (-1, None, ss, t)
        else
          id ← rd8 rsp;
          if id =? SDP_ERROR_RSP then Ret (-1, None, ss, t)
          else if negb (id =? SDP_SVC_REGISTER_RSP) then Ret (-1, None, ss, t)
          else if lt_size rspsize (SDP_PDU_HDR + 4) then Ret (-1, None, ss, t)
          else h ← get_unaligned 4 (adv SDP_PDU_HDR rsp); Ret (0, Some (ntohl h), ss, t)
    end.

Definition handle_data (h : Z) : outcome (option sdp_data) :=
  sdp_data_alloc SDP_UINT32 (PMem (le_split 4 h)).

(** Status and the record. *)
Definition sdp_device_record_register (fuel : nat) (t : T) (ss : sdp_session) (device : bdaddr)
    (rec : sdp_record) (flags : Z) (reqbuf rspbuf : list Z)
    : outcome (Z * sdp_record * sdp_session * T) :=
  rec ← (if negb (handle rec =? 0) && negb (handle rec =? 0xffffffff) then
           data ← handle_data (handle rec); sdp_attr_replace rec SDP_ATTR_RECORD_HANDLE data
         else Ret rec);
  pdu ← sdp_gen_record_pdu rec;
  r ← sdp_device_record_register_binary fuel t ss device (buf_data pdu) (data_size pdu) flags reqbuf rspbuf;
  let '(err, h, ss, t) := r in
  match h with
  | Some h =>
      data ← handle_data h;
      rec ← sdp_attr_replace (set_handle h rec) SDP_ATTR_RECORD_HANDLE data;
      Ret (err, rec, ss, t)
  | None => Ret (err, rec, ss, t)
  end.

Definition sdp_record_register (fuel : nat) (t : T) (ss : sdp_session) (rec : sdp_record) (flags : Z)
    (reqbuf rspbuf : list Z) : outcome (Z * sdp_record * sdp_session * T) :=
  sdp_device_record_register fuel t ss BDADDR_ANY rec flags reqbuf rspbuf.

(** The end of an update or a removal: the status in the response, as it
    stands in the packet, unless the response is another one. *)
Definition status_rsp (rsp_id : Z) (r : option Z * list Z * T) : outcome (Z * T) :=
  let '(rspsize, rsp, t) := r in
  match rspsize with
  | None => Ret (-1, t)
  | Some rspsize =>
      if lt_size rspsize (SDP_PDU_HDR + 2) then Ret (-1, t)
      else
        id ← rd8 rsp;
        status ← get_unaligned 2 (adv SDP_PDU_HDR rsp);
        if id =? SDP_ERROR_RSP then Ret (-1, t)
        else if negb (id =? rsp_id) then Ret (-1, t)
        else Ret (status, t)
  end.

Definition sdp_device_record_unregister_binary (fuel : nat) (t : T) (ss : sdp_session) (device : bdaddr)
    (h : Z) (reqbuf rspbuf : list Z) : outcome (Z * sdp_session * T) :=
  if h =? SDP_SERVER_RECORD_HANDLE then Ret (-1, ss, t)
  else if negb (sess_local ss) then Ret (-1, ss, t)
  else
    req ← wr reqbuf 0 [SDP_SVC_REMOVE_REQ];
    let '(tid, ss) := sdp_gen_tid ss in
    req ← put_be16 req 1 tid;
    req ← put_be32 req SDP_PDU_HDR h;
    req ← put_be16 req 3 4;
    r ← sdp_send_req_w4_rsp fuel t req rspbuf (SDP_PDU_HDR + 4);
    r ← status_rsp SDP_SVC_REMOVE_RSP r;
    Ret (r.1, ss, r.2).

(** The record is freed on success: [None]. *)
Definition sdp_device_record_unregister (fuel : nat) (t : T) (ss : sdp_session) (device : bdaddr)
    (rec : sdp_record) (reqbuf rspbuf : list Z) : outcome (Z * option sdp_record * sdp_session * T) :=
  r ← sdp_device_record_unregister_binary fuel t ss device (handle rec) reqbuf rspbuf;
  let '(err, ss, t) := r in
  Ret (err, if err =? 0 then None else Some rec, ss, t).

Definition sdp_record_unregister (fuel : nat) (t : T) (ss : sdp_session) (rec : sdp_record)
    (reqbuf rspbuf : list Z) : outcome (Z * option sdp_record * sdp_session * T) :=
  sdp_device_record_unregister fuel t ss BDADDR_ANY rec reqbuf rspbuf.

Definition sdp_device_record_update_binary : Z := -1.

Definition sdp_device_record_update (fuel : nat) (t : T) (ss : sdp_session) (device : bdaddr)
    (rec : sdp_record) (reqbuf rspbuf : list Z) : outcome (Z * sdp_session * T) :=
  if handle rec =? SDP_SERVER_RECORD_HANDLE then Ret (-1, ss, t)
  else if negb (sess_local ss) then Ret (-1, ss, t)
  else
    req ← wr reqbuf 0 [SDP_SVC_UPDATE_REQ];
    let '(tid, ss) := sdp_gen_tid ss in
    req ← put_be16 req 1 tid;
    req ← put_be32 req SDP_PDU_HDR (handle rec);
    pdu ← sdp_gen_record_pdu rec;
    bs ← rd (Z.to_nat (data_size pdu)) (buf_data pdu);
    req ← wr req (SDP_PDU_HDR + 4) bs;
    let reqsize := SDP_PDU_HDR + 4 + data_size pdu in
    req ← put_be16 req 3 (reqsize - SDP_PDU_HDR);
    r ← sdp_send_req_w4_rsp fuel t req rspbuf reqsize;
    r ← status_rsp SDP_SVC_UPDATE_RSP r;
    Ret (r.1, ss, r.2).

Definition sdp_record_update (fuel : nat) (t : T) (ss : sdp_session) (rec : sdp_record)
    (reqbuf rspbuf : list Z) : outcome (Z * sdp_session * T) :=
  sdp_device_record_update fuel t ss BDADDR_ANY rec reqbuf rspbuf.

End exchange.
