(* ===== verification/SdpRequest.v ===== *)
(** Requests to the SDP server, utils/sdpd/request.c and cstate.c: parsing of
    search patterns and attribute lists, matching, the three discovery
    requests with their continuation states, and the dispatcher. *)

From stdpp Require Import base list numbers sorting gmap.
From Stdlib Require Import ZArith Lia.
From S2P Require Import Prelude CString SdpTypes SdpList SdpUuid SdpEncode SdpRecord SdpDecode SdpAttrs SdpDb SdpService.

Local Open Scope Z_scope.

(** * Data element sequences of requests *)

Definition SDP_TYPE_UUID : Z := 0xfe.
Definition SDP_TYPE_ANY : Z := 0xff.

(** One turn of the loop: the element and the bytes it took; [DesFail] is
    [return -1], [DesRetry] a UUID that could not be extracted, after which the
    loop goes on at the same place. *)
Inductive des_step := DesElt (e : des_elt) (n : Z) | DesFail | DesRetry.

Definition des_type_ok (expectedType dataType : Z) : bool :=
  if expectedType =? SDP_TYPE_UUID then SDP_IS_UUID dataType
  else (expectedType =? SDP_TYPE_ANY) || (dataType =? expectedType).

Definition extract_des_elt (p : list Z) (bufsize dataType : Z) : outcome des_step :=
  if dataType =? SDP_UINT16 then
    if lt_size (bufsize - 1) 2 then Ret DesFail
    else z ← get_unaligned 2 (adv 1 p); Ret (DesElt (DesU16 (ntohs z)) 3)
  else if dataType =? SDP_UINT32 then
    if bufsize - 1 <? 4 then Ret DesFail
    else z ← get_unaligned 4 (adv 1 p); Ret (DesElt (DesU32 (ntohl z)) 5)
  else if SDP_IS_UUID dataType then
    r ← sdp_uuid_extract_safe p bufsize 0;
    match r with
    | (Some u, n) => Ret (DesElt (DesUuid u) n)
    | (None, _) => Ret DesRetry
    end
  else Ret DesFail.

(** The elements, [seqlen] and the last [dataType]; [None] is -1. *)
Fixpoint extract_des_loop (fuel : nat) (p : list Z) (bufsize len data_size seqlen expectedType : Z)
    (pSeq : list des_elt) : outcome (option (list des_elt * Z * Z)) :=
  match fuel with
  | O => NoFuel
  | S fuel =>
      if lt_size bufsize 1 then Ret None
      else
        dataType ← rd8 p;
        if negb (des_type_ok expectedType dataType) then Ret None
        else
          r ← extract_des_elt p bufsize dataType;
          match r with
          | DesFail => Ret None
          | DesRetry => extract_des_loop fuel p bufsize len data_size seqlen expectedType pSeq
          | DesElt e n =>
              let pSeq := sdp_list_append pSeq e in
              let seqlen := seqlen + n in
              if seqlen =? data_size then Ret (Some (pSeq, seqlen, dataType))
              else if (data_size <? seqlen) || (len <? seqlen) then Ret None
              else extract_des_loop fuel (adv n p) (bufsize - n) len data_size seqlen expectedType pSeq
          end
  end.

(** [scanned], the list and [*pDataType]; [None] is -1. *)
Definition extract_des (fuel : nat) (buf : list Z) (len expectedType : Z)
    : outcome (option (Z * list des_elt * Z)) :=
  r ← sdp_extract_seqtype_safe buf len 0 0;
  let '(scanned, seqType, data_size) := r in
  if (scanned =? 0) || (negb (seqType =? SDP_SEQ8) && negb (seqType =? SDP_SEQ16)) then Ret None
  else
    r ← extract_des_loop fuel (adv scanned buf) (len - scanned) len data_size 0 expectedType [];
    match r with
    | Some (pSeq, seqlen, dataType) => Ret (Some (scanned + seqlen, pSeq, dataType))
    | None => Ret None
    end.

Definition des_uuids (l : list des_elt) : list uuid_t :=
  omap (λ e, match e with DesUuid u => Some u | _ => None end) l.

(** * Matching *)

(** 1 when every UUID of the search is in the pattern, 0 when one is missing,
    -1 when the search is longer than the pattern. *)
Fixpoint match_loop (search pattern : list uuid_t) : Z :=
  match search with
  | [] => 1
  | u :: search =>
      match sdp_list_find pattern (sdp_uuid_to_uuid128 u) sdp_uuid128_cmp with
      | Some _ => match_loop search pattern
      | None => 0
      end
  end.

Definition sdp_match_uuid (search pattern : list uuid_t) : Z :=
  if sdp_list_len pattern <? sdp_list_len search then -1 else match_loop search pattern.

(** * Continuation states *)

(** [sdp_cont_state_t]: a time stamp, a 16-bit counter and two bytes of
    padding, eight bytes in memory. *)
Record sdp_cont_state := SdpContState { cs_timestamp : Z; cs_value : Z; cs_pad : list Z }.

Definition cstate_bytes (c : sdp_cont_state) : list Z :=
  le_split 4 (cs_timestamp c) ++ le_split 2 (cs_value c) ++ cs_pad c.

Definition SDP_CONT_STATE_SIZE : Z := 9.

Definition new_cstate (ts v : Z) : sdp_cont_state := SdpContState ts (to_u16 v) [0; 0].

(** Appends to the buffer, without checking its size; the result counts the
    bytes. *)
Definition sdp_set_cstate_pdu (buf : sdp_buf) (cstate : option sdp_cont_state) : outcome (sdp_buf * Z) :=
  match cstate with
  | Some c => buf ← buf_put buf (8 :: cstate_bytes c); Ret (buf, 9)
  | None => buf ← buf_put buf [0]; Ret (buf, 1)
  end.

(** Whatever non-zero size the request announces, eight bytes are copied. *)
Definition sdp_cstate_get (p : list Z) : outcome (option sdp_cont_state) :=
  cStateSize ← rd8 p;
  if cStateSize =? 0 then Ret None
  else
    bs ← rd 8 (adv 1 p);
    Ret (Some (SdpContState (le_join (take 4 bs)) (le_join (take 2 (drop 4 bs))) (drop 6 bs))).

Definition sdp_get_cached_rsp (s : sdpd) (c : sdp_cont_state) : option (list Z) :=
  snd <$> List.find (λ e, fst e =? cs_timestamp c) (cstates s).

(** The cached copy and its time stamp. *)
Definition sdp_cstate_alloc_buf (s : sdpd) (buf : sdp_buf) : outcome (Z * sdpd) :=
  data ← rd (Z.to_nat (data_size buf)) (buf_data buf);
  Ret (sdp_get_time s, set_cstates ((sdp_get_time s, data) :: cstates s) s).

(** * Service search *)

Definition put_u16 (buf : sdp_buf) (off v : Z) : outcome sdp_buf :=
  m ← wr (buf_data buf) off (le_split 2 (htons (to_u16 v))); Ret (set_buf_data m buf).

(** [MIN(x, y)] *)
Definition MIN (x y : Z) : Z := if x <? y then x else y.

(** The loop over the repository: the number of matches and the buffer, with
    the handles written from offset 4 on. *)
Fixpoint search_loop (s : sdpd) (device : bdaddr) (pattern0 : list uuid_t) (expected : Z)
    (l : list loc) (rsp_count : Z) (buf : sdp_buf) : outcome (Z * sdp_buf) :=
  match l with
  | [] => Ret (rsp_count, buf)
  | p :: l =>
      if rsp_count <? expected then
        rec ← deref (sdb s) p;
        if (0 <? sdp_match_uuid pattern0 (pattern rec)) && sdp_check_access (sdb s) (handle rec) device then
          m ← wr (buf_data buf) (4 + 4 * rsp_count) (le_split 4 (htonl (handle rec)));
          search_loop s device pattern0 expected l (rsp_count + 1) (set_buf_data m buf)
        else search_loop s device pattern0 expected l rsp_count buf
      else Ret (rsp_count, buf)
  end.

(** [for (i = lastIndex; (i - lastIndex) < actual && i < rsp_count; i++)]: copy
    the handles [i], [i + 1], ... of the cached response to [off]; [n] is the
    number of turns left. *)
Fixpoint copy_handles (n : nat) (cache : list Z) (i off : Z) (buf : sdp_buf) : outcome sdp_buf :=
  match n with
  | O => Ret buf
  | S n =>
      if i <? 0 then Undef
      else
        h ← rd 4 (adv (4 * i) cache);
        m ← wr (buf_data buf) off h;
        copy_handles n cache (i + 1) (off + 4) (set_buf_data m buf)
  end.

(** The continuation: either the first part of a response too long to send
    whole, whose handles are already in place, or a later part of a cached
    one. *)
Definition search_continue (s : sdpd) (cstate : option sdp_cont_state) (cStateId rsp_count actual : Z)
    (buf : sdp_buf) : outcome (Z * sdp_buf) :=
  r ← match cstate with
      | Some c =>
          match sdp_get_cached_rsp s c with
          | None => Ret None
          | Some cache =>
              rc ← get_unaligned 2 cache;
              let rsp_count := ntohs rc in
              let lastIndex := to_i16 (cs_value c) in
              let n := Z.max 0 (Z.min actual (rsp_count - lastIndex)) in
              buf ← copy_handles (Z.to_nat n) (adv 4 cache) lastIndex 4 buf;
              Ret (Some (rsp_count, lastIndex, lastIndex + n, 4 * n, buf))
          end
      | None => Ret (Some (rsp_count, 0, actual, Z.shiftl actual 2, buf))
      end;
  match r with
  | None => Ret (SDP_INVALID_CSTATE, buf)
  | Some (rsp_count, lastIndex, i, handleSize, buf) =>
      let buf := add_data_size handleSize buf in
      buf ← put_u16 buf 0 rsp_count;
      buf ← put_u16 buf 2 (i - lastIndex);
      r ← (if i =? rsp_count then sdp_set_cstate_pdu buf None
           else
             let c := match cstate with
                      | Some c => SdpContState (cs_timestamp c) (to_u16 i) (cs_pad c)
                      | None => new_cstate cStateId i
                      end in
             sdp_set_cstate_pdu buf (Some c));
      Ret (0, r.1)
  end.

(** Status, response and state. *)
Definition service_search_req (fuel : nat) (s : sdpd) (req : sdp_req) (buf : sdp_buf)
    : outcome (Z * sdp_buf * sdpd) :=
  let pdata := adv SDP_PDU_HDR (req_buf req) in
  r ← extract_des fuel pdata (req_len req - SDP_PDU_HDR) SDP_TYPE_UUID;
  match r with
  | None => Ret (SDP_INVALID_SYNTAX, buf, s)
  | Some (scanned, seq, _) =>
      let pdata := adv scanned pdata in
      plen ← get_unaligned 2 (adv 3 (req_buf req));
      let plen := ntohs plen in
      let mlen := scanned + 2 + 1 in
      ok ← (if plen <? mlen then Ret false
            else n ← rd8 (adv 2 pdata); Ret (plen =? mlen + n));
      if negb ok then Ret (SDP_INVALID_SYNTAX, buf, s)
      else
        e ← get_unaligned 2 pdata;
        let expected := ntohs e in
        cstate ← sdp_cstate_get (adv 2 pdata);
        let mtu := req_mtu req - SDP_PDU_HDR - 2 - 2 - SDP_CONT_STATE_SIZE in
        let actual := to_u16 (MIN expected (Z.shiftr mtu 2)) in
        buf ← put_u16 buf 0 0;
        buf ← put_u16 buf 2 0;
        let buf := add_data_size 4 buf in
        match cstate with
        | None =>
            r ← search_loop s (req_device req) (des_uuids seq) expected
                  (sdp_get_record_list (sdb s)) 0 buf;
            let '(rsp_count, buf) := r in
            let buf := add_data_size (4 * rsp_count) buf in
            buf ← put_u16 buf 0 rsp_count;
            buf ← put_u16 buf 2 rsp_count;
            if actual <? rsp_count then
              r ← sdp_cstate_alloc_buf s buf;
              let '(cStateId, s) := r in
              let buf := add_data_size (- (4 * rsp_count)) buf in
              if 0 <? cStateId then
                r ← search_continue s None cStateId rsp_count actual buf;
                Ret (r.1, r.2, s)
              else Ret (0, buf, s)
            else
              r ← sdp_set_cstate_pdu buf None;
              Ret (0, r.1, s)
        | Some _ =>
            r ← search_continue s cstate 0 0 actual buf;
            Ret (r.1, r.2, s)
        end
  end.

(** * Attributes *)

(** [sdp_append_to_pdu]; growing a buffer whose [data] points into the middle
    of its block would hand [realloc] a pointer it never returned. *)
Definition pdu_append (interior : bool) (buf : sdp_buf) (d : sdp_data) : outcome sdp_buf :=
  b ← sdp_append_to_pdu buf d;
  if interior && negb (buf_size b =? buf_size buf) then Undef else Ret b.

Definition append_attr (interior : bool) (rec : sdp_record) (attr : Z) (buf : sdp_buf) : outcome sdp_buf :=
  match sdp_data_get rec attr with
  | Some a => pdu_append interior buf a
  | None => Ret buf
  end.

Fixpoint attrs_u16 (interior : bool) (rec : sdp_record) (seq : list des_elt) (buf : sdp_buf)
    : outcome sdp_buf :=
  match seq with
  | [] => Ret buf
  | e :: seq =>
      attr ← get_unaligned 2 (des_mem e);
      buf ← append_attr interior rec attr buf;
      attrs_u16 interior rec seq buf
  end.

(** The attributes [attr], [attr + 1], ... in turn, [n] of them. *)
Fixpoint attrs_range (interior : bool) (rec : sdp_record) (n : nat) (attr : Z) (buf : sdp_buf)
    : outcome sdp_buf :=
  match n with
  | O => Ret buf
  | S n => buf ← append_attr interior rec attr buf; attrs_range interior rec n (attr + 1) buf
  end.

Fixpoint attrs_u32 (interior : bool) (rec : sdp_record) (pdu : sdp_buf) (seq : list des_elt)
    (buf : sdp_buf) : outcome sdp_buf :=
  match seq with
  | [] => Ret buf
  | e :: seq =>
      range ← get_unaligned 4 (des_mem e);
      let low := Z.shiftr (Z.land 0xffff0000 range) 16 in
      let high := Z.land 0x0000ffff range in
      if (low =? 0) && (high =? 0xffff) && (data_size pdu <=? buf_size buf) then
        bs ← rd (Z.to_nat (data_size pdu)) (buf_data pdu);
        m ← wr (buf_data buf) 0 bs;
        Ret (SdpBuf m (data_size pdu) (buf_size buf))
      else
        buf ← attrs_range interior rec (Z.to_nat (high - low)) low buf;
        buf ← append_attr interior rec high buf;
        attrs_u32 interior rec pdu seq buf
  end.

Definition extract_attrs (interior : bool) (rec : option sdp_record) (seq : list des_elt) (t : Z)
    (buf : sdp_buf) : outcome (Z * sdp_buf) :=
  match rec with
  | None => Ret (SDP_INVALID_RECORD_HANDLE, buf)
  | Some rec =>
      match seq with
      | [] => Ret (0, buf)
      | _ =>
          if t =? SDP_UINT16 then b ← attrs_u16 interior rec seq buf; Ret (0, b)
          else if t =? SDP_UINT32 then
            pdu ← sdp_gen_record_pdu rec;
            b ← attrs_u32 interior rec pdu seq buf; Ret (0, b)
          else Ret (SDP_INVALID_SYNTAX, buf)
      end
  end.

(** [MIN] of an [int] and a [size_t], stored in an [int]. *)
Definition min_size (x y : Z) : Z := to_i32 (MIN (to_size_t x) (to_size_t y)).

(** ** The two responses that carry attributes share how a response is cut up *)

(** First part of a response longer than [max]: cache it, send [max] bytes. *)
Definition start_cont (s : sdpd) (buf : sdp_buf) (max : Z) : outcome (sdp_buf * Z * sdpd) :=
  r ← sdp_cstate_alloc_buf s buf;
  let '(ts, s) := r in
  r ← sdp_set_cstate_pdu (SdpBuf (buf_data buf) max (buf_size buf)) (Some (new_cstate ts max));
  Ret (r.1, r.2, s).

(** A later part: [memcpy] of [sent] bytes of the cache from [maxBytesSent]
    on. [narrow] is the conversion of [sent] to its 16-bit type. *)
Definition next_cont (narrow : Z → Z) (cache : list Z) (c : sdp_cont_state) (max : Z) (buf : sdp_buf)
    : outcome (sdp_buf * Z) :=
  let size := Z.of_nat (length cache) in
  let sent := narrow (MIN (to_u32 max) (to_u32 (size - cs_value c))) in
  if sent <? 0 then Undef
  else
    bs ← rd (Z.to_nat sent) (adv (cs_value c) cache);
    m ← wr (buf_data buf) 0 bs;
    let buf := add_data_size sent (set_buf_data m buf) in
    let v := to_u16 (cs_value c + sent) in
    sdp_set_cstate_pdu buf
      (if v =? size then None else Some (SdpContState (cs_timestamp c) v (cs_pad c))).

(** [buf->data += 2; buf->buf_size -= 2] and back. *)
Definition pull_header (buf : sdp_buf) : sdp_buf :=
  SdpBuf (drop 2 (buf_data buf)) (data_size buf) (buf_size buf - 2).
Definition push_header (outer buf : sdp_buf) : sdp_buf :=
  SdpBuf (take 2 (buf_data outer) ++ buf_data buf) (data_size buf) (buf_size buf + 2).

(** The byte count in front of the attribute list. *)
Definition finish_attrs (buf : sdp_buf) (cstate_size : Z) : outcome sdp_buf :=
  buf ← put_u16 buf 0 (data_size buf - cstate_size); Ret (add_data_size 2 buf).

Definition service_attr_req (fuel : nat) (s : sdpd) (req : sdp_req) (buf : sdp_buf)
    : outcome (Z * sdp_buf * sdpd) :=
  let pdata := adv SDP_PDU_HDR (req_buf req) in
  h ← get_unaligned 4 pdata;
  let h := ntohl h in
  max ← get_unaligned 2 (adv 4 pdata);
  let max := ntohs max in
  let pdata := adv 6 pdata in
  r ← extract_des fuel pdata (req_len req - SDP_PDU_HDR) SDP_TYPE_ANY;
  match r with
  | None => Ret (SDP_INVALID_SYNTAX, buf, s)
  | Some (scanned, seq, t) =>
      let pdata := adv scanned pdata in
      plen ← get_unaligned 2 (adv 3 (req_buf req));
      let plen := ntohs plen in
      let mlen := scanned + 4 + 2 + 1 in
      ok ← (if plen <? mlen then Ret false else n ← rd8 pdata; Ret (plen =? mlen + n));
      if negb ok then Ret (SDP_INVALID_SYNTAX, buf, s)
      else
        cstate ← sdp_cstate_get pdata;
        let max := min_size max (req_mtu req - SDP_PDU_HDR - 4 - SDP_CONT_STATE_SIZE - 2) in
        let inner := pull_header buf in
        r ← match cstate with
            | Some c =>
                match sdp_get_cached_rsp s c with
                | Some cache => r ← next_cont to_i16 cache c max inner; Ret (0, r.1, r.2, s)
                | None => Ret (SDP_INVALID_CSTATE, inner, 0, s)
                end
            | None =>
                f ← sdp_record_find (sdb s) h;
                rec ← match f with Some p => r ← deref (sdb s) p; Ret (Some r) | None => Ret None end;
                r ← extract_attrs true rec seq t inner;
                let '(status, inner) := r in
                if to_u32 max <? data_size inner then
                  r ← start_cont s inner max; Ret (status, r.1.1, r.1.2, r.2)
                else
                  inner ← (if data_size inner =? 0 then sdp_append_to_buf inner [] 0 else Ret inner);
                  r ← sdp_set_cstate_pdu inner None;
                  Ret (status, r.1, r.2, s)
            end;
        let '(status, inner, cstate_size, s) := r in
        let buf := push_header buf inner in
        if status =? 0 then b ← finish_attrs buf cstate_size; Ret (0, b, s)
        else Ret (status, buf, s)
  end.

(** [memset(tmpbuf.data, 0, USHRT_MAX)] *)
Definition clear_tmp (buf : sdp_buf) : sdp_buf :=
  SdpBuf (replicate (Z.to_nat USHRT_MAX) 0 ++ drop (Z.to_nat USHRT_MAX) (buf_data buf)) 0 (buf_size buf).

(** The loop over the repository: status, number of matches, response and
    scratch buffer. *)
Fixpoint search_attr_loop (s : sdpd) (device : bdaddr) (pattern0 : list uuid_t) (seq : list des_elt)
    (t : Z) (l : list loc) (rsp_count : Z) (buf tmp : sdp_buf) : outcome (Z * Z * sdp_buf * sdp_buf) :=
  match l with
  | [] => Ret (0, rsp_count, buf, tmp)
  | p :: l =>
      rec ← deref (sdb s) p;
      if (0 <? sdp_match_uuid pattern0 (pattern rec)) && sdp_check_access (sdb s) (handle rec) device then
        r ← extract_attrs false (Some rec) seq t tmp;
        let '(status, tmp) := r in
        if negb (status =? 0) then Ret (status, rsp_count + 1, buf, tmp)
        else if data_size buf + data_size tmp <? buf_size buf then
          buf ← sdp_append_to_buf buf (buf_data tmp) (data_size tmp);
          search_attr_loop s device pattern0 seq t l (rsp_count + 1) buf (clear_tmp tmp)
        else Ret (0, rsp_count + 1, buf, tmp)
      else search_attr_loop s device pattern0 seq t l rsp_count buf tmp
  end.

Definition service_search_attr_req (fuel : nat) (s : sdpd) (req : sdp_req) (buf : sdp_buf)
    : outcome (Z * sdp_buf * sdpd) :=
  let pdata := adv SDP_PDU_HDR (req_buf req) in
  r ← extract_des fuel pdata (req_len req - SDP_PDU_HDR) SDP_TYPE_UUID;
  match r with
  | None => Ret (SDP_INVALID_SYNTAX, buf, s)
  | Some (scanned, uuids, _) =>
      let totscanned := scanned in
      let pdata := adv scanned pdata in
      max ← get_unaligned 2 pdata;
      let max := ntohs max in
      let pdata := adv 2 pdata in
      r ← extract_des fuel pdata (req_len req - SDP_PDU_HDR) SDP_TYPE_ANY;
      match r with
      | None => Ret (SDP_INVALID_SYNTAX, buf, s)
      | Some (scanned, seq, t) =>
          let pdata := adv scanned pdata in
          let totscanned := totscanned + (scanned + 2 + 1) in
          plen ← get_unaligned 2 (adv 3 (req_buf req));
          let plen := ntohs plen in
          ok ← (if plen <? totscanned then Ret false else n ← rd8 pdata; Ret (plen =? totscanned + n));
          if negb ok then Ret (SDP_INVALID_SYNTAX, buf, s)
          else
            cstate ← sdp_cstate_get pdata;
            let tmp := SdpBuf (replicate (Z.to_nat USHRT_MAX) 0) 0 USHRT_MAX in
            let max := min_size max (req_mtu req - SDP_PDU_HDR - SDP_CONT_STATE_SIZE - 2) in
            let inner := pull_header buf in
            r ← match cstate with
                | None =>
                    r ← search_attr_loop s (req_device req) (des_uuids uuids) seq t
                          (sdp_get_record_list (sdb s)) 0 inner tmp;
                    let '(status, rsp_count, inner, tmp) := r in
                    r ← (if to_u32 max <? data_size inner then start_cont s inner max
                         else r ← sdp_set_cstate_pdu inner None; Ret (r.1, r.2, s));
                    let '(inner, cstate_size, s) := r in
                    inner ← (if rsp_count =? 0 then
                               b ← sdp_append_to_buf (SdpBuf (buf_data inner) 0 (buf_size inner))
                                     (buf_data tmp) (data_size tmp);
                               r ← sdp_set_cstate_pdu b None; Ret r.1
                             else Ret inner);
                    Ret (status, inner, cstate_size, s)
                | Some c =>
                    match sdp_get_cached_rsp s c with
                    | Some cache => r ← next_cont to_u16 cache c max inner; Ret (0, r.1, r.2, s)
                    | None => Ret (SDP_INVALID_CSTATE, inner, 0, s)
                    end
                end;
            let '(status, inner, cstate_size, s) := r in
            let buf := push_header buf inner in
            if status =? 0 then b ← finish_attrs buf cstate_size; Ret (0, b, s)
            else Ret (status, buf, s)
      end
  end.

(** * Dispatch *)

(** The PDU sent back and the state. *)
Definition process_request (fuel : nat) (s : sdpd) (req : sdp_req) : outcome (list Z * sdpd) :=
  let rsp := SdpBuf (replicate (Z.to_nat (USHRT_MAX - SDP_PDU_HDR)) 0) 0 (USHRT_MAX - SDP_PDU_HDR) in
  pdu_id ← rd8 (req_buf req);
  tid ← rd 2 (adv 1 (req_buf req));
  plen ← get_unaligned 2 (adv 3 (req_buf req));
  r ← (if negb (ntohs plen =? to_size_t (req_len req - SDP_PDU_HDR)) then
         Ret (0, SDP_INVALID_PDU_SIZE, rsp, s)
       else if pdu_id =? SDP_SVC_SEARCH_REQ then
         r ← service_search_req fuel s req rsp; Ret (SDP_SVC_SEARCH_RSP, r.1.1, r.1.2, r.2)
       else if pdu_id =? SDP_SVC_ATTR_REQ then
         r ← service_attr_req fuel s req rsp; Ret (SDP_SVC_ATTR_RSP, r.1.1, r.1.2, r.2)
       else if pdu_id =? SDP_SVC_SEARCH_ATTR_REQ then
         r ← service_search_attr_req fuel s req rsp; Ret (SDP_SVC_SEARCH_ATTR_RSP, r.1.1, r.1.2, r.2)
       else if pdu_id =? SDP_SVC_REGISTER_REQ then
         if req_local req then
           r ← service_register_req fuel s req rsp; Ret (SDP_SVC_REGISTER_RSP, r.1.1, r.1.2, r.2)
         else Ret (0, SDP_INVALID_SYNTAX, rsp, s)
       else if pdu_id =? SDP_SVC_UPDATE_REQ then
         if req_local req then
           r ← service_update_req fuel s req rsp; Ret (SDP_SVC_UPDATE_RSP, r.1.1, r.1.2, r.2)
         else Ret (0, SDP_INVALID_SYNTAX, rsp, s)
       else if pdu_id =? SDP_SVC_REMOVE_REQ then
         if req_local req then
           r ← service_remove_req s req rsp; Ret (SDP_SVC_REMOVE_RSP, r.1.1, r.1.2, r.2)
         else Ret (0, SDP_INVALID_SYNTAX, rsp, s)
       else Ret (0, SDP_INVALID_SYNTAX, rsp, s));
  let '(rsp_id, status, rsp, s) := r in
  r ← (if status =? 0 then Ret (rsp_id, rsp)
       else b ← rsp_u16 rsp status; Ret (SDP_ERROR_RSP, b));
  let '(rsp_id, rsp) := r in
  body ← rd (Z.to_nat (data_size rsp)) (buf_data rsp);
  Ret ([rsp_id] ++ tid ++ le_split 2 (htons (to_u16 (data_size rsp))) ++ body, s).

(** What [getpeername], [getsockname] and [getsockopt] tell about the socket a
    request came from: nothing, an L2CAP connection between two devices with
    its outgoing MTU, or a local socket. *)
Inductive peer :=
  | PeerUnknown
  | PeerL2cap (remote local : bdaddr) (omtu : Z)
  | PeerLocal.

(** The response to send, if any, and the state. *)
Definition handle_request (fuel : nat) (s : sdpd) (from : peer) (sk : Z) (data : list Z) (len : Z)
    : outcome (option (list Z) * sdpd) :=
  match from with
  | PeerUnknown => Ret (None, s)
  | PeerL2cap remote device omtu =>
      r ← process_request fuel s (SdpReq device remote false sk omtu 0 data len); Ret (Some r.1, r.2)
  | PeerLocal =>
      r ← process_request fuel s (SdpReq BDADDR_ANY BDADDR_LOCAL true sk 2048 0 data len); Ret (Some r.1, r.2)
  end.

(** * Matching is set inclusion *)

Lemma match_loop_spec search rec :
  0 < match_loop search (pattern rec) ↔ Forall (has_uuid rec) search.
Proof.
  induction search as [|u search IH]; simpl; [by split|]. rewrite Forall_cons_iff. unfold has_uuid at 1.
  destruct (sdp_list_find (pattern rec) (sdp_uuid_to_uuid128 u) sdp_uuid128_cmp); [rewrite IH|]; naive_solver lia.
Qed.

(** The patterns found are as many as the UUIDs looked for. *)
Lemma has_uuids_length search rec :
  Forall uuid_ok search → NoDup (map uuid_canon search) → Forall (has_uuid rec) search →
  (length search ≤ length (pattern rec))%nat.
Proof.
  intros Hok Hnd Hall.
  assert (NoDup (map (λ u, uuid_value (sdp_uuid_to_uuid128 u)) search)) as Hnd'.
  { revert Hnd. clear Hall. induction Hok as [|u search Hu Hok IH]; simpl; [by constructor|].
    rewrite !NoDup_cons. intros [Hu' Hnd]. split; [|by apply IH].
    intros (w & Hw & Hin)%list_elem_of_fmap. apply Hu', list_elem_of_fmap. exists w. split; [|done].
    apply uuid_cmp_canon; [done| |]. { rewrite Forall_forall in Hok. by apply Hok. }
    unfold sdp_uuid128_cmp. by apply memcmp_eq. }
  assert (map (λ u, uuid_value (sdp_uuid_to_uuid128 u)) search ⊆+ map uuid_value (pattern rec)) as Hsub.
  { apply NoDup_submseteq; [done|]. intros v (u & -> & Hin)%list_elem_of_fmap.
    rewrite Forall_forall in Hall. specialize (Hall u Hin). unfold has_uuid in Hall.
    destruct (sdp_list_find _ _ _) as [x|] eqn:Hf; [|done]. apply find_Some in Hf as [Hx Hc].
    unfold sdp_uuid128_cmp in Hc. apply memcmp_eq in Hc as Hc. rewrite <- Hc.
    apply list_elem_of_fmap. by exists x. }
  apply submseteq_length in Hsub. by rewrite !length_map in Hsub.
Qed.

Lemma match_uuid_spec search rec :
  0 < sdp_match_uuid search (pattern rec) ↔
  (length search ≤ length (pattern rec))%nat ∧ Forall (has_uuid rec) search.
Proof.
  unfold sdp_match_uuid, sdp_list_len. rewrite <- match_loop_spec.
  destruct (Z.ltb_spec (Z.of_nat (length (pattern rec))) (Z.of_nat (length search))); lia.
Qed.

Lemma match_uuid_nodup search rec :
  Forall uuid_ok search → NoDup (map uuid_canon search) →
  0 < sdp_match_uuid search (pattern rec) ↔ Forall (has_uuid rec) search.
Proof.
  intros Hok Hnd. rewrite match_uuid_spec. split; [tauto|]. intros Hall. split; [|done].
  by apply has_uuids_length.
Qed.

(** A record matches a search exactly when it holds every UUID searched
    for. [sdp_match_uuid] is positive when each UUID of the search, in
    whatever size, is in the record's pattern; for a search without repeated
    UUIDs that is the only condition; a search longer than the pattern, as one
    that repeats a UUID may be, is reported as -1. *)
Theorem match_uuid_correct (search : list uuid_t) (rec : sdp_record)
    (Hok : Forall uuid_ok search) :
  (0 < sdp_match_uuid search (pattern rec) ↔
     (length search ≤ length (pattern rec))%nat ∧ Forall (has_uuid rec) search) ∧
  (NoDup (map uuid_canon search) →
     0 < sdp_match_uuid search (pattern rec) ↔ Forall (has_uuid rec) search) ∧
  (sdp_match_uuid search (pattern rec) = -1 ↔ (length (pattern rec) < length search)%nat).
Proof.
  split_and!; [apply match_uuid_spec|intros; by apply match_uuid_nodup|].
  - assert (∀ l, 0 ≤ match_loop l (pattern rec)) as Hnn.
    { induction l as [|u l IH]; simpl; [lia|]. by destruct (sdp_list_find _ _ _). }
    unfold sdp_match_uuid, sdp_list_len. specialize (Hnn search).
    destruct (Z.ltb_spec (Z.of_nat (length (pattern rec))) (Z.of_nat (length search))); lia.
Qed.

Lemma match_uuid_correct_witness :
  let rec := sdp_pattern_add_uuidseq sdp_record_alloc [Uuid16 0x1101; Uuid16 0x1002] in
  0 < sdp_match_uuid [Uuid32 0x1002] (pattern rec).
Proof.
  intros rec. apply (match_uuid_correct [Uuid32 0x1002] rec).
  - repeat constructor; vm_compute; congruence.
  - constructor; [by intros ?%elem_of_nil|constructor].
  - constructor; [|constructor]. vm_compute. congruence.
Defined.

(** * Parsing of search patterns and attribute lists *)

(** The wire form of an element of the list, its descriptor, and the values
    the wire form can carry. *)
Definition des_dtd (e : des_elt) : Z :=
  match e with
  | DesU16 _ => SDP_UINT16
  | DesU32 _ => SDP_UINT32
  | DesUuid u => uuid_type u
  end.

Definition des_enc (e : des_elt) : list Z :=
  match e with
  | DesU16 v => SDP_UINT16 :: be_split 2 v
  | DesU32 v => SDP_UINT32 :: be_split 4 v
  | DesUuid u => sdp_encode (SdpData (uuid_type u) 0 (VUuid u) 0)
  end.

Definition des_ok (expectedType : Z) (e : des_elt) : Prop :=
  des_type_ok expectedType (des_dtd e) = true ∧
  match e with
  | DesU16 v => 0 ≤ v < 2 ^ 16
  | DesU32 v => 0 ≤ v < 2 ^ 32
  | DesUuid u => uuid_ok u
  end.

Definition des_bytes (l : list des_elt) : list Z := concat (map des_enc l).

Lemma des_enc_head e : ∃ k, des_enc e = des_dtd e :: k.
Proof. destruct e as [v|v|u]; simpl; eauto. Qed.

Lemma extract_des_elt_spec e expectedType rest bufsize :
  des_ok expectedType e → Z.of_nat (length (des_enc e)) ≤ bufsize < 2 ^ 31 →
  extract_des_elt (des_enc e ++ rest) bufsize (des_dtd e) =
  Ret (DesElt e (Z.of_nat (length (des_enc e)))).
Proof.
  intros [_ He] Hb. destruct e as [v|v|u]; unfold extract_des_elt.
  - simpl in Hb. rewrite length_be_split in Hb. simpl. fits. rewrite adv_cons, get_be, outcome_bind_ret.
    unfold ntohs. rewrite bswap_be by done. feq.
  - simpl in Hb. rewrite length_be_split in Hb. simpl. rewrite (proj2 (Z.ltb_ge _ _)) by lia.
    rewrite adv_cons, get_be, outcome_bind_ret. unfold ntohl. rewrite bswap_be by done. feq.
  - cbn [des_dtd des_enc] in *.
    assert ((uuid_type u =? SDP_UINT16) = false ∧ (uuid_type u =? SDP_UINT32) = false ∧
            SDP_IS_UUID (uuid_type u) = true) as (-> & -> & ->) by (by destruct u).
    by rewrite uuid_extract_spec.
Qed.

Lemma extract_des_loop_spec expectedType l e :
  Forall (des_ok expectedType) (l ++ [e]) →
  ∀ fuel rest bufsize len data_size seqlen acc, (length l < fuel)%nat → 0 ≤ seqlen →
  data_size = seqlen + Z.of_nat (length (des_bytes (l ++ [e]))) → data_size ≤ len →
  Z.of_nat (length (des_bytes (l ++ [e]))) ≤ bufsize < 2 ^ 31 →
  extract_des_loop fuel (des_bytes (l ++ [e]) ++ rest) bufsize len data_size seqlen expectedType acc =
  Ret (Some (acc ++ l ++ [e], data_size, des_dtd e)).
Proof.
  assert (∀ x k, des_bytes (x :: k) = des_enc x ++ des_bytes k) as Hcons by done.
  induction l as [|x l IH]; intros HF fuel rest bufsize len data_size seqlen acc Hf H0 -> Hlen Hb;
    (destruct fuel as [|fuel]; [simpl in Hf; lia|]); cbn [app] in *; rewrite Hcons in *;
    apply Forall_cons_iff in HF as [Hx HF]; rewrite length_app in *; cbn [extract_des_loop].
  - change (des_bytes []) with (@nil Z) in *. rewrite app_nil_r. simpl length in *.
    destruct (des_enc_head e) as [k Hk].
    assert (0 < length (des_enc e))%nat by (rewrite Hk; simpl; lia). fits.
    assert (rd8 (des_enc e ++ rest) = Ret (des_dtd e)) as -> by (by rewrite Hk).
    rewrite outcome_bind_ret, (proj1 Hx). cbn [negb].
    rewrite (extract_des_elt_spec _ expectedType), outcome_bind_ret by (done || lia).
    rewrite Nat.add_0_r, Z.eqb_refl. done.
  - destruct (des_enc_head x) as [k Hk].
    assert (0 < length (des_enc x))%nat by (rewrite Hk; simpl; lia). fits.
    assert (rd8 ((des_enc x ++ des_bytes (l ++ [e])) ++ rest) = Ret (des_dtd x)) as -> by (by rewrite Hk).
    rewrite outcome_bind_ret, (proj1 Hx). cbn [negb]. rewrite <- app_assoc.
    rewrite (extract_des_elt_spec _ expectedType), outcome_bind_ret by (done || lia).
    assert (0 < length (des_bytes (l ++ [e])))%nat.
    { unfold des_bytes. rewrite map_app, concat_app, length_app. simpl.
      destruct (des_enc_head e) as [k' ->]. simpl. lia. }
    rewrite (proj2 (Z.eqb_neq _ _)) by lia. rewrite !(proj2 (Z.ltb_ge _ _)) by lia. cbn [orb].
    rewrite adv_app by done. simpl in Hf. rewrite IH by (done || lia).
    unfold sdp_list_append. rewrite <- app_assoc. feq.
Qed.

Lemma extract_des_spec t w l e expectedType rest len fuel :
  (t = SDP_SEQ8 ∧ w = 1%nat) ∨ (t = SDP_SEQ16 ∧ w = 2%nat) →
  Forall (des_ok expectedType) (l ++ [e]) → (length l < fuel)%nat →
  Z.of_nat (length (des_bytes (l ++ [e]))) < 2 ^ (8 * Z.of_nat w) →
  1 + Z.of_nat w + Z.of_nat (length (des_bytes (l ++ [e]))) ≤ len < 2 ^ 31 →
  extract_des fuel
    (t :: be_split w (Z.of_nat (length (des_bytes (l ++ [e])))) ++ des_bytes (l ++ [e]) ++ rest)
    len expectedType =
  Ret (Some (1 + Z.of_nat w + Z.of_nat (length (des_bytes (l ++ [e]))), l ++ [e], des_dtd e)).
Proof.
  intros Ht Hl Hfuel Hsize Hlen.
  assert (is_seq t || is_alt t = true ∧ len_width t = Some w ∧ (w ≤ 2)%nat ∧
    negb (t =? SDP_SEQ8) && negb (t =? SDP_SEQ16) = false) as (E1 & E2 & E3 & E4).
  { destruct Ht as [[-> ->]|[-> ->]]; split_and!; done || lia. }
  unfold extract_des. rewrite extract_seqtype_spec; try done; try lia.
  rewrite outcome_bind_ret, E4. rewrite (proj2 (Z.eqb_neq _ _)) by lia. cbn [orb].
  rewrite app_comm_cons, adv_app by (simpl; rewrite length_be_split; lia).
  rewrite extract_des_loop_spec by (done || lia). rewrite outcome_bind_ret. feq.
Qed.

(** Search patterns and attribute lists are parsed back. A sequence, with
    an 8- or 16-bit length, of UUIDs of any size, or of 16- and 32-bit numbers
    where any type is accepted, is read by [extract_des] as the list of its
    elements in order, with the number of bytes taken and the type of the last
    element, wherever it stands in the request. *)
Theorem extract_des_roundtrip (t : Z) (w : nat) (l : list des_elt) (e : des_elt) (expectedType : Z)
    (rest : list Z) (len : Z) (fuel : nat)
    (Ht : (t = SDP_SEQ8 ∧ w = 1%nat) ∨ (t = SDP_SEQ16 ∧ w = 2%nat))
    (Hl : Forall (des_ok expectedType) (l ++ [e])) (Hfuel : (length l < fuel)%nat)
    (Hsize : Z.of_nat (length (des_bytes (l ++ [e]))) < 2 ^ (8 * Z.of_nat w))
    (Hlen : 1 + Z.of_nat w + Z.of_nat (length (des_bytes (l ++ [e]))) ≤ len < 2 ^ 31) :
  extract_des fuel
    (t :: be_split w (Z.of_nat (length (des_bytes (l ++ [e])))) ++ des_bytes (l ++ [e]) ++ rest)
    len expectedType =
  Ret (Some (1 + Z.of_nat w + Z.of_nat (length (des_bytes (l ++ [e]))), l ++ [e], des_dtd e)).
Proof. by apply extract_des_spec. Qed.

Lemma extract_des_roundtrip_witness :
  extract_des 10 [0x35; 8; 0x19; 0x11; 0x01; 0x1a; 0; 1; 0x11; 0x01; 99] 11 SDP_TYPE_UUID =
  Ret (Some (10, [DesUuid (Uuid16 0x1101); DesUuid (Uuid32 0x11101)], SDP_UUID32)).
Proof.
  apply (extract_des_roundtrip SDP_SEQ8 1 [DesUuid (Uuid16 0x1101)] (DesUuid (Uuid32 0x11101)) SDP_TYPE_UUID
           [99] 11 10).
  - auto.
  - repeat constructor; vm_compute; congruence.
  - simpl. lia.
  - vm_compute. reflexivity.
  - vm_compute. intuition congruence.
Defined.

(** ** Where the parser of requests goes wrong *)

Lemma extract_des_truncated fuel x :
  extract_des fuel [SDP_SEQ8; 3; SDP_UUID16; x] 4 SDP_TYPE_UUID = NoFuel.
Proof.
  unfold extract_des.
  change (sdp_extract_seqtype_safe [SDP_SEQ8; 3; SDP_UUID16; x] 4 0 0) with (Ret (2, SDP_SEQ8, 3)).
  rewrite outcome_bind_ret. cbv iota beta.
  change ((2 =? 0) || negb (SDP_SEQ8 =? SDP_SEQ8) && negb (SDP_SEQ8 =? SDP_SEQ16)) with false. cbv iota.
  change (adv 2 [SDP_SEQ8; 3; SDP_UUID16; x]) with [SDP_UUID16; x]. change (4 - 2) with 2.
  assert (∀ f, extract_des_loop f [SDP_UUID16; x] 2 4 3 0 SDP_TYPE_UUID [] = NoFuel) as ->; [|done].
  induction f as [|f IH]; [done|]. exact IH.
Qed.

(** C40: one short packet hangs the server. A service search request whose
    search pattern ends in the middle of a UUID makes [extract_des] try to
    extract that UUID again and again: whatever the fuel, the state of the
    server and the sender, [process_request] does not return. *)
Theorem truncated_uuid_hangs_server (fuel : nat) (s : sdpd) (device addr : bdaddr) (local : bool)
    (sock mtu flags tid1 tid2 x : Z) :
  process_request fuel s
    (SdpReq device addr local sock mtu flags
       [SDP_SVC_SEARCH_REQ; tid1; tid2; 0; 4; SDP_SEQ8; 3; SDP_UUID16; x] 9) = NoFuel.
Proof.
  unfold process_request. set (rsp := SdpBuf _ _ _). clearbody rsp. cbn [req_buf req_len].
  set (req := SdpReq _ _ _ _ _ _ _ _).
  assert (service_search_req fuel s req rsp = NoFuel) as Hsearch.
  { unfold service_search_req, req. cbn [req_buf req_len].
    change (adv SDP_PDU_HDR [SDP_SVC_SEARCH_REQ; tid1; tid2; 0; 4; SDP_SEQ8; 3; SDP_UUID16; x])
      with [SDP_SEQ8; 3; SDP_UUID16; x]. change (9 - SDP_PDU_HDR) with 4.
    by rewrite extract_des_truncated. }
  change (rd8 (SDP_SVC_SEARCH_REQ :: _)) with (Ret SDP_SVC_SEARCH_REQ). rewrite outcome_bind_ret.
  change (rd 2 _) with (Ret [tid1; tid2]). rewrite outcome_bind_ret.
  change (get_unaligned 2 _) with (Ret 1024). rewrite outcome_bind_ret.
  change (negb (ntohs 1024 =? to_size_t (9 - SDP_PDU_HDR))) with false. cbv iota.
  change (SDP_SVC_SEARCH_REQ =? SDP_SVC_SEARCH_REQ) with true. cbv iota. by rewrite Hsearch.
Qed.

(** * Continuation of long responses *)

Lemma wr_inside mem off bs :
  0 ≤ off → off + Z.of_nat (length bs) ≤ Z.of_nat (length mem) →
  wr mem off bs = Ret (take (Z.to_nat off) mem ++ bs ++ drop (Z.to_nat off + length bs) mem).
Proof. intros. unfold wr. by rewrite decide_True. Qed.

Definition cont_ok (c : sdp_cont_state) : Prop :=
  0 ≤ cs_timestamp c < 2 ^ 32 ∧ 0 ≤ cs_value c < 2 ^ 16 ∧ length (cs_pad c) = 2%nat.

(** The bytes [sdp_set_cstate_pdu] appends. *)
Definition cont_bytes (c : option sdp_cont_state) : list Z :=
  match c with
  | Some c => 8 :: cstate_bytes c
  | None => [0]
  end.

Lemma length_cont_bytes c : (∀ c', c = Some c' → cont_ok c') → (length (cont_bytes c) ≤ 9)%nat.
Proof.
  intros Hc. destruct c as [c|]; simpl; [|lia]. destruct (Hc c eq_refl) as (_ & _ & Hp).
  unfold cstate_bytes. len.
Qed.

Lemma set_cstate_pdu_spec pre post n bs c :
  n = Z.of_nat (length pre) → (∀ c', c = Some c' → cont_ok c') →
  (length (cont_bytes c) ≤ length post)%nat →
  sdp_set_cstate_pdu (SdpBuf (pre ++ post) n bs) c =
  Ret (SdpBuf (pre ++ cont_bytes c ++ drop (length (cont_bytes c)) post)
         (n + Z.of_nat (length (cont_bytes c))) bs, Z.of_nat (length (cont_bytes c))).
Proof.
  intros Hn Hc Hpost. pose proof (length_cont_bytes c Hc) as Hl.
  assert (buf_put (SdpBuf (pre ++ post) n bs) (cont_bytes c) =
    Ret (SdpBuf (pre ++ cont_bytes c ++ drop (length (cont_bytes c)) post)
           (n + Z.of_nat (length (cont_bytes c))) bs)) as Hput.
  { unfold buf_put. cbn [buf_data data_size].
    rewrite (wr_at pre (take (length (cont_bytes c)) post) (drop (length (cont_bytes c)) post)).
    - done.
    - by rewrite take_drop.
    - done.
    - rewrite length_take. lia. }
  unfold sdp_set_cstate_pdu. destruct c as [c|]; cbn [cont_bytes] in *; rewrite Hput; [|done].
  destruct (Hc c eq_refl) as (_ & _ & Hp).
  assert (Z.of_nat (length (8 :: cstate_bytes c)) = 9) as E by (unfold cstate_bytes; len).
  by rewrite outcome_bind_ret, E.
Qed.

Lemma cstate_get_spec c rest :
  (∀ c', c = Some c' → cont_ok c') → sdp_cstate_get (cont_bytes c ++ rest) = Ret c.
Proof.
  intros Hc. destruct c as [[ts v pad]|]; [|done]. destruct (Hc _ eq_refl) as (Ht & Hv & Hp). simpl in Ht, Hv, Hp.
  unfold sdp_cstate_get. cbn [cont_bytes]. simpl rd8. rewrite outcome_bind_ret. cbn [Z.eqb].
  simpl app. rewrite adv_cons. unfold cstate_bytes. cbn [cs_timestamp cs_value cs_pad].
  rewrite rd_app by len. rewrite outcome_bind_ret.
  rewrite take_app_length', drop_app_length', take_app_length' by by len.
  replace 6%nat with (4 + 2)%nat by done. rewrite <- drop_drop, !drop_app_length' by by len.
  by rewrite !le_join_split_id.
Qed.

(** A later part of a cached response: the next [max] bytes, and a
    continuation state unless they are the last. *)
Lemma next_cont_spec narrow cache c max buf :
  (∀ z, 0 ≤ z < 2 ^ 15 → narrow z = z) → cont_ok c →
  cs_value c < Z.of_nat (length cache) < 2 ^ 16 → 0 < max < 2 ^ 15 → data_size buf = 0 →
  max + 9 ≤ Z.of_nat (length (buf_data buf)) →
  let sent := Z.min max (Z.of_nat (length cache) - cs_value c) in
  let c' := if cs_value c + sent =? Z.of_nat (length cache) then None
            else Some (SdpContState (cs_timestamp c) (cs_value c + sent) (cs_pad c)) in
  ∃ post, next_cont narrow cache c max buf =
    Ret (SdpBuf (take (Z.to_nat sent) (drop (Z.to_nat (cs_value c)) cache) ++ cont_bytes c' ++ post)
           (sent + Z.of_nat (length (cont_bytes c'))) (buf_size buf), Z.of_nat (length (cont_bytes c'))) ∧
    (∀ c'', c' = Some c'' → cont_ok c'').
Proof.
  intros Hn (Ht & Hv & Hp) Hc Hm Hd Hroom sent c'. unfold next_cont. cbv zeta.
  assert (0 < sent ≤ max ∧ cs_value c + sent ≤ Z.of_nat (length cache)) as [Hs1 Hs2] by (unfold sent; lia).
  assert (narrow (MIN (to_u32 max) (to_u32 (Z.of_nat (length cache) - cs_value c))) = sent) as ->.
  { unfold to_u32. rewrite !Z.mod_small by lia. rewrite Hn.
    - unfold MIN, sent. destruct (Z.ltb_spec max (Z.of_nat (length cache) - cs_value c)); lia.
    - unfold MIN. destruct (Z.ltb_spec max (Z.of_nat (length cache) - cs_value c)); lia. }
  rewrite (proj2 (Z.ltb_ge _ _)) by lia. set (chunk := take _ (drop _ cache)).
  assert (length chunk = Z.to_nat sent) as Hl by (unfold chunk; rewrite length_take, length_drop; lia).
  assert (rd (Z.to_nat sent) (adv (cs_value c) cache) = Ret chunk) as ->.
  { apply rd_ok. unfold adv. rewrite length_drop. lia. }
  rewrite outcome_bind_ret, wr_inside, outcome_bind_ret by lia. unfold to_u16.
  rewrite (Z.mod_small (cs_value c + sent)) by lia. fold c'.
  assert (∀ c'', c' = Some c'' → cont_ok c'') as Hc'.
  { unfold c'. intros c''. destruct (Z.eqb_spec (cs_value c + sent) (Z.of_nat (length cache))); [done|].
    intros [= <-]. split_and!; simpl; done || lia. }
  unfold add_data_size, set_buf_data. cbn [buf_data data_size buf_size].
  change (Z.to_nat 0) with 0%nat. rewrite take_0, app_nil_l, Hd, Z.add_0_l. cbn [Nat.add].
  pose proof (length_cont_bytes c' Hc').
  rewrite set_cstate_pdu_spec; [|lia|done|rewrite length_drop; lia].
  by eexists.
Qed.

(** A client that asks for the rest of a response by echoing the continuation
    state it was sent. *)
Fixpoint reassemble (narrow : Z → Z) (fuel : nat) (cache : list Z) (max : Z) (buf : sdp_buf)
    (c : sdp_cont_state) : outcome (list Z) :=
  match fuel with
  | O => NoFuel
  | S fuel =>
      r ← next_cont narrow cache c max buf;
      let n := data_size r.1 - r.2 in
      chunk ← rd (Z.to_nat n) (buf_data r.1);
      c ← sdp_cstate_get (adv n (buf_data r.1));
      match c with
      | None => Ret chunk
      | Some c => rest ← reassemble narrow fuel cache max buf c; Ret (chunk ++ rest)
      end
  end.

Lemma reassemble_spec narrow cache max buf :
  (∀ z, 0 ≤ z < 2 ^ 15 → narrow z = z) → Z.of_nat (length cache) < 2 ^ 16 → 0 < max < 2 ^ 15 →
  data_size buf = 0 → max + 9 ≤ Z.of_nat (length (buf_data buf)) →
  ∀ fuel c, cont_ok c → cs_value c < Z.of_nat (length cache) →
  Z.of_nat (length cache) - cs_value c ≤ Z.of_nat fuel →
  reassemble narrow fuel cache max buf c = Ret (drop (Z.to_nat (cs_value c)) cache).
Proof.
  intros Hn Hc Hm Hd Hroom. induction fuel as [|fuel IH]; intros c Hok Hv Hf; [lia|].
  cbn [reassemble]. pose proof Hok as (Ht & Hv' & Hp).
  destruct (next_cont_spec narrow cache c max buf) as (post & -> & Hc'); [done..|lia|done|done|done|].
  set (sent := Z.min max (Z.of_nat (length cache) - cs_value c)) in *.
  assert (0 < sent ∧ cs_value c + sent ≤ Z.of_nat (length cache)) as [Hs1 Hs2] by (unfold sent; lia).
  set (chunk := take (Z.to_nat sent) (drop (Z.to_nat (cs_value c)) cache)) in *.
  assert (length chunk = Z.to_nat sent) as Hl by (unfold chunk; rewrite length_take, length_drop; lia).
  rewrite outcome_bind_ret. cbn [fst snd data_size buf_data]. rewrite Z.add_simpl_r.
  rewrite rd_app, outcome_bind_ret, adv_app, cstate_get_spec, outcome_bind_ret by (done || lia).
  destruct (Z.eqb_spec (cs_value c + sent) (Z.of_nat (length cache))) as [E|E].
  - f_equal. unfold chunk. apply take_ge. rewrite length_drop. lia.
  - rewrite IH by (try apply Hc'; simpl; done || lia). simpl. f_equal. unfold chunk.
    rewrite Z2Nat.inj_add, <- drop_drop, take_drop by lia. done.
Qed.

Lemma narrow_i16 z : 0 ≤ z < 2 ^ 15 → to_i16 z = z.
Proof. intros. unfold to_i16. rewrite Z.mod_small; lia. Qed.

Lemma narrow_u16 z : 0 ≤ z < 2 ^ 15 → to_u16 z = z.
Proof. intros. unfold to_u16. rewrite Z.mod_small; lia. Qed.

Lemma cached_rsp_hit s ts data c :
  cs_timestamp c = ts → sdp_get_cached_rsp (set_cstates ((ts, data) :: cstates s) s) c = Some data.
Proof. intros <-. unfold sdp_get_cached_rsp. simpl. by rewrite Z.eqb_refl. Qed.

(** The first part of a response: [max] bytes and a continuation state; the
    whole goes to the cache. *)
Lemma start_cont_spec s data post max bs :
  0 < max < 2 ^ 15 → max < Z.of_nat (length data) → (9 ≤ length post)%nat →
  let c := new_cstate (sdp_get_time s) max in
  cont_ok c ∧ cs_value c = max ∧
  ∃ post', start_cont s (SdpBuf (data ++ post) (Z.of_nat (length data)) bs) max =
    Ret (SdpBuf (take (Z.to_nat max) data ++ cont_bytes (Some c) ++ post')
           (max + Z.of_nat (length (cont_bytes (Some c)))) bs,
         Z.of_nat (length (cont_bytes (Some c))), set_cstates ((sdp_get_time s, data) :: cstates s) s).
Proof.
  intros Hmax Hdata Hpost c.
  assert (cont_ok c) as Hc.
  { unfold c, new_cstate. split_and!; simpl; try done; try (apply Z.mod_pos_bound; lia);
      unfold to_u16; apply Z.mod_pos_bound; lia. }
  assert (cs_value c = max) as Hv by (apply narrow_u16; lia).
  split; [done|]. split; [done|].
  set (data1 := take (Z.to_nat max) data). set (data2 := drop (Z.to_nat max) data).
  assert (data = data1 ++ data2) as Hsplit by (unfold data1, data2; by rewrite take_drop).
  assert (length data1 = Z.to_nat max) as Hl1 by (unfold data1; rewrite length_take; lia).
  unfold start_cont, sdp_cstate_alloc_buf. cbn [data_size buf_data buf_size].
  rewrite Nat2Z.id, rd_app, !outcome_bind_ret by done. fold c.
  replace (data ++ post) with (data1 ++ data2 ++ post) by (by rewrite app_assoc, <- Hsplit).
  pose proof (length_cont_bytes (Some c)) as Hl. specialize (Hl ltac:(by intros ? [= <-])).
  rewrite set_cstate_pdu_spec; [by eexists|lia|by intros ? [= <-]|rewrite length_app; lia].
Qed.

(** A long response arrives whole. When the attribute list in the buffer
    is longer than the [max] bytes a response may carry, [start_cont] caches
    it and sends the first [max] bytes with a continuation state; a client
    that keeps echoing the state it gets receives the following parts from the
    cache, and its request loop ends with exactly the bytes of the original
    response, for both request types. *)
Theorem continuation_reassembles (narrow : Z → Z) (s : sdpd) (data post buf0 : list Z) (max bs : Z)
    (fuel : nat) (Hnarrow : narrow = to_i16 ∨ narrow = to_u16)
    (Hdata : max < Z.of_nat (length data) < 2 ^ 16) (Hmax : 0 < max < 2 ^ 15)
    (Hpost : (9 ≤ length post)%nat) (Hbuf0 : max + 9 ≤ Z.of_nat (length buf0))
    (Hfuel : Z.of_nat (length data) ≤ Z.of_nat fuel) :
  ∃ buf n s' c rest,
    start_cont s (SdpBuf (data ++ post) (Z.of_nat (length data)) bs) max = Ret (buf, n, s') ∧
    rd (Z.to_nat max) (buf_data buf) = Ret (take (Z.to_nat max) data) ∧
    sdp_cstate_get (adv max (buf_data buf)) = Ret (Some c) ∧
    sdp_get_cached_rsp s' c = Some data ∧
    reassemble narrow fuel data max (SdpBuf buf0 0 (Z.of_nat (length buf0))) c = Ret rest ∧
    take (Z.to_nat max) data ++ rest = data.
Proof.
  destruct (start_cont_spec s data post max bs) as (Hc & Hv & post' & ->); [lia..|].
  set (c := new_cstate (sdp_get_time s) max) in *.
  assert (length (take (Z.to_nat max) data) = Z.to_nat max) as Hl by (rewrite length_take; lia).
  eexists _, _, _, c, (drop (Z.to_nat max) data). split; [done|]. cbn [buf_data].
  rewrite rd_app, adv_app by lia. split; [done|].
  split; [by apply cstate_get_spec; intros ? [= <-]|].
  split; [by apply cached_rsp_hit|]. split; [|apply take_drop].
  rewrite reassemble_spec; rewrite ?Hv; try done; try lia.
  destruct Hnarrow as [->| ->]; intros; [by apply narrow_i16|by apply narrow_u16].
Qed.

Lemma continuation_reassembles_witness :
  ∃ buf n s' c rest,
    start_cont (sdpd_init 99) (SdpBuf ([1; 2; 3; 4; 5; 6; 7] ++ replicate 9 0) 7 100) 3 = Ret (buf, n, s') ∧
    rd 3 (buf_data buf) = Ret [1; 2; 3] ∧
    sdp_cstate_get (adv 3 (buf_data buf)) = Ret (Some c) ∧
    sdp_get_cached_rsp s' c = Some [1; 2; 3; 4; 5; 6; 7] ∧
    reassemble to_i16 7 [1; 2; 3; 4; 5; 6; 7] 3 (SdpBuf (replicate 12 0) 0 12) c = Ret rest ∧
    [1; 2; 3] ++ rest = [1; 2; 3; 4; 5; 6; 7].
Proof.
  apply (continuation_reassembles to_i16 (sdpd_init 99) [1; 2; 3; 4; 5; 6; 7] (replicate 9 0) (replicate 12 0)
           3 100 7).
  - auto.
  - vm_compute. intuition congruence.
  - lia.
  - simpl. lia.
  - vm_compute. congruence.
  - simpl. lia.
Defined.

(** A forged continuation state reads past the cached response. The
    offset in the state is not checked against the size of the cached
    response: with any offset beyond its end, the size of the part to send is
    computed modulo 2^32, comes out as [max], and [next_cont], which both
    attribute requests use, copies bytes from outside the cache. *)
Theorem forged_offset_reads_out_of_bounds (narrow : Z → Z) (cache : list Z) (c : sdp_cont_state)
    (max : Z) (buf : sdp_buf) (Hnarrow : narrow = to_i16 ∨ narrow = to_u16)
    (Hc : cont_ok c) (Hcache : Z.of_nat (length cache) < cs_value c) (Hmax : 0 < max < 2 ^ 15) :
  next_cont narrow cache c max buf = Undef.
Proof.
  destruct Hc as (_ & Hv & _). unfold next_cont. cbv zeta.
  assert (to_u32 (Z.of_nat (length cache) - cs_value c) = 2 ^ 32 + (Z.of_nat (length cache) - cs_value c)) as ->.
  { unfold to_u32. rewrite <- (Z.mod_add _ 1), Z.mod_small by lia. lia. }
  assert (MIN (to_u32 max) (2 ^ 32 + (Z.of_nat (length cache) - cs_value c)) = max) as ->.
  { unfold MIN, to_u32. rewrite Z.mod_small by lia. by rewrite (proj2 (Z.ltb_lt _ _)) by lia. }
  assert (narrow max = max) as ->
    by (destruct Hnarrow as [->| ->]; [apply narrow_i16|apply narrow_u16]; lia).
  rewrite (proj2 (Z.ltb_ge _ _)) by lia.
  assert (rd (Z.to_nat max) (adv (cs_value c) cache) = Undef) as ->; [|done].
  unfold rd. rewrite decide_False; [done|]. unfold adv. rewrite length_drop. lia.
Qed.

Lemma forged_offset_reads_out_of_bounds_witness :
  next_cont to_i16 [1; 2; 3] (SdpContState 99 0x4000 [0; 0]) 600 (SdpBuf (replicate 700 0) 0 700) = Undef.
Proof.
  apply (forged_offset_reads_out_of_bounds to_i16 [1; 2; 3] (SdpContState 99 0x4000 [0; 0])).
  - auto.
  - vm_compute. intuition congruence.
  - vm_compute. reflexivity.
  - lia.
Defined.

(** Responses cached in the same second are confused. A cached response
    is identified by the time in seconds it was made at: when a second long
    response is cached before the clock advances, the continuation state of
    the first client leads to the response of the second. *)
Theorem cached_responses_collide (s : sdpd) (b1 b2 : sdp_buf) (max1 max2 : Z)
    (r1 r2 : sdp_buf * Z * sdpd)
    (H1 : start_cont s b1 max1 = Ret r1) (H2 : start_cont r1.2 b2 max2 = Ret r2) :
  sdp_get_cached_rsp r2.2 (new_cstate (sdp_get_time s) max1) =
  Some (take (Z.to_nat (data_size b2)) (buf_data b2)).
Proof.
  assert (∀ s b max r, start_cont s b max = Ret r →
    r.2 = set_cstates ((sdp_get_time s, take (Z.to_nat (data_size b)) (buf_data b)) :: cstates s) s) as Hst.
  { intros s0 b max r H. unfold start_cont, sdp_cstate_alloc_buf in H. rewrite outcome_bind_assoc in H.
    unfold rd in H at 1. case_decide; [|done]. rewrite !outcome_bind_ret in H. inv_bind H. by simplify_eq. }
  rewrite (Hst _ _ _ _ H2), (Hst _ _ _ _ H1). unfold sdp_get_cached_rsp. simpl.
  by rewrite Z.eqb_refl.
Qed.

Definition example_rsp (b : Z) : sdp_buf := SdpBuf (replicate 30 b) 20 30.
Definition ret_or {A} (d : A) (m : outcome A) : A := match m with Ret a => a | _ => d end.
Definition example_cont1 : sdp_buf * Z * sdpd :=
  ret_or (example_rsp 0, 0, sdpd_init 0) (start_cont (sdpd_init 99) (example_rsp 1) 8).
Definition example_cont2 : sdp_buf * Z * sdpd :=
  ret_or (example_rsp 0, 0, sdpd_init 0) (start_cont example_cont1.2 (example_rsp 2) 8).

Lemma cached_responses_collide_witness :
  start_cont (sdpd_init 99) (example_rsp 1) 8 = Ret example_cont1 ∧
  start_cont example_cont1.2 (example_rsp 2) 8 = Ret example_cont2 ∧
  sdp_get_cached_rsp example_cont2.2 (new_cstate (sdp_get_time (sdpd_init 99)) 8) =
  Some (take (Z.to_nat (data_size (example_rsp 2))) (buf_data (example_rsp 2))).
Proof.
  assert (start_cont (sdpd_init 99) (example_rsp 1) 8 = Ret example_cont1) as H1 by (vm_compute; reflexivity).
  assert (start_cont example_cont1.2 (example_rsp 2) 8 = Ret example_cont2) as H2 by (vm_compute; reflexivity).
  split; [exact H1|]. split; [exact H2|].
  exact (cached_responses_collide (sdpd_init 99) (example_rsp 1) (example_rsp 2) 8 8 _ _ H1 H2).
Defined.

(** * Remote requests do not change the repository *)

(** The two states differ at most in the cache of responses. *)
Definition same_db (s s' : sdpd) : Prop := s' = set_cstates (cstates s') s.

Lemma same_db_refl s : same_db s s.
Proof. by destruct s. Qed.

Lemma same_db_trans s s' s'' : same_db s s' → same_db s' s'' → same_db s s''.
Proof. unfold same_db. intros H1 H2. rewrite H2, H1. by destruct s. Qed.

(** A routine that, when it returns, has only touched the cache. *)
Definition keeps {A} (s : sdpd) (m : outcome (A * sdpd)) : Prop := ∀ r, m = Ret r → same_db s r.2.

Lemma keeps_ret {A} s (a : A) s' : same_db s s' → keeps s (Ret (a, s')).
Proof. by intros H r [= <-]. Qed.

Lemma keeps_undef {A} s : keeps s (@Undef (A * sdpd)).
Proof. by intros r. Qed.

Lemma keeps_bind {A B} s (m : outcome B) (f : B → outcome (A * sdpd)) :
  (∀ x, keeps s (f x)) → keeps s (m ≫= f).
Proof. intros Hf r Hr. inv_bind Hr. by apply (Hf a). Qed.

Lemma keeps_bind_state {A B} s (m : outcome (B * sdpd)) (f : B * sdpd → outcome (A * sdpd)) :
  keeps s m → (∀ b s', same_db s s' → keeps s (f (b, s'))) → keeps s (m ≫= f).
Proof. intros Hm Hf r Hr. inv_bind Hr. destruct a as [b s']. apply (Hf b s'); [by apply (Hm (b, s'))|done]. Qed.

Lemma keeps_alloc_buf s b : keeps s (sdp_cstate_alloc_buf s b).
Proof. apply keeps_bind. intros data. apply keeps_ret. by destruct s. Qed.

Lemma keeps_start_cont s b max : keeps s (start_cont s b max).
Proof.
  apply keeps_bind_state; [apply keeps_alloc_buf|]. intros ts s' Hs. apply keeps_bind. intros x. by apply keeps_ret.
Qed.

Create HintDb keeps.
#[export] Hint Resolve same_db_refl keeps_ret keeps_undef keeps_alloc_buf keeps_start_cont : keeps.

Ltac keeps_step :=
  match goal with
  | |- keeps _ (mbind _ (sdp_cstate_alloc_buf _ _)) => apply keeps_bind_state; [by auto with keeps|intros]
  | |- keeps _ (mbind _ (start_cont _ _ _)) => apply keeps_bind_state; [by auto with keeps|intros]
  | |- keeps _ (@mbind _ _ (_ * sdpd) _ _ _) => apply keeps_bind_state; [|intros]
  | |- keeps _ (mbind _ _) => apply keeps_bind; intros
  | |- keeps _ (Ret _) => by auto with keeps
  | |- keeps _ (start_cont _ _ _) => by auto with keeps
  | |- keeps _ Undef => by apply keeps_undef
  | |- keeps _ (if ?b then _ else _) => destruct b
  | |- keeps _ (match ?x with _ => _ end) => destruct x
  | |- keeps _ (let _ := _ in _) => cbv zeta
  end.

Lemma keeps_search fuel s req buf : keeps s (service_search_req fuel s req buf).
Proof. unfold service_search_req. repeat keeps_step. Qed.

Lemma keeps_attr fuel s req buf : keeps s (service_attr_req fuel s req buf).
Proof. unfold service_attr_req. repeat keeps_step. Qed.

Lemma keeps_search_attr fuel s req buf : keeps s (service_search_attr_req fuel s req buf).
Proof. unfold service_search_attr_req. repeat keeps_step. Qed.

Lemma keeps_process fuel s req : req_local req = false → keeps s (process_request fuel s req).
Proof.
  intros Hl. unfold process_request. set (rsp := SdpBuf _ _ _). clearbody rsp. rewrite Hl.
  do 3 (apply keeps_bind; intros). apply keeps_bind_state.
  - repeat case_match; try (by auto with keeps);
      (apply keeps_bind_state; [first [apply keeps_search|apply keeps_attr|apply keeps_search_attr]|]);
      intros; by auto with keeps.
  - intros [[rsp_id status] rsp'] s' Hs. repeat keeps_step.
Qed.


Definition example_remote : sdp_req :=
  SdpReq [1; 2; 3; 4; 5; 6] [6; 5; 4; 3; 2; 1] false 5 672 0 [SDP_SVC_REMOVE_REQ; 0; 1; 0; 4; 0; 1; 0; 0] 9.


(** * Service search *)

(** The records a search shows to a device, as the loop tests them. *)
Definition visible (s : sdpd) (device : bdaddr) (uuids : list uuid_t) (p : loc) : bool :=
  match heap (sdb s) !! p with
  | Some rec => (0 <? sdp_match_uuid uuids (pattern rec)) && sdp_check_access (sdb s) (handle rec) device
  | None => false
  end.

Definition handles_bytes (s : sdpd) (l : list loc) : list Z :=
  concat (map (λ p, be_split 4 (handle_of (sdb s) p)) l).

Lemma length_handles_bytes s l : length (handles_bytes s l) = (4 * length l)%nat.
Proof.
  unfold handles_bytes. induction l as [|p l IH]; simpl; [done|].
  rewrite length_app, length_be_split, IH. lia.
Qed.

Lemma search_loop_spec s device uuids expected l :
  Forall (λ p, is_Some (heap (sdb s) !! p)) l →
  ∀ n pre post ds bs, 0 ≤ n ≤ expected → Z.of_nat (length pre) = 4 + 4 * n →
  (4 * length l ≤ length post)%nat →
  let m := take (Z.to_nat (expected - n)) (filter (λ p, visible s device uuids p) l) in
  search_loop s device uuids expected l n (SdpBuf (pre ++ post) ds bs) =
  Ret (n + Z.of_nat (length m),
       SdpBuf (pre ++ handles_bytes s m ++ drop (4 * length m) post) ds bs).
Proof.
  induction 1 as [|p l [rec Hp] _ IH]; intros n pre post ds bs Hn Hpre Hpost; cbn [search_loop].
  { cbv zeta. change (filter _ []) with (@nil loc). rewrite take_nil. simpl. by rewrite Z.add_0_r. }
  simpl length in Hpost. destruct (Z.ltb_spec n expected) as [Hlt|Hge].
  2: { cbv zeta. replace (Z.to_nat (expected - n)) with 0%nat by lia. rewrite take_0. simpl. by rewrite Z.add_0_r. }
  unfold deref. rewrite Hp. rewrite outcome_bind_ret.
  assert (visible s device uuids p = (0 <? sdp_match_uuid uuids (pattern rec)) &&
    sdp_check_access (sdb s) (handle rec) device) as Hv by (unfold visible; by rewrite Hp).
  rewrite <- Hv. destruct (visible s device uuids p) eqn:Hvis.
  - rewrite filter_cons_True by (by rewrite Hvis). cbn [buf_data].
    unfold htonl. rewrite le_split_bswap.
    rewrite (wr_at pre (take 4 post) (drop 4 post)) by (rewrite ?take_drop, ?length_take, ?length_be_split; done || lia).
    rewrite outcome_bind_ret. unfold set_buf_data. cbn [data_size buf_size].
    rewrite app_assoc, IH by (rewrite ?length_app, ?length_be_split, ?length_drop; lia).
    replace (Z.to_nat (expected - n)) with (S (Z.to_nat (expected - (n + 1)))) by lia. cbn [take].
    unfold handles_bytes. cbn [map concat length].
    assert (handle_of (sdb s) p = handle rec) as -> by (unfold handle_of; by rewrite Hp).
    rewrite drop_drop, <- !app_assoc. set (k := length (take _ _)).
    replace (4 * S k)%nat with (4 + 4 * k)%nat by lia. f_equal. f_equal. lia.
  - rewrite filter_cons_False by (rewrite Hvis; by intros []). apply IH; [done|done|lia].
Qed.

(** A search request for the UUIDs [us ++ [u]], without continuation state. *)
Definition search_request (tid1 tid2 : Z) (us : list uuid_t) (u : uuid_t) (expected : Z) : list Z :=
  let body := des_bytes (map DesUuid us ++ [DesUuid u]) in
  [SDP_SVC_SEARCH_REQ; tid1; tid2] ++ be_split 2 (Z.of_nat (length body) + 5) ++
  SDP_SEQ8 :: be_split 1 (Z.of_nat (length body)) ++ body ++ be_split 2 expected ++ [0].

Lemma des_uuids_map us : des_uuids (map DesUuid us) = us.
Proof. unfold des_uuids. induction us as [|u us IH]; simpl; [done|]. by f_equal. Qed.

Lemma put_u16_spec pre x y post mem ds bs off v :
  mem = pre ++ x :: y :: post → off = Z.of_nat (length pre) →
  put_u16 (SdpBuf mem ds bs) off v = Ret (SdpBuf (pre ++ be_split 2 v ++ post) ds bs).
Proof.
  intros -> ->. unfold put_u16. cbn [buf_data]. rewrite put_htons, (wr_at pre [x; y] post) by done. done.
Qed.

(** Parsing of such a request. *)
Lemma search_request_parse tid1 tid2 us u expected fuel :
  Forall uuid_ok (us ++ [u]) → (length us < fuel)%nat → 0 ≤ expected < 2 ^ 16 →
  let buf := search_request tid1 tid2 us u expected in
  let n := Z.of_nat (length (des_bytes (map DesUuid us ++ [DesUuid u]))) in
  n < 256 →
  extract_des fuel (adv SDP_PDU_HDR buf) (Z.of_nat (length buf) - SDP_PDU_HDR) SDP_TYPE_UUID =
    Ret (Some (2 + n, map DesUuid us ++ [DesUuid u], uuid_type u)) ∧
  adv (2 + n) (adv SDP_PDU_HDR buf) = be_split 2 expected ++ [0] ∧
  (p ← get_unaligned 2 (adv 3 buf); Ret (ntohs p)) = Ret (n + 5).
Proof.
  intros Hok Hfuel Hexp buf n Hn. set (body := des_bytes (map DesUuid us ++ [DesUuid u])) in *.
  assert (adv SDP_PDU_HDR buf = SDP_SEQ8 :: be_split 1 n ++ body ++ be_split 2 expected ++ [0]) as Hadv.
  { unfold buf, search_request. rewrite app_assoc. apply adv_app. rewrite length_app, length_be_split. done. }
  assert (Z.of_nat (length buf) - SDP_PDU_HDR = 2 + n + 3) as Hlen.
  { unfold buf, search_request. cbv zeta. fold body. len. unfold SDP_PDU_HDR, n. lia. }
  split_and!.
  - rewrite Hadv, Hlen. unfold n, body. rewrite extract_des_spec.
    + feq.
    + by left.
    + change [DesUuid u] with (map DesUuid [u]). rewrite <- map_app. apply Forall_forall. intros e He.
      apply list_elem_of_fmap in He as (x & -> & Hx). rewrite Forall_forall in Hok.
      specialize (Hok x Hx). split; [by destruct x|done].
    + by rewrite length_map.
    + done.
    + fold body. fold n. lia.
  - rewrite Hadv, app_comm_cons, app_assoc. apply adv_app. unfold n. len.
  - unfold buf, search_request. rewrite (adv_app 3 [SDP_SVC_SEARCH_REQ; tid1; tid2]) by done.
    rewrite get_be, outcome_bind_ret. unfold ntohs. fold body. fold n. rewrite bswap_be; [done|].
    unfold n in *. simpl. lia.
Qed.

Lemma add_size_eq n m ds bs : add_data_size n (SdpBuf m ds bs) = SdpBuf m (ds + n) bs.
Proof. done. Qed.

Lemma service_search_runs s device addr local sock mtu flags tid1 tid2 expected us u fuel mem bs :
  Forall (λ p, is_Some (heap (sdb s) !! p)) (service_db (sdb s)) →
  Forall uuid_ok (us ++ [u]) → (length us < fuel)%nat → 0 ≤ expected < 2 ^ 16 →
  Z.of_nat (length (des_bytes (map DesUuid us ++ [DesUuid u]))) < 256 →
  (4 * length (service_db (sdb s)) + 5 ≤ length mem)%nat →
  let found := take (Z.to_nat expected) (filter (λ p, visible s device (us ++ [u]) p) (service_db (sdb s))) in
  let buf := search_request tid1 tid2 us u expected in
  18 + 4 * Z.of_nat (length found) ≤ mtu →
  ∃ rsp, service_search_req fuel s
           (SdpReq device addr local sock mtu flags buf (Z.of_nat (length buf))) (SdpBuf mem 0 bs) =
         Ret (0, rsp, s) ∧
    take (Z.to_nat (data_size rsp)) (buf_data rsp) =
      be_split 2 (Z.of_nat (length found)) ++ be_split 2 (Z.of_nat (length found)) ++
      handles_bytes s found ++ [0].
Proof.
  intros Hlive Hok Hfuel Hexp Hbody Hmem found buf Hmtu.
  destruct (search_request_parse tid1 tid2 us u expected fuel Hok Hfuel Hexp Hbody) as (H1 & H2 & H3).
  fold buf in H1, H2, H3. set (n := Z.of_nat (length (des_bytes _))) in *. inv_bind H3. simplify_eq.
  unfold service_search_req. cbn [req_buf req_len req_mtu req_device].
  rewrite H1, outcome_bind_ret, H2. cbv iota beta zeta. rewrite Hr, outcome_bind_ret, H3.
  rewrite (proj2 (Z.ltb_ge (n + 5) (2 + n + 2 + 1))) by lia.
  rewrite (adv_app 2) by (by rewrite length_be_split). simpl rd8. rewrite !outcome_bind_ret.
  rewrite (proj2 (Z.eqb_eq (n + 5) (2 + n + 2 + 1 + 0))) by lia. cbn [negb].
  rewrite get_be, outcome_bind_ret. unfold ntohs. rewrite bswap_be by done.
  change (sdp_cstate_get [0]) with (Ret (@None sdp_cont_state)). rewrite outcome_bind_ret.
  destruct mem as [|x0 [|x1 [|x2 [|x3 post]]]]; try (simpl in Hmem; lia). simpl length in Hmem.
  assert (be_split 2 0 = [0; 0]) as H0 by (vm_compute; reflexivity).
  rewrite (put_u16_spec [] x0 x1 (x2 :: x3 :: post)), outcome_bind_ret, H0 by done.
  rewrite (put_u16_spec [0; 0] x2 x3 post), outcome_bind_ret, H0 by done.
  rewrite add_size_eq. unfold sdp_get_record_list.
  change [DesUuid u] with (map DesUuid [u]). rewrite <- map_app, des_uuids_map.
  change ([0; 0] ++ [0; 0] ++ post) with ([0; 0; 0; 0] ++ post).
  rewrite search_loop_spec by (done || simpl; lia). rewrite outcome_bind_ret, Z.sub_0_r, Z.add_0_l. fold found.
  cbv beta iota. rewrite add_size_eq. set (k := Z.of_nat (length found)) in *. set (tail := handles_bytes s found ++ _).
  rewrite (put_u16_spec [] 0 0 (0 :: 0 :: tail)), outcome_bind_ret by done.
  rewrite (put_u16_spec (be_split 2 k) 0 0 tail), outcome_bind_ret by (try rewrite length_be_split; done).
  assert (k ≤ expected) as Hk by (unfold k, found; rewrite length_take; lia).
  assert (k ≤ to_u16 (MIN expected (Z.shiftr (mtu - SDP_PDU_HDR - 2 - 2 - SDP_CONT_STATE_SIZE) 2))) as Hact.
  { rewrite Z.shiftr_div_pow2 by lia. unfold SDP_PDU_HDR, SDP_CONT_STATE_SIZE. change (2 ^ 2) with 4.
    assert (k ≤ (mtu - 5 - 2 - 2 - 9) / 4) by (apply Z.div_le_lower_bound; lia).
    unfold to_u16, MIN. destruct (Z.ltb_spec expected ((mtu - 5 - 2 - 2 - 9) / 4)); rewrite Z.mod_small; lia. }
  rewrite (proj2 (Z.ltb_ge _ _)) by lia. unfold tail. rewrite !app_assoc, set_cstate_pdu_spec.
  - rewrite outcome_bind_ret. eexists. split; [done|]. cbn [buf_data data_size cont_bytes fst].
    rewrite app_assoc, take_app_length' by (len; rewrite ?length_handles_bytes; unfold k; lia).
    by rewrite <- !app_assoc.
  - rewrite !length_app, !length_be_split, length_handles_bytes. unfold k. lia.
  - done.
  - simpl. rewrite length_drop.
    assert (length found ≤ length (service_db (sdb s)))%nat.
    { unfold found. rewrite length_take. pose proof (length_filter (λ p, visible s device (us ++ [u]) p)
        (service_db (sdb s))). lia. }
    lia.
Qed.


Definition example_sdpd : sdpd :=
  set_db (modify example_db 1%positive
            (sdp_pattern_add_uuid (SdpRecord 0x10000 [] [] UuidNone) (Uuid16 0x1101))) (sdpd_init 99).

Lemma example_sdpd_ok : db_ok (sdb example_sdpd).
Proof.
  split.
  - constructor; [|constructor]. eexists. split; [reflexivity|]. vm_compute. intuition congruence.
  - repeat constructor. by intros ?%elem_of_nil.
  - reflexivity.
  - intros p Hp. apply (db_next _ example_db_ok). revert Hp. unfold example_sdpd, modify. simpl.
    rewrite !lookup_insert. by repeat case_decide.
Qed.


(** * Attribute requests *)

(** A request for the attributes [l] of the record [h] by a client that takes
    responses of any size. *)
Definition attr_request (tid : list Z) (h : Z) (l : list des_elt) (c : option sdp_cont_state) : list Z :=
  let n := Z.of_nat (length (des_bytes l)) in
  [SDP_SVC_ATTR_REQ] ++ tid ++ be_split 2 (n + 8 + Z.of_nat (length (cont_bytes c))) ++
  be_split 4 h ++ be_split 2 65535 ++ SDP_SEQ8 :: be_split 1 n ++ des_bytes l ++ cont_bytes c.

(** The response with a part [chunk] of the attribute list. *)
Definition attr_response (tid chunk : list Z) (c : option sdp_cont_state) : list Z :=
  [SDP_SVC_ATTR_RSP] ++ tid ++
  be_split 2 (2 + Z.of_nat (length chunk) + Z.of_nat (length (cont_bytes c))) ++
  be_split 2 (Z.of_nat (length chunk)) ++ chunk ++ cont_bytes c.

Definition cont_opt_ok (c : option sdp_cont_state) : Prop := ∀ c', c = Some c' → cont_ok c'.

Lemma attr_request_parse tid h l e c fuel :
  length tid = 2%nat → Forall (des_ok SDP_TYPE_ANY) (l ++ [e]) → (length l < fuel)%nat →
  0 ≤ h < 2 ^ 32 → cont_opt_ok c →
  let buf := attr_request tid h (l ++ [e]) c in
  let n := Z.of_nat (length (des_bytes (l ++ [e]))) in
  n < 256 →
  (∃ x, get_unaligned 4 (adv SDP_PDU_HDR buf) = Ret x ∧ ntohl x = h) ∧
  (∃ x, get_unaligned 2 (adv 4 (adv SDP_PDU_HDR buf)) = Ret x ∧ ntohs x = 65535) ∧
  extract_des fuel (adv 6 (adv SDP_PDU_HDR buf)) (Z.of_nat (length buf) - SDP_PDU_HDR) SDP_TYPE_ANY =
    Ret (Some (2 + n, l ++ [e], des_dtd e)) ∧
  adv (2 + n) (adv 6 (adv SDP_PDU_HDR buf)) = cont_bytes c ∧
  (∃ x, get_unaligned 2 (adv 3 buf) = Ret x ∧ ntohs x = n + 8 + Z.of_nat (length (cont_bytes c))).
Proof.
  intros Htid Hok Hfuel Hh Hc buf n Hn. pose proof (length_cont_bytes c Hc) as Hcl.
  set (body := des_bytes (l ++ [e])) in *.
  assert (adv SDP_PDU_HDR buf = be_split 4 h ++ be_split 2 65535 ++
            SDP_SEQ8 :: be_split 1 n ++ body ++ cont_bytes c) as Hadv.
  { unfold buf, attr_request. rewrite !app_assoc. rewrite <- !(app_assoc (([SDP_SVC_ATTR_REQ] ++ tid) ++ be_split 2 _)).
    apply adv_app. rewrite !length_app, length_be_split, Htid. done. }
  assert (Z.of_nat (length buf) - SDP_PDU_HDR = n + 8 + Z.of_nat (length (cont_bytes c))) as Hlen.
  { unfold buf, attr_request. cbv zeta. fold body. len. unfold SDP_PDU_HDR, n. lia. }
  rewrite Hadv, Hlen. split_and!.
  - rewrite get_be. eexists. split; [done|]. by apply bswap_be.
  - rewrite adv_app by (by rewrite length_be_split). rewrite get_be. eexists. split; [done|]. by apply bswap_be.
  - rewrite app_assoc, adv_app by (rewrite length_app, !length_be_split; done). unfold n, body.
    rewrite extract_des_spec; [feq|by left|done|done|done|]. fold body. fold n. lia.
  - rewrite (app_assoc (be_split 4 h)), adv_app by (rewrite length_app, !length_be_split; done).
    rewrite app_comm_cons, app_assoc. apply adv_app. unfold n. len.
  - unfold buf, attr_request. rewrite app_assoc, (adv_app 3) by (rewrite length_app, Htid; done).
    rewrite get_be. eexists. split; [done|]. apply bswap_be. fold body. fold n. unfold n in *. simpl. lia.
Qed.

(** What a response of either kind is made of once its attribute list is in
    place behind the two bytes left for the count. *)
Lemma attr_finish chunk c post x y m ds bs :
  Z.of_nat (length chunk) < 2 ^ 16 →
  finish_attrs (push_header (SdpBuf (x :: y :: m) ds (bs + 2))
                  (SdpBuf (chunk ++ cont_bytes c ++ post)
                     (Z.of_nat (length chunk) + Z.of_nat (length (cont_bytes c))) bs))
    (Z.of_nat (length (cont_bytes c))) =
  Ret (SdpBuf (be_split 2 (Z.of_nat (length chunk)) ++ chunk ++ cont_bytes c ++ post)
         (2 + Z.of_nat (length chunk) + Z.of_nat (length (cont_bytes c))) (bs + 2)).
Proof.
  intros Hl. unfold finish_attrs, push_header. cbn [buf_data data_size buf_size].
  change (take 2 (x :: y :: ?l)) with [x; y].
  rewrite (put_u16_spec [] x y (chunk ++ cont_bytes c ++ post)), outcome_bind_ret by done.
  unfold add_data_size. cbn [buf_data data_size buf_size]. f_equal. f_equal; [|lia].
  simpl. f_equal. f_equal. lia.
Qed.

(** The bytes one response can carry over a connection. *)
Lemma attr_room mtu :
  20 ≤ mtu < 2 ^ 15 → min_size 65535 (mtu - SDP_PDU_HDR - 4 - SDP_CONT_STATE_SIZE - 2) = mtu - 20.
Proof.
  intros Hm. unfold SDP_PDU_HDR, SDP_CONT_STATE_SIZE, min_size, to_size_t, MIN. rewrite !Z.mod_small by lia.
  rewrite (proj2 (Z.ltb_ge _ _)) by lia. rewrite to_i32_small; lia.
Qed.

(** The answer to the first request for the attributes of [rec], whose list is
    [data]. *)
Lemma service_attr_first s device addr local sock mtu flags tid h l e fuel x y mem bs p rec data post :
  length tid = 2%nat → Forall (des_ok SDP_TYPE_ANY) (l ++ [e]) → (length l < fuel)%nat →
  0 ≤ h < 2 ^ 32 → Z.of_nat (length (des_bytes (l ++ [e]))) < 256 → 21 ≤ mtu < 2 ^ 15 →
  sdp_record_find (sdb s) h = Ret (Some p) → heap (sdb s) !! p = Some rec →
  extract_attrs true (Some rec) (l ++ [e]) (des_dtd e) (SdpBuf mem 0 bs) =
    Ret (0, SdpBuf (data ++ post) (Z.of_nat (length data)) bs) →
  0 < Z.of_nat (length data) < 2 ^ 16 → (9 ≤ length post)%nat →
  let buf := attr_request tid h (l ++ [e]) None in
  let fits := Z.of_nat (length data) <=? mtu - 20 in
  let chunk := if fits then data else take (Z.to_nat (mtu - 20)) data in
  let c := if fits then None else Some (new_cstate (sdp_get_time s) (mtu - 20)) in
  ∃ post', service_attr_req fuel s (SdpReq device addr local sock mtu flags buf (Z.of_nat (length buf)))
             (SdpBuf (x :: y :: mem) 0 (bs + 2)) =
    Ret (0, SdpBuf (be_split 2 (Z.of_nat (length chunk)) ++ chunk ++ cont_bytes c ++ post')
              (2 + Z.of_nat (length chunk) + Z.of_nat (length (cont_bytes c))) (bs + 2),
         if fits then s else set_cstates ((sdp_get_time s, data) :: cstates s) s).
Proof.
  intros Htid Hok Hfuel Hh Hn Hmtu Hfind Hrec Hext Hdata Hpost buf fits chunk c.
  destruct (attr_request_parse tid h l e None fuel Htid Hok Hfuel Hh) as (H1 & H2 & H3 & H4 & H5); [done|done|].
  fold buf in H1, H2, H3, H4, H5. set (n := Z.of_nat (length (des_bytes (l ++ [e])))) in *.
  destruct H1 as (x1 & H1 & E1), H2 as (x2 & H2 & E2), H5 as (x5 & H5 & E5).
  unfold service_attr_req. cbn [req_buf req_len req_mtu]. rewrite H1, outcome_bind_ret, E1. cbv zeta.
  rewrite H2, outcome_bind_ret, E2, H3, outcome_bind_ret, H4. cbv iota beta.
  rewrite H5, outcome_bind_ret, E5. change (Z.of_nat (length (cont_bytes None))) with 1 in *.
  rewrite (proj2 (Z.ltb_ge (n + 8 + 1) (2 + n + 4 + 2 + 1))) by lia.
  change (rd8 (cont_bytes None)) with (Ret 0). rewrite !outcome_bind_ret.
  rewrite (proj2 (Z.eqb_eq (n + 8 + 1) (2 + n + 4 + 2 + 1 + 0))) by lia. cbn [negb].
  change (sdp_cstate_get (cont_bytes None)) with (Ret (@None sdp_cont_state)). rewrite outcome_bind_ret.
  rewrite attr_room by lia. unfold pull_header. cbn [buf_data data_size buf_size].
  change (drop 2 (x :: y :: mem)) with mem. rewrite Z.add_simpl_r.
  rewrite Hfind, outcome_bind_ret. unfold deref. rewrite Hrec, !outcome_bind_ret, Hext, outcome_bind_ret.
  cbv iota beta. cbn [data_size]. unfold to_u32. rewrite Z.mod_small by lia.
  rewrite Z.ltb_antisym. fold fits. destruct fits eqn:Hfits; cbn [negb].
  - rewrite (proj2 (Z.eqb_neq _ _)) by lia. rewrite outcome_bind_ret.
    rewrite set_cstate_pdu_spec by (done || simpl; lia).
    rewrite !outcome_bind_ret. cbv iota beta. cbn [fst snd]. rewrite attr_finish, outcome_bind_ret by lia.
    by eexists.
  - apply Z.leb_gt in Hfits.
    destruct (start_cont_spec s data post (mtu - 20) bs) as (_ & _ & post' & ->); [lia..|].
    rewrite !outcome_bind_ret. cbv iota beta. cbn [fst snd]. fold chunk. fold c.
    assert (Z.of_nat (length chunk) = mtu - 20) as Hl by (unfold chunk; rewrite length_take; lia).
    rewrite <- Hl, attr_finish, outcome_bind_ret by lia. by eexists.
Qed.

(** The answer to a later request, which echoes the continuation state [c]. *)
Lemma service_attr_next s device addr local sock mtu flags tid h l e fuel x y mem bs c cache :
  length tid = 2%nat → Forall (des_ok SDP_TYPE_ANY) (l ++ [e]) → (length l < fuel)%nat →
  0 ≤ h < 2 ^ 32 → Z.of_nat (length (des_bytes (l ++ [e]))) < 256 → 21 ≤ mtu < 2 ^ 15 →
  cont_ok c → sdp_get_cached_rsp s c = Some cache → cs_value c < Z.of_nat (length cache) < 2 ^ 16 →
  mtu ≤ Z.of_nat (length mem) →
  let buf := attr_request tid h (l ++ [e]) (Some c) in
  let sent := Z.min (mtu - 20) (Z.of_nat (length cache) - cs_value c) in
  let c' := if cs_value c + sent =? Z.of_nat (length cache) then None
            else Some (SdpContState (cs_timestamp c) (cs_value c + sent) (cs_pad c)) in
  let chunk := take (Z.to_nat sent) (drop (Z.to_nat (cs_value c)) cache) in
  cont_opt_ok c' ∧
  ∃ post', service_attr_req fuel s (SdpReq device addr local sock mtu flags buf (Z.of_nat (length buf)))
             (SdpBuf (x :: y :: mem) 0 (bs + 2)) =
    Ret (0, SdpBuf (be_split 2 (Z.of_nat (length chunk)) ++ chunk ++ cont_bytes c' ++ post')
              (2 + Z.of_nat (length chunk) + Z.of_nat (length (cont_bytes c'))) (bs + 2), s).
Proof.
  intros Htid Hok Hfuel Hh Hn Hmtu Hc Hcache Hv Hmem buf sent c' chunk.
  destruct (attr_request_parse tid h l e (Some c) fuel Htid Hok Hfuel Hh) as (H1 & H2 & H3 & H4 & H5);
    [by intros ? [= <-]|done|].
  fold buf in H1, H2, H3, H4, H5. set (n := Z.of_nat (length (des_bytes (l ++ [e])))) in *.
  destruct H1 as (x1 & H1 & E1), H2 as (x2 & H2 & E2), H5 as (x5 & H5 & E5).
  assert (Z.of_nat (length (cont_bytes (Some c))) = 9) as Hl9.
  { destruct Hc as (_ & _ & Hp). unfold cont_bytes, cstate_bytes. len. }
  rewrite Hl9 in E5.
  destruct (next_cont_spec to_i16 cache c (mtu - 20) (SdpBuf mem 0 bs)) as (post & Hnext & Hc');
    [apply narrow_i16|done|done|lia|done|simpl; lia|].
  fold sent in Hnext, Hc'. fold c' in Hnext, Hc'. fold chunk in Hnext. split; [done|]. exists post.
  assert (Z.of_nat (length chunk) = sent) as Hl.
  { destruct Hc as (_ & Hv0 & _). unfold chunk. rewrite length_take, length_drop. lia. }
  unfold service_attr_req. cbn [req_buf req_len req_mtu]. rewrite H1, outcome_bind_ret, E1. cbv zeta.
  rewrite H2, outcome_bind_ret, E2, H3, outcome_bind_ret, H4. cbv iota beta.
  rewrite H5, outcome_bind_ret, E5.
  rewrite (proj2 (Z.ltb_ge (n + 8 + 9) (2 + n + 4 + 2 + 1))) by lia.
  change (rd8 (cont_bytes (Some c))) with (Ret 8). rewrite !outcome_bind_ret.
  rewrite (proj2 (Z.eqb_eq (n + 8 + 9) (2 + n + 4 + 2 + 1 + 8))) by lia. cbn [negb].
  rewrite <- (app_nil_r (cont_bytes (Some c))), cstate_get_spec, outcome_bind_ret by (by intros ? [= <-]).
  rewrite attr_room by lia. unfold pull_header. cbn [buf_data data_size buf_size].
  change (drop 2 (x :: y :: mem)) with mem. rewrite Z.add_simpl_r.
  rewrite Hcache, Hnext, !outcome_bind_ret. cbv iota beta. cbn [fst snd buf_size].
  rewrite <- Hl, attr_finish, outcome_bind_ret by lia. done.
Qed.

(** From the answer to the PDU that is sent. *)
Lemma process_attr fuel s device addr local sock mtu flags tid h l c chunk c' post bs s' :
  let buf := attr_request tid h l c in
  let req := SdpReq device addr local sock mtu flags buf (Z.of_nat (length buf)) in
  length tid = 2%nat → Z.of_nat (length (des_bytes l)) < 256 → cont_opt_ok c →
  service_attr_req fuel s req
    (SdpBuf (replicate (Z.to_nat (USHRT_MAX - SDP_PDU_HDR)) 0) 0 (USHRT_MAX - SDP_PDU_HDR)) =
    Ret (0, SdpBuf (be_split 2 (Z.of_nat (length chunk)) ++ chunk ++ cont_bytes c' ++ post)
              (2 + Z.of_nat (length chunk) + Z.of_nat (length (cont_bytes c'))) bs, s') →
  process_request fuel s req = Ret (attr_response tid chunk c', s').
Proof.
  intros buf req Htid Hn Hc Hrun. pose proof (length_cont_bytes c Hc) as Hcl.
  set (n := Z.of_nat (length (des_bytes l))) in *.
  assert (Z.of_nat (length buf) - SDP_PDU_HDR = n + 8 + Z.of_nat (length (cont_bytes c))) as Hlen.
  { unfold buf, attr_request. len. unfold SDP_PDU_HDR, n. lia. }
  assert (buf = [SDP_SVC_ATTR_REQ] ++ tid ++ be_split 2 (n + 8 + Z.of_nat (length (cont_bytes c))) ++
            drop 5 buf) as Hbuf.
  { unfold buf at 1, attr_request. fold n. f_equal. f_equal. f_equal. unfold buf, attr_request.
    rewrite !app_assoc. rewrite <- !(app_assoc (([SDP_SVC_ATTR_REQ] ++ tid) ++ be_split 2 _)).
    by rewrite drop_app_length' by (rewrite !length_app, length_be_split, Htid; done). }
  assert (rd8 buf = Ret SDP_SVC_ATTR_REQ) as H1 by (by rewrite Hbuf).
  assert (rd 2 (adv 1 buf) = Ret tid) as H2 by (by rewrite Hbuf, (adv_app 1), rd_app).
  assert (∃ z, get_unaligned 2 (adv 3 buf) = Ret z ∧ ntohs z = n + 8 + Z.of_nat (length (cont_bytes c)))
    as (z & H3 & Hz).
  { rewrite Hbuf, app_assoc, (adv_app 3), get_be by (rewrite length_app, Htid; done).
    eexists. split; [done|]. apply bswap_be. unfold n in *. simpl. lia. }
  unfold process_request. set (rsp := SdpBuf (replicate _ _) _ _) in *. clearbody rsp.
  cbn [req_buf req_len req]. rewrite Hlen, H1, outcome_bind_ret, H2, outcome_bind_ret, H3, outcome_bind_ret, Hz.
  unfold to_size_t. rewrite Z.mod_small by lia. rewrite Z.eqb_refl. cbn [negb].
  change (SDP_SVC_ATTR_REQ =? SDP_SVC_SEARCH_REQ) with false.
  change (SDP_SVC_ATTR_REQ =? SDP_SVC_ATTR_REQ) with true. cbv iota.
  rewrite Hrun, outcome_bind_ret. cbv iota beta. cbn [fst snd]. rewrite !outcome_bind_ret.
  cbv iota beta. cbn [buf_data data_size].
  set (m := Z.of_nat (length chunk)). set (k := Z.of_nat (length (cont_bytes c'))).
  change (0 =? 0) with true. cbv iota. rewrite outcome_bind_ret. cbn [buf_data data_size].
  rewrite !app_assoc, rd_app by (len; unfold m, k; lia).
  rewrite outcome_bind_ret, put_htons. unfold attr_response. fold m. fold k. by rewrite <- !app_assoc.
Qed.

(** The attribute list of a request for all attributes is the record's PDU. *)
Lemma extract_attrs_all rec mem bs :
  attrlist rec ≠ [] → Forall attr_fits (attrlist rec) →
  Z.of_nat (length (record_body (attrlist rec))) < 2 ^ 16 - 3 →
  let frame := seq_frame (record_body (attrlist rec)) in
  Z.of_nat (length frame) ≤ bs → (length frame ≤ length mem)%nat →
  extract_attrs true (Some rec) [DesU32 0x0000ffff] SDP_UINT32 (SdpBuf mem 0 bs) =
  Ret (0, SdpBuf (frame ++ drop (length frame) mem) (Z.of_nat (length frame)) bs).
Proof.
  intros Hne Hfit Hlen frame Hbs Hmem.
  destruct (gen_record_pdu_framed rec Hne Hfit Hlen) as (pdu & Hpdu & _ & rest & Hd & Hs). fold frame in Hd, Hs.
  unfold extract_attrs. change (SDP_UINT32 =? SDP_UINT16) with false. change (SDP_UINT32 =? SDP_UINT32) with true.
  cbv iota. rewrite Hpdu, outcome_bind_ret. cbn [attrs_u32].
  change (get_unaligned 4 (des_mem (DesU32 0x0000ffff))) with (Ret 0x0000ffff). rewrite outcome_bind_ret. cbv zeta.
  change (Z.shiftr (Z.land 0xffff0000 0x0000ffff) 16 =? 0) with true.
  change (Z.land 0x0000ffff 0x0000ffff =? 0xffff) with true. cbn [buf_size buf_data andb].
  rewrite Hs, (proj2 (Z.leb_le _ _)) by done. rewrite Nat2Z.id, Hd, rd_app, outcome_bind_ret by done.
  rewrite wr_inside by lia. rewrite !outcome_bind_ret. by change (Z.to_nat 0) with 0%nat.
Qed.
