(* ===== verification/SdpLink.v ===== *)
(** A client connected to the server: the socket of a session whose other end
    is [handle_request]. The theorems of this file are about the two programs
    together: what a client gets is what the repository of the server holds. *)

From stdpp Require Import base list numbers sorting gmap.
From Stdlib Require Import ZArith Lia.
From S2P Require Import Prelude CString SdpTypes SdpList SdpUuid SdpEncode SdpRecord SdpDecode SdpAttrs SdpClient SdpDb SdpService SdpRequest.

Local Open Scope Z_scope.

(** * The connection

    The server, what it knows of the client's socket, and the responses it has
    sent that the client has not received. A request is handled as a whole
    when it is sent; a server that fails takes no more requests. *)
Record link := Link {
  lk_srv : sdpd;
  lk_peer : peer;
  lk_sock : Z;
  lk_fuel : nat;
  lk_in : list (list Z)
}.

Definition link_send (l : link) (bs : list Z) : Z * link :=
  match handle_request (lk_fuel l) (lk_srv l) (lk_peer l) (lk_sock l) bs (Z.of_nat (length bs)) with
  | Ret (rsp, s) =>
      (Z.of_nat (length bs),
       Link s (lk_peer l) (lk_sock l) (lk_fuel l) (lk_in l ++ match rsp with Some r => [r] | None => [] end))
  | _ => (-1, l)
  end.

Definition link_recv (l : link) (size : Z) : option (list Z) * link :=
  match lk_in l with
  | [] => (None, l)
  | r :: q => (Some (take (Z.to_nat size) r), Link (lk_srv l) (lk_peer l) (lk_sock l) (lk_fuel l) q)
  end.

#[export] Instance link_socket : Socket link := {
  sk_send := link_send;
  sk_wait := λ l, (bool_decide (lk_in l ≠ []), l);
  sk_recv := link_recv
}.

(** A connection to [s] with nothing under way. *)
Definition connect (s : sdpd) (from : peer) (sk : Z) (fuel : nat) : link := Link s from sk fuel [].

(** * What the client sends *)

(** The data element built for an element of the list. *)
Definition des_data (e : des_elt) : sdp_data :=
  match e with
  | DesU16 v => u16_elt v
  | DesU32 v => SdpData SDP_UINT32 0 (VInt v) (1 + 4)
  | DesUuid u => uuid_elt u
  end.

Lemma allocs_u32 z rest : 0 ≤ z < 2 ^ 32 →
  allocs SDP_UINT32 (PMem (le_split 4 z ++ rest)) (SdpData SDP_UINT32 0 (VInt z) (1 + 4)).
Proof.
  intros Hz. unfold allocs, sdp_data_alloc. simpl. unfold sdp_data_alloc_with_length. simpl.
  by rewrite get_le_split.
Qed.

Lemma des_data_allocs t e :
  des_dtd e = t → des_ok SDP_TYPE_ANY e → allocs t (dataseq_value t e) (des_data e).
Proof.
  intros <- [_ He]. destruct e as [v|v|u]; unfold dataseq_value; cbn [des_dtd des_mem].
  - change (SDP_IS_UUID SDP_UINT16) with false. cbv iota. rewrite <- (app_nil_r (le_split 2 v)). by apply allocs_u16.
  - change (SDP_IS_UUID SDP_UINT32) with false. cbv iota. rewrite <- (app_nil_r (le_split 4 v)). by apply allocs_u32.
  - assert (SDP_IS_UUID (uuid_type u) = true) as -> by (by destruct u). by apply allocs_uuid.
Qed.

Lemma encode_des_data e : des_ok SDP_TYPE_ANY e → sdp_encode (des_data e) = des_enc e.
Proof. intros [_ He]. destruct e as [v|v|u]; [done|done|]. by destruct u. Qed.

Lemma des_data_wf e : des_ok SDP_TYPE_ANY e → data_wf (des_data e).
Proof. intros [_ He]. destruct e as [v|v|u]; simpl; [split; auto|split; auto|done]. Qed.

Lemma encode_des_list l : Forall (des_ok SDP_TYPE_ANY) l → sdp_encode_list (map des_data l) = des_bytes l.
Proof.
  unfold sdp_encode_list, des_bytes. induction 1 as [|e l He _ IH]; [done|]. simpl. by rewrite encode_des_data, IH.
Qed.

Lemma gen_dataseq_spec pre rest seq t :
  Forall (λ e, des_dtd e = t ∧ des_ok SDP_TYPE_ANY e) seq →
  let n := Z.of_nat (length (des_bytes seq)) in
  n ≤ 253 → 2 + n ≤ Z.of_nat (length rest) →
  gen_dataseq_pdu (pre ++ rest) (Z.of_nat (length pre)) seq t =
  Ret (pre ++ (SDP_SEQ8 :: be_split 1 n ++ des_bytes seq) ++ drop (2 + length (des_bytes seq)) rest, 2 + n).
Proof.
  intros Hseq n Hn Hrest.
  assert (Forall (des_ok SDP_TYPE_ANY) seq) as Hok by (eapply Forall_impl; [exact Hseq|]; by intros ? []).
  set (d := seq8_elt (map des_data seq)).
  assert (sdp_encode d = SDP_SEQ8 :: be_split 1 n ++ des_bytes seq) as Henc.
  { unfold d, seq8_elt. rewrite encode_cons, encode_des_list by done. done. }
  assert (length (sdp_encode d) = 2 + length (des_bytes seq))%nat as Hl by (rewrite Henc; len).
  assert (data_wf d) as Hwf.
  { unfold d, seq8_elt. apply data_wf_seq. rewrite encode_des_list by done. split; [done|].
    split; [simpl; unfold n in *; lia|]. apply Forall_forall. intros x Hx.
    apply list_elem_of_fmap in Hx as (e & -> & He). rewrite Forall_forall in Hok. by apply des_data_wf, Hok. }
  unfold gen_dataseq_pdu. rewrite (seq_alloc_all (λ _, t) (dataseq_value t) des_data).
  2: { eapply Forall_impl; [exact Hseq|]. intros e [He Heok]. by apply des_data_allocs. }
  rewrite outcome_bind_ret. cbv beta iota.
  change (SdpData SDP_SEQ8 0 (VSeq (map des_data seq)) (1 + 1 + chain_size (map des_data seq))) with d.
  rewrite (gen_pdu_writes d Hwf (SdpBuf (replicate 256 0) 0 256) [] (replicate (length (sdp_encode d)) 0)
             (replicate (256 - length (sdp_encode d)) 0)).
  - rewrite outcome_bind_ret. cbn [fst snd data_size buf_data]. rewrite !app_nil_l.
    rewrite Nat2Z.id, rd_app, outcome_bind_ret by done.
    rewrite (wr_at pre (take (2 + length (des_bytes seq)) rest) (drop (2 + length (des_bytes seq)) rest)).
    + rewrite outcome_bind_ret, Hl, Henc. f_equal. f_equal. unfold n. lia.
    + by rewrite take_drop.
    + done.
    + rewrite Hl, length_take. clear -Hrest. unfold n in *. lia.
  - split; [|done]. cbn [buf_data]. rewrite app_nil_l, <- replicate_add. f_equal. rewrite Hl. unfold n in *. lia.
  - by rewrite length_replicate.
Qed.

(** A continuation state [cb] stands at the offset [c] of the response; without
    one the client sends a zero byte. *)
Definition cont_at (rsp : list Z) (c : option Z) (cb : list Z) : Prop :=
  match c with
  | None => cb = [0]
  | Some o => 0 ≤ o ∧ ∃ bs rest, cb = Z.of_nat (length bs) :: bs ∧ adv o rsp = cb ++ rest
  end.

Lemma copy_cstate_spec pre room pdata_len rsp c cb :
  cont_at rsp c cb → (length cb ≤ length room)%nat → Z.of_nat (length cb) ≤ pdata_len →
  copy_cstate (pre ++ room) (Z.of_nat (length pre)) pdata_len rsp c =
  Ret (pre ++ cb ++ drop (length cb) room, Z.of_nat (length cb)).
Proof.
  intros Hc Hroom Hlen. unfold copy_cstate. destruct c as [o|]; simpl in Hc.
  - destruct Hc as (Ho & bs & rest & -> & Hadv). simpl length in *.
    rewrite Hadv. simpl rd8. rewrite outcome_bind_ret. rewrite (proj2 (Z.leb_gt _ _)) by lia. cbv zeta.
    destruct room as [|x room]; [simpl in Hroom; lia|]. simpl in Hroom.
    rewrite (wr_at pre [x] room), outcome_bind_ret by done.
    assert (adv (o + 1) rsp = bs ++ rest) as ->.
    { unfold adv in *. rewrite Z2Nat.inj_add, <- drop_drop, Hadv by lia. done. }
    rewrite Nat2Z.id, rd_app, outcome_bind_ret by done.
    rewrite (wr_at (pre ++ [Z.of_nat (length bs)]) (take (length bs) room) (drop (length bs) room)).
    + rewrite outcome_bind_ret, <- app_assoc. f_equal. f_equal. lia.
    + by rewrite take_drop, <- app_assoc.
    + rewrite length_app. simpl. lia.
    + rewrite length_take. lia.
  - subst cb. simpl length in *. destruct room as [|x room]; [simpl in Hroom; lia|].
    by rewrite (wr_at pre [x] room), outcome_bind_ret.
Qed.

Lemma put_be16_at a b c mem off v :
  mem = a ++ b ++ c → off = Z.of_nat (length a) → length b = 2%nat →
  put_be16 mem off v = Ret (a ++ be_split 2 v ++ c).
Proof. intros Hm Ho Hb. unfold put_be16. rewrite put_htons. by apply wr_at with (b := b). Qed.

(** The next request of a session. *)
Definition next_tid (ss : sdp_session) : sdp_session := (sdp_gen_tid ss).2.

Definition request_pdu (id : Z) (ss : sdp_session) (body : list Z) : list Z :=
  [id] ++ be_split 2 (sess_tid ss) ++ be_split 2 (Z.of_nat (length body)) ++ body.

(** One exchange over an idle connection: the server is handed the request,
    with the continuation state, and the response is what it returned. *)
Lemma transact_link fuel l ss id j1 j2 j3 j4 body tail rsp c cb rid rbody s' :
  cont_at rsp c cb → (length cb ≤ length tail)%nat →
  5 + Z.of_nat (length body) + Z.of_nat (length tail) = SDP_REQ_BUFFER_SIZE → (2 ≤ fuel)%nat →
  lk_in l = [] → rid ≠ SDP_ERROR_RSP → (2 ≤ length rbody)%nat →
  let pdu := request_pdu id ss (body ++ cb) in
  let reply := [rid] ++ be_split 2 (sess_tid ss) ++ rbody in
  handle_request (lk_fuel l) (lk_srv l) (lk_peer l) (lk_sock l) pdu (Z.of_nat (length pdu)) =
    Ret (Some reply, s') →
  (length reply ≤ length rsp)%nat → Z.of_nat (length reply) ≤ SDP_RSP_BUFFER_SIZE →
  ∃ k1 k2 k3 k4,
    transact fuel l ss ([id; j1; j2; j3; j4] ++ body ++ tail) rsp (5 + Z.of_nat (length body)) c =
    Ret (Some (Z.of_nat (length reply)),
         [id; k1; k2; k3; k4] ++ body ++ cb ++ drop (length cb) tail,
         reply ++ drop (length reply) rsp, next_tid ss, Link s' (lk_peer l) (lk_sock l) (lk_fuel l) []).
Proof.
  intros Hc Htail Hsize Hfuel Hin Hid Hrb pdu reply Hrun Hrsp Hmax.
  assert (length pdu = 5 + length body + length cb)%nat as Hpdu by (unfold pdu, request_pdu; len).
  assert (length reply = 3 + length rbody)%nat as Hreply by (unfold reply; len).
  destruct (be_split_2_form (sess_tid ss)) as (t1 & t2 & Ht).
  destruct (be_split_2_form (Z.of_nat (length (body ++ cb)))) as (n1 & n2 & Hn).
  assert (pdu = [id; t1; t2; n1; n2] ++ body ++ cb) as Hp by (unfold pdu, request_pdu; by rewrite Ht, Hn).
  exists t1, t2, n1, n2. unfold transact.
  rewrite app_assoc. replace (5 + Z.of_nat (length body)) with (Z.of_nat (length ([id; j1; j2; j3; j4] ++ body)))
    by (rewrite length_app; simpl; lia).
  rewrite (copy_cstate_spec _ tail _ _ _ cb); [|done|done|rewrite length_app; simpl; lia].
  rewrite outcome_bind_ret. cbv iota beta zeta.
  replace (Z.of_nat (length ([id; j1; j2; j3; j4] ++ body)) + Z.of_nat (length cb) - SDP_PDU_HDR)
    with (Z.of_nat (length (body ++ cb))) by (rewrite !length_app; simpl; unfold SDP_PDU_HDR; lia).
  rewrite (put_be16_at [id; j1; j2] [j3; j4] (body ++ cb ++ drop (length cb) tail)), outcome_bind_ret, Hn
    by (done || by rewrite <- app_assoc).
  change (sdp_gen_tid ss) with (sess_tid ss, next_tid ss). cbv iota beta.
  rewrite (put_be16_at [id] [j1; j2] ([n1; n2] ++ body ++ cb ++ drop (length cb) tail)), outcome_bind_ret, Ht
    by done.
  change ([id] ++ [t1; t2] ++ [n1; n2] ++ ?q) with ([id; t1; t2; n1; n2] ++ q).
  replace (Z.of_nat (length ([id; j1; j2; j3; j4] ++ body)) + Z.of_nat (length cb))
    with (Z.of_nat (length pdu)) by (rewrite !length_app, Hpdu; simpl; lia).
  assert ([id; t1; t2; n1; n2] ++ body ++ cb ++ drop (length cb) tail = pdu ++ drop (length cb) tail) as ->
    by (rewrite Hp; by rewrite <- !app_assoc).
  unfold SDP_REQ_BUFFER_SIZE in Hsize.
  unfold sdp_send_req_w4_rsp. destruct fuel as [|[|fuel]]; [lia|lia|]. cbn [sdp_send_req].
  rewrite (proj2 (Z.ltb_lt _ _)) by lia. rewrite Z.sub_0_r, Nat2Z.id. change (adv 0 ?q) with q.
  rewrite rd_app, outcome_bind_ret by done. simpl sk_send. unfold link_send. rewrite Hrun, Hin.
  rewrite (proj2 (Z.ltb_ge _ _)) by lia. unfold to_u32. rewrite Z.add_0_l, Z.mod_small by lia.
  rewrite Z.ltb_irrefl, outcome_bind_ret. cbv iota beta. change (0 <? 0) with false. cbv iota.
  unfold sdp_read_rsp. simpl sk_wait. cbv iota beta. simpl sk_recv. cbn [negb].
  unfold link_recv. cbn [lk_in lk_srv lk_peer lk_sock lk_fuel].
  rewrite (take_ge reply), (take_ge reply) by lia.
  rewrite (wr_at [] (take (length reply) rsp) (drop (length reply) rsp));
    [|by rewrite app_nil_l, take_drop|done|rewrite length_take; lia].
  rewrite !outcome_bind_ret. cbv iota beta. rewrite app_nil_l.
  rewrite (proj2 (Z.ltb_ge _ _)), (proj2 (Z.eqb_neq _ _)) by lia.
  assert (rd 2 (adv 1 (pdu ++ drop (length cb) tail)) = Ret [t1; t2]) as -> by (by rewrite Hp).
  assert (reply ++ drop (length reply) rsp = rid :: [t1; t2] ++ (rbody ++ drop (length reply) rsp)) as Hr.
  { unfold reply at 1. by rewrite Ht, <- !app_assoc. }
  rewrite Hr. rewrite adv_cons, rd_app, !outcome_bind_ret by done. rewrite bool_decide_true by done.
  rewrite outcome_bind_ret. cbv iota beta. rewrite lt_size_nonneg by (unfold SDP_RSP_BUFFER_SIZE in Hmax; lia).
  rewrite (proj2 (Z.ltb_ge _ _)) by (unfold SDP_PDU_HDR; lia). simpl rd8. rewrite outcome_bind_ret.
  rewrite (proj2 (Z.eqb_neq _ _)) by done. by rewrite Hp, <- !app_assoc.
Qed.

(** * Attribute requests, both ends *)

Definition peer_mtu (from : peer) : Z :=
  match from with PeerUnknown => 0 | PeerL2cap _ _ mtu => mtu | PeerLocal => 2048 end.

Lemma handle_request_peer from :
  from ≠ PeerUnknown → ∃ device addr local, ∀ fuel s sk data len,
  handle_request fuel s from sk data len =
  (r ← process_request fuel s (SdpReq device addr local sk (peer_mtu from) 0 data len); Ret (Some r.1, r.2)).
Proof. intros H. destruct from; [done|by eexists _, _, _..]. Qed.

(** The fixed part of the parameters of an attribute request. *)
Definition attr_body (h : Z) (l : list des_elt) : list Z :=
  be_split 4 h ++ be_split 2 65535 ++ SDP_SEQ8 :: be_split 1 (Z.of_nat (length (des_bytes l))) ++ des_bytes l.

Lemma length_attr_body h l : length (attr_body h l) = (8 + length (des_bytes l))%nat.
Proof. unfold attr_body. len. Qed.

Lemma attr_request_pdu ss h l c :
  request_pdu SDP_SVC_ATTR_REQ ss (attr_body h l ++ cont_bytes c) = attr_request (be_split 2 (sess_tid ss)) h l c.
Proof.
  unfold request_pdu, attr_request. rewrite length_app, length_attr_body.
  unfold attr_body. rewrite <- !app_assoc. simpl app. rewrite <- !app_assoc.
  repeat f_equal. lia.
Qed.

Lemma attr_response_reply ss chunk c :
  attr_response (be_split 2 (sess_tid ss)) chunk c =
  [SDP_SVC_ATTR_RSP] ++ be_split 2 (sess_tid ss) ++
  (be_split 2 (2 + Z.of_nat (length chunk) + Z.of_nat (length (cont_bytes c))) ++
   be_split 2 (Z.of_nat (length chunk)) ++ chunk ++ cont_bytes c).
Proof. done. Qed.

(** The state of the loop while a request for the attributes [l] of [h] is
    under way: the request block and the response block. *)
Definition attr_req_block (h : Z) (l : list des_elt) (req : list Z) : Prop :=
  ∃ j1 j2 j3 j4 tail, req = [SDP_SVC_ATTR_REQ; j1; j2; j3; j4] ++ attr_body h l ++ tail ∧
    Z.of_nat (length req) = SDP_REQ_BUFFER_SIZE.

Lemma attr_step fuel lk ss req rsp h l c cb concat_buf size chunk c' s' :
  attr_req_block h l req → Z.of_nat (length (des_bytes l)) ≤ 253 → (1 ≤ fuel)%nat →
  lk_in lk = [] → Z.of_nat (length rsp) = SDP_RSP_BUFFER_SIZE →
  cont_at rsp c cb → (∃ c0, cb = cont_bytes c0 ∧ cont_opt_ok c0) → cont_opt_ok c' →
  let pdu := request_pdu SDP_SVC_ATTR_REQ ss (attr_body h l ++ cb) in
  handle_request (lk_fuel lk) (lk_srv lk) (lk_peer lk) (lk_sock lk) pdu (Z.of_nat (length pdu)) =
    Ret (Some (attr_response (be_split 2 (sess_tid ss)) chunk c'), s') →
  0 < Z.of_nat (length chunk) < 2 ^ 15 → (concat_buf ≠ [] ↔ is_Some c) →
  let lk' := Link s' (lk_peer lk) (lk_sock lk) (lk_fuel lk) [] in
  ∃ req' rsp' o,
    attr_req_block h l req' ∧ Z.of_nat (length rsp') = SDP_RSP_BUFFER_SIZE ∧
    cont_at rsp' (Some o) (cont_bytes c') ∧
    adv (SDP_PDU_HDR + 2) rsp' = chunk ++ cont_bytes c' ++ drop (7 + length chunk + length (cont_bytes c')) rsp' ∧
    attr_rsp_loop (S fuel) lk ss req rsp (5 + Z.of_nat (length (attr_body h l))) c concat_buf size =
    match c', concat_buf with
    | Some _, _ =>
        attr_rsp_loop fuel lk' (next_tid ss) req' rsp' (5 + Z.of_nat (length (attr_body h l))) (Some o)
          (concat_buf ++ chunk) (size + Z.of_nat (length chunk))
    | None, [] =>
        Ret (Some (size + Z.of_nat (length chunk), adv (SDP_PDU_HDR + 2) rsp',
                   Z.of_nat (length chunk) + 1), next_tid ss, lk')
    | None, _ =>
        Ret (Some (size + Z.of_nat (length chunk), concat_buf ++ chunk,
                   Z.of_nat (length (concat_buf ++ chunk))), next_tid ss, lk')
    end.
Proof.
  intros (j1 & j2 & j3 & j4 & tail & -> & Hreq) Hl Hfuel Hin Hrsp Hc (c0 & Hcb & Hc0) Hc' pdu Hrun Hchunk Hcc lk'.
  pose proof (length_cont_bytes c0 Hc0) as Hl0. rewrite <- Hcb in Hl0. pose proof (length_cont_bytes c' Hc') as Hl'.
  set (reply := attr_response (be_split 2 (sess_tid ss)) chunk c') in *.
  assert (length reply = 7 + length chunk + length (cont_bytes c'))%nat as Hreply by (unfold reply, attr_response; len).
  unfold SDP_REQ_BUFFER_SIZE, SDP_RSP_BUFFER_SIZE in *. rewrite !length_app, length_attr_body in Hreq. simpl in Hreq.
  destruct (transact_link (S fuel) lk ss SDP_SVC_ATTR_REQ j1 j2 j3 j4 (attr_body h l) tail rsp c cb SDP_SVC_ATTR_RSP
     (be_split 2 (2 + Z.of_nat (length chunk) + Z.of_nat (length (cont_bytes c'))) ++
      be_split 2 (Z.of_nat (length chunk)) ++ chunk ++ cont_bytes c') s')
    as (k1 & k2 & k3 & k4 & Htr); try done; try lia.
  { rewrite length_attr_body. unfold SDP_REQ_BUFFER_SIZE. lia. }
  { len. }
  { rewrite <- attr_response_reply. fold reply. lia. }
  { rewrite <- attr_response_reply. fold reply. unfold SDP_RSP_BUFFER_SIZE. lia. }
  rewrite <- attr_response_reply in Htr. fold reply in Htr.
  set (rsp' := reply ++ drop (length reply) rsp) in *.
  assert (∃ hd, length hd = 5%nat ∧ rsp' = hd ++ be_split 2 (Z.of_nat (length chunk)) ++
            chunk ++ cont_bytes c' ++ drop (length reply) rsp) as (hd & Hhd & Hrsp').
  { exists ([SDP_SVC_ATTR_RSP] ++ be_split 2 (sess_tid ss) ++
      be_split 2 (2 + Z.of_nat (length chunk) + Z.of_nat (length (cont_bytes c')))). split; [len|].
    unfold rsp'. generalize (drop (length reply) rsp). intros q. unfold reply, attr_response.
    by rewrite <- !app_assoc. }
  assert (adv (SDP_PDU_HDR + 2) rsp' = chunk ++ cont_bytes c' ++ drop (length reply) rsp) as Hadv.
  { rewrite Hrsp', app_assoc. apply adv_app. rewrite length_app, length_be_split, Hhd. done. }
  assert (length rsp' = length rsp) as Hrl by (unfold rsp'; rewrite length_app, length_drop; lia).
  assert (drop (length reply) rsp' = drop (length reply) rsp) as Hdrop
    by (unfold rsp'; by rewrite drop_app_length).
  exists ([SDP_SVC_ATTR_REQ; k1; k2; k3; k4] ++ attr_body h l ++ cb ++ drop (length cb) tail), rsp',
    (SDP_PDU_HDR + 2 + Z.of_nat (length chunk)).
  assert (adv (SDP_PDU_HDR + 2 + Z.of_nat (length chunk)) rsp' = cont_bytes c' ++ drop (length reply) rsp) as Hadvc.
  { unfold adv in *. rewrite Z2Nat.inj_add, <- drop_drop, Hadv by (unfold SDP_PDU_HDR; lia).
    by rewrite Nat2Z.id, drop_app_length. }
  split_and!.
  - eexists k1, k2, k3, k4, _. split; [done|]. unfold SDP_REQ_BUFFER_SIZE.
    rewrite !length_app, length_drop, length_attr_body. simpl. lia.
  - rewrite Hrl. done.
  - split; [unfold SDP_PDU_HDR; lia|]. rewrite Hadvc. destruct c' as [c1|]; [|by eexists [], _].
    exists (cstate_bytes c1), (drop (length reply) rsp). split; [|done]. cbn [cont_bytes].
    destruct (Hc' c1 eq_refl) as (_ & _ & Hp). unfold cstate_bytes. f_equal. len.
  - by rewrite <- Hreply, Hdrop.
  - cbn [attr_rsp_loop]. rewrite Htr, outcome_bind_ret. cbv iota beta zeta.
    rewrite lt_size_nonneg by (unfold SDP_PDU_HDR; lia).
    rewrite (proj2 (Z.ltb_ge _ _)) by (unfold SDP_PDU_HDR; lia).
    rewrite Hrsp' at 1. rewrite adv_app by (by rewrite Hhd). rewrite get_be, outcome_bind_ret.
    unfold ntohs. rewrite bswap_be by (simpl; lia). rewrite Hadv.
    assert (1 ≤ length (cont_bytes c'))%nat by (destruct c'; simpl; lia).
    rewrite lt_size_nonneg by (unfold SDP_PDU_HDR; lia).
    rewrite (proj2 (Z.ltb_ge _ _)) by (unfold SDP_PDU_HDR; lia). rewrite adv_app by done.
    destruct c' as [c1|]; cbn [cont_bytes].
    + simpl rd8. rewrite outcome_bind_ret. change (0 <? 8) with true. cbn [orb].
      rewrite Nat2Z.id, rd_app, !outcome_bind_ret by done. done.
    + simpl rd8. rewrite outcome_bind_ret. change (0 <? 0) with false. cbn [orb].
      destruct concat_buf as [|b concat_buf].
      * rewrite bool_decide_false by tauto. rewrite outcome_bind_ret.
        destruct c as [o|]; [exfalso; destruct (proj2 Hcc); [by eexists|done]|]. cbv iota beta.
        change (length (cont_bytes None)) with 1%nat in Hreply.
        replace (Z.of_nat (length reply) - SDP_PDU_HDR - 2) with (Z.of_nat (length chunk) + 1)
          by (unfold SDP_PDU_HDR; lia). done.
      * rewrite bool_decide_true by done. rewrite Nat2Z.id, rd_app, !outcome_bind_ret by done. done.
Qed.

(** The block of a response. *)
Definition rsp_block : list Z := replicate (Z.to_nat (USHRT_MAX - SDP_PDU_HDR) - 2) 0.

Lemma length_rsp_block : Z.of_nat (length rsp_block) = 65528.
Proof. unfold rsp_block. rewrite length_replicate. unfold USHRT_MAX, SDP_PDU_HDR. lia. Qed.

Lemma rsp_block_cons : replicate (Z.to_nat (USHRT_MAX - SDP_PDU_HDR)) 0 = 0 :: 0 :: rsp_block.
Proof.
  unfold rsp_block. set (n := Z.to_nat (USHRT_MAX - SDP_PDU_HDR)).
  replace n with (S (S (n - 2))) at 1 by (unfold n, USHRT_MAX, SDP_PDU_HDR; lia). done.
Qed.

#[local] Opaque rsp_block.

Lemma handle_attr s from sk lfuel ss h l c chunk c' s' :
  from ≠ PeerUnknown → Z.of_nat (length (des_bytes l)) < 256 → cont_opt_ok c →
  (∀ device addr local, ∃ post,
     let buf := attr_request (be_split 2 (sess_tid ss)) h l c in
     service_attr_req lfuel s (SdpReq device addr local sk (peer_mtu from) 0 buf (Z.of_nat (length buf)))
       (SdpBuf (0 :: 0 :: rsp_block) 0 (65528 + 2)) =
     Ret (0, SdpBuf (be_split 2 (Z.of_nat (length chunk)) ++ chunk ++ cont_bytes c' ++ post)
               (2 + Z.of_nat (length chunk) + Z.of_nat (length (cont_bytes c'))) (65528 + 2), s')) →
  let pdu := request_pdu SDP_SVC_ATTR_REQ ss (attr_body h l ++ cont_bytes c) in
  handle_request lfuel s from sk pdu (Z.of_nat (length pdu)) =
  Ret (Some (attr_response (be_split 2 (sess_tid ss)) chunk c'), s').
Proof.
  intros Hfrom Hn Hc Hrun pdu. destruct (handle_request_peer from Hfrom) as (device & addr & local & ->).
  unfold pdu. rewrite attr_request_pdu. destruct (Hrun device addr local) as [post Hpost].
  rewrite (process_attr lfuel s device addr local sk _ 0 _ h l c chunk c' post (65528 + 2) s').
  - done.
  - by rewrite length_be_split.
  - done.
  - done.
  - rewrite rsp_block_cons. apply Hpost.
Qed.

(** The later parts: from a continuation state on, the client collects the
    rest of the list the server keeps. *)
Lemma attr_loop_rest (s1 : sdpd) from sk lfuel h l e (data : list Z) :
  from ≠ PeerUnknown → 21 ≤ peer_mtu from < 2 ^ 15 → 0 ≤ h < 2 ^ 32 →
  Forall (des_ok SDP_TYPE_ANY) (l ++ [e]) → (length l < lfuel)%nat →
  Z.of_nat (length (des_bytes (l ++ [e]))) ≤ 253 → Z.of_nat (length data) < 2 ^ 16 →
  ∀ fuel ss req rsp o c,
  attr_req_block h (l ++ [e]) req → Z.of_nat (length rsp) = SDP_RSP_BUFFER_SIZE →
  cont_at rsp (Some o) (cont_bytes (Some c)) → cont_ok c → 0 < cs_value c < Z.of_nat (length data) →
  (∀ v, sdp_get_cached_rsp s1 (SdpContState (cs_timestamp c) v (cs_pad c)) = Some data) →
  Z.of_nat (length data) - cs_value c < Z.of_nat fuel →
  ∃ ss', attr_rsp_loop (S fuel) (Link s1 from sk lfuel []) ss req rsp
           (5 + Z.of_nat (length (attr_body h (l ++ [e])))) (Some o)
           (take (Z.to_nat (cs_value c)) data) (cs_value c) =
    Ret (Some (Z.of_nat (length data), data, Z.of_nat (length data)), ss', Link s1 from sk lfuel []).
Proof.
  intros Hfrom Hmtu Hh Hok Hlf Hn Hdata.
  induction fuel as [|fuel IH]; intros ss req rsp o c Hblock Hrsp Hat Hc Hv Hcache Hfuel; [lia|].
  set (mtu := peer_mtu from) in *. set (tid := be_split 2 (sess_tid ss)).
  set (sent := Z.min (mtu - 20) (Z.of_nat (length data) - cs_value c)).
  set (chunk := take (Z.to_nat sent) (drop (Z.to_nat (cs_value c)) data)).
  set (c' := if cs_value c + sent =? Z.of_nat (length data) then None
             else Some (SdpContState (cs_timestamp c) (cs_value c + sent) (cs_pad c))).
  assert (0 < sent ∧ sent < 2 ^ 15 ∧ cs_value c + sent ≤ Z.of_nat (length data)) as (Hs1 & Hs2 & Hs3) by (unfold sent; lia).
  assert (Z.of_nat (length chunk) = sent) as Hl by (unfold chunk; rewrite length_take, length_drop; lia).
  assert (take (Z.to_nat (cs_value c)) data ++ chunk = take (Z.to_nat (cs_value c + sent)) data) as Htake.
  { unfold chunk. by rewrite Z2Nat.inj_add, take_add by lia. }
  assert (cont_opt_ok c') as Hc'.
  { intros c1. unfold c'. destruct (Z.eqb_spec (cs_value c + sent) (Z.of_nat (length data))); [done|].
    intros [= <-]. destruct Hc as (Ht & _ & Hp). split_and!; simpl; done || lia. }
  assert (∀ device addr local, ∃ post,
     let buf := attr_request tid h (l ++ [e]) (Some c) in
     service_attr_req lfuel s1 (SdpReq device addr local sk mtu 0 buf (Z.of_nat (length buf)))
       (SdpBuf (0 :: 0 :: rsp_block) 0 (65528 + 2)) =
     Ret (0, SdpBuf (be_split 2 (Z.of_nat (length chunk)) ++ chunk ++ cont_bytes c' ++ post)
               (2 + Z.of_nat (length chunk) + Z.of_nat (length (cont_bytes c'))) (65528 + 2), s1)) as Hrun.
  { intros. apply service_attr_next; try done; try lia.
    - destruct c. apply Hcache.
    - rewrite length_rsp_block. lia. }
  apply handle_attr in Hrun; [|done|lia|by intros ? [= <-]].
  destruct (attr_step (S fuel) (Link s1 from sk lfuel []) ss req rsp h (l ++ [e]) (Some o) (cont_bytes (Some c))
    (take (Z.to_nat (cs_value c)) data) (cs_value c) chunk c' s1)
    as (req' & rsp' & o' & Hblock' & Hrsp' & Hat' & _ & ->); try done; try lia.
  { eexists. split; [done|]. by intros ? [= <-]. }
  { split; [by eexists|]. intros _ Hnil. apply (f_equal length) in Hnil. rewrite length_take in Hnil. simpl in Hnil. lia. }
  rewrite Htake. unfold c' in *. destruct (Z.eqb_spec (cs_value c + sent) (Z.of_nat (length data))) as [E|E].
  - assert (take (Z.to_nat (cs_value c + sent)) data = data) as -> by (apply take_ge; lia).
    rewrite Hl, E. exists (next_tid ss). destruct (take (Z.to_nat (cs_value c)) data) eqn:Hnil; [|done].
    apply (f_equal length) in Hnil. rewrite length_take in Hnil. simpl in Hnil. lia.
  - rewrite Hl. apply (IH (next_tid ss) req' rsp' o' (SdpContState (cs_timestamp c) (cs_value c + sent) (cs_pad c)));
      try done; simpl; try lia. by apply Hc'.
Qed.

(** The whole exchange, for any list of attributes the server answers with
    [data]: the client has [data], however many parts it took, and the
    repository is what it was. *)
Lemma attr_exchange (s : sdpd) from sk lfuel fuel ss h l e p rec data post req rsp :
  from ≠ PeerUnknown → 21 ≤ peer_mtu from < 2 ^ 15 → 0 ≤ h < 2 ^ 32 →
  Forall (des_ok SDP_TYPE_ANY) (l ++ [e]) → (length l < lfuel)%nat →
  Z.of_nat (length (des_bytes (l ++ [e]))) ≤ 253 →
  sdp_record_find (sdb s) h = Ret (Some p) → heap (sdb s) !! p = Some rec →
  extract_attrs true (Some rec) (l ++ [e]) (des_dtd e) (SdpBuf rsp_block 0 65528) =
    Ret (0, SdpBuf (data ++ post) (Z.of_nat (length data)) 65528) →
  0 < Z.of_nat (length data) < 2 ^ 16 → (9 ≤ length post)%nat →
  attr_req_block h (l ++ [e]) req → Z.of_nat (length rsp) = SDP_RSP_BUFFER_SIZE → 2 ^ 16 < Z.of_nat fuel →
  ∃ ss' junk n s', attr_rsp_loop fuel (connect s from sk lfuel) ss req rsp
      (5 + Z.of_nat (length (attr_body h (l ++ [e])))) None [] 0 =
    Ret (Some (Z.of_nat (length data), data ++ junk, n), ss', connect s' from sk lfuel) ∧
    Z.of_nat (length data) ≤ n < 2 ^ 31 ∧ sdb s' = sdb s.
Proof.
  intros Hfrom Hmtu Hh Hok Hlf Hn Hfind Hrec Hext Hdata Hpost Hblock Hrsp Hfuel.
  set (mtu := peer_mtu from) in *. set (tid := be_split 2 (sess_tid ss)).
  set (fits := Z.of_nat (length data) <=? mtu - 20).
  set (chunk := if fits then data else take (Z.to_nat (mtu - 20)) data).
  set (c' := if fits then None else Some (new_cstate (sdp_get_time s) (mtu - 20))).
  set (s1 := if fits then s else set_cstates ((sdp_get_time s, data) :: cstates s) s).
  assert (cont_opt_ok c' ∧ (∀ c1, c' = Some c1 → cs_value c1 = mtu - 20 ∧ cs_timestamp c1 = sdp_get_time s)) as [Hc' Hcv].
  { unfold c', fits. destruct (Z.leb_spec (Z.of_nat (length data)) (mtu - 20)) as [?|Hlt]; [by split|].
    destruct (start_cont_spec s data post (mtu - 20) 0) as (H1 & H2 & _); [lia..|].
    split; [by intros ? [= <-]|]. by intros ? [= <-]. }
  assert (∀ device addr local, ∃ post,
     let buf := attr_request tid h (l ++ [e]) None in
     service_attr_req lfuel s (SdpReq device addr local sk mtu 0 buf (Z.of_nat (length buf)))
       (SdpBuf (0 :: 0 :: rsp_block) 0 (65528 + 2)) =
     Ret (0, SdpBuf (be_split 2 (Z.of_nat (length chunk)) ++ chunk ++ cont_bytes c' ++ post)
               (2 + Z.of_nat (length chunk) + Z.of_nat (length (cont_bytes c'))) (65528 + 2), s1)) as Hrun.
  { intros. apply (service_attr_first s) with (p := p) (rec := rec) (data := data) (post := post); try done; try lia. }
  apply handle_attr in Hrun; [|done|lia|done].
  assert (0 < Z.of_nat (length chunk) < 2 ^ 15) as Hchunk.
  { unfold chunk, fits. destruct (Z.leb_spec (Z.of_nat (length data)) (mtu - 20)); [lia|]. rewrite length_take. lia. }
  destruct fuel as [|fuel]; [lia|].
  destruct (attr_step fuel (connect s from sk lfuel) ss req rsp h (l ++ [e]) None [0] [] 0 chunk c' s1)
    as (req' & rsp' & o' & Hblock' & Hrsp' & Hat' & Hadv' & ->); try done; try lia.
  { by exists None. }
  rewrite app_nil_l, Z.add_0_l. unfold c', s1, chunk, fits in *. clear Hrun.
  destruct (Z.leb_spec (Z.of_nat (length data)) (mtu - 20)) as [Hlt|Hlt].
  - rewrite Hadv'. eexists _, _, _, s. split; [done|]. split; [lia|done].
  - destruct (Hcv _ eq_refl) as [Hv Hts].
    assert (Z.of_nat (length (take (Z.to_nat (mtu - 20)) data)) = mtu - 20) as Hl by (rewrite length_take; lia).
    destruct fuel as [|fuel]; [lia|].
    destruct (attr_loop_rest (set_cstates ((sdp_get_time s, data) :: cstates s) s) from sk lfuel h l e data)
      with (fuel := fuel) (ss := next_tid ss) (req := req') (rsp := rsp') (o := o')
           (c := new_cstate (sdp_get_time s) (mtu - 20)) as [ss' Hrest]; try done; try lia.
    { by apply (Hc' _ eq_refl). }
    { intros v. by apply cached_rsp_hit. }
    rewrite Hv in Hrest. rewrite Hl. unfold connect. cbn [lk_peer lk_sock lk_fuel]. rewrite Hrest.
    eexists _, [], _, _. rewrite app_nil_r. split; [done|]. split; [lia|done].
Qed.

(** The request block before the first exchange. *)
Lemma attr_request_block h l t reqbuf :
  Forall (λ e, des_dtd e = t ∧ des_ok SDP_TYPE_ANY e) l → Z.of_nat (length (des_bytes l)) ≤ 253 →
  Z.of_nat (length reqbuf) = SDP_REQ_BUFFER_SIZE →
  ∃ req, attr_req_block h l req ∧
    (req ← wr reqbuf 0 [SDP_SVC_ATTR_REQ]; req ← put_be32 req SDP_PDU_HDR h;
     req ← put_be16 req (SDP_PDU_HDR + 4) 65535; gen_attridseq_pdu req (SDP_PDU_HDR + 6) l t) =
    Ret (req, 2 + Z.of_nat (length (des_bytes l))).
Proof.
  intros Hl Hn Hreq. unfold SDP_REQ_BUFFER_SIZE in Hreq.
  do 11 (destruct reqbuf as [|? reqbuf]; [done|]). simpl length in Hreq.
  rewrite (wr_at [] [z] (z0 :: z1 :: z2 :: z3 :: z4 :: z5 :: z6 :: z7 :: z8 :: z9 :: reqbuf)) by done.
  rewrite outcome_bind_ret. unfold put_be32. rewrite put_htonl.
  rewrite (wr_at [SDP_SVC_ATTR_REQ; z0; z1; z2; z3] [z4; z5; z6; z7] (z8 :: z9 :: reqbuf)) by done.
  rewrite outcome_bind_ret. set (pre := [SDP_SVC_ATTR_REQ; z0; z1; z2; z3] ++ be_split 4 h).
  assert (length pre = 9%nat) as Hpre by (unfold pre; by rewrite length_app, length_be_split).
  rewrite (put_be16_at pre [z8; z9] reqbuf) by (rewrite ?Hpre; unfold pre; done || by rewrite <- app_assoc).
  rewrite outcome_bind_ret. unfold gen_attridseq_pdu. rewrite app_assoc.
  replace (SDP_PDU_HDR + 6) with (Z.of_nat (length (pre ++ be_split 2 65535)))
    by (rewrite length_app, length_be_split, Hpre; done).
  rewrite gen_dataseq_spec by (done || lia). eexists. split; [|done].
  eexists z0, z1, z2, z3, (drop (2 + length (des_bytes l)) reqbuf). unfold attr_body, pre.
  split; [by rewrite <- !app_assoc|]. unfold SDP_REQ_BUFFER_SIZE. len.
Qed.

(** C17: a client gets the record the server keeps. A client that asks for all
    attributes of a registered record, over a connection of any device or
    program with an MTU from 21 bytes up, receives exactly the record: the
    handle, service class, attributes (strings terminated) and search pattern
    that parsing its PDU gives, in however many parts the server cuts the
    response; the session is ready for the next request and the repository
    unchanged. The server does not ask whether the device may see the
    record. *)
Theorem attr_request_fetches_record (s : sdpd) (from : peer) (sk : Z) (lfuel fuel : nat) (ss : sdp_session)
    (h : Z) (p : loc) (rec : sdp_record) (reqbuf rspbuf : list Z)
    (Hdb : db_ok (sdb s)) (Hh : u32_ok h) (Hfind : db_map (sdb s) !! h = Some p)
    (Hrec : heap (sdb s) !! p = Some rec) (Hne : attrlist rec ≠ []) (Hok : record_ok rec)
    (Hfit : Forall attr_fits (attrlist rec)) (Hport : Forall attr_portable (attrlist rec))
    (Hlen : Z.of_nat (length (record_body (attrlist rec))) ≤ 65500)
    (Hfrom : from ≠ PeerUnknown) (Hmtu : 21 ≤ peer_mtu from < 2 ^ 15)
    (Hreq : Z.of_nat (length reqbuf) = SDP_REQ_BUFFER_SIZE)
    (Hrsp : Z.of_nat (length rspbuf) = SDP_RSP_BUFFER_SIZE)
    (Hlf : (0 < lfuel)%nat) (Hfuel : 2 ^ 16 < Z.of_nat fuel) :
  ∃ ss' s',
    sdp_service_attr_req fuel (connect s from sk lfuel) ss h SDP_ATTR_REQ_RANGE [DesU32 0x0000ffff] reqbuf rspbuf =
    Ret (Some (received sdp_record_alloc (attrlist rec)), ss', connect s' from sk lfuel) ∧ sdb s' = sdb s.
Proof.
  set (frame := seq_frame (record_body (attrlist rec))).
  pose proof (length_seq_frame (record_body (attrlist rec))) as Hfl. fold frame in Hfl.
  assert (0 < length frame)%nat as Hf0 by (unfold frame, seq_frame; case_match; simpl; lia).
  assert (Forall (λ e, des_dtd e = SDP_UINT32 ∧ des_ok SDP_TYPE_ANY e) [DesU32 0x0000ffff]) as Hdes
    by (repeat constructor; vm_compute; congruence).
  assert (Forall (des_ok SDP_TYPE_ANY) ([] ++ [DesU32 0x0000ffff])) as Hdes'
    by (eapply Forall_impl; [exact Hdes|]; by intros ? []).
  destruct (attr_request_block h [DesU32 0x0000ffff] SDP_UINT32 reqbuf Hdes ltac:(done) Hreq) as (req & Hblock & Hgen).
  pose proof length_rsp_block as Hblk.
  destruct (attr_exchange s from sk lfuel fuel ss h [] (DesU32 0x0000ffff) p rec frame
              (drop (length frame) rsp_block) req rspbuf) as (ss' & junk & n & s' & Hrun & Hn & Hs');
    try assumption; try (simpl length; lia).
  - by vm_compute.
  - rewrite record_find_spec by (apply Hdb || done). by rewrite Hfind.
  - change (des_dtd (DesU32 0x0000ffff)) with SDP_UINT32. rewrite app_nil_l.
    apply (extract_attrs_all rec rsp_block 65528 Hne Hfit); fold frame; lia.
  - rewrite length_drop. lia.
  - unfold sdp_service_attr_req. change (negb (SDP_ATTR_REQ_RANGE =? SDP_ATTR_REQ_INDIVIDUAL)
      && negb (SDP_ATTR_REQ_RANGE =? SDP_ATTR_REQ_RANGE)) with false.
    change (attr_type SDP_ATTR_REQ_RANGE) with SDP_UINT32. cbv iota.
    rewrite <- !outcome_bind_assoc in Hgen. rewrite <- !outcome_bind_assoc, Hgen, outcome_bind_ret.
    cbv iota beta. change (2 + Z.of_nat (length (des_bytes [DesU32 65535]))) with 7. change (7 =? -1) with false.
    cbv iota. change (5 + Z.of_nat (length (attr_body h ([] ++ [DesU32 65535])))) with 18 in Hrun.
    change (SDP_PDU_HDR + 6 + 7) with 18.
    rewrite Hrun, outcome_bind_ret. cbv iota beta. rewrite (proj2 (Z.ltb_lt _ _)) by lia.
    unfold frame. rewrite extract_pdu_frame by (assumption || apply Hok || (fold frame; lia)). rewrite outcome_bind_ret.
    by eexists _, s'.
Qed.

Definition example_link_db : svcdb :=
  Svcdb (<[1%positive := example_rec]> ∅) 2%positive [1%positive] [SdpAccess 0x10000 BDADDR_ANY] [].
Definition example_link_server : sdpd := Sdpd example_link_db None 0 0 0 0 7 [].

Lemma example_link_db_ok : db_ok example_link_db.
Proof.
  split.
  - repeat constructor. eexists. by split.
  - apply (bool_decide_unpack _). by vm_compute.
  - done.
  - intros p. unfold example_link_db. simpl heap. simpl next_loc. rewrite lookup_insert. case_decide as E; [subst; intros _; vm_compute; reflexivity|].
    rewrite lookup_empty. by intros [? ?].
Qed.

Lemma attr_request_fetches_record_witness :
  ∃ ss' s',
    sdp_service_attr_req (Z.to_nat 70000) (connect example_link_server (PeerL2cap BDADDR_ANY BDADDR_ANY 48) 5 1)
      (SdpSession false 0) 0x10000 SDP_ATTR_REQ_RANGE [DesU32 0x0000ffff] (replicate (Z.to_nat 2048) 0)
      (replicate (Z.to_nat 65535) 0) =
    Ret (Some (received sdp_record_alloc (attrlist example_rec)), ss',
         connect s' (PeerL2cap BDADDR_ANY BDADDR_ANY 48) 5 1) ∧ sdb s' = example_link_db.
Proof.
  apply (attr_request_fetches_record example_link_server _ 5 1 _ _ 0x10000 1%positive example_rec).
  - apply example_link_db_ok.
  - by vm_compute.
  - reflexivity.
  - reflexivity.
  - discriminate.
  - split; repeat constructor.
  - repeat constructor; vm_compute; intuition congruence.
  - repeat constructor; vm_compute; intuition congruence.
  - by vm_compute.
  - discriminate.
  - by vm_compute.
  - rewrite length_replicate, Z2Nat.id; [reflexivity|lia].
  - rewrite length_replicate, Z2Nat.id; [reflexivity|lia].
  - lia.
  - rewrite Z2Nat.id; lia.
Defined.
