(* ===== verification/Ubcsp.v ===== *)
(** utils/tools/ubcsp.c: the BCSP link to a serial chip. A packet becomes a
    frame of header, payload and checksum between SLIP markers, sent an octet
    per poll; the receiver checks the frame and hands the packet up. This file
    is the model; UbcspCrc, UbcspFrame, UbcspPoll and UbcspLink are about it. *)

From stdpp Require Import base list numbers sorting.
From Stdlib Require Import ZArith Lia.
From S2P Require Import Prelude.

Local Open Scope Z_scope.

(** * Constants *)

Definition SLIP_FRAME : Z := 192.
Definition SLIP_ESCAPE : Z := 219.
Definition SLIP_ESCAPE_FRAME : Z := 220.
Definition SLIP_ESCAPE_ESCAPE : Z := 221.

Definition UBCSP_PACKET_SENT : Z := 1.
Definition UBCSP_PACKET_RECEIVED : Z := 2.
Definition UBCSP_PEER_RESET : Z := 4.
Definition UBCSP_PACKET_ACK : Z := 8.

Definition UBCSP_POLL_TIME_IMMEDIATE : Z := 0.
Definition UBCSP_POLL_TIME_DELAY : Z := 25.

Definition ubcsp_le_uninitialized : Z := 0.
Definition ubcsp_le_initialized : Z := 1.
Definition ubcsp_le_active : Z := 2.

Definition ubcsp_le_sync : Z := 0.
Definition ubcsp_le_sync_resp : Z := 1.
Definition ubcsp_le_conf : Z := 2.
Definition ubcsp_le_conf_resp : Z := 3.
Definition ubcsp_le_none : Z := 4.

Definition ubcsp_le_buffer : list (list Z) :=
  [[218; 220; 237; 237]; [172; 175; 239; 238]; [173; 239; 172; 237]; [222; 173; 208; 208]].

Definition ubcsp_send_le_header : list Z := [64; 65; 0; 126].

Definition ubcsp_deslip : list Z := [SLIP_FRAME; SLIP_ESCAPE].

(** The twelve entries of the initializer; the other four are zero. *)
Definition next_le_packet : list Z :=
  [ubcsp_le_sync; ubcsp_le_conf; ubcsp_le_none; ubcsp_le_none;
   ubcsp_le_sync_resp; ubcsp_le_sync_resp; ubcsp_le_none; ubcsp_le_none;
   ubcsp_le_none; ubcsp_le_conf_resp; ubcsp_le_conf_resp; ubcsp_le_none; 0; 0; 0; 0].

Definition crc_table : list Z :=
  [0; 4225; 8450; 12675; 16900; 21125; 25350; 29575; 33800; 38025; 42250; 46475; 50700; 54925; 59150; 63375].

(** * State

    A packet's payload is the block its pointer points to. The pointer
    [receive_packet] is NULL when the engine has handed the packet up; the
    packet is then a result of the function that did so. The pointers of the
    sender are the octets from the pointer on: the blocks they point into are
    not written while they are sent. The static buffers for the header, the
    acknowledgement and the checksum are those blocks. *)

Record ubcsp_packet := Packet {
  channel : Z;
  reliable : Z;
  use_crc : Z;
  packet_length : Z;
  payload : option (list Z)
}.

Definition set_reliable (v : Z) (p : ubcsp_packet) : ubcsp_packet :=
  Packet (channel p) v (use_crc p) (packet_length p) (payload p).
Definition set_channel (v : Z) (p : ubcsp_packet) : ubcsp_packet :=
  Packet v (reliable p) (use_crc p) (packet_length p) (payload p).
Definition set_packet_length (v : Z) (p : ubcsp_packet) : ubcsp_packet :=
  Packet (channel p) (reliable p) (use_crc p) v (payload p).
Definition set_payload (v : option (list Z)) (p : ubcsp_packet) : ubcsp_packet :=
  Packet (channel p) (reliable p) (use_crc p) (packet_length p) v.

Record ubcsp_configuration := Config {
  link_establishment_state : Z;
  link_establishment_resp : Z;
  link_establishment_packet : Z;
  sequence_number : Z;
  ack_number : Z;
  send_ack : Z;
  send_packet : option ubcsp_packet;
  receive_packet : option ubcsp_packet;
  receive_header : list Z;
  receive_slip_escape : Z;
  receive_index : Z;
  need_send_crc : Z;
  send_crc : Z;
  send_slip_escape : Z;
  send_ptr : option (list Z);
  send_size : Z;
  next_send_ptr : option (list Z);
  next_send_size : Z;
  delay : Z
}.

Definition set_link_establishment_state (v : Z) (s : ubcsp_configuration) : ubcsp_configuration :=
  Config v (link_establishment_resp s) (link_establishment_packet s) (sequence_number s) (ack_number s)
    (send_ack s) (send_packet s) (receive_packet s) (receive_header s) (receive_slip_escape s) (receive_index s)
    (need_send_crc s) (send_crc s) (send_slip_escape s) (send_ptr s) (send_size s) (next_send_ptr s)
    (next_send_size s) (delay s).
Definition set_link_establishment_resp (v : Z) (s : ubcsp_configuration) : ubcsp_configuration :=
  Config (link_establishment_state s) v (link_establishment_packet s) (sequence_number s) (ack_number s)
    (send_ack s) (send_packet s) (receive_packet s) (receive_header s) (receive_slip_escape s) (receive_index s)
    (need_send_crc s) (send_crc s) (send_slip_escape s) (send_ptr s) (send_size s) (next_send_ptr s)
    (next_send_size s) (delay s).
Definition set_link_establishment_packet (v : Z) (s : ubcsp_configuration) : ubcsp_configuration :=
  Config (link_establishment_state s) (link_establishment_resp s) v (sequence_number s) (ack_number s) (send_ack
    s) (send_packet s) (receive_packet s) (receive_header s) (receive_slip_escape s) (receive_index s)
    (need_send_crc s) (send_crc s) (send_slip_escape s) (send_ptr s) (send_size s) (next_send_ptr s)
    (next_send_size s) (delay s).
Definition set_sequence_number (v : Z) (s : ubcsp_configuration) : ubcsp_configuration :=
  Config (link_establishment_state s) (link_establishment_resp s) (link_establishment_packet s) v (ack_number s)
    (send_ack s) (send_packet s) (receive_packet s) (receive_header s) (receive_slip_escape s) (receive_index s)
    (need_send_crc s) (send_crc s) (send_slip_escape s) (send_ptr s) (send_size s) (next_send_ptr s)
    (next_send_size s) (delay s).
Definition set_ack_number (v : Z) (s : ubcsp_configuration) : ubcsp_configuration :=
  Config (link_establishment_state s) (link_establishment_resp s) (link_establishment_packet s) (sequence_number
    s) v (send_ack s) (send_packet s) (receive_packet s) (receive_header s) (receive_slip_escape s)
    (receive_index s) (need_send_crc s) (send_crc s) (send_slip_escape s) (send_ptr s) (send_size s)
    (next_send_ptr s) (next_send_size s) (delay s).
Definition set_send_ack (v : Z) (s : ubcsp_configuration) : ubcsp_configuration :=
  Config (link_establishment_state s) (link_establishment_resp s) (link_establishment_packet s) (sequence_number
    s) (ack_number s) v (send_packet s) (receive_packet s) (receive_header s) (receive_slip_escape s)
    (receive_index s) (need_send_crc s) (send_crc s) (send_slip_escape s) (send_ptr s) (send_size s)
    (next_send_ptr s) (next_send_size s) (delay s).
Definition set_send_packet (v : option ubcsp_packet) (s : ubcsp_configuration) : ubcsp_configuration :=
  Config (link_establishment_state s) (link_establishment_resp s) (link_establishment_packet s) (sequence_number
    s) (ack_number s) (send_ack s) v (receive_packet s) (receive_header s) (receive_slip_escape s)
    (receive_index s) (need_send_crc s) (send_crc s) (send_slip_escape s) (send_ptr s) (send_size s)
    (next_send_ptr s) (next_send_size s) (delay s).
Definition set_receive_packet (v : option ubcsp_packet) (s : ubcsp_configuration) : ubcsp_configuration :=
  Config (link_establishment_state s) (link_establishment_resp s) (link_establishment_packet s) (sequence_number
    s) (ack_number s) (send_ack s) (send_packet s) v (receive_header s) (receive_slip_escape s) (receive_index
    s) (need_send_crc s) (send_crc s) (send_slip_escape s) (send_ptr s) (send_size s) (next_send_ptr s)
    (next_send_size s) (delay s).
Definition set_receive_header (v : list Z) (s : ubcsp_configuration) : ubcsp_configuration :=
  Config (link_establishment_state s) (link_establishment_resp s) (link_establishment_packet s) (sequence_number
    s) (ack_number s) (send_ack s) (send_packet s) (receive_packet s) v (receive_slip_escape s) (receive_index
    s) (need_send_crc s) (send_crc s) (send_slip_escape s) (send_ptr s) (send_size s) (next_send_ptr s)
    (next_send_size s) (delay s).
Definition set_receive_slip_escape (v : Z) (s : ubcsp_configuration) : ubcsp_configuration :=
  Config (link_establishment_state s) (link_establishment_resp s) (link_establishment_packet s) (sequence_number
    s) (ack_number s) (send_ack s) (send_packet s) (receive_packet s) (receive_header s) v (receive_index s)
    (need_send_crc s) (send_crc s) (send_slip_escape s) (send_ptr s) (send_size s) (next_send_ptr s)
    (next_send_size s) (delay s).
Definition set_receive_index (v : Z) (s : ubcsp_configuration) : ubcsp_configuration :=
  Config (link_establishment_state s) (link_establishment_resp s) (link_establishment_packet s) (sequence_number
    s) (ack_number s) (send_ack s) (send_packet s) (receive_packet s) (receive_header s) (receive_slip_escape s)
    v (need_send_crc s) (send_crc s) (send_slip_escape s) (send_ptr s) (send_size s) (next_send_ptr s)
    (next_send_size s) (delay s).
Definition set_need_send_crc (v : Z) (s : ubcsp_configuration) : ubcsp_configuration :=
  Config (link_establishment_state s) (link_establishment_resp s) (link_establishment_packet s) (sequence_number
    s) (ack_number s) (send_ack s) (send_packet s) (receive_packet s) (receive_header s) (receive_slip_escape s)
    (receive_index s) v (send_crc s) (send_slip_escape s) (send_ptr s) (send_size s) (next_send_ptr s)
    (next_send_size s) (delay s).
Definition set_send_crc (v : Z) (s : ubcsp_configuration) : ubcsp_configuration :=
  Config (link_establishment_state s) (link_establishment_resp s) (link_establishment_packet s) (sequence_number
    s) (ack_number s) (send_ack s) (send_packet s) (receive_packet s) (receive_header s) (receive_slip_escape s)
    (receive_index s) (need_send_crc s) v (send_slip_escape s) (send_ptr s) (send_size s) (next_send_ptr s)
    (next_send_size s) (delay s).
Definition set_send_slip_escape (v : Z) (s : ubcsp_configuration) : ubcsp_configuration :=
  Config (link_establishment_state s) (link_establishment_resp s) (link_establishment_packet s) (sequence_number
    s) (ack_number s) (send_ack s) (send_packet s) (receive_packet s) (receive_header s) (receive_slip_escape s)
    (receive_index s) (need_send_crc s) (send_crc s) v (send_ptr s) (send_size s) (next_send_ptr s)
    (next_send_size s) (delay s).
Definition set_send_ptr (v : option (list Z)) (s : ubcsp_configuration) : ubcsp_configuration :=
  Config (link_establishment_state s) (link_establishment_resp s) (link_establishment_packet s) (sequence_number
    s) (ack_number s) (send_ack s) (send_packet s) (receive_packet s) (receive_header s) (receive_slip_escape s)
    (receive_index s) (need_send_crc s) (send_crc s) (send_slip_escape s) v (send_size s) (next_send_ptr s)
    (next_send_size s) (delay s).
Definition set_send_size (v : Z) (s : ubcsp_configuration) : ubcsp_configuration :=
  Config (link_establishment_state s) (link_establishment_resp s) (link_establishment_packet s) (sequence_number
    s) (ack_number s) (send_ack s) (send_packet s) (receive_packet s) (receive_header s) (receive_slip_escape s)
    (receive_index s) (need_send_crc s) (send_crc s) (send_slip_escape s) (send_ptr s) v (next_send_ptr s)
    (next_send_size s) (delay s).
Definition set_next_send_ptr (v : option (list Z)) (s : ubcsp_configuration) : ubcsp_configuration :=
  Config (link_establishment_state s) (link_establishment_resp s) (link_establishment_packet s) (sequence_number
    s) (ack_number s) (send_ack s) (send_packet s) (receive_packet s) (receive_header s) (receive_slip_escape s)
    (receive_index s) (need_send_crc s) (send_crc s) (send_slip_escape s) (send_ptr s) (send_size s) v
    (next_send_size s) (delay s).
Definition set_next_send_size (v : Z) (s : ubcsp_configuration) : ubcsp_configuration :=
  Config (link_establishment_state s) (link_establishment_resp s) (link_establishment_packet s) (sequence_number
    s) (ack_number s) (send_ack s) (send_packet s) (receive_packet s) (receive_header s) (receive_slip_escape s)
    (receive_index s) (need_send_crc s) (send_crc s) (send_slip_escape s) (send_ptr s) (send_size s)
    (next_send_ptr s) v (delay s).
Definition set_delay (v : Z) (s : ubcsp_configuration) : ubcsp_configuration :=
  Config (link_establishment_state s) (link_establishment_resp s) (link_establishment_packet s) (sequence_number
    s) (ack_number s) (send_ack s) (send_packet s) (receive_packet s) (receive_header s) (receive_slip_escape s)
    (receive_index s) (need_send_crc s) (send_crc s) (send_slip_escape s) (send_ptr s) (send_size s)
    (next_send_ptr s) (next_send_size s) v.

(** Compute the fields of an explicit state. *)
Ltac fields := cbv beta iota zeta delta [link_establishment_state link_establishment_resp
  link_establishment_packet sequence_number ack_number send_ack send_packet receive_packet receive_header
  receive_slip_escape receive_index need_send_crc send_crc send_slip_escape send_ptr send_size next_send_ptr
  next_send_size delay set_link_establishment_state set_link_establishment_resp set_link_establishment_packet
  set_sequence_number set_ack_number set_send_ack set_send_packet set_receive_packet set_receive_header
  set_receive_slip_escape set_receive_index set_need_send_crc set_send_crc set_send_slip_escape set_send_ptr
  set_send_size set_next_send_ptr set_next_send_size set_delay] in *.
Ltac packet_fields := cbv beta iota zeta delta [channel reliable use_crc packet_length payload
  set_reliable set_channel set_packet_length set_payload] in *.

(** An element of a table; reading outside it is undefined. *)
Definition table_at {A} (t : list A) (i : Z) : outcome A :=
  if i <? 0 then Undef else match t !! Z.to_nat i with Some x => Ret x | None => Undef end.

(** * The interface *)

Definition ubcsp_initialize (s : ubcsp_configuration) : ubcsp_configuration :=
  let s := set_sequence_number 0 (set_ack_number 0 s) in
  let s := set_send_size 0 (set_send_ptr None s) in
  let s := set_delay 0 (set_receive_index (-4) s) in
  set_link_establishment_packet ubcsp_le_sync (set_link_establishment_state ubcsp_le_uninitialized s).

Definition ubcsp_send_packet (p : ubcsp_packet) (s : ubcsp_configuration) : ubcsp_configuration :=
  set_send_ptr None (set_send_size 0 (set_send_packet (Some p) s)).

Definition ubcsp_receive_packet (p : ubcsp_packet) (s : ubcsp_configuration) : ubcsp_configuration :=
  set_receive_index (-4) (set_receive_packet (Some p) s).

(** * The checksum *)

Definition crc_nibble (v crc : Z) : Z :=
  Z.lxor (Z.shiftr crc 4) (nth (Z.to_nat (Z.land (Z.lxor crc v) 15)) crc_table 0).
Definition ubcsp_calc_crc (ch crc : Z) : Z := crc_nibble (Z.shiftr ch 4) (crc_nibble ch crc).

Fixpoint crc_reverse_loop (b : nat) (crc rev : Z) : Z :=
  match b with
  | O => rev
  | S b => crc_reverse_loop b (Z.shiftr crc 1) (Z.lor (Z.shiftl rev 1) (Z.land crc 1))
  end.
Definition ubcsp_crc_reverse (crc : Z) : Z := to_u16 (crc_reverse_loop 16 crc 0).

Definition crc_octets (l : list Z) (crc : Z) : Z := foldl (λ crc ch, ubcsp_calc_crc ch crc) crc l.

(** * Receiving *)

(** Whether the payload starts with the octets of the row: reading stops at the
    first that differs. *)
Fixpoint le_row_matches (payload row : list Z) : outcome bool :=
  match row with
  | [] => Ret true
  | b :: row => v ← rd8 payload; if v =? b then le_row_matches (drop 1 payload) row else Ret false
  end.

Fixpoint which_le_loop (loop : Z) (rows : list (list Z)) (payload : list Z) : outcome Z :=
  match rows with
  | [] => Ret 5
  | row :: rows => b ← le_row_matches payload row; if b : bool then Ret loop else which_le_loop (loop + 1) rows payload
  end.
Definition ubcsp_which_le_payload (payload : list Z) : outcome Z := which_le_loop 0 ubcsp_le_buffer payload.

(** The fields of a received header. *)
Definition header_at (h : list Z) (i : nat) : Z := nth i h 0.
Definition header_sum (h : list Z) : Z :=
  Z.land (header_at h 0 + header_at h 1 + header_at h 2 + header_at h 3) 255.
Definition header_reliable (h : list Z) : Z := Z.shiftr (Z.land (header_at h 0) 128) 7.
Definition header_crc (h : list Z) : Z := Z.shiftr (Z.land (header_at h 0) 64) 6.
Definition header_ack (h : list Z) : Z := Z.shiftr (Z.land (header_at h 0) 56) 3.
Definition header_seq (h : list Z) : Z := Z.land (header_at h 0) 7.
Definition header_channel (h : list Z) : Z := Z.land (header_at h 1) 15.
Definition header_length (h : list Z) : Z :=
  Z.lor (Z.shiftr (Z.land (header_at h 1) 240) 4) (Z.shiftl (header_at h 2) 4).

(** The checks on length and checksum: whether they pass, and
    [receive_index] after them. *)
Definition check_frame (h pay : list Z) (index : Z) : outcome (bool * Z) :=
  if negb (header_crc h =? 0) then
    if negb (header_length h + 2 =? index) then Ret (false, index)
    else
      let index := index - 2 in
      bs ← rd (Z.to_nat index) pay;
      let crc := ubcsp_crc_reverse (crc_octets bs (crc_octets h 65535)) in
      hi ← rd8 (adv index pay);
      if negb (Z.shiftr (Z.land crc 65280) 8 =? hi) then Ret (false, index)
      else lo ← rd8 (adv (index + 1) pay); Ret (Z.land crc 255 =? lo, index)
  else Ret (header_length h =? index, index).

(** The acknowledgement of a frame. *)
Definition take_ack (ack : Z) (s : ubcsp_configuration) : Z * ubcsp_configuration :=
  match send_packet s with
  | Some p =>
      if negb (ack =? sequence_number s) && negb (reliable p =? 0) then
        (UBCSP_PACKET_SENT,
         set_delay 0 (set_sequence_number ((sequence_number s + 1) mod 8) (set_send_packet None s)))
      else (0, s)
  | None => (0, s)
  end.

(** A frame of the link establishment channel, with the activity so far. *)
Definition le_frame (payload : list Z) (activity : Z) (s : ubcsp_configuration) : outcome (Z * ubcsp_configuration) :=
  let s := set_delay 0 s in
  which ← ubcsp_which_le_payload payload;
  Ret (if which =? 0 then
         if link_establishment_state s <? ubcsp_le_active then (activity, set_link_establishment_resp 1 s)
         else (UBCSP_PEER_RESET, ubcsp_initialize s)
       else if which =? 1 then
         if link_establishment_state s <? ubcsp_le_initialized
         then (activity, set_link_establishment_state ubcsp_le_initialized s) else (activity, s)
       else if which =? 2 then
         if ubcsp_le_initialized <=? link_establishment_state s
         then (activity, set_link_establishment_resp 2 s) else (activity, s)
       else if which =? 3 then
         if link_establishment_state s <? ubcsp_le_active
         then (Z.lor activity UBCSP_PACKET_SENT, set_send_size 0 (set_link_establishment_state ubcsp_le_active s))
         else (activity, s)
       else (activity, s)).

(** A frame of another channel: the packet handed up, if any. *)
Definition data_frame (p : ubcsp_packet) (length seq activity : Z) (s : ubcsp_configuration)
    : Z * option ubcsp_packet * ubcsp_configuration :=
  if negb (receive_index s =? 0) && (link_establishment_state s =? ubcsp_le_active) then
    if negb (reliable p =? 0) then
      let s := set_send_ack 1 s in
      if seq =? ack_number s then
        (Z.lor activity (Z.lor UBCSP_PACKET_RECEIVED UBCSP_PACKET_ACK), Some (set_packet_length length p),
         set_receive_packet None (set_ack_number ((ack_number s + 1) mod 8) s))
      else (activity, None, s)
    else (Z.lor activity UBCSP_PACKET_RECEIVED, Some (set_packet_length length p), set_receive_packet None s)
  else (activity, None, s).

(** [p] is the packet [receive_packet] points to; a NULL payload is an empty
    block. *)
Definition ubcsp_recevied_packet (p : ubcsp_packet) (s : ubcsp_configuration)
    : outcome (Z * option ubcsp_packet * ubcsp_configuration) :=
  let h := receive_header s in
  if negb (header_sum h =? 255) then Ret (0, None, set_send_ack 1 s)
  else
    let pay := default [] (payload p) in
    let p := set_channel (header_channel h) (set_reliable (header_reliable h) p) in
    let s := set_receive_packet (Some p) s in
    r ← check_frame h pay (receive_index s);
    let s := set_receive_index r.2 s in
    if negb r.1 then Ret (0, None, set_send_ack 1 s)
    else
      let '(activity, s) := take_ack (header_ack h) s in
      if channel p =? 1 then r ← le_frame pay activity s; Ret (r.1, None, r.2)
      else Ret (data_frame p (header_length h) (header_seq h) activity s).

(** An octet that is not a marker: into the header, or the payload as long as
    there is room; the host says how much in the packet's length. *)
Definition store_octet (value : Z) (p : ubcsp_packet) (s : ubcsp_configuration) : outcome ubcsp_configuration :=
  if receive_index s <? 0 then
    h ← wr (receive_header s) (receive_index s + 4) [value];
    Ret (set_receive_index (receive_index s + 1) (set_receive_header h s))
  else if receive_index s <? packet_length p then
    pay ← wr (default [] (payload p)) (receive_index s) [value];
    Ret (set_receive_index (receive_index s + 1) (set_receive_packet (Some (set_payload (Some pay) p)) s))
  else Ret s.

(** One round of the receiving loop of [ubcsp_poll]. *)
Definition receive_octet (value activity : Z) (p : ubcsp_packet) (s : ubcsp_configuration)
    : outcome (Z * option ubcsp_packet * ubcsp_configuration) :=
  if negb (receive_slip_escape s =? 0) then
    value ← table_at ubcsp_deslip (value - SLIP_ESCAPE_FRAME);
    s ← store_octet value p (set_receive_slip_escape 0 s);
    Ret (activity, None, s)
  else if value =? SLIP_FRAME then
    if 0 <=? receive_index s then
      r ← ubcsp_recevied_packet p s;
      let '(a, up, s) := r in
      let activity := Z.lor activity a in
      let s := if negb (Z.land activity UBCSP_PACKET_ACK =? 0) then set_delay 0 s else s in
      Ret (activity, up, set_receive_index (-4) s)
    else Ret (activity, None, set_receive_index (-4) s)
  else if value =? SLIP_ESCAPE then Ret (activity, None, set_receive_slip_escape 1 s)
  else s ← store_octet value p s; Ret (activity, None, s).

(** The loop over the octets the line has for us; those left are the last
    result. *)
Fixpoint receive_loop (uart : list Z) (activity : Z) (s : ubcsp_configuration)
    : outcome (Z * option ubcsp_packet * ubcsp_configuration * list Z) :=
  match receive_packet s, uart with
  | Some p, value :: uart =>
      r ← receive_octet value activity p s;
      let '(activity, up, s) := r in
      match up with
      | Some p => Ret (activity, Some p, s, uart)
      | None => receive_loop uart activity s
      end
  | _, _ => Ret (activity, None, s, uart)
  end.

(** * Sending

    The functions return the octets they put on the line. *)

Definition ubcsp_put_slip_uart (ch : Z) (s : ubcsp_configuration) : list Z * ubcsp_configuration :=
  if ch =? SLIP_FRAME then ([SLIP_ESCAPE], set_send_slip_escape SLIP_ESCAPE_FRAME s)
  else if ch =? SLIP_ESCAPE then ([SLIP_ESCAPE], set_send_slip_escape SLIP_ESCAPE_ESCAPE s)
  else ([ch], s).

(** The last octet of a header is the complement of the sum of the others. *)
Definition header_checksum (h : list Z) : list Z :=
  take 3 h ++ [Z.land (Z.lnot (header_at h 0 + header_at h 1 + header_at h 2)) 255].

Definition ubcsp_setup_packet (part1 : list Z) (calc : bool) (part2 : option (list Z)) (len2 : Z)
    (s : ubcsp_configuration) : ubcsp_configuration :=
  let part1 := if calc then header_checksum part1 else part1 in
  let s := set_send_size 4 (set_send_ptr (Some part1) s) in
  let s := set_next_send_size len2 (set_next_send_ptr part2 s) in
  set_need_send_crc 1 (set_send_crc 65535 s).

Definition ubcsp_sent_packet (s : ubcsp_configuration) : Z * ubcsp_configuration :=
  match send_packet s with
  | Some p => if reliable p =? 0 then (UBCSP_PACKET_SENT, set_send_packet None s) else (0, s)
  | None => (0, s)
  end.

(** An octet of the current block. *)
Definition send_octet (s : ubcsp_configuration) : outcome (list Z * ubcsp_configuration) :=
  if negb (send_slip_escape s =? 0) then Ret ([send_slip_escape s], set_send_slip_escape 0 s)
  else
    match send_ptr s with
    | None => Undef
    | Some ptr =>
        value ← rd8 ptr;
        let s := set_send_ptr (Some (drop 1 ptr)) s in
        Ret (ubcsp_put_slip_uart value (set_send_crc (ubcsp_calc_crc value (send_crc s)) s))
    end.

(** The end of a block: the next one, the checksum, or the end of the frame.
    The octets, the activity, the delay and the state. *)
Definition end_block (s : ubcsp_configuration) : list Z * Z * Z * ubcsp_configuration :=
  let s := set_send_size (next_send_size s) (set_send_ptr (next_send_ptr s) s) in
  let s := set_next_send_size 0 (set_next_send_ptr None s) in
  match send_ptr s with
  | Some _ => ([], 0, UBCSP_POLL_TIME_IMMEDIATE, s)
  | None =>
      if negb (need_send_crc s =? 0) then
        let crc := ubcsp_crc_reverse (send_crc s) in
        let s := set_send_crc crc (set_need_send_crc 0 s) in
        ([], 0, UBCSP_POLL_TIME_IMMEDIATE,
         set_send_size 2 (set_send_ptr (Some [to_u8 (Z.shiftr crc 8); to_u8 crc]) s))
      else
        let '(activity, s) := ubcsp_sent_packet s in
        ([SLIP_FRAME], activity, UBCSP_POLL_TIME_DELAY, s)
  end.

(** An octet went out: at the end of the block the next one follows. *)
Definition count_octet (out : list Z) (s : ubcsp_configuration) : list Z * Z * Z * ubcsp_configuration :=
  let s := set_send_size (send_size s - 1) s in
  if send_size s =? 0 then
    let '(out', activity, d, s) := end_block s in (out ++ out', activity, d, s)
  else (out, 0, UBCSP_POLL_TIME_IMMEDIATE, s).

Definition send_next (s : ubcsp_configuration) : outcome (list Z * Z * Z * ubcsp_configuration) :=
  r ← send_octet s;
  let '(out, s) := r in
  Ret (if send_slip_escape s =? 0 then count_octet out s else (out, 0, UBCSP_POLL_TIME_IMMEDIATE, s)).

(** The header of a packet to send. *)
Definition packet_header (p : ubcsp_packet) (ack seq : Z) : list Z :=
  [to_u8 (Z.lor (Z.lor (Z.lor (Z.shiftl (reliable p) 7) 64) (Z.shiftl ack 3)) seq);
   to_u8 (Z.lor (Z.land (channel p) 15) (Z.land (Z.shiftl (packet_length p) 4) 240));
   Z.land (Z.shiftr (packet_length p) 4) 255; 0].

(** The header of an acknowledgement. *)
Definition ack_header (ack : Z) : list Z := [to_u8 (Z.lor 64 (Z.shiftl ack 3)); 0; 0; 0].

(** What to send when link establishment asks for nothing. *)
Definition send_start (s : ubcsp_configuration) : outcome (list Z * Z * ubcsp_configuration) :=
  if negb (Z.land (link_establishment_resp s) 2 =? 0) then
    row ← table_at ubcsp_le_buffer ubcsp_le_conf_resp;
    Ret ([SLIP_FRAME], UBCSP_POLL_TIME_IMMEDIATE,
         set_link_establishment_resp 0 (ubcsp_setup_packet ubcsp_send_le_header false (Some row) 4 s))
  else
    match send_packet s with
    | Some p =>
        let s := ubcsp_setup_packet (packet_header p (ack_number s) (sequence_number s)) true
                   (payload p) (packet_length p) s in
        Ret ([SLIP_FRAME], UBCSP_POLL_TIME_IMMEDIATE, set_send_ack 0 s)
    | None =>
        if negb (send_ack s =? 0) then
          let s := ubcsp_setup_packet (ack_header (ack_number s)) true None 0 s in
          Ret ([SLIP_FRAME], UBCSP_POLL_TIME_IMMEDIATE, set_send_ack 0 s)
        else Ret ([], UBCSP_POLL_TIME_DELAY, s)
    end.

(** A link establishment packet, and the choice of the next one. *)
Definition send_le (s : ubcsp_configuration) : outcome (list Z * ubcsp_configuration) :=
  row ← table_at ubcsp_le_buffer (link_establishment_packet s);
  let s := set_delay 0 (ubcsp_setup_packet ubcsp_send_le_header false (Some row) 4 s) in
  next ← table_at next_le_packet (link_establishment_state s + link_establishment_resp s * 4);
  Ret ([SLIP_FRAME], set_link_establishment_resp 0 (set_link_establishment_packet next s)).

(** * The poll

    The value it returns, the activity, the packet handed up, the octets put
    on the line, the state and the octets not yet received. *)

Definition poll_receive (uart : list Z) (out : list Z) (activity d : Z) (s : ubcsp_configuration)
    : outcome (Z * Z * option ubcsp_packet * list Z * ubcsp_configuration * list Z) :=
  r ← receive_loop uart activity s;
  let '(activity, up, s, uart) := r in
  let s := set_delay (if 0 <? delay s then delay s - 1 else d) s in
  Ret (delay s, activity, up, out, s, uart).

Definition ubcsp_poll (uart : list Z) (s : ubcsp_configuration)
    : outcome (Z * Z * option ubcsp_packet * list Z * ubcsp_configuration * list Z) :=
  if delay s =? 0 then
    if negb (send_size s =? 0) then
      r ← send_next s;
      let '(out, activity, d, s) := r in poll_receive uart out activity d s
    else if link_establishment_packet s =? ubcsp_le_none then
      r ← send_start s;
      let '(out, d, s) := r in poll_receive uart out 0 d s
    else r ← send_le s; Ret (0, 0, None, r.1, r.2, uart)
  else poll_receive uart [] 0 UBCSP_POLL_TIME_IMMEDIATE s.

(** An engine whose link has just come up, and a packet that needs escapes. *)
Definition example_engine : ubcsp_configuration :=
  Config ubcsp_le_active 0 ubcsp_le_none 0 0 0 None None [0; 0; 0; 0] 0 (-4) 0 0 0 None 0 None 0 0.
Definition example_packet : ubcsp_packet := Packet 5 1 1 3 (Some [192; 219; 7]).
Definition example_buffer : ubcsp_packet := Packet 0 0 0 16 (Some (replicate 16 0)).
