(* ===== verification/UbcspCrc.v ===== *)
(** The checksum of utils/tools/ubcsp.c is the CRC of CCITT, and a receiver
    ignores frames damaged on the line. *)

From stdpp Require Import base list numbers sorting.
From Stdlib Require Import ZArith Lia.
From S2P Require Import Prelude Ubcsp.

Local Open Scope Z_scope.

(** * The checksum is CRC-CCITT

    The reference definition shifts one bit at a time and subtracts the
    polynomial, reflected, when the bit shifted out is set. *)

Definition crc_poly : Z := 33800.
Definition crc_bit (crc : Z) : Z := Z.lxor (Z.shiftr crc 1) (if Z.odd crc then crc_poly else 0).
Definition crc_bits (n : nat) (crc : Z) : Z := Nat.iter n crc_bit crc.
Definition u16_ok (z : Z) : Prop := 0 ≤ z < 2 ^ 16.

Lemma odd_lxor a b : Z.odd (Z.lxor a b) = xorb (Z.odd a) (Z.odd b).
Proof. by rewrite <- !Z.bit0_odd, Z.lxor_spec. Qed.

Lemma crc_bit_lxor a b : crc_bit (Z.lxor a b) = Z.lxor (crc_bit a) (crc_bit b).
Proof.
  unfold crc_bit. rewrite Z.shiftr_lxor, odd_lxor.
  apply Z.bits_inj'. intros i Hi. rewrite !Z.lxor_spec.
  destruct (Z.odd a), (Z.odd b); simpl xorb; rewrite ?Z.bits_0;
    repeat match goal with |- context [Z.testbit ?x ?j] => destruct (Z.testbit x j) end; reflexivity.
Qed.

Lemma crc_bits_S n a : crc_bits (S n) a = crc_bit (crc_bits n a).
Proof. done. Qed.

Lemma crc_bits_lxor n a b : crc_bits n (Z.lxor a b) = Z.lxor (crc_bits n a) (crc_bits n b).
Proof. induction n as [|n IH]; [done|]. by rewrite !crc_bits_S, IH, crc_bit_lxor. Qed.

Lemma crc_bits_add n m a : crc_bits (n + m) a = crc_bits n (crc_bits m a).
Proof. apply Nat.iter_add. Qed.

Lemma crc_bits_shift n a : crc_bits n (Z.shiftl a (Z.of_nat n)) = a.
Proof.
  revert a. induction n as [|n IH]; intros a; [apply Z.shiftl_0_r|].
  replace (Z.of_nat (S n)) with (1 + Z.of_nat n) by lia. rewrite <- Z.shiftl_shiftl by lia.
  rewrite crc_bits_S, IH. unfold crc_bit.
  rewrite Z.shiftr_shiftl_l by lia. rewrite Z.shiftl_0_r, Z.shiftl_mul_pow2, Z.odd_mul by lia. simpl Z.odd.
  rewrite andb_false_r. apply Z.lxor_0_r.
Qed.

Lemma split_low k a : 0 ≤ k → a = Z.lxor (Z.shiftl (Z.shiftr a k) k) (Z.land a (Z.ones k)).
Proof.
  intros Hk. apply Z.bits_inj'. intros i Hi. rewrite Z.lxor_spec, Z.shiftl_spec, Z.land_spec by done.
  destruct (decide (i < k)).
  - rewrite (Z.testbit_neg_r _ (i - k)), Z.ones_spec_low, andb_true_r by lia. by destruct (Z.testbit a i).
  - rewrite Z.ones_spec_high, andb_false_r, xorb_false_r, Z.shiftr_spec by lia. f_equal. lia.
Qed.

Lemma crc_table_bits l : 0 ≤ l < 16 → nth (Z.to_nat l) crc_table 0 = crc_bits 4 l.
Proof.
  intros Hl. assert (l ∈ seqZ 0 16) as Hin by (apply elem_of_seqZ; lia). revert l Hl Hin.
  assert (Forall (λ l, nth (Z.to_nat l) crc_table 0 = crc_bits 4 l) (seqZ 0 16)) as H by (repeat constructor).
  rewrite Forall_forall in H. auto.
Qed.

Lemma crc_nibble_bits v crc : crc_nibble v crc = crc_bits 4 (Z.lxor crc (Z.land v 15)).
Proof.
  unfold crc_nibble. set (x := Z.lxor crc (Z.land v 15)).
  assert (Z.shiftr crc 4 = Z.shiftr x 4) as ->.
  { subst x. rewrite Z.shiftr_lxor, Z.shiftr_land. change (Z.shiftr 15 4) with 0. by rewrite Z.land_0_r, Z.lxor_0_r. }
  assert (Z.land (Z.lxor crc v) 15 = Z.land x (Z.ones 4)) as ->.
  { subst x. change (Z.ones 4) with 15. apply Z.bits_inj'. intros i Hi. rewrite !Z.land_spec, !Z.lxor_spec, Z.land_spec.
    by destruct (Z.testbit crc i), (Z.testbit v i), (Z.testbit 15 i). }
  rewrite crc_table_bits by (rewrite Z.land_ones by lia; apply Z.mod_pos_bound; lia).
  rewrite (split_low 4 x) at 3 by lia. rewrite crc_bits_lxor. f_equal. symmetry. apply (crc_bits_shift 4).
Qed.

(** The table-driven step is the reference's eight steps on the next octet. *)
Lemma calc_crc_bits ch crc : byte_ok ch → ubcsp_calc_crc ch crc = crc_bits 8 (Z.lxor crc ch).
Proof.
  intros Hch. unfold ubcsp_calc_crc. rewrite !crc_nibble_bits.
  change 8%nat with (4 + 4)%nat. rewrite crc_bits_add. f_equal.
  assert (Z.land (Z.shiftr ch 4) 15 = Z.shiftr ch 4) as ->.
  { change 15 with (Z.ones 4). rewrite Z.land_ones, Z.shiftr_div_pow2 by lia. apply Z.mod_small.
    unfold byte_ok in Hch. split; [by apply Z.div_pos; lia|apply Z.div_lt_upper_bound; lia]. }
  rewrite (split_low 4 ch) at 3 by lia. rewrite (Z.lxor_comm (Z.shiftl _ _)), <- Z.lxor_assoc, (crc_bits_lxor 4 _ (Z.shiftl _ 4)).
  change (Z.ones 4) with 15. f_equal. symmetry. apply (crc_bits_shift 4).
Qed.

Lemma lxor_range k a b : 0 ≤ k → 0 ≤ a < 2 ^ k → 0 ≤ b < 2 ^ k → 0 ≤ Z.lxor a b < 2 ^ k.
Proof.
  intros Hk Ha Hb. assert (0 ≤ Z.lxor a b) as H0 by (apply Z.lxor_nonneg; lia). split; [done|].
  destruct (decide (Z.lxor a b = 0)) as [->|Hne]; [lia|]. apply Z.log2_lt_pow2; [lia|].
  pose proof (Z.log2_lxor a b ltac:(lia) ltac:(lia)) as Hlog.
  assert (∀ x, 0 ≤ x < 2 ^ k → Z.log2 x < k ∨ x = 0) as Hx.
  { intros x Hx. destruct (decide (x = 0)); [by right|left]. apply Z.log2_lt_pow2; lia. }
  assert (0 < k). { destruct (decide (k = 0)) as [->|]; [|lia]. assert (a = 0 ∧ b = 0) as [-> ->] by lia. by rewrite Z.lxor_0_r in Hne. }
  destruct (Hx a Ha) as [?| ->], (Hx b Hb) as [?| ->]; simpl Z.log2 in *; lia.
Qed.

Lemma crc_bit_ok a : u16_ok a → u16_ok (crc_bit a).
Proof.
  unfold u16_ok. intros Ha. apply lxor_range; [lia| |destruct (Z.odd a); unfold crc_poly; lia].
  rewrite Z.shiftr_div_pow2 by lia. split; [apply Z.div_pos; lia|apply Z.div_lt_upper_bound; lia].
Qed.

Lemma crc_bits_ok n a : u16_ok a → u16_ok (crc_bits n a).
Proof. intros Ha. induction n as [|n IH]; [done|]. rewrite crc_bits_S. by apply crc_bit_ok. Qed.

(** No bit of difference is lost: the top bit tells whether the polynomial was
    subtracted. *)
Lemma crc_bits_zero n a : u16_ok a → crc_bits n a = 0 → a = 0.
Proof.
  intros Ha. induction n as [|n IH]; [done|]. rewrite crc_bits_S. intros H. apply IH. clear IH.
  pose proof (crc_bits_ok n a Ha) as Hb. set (b := crc_bits n a) in *. unfold crc_bit in H. apply Z.lxor_eq in H.
  rewrite Z.shiftr_div_pow2 in H by lia. pose proof (Z.div_mod b 2 ltac:(lia)) as Hd.
  change (2 ^ 1) with 2 in H. rewrite Zmod_odd in Hd. unfold u16_ok, crc_poly in *. destruct (Z.odd b); lia.
Qed.

Lemma byte_u16 b : byte_ok b → u16_ok b.
Proof. unfold byte_ok, u16_ok. lia. Qed.

Lemma calc_crc_ok ch crc : byte_ok ch → u16_ok crc → u16_ok (ubcsp_calc_crc ch crc).
Proof.
  intros Hch Hcrc. rewrite calc_crc_bits by done. apply crc_bits_ok. apply lxor_range; [lia|done|by apply byte_u16].
Qed.

Lemma crc_octets_ok l crc : Forall byte_ok l → u16_ok crc → u16_ok (crc_octets l crc).
Proof. intros Hl. revert crc. induction Hl as [|b l Hb _ IH]; intros crc Hc; [done|]. by apply IH, calc_crc_ok. Qed.

Lemma crc_octets_app l1 l2 crc : crc_octets (l1 ++ l2) crc = crc_octets l2 (crc_octets l1 crc).
Proof. apply foldl_app. Qed.

Lemma calc_crc_diff a b c d :
  byte_ok a → byte_ok b →
  Z.lxor (ubcsp_calc_crc a c) (ubcsp_calc_crc b d) = crc_bits 8 (Z.lxor (Z.lxor c d) (Z.lxor a b)).
Proof.
  intros Ha Hb. rewrite !calc_crc_bits, <- crc_bits_lxor by done. f_equal.
  apply Z.bits_inj'. intros i Hi. rewrite !Z.lxor_spec.
  by destruct (Z.testbit c i), (Z.testbit a i), (Z.testbit d i), (Z.testbit b i).
Qed.

Lemma crc_octets_diff l c d :
  Forall byte_ok l → ∃ n, Z.lxor (crc_octets l c) (crc_octets l d) = crc_bits n (Z.lxor c d).
Proof.
  intros Hl. revert c d. induction Hl as [|b l Hb _ IH]; intros c d; [by exists 0%nat|].
  destruct (IH (ubcsp_calc_crc b c) (ubcsp_calc_crc b d)) as [n Hn]. exists (n + 8)%nat.
  unfold crc_octets in *. simpl. rewrite Hn, crc_bits_add. f_equal. rewrite calc_crc_diff by done.
  by rewrite Z.lxor_nilpotent, Z.lxor_0_r.
Qed.

Lemma lxor_bytes a b : byte_ok a → byte_ok b → byte_ok (Z.lxor a b).
Proof. apply (lxor_range 8). lia. Qed.

(** A burst of up to sixteen bits changes the checksum. *)
Lemma burst_crc (w w' : list Z) c :
  length w = length w' → (length w ≤ 2)%nat → Forall byte_ok w → Forall byte_ok w' →
  crc_octets w c = crc_octets w' c → w = w'.
Proof.
  intros Hl Hw HF HF' H. assert (Z.lxor (crc_octets w c) (crc_octets w' c) = 0) as H0 by (rewrite H; apply Z.lxor_nilpotent).
  destruct w as [|a [|b [|x w]]], w' as [|a' [|b' [|x' w']]]; simpl in Hl, Hw; try lia; [done| |].
  - inversion HF; inversion HF'; subst. unfold crc_octets in H0. simpl in H0. rewrite calc_crc_diff in H0 by done.
    rewrite Z.lxor_nilpotent, Z.lxor_0_l in H0. apply crc_bits_zero in H0; [|by apply byte_u16, lxor_bytes].
    apply Z.lxor_eq in H0. by subst.
  - inversion HF as [|?? Ha HFb]; inversion HFb as [|?? Hb _]; inversion HF' as [|?? Ha' HFb']; inversion HFb' as [|?? Hb' _]; subst.
    unfold crc_octets in H0. simpl in H0. rewrite !calc_crc_diff in H0 by done.
    rewrite Z.lxor_nilpotent, Z.lxor_0_l in H0.
    apply crc_bits_zero in H0.
    2: { apply lxor_range; [lia|apply crc_bits_ok|]; by apply byte_u16, lxor_bytes. }
    rewrite <- (crc_bits_shift 8 (Z.lxor b b')), <- crc_bits_lxor in H0. apply crc_bits_zero in H0.
    2: { pose proof (lxor_bytes _ _ Ha Ha') as H1. pose proof (lxor_bytes _ _ Hb Hb') as H2.
         apply lxor_range; [lia|by apply byte_u16|]. rewrite Z.shiftl_mul_pow2 by lia. unfold byte_ok in *.
         change (Z.of_nat 8) with 8. lia. }
    apply Z.lxor_eq in H0. pose proof (lxor_bytes _ _ Ha Ha') as H1. unfold byte_ok in H1.
    pose proof (lxor_bytes _ _ Hb Hb') as H2. unfold byte_ok in H2.
    rewrite Z.shiftl_mul_pow2 in H0 by lia. change (2 ^ Z.of_nat 8) with 256 in H0.
    assert (Z.lxor b b' = 0 ∧ Z.lxor a a' = 0) as [Eb Ea] by lia.
    apply Z.lxor_eq in Ea, Eb. by subst.
Qed.

(** Reversing the bits loses nothing either. *)
Lemma reverse_step_lxor a b r q :
  Z.lor (Z.shiftl (Z.lxor r q) 1) (Z.land (Z.lxor a b) 1) =
  Z.lxor (Z.lor (Z.shiftl r 1) (Z.land a 1)) (Z.lor (Z.shiftl q 1) (Z.land b 1)).
Proof.
  change 1 with (Z.ones 1) at 2 4 6. apply Z.bits_inj'. intros i Hi.
  rewrite !Z.lxor_spec, !Z.lor_spec, !Z.land_spec, !Z.lxor_spec, !Z.shiftl_spec, Z.lxor_spec by done.
  destruct (decide (i < 1)).
  - rewrite !(Z.testbit_neg_r _ (i - 1)) by lia. rewrite Z.ones_spec_low by lia. by destruct (Z.testbit a i), (Z.testbit b i).
  - rewrite Z.ones_spec_high by lia. rewrite !andb_false_r. by destruct (Z.testbit r (i - 1)), (Z.testbit q (i - 1)).
Qed.

Lemma reverse_loop_lxor n a b r q :
  crc_reverse_loop n (Z.lxor a b) (Z.lxor r q) = Z.lxor (crc_reverse_loop n a r) (crc_reverse_loop n b q).
Proof.
  revert a b r q. induction n as [|n IH]; intros a b r q; [done|]. cbn [crc_reverse_loop].
  by rewrite Z.shiftr_lxor, reverse_step_lxor, IH.
Qed.

Lemma reverse_loop_range n a r : 0 ≤ r → 0 ≤ a → 2 ^ Z.of_nat n * r ≤ crc_reverse_loop n a r < 2 ^ Z.of_nat n * (r + 1).
Proof.
  revert a r. induction n as [|n IH]; intros a r Hr Ha; [cbn; lia|]. cbn [crc_reverse_loop].
  assert (Z.lor (Z.shiftl r 1) (Z.land a 1) = a mod 2 + 2 * r) as ->.
  { rewrite Z.lor_comm. change 1 with (Z.ones 1) at 1. rewrite Z.land_ones by lia. rewrite lor_shiftl_add; [done|lia|].
    apply Z.mod_pos_bound. lia. }
  pose proof (Z.mod_pos_bound a 2 ltac:(lia)) as Hm. specialize (IH (Z.shiftr a 1) (a mod 2 + 2 * r)).
  rewrite Nat2Z.inj_succ, Z.pow_succ_r by lia. rewrite Z.shiftr_div_pow2 in * by lia.
  pose proof (Z.div_pos a (2 ^ 1) ltac:(lia) ltac:(lia)). pose proof (Z.pow_pos_nonneg 2 (Z.of_nat n) ltac:(lia) ltac:(lia)). nia.
Qed.

Lemma reverse_ok a : 0 ≤ a → u16_ok (ubcsp_crc_reverse a) ∧ ubcsp_crc_reverse a = crc_reverse_loop 16 a 0.
Proof.
  intros Ha. pose proof (reverse_loop_range 16 a 0 ltac:(lia) Ha) as H. unfold ubcsp_crc_reverse, to_u16, u16_ok.
  change (2 ^ Z.of_nat 16) with (2 ^ 16) in H. rewrite Z.mod_small by lia. lia.
Qed.

Lemma reverse_lxor a b :
  0 ≤ a → 0 ≤ b → ubcsp_crc_reverse (Z.lxor a b) = Z.lxor (ubcsp_crc_reverse a) (ubcsp_crc_reverse b).
Proof.
  intros Ha Hb. assert (0 ≤ Z.lxor a b) as Hab by (apply Z.lxor_nonneg; lia).
  rewrite (proj2 (reverse_ok _ Hab)), (proj2 (reverse_ok _ Ha)), (proj2 (reverse_ok _ Hb)).
  apply (reverse_loop_lxor 16 a b 0 0).
Qed.

Lemma reverse_loop_zero n a r : 0 ≤ r → 0 ≤ a < 2 ^ Z.of_nat n → crc_reverse_loop n a r = 0 → a = 0 ∧ r = 0.
Proof.
  revert a r. induction n as [|n IH]; intros a r Hr Ha; [cbn in *; lia|]. cbn [crc_reverse_loop].
  rewrite Nat2Z.inj_succ, Z.pow_succ_r in Ha by lia.
  assert (Z.lor (Z.shiftl r 1) (Z.land a 1) = a mod 2 + 2 * r) as ->.
  { rewrite Z.lor_comm. change 1 with (Z.ones 1) at 1. rewrite Z.land_ones by lia. rewrite lor_shiftl_add; [done|lia|].
    apply Z.mod_pos_bound. lia. }
  pose proof (Z.mod_pos_bound a 2 ltac:(lia)) as Hm. rewrite Z.shiftr_div_pow2 by lia. change (2 ^ 1) with 2.
  intros H. apply IH in H; [|lia|].
  - pose proof (Z.div_mod a 2 ltac:(lia)). lia.
  - split; [apply Z.div_pos; lia|apply Z.div_lt_upper_bound; lia].
Qed.

Lemma reverse_inj a b : u16_ok a → u16_ok b → ubcsp_crc_reverse a = ubcsp_crc_reverse b → a = b.
Proof.
  intros Ha Hb H. apply Z.lxor_eq. assert (Z.lxor (ubcsp_crc_reverse a) (ubcsp_crc_reverse b) = 0) as H0 by (rewrite H; apply Z.lxor_nilpotent).
  unfold u16_ok in *. assert (0 ≤ Z.lxor a b) as Hab by (apply Z.lxor_nonneg; lia).
  rewrite <- reverse_lxor, (proj2 (reverse_ok _ Hab)) in H0 by lia.
  apply reverse_loop_zero in H0 as [H0 _]; [done|lia|]. apply (lxor_range 16); lia.
Qed.

(** ** The octets of the checksum *)

Definition crc_bytes (crc : Z) : list Z := [to_u8 (Z.shiftr crc 8); to_u8 crc].
Definition frame_crc (h pay : list Z) : list Z := crc_bytes (ubcsp_crc_reverse (crc_octets (h ++ pay) 65535)).

Lemma crc_bytes_fields crc : u16_ok crc → crc_bytes crc = [Z.shiftr (Z.land crc 65280) 8; Z.land crc 255].
Proof.
  intros Hc. unfold crc_bytes, to_u8, u16_ok in *. f_equal; [|f_equal].
  - change 65280 with (Z.shiftl (Z.ones 8) 8). rewrite Z.shiftr_land, Z.shiftr_shiftl_l, Z.shiftl_0_r by lia.
    by rewrite Z.land_ones by lia.
  - change 255 with (Z.ones 8). by rewrite Z.land_ones by lia.
Qed.

Lemma crc_bytes_inj a b : u16_ok a → u16_ok b → crc_bytes a = crc_bytes b → a = b.
Proof.
  unfold crc_bytes, to_u8, u16_ok. rewrite !Z.shiftr_div_pow2 by lia. intros Ha Hb H.
  pose proof (Z.div_mod a 256 ltac:(lia)). pose proof (Z.div_mod b 256 ltac:(lia)).
  assert (a / 256 mod 256 = b / 256 mod 256 ∧ a mod 256 = b mod 256) as [E1 E2] by (by injection H).
  rewrite !Z.mod_small in E1; try lia.
  all: split; [apply Z.div_pos; lia|apply Z.div_lt_upper_bound; lia].
Qed.

Lemma frame_crc_ok h pay :
  Forall byte_ok h → Forall byte_ok pay → u16_ok (crc_octets (h ++ pay) 65535) ∧ Forall byte_ok (frame_crc h pay).
Proof.
  intros Hh Hp. assert (u16_ok (crc_octets (h ++ pay) 65535)) as H.
  { apply crc_octets_ok; [by apply Forall_app|unfold u16_ok; lia]. }
  split; [done|]. unfold frame_crc, crc_bytes, to_u8. repeat constructor; apply Z.mod_pos_bound; lia.
Qed.

Lemma length_frame_crc h pay : length (frame_crc h pay) = 2%nat.
Proof. done. Qed.

Lemma frame_crc_inj h pay pay' :
  Forall byte_ok h → Forall byte_ok pay → Forall byte_ok pay' →
  frame_crc h pay = frame_crc h pay' → crc_octets (h ++ pay) 65535 = crc_octets (h ++ pay') 65535.
Proof.
  intros Hh Hp Hp' H. destruct (frame_crc_ok h pay Hh Hp) as [H1 _]. destruct (frame_crc_ok h pay' Hh Hp') as [H2 _].
  apply reverse_inj; [done..|]. unfold u16_ok in *. apply crc_bytes_inj; [apply reverse_ok; lia|apply reverse_ok; lia|exact H].
Qed.

(** A burst inside the payload. *)
Lemma burst_payload h u w w' v :
  length w = length w' → (length w ≤ 2)%nat → Forall byte_ok (h ++ u ++ w ++ v) → Forall byte_ok w' →
  frame_crc h (u ++ w ++ v) = frame_crc h (u ++ w' ++ v) → w = w'.
Proof.
  rewrite !Forall_app. intros Hl Hw (Hh & Hu & HF & Hv) HF' H.
  apply frame_crc_inj in H; [|done|rewrite !Forall_app; done..]. rewrite !crc_octets_app in H.
  apply (burst_crc w w' (crc_octets u (crc_octets h 65535))); [done..|]. apply Z.lxor_eq.
  set (c := crc_octets u (crc_octets h 65535)) in *.
  assert (u16_ok c) as Hc. { apply crc_octets_ok; [done|]. apply crc_octets_ok; [done|]. unfold u16_ok. lia. }
  destruct (crc_octets_diff v (crc_octets w c) (crc_octets w' c) Hv) as [n Hn].
  rewrite H, Z.lxor_nilpotent in Hn. symmetry in Hn. apply crc_bits_zero in Hn; [done|].
  apply (lxor_range 16); [lia|by apply crc_octets_ok..].
Qed.

(** A burst over the last octet of the payload and the first of the
    checksum: the second octet of the checksum shows it. *)
Lemma low_octet_table e : byte_ok e → to_u8 (ubcsp_crc_reverse (crc_bits 8 e)) = 0 → e = 0.
Proof.
  intros He. assert (e ∈ seqZ 0 256) as Hin by (apply elem_of_seqZ; unfold byte_ok in He; lia). revert Hin.
  assert (Forall (λ e, (e =? 0) || negb (to_u8 (ubcsp_crc_reverse (crc_bits 8 e)) =? 0)) (seqZ 0 256)) as H
    by (apply forallb_True; vm_compute; exact I).
  rewrite Forall_forall in H. intros Hin H0. specialize (H e Hin). rewrite H0 in H.
  rewrite orb_false_r in H. by apply Is_true_true, Z.eqb_eq in H.
Qed.

Lemma to_u8_lxor x y : to_u8 x = to_u8 y → to_u8 (Z.lxor x y) = 0.
Proof.
  unfold to_u8. rewrite <- !Z.land_ones by lia. intros H. apply Z.bits_inj'. intros i Hi.
  rewrite Z.land_spec, Z.lxor_spec, Z.bits_0.
  pose proof (f_equal (λ x, Z.testbit x i) H) as Hb. cbv beta in Hb. rewrite !Z.land_spec in Hb.
  destruct (Z.testbit (Z.ones 8) i); [|by rewrite andb_false_r]. rewrite !andb_true_r in *. rewrite Hb. apply xorb_nilpotent.
Qed.

Lemma crc_octets_one a c : crc_octets [a] c = ubcsp_calc_crc a c.
Proof. done. Qed.

Lemma second_octet x y : drop 1 (crc_bytes x) = drop 1 (crc_bytes y) → to_u8 x = to_u8 y.
Proof. unfold crc_bytes. cbn [drop]. by intros [= H]. Qed.

Lemma burst_straddling h u a a' :
  Forall byte_ok (h ++ u) → byte_ok a → byte_ok a' →
  drop 1 (frame_crc h (u ++ [a])) = drop 1 (frame_crc h (u ++ [a'])) → a = a'.
Proof.
  intros HF Ha Ha' H. unfold frame_crc in H. rewrite !(app_assoc h), !(crc_octets_app (h ++ u)) in H.
  apply second_octet, to_u8_lxor in H. rewrite !crc_octets_one in H. revert H.
  assert (u16_ok (crc_octets (h ++ u) 65535)) as Hc by (apply crc_octets_ok; [done|unfold u16_ok; lia]).
  generalize dependent (crc_octets (h ++ u) 65535). intros c Hc H.
  pose proof (calc_crc_ok a c Ha Hc) as Hx. pose proof (calc_crc_ok a' c Ha' Hc) as Hy.
  rewrite <- reverse_lxor, calc_crc_diff, Z.lxor_nilpotent, Z.lxor_0_l in H by (done || (unfold u16_ok in *; lia)).
  by apply Z.lxor_eq, low_octet_table; [apply lxor_bytes|].
Qed.

(** Two frames under the same header differ by more than sixteen bits in a
    row. *)
Lemma codewords_apart h pay pay' u w w' v :
  Forall byte_ok (h ++ pay ++ pay') → length pay = length pay' → 
  pay ++ frame_crc h pay = u ++ w ++ v → pay' ++ frame_crc h pay' = u ++ w' ++ v →
  length w = length w' → (length w ≤ 2)%nat → w = w'.
Proof.
  rewrite !Forall_app. intros (Hh & HF & HF') Hl H H' Hw Hw2.
  assert (pay = pay' → w = w') as Hsame.
  { intros ->. rewrite H in H'. apply app_inv_head in H'. by apply app_inj_1 in H' as [? _]. }
  rewrite (app_assoc u) in H. apply app_eq_inv in H as [(k & -> & ->)|(k & E & Hk)].
  - (* inside the payload *)
    rewrite <- !app_assoc in H'. rewrite !(app_assoc u), !(app_assoc _ k) in H'.
    apply app_inj_1 in H' as [-> Hc]; [|rewrite !length_app in *; lia].
    rewrite <- !app_assoc in *. rewrite !Forall_app in *. apply (burst_payload h u w w' k); try tauto; [|done].
    rewrite !Forall_app. tauto.
  - apply app_eq_inv in E as [(k' & -> & ->)|(k' & -> & ->)].
    + (* inside the checksum *)
      rewrite <- app_assoc in H'. apply app_inj_1 in H' as [-> _]; [by apply Hsame|done].
    + rewrite length_app in Hw2. destruct k' as [|a [|b [|]]]; cbn [length] in Hw2; [| | |lia].
      * rewrite app_nil_r in *. apply app_inj_1 in H' as [-> _]; [by apply Hsame|done].
      * destruct k as [|c [|]]; cbn [length] in Hw2; [| |lia].
        -- (* one octet of the payload *)
           destruct w' as [|a' [|]]; try done. cbn in Hk. subst v.
           rewrite !(app_assoc u) in H'. apply app_inj_1 in H' as [-> Hc]; [|rewrite !length_app in *; cbn in *; lia].
           rewrite <- (app_nil_r (u ++ [a])), <- (app_nil_r (u ++ [a'])), <- !app_assoc in Hc.
           rewrite !Forall_app in *. apply (burst_payload h u [a] [a'] []); try tauto; try (by cbn; lia); [|done].
           rewrite !Forall_app. repeat split; try tauto. constructor.
        -- (* the last of the payload and the first of the checksum *)
           destruct w' as [|a' [|c' [|]]]; try done. cbn [app] in Hk.
           replace (u ++ [a'; c'] ++ v) with ((u ++ [a']) ++ c' :: v) in H' by (by rewrite <- app_assoc).
           apply app_inj_1 in H' as [-> Hc]; [|rewrite !length_app in *; cbn in *; lia].
           assert (a = a') as ->; [|by apply Hsame]. rewrite !Forall_app in *.
           apply (burst_straddling h u); [rewrite Forall_app; tauto|apply (Forall_singleton byte_ok), HF|apply (Forall_singleton byte_ok), HF'|].
           rewrite Hc, Hk. done.
      * destruct k; cbn [length] in Hw2; [|lia]. cbn in Hk. subst v. destruct w' as [|a' [|b' [|]]]; try done.
        rewrite !(app_assoc u) in H'. apply app_inj_1 in H' as [-> Hc]; [|rewrite !length_app in *; cbn in *; lia].
        rewrite <- (app_nil_r (u ++ [a; b])), <- (app_nil_r (u ++ [a'; b'])), <- !app_assoc in Hc.
        rewrite !Forall_app in *. apply (burst_payload h u [a; b] [a'; b'] []); try tauto; try (by cbn; lia); [|done].
        rewrite !Forall_app. repeat split; try tauto. constructor.
Qed.

(** ** The checks of the receiver *)

Lemma check_frame_length h pay index :
  header_crc h ≠ 0 → header_length h + 2 ≠ index → check_frame h pay index = Ret (false, index).
Proof.
  intros Hc Hl. unfold check_frame.
  by rewrite (proj2 (Z.eqb_neq (header_crc h) 0)), (proj2 (Z.eqb_neq (header_length h + 2) index)) by done.
Qed.

Lemma check_frame_crc h pay c rest index :
  header_crc h ≠ 0 → Forall byte_ok h → Forall byte_ok pay → length c = 2%nat →
  header_length h = Z.of_nat (length pay) → index = header_length h + 2 →
  check_frame h (pay ++ c ++ rest) index = Ret (bool_decide (c = frame_crc h pay), index - 2).
Proof.
  intros Hc Hh Hp Hl Hlen ->. unfold check_frame. rewrite (proj2 (Z.eqb_neq _ _)) by done. rewrite Z.eqb_refl.
  cbn [negb]. destruct c as [|hi [|lo [|]]]; try done.
  replace (header_length h + 2 - 2) with (Z.of_nat (length pay)) by lia. rewrite Nat2Z.id, rd_app, outcome_bind_ret by done.
  destruct (frame_crc_ok h pay Hh Hp) as [Hok _]. unfold frame_crc.
  assert (0 ≤ crc_octets (h ++ pay) 65535) as Hpos by apply Hok.
  rewrite <- crc_octets_app. pose proof (proj1 (reverse_ok _ Hpos)) as Hr.
  rewrite (crc_bytes_fields _ Hr). generalize (ubcsp_crc_reverse (crc_octets (h ++ pay) 65535)). intros crc.
  unfold adv. rewrite Nat2Z.id, drop_app_length. cbn [rd8 app]. rewrite outcome_bind_ret.
  destruct (Z.eqb_spec (Z.shiftr (Z.land crc 65280) 8) hi) as [E|E]; cbn [negb].
  - rewrite drop_app_ge by lia. replace (Z.to_nat (Z.of_nat (length pay) + 1) - length pay)%nat with 1%nat by lia.
    cbn [drop rd8]. rewrite outcome_bind_ret. f_equal. f_equal.
    destruct (Z.eqb_spec (Z.land crc 255) lo) as [E'|E']; symmetry; [apply bool_decide_true|apply bool_decide_false]; [by subst|congruence].
  - f_equal. f_equal. symmetry. apply bool_decide_false. congruence.
Qed.

(** What the sender makes of a header and a payload is a frame. *)
Definition header_ok (h : list Z) (n : Z) : Prop :=
  length h = 4%nat ∧ Forall byte_ok h ∧ header_sum h = 255 ∧ header_crc h ≠ 0 ∧ header_length h = n.

(** Damage on the line to a frame of header [h] and body [body]: an octet of
    the header, up to sixteen bits in a row of the body, or octets lost from
    the body or added to it. *)
Inductive damaged (h body : list Z) : list Z → list Z → Prop :=
  | damaged_header u x y v body' : h = u ++ x :: v → x ≠ y → byte_ok y → damaged h body (u ++ y :: v) body'
  | damaged_burst u w w' v : body = u ++ w ++ v → length w = length w' → (length w ≤ 2)%nat → w ≠ w' →
      Forall byte_ok w' → damaged h body h (u ++ w' ++ v)
  | damaged_length body' : length body' ≠ length body → damaged h body h body'.

Lemma header_sum_damaged u x y v :
  length (u ++ x :: v) = 4%nat → byte_ok x → byte_ok y → x ≠ y → header_sum (u ++ x :: v) ≠ header_sum (u ++ y :: v).
Proof.
  unfold byte_ok. intros Hl Hx Hy Hxy. rewrite length_app in Hl. cbn [length] in Hl.
  unfold header_sum. change 255 with (Z.ones 8). rewrite !Z.land_ones by lia. change (2 ^ 8) with 256.
  assert (∀ a b, (a + x + b) mod 256 ≠ (a + y + b) mod 256) as H.
  { intros a b E. apply Hxy. pose proof (Z.div_mod (a + x + b) 256 ltac:(lia)). pose proof (Z.div_mod (a + y + b) 256 ltac:(lia)). lia. }
  destruct u as [|a [|b [|c [|]]]], v as [|d [|e [|f [|]]]]; cbn [length] in Hl; try lia; unfold header_at; cbn [app nth].
  - specialize (H 0 (d + e + f)). rewrite !Z.add_0_l, !Z.add_assoc in H. done.
  - specialize (H a (d + e)). by rewrite !Z.add_assoc in H.
  - specialize (H (a + b) d). done.
  - specialize (H (a + b + c) 0). by rewrite !Z.add_0_r in H.
Qed.


