(* ===== verification/UbcspFrame.v ===== *)
(** utils/tools/ubcsp.c: the frames two engines exchange, octet by octet.
    Theorem: a packet sent is the packet handed up. *)

From stdpp Require Import base list numbers sorting.
From Stdlib Require Import ZArith Lia.
From S2P Require Import Prelude Ubcsp UbcspCrc.

Local Open Scope Z_scope.

#[global] Opaque ubcsp_calc_crc ubcsp_crc_reverse.
#[global] Arguments frame_crc : simpl never.
#[global] Arguments crc_octets : simpl never.

(** * The frame on the line *)

Definition slip_octet (v : Z) : list Z :=
  if v =? SLIP_FRAME then [SLIP_ESCAPE; SLIP_ESCAPE_FRAME]
  else if v =? SLIP_ESCAPE then [SLIP_ESCAPE; SLIP_ESCAPE_ESCAPE] else [v].
Definition slip (l : list Z) : list Z := concat (map slip_octet l).

Lemma slip_app a b : slip (a ++ b) = slip a ++ slip b.
Proof. unfold slip. by rewrite map_app, concat_app. Qed.

Lemma slip_cons v l : slip (v :: l) = slip_octet v ++ slip l.
Proof. done. Qed.

(** The octets of a header and a body between the markers. *)
Definition frame_octets (h body : list Z) : list Z := SLIP_FRAME :: slip (h ++ body) ++ [SLIP_FRAME].

(** Polls while the line has nothing for us: the octets sent, the activity and
    the state. *)
Fixpoint polls (n : nat) (s : ubcsp_configuration) : outcome (list Z * Z * ubcsp_configuration) :=
  match n with
  | O => Ret ([], 0, s)
  | S n =>
      r ← ubcsp_poll [] s;
      let '(_, activity, _, out, s, _) := r in
      q ← polls n s;
      let '(out', activity', s) := q in Ret (out ++ out', Z.lor activity activity', s)
  end.

Lemma polls_app n m s out act s1 out' act' s2 :
  polls n s = Ret (out, act, s1) → polls m s1 = Ret (out', act', s2) →
  polls (n + m) s = Ret (out ++ out', Z.lor act act', s2).
Proof.
  revert s out act. induction n as [|n IH]; intros s out act H1 H2.
  - injection H1 as <- <- <-. exact H2.
  - cbn [polls Nat.add] in *. destruct (ubcsp_poll [] s) as [[[[[[r a] u] o] s3] w]| |]; try done.
    rewrite outcome_bind_ret in H1 |- *. destruct (polls n s3) as [[[o1 a1] s4]| |] eqn:E; try done.
    rewrite outcome_bind_ret in H1. injection H1 as <- <- ->. rewrite (IH s3 o1 a1 E H2), outcome_bind_ret.
    by rewrite <- app_assoc, Z.lor_assoc.
Qed.

(** Polls until the block count is zero: a frame is out. *)
Fixpoint transmit (fuel : nat) (s : ubcsp_configuration) : outcome (list Z * Z * ubcsp_configuration) :=
  match fuel with
  | O => NoFuel
  | S fuel =>
      r ← ubcsp_poll [] s;
      let '(_, activity, _, out, s, _) := r in
      if send_size s =? 0 then Ret (out, activity, s)
      else
        q ← transmit fuel s;
        let '(out', activity', s) := q in Ret (out ++ out', Z.lor activity activity', s)
  end.

(** There is more to send after fewer than [n] polls. *)
Definition busy (n : nat) (s : ubcsp_configuration) : Prop :=
  ∀ m, (0 < m < n)%nat → ∃ out act s', polls m s = Ret (out, act, s') ∧ send_size s' ≠ 0.

Lemma busy_app n m s out act s1 :
  polls n s = Ret (out, act, s1) → busy n s → send_size s1 ≠ 0 → busy m s1 → busy (n + m) s.
Proof.
  intros H1 Hn Hs Hm k Hk. destruct (decide (k < n)%nat); [apply Hn; lia|].
  destruct (decide (k = n)) as [->|]; [by eexists _, _, _|].
  destruct (Hm (k - n)%nat ltac:(lia)) as (o & a & s' & H2 & H3).
  replace k with (n + (k - n))%nat by lia. eexists _, _, s'. split; [|done]. by eapply polls_app.
Qed.

Lemma busy_one s : busy 1 s.
Proof. intros m Hm. lia. Qed.

Lemma polls_one s r a u out s' w : ubcsp_poll [] s = Ret (r, a, u, out, s', w) → polls 1 s = Ret (out, a, s').
Proof. intros H. cbn [polls]. by rewrite H, outcome_bind_ret, outcome_bind_ret, app_nil_r, Z.lor_0_r. Qed.

Lemma transmit_polls n s out act s' fuel :
  polls n s = Ret (out, act, s') → busy n s → (0 < n ≤ fuel)%nat → send_size s' = 0 → transmit fuel s = Ret (out, act, s').
Proof.
  revert s out act fuel. induction n as [|n IH]; intros s out act [|fuel] H Hb Hn Hs; try lia.
  cbn [polls transmit] in *. destruct (ubcsp_poll [] s) as [[[[[[r a] u] o] s1] w]| |] eqn:E; try done.
  rewrite outcome_bind_ret in H |- *. destruct n as [|n].
  - cbn [polls] in H. rewrite outcome_bind_ret in H. injection H as <- <- ->. rewrite Hs. cbn.
    by rewrite app_nil_r, Z.lor_0_r.
  - destruct (Hb 1%nat ltac:(lia)) as (o1 & a1 & s2 & H1 & Hs2). rewrite (polls_one _ _ _ _ _ _ _ E) in H1. injection H1 as -> -> ->.
    rewrite (proj2 (Z.eqb_neq _ _) Hs2). destruct (polls (S n) s2) as [[[o2 a2] s3]| |] eqn:E2; try done.
    rewrite outcome_bind_ret in H. injection H as <- <- ->.
    rewrite (IH s2 o2 a2 fuel E2); [by rewrite outcome_bind_ret| |lia|done].
    intros m Hm. destruct (Hb (S m) ltac:(lia)) as (o & a & s4 & H4 & Hs4).
    cbn [polls] in H4. rewrite E, outcome_bind_ret in H4. destruct (polls m s2) as [[[o3 a3] s5]| |] eqn:E5; try done.
    rewrite outcome_bind_ret in H4. injection H4 as <- <- ->. by eexists _, _, _.
Qed.

(** A poll with a silent line only sends. *)
Lemma poll_receive_silent out act d s :
  poll_receive [] out act d s =
  Ret (if 0 <? delay s then delay s - 1 else d, act, None, out, set_delay (if 0 <? delay s then delay s - 1 else d) s, []).
Proof. unfold poll_receive. cbn [receive_loop]. by destruct (receive_packet s). Qed.

Lemma set_delay_same s : set_delay (delay s) s = s.
Proof. by destruct s. Qed.

(** ** Sending a block *)

Lemma count_octet_app a b s :
  count_octet (a ++ b) s = let '(out, act, d, s') := count_octet b s in (a ++ out, act, d, s').
Proof.
  unfold count_octet. destruct (send_size _ =? 0); [|done].
  destruct (end_block _) as [[[out act] d] s']. by rewrite app_assoc.
Qed.

Lemma end_block_delay s : delay (end_block s).2 = delay s.
Proof.
  destruct s as [? ? ? ? ? ? sp ? ? ? ? need ? ? ? ? nx ? ?]. unfold end_block. cbn.
  destruct nx; [done|]. destruct (need =? 0); [|done]. cbn. unfold ubcsp_sent_packet. cbn.
  destruct sp as [p|]; [|done]. by destruct (reliable p =? 0).
Qed.

Lemma count_octet_delay out s : delay (count_octet out s).2 = delay s.
Proof.
  unfold count_octet. destruct (send_size _ =? 0); [|done].
  pose proof (end_block_delay (set_send_size (send_size s - 1) s)) as H.
  by destruct (end_block _) as [[[o act] d] s'].
Qed.

Lemma poll_send s out act d s' :
  delay s = 0 → send_size s ≠ 0 → send_next s = Ret (out, act, d, s') → delay s' = 0 →
  ubcsp_poll [] s = Ret (d, act, None, out, set_delay d s', []).
Proof.
  intros Hd Hn H Hd'. unfold ubcsp_poll. rewrite Hd, (proj2 (Z.eqb_neq _ _) Hn). change (0 =? 0) with true.
  change (negb false) with true. cbv iota. by rewrite H, outcome_bind_ret, poll_receive_silent, Hd'.
Qed.

(** The polls that send one octet. *)
Lemma send_octet_polls v ptr s :
  delay s = 0 → send_slip_escape s = 0 → send_ptr s = Some (v :: ptr) → send_size s ≠ 0 →
  polls (length (slip_octet v)) s =
    (let '(out, act, d, s') :=
       count_octet (slip_octet v) (set_send_ptr (Some ptr) (set_send_crc (ubcsp_calc_crc v (send_crc s)) s)) in
     Ret (out, act, set_delay d s')) ∧ busy (length (slip_octet v)) s.
Proof.
  intros Hd He Hp Hn. set (s1 := set_send_ptr (Some ptr) (set_send_crc (ubcsp_calc_crc v (send_crc s)) s)).
  assert (send_octet s = Ret (ubcsp_put_slip_uart v s1)) as Ho.
  { unfold send_octet. rewrite He, Hp. change (negb (0 =? 0)) with false. cbn [rd8]. rewrite outcome_bind_ret. cbn [drop].
    by destruct s. }
  assert (∀ x, x ≠ 0 → ubcsp_put_slip_uart v s1 = ([SLIP_ESCAPE], set_send_slip_escape x s1) →
    polls 2 s = (let '(out, act, d, s') := count_octet [SLIP_ESCAPE; x] s1 in Ret (out, act, set_delay d s')) ∧
    busy 2 s) as Hesc.
  { intros x Hx Hput. set (s2 := set_send_slip_escape x s1).
    assert (send_next s = Ret ([SLIP_ESCAPE], 0, 0, s2)) as H1.
    { unfold send_next. rewrite Ho, outcome_bind_ret, Hput. subst s2 s1. destruct s; cbn. by rewrite (proj2 (Z.eqb_neq _ _) Hx). }
    assert (delay s2 = 0) as Hd2 by (subst s2 s1; by destruct s).
    assert (set_delay 0 s2 = s2) as Hsame by (rewrite <- Hd2 at 1; apply set_delay_same).
    pose proof (poll_send s _ _ _ _ Hd Hn H1 Hd2) as Hpoll. rewrite Hsame in Hpoll. split.
    2: { intros m Hm. replace m with 1%nat by lia. eexists _, _, s2. split; [by eapply polls_one|]. subst s2 s1. by destruct s. }
    cbn [polls]. rewrite Hpoll, outcome_bind_ret.
    assert (send_next s2 = Ret (count_octet [x] s1)) as H2.
    { unfold send_next, send_octet. subst s2 s1. destruct s; cbn in *. rewrite (proj2 (Z.eqb_neq _ _) Hx). cbn. by subst. }
    change [SLIP_ESCAPE; x] with ([SLIP_ESCAPE] ++ [x]). rewrite count_octet_app.
    pose proof (count_octet_delay [x] s1) as Hd1. destruct (count_octet [x] s1) as [[[o a] d] s3] eqn:E.
    rewrite (poll_send s2 o a d s3); [|by subst s2 s1; destruct s|by subst s2 s1; destruct s|done|].
    - rewrite !outcome_bind_ret. by rewrite app_nil_r, Z.lor_0_r.
    - cbn in Hd1. rewrite Hd1. subst s1. by destruct s. }
  unfold slip_octet. unfold ubcsp_put_slip_uart in *.
  destruct (Z.eqb_spec v SLIP_FRAME) as [E1|H1]; [by apply Hesc|].
  destruct (Z.eqb_spec v SLIP_ESCAPE) as [E2|H2]; [by apply Hesc|].
  split; [|apply busy_one]. cbn [length polls]. pose proof (count_octet_delay [v] s1) as Hd1.
  destruct (count_octet [v] s1) as [[[o a] d] s3] eqn:E.
  assert (send_next s = Ret (o, a, d, s3)) as Hnx.
  { unfold send_next. rewrite Ho, outcome_bind_ret, <- E. subst s1. destruct s; cbn in *. by subst. }
  rewrite (poll_send s o a d s3 Hd Hn Hnx), !outcome_bind_ret.
  - by rewrite app_nil_r, Z.lor_0_r.
  - cbn in Hd1. rewrite Hd1. subst s1. by destruct s.
Qed.

(** The polls that send a block. *)
Lemma send_block_polls l rest s :
  l ≠ [] → delay s = 0 → send_slip_escape s = 0 → send_ptr s = Some (l ++ rest) → send_size s = Z.of_nat (length l) →
  polls (length (slip l)) s =
    (let '(out, act, d, s') :=
       end_block (set_send_size 0 (set_send_ptr (Some rest) (set_send_crc (crc_octets l (send_crc s)) s))) in
     Ret (slip l ++ out, act, set_delay d s')) ∧ busy (length (slip l)) s.
Proof.
  revert s. induction l as [|v l IH]; intros s Hne Hd He Hp Hn; [done|]. cbn [length] in Hn.
  unfold slip. cbn [map concat]. rewrite length_app. fold (slip l).
  assert (send_size s ≠ 0) as Hn0 by lia.
  destruct (send_octet_polls v (l ++ rest) s Hd He Hp Hn0) as [H1 Hbusy].
  set (s1 := set_send_ptr (Some (l ++ rest)) (set_send_crc (ubcsp_calc_crc v (send_crc s)) s)) in *.
  assert (send_size s1 = send_size s) as Hs1 by (subst s1; by destruct s).
  unfold count_octet in H1. cbn [send_size set_send_size] in H1. rewrite Hs1 in H1.
  destruct l as [|v' l].
  - cbn [slip map concat length]. rewrite Nat.add_0_r, app_nil_r. split; [|done]. rewrite H1. rewrite (proj2 (Z.eqb_eq _ _)) by (cbn in *; lia).
    replace (send_size s - 1) with 0 by (cbn in *; lia).
    change (set_send_ptr (Some rest) (set_send_crc (crc_octets [v] (send_crc s)) s)) with s1.
    by destruct (end_block (set_send_size 0 s1)) as [[[? ?] ?] ?].
  - rewrite (proj2 (Z.eqb_neq _ _)) in H1 by (cbn in *; lia).
    specialize (IH (set_send_size (send_size s - 1) s1) ltac:(done)).
    assert (set_delay UBCSP_POLL_TIME_IMMEDIATE (set_send_size (send_size s - 1) s1) = set_send_size (send_size s - 1) s1) as E.
    { subst s1. destruct s; cbn in *. by subst. }
    rewrite E in H1. set (s2 := set_send_size (send_size s - 1) s1) in *.
    assert (send_size s2 ≠ 0) as Hs2 by (subst s2; cbn in *; lia).
    destruct IH as [IH Hb2]; [subst s2 s1; destruct s; cbn in *; (done || lia)..|].
    split; [|by eapply busy_app]. clear Hb2 Hbusy.
    match type of IH with _ = ?r => destruct r as [[[out act] s']| |] eqn:Er end.
    2,3: by destruct (end_block _) as [[[? ?] ?] ?].
    rewrite (polls_app _ _ s _ _ _ out act s' H1 IH).
    assert (set_send_size 0 (set_send_ptr (Some rest) (set_send_crc (crc_octets (v' :: l)
        (send_crc s2)) s2)) =
        set_send_size 0 (set_send_ptr (Some rest) (set_send_crc (crc_octets (v :: v' :: l) (send_crc s)) s))) as Es
      by (subst s2 s1; by destruct s).
    rewrite Es in Er. destruct (end_block _) as [[[o a] d] s3]. injection Er as <- <- <-. by rewrite app_assoc.
Qed.

(** A frame of header [h] and payload [pay], from the state [ubcsp_poll] leaves
    when it has put the first marker on the line. *)
Definition frame_sent (crc : Z) (s : ubcsp_configuration) : ubcsp_configuration :=
  set_send_crc crc (set_need_send_crc 0 (set_next_send_size 0 (set_next_send_ptr None (set_send_size 0 (set_send_ptr None s))))).

Definition frame_started (h : list Z) (part2 : option (list Z)) (s : ubcsp_configuration) : Prop :=
  delay s = 0 ∧ send_slip_escape s = 0 ∧ send_ptr s = Some h ∧ send_size s = 4 ∧ next_send_ptr s = part2 ∧
  next_send_size s = Z.of_nat (length (default [] part2)) ∧ send_crc s = 65535 ∧ need_send_crc s = 1.

Lemma send_frame_polls h part2 s :
  frame_started h part2 s → length h = 4%nat → part2 ≠ Some [] →
  let n := length (slip (h ++ default [] part2 ++ frame_crc h (default [] part2))) in
  ∃ crc, polls n s = (let '(act, s') := ubcsp_sent_packet (frame_sent crc s) in
    Ret (slip (h ++ default [] part2 ++ frame_crc h (default [] part2)) ++ [SLIP_FRAME], act,
         set_delay UBCSP_POLL_TIME_DELAY s')) ∧ busy n s.
Proof.
  intros (Hd & He & Hp & Hn & Hnp & Hns & Hc & Hneed) Hh Hpart.
  set (pay := default [] part2) in *. set (c := crc_octets pay (crc_octets h 65535)). intros n.
  set (crc := ubcsp_crc_reverse c).
  exists (crc_octets (frame_crc h pay) crc).
  pose proof (send_block_polls h [] s) as H1. rewrite app_nil_r in H1.
  destruct (H1 ltac:(by intros ->) Hd He Hp ltac:(lia)) as [H1' B1]. clear H1. rename H1' into H1.
  (* the state before the checksum *)
  set (s3 := set_send_size 2 (set_send_ptr (Some (frame_crc h pay)) (set_send_crc crc (set_need_send_crc 0
    (set_next_send_size 0 (set_next_send_ptr None s)))))).
  assert (Hcrc : frame_crc h pay = crc_bytes crc) by (unfold frame_crc, crc, c; by rewrite crc_octets_app).
  assert (polls (length (slip h) + length (slip pay)) s = Ret (slip h ++ slip pay, 0, s3) ∧
    busy (length (slip h) + length (slip pay)) s) as [H2 B2].
  { subst s3. rewrite Hcrc. clear Hcrc. subst crc c pay. destruct part2 as [l|].
    - set (s2 := set_send_size (Z.of_nat (length l)) (set_send_ptr (Some l) (set_next_send_size 0 (set_next_send_ptr None
        (set_send_crc (crc_octets h 65535) s))))).
      assert (polls (length (slip h)) s = Ret (slip h, 0, s2)) as Ha.
      { rewrite H1. unfold end_block. subst s2. destruct s. fields. subst. fields. by rewrite app_nil_r. }
      change (default [] (Some l)) with l. assert (l ≠ []) as Hl by (by intros ->).
      destruct (send_block_polls l [] s2) as [H2 B2]; [done|subst s2..|].
      + by destruct s.
      + by destruct s.
      + destruct s. fields. by rewrite app_nil_r.
      + by destruct s.
      + split.
        * apply (polls_app _ _ _ _ 0 _ (slip l) 0 _ Ha). rewrite H2. subst s2.
          unfold end_block. destruct s. fields. subst. change (negb (1 =? 0)) with true. fields. by rewrite app_nil_r.
        * eapply busy_app; [exact Ha|done| |done]. subst s2. cbn. destruct l; [done|]. cbn. lia.
    - cbn [default slip map concat length]. rewrite Nat.add_0_r, app_nil_r. split; [|done]. rewrite H1.
      unfold end_block. destruct s. fields. subst. change (negb (1 =? 0)) with true. fields. by rewrite app_nil_r. }
  assert (send_ptr s3 = Some (frame_crc h pay ++ [])) as Hs3 by (subst s3; destruct s; fields; by rewrite app_nil_r).
  assert (delay s3 = 0 ∧ send_slip_escape s3 = 0 ∧ send_size s3 = Z.of_nat (length (frame_crc h pay))) as (D3 & E3 & N3)
    by (subst s3; by destruct s).
  pose proof (send_block_polls (frame_crc h pay) [] s3 ltac:(done) D3 E3 Hs3 N3) as B3.
  assert (polls (length (slip (frame_crc h pay))) s3 =
    let '(act, s') := ubcsp_sent_packet (frame_sent (crc_octets (frame_crc h pay) crc) s) in
    Ret (slip (frame_crc h pay) ++ [SLIP_FRAME], act, set_delay UBCSP_POLL_TIME_DELAY s')) as H3.
  { rewrite (proj1 B3). subst s3. unfold end_block, frame_sent. destruct s. fields. subst.
    change (negb (0 =? 0)) with false. fields. by destruct (ubcsp_sent_packet _) as [a s']. }
  assert (n = (length (slip h) + length (slip pay) + length (slip (frame_crc h pay)))%nat) as ->
    by (subst n; rewrite !slip_app, !length_app; lia).
  split; [|eapply busy_app; [exact H2|done|done|apply B3]]. clear B1 B2 B3. destruct (ubcsp_sent_packet _) as [act s'].
  rewrite (polls_app _ _ _ _ _ _ _ _ _ H2 H3). by rewrite !slip_app, <- !app_assoc.
Qed.

(** ** Receiving octets *)

Lemma receive_loop_step value uart act p s s' :
  receive_packet s = Some p → receive_octet value act p s = Ret (act, None, s') →
  receive_loop (value :: uart) act s = receive_loop uart act s'.
Proof. intros Hp H. cbn [receive_loop]. by rewrite Hp, H. Qed.

(** An octet, escaped or not, is stored. *)
Lemma receive_slip_octet v rest act p s s' :
  receive_packet s = Some p → receive_slip_escape s = 0 → store_octet v p s = Ret s' →
  receive_loop (slip_octet v ++ rest) act s = receive_loop rest act s'.
Proof.
  intros Hp He Hs.
  assert (∀ x, table_at ubcsp_deslip (x - SLIP_ESCAPE_FRAME) = Ret v →
    receive_loop (SLIP_ESCAPE :: x :: rest) act s = receive_loop rest act s') as Hesc.
  { intros x Hx. rewrite (receive_loop_step _ _ _ p s (set_receive_slip_escape 1 s)); [|done|].
    - apply (receive_loop_step _ _ _ p); [by destruct s|]. unfold receive_octet.
      change (receive_slip_escape (set_receive_slip_escape 1 s)) with 1. change (negb (1 =? 0)) with true. cbv iota.
      rewrite Hx, outcome_bind_ret.
      assert (set_receive_slip_escape 0 (set_receive_slip_escape 1 s) = s) as -> by (destruct s; fields; by subst).
      by rewrite Hs, outcome_bind_ret.
    - unfold receive_octet. rewrite He. done. }
  unfold slip_octet. destruct (Z.eqb_spec v SLIP_FRAME) as [->|H1]; [by apply Hesc|].
  destruct (Z.eqb_spec v SLIP_ESCAPE) as [->|H2]; [by apply Hesc|]. cbn [app].
  apply (receive_loop_step _ _ _ p); [done|]. unfold receive_octet. rewrite He. change (negb (0 =? 0)) with false. cbv iota.
  rewrite (proj2 (Z.eqb_neq _ _) H1), (proj2 (Z.eqb_neq _ _) H2), Hs, outcome_bind_ret. done.
Qed.

Lemma receive_header_octets a b c d rest act p s :
  receive_packet s = Some p → receive_slip_escape s = 0 → receive_index s = -4 → length (receive_header s) = 4%nat →
  receive_loop (slip [a; b; c; d] ++ rest) act s =
  receive_loop rest act (set_receive_index 0 (set_receive_header [a; b; c; d] s)).
Proof.
  intros Hp He Hi Hl. destruct (receive_header s) as [|w [|x [|y [|z [|]]]]] eqn:Hh; try done.
  assert (∀ v i h h' s, receive_packet s = Some p → receive_slip_escape s = 0 → receive_header s = h → receive_index s = i →
    (i <? 0) = true → wr h (i + 4) [v] = Ret h' → ∀ rest,
    receive_loop (slip_octet v ++ rest) act s = receive_loop rest act (set_receive_index (i + 1) (set_receive_header h' s))) as Hone.
  { clear. intros v i h h' s Hp He Hh Hi Hneg Hw rest. apply (receive_slip_octet _ _ _ p); [done..|].
    unfold store_octet. rewrite Hi, Hneg, Hh, Hw, outcome_bind_ret. done. }
  change (slip [a; b; c; d]) with (slip_octet a ++ slip_octet b ++ slip_octet c ++ slip_octet d ++ []).
  rewrite <- !app_assoc. cbn [app].
  rewrite (Hone a (-4) [w; x; y; z] [a; x; y; z] s) by done.
  rewrite (Hone b (-3) [a; x; y; z] [a; b; y; z]) by done.
  rewrite (Hone c (-2) [a; b; y; z] [a; b; c; z]) by done.
  rewrite (Hone d (-1) [a; b; c; z] [a; b; c; d]) by done.
  by destruct s.
Qed.

Lemma receive_payload_octets body rest act p blk i s :
  receive_packet s = Some p → receive_slip_escape s = 0 → payload p = Some blk →
  0 ≤ packet_length p ≤ Z.of_nat (length blk) → receive_index s = Z.of_nat i → (i ≤ Z.to_nat (packet_length p))%nat →
  let n := Nat.min (length body) (Z.to_nat (packet_length p) - i) in
  receive_loop (slip body ++ rest) act s =
  receive_loop rest act (set_receive_index (Z.of_nat (i + n))
    (set_receive_packet (Some (set_payload (Some (take i blk ++ take n body ++ drop (i + n) blk)) p)) s)).
Proof.
  revert p blk i s. induction body as [|v body IH]; intros p blk i s Hp He Hb Hcap Hi Hle; cbn [length].
  - rewrite Nat.min_0_l, take_nil, Nat.add_0_r. cbn [slip map concat app]. rewrite take_drop. f_equal.
    destruct s, p; fields; packet_fields. by subst.
  - rewrite slip_cons, <- app_assoc. destruct (decide (i = Z.to_nat (packet_length p))) as [->|Hne].
    + rewrite Nat.sub_diag, Nat.min_0_r. cbn [take app].
      rewrite (receive_slip_octet _ _ _ p s s); [|done..|].
      * rewrite (IH p blk (Z.to_nat (packet_length p)) s) by done. rewrite Nat.sub_diag, Nat.min_0_r. done.
      * unfold store_octet. rewrite Hi. rewrite (proj2 (Z.ltb_ge _ _)), (proj2 (Z.ltb_ge _ _)) by lia. done.
    + set (blk' := take i blk ++ [v] ++ drop (i + 1) blk).
      assert (length blk' = length blk) as Hlb. { subst blk'. rewrite !length_app, length_take, length_drop. cbn [length]. lia. }
      set (s' := set_receive_index (Z.of_nat (S i)) (set_receive_packet (Some (set_payload (Some blk') p)) s)).
      rewrite (receive_slip_octet _ _ _ p s s'); [|done..|].
      * assert (packet_length (set_payload (Some blk') p) = packet_length p) as Hpl by done.
        rewrite (IH (set_payload (Some blk') p) blk' (S i) s'); rewrite ?Hpl; try done; try lia; subst s'; try (by destruct s).
        replace (Nat.min (S (length body)) (Z.to_nat (packet_length p) - i))
          with (S (Nat.min (length body) (Z.to_nat (packet_length p) - S i))) by lia.
        set (n := Nat.min (length body) (Z.to_nat (packet_length p) - S i)).
        assert (take (S i) blk' ++ take n body ++ drop (S i + n) blk' = take i blk ++ take (S n) (v :: body) ++ drop (i + S n) blk) as ->.
        { subst blk'. assert (length (take i blk) = i) as Hti by (rewrite length_take; lia).
          rewrite app_assoc. rewrite take_app_ge by lia. rewrite Hti.
          replace (S i - i)%nat with 1%nat by lia. cbn [app take]. rewrite take_0. rewrite <- !app_assoc. cbn [app]. do 3 f_equal.
          rewrite drop_app_ge by lia. rewrite Hti. replace (S i + n - i)%nat with (S n) by lia. cbn [drop].
          rewrite drop_drop. f_equal. lia. }
        replace (S i + n)%nat with (i + S n)%nat by lia. by destruct s.
      * unfold store_octet. rewrite Hi. rewrite (proj2 (Z.ltb_ge _ _)), (proj2 (Z.ltb_lt _ _)) by lia. rewrite Hb.
        change (default [] (Some blk)) with blk. unfold wr. rewrite decide_True by (cbn [length]; lia). rewrite outcome_bind_ret.
        rewrite Nat2Z.id. subst s' blk'. replace (Z.of_nat i + 1) with (Z.of_nat (S i)) by lia. done.
Qed.

(** A whole frame between two markers. *)
Lemma receive_frame h body rest act p blk s :
  receive_packet s = Some p → receive_slip_escape s = 0 → receive_index s < 0 → length (receive_header s) = 4%nat →
  length h = 4%nat → payload p = Some blk → 0 ≤ packet_length p ≤ Z.of_nat (length blk) →
  let n := Nat.min (length body) (Z.to_nat (packet_length p)) in
  let p' := set_payload (Some (take n body ++ drop n blk)) p in
  let s' := set_receive_index (Z.of_nat n) (set_receive_header h (set_receive_packet (Some p') s)) in
  receive_loop (frame_octets h body ++ rest) act s =
  r ← ubcsp_recevied_packet p' s';
  let '(a, up, s) := r in
  let act := Z.lor act a in
  let s := if negb (Z.land act UBCSP_PACKET_ACK =? 0) then set_delay 0 s else s in
  match up with
  | Some q => Ret (act, Some q, set_receive_index (-4) s, rest)
  | None => receive_loop rest act (set_receive_index (-4) s)
  end.
Proof.
  intros Hp He Hi Hl Hh Hb Hcap n p' s'. destruct h as [|a [|b [|c [|d [|]]]]]; try done. clear Hh.
  unfold frame_octets. rewrite <- app_comm_cons, <- app_assoc.
  assert (receive_octet SLIP_FRAME act p s = Ret (act, None, set_receive_index (-4) s)) as H0.
  { unfold receive_octet. rewrite He. change (negb (0 =? 0)) with false. rewrite Z.eqb_refl. cbv iota.
    rewrite (proj2 (Z.leb_gt _ _)) by done. done. }
  rewrite (receive_loop_step _ _ _ p s _ Hp H0). rewrite slip_app, <- app_assoc.
  rewrite (receive_header_octets a b c d _ act p) by (by destruct s).
  rewrite (receive_payload_octets body _ act p blk 0); [|by destruct s|by destruct s|done|done|done|lia].
  rewrite take_0. cbn [app Nat.add]. rewrite Nat.sub_0_r. fold n. fold p'.
  assert (set_receive_index (Z.of_nat n) (set_receive_packet (Some p')
    (set_receive_index 0 (set_receive_header [a; b; c; d] (set_receive_index (-4) s)))) = s') as -> by (subst s'; by destruct s).
  cbn [receive_loop]. change (receive_packet s') with (Some p').
  unfold receive_octet. change (receive_slip_escape s') with (receive_slip_escape s). rewrite He.
  change (negb (0 =? 0)) with false. rewrite Z.eqb_refl. change (receive_index s') with (Z.of_nat n). cbv iota.
  rewrite (proj2 (Z.leb_le 0 _)) by lia. rewrite outcome_bind_assoc.
  destruct (ubcsp_recevied_packet p' s') as [[[a' up] s2]| |]; try done.
Qed.

(** ** Headers *)

(** A test that holds on a whole range. *)
Lemma forallb_seqZ (f : Z → bool) n z : 0 ≤ z < n → forallb f (seqZ 0 n) = true → f z = true.
Proof. intros Hz H. rewrite forallb_forall in H. apply H. apply list_elem_of_In, elem_of_seqZ. lia. Qed.

Lemma header_byte0 r a q :
  0 ≤ r < 2 → 0 ≤ a < 8 → 0 ≤ q < 8 →
  let h0 := to_u8 (Z.lor (Z.lor (Z.lor (Z.shiftl r 7) 64) (Z.shiftl a 3)) q) in
  byte_ok h0 ∧ Z.shiftr (Z.land h0 128) 7 = r ∧ Z.shiftr (Z.land h0 64) 6 = 1 ∧
  Z.shiftr (Z.land h0 56) 3 = a ∧ Z.land h0 7 = q.
Proof.
  intros Hr Ha Hq.
  assert (forallb (λ r, forallb (λ a, forallb (λ q,
    let h0 := to_u8 (Z.lor (Z.lor (Z.lor (Z.shiftl r 7) 64) (Z.shiftl a 3)) q) in
    (0 <=? h0) && (h0 <? 256) && (Z.shiftr (Z.land h0 128) 7 =? r) && (Z.shiftr (Z.land h0 64) 6 =? 1) &&
    (Z.shiftr (Z.land h0 56) 3 =? a) && (Z.land h0 7 =? q)) (seqZ 0 8)) (seqZ 0 8)) (seqZ 0 2) = true) as H
    by (vm_compute; reflexivity).
  apply (forallb_seqZ _ _ r Hr), (forallb_seqZ _ _ a Ha), (forallb_seqZ _ _ q Hq) in H. cbv beta zeta in H.
  rewrite !andb_true_iff, Z.leb_le, Z.ltb_lt, !Z.eqb_eq in H. cbv zeta. unfold byte_ok. tauto.
Qed.

Lemma header_byte1 c l :
  0 ≤ c < 16 → 0 ≤ l →
  let h1 := to_u8 (Z.lor (Z.land c 15) (Z.land (Z.shiftl l 4) 240)) in
  byte_ok h1 ∧ Z.land h1 15 = c ∧ Z.shiftr (Z.land h1 240) 4 = l mod 16.
Proof.
  intros Hc Hl.
  assert (Z.land (Z.shiftl l 4) 240 = Z.shiftl (l mod 16) 4) as ->.
  { change 240 with (Z.shiftl (Z.ones 4) 4). rewrite <- Z.shiftl_land. by rewrite Z.land_ones by lia. }
  pose proof (Z.mod_pos_bound l 16 ltac:(lia)) as Hm. generalize dependent (l mod 16). intros m Hm. clear Hl l.
  assert (forallb (λ c, forallb (λ m,
    let h1 := to_u8 (Z.lor (Z.land c 15) (Z.shiftl m 4)) in
    (0 <=? h1) && (h1 <? 256) && (Z.land h1 15 =? c) && (Z.shiftr (Z.land h1 240) 4 =? m)) (seqZ 0 16)) (seqZ 0 16) = true) as H
    by (vm_compute; reflexivity).
  apply (forallb_seqZ _ _ c Hc), (forallb_seqZ _ _ m Hm) in H. cbv beta zeta in H.
  rewrite !andb_true_iff, Z.leb_le, Z.ltb_lt, !Z.eqb_eq in H. cbv zeta. unfold byte_ok. tauto.
Qed.

Lemma header_checksum_sum a b c d :
  byte_ok a → byte_ok b → byte_ok c →
  Forall byte_ok (header_checksum [a; b; c; d]) ∧ header_sum (header_checksum [a; b; c; d]) = 255.
Proof.
  intros Ha Hb Hc. unfold header_checksum, header_sum, header_at. cbn [take app nth].
  change 255 with (Z.ones 8). rewrite !Z.land_ones by lia. change (2 ^ 8) with 256.
  assert (Z.lnot (a + b + c) = - (a + b + c) - 1) as -> by (unfold Z.lnot; lia). split.
  - rewrite !Forall_cons. split_and!; [done..| |constructor]. apply Z.mod_pos_bound. lia.
  - rewrite Z.add_mod_idemp_r by lia. by replace (a + b + c + (- (a + b + c) - 1)) with (-1) by lia.
Qed.

(** The receiver reads back the fields the sender puts into a header. *)
Definition packet_ok (p : ubcsp_packet) : Prop :=
  0 ≤ reliable p < 2 ∧ 0 ≤ channel p < 16 ∧ 0 ≤ packet_length p < 4096.

Lemma packet_header_fields p ack seq :
  packet_ok p → 0 ≤ ack < 8 → 0 ≤ seq < 8 →
  let h := header_checksum (packet_header p ack seq) in
  header_ok h (packet_length p) ∧ header_reliable h = reliable p ∧ header_ack h = ack ∧ header_seq h = seq ∧
  header_channel h = channel p.
Proof.
  intros (Hr & Hc & Hl) Ha Hs h. subst h. unfold packet_header.
  destruct (header_byte0 _ _ _ Hr Ha Hs) as (B0 & R & C & A & S).
  destruct (header_byte1 (channel p) (packet_length p) Hc ltac:(lia)) as (B1 & CH & L).
  set (h0 := to_u8 (Z.lor _ seq)) in *. set (h1 := to_u8 (Z.lor (Z.land (channel p) 15) _)) in *.
  assert (Z.land (Z.shiftr (packet_length p) 4) 255 = packet_length p / 16) as ->.
  { change 255 with (Z.ones 8). rewrite Z.land_ones, Z.shiftr_div_pow2 by lia. change (2 ^ 4) with 16. apply Z.mod_small.
    split; [apply Z.div_pos; lia|apply Z.div_lt_upper_bound; lia]. }
  assert (byte_ok (packet_length p / 16)) as B2.
  { split; [apply Z.div_pos; lia|apply Z.div_lt_upper_bound; lia]. }
  destruct (header_checksum_sum h0 h1 (packet_length p / 16) 0 B0 B1 B2) as [HB HS].
  split_and!; try done; unfold header_ok, header_reliable, header_crc, header_length, header_ack, header_seq, header_channel, header_at;
    cbn [header_checksum take app nth]; [|done..].
  split_and!; [done|done|done|by rewrite C|]. rewrite L, lor_shiftl_add; [|lia|apply Z.mod_pos_bound; lia].
  pose proof (Z.div_mod (packet_length p) 16 ltac:(lia)). lia.
Qed.

Lemma ack_header_fields ack :
  0 ≤ ack < 8 →
  let h := header_checksum (ack_header ack) in
  header_ok h 0 ∧ header_reliable h = 0 ∧ header_ack h = ack ∧ header_channel h = 0.
Proof.
  intros Ha h. subst h. pose proof (packet_header_fields (Packet 0 0 0 0 None) ack 0) as H. cbv zeta in H.
  assert (packet_header (Packet 0 0 0 0 None) ack 0 = ack_header ack) as E.
  { unfold packet_header, ack_header. cbn [reliable channel packet_length]. rewrite Z.lor_0_r. done. }
  rewrite E in H. destruct H as (H1 & H2 & H3 & _ & H4); [done|done|lia|]. done.
Qed.

(** The octets of the headers are octets. *)
Lemma to_u8_ok z : byte_ok (to_u8 z).
Proof. apply Z.mod_pos_bound. lia. Qed.

Lemma packet_header_ok p ack seq : length (packet_header p ack seq) = 4%nat ∧ Forall byte_ok (packet_header p ack seq).
Proof.
  split; [done|]. unfold packet_header. rewrite !Forall_cons. split_and!; try apply to_u8_ok; [|unfold byte_ok; lia|constructor].
  change 255 with (Z.ones 8). rewrite Z.land_ones by lia. apply Z.mod_pos_bound. lia.
Qed.

Lemma ack_header_ok ack : length (ack_header ack) = 4%nat ∧ Forall byte_ok (ack_header ack).
Proof.
  split; [done|]. unfold ack_header. rewrite !Forall_cons. split_and!; [apply to_u8_ok|unfold byte_ok; lia..|constructor].
Qed.

#[global] Opaque frame_crc header_checksum packet_header ack_header.
#[global] Opaque header_sum header_reliable header_crc header_ack header_seq header_channel header_length.

(** ** A packet from engine to engine *)

(** The sender is ready to send what it has. *)
Definition ready (s : ubcsp_configuration) : Prop :=
  delay s = 0 ∧ send_size s = 0 ∧ send_slip_escape s = 0 ∧
  link_establishment_packet s = ubcsp_le_none ∧ Z.land (link_establishment_resp s) 2 = 0 ∧
  0 ≤ ack_number s < 8 ∧ 0 ≤ sequence_number s < 8.

(** A packet whose payload block holds its length of octets. *)
Definition sendable (p : ubcsp_packet) (pay : list Z) : Prop :=
  packet_ok p ∧ payload p = Some pay ∧ packet_length p = Z.of_nat (length pay) ∧ pay ≠ [] ∧ Forall byte_ok pay.

(** The frame the sender makes of its packet. *)
Definition data_header (p : ubcsp_packet) (s : ubcsp_configuration) : list Z :=
  header_checksum (packet_header p (ack_number s) (sequence_number s)).
Definition frame_of (h pay : list Z) : list Z := frame_octets h (pay ++ frame_crc h pay).

Lemma poll_start s out d s' :
  delay s = 0 → send_size s = 0 → link_establishment_packet s = ubcsp_le_none →
  send_start s = Ret (out, d, s') → delay s' = 0 →
  ubcsp_poll [] s = Ret (d, 0, None, out, set_delay d s', []).
Proof.
  intros Hd Hn Hle H Hd'. unfold ubcsp_poll. rewrite Hd, Hn, Hle. change (0 =? 0) with true.
  change (negb true) with false. change (ubcsp_le_none =? ubcsp_le_none) with true. cbv iota.
  by rewrite H, outcome_bind_ret, poll_receive_silent, Hd'.
Qed.

Lemma polls_S s r a u out s1 w n out' act' s2 :
  ubcsp_poll [] s = Ret (r, a, u, out, s1, w) → polls n s1 = Ret (out', act', s2) →
  polls (S n) s = Ret (out ++ out', Z.lor a act', s2).
Proof. intros H1 H2. cbn [polls]. by rewrite H1, outcome_bind_ret, H2, outcome_bind_ret. Qed.

(** The state after the first poll of a frame. *)
Definition set_frame (h : list Z) (part2 : option (list Z)) (len : Z) (s : ubcsp_configuration) : ubcsp_configuration :=
  set_send_ack 0 (ubcsp_setup_packet h false part2 len s).

Lemma set_frame_started h part2 s :
  delay s = 0 → send_slip_escape s = 0 → frame_started h part2 (set_frame h part2 (Z.of_nat (length (default [] part2))) s).
Proof. intros Hd He. by destruct s. Qed.

(** The state after a frame: the packet forgotten if it was unreliable. *)
Lemma sent_packet_size crc s : send_size (ubcsp_sent_packet (frame_sent crc s)).2 = 0.
Proof.
  unfold ubcsp_sent_packet. destruct (send_packet (frame_sent crc s)) as [p|]; [|done]. by destruct (reliable p =? 0).
Qed.

(** Sending a frame once [send_start] has chosen it. *)
Lemma send_start_transmit s h part2 :
  ready s → length h = 4%nat → part2 ≠ Some [] →
  send_start s = Ret ([SLIP_FRAME], 0, set_frame h part2 (Z.of_nat (length (default [] part2))) s) →
  ∃ crc, ∀ fuel, (length (frame_of h (default [] part2)) ≤ fuel)%nat →
    transmit fuel s = let '(act, s') := ubcsp_sent_packet (frame_sent crc (set_send_ack 0 s)) in
    Ret (frame_of h (default [] part2), act, set_delay UBCSP_POLL_TIME_DELAY s').
Proof.
  intros (Hd & Hn & He & Hle & _) Hl Hp Hst.
  set (s1 := set_frame h part2 (Z.of_nat (length (default [] part2))) s) in *.
  assert (delay s1 = 0) as Hd1 by (subst s1; by destruct s).
  pose proof (set_frame_started h part2 s Hd He) as Hs1. fold s1 in Hs1.
  destruct (send_frame_polls h part2 s1 Hs1 Hl Hp) as (crc & H & Hb).
  exists crc. intros fuel Hfuel. assert (frame_sent crc s1 = frame_sent crc (set_send_ack 0 s)) as E by (subst s1; by destruct s).
  rewrite E in H. pose proof (sent_packet_size crc (set_send_ack 0 s)) as Hsize.
  destruct (ubcsp_sent_packet _) as [act s'].
  pose proof (poll_start s _ _ _ Hd Hn Hle Hst Hd1) as Hpoll.
  assert (set_delay 0 s1 = s1) as Hsame by (rewrite <- Hd1 at 1; apply set_delay_same). rewrite Hsame in Hpoll.
  apply (transmit_polls (1 + length (slip (h ++ default [] part2 ++ frame_crc h (default [] part2))))).
  - rewrite (polls_app _ _ _ _ _ _ _ _ _ (polls_one _ _ _ _ _ _ _ Hpoll) H). done.
  - eapply busy_app; [by eapply polls_one|apply busy_one|by subst s1|done].
  - unfold frame_of, frame_octets in Hfuel. cbn [length] in Hfuel. rewrite length_app in Hfuel. cbn [length] in Hfuel. lia.
  - done.
Qed.

Lemma send_packet_transmit s p pay :
  ready s → send_packet s = Some p → sendable p pay →
  ∃ crc, ∀ fuel, (length (frame_of (data_header p s) pay) ≤ fuel)%nat →
    transmit fuel s = let '(act, s') := ubcsp_sent_packet (frame_sent crc (set_send_ack 0 s)) in
    Ret (frame_of (data_header p s) pay, act, set_delay UBCSP_POLL_TIME_DELAY s').
Proof.
  intros Hr Hp (_ & Hpay & Hlen & Hne & _). apply (send_start_transmit s (data_header p s) (Some pay)); [done|done|congruence|].
  destruct Hr as (_ & _ & _ & _ & Hresp & _). unfold send_start. rewrite Hresp. change (negb (0 =? 0)) with false. cbv iota.
  rewrite Hp. unfold set_frame, ubcsp_setup_packet, data_header. by rewrite Hpay, Hlen.
Qed.

Lemma send_start_ack s :
  Z.land (link_establishment_resp s) 2 = 0 → send_packet s = None → send_ack s ≠ 0 →
  send_start s = Ret ([SLIP_FRAME], 0, set_frame (header_checksum (ack_header (ack_number s))) None 0 s).
Proof.
  intros Hresp Hp Ha. unfold send_start. rewrite Hresp. change (negb (0 =? 0)) with false. cbv iota.
  rewrite Hp, (proj2 (Z.eqb_neq _ _) Ha). unfold set_frame, ubcsp_setup_packet. cbn [negb]. reflexivity.
Qed.

Lemma frame_sent_packet crc s : send_packet (frame_sent crc (set_send_ack 0 s)) = send_packet s.
Proof. by destruct s. Qed.

Lemma send_ack_transmit s :
  ready s → send_packet s = None → send_ack s ≠ 0 →
  ∃ crc, ∀ fuel, (length (frame_of (header_checksum (ack_header (ack_number s))) []) ≤ fuel)%nat →
    transmit fuel s = Ret (frame_of (header_checksum (ack_header (ack_number s))) [], 0,
      set_delay UBCSP_POLL_TIME_DELAY (frame_sent crc (set_send_ack 0 s))).
Proof.
  intros Hr Hp Ha. assert (Z.land (link_establishment_resp s) 2 = 0) as Hresp by apply Hr.
  pose proof (send_start_ack s Hresp Hp Ha) as Hst.
  assert (length (header_checksum (ack_header (ack_number s))) = 4%nat) as Hl by done.
  generalize dependent (header_checksum (ack_header (ack_number s))). intros h Hst Hl.
  destruct (send_start_transmit s h None Hr Hl ltac:(done) Hst) as (crc & H). exists crc. intros fuel Hf.
  specialize (H fuel Hf). change (default [] None) with (@nil Z) in H. rewrite H.
  unfold ubcsp_sent_packet. by rewrite frame_sent_packet, Hp.
Qed.

(** What the receiver does with a frame it has room for. *)
Definition accept (h pay : list Z) (p : ubcsp_packet) (s : ubcsp_configuration)
    : outcome (Z * option ubcsp_packet * ubcsp_configuration) :=
  let q := set_channel (header_channel h) (set_reliable (header_reliable h) p) in
  let '(activity, s) := take_ack (header_ack h) (set_receive_index (Z.of_nat (length pay)) (set_receive_packet (Some q) s)) in
  if header_channel h =? 1 then r ← le_frame (default [] (payload p)) activity s; Ret (r.1, None, r.2)
  else Ret (data_frame q (header_length h) (header_seq h) activity s).

Lemma recevied_packet_accept h pay rest p s :
  header_ok h (Z.of_nat (length pay)) → Forall byte_ok pay → receive_header s = h →
  payload p = Some (pay ++ frame_crc h pay ++ rest) → receive_index s = Z.of_nat (length (pay ++ frame_crc h pay)) →
  ubcsp_recevied_packet p s = accept h pay p s.
Proof.
  intros (Hl4 & Hhb & Hsum & Hcrc & Hlen) Hb Hh Hp Hi. unfold ubcsp_recevied_packet, accept. rewrite Hh, Hsum.
  change (negb (255 =? 255)) with false. cbv iota. rewrite Hp. change (default [] (Some ?l)) with l.
  change (receive_index (set_receive_packet _ s)) with (receive_index s).
  rewrite (check_frame_crc h pay (frame_crc h pay) rest); [|done..|].
  - rewrite bool_decide_true by done. rewrite outcome_bind_ret. cbn [fst snd negb]. rewrite Hi, length_app, length_frame_crc.
    replace (Z.of_nat (length pay + 2) - 2) with (Z.of_nat (length pay)) by lia. done.
  - rewrite Hi, Hlen, length_app, length_frame_crc. lia.
Qed.

Lemma recevied_packet_short h p s :
  header_sum h = 255 → header_crc h ≠ 0 → receive_header s = h → header_length h + 2 ≠ receive_index s →
  ubcsp_recevied_packet p s =
    Ret (0, None, set_send_ack 1 (set_receive_index (receive_index s) (set_receive_packet
      (Some (set_channel (header_channel h) (set_reliable (header_reliable h) p))) s))).
Proof.
  intros Hsum Hcrc Hh Hi. unfold ubcsp_recevied_packet. rewrite Hh, Hsum. change (negb (255 =? 255)) with false. cbv iota.
  change (receive_index (set_receive_packet _ s)) with (receive_index s).
  by rewrite (check_frame_length h _ _ Hcrc Hi), outcome_bind_ret.
Qed.

(** The receiver waits for a frame, with a buffer for its payload. *)
Definition listening (s : ubcsp_configuration) (p : ubcsp_packet) (blk : list Z) : Prop :=
  receive_packet s = Some p ∧ receive_slip_escape s = 0 ∧ receive_index s < 0 ∧ length (receive_header s) = 4%nat ∧
  payload p = Some blk ∧ 0 ≤ packet_length p ≤ Z.of_nat (length blk).

(** The state when the last octet of a frame is in, and its packet. *)
Definition filled (body blk : list Z) (p : ubcsp_packet) : ubcsp_packet :=
  let n := Nat.min (length body) (Z.to_nat (packet_length p)) in
  set_payload (Some (take n body ++ drop n blk)) p.
Definition frame_in (h body blk : list Z) (p : ubcsp_packet) (s : ubcsp_configuration) : ubcsp_configuration :=
  let n := Nat.min (length body) (Z.to_nat (packet_length p)) in
  set_receive_index (Z.of_nat n) (set_receive_header h (set_receive_packet (Some (filled body blk p)) s)).

Lemma listening_frame s p blk h body :
  listening s p blk → length h = 4%nat → listening (set_receive_index (-4) (frame_in h body blk p s)) (filled body blk p)
    (take (Nat.min (length body) (Z.to_nat (packet_length p))) body ++ drop (Nat.min (length body) (Z.to_nat (packet_length p))) blk).
Proof.
  intros (Hp & He & Hi & Hl & Hb & Hcap) Hh. split_and!; try done; try (by destruct s).
  - cbn. lia.
  - cbn. rewrite length_app, length_take, length_drop. lia.
Qed.

(** A frame that fits is accepted, one that does not is ignored. *)
Lemma receive_frame_of s p blk h pay :
  listening s p blk → header_ok h (Z.of_nat (length pay)) → Forall byte_ok pay →
  let body := pay ++ frame_crc h pay in
  receive_loop (frame_of h pay) 0 s =
  (if bool_decide (Z.of_nat (length body) ≤ packet_length p) then
     r ← accept h pay (filled body blk p) (frame_in h body blk p s);
     let '(a, up, s) := r in
     Ret (a, up, set_receive_index (-4) (if negb (Z.land a UBCSP_PACKET_ACK =? 0) then set_delay 0 s else s), [])
   else
     Ret (0, None, set_send_ack 1 (set_receive_index (-4) (set_receive_packet
       (Some (set_channel (header_channel h) (set_reliable (header_reliable h) (filled body blk p))))
       (frame_in h body blk p s))), [])).
Proof.
  intros (Hp & He & Hi & Hl & Hb & Hcap) Hh Hpay body. pose proof Hh as (Hl4 & _ & Hsum & Hcrc & Hlen).
  unfold frame_of. fold body. rewrite <- (app_nil_r (frame_octets h body)).
  rewrite (receive_frame h body [] 0 p blk) by done. fold (filled body blk p). fold (frame_in h body blk p s).
  assert (length body = (length pay + 2)%nat) as Hlb by (subst body; by rewrite length_app, length_frame_crc).
  case_bool_decide as Hfit.
  - assert (Nat.min (length body) (Z.to_nat (packet_length p)) = length body) as Hmin by lia.
    rewrite (recevied_packet_accept h pay (drop (length body) blk)); [|done|done|by destruct s| |].
    + destruct (accept _ _ _ _) as [[[a up] s2]| |] eqn:E; [|done..]. rewrite !outcome_bind_ret.
      change (Z.lor 0 a) with a. destruct up; [done|]. cbn [receive_loop].
      by destruct (receive_packet (set_receive_index (-4) _)).
    + unfold filled. cbn [payload set_payload]. rewrite Hmin, take_ge by lia. subst body. by rewrite <- app_assoc.
    + unfold frame_in. rewrite Hmin. by destruct s.
  - assert (Nat.min (length body) (Z.to_nat (packet_length p)) = Z.to_nat (packet_length p)) as Hmin by lia.
    rewrite (recevied_packet_short h); [|done|done|by destruct s|unfold frame_in; rewrite Hmin; destruct s; cbn; lia].
    rewrite outcome_bind_ret. change (Z.lor 0 0) with 0. change (negb (Z.land 0 UBCSP_PACKET_ACK =? 0)) with false. cbv iota.
    cbn [receive_loop]. by destruct s.
Qed.

(** Frames of other channels than link establishment. *)
Definition after_ack (ack : Z) (s : ubcsp_configuration) : bool :=
  match send_packet s with Some p => negb (ack =? sequence_number s) && negb (reliable p =? 0) | None => false end.

Definition delivers (h pay : list Z) (s : ubcsp_configuration) : bool :=
  negb (Z.of_nat (length pay) =? 0) && (link_establishment_state s =? ubcsp_le_active) &&
  ((header_reliable h =? 0) || (header_seq h =? ack_number s)).

Lemma accept_data h pay p s :
  header_channel h ≠ 1 →
  ∃ act s', accept h pay p s =
    Ret (act, if delivers h pay s then
                Some (set_packet_length (header_length h) (set_channel (header_channel h) (set_reliable (header_reliable h) p)))
              else None, s') ∧
    (Z.testbit act 1 = delivers h pay s) ∧ (Z.testbit act 0 = after_ack (header_ack h) s) ∧ Z.testbit act 2 = false ∧
    send_packet s' = (if after_ack (header_ack h) s then None else send_packet s) ∧
    sequence_number s' = (if after_ack (header_ack h) s then (sequence_number s + 1) mod 8 else sequence_number s) ∧
    ack_number s' = (if delivers h pay s && negb (header_reliable h =? 0) then (ack_number s + 1) mod 8 else ack_number s) ∧
    receive_packet s' = (if delivers h pay s then None
                         else Some (set_channel (header_channel h) (set_reliable (header_reliable h) p))) ∧
    (send_ack s' = if negb (Z.of_nat (length pay) =? 0) && (link_establishment_state s =? ubcsp_le_active) &&
                      negb (header_reliable h =? 0) then 1 else send_ack s) ∧
    (delay s' = 0 ∨ delay s' = delay s) ∧
    (link_establishment_state s', link_establishment_resp s', link_establishment_packet s', send_size s', send_slip_escape s',
     receive_slip_escape s', receive_header s') =
    (link_establishment_state s, link_establishment_resp s, link_establishment_packet s, send_size s, send_slip_escape s,
     receive_slip_escape s, receive_header s).
Proof.
  intros Hch. unfold accept, take_ack, after_ack, delivers. rewrite (proj2 (Z.eqb_neq _ _) Hch).
  set (q := set_channel _ _). change (send_packet (set_receive_index _ _)) with (send_packet s).
  change (sequence_number (set_receive_index _ _)) with (sequence_number s).
  destruct s as [le resp lep seq ack sa sp rp rh rse ri nsc sc sse ptr sz nptr nsz d]. fields.
  assert (reliable q = header_reliable h) as Hq by done.
  assert (Hdata : ∀ seq' sp' d' a, (a = 0 ∨ a = UBCSP_PACKET_SENT) →
    let s1 := Config le resp lep seq' ack sa sp' (Some q) rh rse (Z.of_nat (length pay)) nsc sc sse ptr sz nptr nsz d' in
    let del := negb (Z.of_nat (length pay) =? 0) && (le =? ubcsp_le_active) && ((header_reliable h =? 0) || (header_seq h =? ack)) in
    ∃ act s', data_frame q (header_length h) (header_seq h) a s1 =
      (act, if del then Some (set_packet_length (header_length h) q) else None, s') ∧
      Z.testbit act 1 = del ∧ Z.testbit act 0 = Z.testbit a 0 ∧ Z.testbit act 2 = false ∧
      s' = Config le resp lep seq' (if del && negb (header_reliable h =? 0) then (ack + 1) mod 8 else ack)
        (if negb (Z.of_nat (length pay) =? 0) && (le =? ubcsp_le_active) && negb (header_reliable h =? 0) then 1 else sa)
        sp' (if del then None else Some q) rh rse (Z.of_nat (length pay)) nsc sc sse ptr sz nptr nsz d').
  { intros seq' sp' d' a Ha s1 del. subst s1 del. unfold data_frame. fields. fold q. rewrite Hq.
    destruct (Z.of_nat (length pay) =? 0); [destruct Ha as [-> | ->]; by eexists _, _|].
    destruct (le =? ubcsp_le_active); [|destruct Ha as [-> | ->]; by eexists _, _].
    destruct (header_reliable h =? 0); [destruct Ha as [-> | ->]; by eexists _, _|].
    destruct (header_seq h =? ack); destruct Ha as [-> | ->]; by eexists _, _. }
  destruct sp as [sp|]; [destruct (negb (header_ack h =? seq) && negb (reliable sp =? 0)) eqn:Hack|].
  - destruct (Hdata ((seq + 1) mod 8) None 0 UBCSP_PACKET_SENT ltac:(by right)) as (act & s' & -> & H1 & H2 & H3 & ->).
    eexists _, _. split; [done|]. fields. rewrite H1, H2, H3. split_and!; try done. by left.
  - destruct (Hdata seq (Some sp) d 0 ltac:(by left)) as (act & s' & -> & H1 & H2 & H3 & ->).
    eexists _, _. split; [done|]. fields. rewrite H1, H2, H3. split_and!; try done. by right.
  - destruct (Hdata seq None d 0 ltac:(by left)) as (act & s' & -> & H1 & H2 & H3 & ->).
    eexists _, _. split; [done|]. fields. rewrite H1, H2, H3. split_and!; try done. by right.
Qed.

Lemma take_filled body blk p n :
  Z.of_nat (length body) ≤ packet_length p → (n ≤ length body)%nat →
  take n (default [] (payload (filled body blk p))) = take n body.
Proof.
  intros Hl Hn. unfold filled. cbn [payload set_payload]. change (default [] (Some ?l)) with l.
  replace (Nat.min (length body) (Z.to_nat (packet_length p))) with (length body) by lia.
  rewrite (take_ge body) by lia. by rewrite take_app_le.
Qed.

(** The fields the frame in the receiver's buffer leaves alone. *)
Lemma frame_in_fields h body blk p s :
  link_establishment_state (frame_in h body blk p s) = link_establishment_state s ∧
  ack_number (frame_in h body blk p s) = ack_number s ∧ sequence_number (frame_in h body blk p s) = sequence_number s ∧
  send_packet (frame_in h body blk p s) = send_packet s ∧ send_ack (frame_in h body blk p s) = send_ack s ∧
  delay (frame_in h body blk p s) = delay s.
Proof. by destruct s. Qed.

(** The sender's fields after a frame. *)
Lemma frame_sent_fields crc s p :
  send_packet s = Some p →
  let r := ubcsp_sent_packet (frame_sent crc (set_send_ack 0 s)) in
  r.1 = (if reliable p =? 0 then UBCSP_PACKET_SENT else 0) ∧
  send_packet r.2 = (if reliable p =? 0 then None else Some p) ∧
  sequence_number r.2 = sequence_number s ∧ ack_number r.2 = ack_number s ∧ receive_packet r.2 = receive_packet s.
Proof.
  intros Hp r. subst r. destruct s as [? ? ? ? ? ? sp ? ? ? ? ? ? ? ? ? ? ? ?]. cbn in Hp. subst sp. unfold ubcsp_sent_packet.
  cbn. by destruct (reliable p =? 0).
Qed.

(** What ends a poll changes the index and the delay only. *)
Definition poll_end (act d : Z) (s : ubcsp_configuration) : ubcsp_configuration :=
  let s := set_receive_index (-4) (if negb (Z.land act UBCSP_PACKET_ACK =? 0) then set_delay 0 s else s) in
  set_delay (if 0 <? delay s then delay s - 1 else d) s.

Lemma poll_end_fields act d s :
  ack_number (poll_end act d s) = ack_number s ∧ sequence_number (poll_end act d s) = sequence_number s ∧
  send_packet (poll_end act d s) = send_packet s ∧ receive_packet (poll_end act d s) = receive_packet s.
Proof. unfold poll_end. destruct (negb _); by destruct s. Qed.

Lemma poll_receiving uart s a up s2 rest :
  0 < delay s →
  receive_loop uart 0 s =
    Ret (a, up, set_receive_index (-4) (if negb (Z.land a UBCSP_PACKET_ACK =? 0) then set_delay 0 s2 else s2), rest) →
  ubcsp_poll uart s = Ret (delay (poll_end a 0 s2), a, up, [], poll_end a 0 s2, rest).
Proof.
  intros Hd H. unfold ubcsp_poll. rewrite (proj2 (Z.eqb_neq (delay s) 0)) by lia. unfold poll_receive.
  rewrite H, outcome_bind_ret. reflexivity.
Qed.

Lemma delayed_fields d s :
  ack_number (set_delay d s) = ack_number s ∧ sequence_number (set_delay d s) = sequence_number s ∧
  send_packet (set_delay d s) = send_packet s ∧ receive_packet (set_delay d s) = receive_packet s.
Proof. by destruct s. Qed.

(** C24: A packet crosses the line: an engine that has a packet of a data
    channel to send puts, poll by poll, one frame of SLIP octets on the line,
    and an engine whose link is up, whose buffer has room for payload and
    checksum, and which expects the packet's sequence number if it is reliable,
    hands up a packet with the same channel, reliability, length and payload
    when it polls those octets; a reliable packet advances its acknowledgement
    number and an unreliable one the sender forgets at once. *)
Theorem packet_roundtrip (tx rx : ubcsp_configuration) (p buf : ubcsp_packet) (pay blk : list Z)
    (Htx : ready tx) (Hp : send_packet tx = Some p) (Hsend : sendable p pay) (Hch : channel p ≠ 1)
    (Hrx : listening rx buf blk) (Hup : link_establishment_state rx = ubcsp_le_active) (Hd : 0 < delay rx)
    (Hroom : Z.of_nat (length pay) + 2 ≤ packet_length buf)
    (Hseq : reliable p = 0 ∨ sequence_number tx = ack_number rx) :
  ∃ octets act tx', (∀ fuel, (length octets ≤ fuel)%nat → transmit fuel tx = Ret (octets, act, tx')) ∧
    send_packet tx' = (if reliable p =? 0 then None else Some p) ∧
    ∃ d act' q rx', ubcsp_poll octets rx = Ret (d, act', Some q, [], rx', []) ∧ Z.testbit act' 1 = true ∧
      (channel q, reliable q, packet_length q) = (channel p, reliable p, packet_length p) ∧
      take (length pay) (default [] (payload q)) = pay ∧
      ack_number rx' = (if reliable p =? 0 then ack_number rx else (ack_number rx + 1) mod 8).
Proof.
  destruct (send_packet_transmit tx p pay Htx Hp Hsend) as (crc & Htr).
  pose proof Hsend as (Hok & Hpay & Hlen & Hne & Hbytes). pose proof Htx as (_ & _ & _ & _ & _ & Ha & Hs).
  destruct (packet_header_fields p _ _ Hok Ha Hs) as (Hhok & Hrel & Hack & Hsq & Hchan).
  fold (data_header p tx) in *. set (h := data_header p tx) in *. rewrite Hlen in Hhok.
  destruct (ubcsp_sent_packet (frame_sent crc (set_send_ack 0 tx))) as [act s'] eqn:Hsent.
  exists (frame_of h pay), act, (set_delay UBCSP_POLL_TIME_DELAY s'). split; [exact Htr|]. split.
  { pose proof (frame_sent_fields crc tx p Hp) as (_ & Hf & _). rewrite Hsent in Hf.
    rewrite (proj1 (proj2 (proj2 (delayed_fields _ _)))). exact Hf. }
  set (body := pay ++ frame_crc h pay).
  assert (length body = (length pay + 2)%nat) as Hlb by (subst body; by rewrite length_app, length_frame_crc).
  pose proof (receive_frame_of rx buf blk h pay Hrx Hhok Hbytes) as Hrecv. cbv zeta in Hrecv. fold body in Hrecv.
  rewrite bool_decide_true in Hrecv by lia.
  destruct (accept_data h pay (filled body blk buf) (frame_in h body blk buf rx)) as (a & s2 & Hacc & T1 & _ & _ & _ & _ & Hackn & _);
    [congruence|].
  assert (delivers h pay (frame_in h body blk buf rx) = true) as Hdel.
  { unfold delivers. destruct (frame_in_fields h body blk buf rx) as (-> & -> & _). rewrite Hup, Hrel, Hsq.
    assert (length pay ≠ 0%nat) by (by destruct pay). rewrite (proj2 (Z.eqb_neq _ _)) by lia. cbn [negb andb].
    destruct Hseq as [-> | ->]; [done|]. rewrite !Z.eqb_refl. by rewrite orb_true_r. }
  rewrite Hdel in Hacc, T1, Hackn. rewrite Hacc, outcome_bind_ret in Hrecv.
  pose proof (poll_receiving _ _ _ _ _ _ Hd Hrecv) as Hpoll.
  eexists _, a, _, (poll_end a 0 s2). split; [exact Hpoll|]. split; [done|]. clear Hpoll Hrecv.
  destruct Hhok as (_ & _ & _ & _ & HhL). split; [|split].
  - cbn [channel reliable packet_length set_packet_length set_channel set_reliable]. congruence.
  - cbn [payload set_packet_length set_channel set_reliable].
    rewrite (take_filled body blk buf) by lia. subst body. apply take_app_length.
  - rewrite (proj1 (poll_end_fields _ _ s2)), Hackn, Hrel. cbn [andb].
    rewrite (proj1 (proj2 (frame_in_fields h body blk buf rx))). by destruct (reliable p =? 0).
Qed.

Lemma example_sendable : sendable example_packet [192; 219; 7].
Proof.
  split; [unfold packet_ok, example_packet; cbn; lia|]. split; [done|]. split; [done|]. split; [done|].
  repeat constructor; unfold byte_ok; lia.
Qed.

Lemma packet_roundtrip_witness :
  let tx := ubcsp_send_packet example_packet example_engine in
  let rx := set_delay 25 (ubcsp_receive_packet example_buffer example_engine) in
  ∃ octets act tx' d act' q rx', transmit (length octets) tx = Ret (octets, act, tx') ∧
    ubcsp_poll octets rx = Ret (d, act', Some q, [], rx', []) ∧ take 3 (default [] (payload q)) = [192; 219; 7].
Proof.
  intros tx rx.
  destruct (packet_roundtrip tx rx example_packet example_buffer [192; 219; 7] (replicate 16 0))
    as (octets & act & tx' & H1 & H2 & d & act' & q & rx' & H3 & _ & _ & H4 & _).
  - vm_compute. repeat split; discriminate.
  - reflexivity.
  - apply example_sendable.
  - discriminate.
  - vm_compute. repeat split; discriminate.
  - reflexivity.
  - reflexivity.
  - vm_compute. discriminate.
  - right. reflexivity.
  - exists octets, act, tx', d, act', q, rx'. split; [by apply H1|by split].
Defined.
