(* ===== verification/UbcspPoll.v ===== *)
(** utils/tools/ubcsp.c: every poll is defined and keeps the engine well typed;
    two ways to misuse the interface. *)

From stdpp Require Import base list numbers sorting.
From Stdlib Require Import ZArith Lia.
From S2P Require Import Prelude Ubcsp UbcspCrc UbcspFrame.

Local Open Scope Z_scope.

(** * The engine stays well formed *)

Definition sending_ok (p : ubcsp_packet) : Prop :=
  0 ≤ packet_length p ∧
  match payload p with Some b => packet_length p ≤ Z.of_nat (length b) ∧ Forall byte_ok b | None => True end.

Definition link_ok (s : ubcsp_configuration) : Prop :=
  0 ≤ link_establishment_state s ≤ 2 ∧ 0 ≤ link_establishment_resp s ≤ 2 ∧ 0 ≤ link_establishment_packet s ≤ 4 ∧
  0 ≤ sequence_number s < 8 ∧ 0 ≤ ack_number s < 8 ∧ 0 ≤ delay s ≤ 25 ∧
  match send_packet s with Some p => sending_ok p | None => True end.

(** The octets left of the current block are in its memory; the one whose
    escape is pending is behind the pointer. *)
Definition tx_ok (s : ubcsp_configuration) : Prop :=
  0 ≤ send_size s ∧
  (send_size s = 0 ∨ ∃ l, send_ptr s = Some l ∧ Forall byte_ok l ∧
    send_size s - (if send_slip_escape s =? 0 then 0 else 1) ≤ Z.of_nat (length l)) ∧
  (send_slip_escape s = 0 ∨ send_slip_escape s = SLIP_ESCAPE_FRAME ∨ send_slip_escape s = SLIP_ESCAPE_ESCAPE) ∧
  0 ≤ next_send_size s ∧
  match next_send_ptr s with
  | Some l => next_send_size s ≤ Z.of_nat (length l) ∧ Forall byte_ok l
  | None => need_send_crc s = 0 → next_send_size s = 0
  end.

(** The buffer of the host has room for what its length says, and for the four
    octets of a link establishment packet. *)
Definition buffer_ok (p : ubcsp_packet) : Prop :=
  ∃ blk, payload p = Some blk ∧ 4 ≤ Z.of_nat (length blk) ∧ 0 ≤ packet_length p ≤ Z.of_nat (length blk).

Definition rx_ok (s : ubcsp_configuration) : Prop :=
  length (receive_header s) = 4%nat ∧ Forall byte_ok (receive_header s) ∧ -4 ≤ receive_index s ∧
  (receive_slip_escape s = 0 ∨ receive_slip_escape s = 1) ∧
  match receive_packet s with
  | Some p => buffer_ok p ∧ (0 ≤ receive_index s → receive_index s ≤ packet_length p)
  | None => True
  end.

Definition engine_ok (s : ubcsp_configuration) : Prop := link_ok s ∧ tx_ok s ∧ rx_ok s.

(** Octets after an escape are the two the protocol knows. *)
Fixpoint escapes_ok (esc : Z) (uart : list Z) : Prop :=
  match uart with
  | [] => True
  | v :: uart =>
      if esc =? 0 then escapes_ok (if v =? SLIP_ESCAPE then 1 else 0) uart
      else (v = SLIP_ESCAPE_FRAME ∨ v = SLIP_ESCAPE_ESCAPE) ∧ escapes_ok 0 uart
  end.

(** ** Sending *)

(** What the sending half of a poll leaves: octets, delay and state. *)
Definition sent_ok (k : nat) (r : list Z * Z * Z * ubcsp_configuration) : Prop :=
  let '(out, act, d, s) := r in
  Forall byte_ok out ∧ (length out ≤ k)%nat ∧ 0 ≤ d ≤ 25 ∧ engine_ok s.

Lemma frame_byte : Forall byte_ok [SLIP_FRAME].
Proof. repeat constructor; unfold byte_ok, SLIP_FRAME; lia. Qed.

Ltac poll_time := unfold UBCSP_POLL_TIME_IMMEDIATE, UBCSP_POLL_TIME_DELAY; cbn [length]; lia.

Lemma end_block_ok s :
  send_slip_escape s = 0 → link_ok s → tx_ok s → rx_ok s → sent_ok 1 (end_block s).
Proof.
  intros He Hl Ht Hr. unfold end_block, sent_ok, engine_ok.
  destruct s as [le resp lep seq ack sa sp rp rh rse ri need sc sse ptr sz nptr nsz d]. fields. subst sse.
  unfold link_ok, tx_ok, rx_ok in *. fields. destruct Ht as (H1 & H2 & H3 & H4 & H5). destruct nptr as [l|].
  - fields. split_and!; try tauto; try poll_time; try exact (Forall_nil_2 _). right. exists l. split_and!; [done|tauto|cbn; lia].
  - destruct (Z.eqb_spec need 0) as [->|Hneed]; cbn [negb].
    + rewrite (H5 eq_refl) in *. unfold ubcsp_sent_packet. fields.
      destruct sp as [p|]; [destruct (reliable p =? 0)|]; fields;
        (split; [exact frame_byte|]); split_and!; try tauto; poll_time.
    + fields. split_and!; try tauto; try poll_time; try exact (Forall_nil_2 _). right. eexists. split_and!; [done| |cbn; lia].
      repeat constructor; apply to_u8_ok.
Qed.

Lemma count_octet_ok out s :
  Forall byte_ok out → (length out ≤ 1)%nat → send_slip_escape s = 0 → 0 < send_size s →
  link_ok s → (∃ l, send_ptr s = Some l ∧ Forall byte_ok l ∧ send_size s - 1 ≤ Z.of_nat (length l)) →
  tx_ok (set_send_size 0 s) → rx_ok s → sent_ok 2 (count_octet out s).
Proof.
  intros Hout Hlen He Hn Hl (l & Hp & Hb & Hsz) Ht Hr. unfold count_octet.
  set (s1 := set_send_size (send_size s - 1) s).
  assert (link_ok s1) as Hl1 by (subst s1; by destruct s).
  assert (rx_ok s1) as Hr1 by (subst s1; by destruct s).
  assert (send_slip_escape s1 = 0) as He1 by (subst s1; by destruct s).
  assert (tx_ok s1) as Ht1.
  { subst s1. destruct s. unfold tx_ok in *. fields. subst. split_and!; try tauto; try lia.
    right. exists l. split_and!; [done..|]. change (0 =? 0) with true. cbv iota. lia. }
  destruct (send_size s1 =? 0).
  - pose proof (end_block_ok s1 He1 Hl1 Ht1 Hr1) as H. destruct (end_block s1) as [[[o a] d] s2].
    destruct H as (H1 & H2 & H3 & H4). split; [by apply Forall_app|]. split; [rewrite length_app; lia|]. by split.
  - split; [done|]. split; [lia|]. split; [poll_time|]. by split.
Qed.

Lemma send_next_ok s :
  engine_ok s → send_size s ≠ 0 → ∃ r, send_next s = Ret r ∧ sent_ok 2 r.
Proof.
  intros (Hl & Ht & Hr) Hn. unfold send_next, send_octet. pose proof Ht as (H1 & H2 & H3 & H4 & H5).
  destruct H2 as [|(l & Hp & Hb & Hsz)]; [done|].
  destruct (Z.eqb_spec (send_slip_escape s) 0) as [He|He]; cbn [negb].
  - rewrite Hp. destruct l as [|v l]; [cbn in Hsz; lia|]. cbn [rd8 length drop] in *. rewrite !outcome_bind_ret, drop_0.
    apply Forall_cons in Hb as [Hv Hb].
    set (s1 := set_send_crc (ubcsp_calc_crc v (send_crc (set_send_ptr (Some l) s))) (set_send_ptr (Some l) s)).
    assert (∀ x, x = SLIP_ESCAPE_FRAME ∨ x = SLIP_ESCAPE_ESCAPE →
      ∃ r, Ret (if send_slip_escape (set_send_slip_escape x s1) =? 0 then count_octet [SLIP_ESCAPE] (set_send_slip_escape x s1)
         else ([SLIP_ESCAPE], 0, UBCSP_POLL_TIME_IMMEDIATE, set_send_slip_escape x s1)) = Ret r ∧ sent_ok 2 r) as Hesc.
    { intros x Hx. eexists. split; [done|]. assert (x ≠ 0) by (destruct Hx as [-> | ->]; discriminate).
      subst s1. destruct s. unfold engine_ok, link_ok, tx_ok, rx_ok, sent_ok in *. fields. rewrite (proj2 (Z.eqb_neq x 0)) by done.
      subst. split_and!; try tauto; try poll_time.
      - repeat constructor; unfold byte_ok, SLIP_ESCAPE; lia.
      - unfold engine_ok, link_ok, tx_ok, rx_ok. fields. rewrite (proj2 (Z.eqb_neq x 0)) by done. split_and!; try tauto; try lia.
        right. exists l. split_and!; [done..|lia]. }
    unfold ubcsp_put_slip_uart. destruct (v =? SLIP_FRAME); [by apply Hesc; left|].
    destruct (v =? SLIP_ESCAPE); [by apply Hesc; right|].
    assert (send_slip_escape s1 = 0) as He1 by (subst s1; by destruct s). rewrite He1. change (0 =? 0) with true.
    eexists. split; [done|].
    apply count_octet_ok; [by constructor|cbn; lia|done| | | | |]; subst s1; destruct s;
      unfold engine_ok, link_ok, tx_ok, rx_ok in *; fields; subst; try done; try lia.
    + exists l. split_and!; [done..|lia].
    + split_and!; try tauto; lia.
  - rewrite outcome_bind_ret. set (s1 := set_send_slip_escape 0 s).
    assert (send_slip_escape s1 = 0) as He1 by (subst s1; by destruct s). rewrite He1. change (0 =? 0) with true.
    eexists. split; [done|].
    apply count_octet_ok; [|cbn; lia|done| | | | |].
    + constructor; [|constructor]. destruct H3 as [?|[-> | ->]]; [done|unfold byte_ok, SLIP_ESCAPE_FRAME, SLIP_ESCAPE_ESCAPE; lia..].
    + subst s1. destruct s; fields. lia.
    + subst s1. by destruct s.
    + exists l. subst s1. by destruct s.
    + subst s1. destruct s; unfold tx_ok in *; fields. split_and!; try tauto; lia.
    + subst s1. by destruct s.
Qed.

(** Setting up a frame: four octets of header, and a block of [len2]. *)
Lemma setup_packet_ok part1 calc part2 len2 s :
  engine_ok s → length part1 = 4%nat → Forall byte_ok part1 → 0 ≤ len2 →
  match part2 with Some l => len2 ≤ Z.of_nat (length l) ∧ Forall byte_ok l | None => True end →
  engine_ok (ubcsp_setup_packet part1 calc part2 len2 s).
Proof.
  intros (Hl & Ht & Hr) H4 Hb Hn Hp.
  assert (∃ h, (if calc then header_checksum part1 else part1) = h ∧ length h = 4%nat ∧ Forall byte_ok h) as (h & Hh & Hhl & Hhb).
  { destruct calc; [|by eexists]. destruct part1 as [|a [|b [|c [|d [|]]]]]; try done. eexists. split; [done|]. split; [done|].
    rewrite !Forall_cons in Hb. apply header_checksum_sum; tauto. }
  unfold ubcsp_setup_packet. rewrite Hh. destruct s. unfold engine_ok, link_ok, tx_ok, rx_ok in *. fields.
  split_and!; try tauto; try lia.
  - right. exists h. split_and!; [done..|]. destruct (_ =? 0); lia.
  - destruct part2; [done|]. discriminate.
Qed.

Lemma row_ok i row : 0 ≤ i < 4 → table_at ubcsp_le_buffer i = Ret row → length row = 4%nat ∧ Forall byte_ok row.
Proof.
  intros Hi H. assert (i = 0 ∨ i = 1 ∨ i = 2 ∨ i = 3) as [-> |[-> |[-> | ->]]] by lia; vm_compute in H; injection H as <-.
  all: split; [done|]; repeat constructor; unfold byte_ok; lia.
Qed.

Lemma engine_ok_resp v s : 0 ≤ v ≤ 2 → engine_ok s → engine_ok (set_link_establishment_resp v s).
Proof. intros Hv (Hl & Ht & Hr). destruct s. unfold engine_ok, link_ok, tx_ok, rx_ok in *. fields. tauto. Qed.

Lemma engine_ok_ack v s : engine_ok s → engine_ok (set_send_ack v s).
Proof. intros (Hl & Ht & Hr). destruct s. unfold engine_ok, link_ok, tx_ok, rx_ok in *. fields. tauto. Qed.

Lemma engine_ok_delay v s : 0 ≤ v ≤ 25 → engine_ok s → engine_ok (set_delay v s).
Proof. intros Hv (Hl & Ht & Hr). destruct s. unfold engine_ok, link_ok, tx_ok, rx_ok in *. fields. tauto. Qed.

Lemma le_header_ok : Forall byte_ok ubcsp_send_le_header.
Proof. repeat constructor; unfold byte_ok; lia. Qed.

Lemma send_start_ok s :
  engine_ok s → ∃ out d s', send_start s = Ret (out, d, s') ∧ sent_ok 2 (out, 0, d, s').
Proof.
  intros Hs. unfold send_start. assert (Hframe : ∀ s', engine_ok s' → sent_ok 2 ([SLIP_FRAME], 0, UBCSP_POLL_TIME_IMMEDIATE, s')).
  { intros s' Hs'. split; [exact frame_byte|]. split; [cbn; lia|]. split; [poll_time|done]. }
  destruct (negb (Z.land (link_establishment_resp s) 2 =? 0)).
  - eexists _, _, _. split; [reflexivity|]. apply Hframe, engine_ok_resp; [lia|].
    apply setup_packet_ok; [done|done|apply le_header_ok|lia|].
    split; [cbn; lia|]. repeat constructor; unfold byte_ok; lia.
  - destruct (send_packet s) as [p|] eqn:Hp; [|destruct (negb (send_ack s =? 0))].
    + eexists _, _, _. split; [reflexivity|]. apply Hframe, engine_ok_ack.
      destruct (packet_header_ok p (ack_number s) (sequence_number s)) as [H1 H2].
      assert (sending_ok p) as [H3 H4]. { destruct Hs as (Hl & _). unfold link_ok in Hl. rewrite Hp in Hl. tauto. }
      apply setup_packet_ok; [done|exact H1|exact H2|done|]. by destruct (payload p).
    + eexists _, _, _. split; [reflexivity|]. apply Hframe, engine_ok_ack.
      destruct (ack_header_ok (ack_number s)) as [H1 H2]. apply setup_packet_ok; [done|exact H1|exact H2|lia|done].
    + eexists _, _, _. split; [reflexivity|]. split; [constructor|]. split; [cbn; lia|]. split; [poll_time|done].
Qed.

Lemma send_le_ok s :
  engine_ok s → link_establishment_packet s ≠ ubcsp_le_none →
  ∃ out s', send_le s = Ret (out, s') ∧ Forall byte_ok out ∧ (length out ≤ 2)%nat ∧ engine_ok s'.
Proof.
  intros Hs Hne. pose proof Hs as ((H1 & H2 & H3 & _) & _). unfold send_le. unfold ubcsp_le_none in Hne.
  destruct (table_at ubcsp_le_buffer (link_establishment_packet s)) as [row| |] eqn:Hrow.
  2,3: exfalso; assert (link_establishment_packet s = 0 ∨ link_establishment_packet s = 1 ∨ link_establishment_packet s = 2 ∨
    link_establishment_packet s = 3) as [E|[E|[E|E]]] by lia; by rewrite E in Hrow.
  rewrite outcome_bind_ret. destruct (row_ok (link_establishment_packet s) row ltac:(lia) Hrow) as [R1 R2].
  set (s1 := set_delay 0 _).
  assert (link_establishment_state s1 = link_establishment_state s ∧ link_establishment_resp s1 = link_establishment_resp s) as [-> ->]
    by (subst s1; by destruct s).
  assert (∃ next, table_at next_le_packet (link_establishment_state s + link_establishment_resp s * 4) = Ret next ∧ 0 ≤ next ≤ 4)
    as (next & -> & Hnext).
  { assert (link_establishment_state s = 0 ∨ link_establishment_state s = 1 ∨ link_establishment_state s = 2) as [-> |[-> | ->]] by lia;
    assert (link_establishment_resp s = 0 ∨ link_establishment_resp s = 1 ∨ link_establishment_resp s = 2) as [-> |[-> | ->]] by lia;
    (eexists; split; [vm_compute; reflexivity|split; discriminate]). }
  rewrite outcome_bind_ret. eexists _, _. split; [done|]. split; [exact frame_byte|]. split; [cbn; lia|].
  apply engine_ok_resp; [lia|].
  assert (engine_ok s1) as Hs1.
  { apply engine_ok_delay; [lia|]. apply setup_packet_ok; [done|done|apply le_header_ok|lia|]. split; [lia|done]. }
  destruct Hs1 as (Hl & Ht & Hr). destruct s1. unfold engine_ok, link_ok, tx_ok, rx_ok in *. fields. tauto.
Qed.

(** ** Receiving *)

Lemma le_row_matches_total pay row : (length row ≤ length pay)%nat → ∃ b, le_row_matches pay row = Ret b.
Proof.
  revert pay. induction row as [|r row IH]; intros pay Hl; cbn in *; [by eexists|].
  destruct pay as [|v pay]; cbn in Hl; [lia|]. cbn [rd8]. rewrite outcome_bind_ret. destruct (v =? r); [|by eexists].
  apply IH. rewrite length_drop. cbn [length]. lia.
Qed.

Lemma which_le_total pay : (4 ≤ length pay)%nat → ∃ n, ubcsp_which_le_payload pay = Ret n.
Proof.
  intros Hl. unfold ubcsp_which_le_payload.
  assert (Forall (λ row, length row = 4%nat) ubcsp_le_buffer) as HF by repeat constructor.
  generalize 0. induction HF as [|row rows Hrow _ IH]; intros n; cbn [which_le_loop]; [by eexists|].
  destruct (le_row_matches_total pay row) as [b ->]; [cbv beta in Hrow; lia|]. rewrite outcome_bind_ret. destruct b; [by eexists|apply IH].
Qed.

Lemma header_length_nonneg h : Forall byte_ok h → 0 ≤ header_length h.
Proof.
  intros Hh. assert (∀ i, 0 ≤ header_at h i) as H.
  { intros i. unfold header_at. destruct (nth_in_or_default i h 0) as [Hin| ->]; [|lia].
    rewrite Forall_forall in Hh. apply list_elem_of_In in Hin. by apply Hh in Hin as [? _]. }
  Transparent header_length. unfold header_length. Opaque header_length.
  apply Z.lor_nonneg. split; [apply Z.shiftr_nonneg, Z.land_nonneg; left; apply H|apply Z.shiftl_nonneg, H].
Qed.

Lemma check_frame_total h pay index :
  Forall byte_ok h → 0 ≤ index ≤ Z.of_nat (length pay) →
  ∃ b i, check_frame h pay index = Ret (b, i) ∧ 0 ≤ i ≤ index.
Proof.
  intros Hh Hi. unfold check_frame. destruct (negb (header_crc h =? 0)); [|eexists _, _; split; [done|lia]].
  destruct (Z.eqb_spec (header_length h + 2) index) as [E|E]; cbn [negb]; [|eexists _, _; split; [done|lia]].
  pose proof (header_length_nonneg h Hh) as Hn. rewrite rd_ok, outcome_bind_ret by lia.
  assert (∀ k, 0 ≤ k < Z.of_nat (length pay) → ∃ v, rd8 (adv k pay) = Ret v) as Hrd.
  { intros k Hk. unfold adv. destruct (drop (Z.to_nat k) pay) as [|v l] eqn:Ed; [|by eexists].
    apply (f_equal length) in Ed. rewrite length_drop in Ed. cbn in Ed. lia. }
  destruct (Hrd (index - 2) ltac:(lia)) as [v ->]. rewrite outcome_bind_ret.
  destruct (negb _); [eexists _, _; split; [done|lia]|].
  destruct (Hrd (index - 2 + 1) ltac:(lia)) as [v' ->]. rewrite outcome_bind_ret. eexists _, _. split; [done|lia].
Qed.

(** What receiving leaves: the link and the sender's fields in order, and a
    packet handed up leaves no buffer behind. *)
Definition received_ok (r : Z * option ubcsp_packet * ubcsp_configuration) : Prop :=
  let '(act, up, s) := r in
  engine_ok s ∧ match up with Some q => receive_packet s = None ∧ is_Some (payload q) | None => True end.

Lemma take_ack_ok ack s : engine_ok s → engine_ok (take_ack ack s).2 ∧ receive_packet (take_ack ack s).2 = receive_packet s.
Proof.
  intros (Hl & Ht & Hr). unfold take_ack. destruct (send_packet s) as [p|]; [|done].
  destruct (_ && _); [|done]. cbn [fst snd]. split; [|by destruct s].
  pose proof (Z.mod_pos_bound (sequence_number s + 1) 8 ltac:(lia)).
  destruct s. unfold engine_ok, link_ok, tx_ok, rx_ok in *. fields. split_and!; try tauto; lia.
Qed.

Lemma le_frame_ok pay act s :
  (4 ≤ length pay)%nat → engine_ok s → ∃ a s', le_frame pay act s = Ret (a, s') ∧ engine_ok s'.
Proof.
  intros Hp Hs. unfold le_frame. destruct (which_le_total pay Hp) as [n ->]. rewrite outcome_bind_ret.
  assert (engine_ok (set_delay 0 s)) as (Hl & Ht & Hr) by (apply engine_ok_delay; [lia|done]).
  set (s1 := set_delay 0 s) in *. clearbody s1. clear s Hs.
  destruct s1 as [le resp lep seq ack sa sp rp rh rse ri need sc sse ptr sz nptr nsz d]. unfold engine_ok, link_ok, tx_ok, rx_ok in *. fields.
  unfold ubcsp_initialize, ubcsp_le_active, ubcsp_le_initialized, ubcsp_le_uninitialized, ubcsp_le_sync.
  repeat match goal with |- context [if ?b then _ else _] =>
    lazymatch b with (sse =? 0) => fail | _ => destruct b end end.
  all: eexists _, _; (split; [reflexivity|]); fields; split_and!; try tauto; try lia.
  all: destruct rp; [|done]; split_and!; try tauto; lia.
Qed.

Lemma engine_ok_reset s : engine_ok s → engine_ok (set_receive_index (-4) s).
Proof.
  intros (Hl & Ht & Hr). destruct s as [? ? ? ? ? ? ? rp ? ? ? ? ? ? ? ? ? ? ?]. unfold engine_ok, link_ok, tx_ok, rx_ok in *. fields.
  split_and!; try tauto; try lia. destruct rp; [|done]. split; [tauto|lia].
Qed.

Lemma engine_ok_gone s : engine_ok s → engine_ok (set_receive_index (-4) (set_receive_packet None s)).
Proof.
  intros (Hl & Ht & Hr). destruct s. unfold engine_ok, link_ok, tx_ok, rx_ok in *. fields. split_and!; try tauto; lia.
Qed.

Lemma engine_ok_next_ack s : engine_ok s → engine_ok (set_ack_number ((ack_number s + 1) mod 8) s).
Proof.
  intros (Hl & Ht & Hr). pose proof (Z.mod_pos_bound (ack_number s + 1) 8 ltac:(lia)) as Hm.
  destruct s. unfold engine_ok, link_ok, tx_ok, rx_ok in *. fields. tauto.
Qed.

Lemma engine_ok_checked p q i s :
  engine_ok s → receive_packet s = Some p → payload q = payload p → packet_length q = packet_length p →
  0 ≤ i ≤ receive_index s → engine_ok (set_receive_index i (set_receive_packet (Some q) s)).
Proof.
  intros (Hl & Ht & Hr) Hp Hq1 Hq2 Hi. destruct s. unfold engine_ok, link_ok, tx_ok, rx_ok, buffer_ok in *. fields.
  subst. rewrite Hq1, Hq2. split_and!; try tauto; lia.
Qed.

Lemma recevied_packet_ok p s :
  engine_ok s → receive_packet s = Some p → 0 ≤ receive_index s →
  ∃ r, ubcsp_recevied_packet p s = Ret r ∧ received_ok (r.1.1, r.1.2, set_receive_index (-4) r.2).
Proof.
  intros Hs Hp Hi. unfold ubcsp_recevied_packet. set (h := receive_header s) in *.
  destruct (negb (header_sum h =? 255)).
  { eexists. split; [done|]. cbn. split; [|done]. by apply engine_ok_reset, engine_ok_ack. }
  pose proof Hs as (Hl & Ht & Hr). destruct Hr as (R1 & R2 & R3 & R4 & R5). rewrite Hp in R5.
  destruct R5 as ((blk & Hblk & Hb4 & Hcap) & Hidx). rewrite Hblk. change (default [] (Some blk)) with blk.
  set (q := set_channel (header_channel h) (set_reliable (header_reliable h) p)).
  change (receive_index (set_receive_packet (Some q) s)) with (receive_index s).
  destruct (check_frame_total h blk (receive_index s) R2 ltac:(lia)) as (b & i & -> & Hii). rewrite outcome_bind_ret. cbn [fst snd].
  set (s1 := set_receive_index i (set_receive_packet (Some q) s)).
  assert (payload q = Some blk ∧ packet_length q = packet_length p) as [Hq1 Hq2] by done.
  assert (engine_ok s1) as Hs1.
  { by apply (engine_ok_checked p). }
  destruct b; cbn [negb].
  2: { eexists. split; [done|]. split; [|done]. by apply engine_ok_reset, engine_ok_ack. }
  destruct (take_ack_ok (header_ack h) s1 Hs1) as [Hs2 Hrp]. destruct (take_ack (header_ack h) s1) as [act s2]. cbn [snd] in *.
  change (receive_packet s1) with (Some q) in Hrp.
  destruct (channel q =? 1).
  { destruct (le_frame_ok blk act s2 ltac:(lia) Hs2) as (a & s3 & -> & Hs3). rewrite outcome_bind_ret.
    eexists. split; [done|]. split; [|done]. by apply engine_ok_reset. }
  eexists. split; [done|]. unfold data_frame.
  destruct (_ && _); [|split; [by apply engine_ok_reset|done]].
  destruct (negb (reliable q =? 0)); [|split; [by apply engine_ok_gone|by split; [|eexists]]].
  assert (engine_ok (set_send_ack 1 s2)) as Hs3 by (by apply engine_ok_ack).
  destruct (_ =? ack_number _); [|split; [by apply engine_ok_reset|done]].
  split; [|by split; [|eexists]]. by apply engine_ok_gone, engine_ok_next_ack.
Qed.

Lemma take_ack_escape ack s : receive_slip_escape (take_ack ack s).2 = receive_slip_escape s.
Proof. unfold take_ack. destruct (send_packet s); [|done]. destruct (_ && _); [|done]. by destruct s. Qed.

Lemma le_frame_escape pay act s a s' : le_frame pay act s = Ret (a, s') → receive_slip_escape s' = receive_slip_escape s.
Proof.
  unfold le_frame. destruct (ubcsp_which_le_payload pay) as [n| |]; [|done..]. rewrite outcome_bind_ret.
  repeat match goal with |- context [if ?b then _ else _] => destruct b end; intros [= <- <-]; by destruct s.
Qed.

Lemma data_frame_escape p len seq act s : receive_slip_escape (data_frame p len seq act s).2 = receive_slip_escape s.
Proof.
  unfold data_frame. destruct (_ && _); [|done]. destruct (negb _); [|by destruct s]. destruct (_ =? _); by destruct s.
Qed.

Lemma recevied_packet_escape p s act up s' :
  ubcsp_recevied_packet p s = Ret (act, up, s') → receive_slip_escape s' = receive_slip_escape s.
Proof.
  unfold ubcsp_recevied_packet. destruct (negb _); [intros [= <- <- <-]; by destruct s|].
  destruct (check_frame _ _ _) as [[b i]| |]; [|done..]. rewrite outcome_bind_ret. cbn [fst snd].
  set (q := set_channel _ _). set (s1 := set_receive_index i (set_receive_packet (Some q) s)).
  assert (receive_slip_escape s1 = receive_slip_escape s) as Es by (subst s1; by destruct s). rewrite <- Es.
  destruct (negb b); [intros [= <- <- <-]; by destruct s1|].
  pose proof (take_ack_escape (header_ack (receive_header s)) s1) as Ht. rewrite <- Ht.
  destruct (take_ack _ s1) as [a s2]. cbn [snd]. destruct (channel q =? 1).
  - destruct (le_frame _ a s2) as [[a' s3]| |] eqn:El; [|done..]. rewrite outcome_bind_ret. intros [= <- <- <-].
    by apply le_frame_escape in El.
  - pose proof (data_frame_escape q (header_length (receive_header s)) (header_seq (receive_header s)) a s2) as Hd.
    intros H. injection H as H. by rewrite H in Hd.
Qed.

Lemma wr_one mem off v : 0 ≤ off < Z.of_nat (length mem) → Forall byte_ok mem → byte_ok v →
  ∃ mem', wr mem off [v] = Ret mem' ∧ length mem' = length mem ∧ Forall byte_ok mem'.
Proof.
  intros Ho Hm Hv. unfold wr. rewrite decide_True by (cbn [length]; lia). eexists. split; [done|]. split.
  - rewrite !length_app, length_take, length_drop. cbn [length]. lia.
  - rewrite !Forall_app. split; [by apply Forall_take|]. split; [by constructor|by apply Forall_drop].
Qed.

Lemma wr_one_length mem off v : 0 ≤ off < Z.of_nat (length mem) → ∃ mem', wr mem off [v] = Ret mem' ∧ length mem' = length mem.
Proof.
  intros Ho. unfold wr. rewrite decide_True by (cbn [length]; lia). eexists. split; [done|].
  rewrite !length_app, length_take, length_drop. cbn [length]. lia.
Qed.

Lemma store_octet_ok v p s :
  engine_ok s → receive_packet s = Some p → byte_ok v →
  ∃ s', store_octet v p s = Ret s' ∧ engine_ok s' ∧ receive_slip_escape s' = receive_slip_escape s.
Proof.
  intros (Hl & Ht & Hr) Hp Hv. unfold store_octet. pose proof Hr as (R1 & R2 & R3 & R4 & R5). rewrite Hp in R5.
  destruct R5 as ((blk & Hblk & Hb4 & Hcap) & Hidx).
  destruct (Z.ltb_spec (receive_index s) 0) as [Hneg|Hpos].
  - destruct (wr_one (receive_header s) (receive_index s + 4) v) as (h & -> & H1 & H2); [lia|done|done|].
    rewrite outcome_bind_ret. eexists. split; [done|]. split; [|by destruct s].
    destruct s. unfold engine_ok, link_ok, tx_ok, rx_ok in *. fields. subst. split_and!; try tauto; try lia.
  - destruct (Z.ltb_spec (receive_index s) (packet_length p)) as [Hlt|Hge].
    + rewrite Hblk. change (default [] (Some blk)) with blk.
      destruct (wr_one_length blk (receive_index s) v ltac:(lia)) as (m & -> & Hm). rewrite outcome_bind_ret.
      eexists. split; [done|]. split; [|by destruct s].
      destruct s. unfold engine_ok, link_ok, tx_ok, rx_ok in *. fields. subst.
      change (packet_length (set_payload (Some m) p)) with (packet_length p).
      split_and!; try tauto; try lia. exists m. change (packet_length (set_payload (Some m) p)) with (packet_length p).
      split; [done|]. lia.
    + eexists. split; [done|]. done.
Qed.

Lemma engine_ok_escape v s : v = 0 ∨ v = 1 → engine_ok s → engine_ok (set_receive_slip_escape v s).
Proof. intros Hv (Hl & Ht & Hr). destruct s. unfold engine_ok, link_ok, tx_ok, rx_ok in *. fields. tauto. Qed.

Lemma receive_octet_ok v uart act p s :
  engine_ok s → receive_packet s = Some p → byte_ok v → escapes_ok (receive_slip_escape s) (v :: uart) →
  ∃ act' up s', receive_octet v act p s = Ret (act', up, s') ∧ received_ok (act', up, s') ∧
    escapes_ok (receive_slip_escape s') uart.
Proof.
  intros Hs Hp Hv He. unfold receive_octet. cbn [escapes_ok] in He.
  destruct (Z.eqb_spec (receive_slip_escape s) 0) as [E|E]; cbn [negb].
  - destruct (Z.eqb_spec v SLIP_FRAME) as [->|H1]; [|destruct (Z.eqb_spec v SLIP_ESCAPE) as [->|H2]].
    + destruct (Z.leb_spec 0 (receive_index s)) as [Hi|Hi].
      * destruct (recevied_packet_ok p s Hs Hp Hi) as ([[a up] s'] & Hr & Hok & Hup). cbn [fst snd] in *.
        pose proof (recevied_packet_escape p s) as Hesc. rewrite Hr in Hesc |- *. rewrite outcome_bind_ret.
        eexists _, _, _. split; [done|]. specialize (Hesc _ _ _ eq_refl).
        destruct (negb (Z.land (Z.lor act a) UBCSP_PACKET_ACK =? 0)); cbv zeta iota.
        -- split; [split|].
           ++ replace (set_receive_index (-4) (set_delay 0 s')) with (set_delay 0 (set_receive_index (-4) s')) by (by destruct s').
              apply engine_ok_delay; [lia|done].
           ++ by destruct s'.
           ++ assert (receive_slip_escape (set_receive_index (-4) (set_delay 0 s')) = receive_slip_escape s') as -> by (by destruct s').
              by rewrite Hesc, E.
        -- split; [by split|]. assert (receive_slip_escape (set_receive_index (-4) s') = receive_slip_escape s') as -> by (by destruct s').
           by rewrite Hesc, E.
      * eexists _, _, _. split; [done|]. split; [split; [by apply engine_ok_reset|done]|].
        assert (receive_slip_escape (set_receive_index (-4) s) = receive_slip_escape s) as -> by (by destruct s). by rewrite E.
    + eexists _, _, _. split; [done|]. split; [split; [by apply engine_ok_escape; [right|]|done]|].
      by assert (receive_slip_escape (set_receive_slip_escape 1 s) = 1) as -> by (by destruct s).
    + destruct (store_octet_ok v p s Hs Hp Hv) as (s' & -> & Hs' & Hes). rewrite outcome_bind_ret.
      eexists _, _, _. split; [done|]. split; [by split|]. by rewrite Hes, E.
  - destruct He as [Hx He]. assert (∃ x, table_at ubcsp_deslip (v - SLIP_ESCAPE_FRAME) = Ret x ∧ byte_ok x) as (x & -> & Hxb).
    { destruct Hx as [-> | ->]; (eexists; split; [vm_compute; reflexivity|unfold byte_ok; lia]). }
    rewrite outcome_bind_ret. destruct (store_octet_ok x p (set_receive_slip_escape 0 s)) as (s' & -> & Hs' & Hes); [|by destruct s|done|].
    { apply engine_ok_escape; [by left|done]. }
    rewrite outcome_bind_ret. eexists _, _, _. split; [done|]. split; [by split|]. rewrite Hes.
    by assert (receive_slip_escape (set_receive_slip_escape 0 s) = 0) as -> by (by destruct s).
Qed.

Lemma receive_loop_ok uart act s :
  engine_ok s → Forall byte_ok uart → escapes_ok (receive_slip_escape s) uart →
  ∃ act' up s' rest, receive_loop uart act s = Ret (act', up, s', rest) ∧ received_ok (act', up, s') ∧
    (∃ used, uart = used ++ rest) ∧ escapes_ok (receive_slip_escape s') rest.
Proof.
  intros Hs HF. revert act s Hs. induction HF as [|v uart Hv HF IH]; intros act s Hs He.
  - cbn [receive_loop]. destruct (receive_packet s); eexists _, _, _, _; (split; [done|]); (split; [by split|]);
      (split; [by exists []|done]).
  - cbn [receive_loop]. destruct (receive_packet s) as [p|] eqn:Hp.
    + destruct (receive_octet_ok v uart act p s Hs Hp Hv He) as (a & up & s1 & -> & Hok & He1). rewrite outcome_bind_ret.
      destruct up as [q|].
      * eexists _, _, _, _. split; [done|]. split; [done|]. split; [by exists [v]|done].
      * destruct (IH a s1 (proj1 Hok) He1) as (a' & up & s2 & rest & -> & H1 & (used & ->) & H2).
        eexists _, _, _, _. split; [done|]. split; [done|]. split; [by exists (v :: used)|done].
    + eexists _, _, _, _. split; [done|]. split; [by split|]. split; [by exists []|done].
Qed.

Lemma poll_receive_ok uart out act d s :
  sent_ok 2 (out, act, d, s) → Forall byte_ok uart → escapes_ok (receive_slip_escape s) uart →
  ∃ d' act' up s' rest, poll_receive uart out act d s = Ret (d', act', up, out, s', rest) ∧
    0 ≤ d' ≤ 25 ∧ received_ok (act', up, s') ∧ (∃ used, uart = used ++ rest) ∧ escapes_ok (receive_slip_escape s') rest.
Proof.
  intros (_ & _ & Hd & Hs) HF He. unfold poll_receive.
  destruct (receive_loop_ok uart act s Hs HF He) as (a & up & s1 & rest & -> & (H1 & H2) & H3 & H4). rewrite outcome_bind_ret.
  set (d' := if 0 <? delay s1 then delay s1 - 1 else d).
  assert (0 ≤ d' ≤ 25) as Hd'.
  { subst d'. destruct H1 as (Hl & _). destruct (Z.ltb_spec 0 (delay s1)); [|done]. unfold link_ok in Hl. lia. }
  eexists _, _, _, _, _. split; [reflexivity|]. split; [by destruct s1|]. split; [split; [by apply engine_ok_delay|by destruct s1]|].
  split; [done|]. by destruct s1.
Qed.

(** Sending leaves the receiver's half of the state alone. *)
Definition rx_fields (s : ubcsp_configuration) := (receive_packet s, receive_header s, receive_slip_escape s, receive_index s).

Lemma send_octet_rx s out s' : send_octet s = Ret (out, s') → rx_fields s' = rx_fields s.
Proof.
  unfold send_octet. destruct (negb _); [intros [= <- <-]; by destruct s|]. destruct (send_ptr s) as [l|]; [|done].
  destruct l as [|v l]; [done|]. cbn [rd8]. rewrite outcome_bind_ret. unfold ubcsp_put_slip_uart.
  destruct (v =? SLIP_FRAME); [intros [= <- <-]; by destruct s|]. destruct (v =? SLIP_ESCAPE); intros [= <- <-]; by destruct s.
Qed.

Lemma end_block_rx s : rx_fields (end_block s).2 = rx_fields s.
Proof.
  destruct s as [? ? ? ? ? ? sp ? ? ? ? need ? ? ? ? nx ? ?]. unfold end_block. fields. destruct nx; [done|].
  destruct (negb (need =? 0)); [done|]. unfold ubcsp_sent_packet. fields. destruct sp as [p|]; [|done]. by destruct (reliable p =? 0).
Qed.

Lemma send_next_rx s out act d s' : send_next s = Ret (out, act, d, s') → rx_fields s' = rx_fields s.
Proof.
  unfold send_next. destruct (send_octet s) as [[o s1]| |] eqn:E; [|done..]. rewrite outcome_bind_ret.
  apply send_octet_rx in E. rewrite <- E. destruct (send_slip_escape s1 =? 0); [|by intros [= <- <- <- <-]].
  unfold count_octet. set (s2 := set_send_size (send_size s1 - 1) s1).
  assert (rx_fields s2 = rx_fields s1) as <- by (subst s2; by destruct s1). destruct (send_size s2 =? 0); [|by intros [= <- <- <- <-]].
  pose proof (end_block_rx s2) as H. destruct (end_block s2) as [[[o' a] d'] s3]. by intros [= <- <- <- <-].
Qed.

Lemma send_start_rx s out d s' : send_start s = Ret (out, d, s') → rx_fields s' = rx_fields s.
Proof.
  unfold send_start. destruct (negb _); [intros [= <- <- <-]; by destruct s|].
  destruct (send_packet s); [intros [= <- <- <-]; by destruct s|]. destruct (negb _); intros [= <- <- <-]; by destruct s.
Qed.

Lemma send_le_rx s out s' : send_le s = Ret (out, s') → rx_fields s' = rx_fields s.
Proof.
  unfold send_le. destruct (table_at _ _) as [row| |]; [|done..]. rewrite outcome_bind_ret.
  destruct (table_at _ _) as [n| |]; [|done..]. rewrite outcome_bind_ret. intros [= <- <-]. by destruct s.
Qed.

(** C33: The engine stays well typed: whatever well-formed octets arrive, a poll
    completes without an access outside a table, a buffer or a block being
    sent, puts at most two octets on the line, and keeps every field of the
    engine in its range: link establishment state and packet, three-bit
    numbers, delay, receive index within the host's buffer. *)
Theorem poll_well_typed (uart : list Z) (s : ubcsp_configuration)
    (Hs : engine_ok s) (Huart : Forall byte_ok uart) (Hesc : escapes_ok (receive_slip_escape s) uart) :
  ∃ d act up out s' rest, ubcsp_poll uart s = Ret (d, act, up, out, s', rest) ∧ engine_ok s' ∧
    0 ≤ d ≤ 25 ∧ Forall byte_ok out ∧ (length out ≤ 2)%nat ∧
    match up with Some q => receive_packet s' = None ∧ is_Some (payload q) | None => True end ∧
    (∃ used, uart = used ++ rest) ∧ escapes_ok (receive_slip_escape s') rest.
Proof.
  assert (Hfinish : ∀ out act d s1, sent_ok 2 (out, act, d, s1) → rx_fields s1 = rx_fields s →
    ∃ d' act' up s' rest, poll_receive uart out act d s1 = Ret (d', act', up, out, s', rest) ∧
    0 ≤ d' ≤ 25 ∧ received_ok (act', up, s') ∧ (∃ used, uart = used ++ rest) ∧ escapes_ok (receive_slip_escape s') rest).
  { intros out act d s1 H1 H2. apply poll_receive_ok; [done..|]. unfold rx_fields in H2. congruence. }
  unfold ubcsp_poll. destruct (delay s =? 0).
  - destruct (Z.eqb_spec (send_size s) 0) as [Hz|Hz]; cbn [negb]; [destruct (Z.eqb_spec (link_establishment_packet s) ubcsp_le_none) as [El|El]|].
    + destruct (send_start_ok s Hs) as (out & d & s1 & Hst & Hok). pose proof (send_start_rx _ _ _ _ Hst) as Hrx.
      rewrite Hst, outcome_bind_ret. destruct (Hfinish _ _ _ _ Hok Hrx) as (d' & a & up & s' & rest & -> & H1 & [H2 H3] & H4 & H5).
      destruct Hok as (O1 & O2 & _). by eexists _, _, _, _, _, _.
    + destruct (send_le_ok s Hs El) as (out & s1 & Hle & O1 & O2 & Hok). pose proof (send_le_rx _ _ _ Hle) as Hrx.
      rewrite Hle, outcome_bind_ret. cbn [fst snd]. eexists _, _, _, _, _, _. split; [done|]. split; [done|]. split; [lia|].
      split; [done|]. split; [done|]. split; [done|]. split; [by exists []|]. unfold rx_fields in Hrx. congruence.
    + destruct (send_next_ok s Hs Hz) as ([[[out act] d] s1] & Hnx & Hok). pose proof (send_next_rx _ _ _ _ _ Hnx) as Hrx.
      rewrite Hnx, outcome_bind_ret. destruct (Hfinish _ _ _ _ Hok Hrx) as (d' & a & up & s' & rest & -> & H1 & [H2 H3] & H4 & H5).
      destruct Hok as (O1 & O2 & _). by eexists _, _, _, _, _, _.
  - destruct (Hfinish [] 0 UBCSP_POLL_TIME_IMMEDIATE s) as (d' & a & up & s' & rest & -> & H1 & [H2 H3] & H4 & H5); [|done|].
    + split; [constructor|]. split; [cbn; lia|]. split; [poll_time|done].
    + eexists _, _, _, _, _, _. split; [done|]. split; [done|]. split; [done|]. split; [constructor|]. split; [cbn; lia|]. done.
Qed.

Lemma poll_well_typed_witness :
  ∃ d act out s' rest, ubcsp_poll [192; 64; 219; 220] (ubcsp_receive_packet example_buffer example_engine) =
    Ret (d, act, None, out, s', rest) ∧ engine_ok s'.
Proof.
  destruct (poll_well_typed [192; 64; 219; 220] (ubcsp_receive_packet example_buffer example_engine))
    as (d & act & up & out & s' & rest & H1 & H2 & _).
  - split; [vm_compute; repeat split; discriminate|]. split.
    + split; [cbn; lia|]. split; [by left|]. split; [by left|]. by split; [cbn; lia|].
    + split; [done|]. split; [repeat constructor; unfold byte_ok; lia|]. split; [cbn; lia|]. split; [by left|]. split; [|cbn; lia].
      eexists. split; [reflexivity|]. cbn. lia.
  - repeat constructor; unfold byte_ok; lia.
  - vm_compute. by repeat split; left.
  - exists d, act, out, s', rest. split; [|done]. rewrite H1. vm_compute in H1. by injection H1 as _ _ <- _ _ _.
Defined.

(** * Two ways to lose the link

    A packet of length 0 with a payload pointer ends its frame before the
    checksum: the engine sends header after header and never the packet. *)
Definition stuck (p : ubcsp_packet) (s : ubcsp_configuration) : Prop :=
  send_packet s = Some p ∧ link_establishment_packet s = ubcsp_le_none ∧ Z.land (link_establishment_resp s) 2 = 0 ∧
  delay s = 0 ∧
  ((send_size s = 0 ∧ send_slip_escape s = 0) ∨
   (0 < send_size s ∧ next_send_ptr s = Some [] ∧ next_send_size s = 0 ∧ ∃ l, send_ptr s = Some l ∧
      send_size s - (if send_slip_escape s =? 0 then 0 else 1) ≤ Z.of_nat (length l))).

Lemma stuck_count p out s :
  send_slip_escape s = 0 → 0 < send_size s → send_packet s = Some p → link_establishment_packet s = ubcsp_le_none →
  Z.land (link_establishment_resp s) 2 = 0 → delay s = 0 → next_send_ptr s = Some [] → next_send_size s = 0 →
  (∃ l, send_ptr s = Some l ∧ send_size s - 1 ≤ Z.of_nat (length l)) →
  ∃ out' s', count_octet out s = (out', 0, UBCSP_POLL_TIME_IMMEDIATE, s') ∧ stuck p s'.
Proof.
  intros He Hn Hp Hle Hr Hd Hnp Hns (l & Hl & Hsz). unfold count_octet.
  destruct s as [le resp lep seq ack sa sp rp rh rse ri need sc sse ptr sz nptr nsz d]. fields. subst.
  destruct (Z.eqb_spec (sz - 1) 0) as [E|E].
  - unfold end_block. fields. eexists _, _. split; [done|]. unfold stuck. fields. split_and!; try done. by left.
  - eexists _, _. split; [done|]. unfold stuck. fields. split_and!; try done. right. split_and!; try done; [lia|].
    exists l. split; [done|]. change (0 =? 0) with true. cbv iota. lia.
Qed.

Lemma stuck_escape p x l s :
  x ≠ 0 → send_packet s = Some p → link_establishment_packet s = ubcsp_le_none →
  Z.land (link_establishment_resp s) 2 = 0 → delay s = 0 → 0 < send_size s → next_send_ptr s = Some [] → next_send_size s = 0 → send_ptr s = Some l →
  send_size s - 1 ≤ Z.of_nat (length l) → stuck p (set_send_slip_escape x s).
Proof.
  intros Hx Hp Hle Hr Hd Hn Hnp Hns Hl Hsz. destruct s. unfold stuck. fields.
  rewrite (proj2 (Z.eqb_neq x 0)) by done. split_and!; try done. right. split_and!; try done. by exists l.
Qed.

Lemma stuck_send p s : stuck p s → send_size s ≠ 0 →
  ∃ out s', send_next s = Ret (out, 0, UBCSP_POLL_TIME_IMMEDIATE, s') ∧ stuck p s'.
Proof.
  intros Hst Hne. pose proof Hst as (Hp & Hle & Hr & Hd & [[Hz _]|(Hn & Hnp & Hns & l & Hl & Hsz)]); [done|].
  unfold send_next, send_octet. destruct (Z.eqb_spec (send_slip_escape s) 0) as [He|He]; cbn [negb].
  - rewrite Hl. destruct l as [|v l]; [cbn in Hsz; lia|]. cbn [rd8 drop length] in *. rewrite !outcome_bind_ret, drop_0.
    set (s1 := set_send_crc (ubcsp_calc_crc v (send_crc (set_send_ptr (Some l) s))) (set_send_ptr (Some l) s)).
    assert (send_slip_escape s1 = 0 ∧ send_size s1 = send_size s ∧ send_packet s1 = Some p ∧
      link_establishment_packet s1 = ubcsp_le_none ∧ Z.land (link_establishment_resp s1) 2 = 0 ∧ delay s1 = 0 ∧
      next_send_ptr s1 = Some [] ∧ next_send_size s1 = 0 ∧ send_ptr s1 = Some l) as (F1 & F2 & F3 & F4 & F5 & F6 & F7 & F8 & F9)
      by (subst s1; by destruct s).
    assert (Hesc : ∀ x, x ≠ 0 → stuck p (set_send_slip_escape x s1)).
    { intros x Hx. apply (stuck_escape p x l); done || lia. }
    unfold ubcsp_put_slip_uart. destruct (v =? SLIP_FRAME); [|destruct (v =? SLIP_ESCAPE)].
    + eexists _, _. split; [|by apply (Hesc SLIP_ESCAPE_FRAME)]. by destruct s.
    + eexists _, _. split; [|by apply (Hesc SLIP_ESCAPE_ESCAPE)]. by destruct s.
    + rewrite F1. change (0 =? 0) with true. cbv iota.
      destruct (stuck_count p [v] s1) as (o & s' & -> & Hs'); try done; [exists l; rewrite F2; split; [done|lia]|]. by eexists _, _.
  - rewrite outcome_bind_ret. set (s1 := set_send_slip_escape 0 s).
    assert (send_slip_escape s1 = 0 ∧ send_size s1 = send_size s ∧ send_packet s1 = Some p ∧
      link_establishment_packet s1 = ubcsp_le_none ∧ Z.land (link_establishment_resp s1) 2 = 0 ∧ delay s1 = 0 ∧
      next_send_ptr s1 = Some [] ∧ next_send_size s1 = 0 ∧ send_ptr s1 = Some l) as (F1 & F2 & F3 & F4 & F5 & F6 & F7 & F8 & F9)
      by (subst s1; by destruct s).
    rewrite F1. change (0 =? 0) with true. cbv iota.
    destruct (stuck_count p [send_slip_escape s] s1) as (o & s' & -> & Hs'); try done; [exists l; rewrite F2; split; [done|lia]|].
    by eexists _, _.
Qed.

Lemma stuck_poll p s :
  payload p = Some [] → packet_length p = 0 → stuck p s →
  ∃ out s', ubcsp_poll [] s = Ret (0, 0, None, out, s', []) ∧ stuck p s'.
Proof.
  intros Hpay Hlen Hst. assert (Hsame : ∀ s', stuck p s' → delay s' = 0 ∧ set_delay 0 s' = s').
  { intros s' (_ & _ & _ & Hd & _). split; [done|]. rewrite <- Hd at 1. apply set_delay_same. }
  destruct (Hsame s Hst) as [Hd _]. destruct (decide (send_size s = 0)) as [Hz|Hz].
  - pose proof Hst as (Hp & Hle & Hr & _ & [[_ He]|(Hn & _)]); [|lia].
    set (s1 := set_frame (header_checksum (packet_header p (ack_number s) (sequence_number s))) (Some []) 0 s).
    assert (send_start s = Ret ([SLIP_FRAME], 0, s1)) as Hstart.
    { unfold send_start. rewrite Hr, Hp, Hpay, Hlen. done. }
    assert (stuck p s1) as Hst1.
    { subst s1. destruct s. unfold stuck. fields. subst. split_and!; try done. right.
      split_and!; try done. eexists. split; [reflexivity|]. change (0 =? 0) with true. cbv iota.
      assert (∀ h, length h = 4%nat → 4 - 0 ≤ Z.of_nat (length (header_checksum h))) as H4.
      { intros [|a [|b [|c [|d [|]]]]] Hl; try done. }
      by apply H4. }
    destruct (Hsame s1 Hst1) as [Hd1 Hs1]. eexists _, s1. split; [|done].
    rewrite (poll_start s _ _ _ Hd Hz Hle Hstart Hd1). by rewrite Hs1.
  - destruct (stuck_send p s Hst Hz) as (out & s1 & Hnx & Hst1). destruct (Hsame s1 Hst1) as [Hd1 Hs1].
    eexists _, s1. split; [|done]. rewrite (poll_send s _ _ _ _ Hd Hz Hnx Hd1). unfold UBCSP_POLL_TIME_IMMEDIATE. by rewrite Hs1.
Qed.

(** An empty packet given with a payload pointer is never sent: however often
    the engine polls, it reports nothing and still has the packet. *)
Theorem empty_packet_never_sent (p : ubcsp_packet) (s : ubcsp_configuration) (n : nat)
    (Hs : ready s) (Hp : send_packet s = Some p) (Hpay : payload p = Some []) (Hlen : packet_length p = 0) :
  ∃ out s', polls n s = Ret (out, 0, s') ∧ send_packet s' = Some p.
Proof.
  assert (stuck p s) as Hst by (unfold ready in Hs; split_and!; try tauto).
  clear Hs Hp. revert s Hst. induction n as [|n IH]; intros s Hst.
  - exists [], s. split; [done|]. apply Hst.
  - destruct (stuck_poll p s Hpay Hlen Hst) as (out & s1 & Hpoll & Hst1). destruct (IH s1 Hst1) as (out' & s2 & Hn & Hp2).
    exists (out ++ out'), s2. split; [|done]. by rewrite (polls_S s _ _ _ _ _ _ n _ _ _ Hpoll Hn).
Qed.

(** A packet acknowledged while it is being sent again, and its successor: the
    poll that reports [UBCSP_PACKET_SENT] has put an escape on the line, the
    host hands over the next packet, and the marker of its frame follows the
    escape. The receiver looks the marker up in its table of two. *)
Definition resending : outcome (list Z * ubcsp_configuration * ubcsp_configuration) :=
  let host := ubcsp_receive_packet example_buffer example_engine in
  r ← transmit 100 (ubcsp_send_packet example_packet host);
  let '(frame, _, tx) := r in
  r ← ubcsp_poll frame (set_delay 25 host);
  let '(_, _, _, _, rx, _) := r in
  r ← transmit 100 rx;
  let '(ack, _, rx) := r in
  r ← polls 25 tx;
  r ← polls 1 r.2;
  let '(out, _, tx) := r in
  r ← ubcsp_poll ack tx;
  let '(_, act, _, out', tx, _) := r in
  if Z.testbit act 0 then Ret (out ++ out', tx, ubcsp_receive_packet example_buffer rx) else Undef.

Theorem send_packet_after_escape :
  ∃ out tx rx out' act tx', resending = Ret (out, tx, rx) ∧ send_packet tx = None ∧
    polls 1 (ubcsp_send_packet example_packet tx) = Ret (out', act, tx') ∧ ubcsp_poll (out ++ out') rx = Undef.
Proof.
  destruct resending as [[[out tx] rx]| |] eqn:E; vm_compute in E; [|discriminate..].
  exists out, tx, rx. injection E as <- <- <-. eexists _, _, _. split; [done|]. split; [done|].
  split; [vm_compute; reflexivity|]. vm_compute. reflexivity.
Qed.
