(* ===== verification/UbcspLink.v ===== *)
(** Two engines of utils/tools/ubcsp.c over a line that may lose frames.
    Theorem: every reliable packet is handed up exactly once and in order. *)

From stdpp Require Import base list numbers sorting relations.
From Stdlib Require Import ZArith Lia.
From S2P Require Import Prelude Ubcsp UbcspCrc UbcspFrame.

Local Open Scope Z_scope.

(** * The system

    Engine [b] puts whole frames on [wire b], which engine [negb b] polls in
    order; [submitted b] are the packets the host of engine [b] has given it,
    [delivered b] those the engine has handed up. *)

Record system := System {
  engine : bool → ubcsp_configuration;
  wire : bool → list (list Z);
  submitted : bool → list ubcsp_packet;
  delivered : bool → list ubcsp_packet
}.

Definition upd {A} (f : bool → A) (b : bool) (v : A) : bool → A := λ c, if Bool.eqb c b then v else f c.

(** The next poll of the engine sends nothing. *)
Definition quiet (s : ubcsp_configuration) : Prop :=
  delay s ≠ 0 ∨ (send_packet s = None ∧ send_ack s = 0).

(** A host gives its engine a packet when it has none, and a buffer when it has
    none; an engine polls an idle line, or polls until a frame is out, or polls
    the next frame of the line; the line loses a frame. *)
Inductive step (y : system) : system → Prop :=
  | step_submit b p pay :
      send_packet (engine y b) = None → sendable p pay → channel p ≠ 1 →
      step y (System (upd (engine y) b (ubcsp_send_packet p (engine y b))) (wire y)
                (upd (submitted y) b (submitted y b ++ [p])) (delivered y))
  | step_supply b p blk :
      receive_packet (engine y b) = None → payload p = Some blk → 0 ≤ packet_length p ≤ Z.of_nat (length blk) →
      step y (System (upd (engine y) b (ubcsp_receive_packet p (engine y b))) (wire y) (submitted y) (delivered y))
  | step_poll b d act up out s rest :
      quiet (engine y b) → ubcsp_poll [] (engine y b) = Ret (d, act, up, out, s, rest) →
      step y (System (upd (engine y) b s) (wire y) (submitted y) (delivered y))
  | step_send b fuel out act s :
      delay (engine y b) = 0 → ¬ quiet (engine y b) → transmit fuel (engine y b) = Ret (out, act, s) →
      step y (System (upd (engine y) b s) (upd (wire y) b (wire y b ++ [out])) (submitted y) (delivered y))
  | step_receive b f l d act up out s rest :
      wire y (negb b) = f :: l → quiet (engine y b) → receive_packet (engine y b) ≠ None →
      ubcsp_poll f (engine y b) = Ret (d, act, up, out, s, rest) →
      step y (System (upd (engine y) b s) (upd (wire y) (negb b) l) (submitted y)
                (upd (delivered y) b (delivered y b ++ option_list up)))
  | step_lose b l1 f l2 :
      wire y b = l1 ++ f :: l2 →
      step y (System (engine y) (upd (wire y) b (l1 ++ l2)) (submitted y) (delivered y)).

(** * One engine *)

(** The link is up and the engine is between frames. *)
Definition link_up (s : ubcsp_configuration) : Prop :=
  link_establishment_state s = ubcsp_le_active ∧ link_establishment_resp s = 0 ∧
  link_establishment_packet s = ubcsp_le_none ∧ send_size s = 0 ∧ send_slip_escape s = 0 ∧
  receive_slip_escape s = 0 ∧ receive_index s < 0 ∧ length (receive_header s) = 4%nat ∧
  match receive_packet s with
  | Some p => ∃ blk, payload p = Some blk ∧ 0 ≤ packet_length p ≤ Z.of_nat (length blk)
  | None => True
  end ∧
  match send_packet s with Some p => ∃ pay, sendable p pay ∧ channel p ≠ 1 | None => True end.

Definition content (p : ubcsp_packet) : Z * Z * list Z :=
  (channel p, packet_length p, take (Z.to_nat (packet_length p)) (default [] (payload p))).

Lemma sendable_content p pay : sendable p pay → content p = (channel p, packet_length p, pay).
Proof.
  intros (_ & Hp & Hl & _). unfold content. rewrite Hp. change (default [] (Some pay)) with pay.
  by rewrite take_ge by lia.
Qed.

Lemma link_up_delay d s : link_up s → link_up (set_delay d s).
Proof. by destruct s. Qed.

(** The fields the protocol is about. *)
Definition numbers (s : ubcsp_configuration) := (sequence_number s, ack_number s, send_packet s).

Lemma numbers_delay d s : numbers (set_delay d s) = numbers s.
Proof. by destruct s. Qed.

Lemma quiet_poll uart s :
  link_up s → quiet s → ∃ d, ubcsp_poll uart s = poll_receive uart [] 0 d s.
Proof.
  intros (_ & Hresp & Hle & Hz & _) Hq. unfold ubcsp_poll. destruct (Z.eqb_spec (delay s) 0) as [Hd|Hd]; [|by eexists].
  destruct Hq as [?|[Hp Ha]]; [done|]. rewrite Hz, Hle. change (negb (0 =? 0)) with false.
  change (ubcsp_le_none =? ubcsp_le_none) with true. cbv iota. unfold send_start. rewrite Hresp, Hp, Ha.
  change (negb (Z.land 0 2 =? 0)) with false. change (negb (0 =? 0)) with false. cbv iota. by eexists.
Qed.

Lemma quiet_poll_silent s d act up out s' rest :
  link_up s → quiet s → ubcsp_poll [] s = Ret (d, act, up, out, s', rest) → ∃ d', s' = set_delay d' s.
Proof.
  intros Hs Hq H. destruct (quiet_poll [] s Hs Hq) as [d0 E]. rewrite E, poll_receive_silent in H.
  injection H as _ _ _ _ <- _. by eexists.
Qed.

(** Polling one frame of the line. *)
Definition reception (h pay : list Z) (s : ubcsp_configuration) (up : option ubcsp_packet) (s' : ubcsp_configuration) : Prop :=
  link_up s' ∧
  ((up = None ∧ numbers s' = numbers s) ∨
   (send_packet s' = (if after_ack (header_ack h) s then None else send_packet s) ∧
    sequence_number s' = (if after_ack (header_ack h) s then (sequence_number s + 1) mod 8 else sequence_number s) ∧
    ack_number s' = (if delivers h pay s && negb (header_reliable h =? 0) then (ack_number s + 1) mod 8 else ack_number s) ∧
    match up with
    | Some q => delivers h pay s = true ∧ reliable q = header_reliable h ∧ content q = (header_channel h, header_length h, pay)
    | None => delivers h pay s = false
    end)).

Lemma filled_ok body blk p :
  0 ≤ packet_length p ≤ Z.of_nat (length blk) →
  ∃ blk', payload (filled body blk p) = Some blk' ∧ 0 ≤ packet_length (filled body blk p) ≤ Z.of_nat (length blk').
Proof.
  intros Hl. unfold filled. eexists. split; [reflexivity|]. cbn [packet_length set_payload].
  rewrite length_app, length_take, length_drop. lia.
Qed.

Lemma link_up_received h body blk p q s s2 :
  link_up s → length h = 4%nat →
  (link_establishment_state s2, link_establishment_resp s2, link_establishment_packet s2, send_size s2, send_slip_escape s2,
   receive_slip_escape s2, receive_header s2) =
  (link_establishment_state (frame_in h body blk p s), link_establishment_resp (frame_in h body blk p s),
   link_establishment_packet (frame_in h body blk p s), send_size (frame_in h body blk p s),
   send_slip_escape (frame_in h body blk p s), receive_slip_escape (frame_in h body blk p s),
   receive_header (frame_in h body blk p s)) →
  (receive_packet s2 = None ∨ receive_packet s2 = Some q) →
  (∃ blk', payload q = Some blk' ∧ 0 ≤ packet_length q ≤ Z.of_nat (length blk')) →
  (send_packet s2 = None ∨ send_packet s2 = send_packet s) →
  link_up (set_receive_index (-4) s2).
Proof.
  intros (L1 & L2 & L3 & L4 & L5 & L6 & _ & _ & _ & L7) Hh E Hrp Hq Hsp.
  assert (∀ s0 : ubcsp_configuration, (link_establishment_state (frame_in h body blk p s0), link_establishment_resp (frame_in h body blk p s0),
   link_establishment_packet (frame_in h body blk p s0), send_size (frame_in h body blk p s0),
   send_slip_escape (frame_in h body blk p s0), receive_slip_escape (frame_in h body blk p s0),
   receive_header (frame_in h body blk p s0)) =
   (link_establishment_state s0, link_establishment_resp s0, link_establishment_packet s0, send_size s0, send_slip_escape s0,
    receive_slip_escape s0, h)) as Hin by (intros s0; by destruct s0).
  rewrite Hin in E. clear Hin. destruct s2. unfold link_up. fields. injection E as -> -> -> -> -> -> ->.
  split_and!; try done.
  - by destruct Hrp as [-> | ->].
  - destruct Hsp as [-> | ->]; [done|exact L7].
Qed.

Lemma receive_frame_step h pay s p uart :
  link_up s → receive_packet s = Some p → uart = frame_of h pay → header_ok h (Z.of_nat (length pay)) → Forall byte_ok pay →
  header_channel h ≠ 1 →
  ∃ act up s', receive_loop uart 0 s = Ret (act, up, s', []) ∧ reception h pay s up s'.
Proof.
  intros Hs Hp -> Hh Hpay Hch. pose proof Hs as (L1 & L2 & L3 & L4 & L5 & L6 & L7 & L8 & L9 & L10). rewrite Hp in L9.
  destruct L9 as (blk & Hblk & Hcap). pose proof Hh as (Hl4 & _ & _ & _ & HhL).
  assert (listening s p blk) as Hlisten by (split_and!; done || lia).
  pose proof (receive_frame_of s p blk h pay Hlisten Hh Hpay) as Hrecv. cbv zeta in Hrecv.
  set (body := pay ++ frame_crc h pay) in *. assert (length body = (length pay + 2)%nat) as Hlb
    by (subst body; by rewrite length_app, length_frame_crc).
  destruct (filled_ok body blk p Hcap) as (blk' & Hf1 & Hf2). case_bool_decide as Hfit.
  - destruct (accept_data h pay (filled body blk p) (frame_in h body blk p s) Hch)
      as (a & s2 & Hacc & _ & _ & _ & Hsp & Hsq & Hack & Hrp & _ & _ & Hrest).
    rewrite Hacc, outcome_bind_ret in Hrecv.
    destruct (frame_in_fields h body blk p s) as (F1 & F2 & F3 & F4 & _).
    assert (delivers h pay (frame_in h body blk p s) = delivers h pay s) as Hdel by (unfold delivers; by rewrite F1, F2).
    assert (after_ack (header_ack h) (frame_in h body blk p s) = after_ack (header_ack h) s) as Haft
      by (unfold after_ack; by rewrite F3, F4).
    rewrite Hdel, ?Haft, ?F2, ?F3, ?F4 in *.
    set (s3 := set_receive_index (-4) (if negb (Z.land a UBCSP_PACKET_ACK =? 0) then set_delay 0 s2 else s2)) in *.
    assert (link_up s3 ∧ numbers s3 = numbers s2) as [Hup3 Hn3].
    { assert (link_up (set_receive_index (-4) s2)) as Hup.
      { apply (link_up_received h body blk p (set_channel (header_channel h) (set_reliable (header_reliable h) (filled body blk p))) s s2);
          [done|done|done|rewrite Hrp; destruct (delivers h pay s); [by left|by right]|by exists blk'|].
        rewrite Hsp. destruct (after_ack _ s); [by left|by right]. }
      subst s3. destruct (negb _); [|by destruct s2].
      replace (set_receive_index (-4) (set_delay 0 s2)) with (set_delay 0 (set_receive_index (-4) s2)) by (by destruct s2).
      split; [by apply link_up_delay|by destruct s2]. }
    assert (sequence_number s3 = sequence_number s2 ∧ ack_number s3 = ack_number s2 ∧ send_packet s3 = send_packet s2) as (N1 & N2 & N3)
      by (unfold numbers in Hn3; clearbody s3; split_and!; congruence).
    clearbody s3. eexists _, _, s3. split; [exact Hrecv|]. split; [done|]. right. rewrite N1, N2, N3.
    split; [exact Hsp|]. split; [exact Hsq|]. split; [exact Hack|]. destruct (delivers h pay s); [|done]. split; [done|]. split; [done|].
    unfold content. cbn [channel packet_length payload set_packet_length set_channel set_reliable].
    rewrite HhL, Nat2Z.id. f_equal. unfold filled at 1. 
    rewrite (take_filled body blk p) by lia. subst body. apply take_app_length.
  - eexists _, _, _. split; [exact Hrecv|]. split; [|left; split; [done|by destruct s]].
    assert (link_up (set_receive_index (-4) (set_receive_packet (Some (set_channel (header_channel h)
      (set_reliable (header_reliable h) (filled body blk p)))) (frame_in h body blk p s)))) as Hup.
    { eapply (link_up_received h body blk p (set_channel (header_channel h) (set_reliable (header_reliable h) (filled body blk p))) s);
        [done|done|by destruct s|right; by destruct s|by exists blk'|right; by destruct s]. }
    revert Hup. generalize (set_receive_index (-4) (set_receive_packet (Some (set_channel (header_channel h)
      (set_reliable (header_reliable h) (filled body blk p)))) (frame_in h body blk p s))). intros s'. by destruct s'.
Qed.

Lemma quiet_poll_frame h pay s d act up out s' rest :
  link_up s → quiet s → receive_packet s ≠ None → header_ok h (Z.of_nat (length pay)) → Forall byte_ok pay →
  header_channel h ≠ 1 → ubcsp_poll (frame_of h pay) s = Ret (d, act, up, out, s', rest) → reception h pay s up s'.
Proof.
  intros Hs Hq Hp Hh Hpay Hch H. destruct (receive_packet s) as [p|] eqn:Erp; [|done].
  destruct (quiet_poll (frame_of h pay) s Hs Hq) as [d0 E]. rewrite E in H. unfold poll_receive in H.
  destruct (receive_frame_step h pay s p _ Hs Erp eq_refl Hh Hpay Hch) as (a & u & s1 & Hr & [Hup Hrec]).
  rewrite Hr, outcome_bind_ret in H. injection H as _ _ <- _ <- _. split; [by apply link_up_delay|].
  revert Hrec. generalize (if 0 <? delay s1 then delay s1 - 1 else d0). intros d1. destruct (delayed_fields d1 s1) as (-> & -> & -> & _).
  rewrite numbers_delay. done.
Qed.

(** * One direction

    [R] are the reliable packets the sender's host has submitted, [D] those
    handed up at the other end; [sp] and [seq] belong to the sender, [ack] to
    the receiver. The frames on the wire carry a packet number and, for the
    other direction, the number of packets the sender has received; of those
    the other end knows [acked'] and all are [received']. *)

Definition is_reliable (p : ubcsp_packet) : Prop := reliable p ≠ 0.
#[export] Instance is_reliable_dec p : Decision (is_reliable p).
Proof. unfold is_reliable. apply _. Defined.
Definition reliables (l : list ubcsp_packet) : list ubcsp_packet := filter is_reliable l.

Definition pending (sp : option ubcsp_packet) : nat :=
  match sp with Some p => if decide (is_reliable p) then 1%nat else 0%nat | None => 0%nat end.

Definition acked (R : list ubcsp_packet) (sp : option ubcsp_packet) : nat := (length R - pending sp)%nat.

Definition number8 (n : nat) : Z := Z.of_nat n mod 8.

Definition flight : Type := nat * nat.
Definition flight_le (g g' : flight) : Prop := (g.1 ≤ g'.1)%nat ∧ (g.2 ≤ g'.2)%nat.

Definition carries (R : list ubcsp_packet) (h pay : list Z) (g : flight) : Prop :=
  header_ok h (Z.of_nat (length pay)) ∧ Forall byte_ok pay ∧ header_channel h ≠ 1 ∧ header_ack h = number8 g.2 ∧
  (header_reliable h ≠ 0 → header_seq h = number8 g.1 ∧
     ∃ p, R !! g.1 = Some p ∧ content p = (header_channel h, header_length h, pay)).

Definition frame_is (R : list ubcsp_packet) (f : list Z) (g : flight) : Prop :=
  ∃ h pay, f = frame_of h pay ∧ carries R h pay g.

Definition in_flight (R : list ubcsp_packet) (na nd acked' received' : nat) (w : list (list Z)) (gs : list flight) : Prop :=
  Forall2 (frame_is R) w gs ∧ StronglySorted flight_le gs ∧
  Forall (λ g : flight, (g.1 ≤ na)%nat ∧ (nd ≤ g.1 + 1)%nat ∧ (acked' ≤ g.2 ≤ received')%nat) gs.

Definition direction (R D : list ubcsp_packet) (sp : option ubcsp_packet) (seq ack : Z) (acked' received' : nat)
    (w : list (list Z)) : Prop :=
  (pending sp ≤ length R)%nat ∧ (acked R sp ≤ length D ≤ length R)%nat ∧
  map content D = map content (take (length D) R) ∧
  (∀ p, sp = Some p → is_reliable p → R !! acked R sp = Some p) ∧
  seq = number8 (acked R sp) ∧ ack = number8 (length D) ∧ (acked' ≤ received')%nat ∧
  ∃ gs, in_flight R (acked R sp) (length D) acked' received' w gs.

Lemma number8_range n : 0 ≤ number8 n < 8.
Proof. apply Z.mod_pos_bound. lia. Qed.

Lemma number8_next n : (number8 n + 1) mod 8 = number8 (S n).
Proof. unfold number8. rewrite Z.add_mod_idemp_l by lia. f_equal. lia. Qed.

(** Numbers that differ by at most one are told apart. *)
Lemma number8_close a b : (a ≤ b ≤ a + 1)%nat → number8 b = number8 a ↔ b = a.
Proof.
  intros H. unfold number8. split; [|by intros ->]. intros E.
  pose proof (Z.div_mod (Z.of_nat a) 8 ltac:(lia)). pose proof (Z.div_mod (Z.of_nat b) 8 ltac:(lia)). lia.
Qed.

Lemma pending_le sp : (pending sp ≤ 1)%nat.
Proof. unfold pending. destruct sp; [destruct (decide _)|]; lia. Qed.

Lemma carries_app R R' h pay g : carries R h pay g → carries (R ++ R') h pay g.
Proof.
  intros (H1 & H2 & H3 & H4 & H5). split_and!; try done. intros Hr. destruct (H5 Hr) as (E & p & Hp & Hc).
  split; [done|]. exists p. split; [by apply lookup_app_l_Some|done].
Qed.

Lemma frame_is_app R R' f g : frame_is R f g → frame_is (R ++ R') f g.
Proof. intros (h & pay & -> & H). exists h, pay. split; [done|by apply carries_app]. Qed.

(** ** How the direction changes *)

Lemma direction_submit R D seq ack a r w p :
  direction R D None seq ack a r w → direction (R ++ reliables [p]) D (Some p) seq ack a r w.
Proof.
  intros (_ & H2 & H3 & _ & H5 & H6 & H7 & gs & G1 & G2 & G3). unfold acked in *. cbn [pending] in *.
  rewrite Nat.sub_0_r in *. assert (length D = length R) as HD by lia.
  unfold direction, acked, reliables. rewrite length_app. cbn [pending]. rewrite filter_cons, filter_nil.
  destruct (decide (is_reliable p)) as [Hr|Hr]; cbn [length].
  - replace (length R + 1 - 1)%nat with (length R) by lia. split_and!; try done; try lia.
    + by rewrite H3, take_app_le by lia.
    + intros q [= <-] _. rewrite lookup_app_r by lia. by rewrite Nat.sub_diag.
    + exists gs. split; [|done]. eapply Forall2_impl; [exact G1|]. intros. by apply frame_is_app.
  - rewrite app_nil_r, Nat.add_0_r, Nat.sub_0_r. split_and!; try done; try lia; [by intros q [= <-]|by exists gs].
Qed.

Lemma direction_send R D sp sp' seq ack a r w f :
  direction R D sp seq ack a r w → frame_is R f (acked R sp, r) → sp' = sp ∨ (pending sp = 0%nat ∧ sp' = None) →
  direction R D sp' seq ack a r (w ++ [f]).
Proof.
  intros (H1 & H2 & H3 & H4 & H5 & H6 & H7 & gs & G1 & G2 & G3) Hf Hsp.
  assert (pending sp' = pending sp) as Hpend by (destruct Hsp as [->|[-> ->]]; done).
  unfold direction, acked in *. rewrite Hpend. split_and!; try done; try lia.
  - intros p Hp Hr. destruct Hsp as [->|[_ ->]]; [by apply H4|done].
  - pose proof (pending_le sp). exists (gs ++ [((length R - pending sp)%nat, r)]). split; [|split].
    + apply Forall2_app; [done|]. by constructor.
    + apply StronglySorted_app_2; [|done|by repeat constructor].
      intros g1 g2 Hg1 ->%list_elem_of_singleton. rewrite Forall_forall in G3. destruct (G3 g1 Hg1) as (B1 & _ & B2).
      split; cbn; lia.
    + apply Forall_app. split; [done|]. constructor; [cbn; lia|constructor].
Qed.

Lemma Forall2_sublist_r {A B} (P : A → B → Prop) l1 x l2 gs :
  Forall2 P (l1 ++ x :: l2) gs → ∃ g1 g g2, gs = g1 ++ g :: g2 ∧ Forall2 P l1 g1 ∧ P x g ∧ Forall2 P l2 g2.
Proof.
  intros H. apply Forall2_app_inv_l in H as (g1 & g2 & H1 & H2 & ->). apply Forall2_cons_inv_l in H2 as (g & g3 & H2 & H3 & ->).
  by eexists _, _, _.
Qed.

Lemma StronglySorted_remove {A} (P : A → A → Prop) l1 x l2 :
  StronglySorted P (l1 ++ x :: l2) → StronglySorted P (l1 ++ l2) ∧ Forall (P x) l2.
Proof.
  induction l1 as [|y l1 IH]; cbn; intros H; apply StronglySorted_inv in H as [H1 H2]; [done|].
  destruct (IH H1) as [H3 H4]. split; [|done]. constructor; [done|].
  rewrite !Forall_app, Forall_cons in *. tauto.
Qed.

Lemma direction_lose R D sp seq ack a r l1 f l2 :
  direction R D sp seq ack a r (l1 ++ f :: l2) → direction R D sp seq ack a r (l1 ++ l2).
Proof.
  intros (H1 & H2 & H3 & H4 & H5 & H6 & H7 & gs & G1 & G2 & G3). split_and!; try done; try lia.
  apply Forall2_sublist_r in G1 as (g1 & g & g2 & -> & F1 & _ & F2). exists (g1 ++ g2). split; [|split].
  - by apply Forall2_app.
  - apply StronglySorted_remove in G2 as [G2 _]. exact G2.
  - rewrite !Forall_app, Forall_cons in *. tauto.
Qed.

(** The receiver took the first frame: with what it says of the other
    direction, and the packet it handed up. *)
Lemma direction_head R D sp seq ack a r f l :
  direction R D sp seq ack a r (f :: l) →
  ∃ h pay g, f = frame_of h pay ∧ carries R h pay g ∧ (g.1 ≤ acked R sp)%nat ∧ (length D ≤ g.1 + 1)%nat ∧ (a ≤ g.2 ≤ r)%nat ∧
    direction R D sp seq ack g.2 r l ∧
    (header_reliable h ≠ 0 → header_seq h = ack ↔ g.1 = length D) ∧
    (∀ q, g.1 = length D → is_reliable q → content q = (header_channel h, header_length h, pay) → header_reliable h ≠ 0 →
       direction R (D ++ [q]) sp seq ((ack + 1) mod 8) g.2 r l).
Proof.
  intros (H1 & H2 & H3 & H4 & H5 & H6 & H7 & gs & G1 & G2 & G3).
  apply Forall2_cons_inv_l in G1 as (g & gs' & (h & pay & -> & Hc) & G1 & ->).
  apply StronglySorted_inv in G2 as [G2 Gle]. apply Forall_cons in G3 as [(B1 & B2 & B3) G3].
  exists h, pay, g. split; [done|]. split; [done|]. split; [done|]. split; [done|]. split; [done|].
  assert (Forall (λ g0 : flight, (g0.1 ≤ acked R sp)%nat ∧ (g.1 ≤ g0.1)%nat ∧ (length D ≤ g0.1 + 1)%nat ∧ (g.2 ≤ g0.2 ≤ r)%nat) gs') as G4.
  { rewrite Forall_forall in *. intros g0 Hg0. destruct (G3 g0 Hg0) as (C1 & C2 & C3). destruct (Gle g0 Hg0) as [C4 C5]. lia. }
  split; [|split].
  - split_and!; try done; try lia. exists gs'. split; [done|]. split; [done|]. eapply Forall_impl; [exact G4|]. cbn. intros. lia.
  - intros Hr. destruct Hc as (_ & _ & _ & _ & Hc). destruct (Hc Hr) as [Es _]. rewrite Es, H6.
    destruct (decide (g.1 = length D)) as [E|E]; [by rewrite E|]. split; [|done].
    assert (g.1 ≤ length D ≤ g.1 + 1)%nat as Hclose by lia. intros Heq. symmetry in Heq.
    apply (number8_close _ _ Hclose) in Heq. lia.
  - intros q Hg Hq Hcq Hr. destruct Hc as (_ & _ & _ & _ & Hc). destruct (Hc Hr) as (_ & p & Hp & Hcp).
    rewrite Hg in Hp. pose proof (lookup_lt_Some _ _ _ Hp) as Hlt. pose proof (pending_le sp).
    unfold direction. rewrite length_app. cbn [length]. split_and!; try done; try lia.
    + rewrite (Nat.add_1_r (length D)), (take_S_r _ _ p Hp), !map_app, H3. cbn [map]. congruence.
    + rewrite H6, number8_next. f_equal. lia.
    + exists gs'. split; [done|]. split; [done|]. eapply Forall_impl; [exact G4|]. cbn. intros. lia.
Qed.

Lemma direction_mono R D sp seq ack a r a' r' w :
  (a' ≤ a)%nat → (r ≤ r')%nat → direction R D sp seq ack a r w → direction R D sp seq ack a' r' w.
Proof.
  intros Ha Hr (H1 & H2 & H3 & H4 & H5 & H6 & H7 & gs & G1 & G2 & G3). split_and!; try done; try lia.
  exists gs. split; [done|]. split; [done|]. eapply Forall_impl; [exact G3|]. cbn. intros. lia.
Qed.

(** The sender took an acknowledgement of [n] packets. *)
Lemma direction_acked R D s ack a r w n :
  direction R D (send_packet s) (sequence_number s) ack a r w → (acked R (send_packet s) ≤ n ≤ length D)%nat →
  let after := after_ack (number8 n) s in
  let sp := if after then None else send_packet s in
  direction R D sp (if after then (sequence_number s + 1) mod 8 else sequence_number s) ack a r w ∧ acked R sp = n.
Proof.
  intros H Hn. cbv zeta. pose proof H as (H1 & H2 & H3 & H4 & H5 & H6 & H7 & gs & G1 & G2 & G3).
  unfold after_ack. destruct (send_packet s) as [p|]; [|split; [done|]; unfold acked in *; cbn [pending] in *; lia].
  unfold acked in *. cbn [pending] in *. destruct (decide (is_reliable p)) as [Hr|Hr]; unfold is_reliable in Hr.
  - rewrite (proj2 (Z.eqb_neq (reliable p) 0)) by done. cbn [negb]. rewrite andb_true_r.
    pose proof (number8_close (length R - 1) n ltac:(lia)) as Hclose.
    destruct (Z.eqb_spec (number8 n) (sequence_number s)) as [E|E]; cbn [negb].
    + rewrite H5 in E. apply Hclose in E. split; [done|]. cbn [pending]. rewrite decide_True by done. lia.
    + rewrite H5 in E. assert (n ≠ length R - 1)%nat by (intros ->; by apply E). cbn [pending]. split; [|lia].
      unfold direction, acked. cbn [pending]. split_and!; try done; try lia.
      * rewrite H5, number8_next. f_equal. lia.
      * exists gs. split; [done|]. split; [done|]. eapply Forall_impl; [exact G3|]. cbn. intros. lia.
  - assert (reliable p = 0) as Hr0 by (destruct (decide (reliable p = 0)); done).
    rewrite Hr0. change (negb (0 =? 0)) with false. rewrite andb_false_r. split; [done|].
    cbn [pending]. rewrite decide_False by (unfold is_reliable; lia). lia.
Qed.

(** * Sending a frame *)

Lemma transmit_mono fuel fuel' s out act s' :
  transmit fuel s = Ret (out, act, s') → (fuel ≤ fuel')%nat → transmit fuel' s = Ret (out, act, s').
Proof.
  revert s out act fuel'. induction fuel as [|fuel IH]; intros s out act [|fuel'] H Hle; try done; try lia.
  cbn [transmit] in *. destruct (ubcsp_poll [] s) as [[[[[[d a] u] o] s1] w]| |]; try done.
  rewrite outcome_bind_ret in *. destruct (send_size s1 =? 0); [done|].
  destruct (transmit fuel s1) as [[[o1 a1] s2]| |] eqn:E; try done. rewrite outcome_bind_ret in H.
  injection H as <- <- <-. rewrite (IH _ _ _ fuel' E) by lia. done.
Qed.

Lemma link_up_ready s n n' :
  link_up s → delay s = 0 → ack_number s = number8 n → sequence_number s = number8 n' → ready s.
Proof.
  intros (_ & L2 & L3 & L4 & L5 & _) Hd Ha Hs. unfold ready. rewrite L2, Ha, Hs.
  split_and!; try done; apply number8_range.
Qed.

Lemma link_up_sent crc s act s' :
  link_up s → ubcsp_sent_packet (frame_sent crc (set_send_ack 0 s)) = (act, s') →
  link_up (set_delay UBCSP_POLL_TIME_DELAY s') ∧ ack_number s' = ack_number s ∧ sequence_number s' = sequence_number s ∧
  (send_packet s' = send_packet s ∨ (pending (send_packet s) = 0%nat ∧ send_packet s' = None)).
Proof.
  intros Hs. unfold ubcsp_sent_packet. rewrite frame_sent_packet. unfold link_up in *.
  destruct s as [? ? ? ? ? ? sp ? ? ? ? ? ? ? ? ? ? ? ?]. unfold frame_sent. fields.
  destruct sp as [p|]; [|intros [= <- <-]; fields; by split_and!; tauto].
  destruct (Z.eqb_spec (reliable p) 0) as [Hr|Hr]; intros [= <- <-]; fields.
  - split_and!; try tauto. right. split; [|done]. cbn [pending]. by rewrite decide_False by (unfold is_reliable; lia).
  - split_and!; tauto.
Qed.

(** The frame an engine puts on its wire carries its numbers. *)
Lemma link_send R s fuel out act s' n :
  link_up s → delay s = 0 → ¬ quiet s → transmit fuel s = Ret (out, act, s') →
  ack_number s = number8 n → sequence_number s = number8 (acked R (send_packet s)) →
  (∀ p, send_packet s = Some p → is_reliable p → R !! acked R (send_packet s) = Some p) →
  frame_is R out (acked R (send_packet s), n) ∧ link_up s' ∧ ack_number s' = ack_number s ∧
  sequence_number s' = sequence_number s ∧
  (send_packet s' = send_packet s ∨ (pending (send_packet s) = 0%nat ∧ send_packet s' = None)).
Proof.
  intros Hs Hd Hq Ht Ha Hseq HR. pose proof (link_up_ready _ _ _ Hs Hd Ha Hseq) as Hr.
  destruct (send_packet s) as [p|] eqn:Ep.
  - assert (∃ pay, sendable p pay ∧ channel p ≠ 1) as (pay & Hp & Hch)
      by (destruct Hs as (_ & _ & _ & _ & _ & _ & _ & _ & _ & Hs); by rewrite Ep in Hs).
    destruct (send_packet_transmit s p pay Hr Ep Hp) as (crc & H).
    specialize (H (fuel `max` length (frame_of (data_header p s) pay))%nat ltac:(lia)).
    rewrite (transmit_mono _ _ _ _ _ _ Ht) in H by lia.
    destruct (ubcsp_sent_packet _) as [a s1] eqn:E. injection H as -> -> ->.
    destruct (link_up_sent _ _ _ _ Hs E) as (U1 & U2 & U3 & U4). rewrite Ep in U4.
    destruct (delayed_fields UBCSP_POLL_TIME_DELAY s1) as (-> & -> & -> & _).
    split; [|done]. exists (data_header p s), pay. split; [done|].
    pose proof Hp as (Hok & _ & Hlen & _ & Hbytes).
    destruct Hr as (_ & _ & _ & _ & _ & Ra & Rs).
    destruct (packet_header_fields p _ _ Hok Ra Rs) as (F1 & F2 & F3 & F4 & F5). fold (data_header p s) in *.
    rewrite Hlen in F1. unfold carries. cbn [fst snd]. split_and!; [done|done|congruence|congruence|].
    intros Hrel. split; [congruence|]. exists p. split; [apply HR; [done|by unfold is_reliable; congruence]|].
    rewrite (sendable_content p pay Hp), Hlen, F5. destruct F1 as (_ & _ & _ & _ & ->). done.
  - assert (send_ack s ≠ 0) as Hack by (intros E; apply Hq; by right).
    destruct (send_ack_transmit s Hr Ep Hack) as (crc & H).
    set (h := header_checksum _) in *.
    specialize (H (fuel `max` length (frame_of h []))%nat ltac:(lia)).
    rewrite (transmit_mono _ _ _ _ _ _ Ht) in H by lia. injection H as -> -> ->.
    assert (ubcsp_sent_packet (frame_sent crc (set_send_ack 0 s)) = (0, frame_sent crc (set_send_ack 0 s))) as E
      by (unfold ubcsp_sent_packet; by rewrite frame_sent_packet, Ep).
    destruct (link_up_sent _ _ _ _ Hs E) as (U1 & U2 & U3 & U4). rewrite Ep in U4.
    destruct (delayed_fields UBCSP_POLL_TIME_DELAY (frame_sent crc (set_send_ack 0 s))) as (-> & -> & -> & _).
    split; [|done]. exists h, []. split; [done|]. destruct Hr as (_ & _ & _ & _ & _ & Ra & _).
    destruct (ack_header_fields _ Ra) as (F1 & F2 & F3 & F4). fold h in F1, F2, F3, F4.
    unfold carries. cbn [fst snd length]. split_and!; [done|done|congruence|congruence|]. congruence.
Qed.

(** * The system's invariant *)

(** The direction from engine [b] to engine [negb b]. *)
Definition towards (y : system) (b : bool) : Prop :=
  direction (reliables (submitted y b)) (reliables (delivered y (negb b)))
    (send_packet (engine y b)) (sequence_number (engine y b)) (ack_number (engine y (negb b)))
    (acked (reliables (submitted y (negb b))) (send_packet (engine y (negb b))))
    (length (reliables (delivered y b))) (wire y b).

Definition inv (y : system) : Prop := ∀ b, link_up (engine y b) ∧ towards y b.

(** Both links have just come up, and nothing is on the line. *)
Definition initial (y : system) : Prop :=
  ∀ b, link_up (engine y b) ∧ send_packet (engine y b) = None ∧ sequence_number (engine y b) = 0 ∧
       ack_number (engine y b) = 0 ∧ wire y b = [] ∧ submitted y b = [] ∧ delivered y b = [].

Lemma upd_same {A} (f : bool → A) b v : upd f b v b = v.
Proof. unfold upd. by rewrite eqb_reflx. Qed.
Lemma upd_negb {A} (f : bool → A) b v : upd f b v (negb b) = f (negb b).
Proof. unfold upd. by destruct b. Qed.
Lemma upd_negb' {A} (f : bool → A) b v : upd f (negb b) v b = f b.
Proof. unfold upd. by destruct b. Qed.

Lemma both_ends y b :
  link_up (engine y b) ∧ towards y b → link_up (engine y (negb b)) ∧ towards y (negb b) → inv y.
Proof. intros H1 H2 c. destruct b, c; done. Qed.

Ltac upds := unfold towards in *; cbn [engine wire submitted delivered] in *;
  rewrite ?negb_involutive, ?upd_same, ?upd_negb, ?upd_negb' in *.

Lemma reliables_app l1 l2 : reliables (l1 ++ l2) = reliables l1 ++ reliables l2.
Proof. apply filter_app. Qed.

Lemma reliables_one p : reliables [p] = if decide (is_reliable p) then [p] else [].
Proof. unfold reliables. rewrite filter_cons, filter_nil. by destruct (decide _). Qed.

Lemma acked_submit R p : acked (R ++ reliables [p]) (Some p) = acked R None.
Proof.
  unfold acked. rewrite length_app, reliables_one. cbn [pending].
  destruct (decide (is_reliable p)); cbn [length]; lia.
Qed.

Lemma initial_inv y : initial y → inv y.
Proof.
  intros H b. destruct (H b) as (H1 & H2 & H3 & H4 & H5 & H6 & H7), (H (negb b)) as (N1 & N2 & N3 & N4 & N5 & N6 & N7).
  split; [done|]. unfold towards, direction. rewrite H2, H3, H5, H6, H7, N2, N4, N6, N7. split_and!; try done.
  exists []. split_and!; constructor.
Qed.

(** An engine's step that leaves the numbers alone. *)
Lemma inv_engine y b s :
  inv y → link_up s → numbers s = numbers (engine y b) →
  inv (System (upd (engine y) b s) (wire y) (submitted y) (delivered y)).
Proof.
  intros Hi Hs E. unfold numbers in E. injection E as E1 E2 E3. destruct (Hi b) as [_ H1], (Hi (negb b)) as [L2 H2].
  apply (both_ends _ b); upds; (split; [done|]); congruence.
Qed.

Lemma inv_submit y b p pay :
  inv y → send_packet (engine y b) = None → sendable p pay → channel p ≠ 1 →
  inv (System (upd (engine y) b (ubcsp_send_packet p (engine y b))) (wire y)
         (upd (submitted y) b (submitted y b ++ [p])) (delivered y)).
Proof.
  intros Hi Hn Hp Hch. destruct (Hi b) as [L1 H1], (Hi (negb b)) as [L2 H2].
  assert (link_up (ubcsp_send_packet p (engine y b))) as L1'.
  { destruct L1 as (A1 & A2 & A3 & A4 & A5 & A6 & A7 & A8 & A9 & _). unfold link_up. destruct (engine y b). fields.
    cbn [ubcsp_send_packet]. unfold ubcsp_send_packet. fields. split_and!; try done. by exists pay. }
  assert (send_packet (ubcsp_send_packet p (engine y b)) = Some p ∧
          sequence_number (ubcsp_send_packet p (engine y b)) = sequence_number (engine y b) ∧
          ack_number (ubcsp_send_packet p (engine y b)) = ack_number (engine y b)) as (E1 & E2 & E3)
    by (by destruct (engine y b)).
  apply (both_ends _ b); upds; (split; [done|]); rewrite ?E1, ?E2, ?E3, ?reliables_app, ?acked_submit.
  - apply direction_submit. by rewrite Hn in H1.
  - by rewrite Hn in H2.
Qed.

Lemma inv_send y b fuel out act s :
  inv y → delay (engine y b) = 0 → ¬ quiet (engine y b) → transmit fuel (engine y b) = Ret (out, act, s) →
  inv (System (upd (engine y) b s) (upd (wire y) b (wire y b ++ [out])) (submitted y) (delivered y)).
Proof.
  intros Hi Hd Hq Ht. destruct (Hi b) as [L1 H1], (Hi (negb b)) as [L2 H2]. upds.
  pose proof H1 as (_ & _ & _ & HR & Hseq & _). pose proof H2 as (_ & _ & _ & _ & _ & Hack & _).
  destruct (link_send _ _ _ _ _ _ _ L1 Hd Hq Ht Hack Hseq HR) as (Hf & L1' & E1 & E2 & E3).
  apply (both_ends _ b); upds; (split; [done|]); rewrite ?E1, ?E2.
  - by eapply direction_send.
  - replace (acked (reliables (submitted y b)) (send_packet s))
      with (acked (reliables (submitted y b)) (send_packet (engine y b))); [done|].
    unfold acked. destruct E3 as [->|[-> ->]]; done.
Qed.

Lemma inv_lose y b l1 f l2 :
  inv y → wire y b = l1 ++ f :: l2 → inv (System (engine y) (upd (wire y) b (l1 ++ l2)) (submitted y) (delivered y)).
Proof.
  intros Hi Hw. destruct (Hi b) as [L1 H1], (Hi (negb b)) as [L2 H2].
  apply (both_ends _ b); upds; (split; [done|]); [|done].
  rewrite Hw in H1. by eapply direction_lose.
Qed.

Lemma inv_receive y b f l d act up out s rest :
  inv y → wire y (negb b) = f :: l → quiet (engine y b) → receive_packet (engine y b) ≠ None →
  ubcsp_poll f (engine y b) = Ret (d, act, up, out, s, rest) →
  inv (System (upd (engine y) b s) (upd (wire y) (negb b) l) (submitted y)
         (upd (delivered y) b (delivered y b ++ option_list up))).
Proof.
  intros Hi Hw Hq Hrp Hpoll. destruct (Hi b) as [L1 H1], (Hi (negb b)) as [L2 H2]. upds. rewrite Hw in H2.
  destruct (direction_head _ _ _ _ _ _ _ _ _ H2) as (h & pay & g & -> & Hc & B1 & B2 & B3 & Hskip & Hnext & Htake).
  pose proof Hc as (Hh & Hpay & Hch & Hga & _).
  destruct (quiet_poll_frame _ _ _ _ _ _ _ _ _ L1 Hq Hrp Hh Hpay Hch Hpoll) as [L1' Hrec].
  destruct Hrec as [[-> Hn]|(E1 & E2 & E3 & Hup)].
  - unfold numbers in Hn. injection Hn as E1 E2 E3.
    apply (both_ends _ b); upds; change (option_list None) with (@nil ubcsp_packet) in *; rewrite ?app_nil_r; (split; [done|]); rewrite ?E1, ?E2, ?E3; [done|].
    by eapply (direction_mono _ _ _ _ _ g.2); [lia| |exact Hskip].
  - rewrite Hga in *. pose proof (direction_acked _ _ _ _ _ _ _ g.2 H1 B3) as [H1' Hg2]. cbv zeta in *.
    rewrite <- E1 in H1', Hg2. rewrite <- E2 in H1'.
    apply (both_ends _ b); upds; (split; [done|]).
    + eapply direction_mono; [| |exact H1']; [done|]. rewrite reliables_app, length_app. lia.
    + rewrite Hg2, E3. destruct up as [q|]; cbn [option_list].
      * destruct Hup as (Hdel & Hqr & Hqc). change (option_list (Some q)) with [q].
        rewrite Hdel, reliables_app, reliables_one. cbn [andb].
        destruct (Z.eqb_spec (header_reliable h) 0) as [Hr|Hr]; cbn [negb].
        -- rewrite decide_False by (unfold is_reliable; lia). by rewrite app_nil_r.
        -- rewrite decide_True by (unfold is_reliable; congruence). apply Htake; [|unfold is_reliable; congruence|done|done].
           apply (Hnext Hr). unfold delivers in Hdel. rewrite (proj2 (Z.eqb_neq _ _) Hr) in Hdel.
           apply andb_true_iff in Hdel as [_ Hdel]. by apply Z.eqb_eq in Hdel.
      * change (option_list (@None ubcsp_packet)) with (@nil ubcsp_packet). rewrite Hup. cbn [andb]. by rewrite app_nil_r.
Qed.

Lemma inv_step y y' : inv y → step y y' → inv y'.
Proof.
  intros Hi. destruct 1.
  - by eapply inv_submit.
  - apply inv_engine; [done| |by destruct (engine y b)]. destruct (Hi b) as [(A1 & A2 & A3 & A4 & A5 & A6 & A7 & A8 & _ & A9) _].
    unfold link_up. destruct (engine y b). unfold ubcsp_receive_packet. fields. split_and!; try done. by exists blk.
  - destruct (Hi b) as [L1 _]. destruct (quiet_poll_silent _ _ _ _ _ _ _ L1 H H0) as [d' ->].
    apply inv_engine; [done|by apply link_up_delay|apply numbers_delay].
  - by eapply inv_send.
  - by eapply inv_receive.
  - by eapply inv_lose.
Qed.

Lemma inv_reachable y0 y : initial y0 → rtc step y0 y → inv y.
Proof. intros H0%initial_inv H. induction H as [|y1 y2 y3 H12 _ IH]; [done|]. apply IH. by eapply inv_step. Qed.

(** * Reliable delivery *)

(** C16: Two engines whose links have come up exchange packets over a line that
    loses whole frames in either direction, whatever the order in which the
    hosts hand over packets and buffers and the engines poll: at every moment
    the reliable packets handed up at one end are, in order, with their
    channels, lengths and payloads, a prefix of those submitted at the other;
    at most the last is missing, and none once the sending engine has given its
    packet up. None is lost, repeated or reordered, so the three-bit numbers
    of [take_ack] and [data_frame] are enough. *)
Theorem reliable_delivery (y0 y : system) (b : bool) (H0 : initial y0) (Hrun : rtc step y0 y) :
  let sent := reliables (submitted y b) in
  let got := reliables (delivered y (negb b)) in
  map content got = map content (take (length got) sent) ∧
  (length got ≤ length sent ≤ length got + 1)%nat ∧
  (send_packet (engine y b) = None → map content got = map content sent).
Proof.
  intros sent got. destruct (inv_reachable _ _ H0 Hrun b) as [_ (H1 & H2 & H3 & _)]. fold sent got in H1, H2, H3.
  pose proof (pending_le (send_packet (engine y b))). unfold acked in H2. split; [done|]. split; [lia|].
  intros E. rewrite E in H2. cbn [pending] in H2. rewrite H3. by rewrite take_ge by lia.
Qed.

(** ** Runs, executed

    What a host or an engine does next; an engine that is not quiet sends a
    frame, one that is quiet polls the first frame of the line if it has a
    buffer. *)
Inductive action := Submit (b : bool) (p : ubcsp_packet) | Supply (b : bool) (p : ubcsp_packet) | Poll (b : bool) | Lose (b : bool).

Definition quietb (s : ubcsp_configuration) : bool :=
  negb (delay s =? 0) || (match send_packet s with None => true | Some _ => false end && (send_ack s =? 0)).

Definition sendableb (p : ubcsp_packet) : bool :=
  match payload p with
  | Some pay =>
      (0 <=? reliable p) && (reliable p <? 2) && (0 <=? channel p) && (channel p <? 16) && negb (channel p =? 1) &&
      (packet_length p =? Z.of_nat (length pay)) && (0 <? packet_length p) && (packet_length p <? 4096) &&
      forallb (λ v, (0 <=? v) && (v <? 256)) pay
  | None => false
  end.

Definition act (fuel : nat) (a : action) (y : system) : option system :=
  match a with
  | Submit b p =>
      match send_packet (engine y b) with
      | None =>
          if sendableb p then
            Some (System (upd (engine y) b (ubcsp_send_packet p (engine y b))) (wire y)
                    (upd (submitted y) b (submitted y b ++ [p])) (delivered y))
          else None
      | Some _ => None
      end
  | Supply b p =>
      match receive_packet (engine y b), payload p with
      | None, Some blk =>
          if (0 <=? packet_length p) && (packet_length p <=? Z.of_nat (length blk)) then
            Some (System (upd (engine y) b (ubcsp_receive_packet p (engine y b))) (wire y) (submitted y) (delivered y))
          else None
      | _, _ => None
      end
  | Poll b =>
      if quietb (engine y b) then
        match receive_packet (engine y b), wire y (negb b) with
        | Some _, f :: l =>
            match ubcsp_poll f (engine y b) with
            | Ret (_, _, up, _, s, _) =>
                Some (System (upd (engine y) b s) (upd (wire y) (negb b) l) (submitted y)
                        (upd (delivered y) b (delivered y b ++ option_list up)))
            | _ => None
            end
        | _, _ =>
            match ubcsp_poll [] (engine y b) with
            | Ret (_, _, _, _, s, _) => Some (System (upd (engine y) b s) (wire y) (submitted y) (delivered y))
            | _ => None
            end
        end
      else
        match transmit fuel (engine y b) with
        | Ret (out, _, s) => Some (System (upd (engine y) b s) (upd (wire y) b (wire y b ++ [out])) (submitted y) (delivered y))
        | _ => None
        end
  | Lose b =>
      match wire y b with
      | _ :: l => Some (System (engine y) (upd (wire y) b l) (submitted y) (delivered y))
      | [] => None
      end
  end.

Definition run (fuel : nat) (l : list action) (y : system) : option system :=
  foldl (λ o a, match o with Some y => act fuel a y | None => None end) (Some y) l.

Lemma sendableb_spec p : sendableb p = true → ∃ pay, sendable p pay ∧ channel p ≠ 1.
Proof.
  unfold sendableb. destruct (payload p) as [pay|] eqn:E; [|done]. rewrite !andb_true_iff.
  intros ((((((((H1 & H2) & H3) & H4) & H5) & H6) & H7) & H8) & H9).
  rewrite ?Z.leb_le, ?Z.ltb_lt, ?Z.eqb_eq, ?negb_true_iff, ?Z.eqb_neq in *. exists pay. split; [|done]. split_and!; try done.
  - unfold packet_ok. lia.
  - intros ->. cbn in *. lia.
  - rewrite forallb_forall in H9. apply Forall_forall. intros v Hv%list_elem_of_In. specialize (H9 v Hv).
    rewrite andb_true_iff, Z.leb_le, Z.ltb_lt in H9. done.
Qed.

Lemma quietb_spec s : quietb s = true ↔ quiet s.
Proof.
  unfold quietb, quiet. rewrite orb_true_iff, andb_true_iff, negb_true_iff, Z.eqb_neq, Z.eqb_eq.
  destruct (send_packet s); split; intros [?|[? ?]]; try done; tauto.
Qed.

Lemma act_step fuel a y y' : act fuel a y = Some y' → step y y'.
Proof.
  destruct a as [b p|b p|b|b]; cbn [act].
  - destruct (send_packet _) eqn:E; [done|]. destruct (sendableb p) eqn:E1; [|done]. intros [= <-].
    destruct (sendableb_spec p E1) as (pay & H1 & H2). by eapply step_submit.
  - destruct (receive_packet _) eqn:E; [done|]. destruct (payload p) as [blk|] eqn:E1; [|done].
    destruct (_ && _) eqn:E2; [|done]. intros [= <-]. rewrite andb_true_iff, !Z.leb_le in E2. by eapply step_supply.
  - destruct (quietb _) eqn:Eq.
    + apply quietb_spec in Eq.
      assert (match ubcsp_poll [] (engine y b) with
        | Ret (_, _, _, _, s, _) => Some (System (upd (engine y) b s) (wire y) (submitted y) (delivered y))
        | _ => None end = Some y' → step y y') as Hidle.
      { destruct (ubcsp_poll [] _) as [[[[[[d a] u] o] s] w]| |] eqn:E; try done. intros [= <-]. by eapply step_poll. }
      destruct (receive_packet _) eqn:E1; [|exact Hidle]. destruct (wire y (negb b)) as [|f l] eqn:E2; [exact Hidle|].
      destruct (ubcsp_poll f _) as [[[[[[d a] u'] o] s] w]| |] eqn:E; try done. intros [= <-].
      eapply step_receive; [done|done|congruence|done].
    + destruct (transmit _ _) as [[[out a] s]| |] eqn:E; try done. intros [= <-].
      assert (¬ quiet (engine y b)) as Hq by (rewrite <- quietb_spec; congruence).
      eapply step_send; [|done|done]. unfold quiet in Hq. destruct (decide (delay (engine y b) = 0)); tauto.
  - destruct (wire y b) as [|f l] eqn:E; [done|]. intros [= <-]. by apply (step_lose y b [] f l).
Qed.

Lemma run_steps fuel l y y' : run fuel l y = Some y' → rtc step y y'.
Proof.
  revert y. induction l as [|a l IH]; intros y; unfold run; cbn [foldl]; [intros [= <-]; apply rtc_refl|].
  destruct (act fuel a y) as [y1|] eqn:E.
  - intros H. eapply rtc_l; [by eapply act_step|]. by apply IH.
  - intros H. exfalso. clear -H. induction l as [|a l IH]; [done|]. by apply IH.
Qed.

Definition example_system : system := System (λ _, example_engine) (λ _, []) (λ _, []) (λ _, []).

(** A packet is given to one engine and buffers to both; the packet's first
    frame is lost, and so is the first acknowledgement: the packet is sent
    again, twice, and handed up once. *)
Definition example_run : list action :=
  [Submit true example_packet; Supply false example_buffer; Supply true example_buffer; Poll true; Lose true; Poll false]
  ++ replicate 25 (Poll true) ++ [Poll true; Poll false; Supply false example_buffer; Poll false; Lose false]
  ++ replicate 25 (Poll true) ++ [Poll true] ++ replicate 26 (Poll false) ++ [Poll true].

Lemma reliable_delivery_witness :
  ∃ y, run 100 example_run example_system = Some y ∧ initial example_system ∧ rtc step example_system y ∧
    send_packet (engine y true) = None ∧ map content (delivered y false) = [(5, 3, [192; 219; 7])] ∧
    map content (reliables (delivered y false)) = map content (reliables (submitted y true)).
Proof.
  assert (initial example_system) as H0 by (intros b; by split_and!).
  destruct (run 100 example_run example_system) as [y|] eqn:E.
  2:{ exfalso. assert (is_Some (run 100 example_run example_system)) as [? ?] by (vm_compute; by eexists). congruence. }
  exists y. split; [done|]. split; [done|]. pose proof (run_steps _ _ _ _ E) as Hrun. split; [exact Hrun|].
  pose proof (reliable_delivery _ _ true H0 Hrun) as (_ & _ & H1). clear Hrun.
  assert (option_map (λ y, (send_packet (engine y true), map content (delivered y false))) (run 100 example_run example_system)
          = Some (None, [(5, 3, [192; 219; 7])])) as H by (vm_compute; reflexivity).
  rewrite E in H. injection H as H2 H3. split; [exact H2|]. split; [exact H3|]. by apply H1.
Defined.
