(* ===== verification/Sbc.v ===== *)
(** utils/sbc/sbc.c: the frames of the SBC audio codec, from bits to subband
    samples and back: checksum, bit allocation, unpacking, packing. *)

From stdpp Require Import base list numbers sorting.
From Stdlib Require Import ZArith Lia.
From S2P Require Import Prelude.

Local Open Scope Z_scope.

(** * Data *)

Definition SBC_SYNCWORD : Z := 156.

Definition SBC_FREQ_16000 : Z := 0.
Definition SBC_FREQ_32000 : Z := 1.
Definition SBC_FREQ_44100 : Z := 2.
Definition SBC_FREQ_48000 : Z := 3.

Definition SBC_BLK_4 : Z := 0.
Definition SBC_BLK_8 : Z := 1.
Definition SBC_BLK_12 : Z := 2.
Definition SBC_BLK_16 : Z := 3.

Definition SBC_MODE_MONO : Z := 0.
Definition SBC_MODE_DUAL_CHANNEL : Z := 1.
Definition SBC_MODE_STEREO : Z := 2.
Definition SBC_MODE_JOINT_STEREO : Z := 3.

Definition SBC_AM_LOUDNESS : Z := 0.
Definition SBC_AM_SNR : Z := 1.

Definition SBC_SB_4 : Z := 0.
Definition SBC_SB_8 : Z := 1.

Definition SBC_LE : Z := 0.
Definition SBC_BE : Z := 1.

Definition SCALE_OUT_BITS : Z := 15.

Definition sbc_offset4 : list (list Z) :=
  [[-1; 0; 0; 0]; [-2; 0; 0; 1]; [-2; 0; 0; 1]; [-2; 0; 0; 1]].

Definition sbc_offset8 : list (list Z) :=
  [[-2; 0; 0; 0; 0; 0; 0; 1]; [-3; 0; 0; 0; 0; 0; 1; 2]; [-4; 0; 0; 0; 0; 0; 1; 2]; [-4; 0; 0; 0; 0; 0; 1; 2]].

(** An unpacked frame. The arrays hold the entries of the frame's channels,
    subbands and blocks only: the code never reads the others. Rows are
    channels, and samples are indexed by block, channel and subband. *)
Record sbc_frame := Frame {
  frequency : Z;
  block_mode : Z;
  blocks : Z;
  mode : Z;
  channels : Z;
  allocation : Z;
  subband_mode : Z;
  subbands : Z;
  bitpool : Z;
  codesize : Z;
  frame_length : Z;
  joint : Z;
  scale_factor : list (list Z);
  sb_sample_f : list (list (list Z));
  sb_sample : list (list (list Z));
  pcm_sample : list (list Z)
}.

Definition set_header (fq bm bl md ch am sm sb : Z) (fr : sbc_frame) : sbc_frame :=
  Frame fq bm bl md ch am sm sb (bitpool fr) (codesize fr) (frame_length fr) (joint fr)
    (scale_factor fr) (sb_sample_f fr) (sb_sample fr) (pcm_sample fr).
Definition set_bitpool (v : Z) (fr : sbc_frame) : sbc_frame :=
  Frame (frequency fr) (block_mode fr) (blocks fr) (mode fr) (channels fr) (allocation fr) (subband_mode fr) (subbands fr)
    v (codesize fr) (frame_length fr) (joint fr) (scale_factor fr) (sb_sample_f fr) (sb_sample fr) (pcm_sample fr).
Definition set_sizes (cs len : Z) (fr : sbc_frame) : sbc_frame :=
  Frame (frequency fr) (block_mode fr) (blocks fr) (mode fr) (channels fr) (allocation fr) (subband_mode fr) (subbands fr)
    (bitpool fr) cs len (joint fr) (scale_factor fr) (sb_sample_f fr) (sb_sample fr) (pcm_sample fr).
Definition set_joint (v : Z) (fr : sbc_frame) : sbc_frame :=
  Frame (frequency fr) (block_mode fr) (blocks fr) (mode fr) (channels fr) (allocation fr) (subband_mode fr) (subbands fr)
    (bitpool fr) (codesize fr) (frame_length fr) v (scale_factor fr) (sb_sample_f fr) (sb_sample fr) (pcm_sample fr).
Definition set_scale_factor (v : list (list Z)) (fr : sbc_frame) : sbc_frame :=
  Frame (frequency fr) (block_mode fr) (blocks fr) (mode fr) (channels fr) (allocation fr) (subband_mode fr) (subbands fr)
    (bitpool fr) (codesize fr) (frame_length fr) (joint fr) v (sb_sample_f fr) (sb_sample fr) (pcm_sample fr).
Definition set_sb_sample_f (v : list (list (list Z))) (fr : sbc_frame) : sbc_frame :=
  Frame (frequency fr) (block_mode fr) (blocks fr) (mode fr) (channels fr) (allocation fr) (subband_mode fr) (subbands fr)
    (bitpool fr) (codesize fr) (frame_length fr) (joint fr) (scale_factor fr) v (sb_sample fr) (pcm_sample fr).
Definition set_sb_sample (v : list (list (list Z))) (fr : sbc_frame) : sbc_frame :=
  Frame (frequency fr) (block_mode fr) (blocks fr) (mode fr) (channels fr) (allocation fr) (subband_mode fr) (subbands fr)
    (bitpool fr) (codesize fr) (frame_length fr) (joint fr) (scale_factor fr) (sb_sample_f fr) v (pcm_sample fr).
Definition set_pcm_sample (v : list (list Z)) (fr : sbc_frame) : sbc_frame :=
  Frame (frequency fr) (block_mode fr) (blocks fr) (mode fr) (channels fr) (allocation fr) (subband_mode fr) (subbands fr)
    (bitpool fr) (codesize fr) (frame_length fr) (joint fr) (scale_factor fr) (sb_sample_f fr) (sb_sample fr) v.

(** One channel, or two that are coded on their own. *)
Definition separate (fr : sbc_frame) : bool := (mode fr =? SBC_MODE_MONO) || (mode fr =? SBC_MODE_DUAL_CHANNEL).
Definition together (fr : sbc_frame) : bool := (mode fr =? SBC_MODE_STEREO) || (mode fr =? SBC_MODE_JOINT_STEREO).

(** * The checksum *)

Definition crc_table : list Z :=
  [0; 29; 58; 39; 116; 105; 78; 83; 232; 245; 210; 207; 156; 129; 166; 187;
   205; 208; 247; 234; 185; 164; 131; 158; 37; 56; 31; 2; 81; 76; 107; 118;
   135; 154; 189; 160; 243; 238; 201; 212; 111; 114; 85; 72; 27; 6; 33; 60;
   74; 87; 112; 109; 62; 35; 4; 25; 162; 191; 152; 133; 214; 203; 236; 241;
   19; 14; 41; 52; 103; 122; 93; 64; 251; 230; 193; 220; 143; 146; 181; 168;
   222; 195; 228; 249; 170; 183; 144; 141; 54; 43; 12; 17; 66; 95; 120; 101;
   148; 137; 174; 179; 224; 253; 218; 199; 124; 97; 70; 91; 8; 21; 50; 47;
   89; 68; 99; 126; 45; 48; 23; 10; 177; 172; 139; 150; 197; 216; 255; 226;
   38; 59; 28; 1; 82; 79; 104; 117; 206; 211; 244; 233; 186; 167; 128; 157;
   235; 246; 209; 204; 159; 130; 165; 184; 3; 30; 57; 36; 119; 106; 77; 80;
   161; 188; 155; 134; 213; 200; 239; 242; 73; 84; 115; 110; 61; 32; 7; 26;
   108; 113; 86; 75; 24; 5; 34; 63; 132; 153; 190; 163; 240; 237; 202; 215;
   53; 40; 15; 18; 65; 92; 123; 102; 221; 192; 231; 250; 169; 180; 147; 142;
   248; 229; 194; 223; 140; 145; 182; 171; 16; 13; 42; 55; 100; 121; 94; 67;
   178; 175; 136; 149; 198; 219; 252; 225; 90; 71; 96; 125; 46; 51; 20; 9;
   127; 98; 69; 88; 11; 22; 49; 44; 151; 138; 173; 176; 227; 254; 217; 196].

(** The last, incomplete octet, bit by bit. *)
Fixpoint crc8_bits (n : nat) (octet crc : Z) : Z :=
  match n with
  | O => crc
  | S n =>
      let bit := Z.shiftr (Z.land (Z.lxor octet crc) 128) 7 in
      crc8_bits n (to_u8 (Z.shiftl octet 1)) (Z.lxor (Z.shiftl (Z.land crc 127) 1) (if bit =? 0 then 0 else 29))
  end.

Definition crc8_octets (l : list Z) (crc : Z) : Z :=
  foldl (λ crc octet, nth (Z.to_nat (Z.lxor crc octet)) crc_table 0) crc l.

Definition sbc_crc8 (data : list Z) (len : Z) : outcome Z :=
  whole ← rd (Z.to_nat (len / 8)) data;
  octet ← rd8 (adv (len / 8) data);
  Ret (crc8_bits (Z.to_nat (len mod 8)) octet (crc8_octets whole 15)).

(** * Bit allocation

    The code computes the bits of one channel at a time, or of two together;
    the needs of two channels are listed subband by subband, the order in
    which bits left over are given out. *)

Definition bitneed (fr : sbc_frame) (sb : nat) (sf : Z) : Z :=
  if allocation fr =? SBC_AM_SNR then sf
  else if sf =? 0 then -5
  else
    let offset := if subbands fr =? 4 then sbc_offset4 else sbc_offset8 in
    let loudness := sf - nth sb (nth (Z.to_nat (frequency fr)) offset []) 0 in
    if 0 <? loudness then loudness / 2 else loudness.

Definition max_bitneed (needs : list Z) : Z := foldl (λ m n, if m <? n then n else m) 0 needs.

Definition slice_need (bitslice need : Z) : Z :=
  if (bitslice + 1 <? need) && (need <? bitslice + 16) then 1
  else if need =? bitslice + 1 then 2 else 0.
Definition slice_count (needs : list Z) (bitslice : Z) : Z :=
  foldl (λ c need, c + slice_need bitslice need) 0 needs.

Fixpoint slice_loop (fuel : nat) (needs : list Z) (bitpool bitcount slicecount bitslice : Z) : outcome (Z * Z * Z) :=
  match fuel with
  | O => NoFuel
  | S fuel =>
      let bitslice := bitslice - 1 in
      let bitcount := bitcount + slicecount in
      let slicecount := slice_count needs bitslice in
      if bitcount + slicecount <? bitpool then slice_loop fuel needs bitpool bitcount slicecount bitslice
      else Ret (bitcount, slicecount, bitslice)
  end.

Definition base_bits (bitslice need : Z) : Z :=
  if need <? bitslice + 2 then 0 else if 16 <? need - bitslice then 16 else need - bitslice.

(** The two loops over the bits left; an entry is its need and its bits. *)
Fixpoint spread_bits (bitpool bitslice bitcount : Z) (l : list (Z * Z)) : list Z * Z :=
  match l with
  | [] => ([], bitcount)
  | (need, bits) :: l =>
      let '(bits, bitcount) :=
        if bitcount <? bitpool then
          if (2 <=? bits) && (bits <? 16) then (bits + 1, bitcount + 1)
          else if (need =? bitslice + 1) && (bitcount + 1 <? bitpool) then (2, bitcount + 2)
          else (bits, bitcount)
        else (bits, bitcount) in
      let '(r, bitcount) := spread_bits bitpool bitslice bitcount l in (bits :: r, bitcount)
  end.

Fixpoint spread_rest (bitpool bitcount : Z) (l : list Z) : list Z * Z :=
  match l with
  | [] => ([], bitcount)
  | bits :: l =>
      let '(bits, bitcount) :=
        if (bitcount <? bitpool) && (bits <? 16) then (bits + 1, bitcount + 1) else (bits, bitcount) in
      let '(r, bitcount) := spread_rest bitpool bitcount l in (bits :: r, bitcount)
  end.

Definition slice_fuel : nat := 64.

Definition allocate (needs : list Z) (bitpool : Z) : outcome (list Z) :=
  r ← slice_loop slice_fuel needs bitpool 0 0 (max_bitneed needs + 1);
  let '(bitcount, slicecount, bitslice) := r in
  let '(bitcount, bitslice) :=
    if bitcount + slicecount =? bitpool then (bitcount + slicecount, bitslice - 1) else (bitcount, bitslice) in
  let '(bits, bitcount) := spread_bits bitpool bitslice bitcount (map (λ need, (need, base_bits bitslice need)) needs) in
  Ret (spread_rest bitpool bitcount bits).1.

Definition interleave (a b : list Z) : list Z := concat (zip_with (λ x y, [x; y]) a b).
Fixpoint deinterleave (l : list Z) : list Z * list Z :=
  match l with
  | x :: y :: l => let '(a, b) := deinterleave l in (x :: a, y :: b)
  | _ => ([], [])
  end.

Definition bitneeds (fr : sbc_frame) (row : list Z) : list Z := imap (bitneed fr) row.

Definition sbc_calculate_bits (fr : sbc_frame) : outcome (list (list Z)) :=
  if (allocation fr =? SBC_AM_SNR) || (frequency fr <? 4) then
    if separate fr then mapM (λ row, allocate (bitneeds fr row) (bitpool fr)) (scale_factor fr)
    else
      match together fr, scale_factor fr with
      | true, [row0; row1] =>
          bits ← allocate (interleave (bitneeds fr row0) (bitneeds fr row1)) (bitpool fr);
          let '(a, b) := deinterleave bits in Ret [a; b]
      | _, _ => Undef
      end
  else Undef.

(** * Unpacking *)

(** The bit at a position; the position is not compared with the length here. *)
Definition bit_at (data : list Z) (consumed : Z) : outcome Z :=
  b ← rd8 (adv (consumed / 8) data); Ret (Z.land (Z.shiftr b (7 - consumed mod 8)) 1).

(** The bits of a sample that are [todo], or [None] when the data is too
    short. *)
Fixpoint read_sample (todo : nat) (data : list Z) (len consumed sample : Z) : outcome (option (Z * Z)) :=
  match todo with
  | O => Ret (Some (sample, consumed))
  | S todo =>
      if len * 8 <? consumed then Ret None
      else
        b ← bit_at data consumed;
        read_sample todo data len (consumed + 1)
          (if b =? 0 then sample else Z.lor sample (Z.shiftl 1 (Z.of_nat todo)))
  end.

Definition level (bits : Z) : Z := Z.shiftl 1 bits - 1.

(** The value of a sample; the shift is done in 32 bits. *)
Definition dequantize (sample bits sf : Z) : Z :=
  to_i32 (to_u32 (Z.shiftl (Z.lor (Z.shiftl sample 1) 1) sf) / level bits - Z.shiftl 1 sf).

(** The samples of a channel, of a block and of all blocks; an entry of a row
    holds the bits and the scale factor of its subband. *)
Fixpoint read_row (row : list (Z * Z)) (data : list Z) (len consumed : Z) : outcome (option (list Z * Z)) :=
  match row with
  | [] => Ret (Some ([], consumed))
  | (bits, sf) :: row =>
      r ← (if 0 <? level bits then read_sample (Z.to_nat bits) data len consumed 0 else Ret (Some (0, consumed)));
      match r with
      | None => Ret None
      | Some (sample, consumed) =>
          let v := if 0 <? level bits then dequantize sample bits sf else 0 in
          r ← read_row row data len consumed;
          Ret (match r with Some (vs, consumed) => Some (v :: vs, consumed) | None => None end)
      end
  end.

Fixpoint read_block (rows : list (list (Z * Z))) (data : list Z) (len consumed : Z) : outcome (option (list (list Z) * Z)) :=
  match rows with
  | [] => Ret (Some ([], consumed))
  | row :: rows =>
      r ← read_row row data len consumed;
      match r with
      | None => Ret None
      | Some (vs, consumed) =>
          r ← read_block rows data len consumed;
          Ret (match r with Some (b, consumed) => Some (vs :: b, consumed) | None => None end)
      end
  end.

Fixpoint read_blocks (n : nat) (rows : list (list (Z * Z))) (data : list Z) (len consumed : Z)
    : outcome (option (list (list (list Z)) * Z)) :=
  match n with
  | O => Ret (Some ([], consumed))
  | S n =>
      r ← read_block rows data len consumed;
      match r with
      | None => Ret None
      | Some (b, consumed) =>
          r ← read_blocks n rows data len consumed;
          Ret (match r with Some (bs, consumed) => Some (b :: bs, consumed) | None => None end)
      end
  end.

(** Joined subbands hold the sum and the difference of the channels. *)
Definition unjoin_pair (joint : Z) (sb : nat) (p : Z * Z) : Z * Z :=
  if Z.testbit joint (Z.of_nat sb) then (to_i32 (p.1 + p.2), to_i32 (p.1 - p.2)) else p.
Definition unjoin (joint : Z) (block : list (list Z)) : list (list Z) :=
  match block with
  | [a; b] => let l := imap (unjoin_pair joint) (zip a b) in [map fst l; map snd l]
  | _ => block
  end.

(** [crc_header] is an array of eleven octets: an octet or half an octet is
    put at bit [pos]. *)
Definition header_octet (hdr : list Z) (pos : Z) : Z := nth (Z.to_nat (pos / 8)) hdr 0.
Definition header_set (hdr : list Z) (pos v : Z) : list Z := <[Z.to_nat (pos / 8) := v]> hdr.

(** [n] scale factors: what was read, the header for the checksum and the two
    positions after. *)
Fixpoint read_factors (n : nat) (data : list Z) (consumed : Z) (hdr : list Z) (pos : Z)
    : outcome (list Z * Z * list Z * Z) :=
  match n with
  | O => Ret ([], consumed, hdr, pos)
  | S n =>
      b ← rd8 (adv (consumed / 8) data);
      let sf := Z.land (Z.shiftr b (4 - consumed mod 8)) 15 in
      let hdr := header_set hdr pos (Z.lor (header_octet hdr pos) (to_u8 (Z.shiftl sf (4 - pos mod 8)))) in
      r ← read_factors n data (consumed + 4) hdr (pos + 4);
      let '(l, consumed, hdr, pos) := r in Ret (sf :: l, consumed, hdr, pos)
  end.

(** The flags of the joined subbands, in the order of the subbands. *)
Definition read_joint (b : Z) (n : nat) : Z :=
  foldl (λ j sb, Z.lor j (Z.shiftl (Z.land (Z.shiftr b (7 - Z.of_nat sb)) 1) (Z.of_nat sb))) 0 (seq 0 n).

(** The array the checksum is made of is followed by [stray] on the stack:
    when the header fills the array, [sbc_crc8] reads that octet and has no use
    for it. *)
Section frame.
Variable stray : Z.

Definition crc_header0 (a b : Z) : list Z := [a; b] ++ replicate 9 0.

Definition unpack_header (data : list Z) (fr : sbc_frame) : outcome sbc_frame :=
  b1 ← rd8 (adv 1 data);
  b2 ← rd8 (adv 2 data);
  let bm := Z.land (Z.shiftr b1 4) 3 in
  let md := Z.land (Z.shiftr b1 2) 3 in
  let sm := Z.land b1 1 in
  Ret (set_bitpool b2 (set_header (Z.land (Z.shiftr b1 6) 3) bm
         (if bm =? SBC_BLK_4 then 4 else if bm =? SBC_BLK_8 then 8 else if bm =? SBC_BLK_12 then 12 else 16)
         md (if md =? SBC_MODE_MONO then 1 else 2) (Z.land (Z.shiftr b1 1) 1) sm (if sm =? 0 then 4 else 8) fr)).

(** When the data ends in the audio part the samples read so far are left out:
    nothing reads them before the next frame replaces them. *)
Definition unpack_audio (data : list Z) (fr : sbc_frame) (len consumed : Z) : outcome (Z * sbc_frame) :=
  bits ← sbc_calculate_bits fr;
  r ← read_blocks (Z.to_nat (blocks fr)) (zip_with zip bits (scale_factor fr)) data len consumed;
  match r with
  | None => Ret (-1, fr)
  | Some (samples, consumed) =>
      let samples := if mode fr =? SBC_MODE_JOINT_STEREO then map (unjoin (joint fr)) samples else samples in
      let consumed := if Z.land consumed 7 =? 0 then consumed else consumed + (8 - Z.land consumed 7) in
      Ret (Z.shiftr consumed 3, set_sb_sample samples fr)
  end.

(** The flags of the joined subbands, when there are any: the frame, the
    header of the checksum and the bits read. *)
Definition unpack_joint (data : list Z) (fr : sbc_frame) (hdr : list Z) : outcome (sbc_frame * list Z * Z) :=
  if mode fr =? SBC_MODE_JOINT_STEREO then
    b4 ← rd8 (adv 4 data);
    Ret (set_joint (read_joint b4 (Z.to_nat (subbands fr - 1))) fr,
         header_set hdr 16 (if subbands fr =? 4 then Z.land b4 240 else b4), subbands fr)
  else Ret (fr, hdr, 0).

Definition rows_of (n : nat) (l : list Z) (channels : Z) : list (list Z) :=
  if channels =? 1 then [take n l] else [take n l; drop n l].

Definition sbc_unpack_frame (data : list Z) (fr : sbc_frame) (len : Z) : outcome (Z * sbc_frame) :=
  if len <? 4 then Ret (-1, fr)
  else
    b0 ← rd8 data;
    if negb (b0 =? SBC_SYNCWORD) then Ret (-2, fr)
    else
      fr ← unpack_header data fr;
      if separate fr && (16 * subbands fr <? bitpool fr) then Ret (-4, fr)
      else if together fr && (32 * subbands fr <? bitpool fr) then Ret (-4, fr)
      else
        b1 ← rd8 (adv 1 data);
        if (mode fr =? SBC_MODE_JOINT_STEREO) && (len * 8 <? 32 + subbands fr) then Ret (-1, fr)
        else
          r ← unpack_joint data fr (crc_header0 b1 (bitpool fr));
          let '(fr, hdr, n) := r in
          if len * 8 <? 32 + n + 4 * subbands fr * channels fr then Ret (-1, fr)
          else
            r ← read_factors (Z.to_nat (subbands fr * channels fr)) data (32 + n) hdr (16 + n);
            let '(l, consumed, hdr, pos) := r in
            let fr := set_scale_factor (rows_of (Z.to_nat (subbands fr)) l (channels fr)) fr in
            crc ← sbc_crc8 (hdr ++ [stray]) pos;
            b3 ← rd8 (adv 3 data);
            if negb (b3 =? crc) then Ret (-3, fr) else unpack_audio data fr len consumed.

(** * Packing

    The state of the bitstream writer: the octets written, the cache and the
    number of bits in it. *)

Definition put_bits (w : list Z * Z * Z) (v n : Z) : list Z * Z * Z :=
  let '(out, bits_cache, bits_count) := w in
  let bits_cache := Z.lor v (to_u32 (Z.shiftl bits_cache n)) in
  let bits_count := bits_count + n in
  if 16 <=? bits_count then
    (out ++ [to_u8 (Z.shiftr bits_cache (bits_count - 8)); to_u8 (Z.shiftr bits_cache (bits_count - 16))],
     bits_cache, bits_count - 16)
  else (out, bits_cache, bits_count).

Fixpoint flush_octets (n : nat) (w : list Z * Z * Z) : list Z * Z * Z :=
  match n with
  | O => w
  | S n =>
      let '(out, bits_cache, bits_count) := w in
      flush_octets n (out ++ [to_u8 (Z.shiftr bits_cache (bits_count - 8))], bits_cache, bits_count - 8)
  end.

Definition flush_bits (w : list Z * Z * Z) : list Z :=
  let '(out, bits_cache, bits_count) := flush_octets (Z.to_nat (w.2 / 8)) w in
  if 0 <? bits_count then out ++ [to_u8 (Z.shiftl bits_cache (8 - bits_count))] else out.

(** ** Joint stereo *)

Definition asr1 (v : Z) : Z := Z.shiftr v 1.

(** The smallest scale factor for the samples so far: [scale] is the bound it
    stands for. *)
Fixpoint raise_factor (fuel : nat) (tmp factor scale : Z) : outcome (Z * Z) :=
  if scale <? tmp then
    match fuel with
    | O => NoFuel
    | S fuel => raise_factor fuel tmp (to_u8 (factor + 1)) (to_u32 (scale * 2))
    end
  else Ret (factor, scale).

Definition raise_fuel : nat := 16.

Fixpoint joint_factor (col : list Z) (factor scale : Z) : outcome Z :=
  match col with
  | [] => Ret factor
  | s :: col =>
      r ← raise_factor raise_fuel (to_u32 (Z.abs s)) factor scale;
      joint_factor col r.1 r.2
  end.

(** The samples of a subband in the two channels, and their entry in a row. *)
Definition column (sb ch : nat) (samples : list (list (list Z))) : list Z :=
  map (λ block, nth sb (nth ch block []) 0) samples.
Definition set_column (sb ch : nat) (col : list Z) (samples : list (list (list Z))) : list (list (list Z)) :=
  zip_with (λ v block, alter (insert sb v) ch block) col samples.

Definition factor_at (fr : sbc_frame) (ch sb : nat) : Z := nth sb (nth ch (scale_factor fr) []) 0.

(** Whether to join a subband. *)
Definition join_subband (sb : nat) (fr : sbc_frame) : outcome sbc_frame :=
  let left := map asr1 (column sb 0 (sb_sample_f fr)) in
  let right := map asr1 (column sb 1 (sb_sample_f fr)) in
  let sum := zip_with (λ a b, to_i32 (a + b)) left right in
  let difference := zip_with (λ a b, to_i32 (a - b)) left right in
  let scale := Z.shiftl 2 SCALE_OUT_BITS in
  j0 ← joint_factor sum 0 scale;
  j1 ← joint_factor difference 0 scale;
  Ret (if j0 + j1 <? factor_at fr 0 sb + factor_at fr 1 sb then
         set_joint (Z.lor (joint fr) (Z.shiftl 1 (Z.of_nat sb)))
           (set_scale_factor (alter (insert sb j1) 1%nat (alter (insert sb j0) 0%nat (scale_factor fr)))
              (set_sb_sample_f (set_column sb 1 difference (set_column sb 0 sum (sb_sample_f fr))) fr))
       else fr).

Fixpoint join_subbands (sbs : list nat) (fr : sbc_frame) : outcome sbc_frame :=
  match sbs with
  | [] => Ret fr
  | sb :: sbs => fr ← join_subband sb fr; join_subbands sbs fr
  end.

(** The flags as they are written: those of [joint] in reverse order. *)
Definition joint_flags (subbands joint : Z) : Z :=
  foldl (λ j sb, if Z.testbit joint (Z.of_nat sb) then Z.lor j (Z.shiftl 1 (subbands - 1 - Z.of_nat sb)) else j) 0
    (seq 0 (Z.to_nat (subbands - 1))).

(** ** The frame *)

(** A scale factor goes to the bitstream and to the header of the checksum. *)
Fixpoint put_factors (l : list Z) (w : list Z * Z * Z) (hdr : list Z) (pos : Z) : list Z * Z * Z * list Z * Z :=
  match l with
  | [] => (w, hdr, pos)
  | sf :: l =>
      let hdr := header_set hdr pos (Z.lor (to_u8 (Z.shiftl (header_octet hdr pos) 4)) (Z.land sf 15)) in
      put_factors l (put_bits w (Z.land sf 15) 4) hdr (pos + 4)
  end.

(** The sample as a fraction of the range its scale factor stands for. *)
Definition quantize (s bits sf : Z) : Z :=
  let levels := to_u32 (Z.shiftl (level bits) (32 - (sf + SCALE_OUT_BITS + 2))) in
  let delta := to_u32 (Z.shiftl 1 (sf + SCALE_OUT_BITS + 1)) in
  to_u32 (Z.shiftr (levels * to_u32 (delta + s)) 32).

Fixpoint put_row (row : list (Z * Z)) (samples : list Z) (w : list Z * Z * Z) : list Z * Z * Z :=
  match row, samples with
  | (bits, sf) :: row, s :: samples =>
      put_row row samples (if bits =? 0 then w else put_bits w (quantize s bits sf) bits)
  | _, _ => w
  end.

Definition put_block (rows : list (list (Z * Z))) (w : list Z * Z * Z) (block : list (list Z)) : list Z * Z * Z :=
  foldl (λ w p, put_row p.1 p.2 w) w (zip rows block).

Definition align_header (hdr : list Z) (pos : Z) : list Z :=
  if pos mod 8 =? 0 then hdr else header_set hdr pos (to_u8 (Z.shiftl (header_octet hdr pos) (8 - pos mod 8))).

Definition header_byte (fq bm md am sb : Z) : Z :=
  Z.lor (Z.lor (Z.lor (Z.lor (to_u8 (Z.shiftl (Z.land fq 3) 6)) (Z.shiftl (Z.land bm 3) 4)) (Z.shiftl (Z.land md 3) 2))
    (Z.shiftl (Z.land am 1) 1)) (if sb =? 4 then 0 else 1).

(** The flags of the joined subbands, when there are any. *)
Definition pack_prefix (fr : sbc_frame) (hdr : list Z) : outcome (sbc_frame * (list Z * Z * Z) * list Z * Z) :=
  if mode fr =? SBC_MODE_JOINT_STEREO then
    fr ← join_subbands (seq 0 (Z.to_nat (subbands fr - 1))) (set_joint 0 fr);
    let flags := joint_flags (subbands fr) (joint fr) in
    Ret (fr, put_bits ([], 0, 0) flags (subbands fr), header_set hdr 16 flags, 16 + subbands fr)
  else Ret (fr, ([], 0, 0), hdr, 16).

(** The result, the octets written to the output and the frame. *)
Definition sbc_pack_frame (fr : sbc_frame) : outcome (Z * list Z * sbc_frame) :=
  let b1 := header_byte (frequency fr) (block_mode fr) (mode fr) (allocation fr) (subbands fr) in
  if separate fr && (Z.shiftl (subbands fr) 4 <? bitpool fr) then Ret (-5, [SBC_SYNCWORD; b1; bitpool fr], fr)
  else if together fr && (Z.shiftl (subbands fr) 5 <? bitpool fr) then Ret (-5, [SBC_SYNCWORD; b1; bitpool fr], fr)
  else
    r ← pack_prefix fr (crc_header0 b1 (bitpool fr));
    let '(fr, w, hdr, pos) := r in
    let '(w, hdr, pos) := put_factors (concat (scale_factor fr)) w hdr pos in
    let hdr := align_header hdr pos in
    crc ← sbc_crc8 (hdr ++ [stray]) pos;
    bits ← sbc_calculate_bits fr;
    let w := foldl (put_block (zip_with zip bits (scale_factor fr))) w (sb_sample_f fr) in
    let data := [SBC_SYNCWORD; b1; bitpool fr; crc] ++ flush_bits w in
    Ret (Z.of_nat (length data), data, fr).

End frame.
