(* ===== verification/SbcBits.v ===== *)
(** utils/sbc/sbc.c: bit allocation. Theorem: [sbc_calculate_bits] terminates
    and gives out the bit pool to the last bit. *)

From stdpp Require Import base list numbers sorting.
From Stdlib Require Import ZArith Lia.
From S2P Require Import Prelude Sbc.

Local Open Scope Z_scope.

(** Decide every comparison of the goal. *)
Ltac decide_bools := repeat (
  match goal with
  | |- context [?a <? ?b] => destruct (Z.ltb_spec a b)
  | |- context [?a <=? ?b] => destruct (Z.leb_spec a b)
  | |- context [?a =? ?b] => destruct (Z.eqb_spec a b)
  end; cbn [andb orb negb]).

Fixpoint zsum (l : list Z) : Z :=
  match l with
  | [] => 0
  | x :: l => x + zsum l
  end.

Lemma zsum_app a b : zsum (a ++ b) = zsum a + zsum b.
Proof. induction a as [|x a IH]; cbn [app zsum]; lia. Qed.

Lemma zsum_bounds lo hi l : Forall (λ b, lo ≤ b ≤ hi) l → lo * Z.of_nat (length l) ≤ zsum l ≤ hi * Z.of_nat (length l).
Proof. induction 1 as [|b l Hb _ IH]; cbn [length zsum]; lia. Qed.

(** * The slices

    The bits of all needs at a slice: what the code has counted when it gets
    there. *)
Definition slice_total (needs : list Z) (bitslice : Z) : Z := zsum (map (base_bits bitslice) needs).

Lemma base_bits_step bitslice need : base_bits (bitslice - 1) need = base_bits bitslice need + slice_need bitslice need.
Proof.
  unfold base_bits, slice_need.
  decide_bools; lia.
Qed.

Lemma slice_count_sum needs bitslice : slice_count needs bitslice = zsum (map (slice_need bitslice) needs).
Proof.
  unfold slice_count. enough (∀ c, foldl (λ c need, c + slice_need bitslice need) c needs = c + zsum (map (slice_need bitslice) needs))
    as H by (by rewrite H).
  induction needs as [|n needs IH]; intros c; cbn; [lia|]. rewrite IH. lia.
Qed.

Lemma slice_needs_nonneg bitslice needs : 0 ≤ zsum (map (slice_need bitslice) needs).
Proof. induction needs as [|n needs IH]; cbn; [lia|]. unfold slice_need at 1. decide_bools; lia. Qed.

Lemma slice_total_step needs bitslice :
  slice_total needs (bitslice - 1) = slice_total needs bitslice + slice_count needs bitslice.
Proof.
  rewrite slice_count_sum. unfold slice_total. induction needs as [|n needs IH]; [done|]. cbn.
  rewrite base_bits_step. lia.
Qed.

(** Nothing is counted at the highest need, and everything far below the
    lowest. *)
Lemma max_bitneed_spec needs : 0 ≤ max_bitneed needs ∧ Forall (λ n, n ≤ max_bitneed needs) needs.
Proof.
  unfold max_bitneed. enough (∀ m, m ≤ foldl (λ m n, if m <? n then n else m) m needs ∧
    Forall (λ n, n ≤ foldl (λ m n, if m <? n then n else m) m needs) needs) as H by apply H.
  induction needs as [|n needs IH]; intros m; cbn; [split; [lia|constructor]|].
  destruct (IH (if m <? n then n else m)) as [H1 H2]. destruct (Z.ltb_spec m n); (split; [lia|constructor; [lia|done]]).
Qed.

Lemma max_bitneed_bound needs hi : 0 ≤ hi → Forall (λ n, n ≤ hi) needs → max_bitneed needs ≤ hi.
Proof.
  unfold max_bitneed. intros Hhi Hn. enough (∀ m, m ≤ hi → foldl (λ m n, if m <? n then n else m) m needs ≤ hi) as H by auto.
  induction Hn as [|n needs Hn _ IH]; intros m Hm; cbn; [done|]. apply IH. destruct (m <? n); lia.
Qed.

Lemma slice_total_top needs : slice_total needs (max_bitneed needs) = 0.
Proof.
  pose proof (max_bitneed_spec needs) as [_ H]. unfold slice_total. revert H. generalize (max_bitneed needs) as m. intros m.
  induction 1 as [|n needs Hn _ IH]; cbn; [done|]. rewrite IH. unfold base_bits.
  rewrite (proj2 (Z.ltb_lt _ _)) by lia. lia.
Qed.

Lemma slice_total_bottom needs bitslice :
  Forall (λ n, bitslice + 16 ≤ n) needs → slice_total needs bitslice = 16 * Z.of_nat (length needs).
Proof.
  unfold slice_total. induction 1 as [|n needs Hn _ IH]; cbn [map zsum length]; [lia|]. rewrite IH.
  unfold base_bits. rewrite (proj2 (Z.ltb_ge _ _)) by lia. destruct (Z.ltb_spec 16 (n - bitslice)); lia.
Qed.

Lemma slice_loop_spec needs bitpool fuel bitcount slicecount bitslice :
  Forall (λ n, -5 ≤ n) needs → bitpool ≤ 16 * Z.of_nat (length needs) →
  bitcount + slicecount = slice_total needs (bitslice - 1) → bitcount + slicecount ≤ bitpool → -20 ≤ bitslice →
  bitslice + 21 ≤ Z.of_nat fuel →
  ∃ bitslice', slice_loop fuel needs bitpool bitcount slicecount bitslice =
    Ret (slice_total needs bitslice', slice_count needs bitslice', bitslice') ∧
    slice_total needs bitslice' ≤ bitpool ≤ slice_total needs (bitslice' - 1).
Proof.
  intros Hn Hp. revert bitcount slicecount bitslice. induction fuel as [|fuel IH]; intros bitcount slicecount bitslice Ht Hle Hb Hf; [lia|].
  cbn [slice_loop]. rewrite Ht, <- slice_total_step.
  destruct (Z.ltb_spec (slice_total needs (bitslice - 1 - 1)) bitpool) as [Hlt|Hge].
  - destruct (decide (bitslice = -20)) as [->|].
    + rewrite slice_total_bottom in Hlt; [lia|]. eapply Forall_impl; [exact Hn|]. cbn. intros. lia.
    + apply IH; rewrite <- ?slice_total_step; [done|lia..].
  - exists (bitslice - 1). split; [done|]. lia.
Qed.

(** * Giving out the bits left *)

Lemma base_bits_range bitslice need : 0 ≤ base_bits bitslice need ≤ 16.
Proof. unfold base_bits. destruct (Z.ltb_spec need (bitslice + 2)); [lia|]. destruct (Z.ltb_spec 16 (need - bitslice)); lia. Qed.

Lemma spread_bits_spec bitpool bitslice needs bitcount :
  bitcount ≤ bitpool →
  let l := map (λ need, (need, base_bits bitslice need)) needs in
  ∃ bits bitcount', spread_bits bitpool bitslice bitcount l = (bits, bitcount') ∧ length bits = length needs ∧
    Forall (λ b, 0 ≤ b ≤ 16) bits ∧ zsum bits - slice_total needs bitslice = bitcount' - bitcount ∧ bitcount' ≤ bitpool ∧
    (bitcount' = bitpool ∨ bitcount' - bitcount = slice_count needs bitslice ∨ (bitcount' = bitpool - 1 ∧ Exists (λ b, b < 16) bits)).
Proof.
  rewrite slice_count_sum. revert bitcount. induction needs as [|n needs IH]; intros bitcount Hc; cbn zeta.
  - exists [], bitcount. cbn. split_and!; try done; [lia|]. right. left. lia.
  - cbn [map spread_bits].
    set (r := if bitcount <? bitpool then _ else _).
    assert (∃ b c, r = (b, c) ∧ 0 ≤ b ≤ 16 ∧ b - base_bits bitslice n = c - bitcount ∧ c ≤ bitpool ∧
      (c = bitpool ∨ c - bitcount = slice_need bitslice n ∨ (c = bitpool - 1 ∧ b < 16))) as (b & c & -> & Hb & Hbc & Hcp & Hcase).
    { subst r. unfold base_bits, slice_need. decide_bools; try (exfalso; lia); eexists _, _; (split; [reflexivity|lia]). }
    destruct (IH c Hcp) as (bits & c' & E & Hl & HF & Hs & Hc' & Hcase'). rewrite E. eexists _, _. split; [done|].
    unfold slice_total in *. cbn [length zsum map]. split_and!; [lia|by constructor|lia|done|].
    destruct Hcase' as [?|[?|[? HE]]]; [lia| |right; right; split; [done|by apply Exists_cons_tl]].
    destruct Hcase as [?|[?|[? ?]]]; [|lia|].
    + pose proof (slice_needs_nonneg bitslice needs). lia.
    + pose proof (slice_needs_nonneg bitslice needs). destruct (decide (c' = bitpool)); [by left|]. right. right.
      split; [lia|apply Exists_cons_hd; lia].
Qed.

Lemma spread_rest_spec bitpool bits bitcount :
  bitcount ≤ bitpool → Forall (λ b, 0 ≤ b ≤ 16) bits →
  ∃ bits' bitcount', spread_rest bitpool bitcount bits = (bits', bitcount') ∧ length bits' = length bits ∧
    Forall (λ b, 0 ≤ b ≤ 16) bits' ∧ zsum bits' - zsum bits = bitcount' - bitcount ∧ bitcount' ≤ bitpool ∧
    (bitcount = bitpool ∨ (bitcount = bitpool - 1 ∧ Exists (λ b, b < 16) bits) → bitcount' = bitpool).
Proof.
  intros Hc HF. revert bitcount Hc. induction HF as [|b bits Hb _ IH]; intros bitcount Hc; cbn [spread_rest].
  - exists [], bitcount. split_and!; try done; [lia|]. intros [?|[_ H]]; [done|]. by apply Exists_nil in H.
  - set (r := if (bitcount <? bitpool) && (b <? 16) then _ else _).
    assert (∃ b' c, r = (b', c) ∧ 0 ≤ b' ≤ 16 ∧ b' - b = c - bitcount ∧ c ≤ bitpool ∧
      (bitcount = bitpool ∨ (bitcount = bitpool - 1 ∧ b < 16) → c = bitpool) ∧ (16 ≤ b → c = bitcount)) as (b' & c & -> & Hb' & Hd & Hcp & H1 & H2).
    { subst r. decide_bools; eexists _, _; (split; [reflexivity|lia]). }
    destruct (IH c Hcp) as (bits' & c' & -> & Hl & HF & Hs & Hc' & Hfull). eexists _, _. split; [done|]. cbn [length zsum].
    split_and!; [lia|by constructor|lia|done|]. intros [E|[E HE]]; apply Hfull; [left; lia|].
    destruct (decide (b < 16)); [left; lia|]. right. split; [lia|]. by apply Exists_cons in HE as [?|?]; [lia|].
Qed.

(** * Allocation for one list of needs *)

Definition needs_ok (needs : list Z) : Prop := Forall (λ n, -5 ≤ n ≤ 15) needs.

Lemma allocate_spec needs bitpool :
  needs_ok needs → 0 ≤ bitpool ≤ 16 * Z.of_nat (length needs) →
  ∃ bits, allocate needs bitpool = Ret bits ∧ length bits = length needs ∧ Forall (λ b, 0 ≤ b ≤ 16) bits ∧ zsum bits = bitpool.
Proof.
  intros Hn Hp. unfold allocate.
  assert (Forall (λ n, -5 ≤ n) needs ∧ Forall (λ n, n ≤ 15) needs) as [Hlo Hhi]
    by (split; (eapply Forall_impl; [exact Hn|]; cbn; lia)).
  pose proof (max_bitneed_spec needs) as [Hm0 _]. pose proof (max_bitneed_bound needs 15 ltac:(lia) Hhi) as Hm.
  destruct (slice_loop_spec needs bitpool slice_fuel 0 0 (max_bitneed needs + 1)) as (bitslice & E & Hle & Hge); try done; try lia.
  { rewrite Z.add_simpl_r, slice_total_top. lia. }
  { unfold slice_fuel. lia. }
  rewrite E, outcome_bind_ret. rewrite <- slice_total_step. cbv beta iota.
  set (r := if slice_total needs (bitslice - 1) =? bitpool then _ else _).
  assert (∃ bs, r = (slice_total needs bs, bs) ∧ slice_total needs bs ≤ bitpool ∧
    (slice_total needs bs = bitpool ∨ bitpool < slice_total needs (bs - 1))) as (bs & -> & Hbs & Hcase).
  { subst r. destruct (Z.eqb_spec (slice_total needs (bitslice - 1)) bitpool); eexists; (split; [reflexivity|]); lia. }
  clear E Hle Hge bitslice.
  destruct (spread_bits_spec bitpool bs needs (slice_total needs bs) Hbs) as (bits & c & -> & Hl & HF & Hs & Hc & Hcase2).
  destruct (spread_rest_spec bitpool bits c Hc HF) as (bits' & c' & -> & Hl' & HF' & Hs' & Hc' & Hfull).
  exists bits'. split; [done|]. split; [lia|]. split; [done|]. cbn [fst].
  assert (c' = bitpool) as ->; [|lia]. apply Hfull.
  pose proof (slice_total_step needs bs). pose proof (slice_needs_nonneg bs needs) as Hnn. rewrite <- slice_count_sum in Hnn.
  destruct Hcase2 as [?|[?|?]]; [by left|left; lia|by right].
Qed.

(** * The frame *)

(** What a header can say, and arrays of the sizes it says. *)
Definition header_fields_ok (fr : sbc_frame) : Prop :=
  0 ≤ frequency fr < 4 ∧ 0 ≤ block_mode fr < 4 ∧ blocks fr = 4 + 4 * block_mode fr ∧ 0 ≤ mode fr < 4 ∧
  channels fr = (if mode fr =? SBC_MODE_MONO then 1 else 2) ∧ 0 ≤ allocation fr < 2 ∧ 0 ≤ subband_mode fr < 2 ∧
  subbands fr = (if subband_mode fr =? 0 then 4 else 8).

Definition bitpool_ok (fr : sbc_frame) : Prop :=
  0 ≤ bitpool fr < 256 ∧ bitpool fr ≤ (if separate fr then 16 else 32) * subbands fr.

Definition factors_ok (fr : sbc_frame) : Prop :=
  Z.of_nat (length (scale_factor fr)) = channels fr ∧
  Forall (λ row, Z.of_nat (length row) = subbands fr ∧ Forall (λ sf, 0 ≤ sf < 16) row) (scale_factor fr).

Lemma bitneed_range fr sb sf : header_fields_ok fr → (sb < 8)%nat → 0 ≤ sf < 16 → -5 ≤ bitneed fr sb sf ≤ 15.
Proof.
  intros (Hf & _) Hsb Hsf. unfold bitneed. destruct (allocation fr =? SBC_AM_SNR); [lia|].
  destruct (Z.eqb_spec sf 0); [lia|].
  assert (∀ o, o = sbc_offset4 ∨ o = sbc_offset8 → -4 ≤ nth sb (nth (Z.to_nat (frequency fr)) o []) 0 ≤ 2) as Ho.
  { assert (Z.to_nat (frequency fr) < 4)%nat as Hfq by lia. revert Hfq. generalize (Z.to_nat (frequency fr)).
    intros i Hi o [-> | ->]; do 4 (destruct i as [|i]; [do 8 (destruct sb as [|sb]; [cbn; lia|]); lia|]); lia. }
  set (o := if subbands fr =? 4 then sbc_offset4 else sbc_offset8).
  specialize (Ho o ltac:(subst o; destruct (_ =? _); by auto)).
  destruct (Z.ltb_spec 0 (sf - nth sb (nth (Z.to_nat (frequency fr)) o []) 0)); [|lia].
  split; [apply Z.div_le_lower_bound; lia|apply Z.div_le_upper_bound; lia].
Qed.

Lemma bitneeds_ok fr row :
  header_fields_ok fr → Z.of_nat (length row) = subbands fr → Forall (λ sf, 0 ≤ sf < 16) row →
  needs_ok (bitneeds fr row) ∧ length (bitneeds fr row) = length row.
Proof.
  intros Hh Hl Hr. split; [|apply length_imap]. unfold needs_ok, bitneeds. apply Forall_lookup. intros i n Hn.
  rewrite list_lookup_imap in Hn. destruct (row !! i) as [sf|] eqn:E; [|done]. injection Hn as <-.
  apply bitneed_range; [done| |by eapply Forall_lookup_1 in Hr].
  apply lookup_lt_Some in E. destruct Hh as (_ & _ & _ & _ & _ & _ & _ & Hs). destruct (subband_mode fr =? 0); lia.
Qed.

Lemma interleave_cons x y a b : interleave (x :: a) (y :: b) = x :: y :: interleave a b.
Proof. done. Qed.

Lemma length_interleave a b : length a = length b → length (interleave a b) = (2 * length a)%nat.
Proof.
  revert b. induction a as [|x a IH]; intros [|y b] H; try done. rewrite interleave_cons. cbn [length] in *.
  rewrite IH by lia. lia.
Qed.

Lemma Forall_interleave (P : Z → Prop) a b : Forall P a → Forall P b → Forall P (interleave a b).
Proof.
  intros Ha. revert b. induction Ha as [|x a Hx _ IH]; intros b Hb; [constructor|].
  destruct b as [|y b]; [constructor|]. apply Forall_cons in Hb as [Hy Hb]. rewrite interleave_cons, !Forall_cons. auto.
Qed.

Lemma deinterleave_spec n l :
  length l = (2 * n)%nat →
  ∃ a b, deinterleave l = (a, b) ∧ length a = n ∧ length b = n ∧ zsum l = zsum a + zsum b ∧
    ∀ P : Z → Prop, Forall P l → Forall P a ∧ Forall P b.
Proof.
  revert l. induction n as [|n IH]; intros l H.
  - destruct l; [|done]. exists [], []. by split_and!.
  - destruct l as [|x [|y l]]; cbn [length] in H; try lia. destruct (IH l ltac:(lia)) as (a & b & E & Ha & Hb & Hs & HP).
    cbn [deinterleave]. rewrite E. exists (x :: a), (y :: b). cbn [length zsum]. split_and!; [done|lia..|].
    intros P HPl. rewrite !Forall_cons in *. destruct HPl as (? & ? & HPl). destruct (HP P HPl). tauto.
Qed.

Definition bits_ok (fr : sbc_frame) (bits : list (list Z)) : Prop :=
  Z.of_nat (length bits) = channels fr ∧
  Forall (λ row, Z.of_nat (length row) = subbands fr ∧ Forall (λ b, 0 ≤ b ≤ 16) row) bits.

Lemma bit_allocation_exact_lemma (fr : sbc_frame) (Hh : header_fields_ok fr) (Hp : bitpool_ok fr) (Hf : factors_ok fr) :
  ∃ bits, sbc_calculate_bits fr = Ret bits ∧ bits_ok fr bits ∧
    if separate fr then Forall (λ row, zsum row = bitpool fr) bits else zsum (concat bits) = bitpool fr.
Proof.
  unfold sbc_calculate_bits. pose proof Hh as (Hfq & _ & _ & Hmd & Hch & _ & _ & Hsb).
  rewrite (proj2 (Z.ltb_lt (frequency fr) 4)) by lia. rewrite orb_true_r. destruct Hf as [Hl Hrows]. destruct Hp as [Hp0 Hp].
  destruct (separate fr) eqn:Hsep; cbv iota in Hp.
  - assert (∃ bits, mapM (λ row, allocate (bitneeds fr row) (bitpool fr)) (scale_factor fr) = Ret bits ∧
      length bits = length (scale_factor fr) ∧
      Forall (λ row, Z.of_nat (length row) = subbands fr ∧ Forall (λ b, 0 ≤ b ≤ 16) row) bits ∧
      Forall (λ row, zsum row = bitpool fr) bits) as (bits & E & H1 & H2 & H3).
    { clear Hl. induction Hrows as [|row rows [Hrl Hrf] _ IH]; [by exists []|]. destruct IH as (bits & E & H1 & H2 & H3).
      destruct (bitneeds_ok fr row Hh Hrl Hrf) as [Hn Hnl].
      destruct (allocate_spec (bitneeds fr row) (bitpool fr) Hn ltac:(lia)) as (b & Eb & Hb1 & Hb2 & Hb3).
      exists (b :: bits). cbn [mapM]. rewrite Eb, outcome_bind_ret, E. split; [done|]. cbn [length].
      split; [lia|]. split; constructor; try done. split; [lia|done]. }
    exists bits. split; [done|]. split; [|done]. split; [lia|done].
  - assert (together fr = true) as -> by (unfold separate, together in *; unfold SBC_MODE_MONO, SBC_MODE_DUAL_CHANNEL,
      SBC_MODE_STEREO, SBC_MODE_JOINT_STEREO in *; revert Hsep; decide_bools; intros; lia).
    assert (channels fr = 2) as Hc2 by (unfold separate in Hsep; apply orb_false_iff in Hsep as [Hm _]; by rewrite Hm in Hch).
    destruct (scale_factor fr) as [|row0 [|row1 [|]]]; cbn [length] in Hl; try lia.
    rewrite !Forall_cons in Hrows. destruct Hrows as ([L0 F0] & [L1 F1] & _).
    destruct (bitneeds_ok fr row0 Hh L0 F0) as [N0 M0], (bitneeds_ok fr row1 Hh L1 F1) as [N1 M1].
    set (needs := interleave _ _). assert (length needs = (2 * length row0)%nat) as Hn by (subst needs; rewrite length_interleave; lia).
    destruct (allocate_spec needs (bitpool fr)) as (b & Eb & Hb1 & Hb2 & Hb3); [by apply Forall_interleave|lia|].
    rewrite Eb, outcome_bind_ret. destruct (deinterleave_spec (length row0) b ltac:(lia)) as (b0 & b1 & -> & E1 & E2 & E3 & HP).
    destruct (HP _ Hb2) as [HP0 HP1]. exists [b0; b1]. split; [done|]. cbn [concat]. rewrite app_nil_r, zsum_app.
    split; [|lia]. split; [cbn; lia|]. repeat constructor; try done; lia.
Qed.

(** C36: Bit allocation is exact. For every header and all scale factors a
    frame can carry, with a bit pool the frame's subbands can hold,
    [sbc_calculate_bits] terminates and gives each subband between zero and
    sixteen bits, which add up to the bit pool in every channel coded on its
    own, and over both channels otherwise: the two loops that give out the
    bits left by the last slice leave none. So the audio part of a frame has
    exactly blocks times bit pool bits (in each separate channel). *)
Theorem bit_allocation_exact (fr : sbc_frame) (Hh : header_fields_ok fr) (Hp : bitpool_ok fr) (Hf : factors_ok fr) :
  ∃ bits, sbc_calculate_bits fr = Ret bits ∧ bits_ok fr bits ∧
    if separate fr then Forall (λ row, zsum row = bitpool fr) bits else zsum (concat bits) = bitpool fr.
Proof. by apply bit_allocation_exact_lemma. Qed.

Definition example_header : sbc_frame :=
  Frame 2 0 4 SBC_MODE_JOINT_STEREO 2 SBC_AM_LOUDNESS SBC_SB_4 4 19 0 0 0 [[5; 15; 0; 2]; [9; 1; 1; 0]] [] [] [].

Lemma bit_allocation_exact_witness :
  ∃ bits, sbc_calculate_bits example_header = Ret bits ∧ bits_ok example_header bits ∧
    if separate example_header then Forall (λ row, zsum row = bitpool example_header) bits else zsum (concat bits) = bitpool example_header.
Proof.
  apply (bit_allocation_exact example_header).
  - repeat split; vm_compute; (reflexivity || congruence).
  - repeat split; vm_compute; (reflexivity || congruence).
  - split; [reflexivity|]. repeat constructor; vm_compute; (reflexivity || congruence).
Defined.
