(* ===== verification/SbcStream.v ===== *)
(** utils/sbc/sbc.c: the bits of a frame. The checksum against its definition
    bit by bit, the bitstream writer against a list of bits, the reader on it.
    Theorem: [sbc_crc8] is the checksum with polynomial 0x1D of the first bits. *)

From stdpp Require Import base list numbers sorting.
From Stdlib Require Import ZArith Lia.
From S2P Require Import Prelude Sbc.

Local Open Scope Z_scope.

(** * Bits

    The [n] low bits of a number, the highest first, and the bits of octets. *)

Fixpoint nbits (n : nat) (v : Z) : list bool :=
  match n with
  | O => []
  | S n => Z.testbit v (Z.of_nat n) :: nbits n v
  end.

Definition bits_of (l : list Z) : list bool := concat (map (nbits 8) l).

Lemma length_nbits n v : length (nbits n v) = n.
Proof. induction n as [|n IH]; cbn [nbits length]; [done|by rewrite IH]. Qed.

Lemma length_bits_of l : length (bits_of l) = (8 * length l)%nat.
Proof. induction l as [|b l IH]; [done|]. change (bits_of (b :: l)) with (nbits 8 b ++ bits_of l). rewrite length_app, length_nbits, IH. cbn [length]. lia. Qed.

Lemma bits_of_app a b : bits_of (a ++ b) = bits_of a ++ bits_of b.
Proof. unfold bits_of. by rewrite map_app, concat_app. Qed.

Lemma bits_of_cons b l : bits_of (b :: l) = nbits 8 b ++ bits_of l.
Proof. done. Qed.

Lemma nbits_ext n v w : (∀ i, 0 ≤ i < Z.of_nat n → Z.testbit v i = Z.testbit w i) → nbits n v = nbits n w.
Proof. induction n as [|n IH]; intros H; cbn [nbits]; [done|]. rewrite (H (Z.of_nat n)) by lia. f_equal. apply IH. intros. apply H. lia. Qed.

Lemma nbits_add a b v : nbits (a + b) v = nbits a (Z.shiftr v (Z.of_nat b)) ++ nbits b v.
Proof.
  induction a as [|a IH]; cbn [nbits Nat.add app]; [done|]. rewrite IH. f_equal.
  rewrite Z.shiftr_spec by lia. f_equal. lia.
Qed.

Lemma lookup_nbits n v i : (i < n)%nat → nbits n v !! i = Some (Z.testbit v (Z.of_nat (n - 1 - i))).
Proof.
  revert i. induction n as [|n IH]; intros [|i] H; cbn [nbits]; try lia.
  - cbn. by rewrite Nat.sub_0_r, Nat.sub_0_r.
  - change (nbits n v !! i = Some (Z.testbit v (Z.of_nat (S n - 1 - S i)))). rewrite IH by lia. do 3 f_equal. lia.
Qed.

Lemma nbits_land n v k : (n ≤ k)%nat → nbits n (Z.land v (Z.ones (Z.of_nat k))) = nbits n v.
Proof.
  intros H. apply nbits_ext. intros i Hi. rewrite Z.land_spec, Z.testbit_ones by lia.
  rewrite (proj2 (Z.leb_le _ _)), (proj2 (Z.ltb_lt _ _)) by lia. apply andb_true_r.
Qed.

Lemma nbits_to_u8 v : nbits 8 (to_u8 v) = nbits 8 v.
Proof. unfold to_u8. rewrite <- Z.land_ones by lia. by apply (nbits_land 8 v 8). Qed.

Lemma nbits_zero n : nbits n 0 = replicate n false.
Proof. induction n as [|n IH]; cbn; [done|]. by rewrite Z.bits_0, IH. Qed.

(** The number the bits stand for. *)
Lemma nbits_inj n v w : 0 ≤ v < 2 ^ Z.of_nat n → 0 ≤ w < 2 ^ Z.of_nat n → nbits n v = nbits n w → v = w.
Proof.
  intros Hv Hw E. apply Z.bits_inj'. intros i Hi. destruct (decide (i < Z.of_nat n)).
  - pose proof (lookup_nbits n v (n - 1 - Z.to_nat i) ltac:(lia)) as A. rewrite E, lookup_nbits in A by lia. injection A as A.
    replace (Z.of_nat (n - 1 - (n - 1 - Z.to_nat i))) with i in A by lia. done.
  - by rewrite !(testbit_above (Z.of_nat n)) by lia.
Qed.

(** * The checksum *)

Definition crc8_step (crc : Z) (b : bool) : Z :=
  Z.lxor (Z.shiftl (Z.land crc 127) 1) (if xorb (Z.testbit crc 7) b then 29 else 0).
Definition crc8 (l : list bool) : Z := foldl crc8_step 15 l.

Lemma forallb_seqZ2 (f : Z → Z → bool) n m :
  forallb (λ x, forallb (f x) (seqZ 0 m)) (seqZ 0 n) = true → ∀ x y, 0 ≤ x < n → 0 ≤ y < m → f x y = true.
Proof.
  intros H x y Hx Hy. rewrite forallb_forall in H. specialize (H x). rewrite forallb_forall in H.
  apply H; apply list_elem_of_In, elem_of_seqZ; lia.
Qed.

Lemma crc8_step_range crc b : 0 ≤ crc8_step crc b < 256.
Proof.
  unfold crc8_step.
  assert (0 ≤ Z.land crc 127 < 128) by (change 127 with (Z.ones 7); rewrite Z.land_ones by lia; apply Z.mod_pos_bound; lia).
  pose proof (forallb_seqZ2 (λ x y, (0 <=? Z.lxor (Z.shiftl x 1) (if y =? 0 then 0 else 29)) &&
    (Z.lxor (Z.shiftl x 1) (if y =? 0 then 0 else 29) <? 256)) 128 2) as H2.
  specialize (H2 ltac:(vm_compute; reflexivity) (Z.land crc 127) (if xorb (Z.testbit crc 7) b then 1 else 0)).
  destruct (xorb _ _); cbn beta in H2; specialize (H2 ltac:(lia) ltac:(lia)); cbn [Z.eqb] in H2; lia.
Qed.

Lemma crc8_range l : 0 ≤ crc8 l < 256.
Proof.
  unfold crc8. enough (∀ crc, 0 ≤ crc < 256 → 0 ≤ foldl crc8_step crc l < 256) as H by (apply H; lia).
  induction l as [|b l IH]; intros crc Hc; [done|]. cbn [foldl]. apply IH, crc8_step_range.
Qed.

Lemma crc8_octet crc b : 0 ≤ crc < 256 → 0 ≤ b < 256 →
  nth (Z.to_nat (Z.lxor crc b)) crc_table 0 = foldl crc8_step crc (nbits 8 b) ∧ 0 ≤ foldl crc8_step crc (nbits 8 b) < 256.
Proof.
  intros Hc Hb.
  pose proof (forallb_seqZ2 (λ crc b, (nth (Z.to_nat (Z.lxor crc b)) crc_table 0 =? foldl crc8_step crc (nbits 8 b)) &&
     (0 <=? foldl crc8_step crc (nbits 8 b)) && (foldl crc8_step crc (nbits 8 b) <? 256)) 256 256) as H.
  specialize (H ltac:(vm_compute; reflexivity) crc b Hc Hb). cbn beta in H. lia.
Qed.

Lemma crc8_octets_bits l crc : 0 ≤ crc < 256 → Forall byte_ok l →
  crc8_octets l crc = foldl crc8_step crc (bits_of l) ∧ 0 ≤ foldl crc8_step crc (bits_of l) < 256.
Proof.
  intros Hc Hl. revert crc Hc. unfold crc8_octets. induction Hl as [|b l Hb _ IH]; intros crc Hc; [split; [done|exact Hc]|].
  destruct (crc8_octet crc b Hc Hb) as [E Hr]. rewrite bits_of_cons, foldl_app. cbn [foldl]. rewrite E. by apply IH.
Qed.

Lemma crc8_bits_octet n octet crc : (n ≤ 8)%nat → 0 ≤ octet < 256 → 0 ≤ crc < 256 →
  crc8_bits n octet crc = foldl crc8_step crc (take n (nbits 8 octet)).
Proof.
  intros Hn Ho Hc.
  assert (∀ m, (m ≤ 8)%nat → take m (nbits 8 octet) =
    (fix go m o := match m with O => [] | S m => Z.testbit o 7 :: go m (to_u8 (Z.shiftl o 1)) end) m octet) as ->; [| |done].
  - intros m Hm.
    pose proof (forallb_seqZ2 (λ m o, bool_decide (take (Z.to_nat m) (nbits 8 o) =
      (fix go m o := match m with O => [] | S m => Z.testbit o 7 :: go m (to_u8 (Z.shiftl o 1)) end) (Z.to_nat m) o)) 9 256) as H.
    specialize (H ltac:(vm_compute; reflexivity) (Z.of_nat m) octet ltac:(lia) Ho). cbn beta in H. rewrite Nat2Z.id in H.
    by apply bool_decide_eq_true in H.
  - clear Ho. revert octet crc Hc. induction n as [|n IH]; intros octet crc Hc; [done|]. cbn [crc8_bits foldl].
    assert (Z.lxor (Z.shiftl (Z.land crc 127) 1) (if Z.shiftr (Z.land (Z.lxor octet crc) 128) 7 =? 0 then 0 else 29) =
            crc8_step crc (Z.testbit octet 7)) as ->.
    { unfold crc8_step. f_equal. change 128 with (2 ^ 7).
      assert ((Z.shiftr (Z.land (Z.lxor octet crc) (2 ^ 7)) 7 =? 0) = negb (xorb (Z.testbit crc 7) (Z.testbit octet 7))) as ->.
      { rewrite xorb_comm, <- Z.lxor_spec. destruct (Z.testbit (Z.lxor octet crc) 7) eqn:E; cbn [negb].
        - apply Z.eqb_neq. intros F. apply (f_equal (λ z, Z.testbit z 0)) in F.
          rewrite Z.shiftr_spec, Z.land_spec in F by lia. change (0 + 7) with 7 in F. by rewrite E, Z.pow2_bits_true in F by lia.
        - apply Z.eqb_eq, Z.bits_inj'. intros i Hi. rewrite Z.shiftr_spec, Z.land_spec, Z.bits_0 by lia.
          destruct (decide (i = 0)) as [->|]; [change (0 + 7) with 7; by rewrite E|]. rewrite Z.pow2_bits_false by lia. apply andb_false_r. }
      by destruct (xorb _ _). }
    apply IH; [lia|].
    apply crc8_step_range.
Qed.

Lemma sbc_crc8_bits data len :
  0 ≤ len < 8 * Z.of_nat (length data) → Forall byte_ok data → sbc_crc8 data len = Ret (crc8 (take (Z.to_nat len) (bits_of data))).
Proof.
  intros Hlen Hd. unfold sbc_crc8. pose proof (Z.div_mod len 8 ltac:(lia)). pose proof (Z.mod_pos_bound len 8 ltac:(lia)).
  assert (Z.to_nat (len / 8) < length data)%nat as Hk by lia.
  rewrite rd_ok by lia. rewrite outcome_bind_ret. unfold adv.
  destruct (lookup_lt_is_Some_2 data (Z.to_nat (len / 8)) Hk) as [b Hb].
  rewrite (drop_S _ _ _ Hb). cbn [rd8]. rewrite outcome_bind_ret. f_equal. unfold crc8.
  replace (Z.to_nat len) with (8 * Z.to_nat (len / 8) + Z.to_nat (len mod 8))%nat by lia.
  rewrite <- (take_drop_middle data (Z.to_nat (len / 8)) b Hb) at 2.
  rewrite bits_of_app, bits_of_cons.
  assert (length (bits_of (take (Z.to_nat (len / 8)) data)) = (8 * Z.to_nat (len / 8))%nat) as Hl
    by (rewrite length_bits_of, length_take; lia).
  rewrite take_add, <- Hl, take_app_length, drop_app_length, take_app_le by (rewrite length_nbits; lia). rewrite foldl_app.
  destruct (crc8_octets_bits (take (Z.to_nat (len / 8)) data) 15 ltac:(lia) ltac:(by apply Forall_take)) as [-> Hr].
  apply crc8_bits_octet; [lia| |done]. by eapply Forall_lookup_1 in Hd.
Qed.

(** * Writing

    The bits the writer has been given, and those of them in the cache. *)

Definition written (w : list Z * Z * Z) (l : list bool) : Prop :=
  let '(out, bits_cache, bits_count) := w in
  0 ≤ bits_count < 16 ∧ 0 ≤ bits_cache ∧ Forall byte_ok out ∧ l = bits_of out ++ nbits (Z.to_nat bits_count) bits_cache.

Lemma written_start : written ([], 0, 0) [].
Proof. split_and!; done. Qed.

Lemma to_u8_byte v : byte_ok (to_u8 v).
Proof. apply Z.mod_pos_bound. lia. Qed.

(** The cache after a value: its bits follow those that were there. *)
Lemma cache_bits v n cache count :
  (n ≤ 16)%nat → (count < 16)%nat → 0 ≤ v < 2 ^ Z.of_nat n → 0 ≤ cache →
  nbits (count + n) (Z.lor v (to_u32 (Z.shiftl cache (Z.of_nat n)))) = nbits count cache ++ nbits n v.
Proof.
  intros Hn Hc Hv Hcache. rewrite nbits_add. unfold to_u32. rewrite <- Z.land_ones by lia. f_equal; apply nbits_ext; intros i Hi.
  - rewrite Z.shiftr_spec, Z.lor_spec, Z.land_spec, Z.shiftl_spec, Z.testbit_ones, (testbit_above (Z.of_nat n) v) by lia.
    rewrite (proj2 (Z.leb_le _ _)), (proj2 (Z.ltb_lt _ _)) by lia. cbn [orb andb]. rewrite andb_true_r. f_equal. lia.
  - rewrite Z.lor_spec, Z.land_spec, Z.shiftl_spec, (Z.testbit_neg_r cache) by lia. apply orb_false_r.
Qed.

Lemma put_bits_written w l v n :
  written w l → (n ≤ 16)%nat → 0 ≤ v < 2 ^ Z.of_nat n → written (put_bits w v (Z.of_nat n)) (l ++ nbits n v).
Proof.
  destruct w as [[out cache] count]. intros (Hc & Hk & Ho & ->) Hn Hv. unfold put_bits.
  set (c := Z.lor v _). assert (0 ≤ c) as Hc0 by (apply Z.lor_nonneg; split; [lia|apply Z.mod_pos_bound; lia]).
  pose proof (cache_bits v n cache (Z.to_nat count) Hn ltac:(lia) Hv Hk) as E. fold c in E. clearbody c.
  rewrite <- app_assoc, <- E. destruct (Z.leb_spec 16 (count + Z.of_nat n)).
  - split; [lia|]. split; [done|]. split; [apply Forall_app; split; [done|]; repeat constructor; apply to_u8_byte|].
    rewrite bits_of_app, <- app_assoc. f_equal. rewrite !bits_of_cons, !nbits_to_u8. cbn [bits_of map concat]. rewrite app_nil_r.
    replace (Z.to_nat count + n)%nat with (8 + (8 + Z.to_nat (count + Z.of_nat n - 16)))%nat by lia.
    rewrite !nbits_add, <- app_assoc. f_equal; [f_equal; f_equal; lia|]. f_equal. f_equal. f_equal. lia.
  - split; [lia|]. split; [done|]. split; [done|]. f_equal. f_equal. lia.
Qed.

(** The octets at the end: the bits, and zeros up to the next octet. *)
Lemma flush_bits_written w l :
  written w l →
  ∃ pad, Forall byte_ok (flush_bits w) ∧ bits_of (flush_bits w) = l ++ replicate pad false ∧ (pad < 8)%nat.
Proof.
  destruct w as [[out cache] count]. intros (Hc & Hk & Ho & ->). unfold flush_bits. cbn [snd].
  assert (∃ out', flush_octets (Z.to_nat (count / 8)) (out, cache, count) = (out', cache, count mod 8) ∧ Forall byte_ok out' ∧
    bits_of out' ++ nbits (Z.to_nat (count mod 8)) cache = bits_of out ++ nbits (Z.to_nat count) cache) as (out' & -> & Ho' & E).
  { assert (count / 8 = 0 ∨ count / 8 = 1) as [E|E].
    { assert (0 ≤ count / 8 < 2) by (split; [apply Z.div_pos; lia|apply Z.div_lt_upper_bound; lia]). lia. }
    - rewrite E. exists out. rewrite Z.mod_eq, E by lia. replace (count - 8 * 0) with count by lia. by split_and!.
    - assert (8 ≤ count) as H8 by (pose proof (Z.div_mod count 8 ltac:(lia)); pose proof (Z.mod_pos_bound count 8 ltac:(lia)); lia).
      rewrite E. eexists. rewrite Z.mod_eq, E by lia. split; [reflexivity|]. split.
      + apply Forall_app; split; [done|]. repeat constructor; apply to_u8_byte.
      + rewrite bits_of_app, <- app_assoc. f_equal. rewrite bits_of_cons, nbits_to_u8. cbn [bits_of map concat]. rewrite app_nil_r.
        replace (Z.to_nat count) with (8 + Z.to_nat (count - 8 * 1))%nat by lia.
        rewrite nbits_add. f_equal. f_equal. f_equal. lia. }
  rewrite <- E. pose proof (Z.mod_pos_bound count 8 ltac:(lia)) as Hm. destruct (Z.ltb_spec 0 (count mod 8)).
  - exists (Z.to_nat (8 - count mod 8)). split; [apply Forall_app; split; [done|]; repeat constructor; apply to_u8_byte|].
    split; [|lia]. rewrite bits_of_app, <- app_assoc. f_equal. rewrite bits_of_cons, nbits_to_u8. cbn [bits_of map concat]. rewrite app_nil_r.
    replace 8%nat with (Z.to_nat (count mod 8) + Z.to_nat (8 - count mod 8))%nat at 1 by lia.
    rewrite nbits_add, <- nbits_zero. f_equal; apply nbits_ext; intros i Hi.
    + rewrite Z.shiftr_spec, Z.shiftl_spec by lia. f_equal. lia.
    + by rewrite Z.shiftl_spec, Z.testbit_neg_r, Z.bits_0 by lia.
  - exists 0%nat. split; [done|]. split; [|lia]. replace (Z.to_nat (count mod 8)) with 0%nat by lia.
    cbn [nbits replicate]. by rewrite !app_nil_r.
Qed.

(** * Reading

    The bits [l] are at position [pos] of the data. *)
Definition found (data : list Z) (pos : nat) (l : list bool) : Prop := ∃ r, drop pos (bits_of data) = l ++ r.

Lemma found_app data pos a b : found data pos (a ++ b) ↔ found data pos a ∧ found data (pos + length a) b.
Proof.
  unfold found. split.
  - intros [r H]. rewrite <- app_assoc in H. split; [by eexists|]. exists r. by rewrite <- drop_drop, H, drop_app_length.
  - intros [[r Hr] [r' Hr']]. exists r'. rewrite <- drop_drop, Hr, drop_app_length in Hr'. by rewrite Hr, Hr', app_assoc.
Qed.

Lemma found_length data pos l : found data pos l → l ≠ [] → (pos + length l ≤ 8 * length data)%nat.
Proof.
  intros [r H] Hl. apply (f_equal length) in H. rewrite length_drop, length_app, length_bits_of in H.
  destruct l; [done|]. cbn [length] in *. lia.
Qed.

Lemma bits_of_lookup data pos b :
  data !! (pos / 8)%nat = Some b → bits_of data !! pos = Some (Z.testbit b (7 - Z.of_nat (pos mod 8))).
Proof.
  intros Hb. pose proof (Nat.div_mod_eq pos 8) as E. pose proof (Nat.mod_upper_bound pos 8 ltac:(lia)).
  rewrite <- (take_drop_middle data _ b Hb), bits_of_app, bits_of_cons. apply lookup_lt_Some in Hb.
  rewrite lookup_app_r by (rewrite length_bits_of, length_take; lia). rewrite length_bits_of, length_take.
  replace (pos - 8 * ((pos / 8) `min` length data))%nat with (pos mod 8)%nat by lia.
  rewrite lookup_app_l by (rewrite length_nbits; lia). rewrite lookup_nbits by lia. do 3 f_equal. lia.
Qed.

Lemma to_nat_div8 pos : Z.to_nat (Z.of_nat pos / 8) = (pos / 8)%nat.
Proof. rewrite <- (Nat2Z.id (pos / 8)), Nat2Z.inj_div. done. Qed.
Lemma of_nat_mod8 pos : Z.of_nat pos mod 8 = Z.of_nat (pos mod 8).
Proof. rewrite Nat2Z.inj_mod. done. Qed.

Lemma bit_at_found data pos (b : bool) l :
  found data pos (b :: l) → bit_at data (Z.of_nat pos) = Ret (Z.b2z b).
Proof.
  intros H. pose proof (found_length _ _ _ H ltac:(done)) as Hl. cbn [length] in Hl. destruct H as [r H].
  assert (pos / 8 < length data)%nat as Hk by (apply Nat.Div0.div_lt_upper_bound; lia).
  destruct (lookup_lt_is_Some_2 data _ Hk) as [v Hv]. pose proof (bits_of_lookup data pos v Hv) as E.
  assert (bits_of data !! pos = Some b) as E' by (by rewrite <- (Nat.add_0_r pos), <- lookup_drop, H).
  rewrite E in E'. injection E' as <-.
  unfold bit_at, adv. rewrite to_nat_div8, (drop_S _ _ _ Hv). cbn [rd8]. rewrite outcome_bind_ret. f_equal.
  rewrite of_nat_mod8. change 1 with (Z.ones 1). rewrite Z.land_ones, <- Z.bit0_mod, Z.shiftr_spec by lia.
  reflexivity.
Qed.

(** Reading the bits of a sample. *)
Lemma read_sample_found n v data pos len sample :
  found data pos (nbits n v) → (n = 0%nat ∨ Z.of_nat pos + Z.of_nat n ≤ len * 8 + 1) →
  read_sample n data len (Z.of_nat pos) sample =
  Ret (Some (Z.lor sample (Z.land v (Z.ones (Z.of_nat n))), Z.of_nat (pos + n))).
Proof.
  revert pos sample. induction n as [|n IH]; intros pos sample Hf Hlen.
  - cbn [read_sample]. by rewrite Z.land_0_r, Z.lor_0_r, Nat.add_0_r.
  - destruct Hlen as [|Hlen]; [done|]. cbn [read_sample nbits] in *. rewrite (proj2 (Z.ltb_ge _ _)) by lia.
    rewrite (bit_at_found _ _ _ _ Hf), outcome_bind_ret. change (?b :: ?l) with ([b] ++ l) in Hf. apply found_app in Hf as [_ Hf].
    cbn [length] in Hf. rewrite Nat.add_1_r in Hf. replace (Z.of_nat pos + 1) with (Z.of_nat (S pos)) by lia.
    rewrite IH by (done || lia). f_equal. f_equal. f_equal; [|lia].
    apply Z.bits_inj'. intros i Hi. rewrite !Z.lor_spec, !Z.land_spec, !Z.testbit_ones by lia.
    destruct (decide (i = Z.of_nat n)) as [->|].
    + rewrite (proj2 (Z.ltb_ge (Z.of_nat n) (Z.of_nat n))), (proj2 (Z.ltb_lt (Z.of_nat n) (Z.of_nat (S n)))), (proj2 (Z.leb_le _ _)) by lia.
      cbn [andb]. rewrite andb_false_r, andb_true_r, orb_false_r. destruct (Z.testbit v (Z.of_nat n)); cbn [Z.b2z Z.eqb].
      * rewrite Z.lor_spec, Z.shiftl_spec, Z.sub_diag by lia. done.
      * by rewrite orb_false_r.
    + assert ((i <? Z.of_nat (S n)) = (i <? Z.of_nat n)) as -> by (destruct (Z.ltb_spec i (Z.of_nat n)), (Z.ltb_spec i (Z.of_nat (S n))); lia).
      f_equal. destruct (Z.testbit v (Z.of_nat n)); cbn [Z.b2z Z.eqb]; [|done].
      rewrite Z.lor_spec, Z.shiftl_spec by lia. destruct (decide (i < Z.of_nat n)).
      * rewrite (Z.testbit_neg_r 1) by lia. apply orb_false_r.
      * rewrite (testbit_above 1 1) by lia. apply orb_false_r.
Qed.

(** The table of [sbc_crc8] is right: for every array of octets and every
    number of bits less than it holds, the function returns the remainder of
    those bits, fed one by one from the initial value 0x0F to the shift
    register with polynomial x^8 + x^4 + x^3 + x^2 + 1; the bits after them,
    such as the octet the function reads when their number is a multiple of
    eight, do not matter. *)
Theorem sbc_crc8_correct (data data' : list Z) (len : Z) (Hlen : 0 ≤ len < 8 * Z.of_nat (length data))
    (Hd : Forall byte_ok data) (Hl' : length data' = length data) (Hd' : Forall byte_ok data')
    (Hsame : take (Z.to_nat len) (bits_of data') = take (Z.to_nat len) (bits_of data)) :
  sbc_crc8 data len = Ret (crc8 (take (Z.to_nat len) (bits_of data))) ∧ sbc_crc8 data' len = sbc_crc8 data len.
Proof. rewrite !sbc_crc8_bits by (done || lia). by rewrite Hsame. Qed.

Lemma sbc_crc8_correct_witness :
  sbc_crc8 [189; 35; 0; 99] 24 = Ret (crc8 (take 24 (bits_of [189; 35; 0; 0]))) ∧ sbc_crc8 [189; 35; 0; 0] 24 = Ret 74.
Proof.
  pose proof (sbc_crc8_correct [189; 35; 0; 0] [189; 35; 0; 99] 24) as H.
  destruct H as [H1 H2]; [split; [done|reflexivity]|repeat constructor; unfold byte_ok; lia|done|
    repeat constructor; unfold byte_ok; lia|vm_compute; reflexivity|].
  split; [by rewrite H2|vm_compute; reflexivity].
Defined.
