(* ===== verification/SbcFrame.v ===== *)
(** utils/sbc/sbc.c: packing a frame and unpacking it.
    Theorem: the decoder reads back what the encoder wrote, each subband sample
    up to half a quantisation step. *)

From stdpp Require Import base list numbers sorting.
From Stdlib Require Import ZArith Lia.
From S2P Require Import Prelude Sbc SbcBits SbcStream.

Local Open Scope Z_scope.

(** * One sample *)

(** Bits and scale factor of a subband, and a sample it can hold. *)
Definition cell_ok (p : Z * Z) (s : Z) : Prop :=
  0 ≤ p.1 ≤ 16 ∧ 0 ≤ p.2 < 16 ∧ Z.abs s ≤ 2 ^ (p.2 + 16) ∧ Z.abs s ≤ 2 ^ 31 - 2.

Lemma level_bounds bits : 0 < bits ≤ 16 → 0 < level bits < 2 ^ bits ∧ level bits < 2 ^ 16.
Proof.
  intros H. unfold level. rewrite Z.shiftl_1_l. assert (2 ^ 1 ≤ 2 ^ bits) by (apply Z.pow_le_mono_r; lia).
  assert (2 ^ bits ≤ 2 ^ 16) by (apply Z.pow_le_mono_r; lia). lia.
Qed.

Lemma level_positive bits : 0 ≤ bits ≤ 16 → (0 <? level bits) = negb (bits =? 0).
Proof.
  intros H. destruct (Z.eqb_spec bits 0) as [->|]; [done|]. pose proof (level_bounds bits ltac:(lia)). cbn [negb]. apply Z.ltb_lt. lia.
Qed.

(** Without the shifts: the sample as a fraction of the range. *)
Lemma quantize_spec s bits sf :
  cell_ok (bits, sf) s → 0 < bits →
  quantize s bits sf = level bits * (2 ^ (sf + 16) + s) / 2 ^ (sf + 17) ∧ 0 ≤ quantize s bits sf ≤ level bits.
Proof.
  intros (Hb & Hs & Ha & Ha31) Hpos. cbn [fst snd] in *. destruct (level_bounds bits ltac:(lia)) as [HL HL16].
  set (L := level bits) in *. assert (0 < 2 ^ sf) by (apply Z.pow_pos_nonneg; lia).
  assert (2 ^ sf ≤ 2 ^ 15) by (apply Z.pow_le_mono_r; lia).
  assert (2 ^ (sf + 16) = 2 ^ 16 * 2 ^ sf) as E16 by (rewrite Z.pow_add_r by lia; lia).
  assert (2 ^ (sf + 17) = 2 ^ 17 * 2 ^ sf) as E17 by (rewrite Z.pow_add_r by lia; lia).
  assert (2 ^ (15 - sf) * 2 ^ sf = 2 ^ 15) as E15 by (rewrite <- Z.pow_add_r by lia; f_equal; lia).
  assert (0 < 2 ^ (15 - sf)) by (apply Z.pow_pos_nonneg; lia).
  assert (2 ^ (15 - sf) ≤ 2 ^ 15) by (apply Z.pow_le_mono_r; lia).
  assert (quantize s bits sf = L * (2 ^ (sf + 16) + s) / 2 ^ (sf + 17)) as E.
  { unfold quantize, SCALE_OUT_BITS. fold L. replace (32 - (sf + 15 + 2)) with (15 - sf) by lia.
    replace (sf + 15 + 1) with (sf + 16) by lia. rewrite Z.shiftl_1_l, Z.shiftl_mul_pow2, Z.shiftr_div_pow2 by lia.
    assert (0 ≤ L * 2 ^ (15 - sf) < 2 ^ 32) as M1 by nia. assert (0 ≤ 2 ^ (sf + 16) < 2 ^ 32) as M2 by lia.
    assert (0 ≤ 2 ^ (sf + 16) + s < 2 ^ 32) as M3 by lia.
    unfold to_u32. rewrite (Z.mod_small _ _ M1), (Z.mod_small _ _ M2), (Z.mod_small _ _ M3). clear M1 M2.
    assert (L * 2 ^ (15 - sf) * (2 ^ (sf + 16) + s) / 2 ^ 32 = L * (2 ^ (sf + 16) + s) / 2 ^ (sf + 17)) as ->.
    { replace (2 ^ 32) with (2 ^ (15 - sf) * 2 ^ (sf + 17)) by (rewrite E17; nia).
      replace (L * 2 ^ (15 - sf) * (2 ^ (sf + 16) + s)) with (2 ^ (15 - sf) * (L * (2 ^ (sf + 16) + s))) by ring.
      apply Z.div_mul_cancel_l; nia. }
    apply Z.mod_small. split; [apply Z.div_pos; nia|]. apply Z.div_lt_upper_bound; nia. }
  rewrite E. split; [done|]. split; [apply Z.div_pos; nia|]. apply Z.div_le_upper_bound; nia.
Qed.

Definition decoded_cell (p : Z * Z) (s : Z) : Z := if p.1 =? 0 then 0 else dequantize (quantize s p.1 p.2) p.1 p.2.

(** The error of a sample, which the encoder holds with sixteen more bits: half
    a step of the quantiser and one, and all of the sample without bits. *)
Definition sample_close (p : Z * Z) (s v : Z) : Prop :=
  if p.1 =? 0 then v = 0
  else Z.abs (v * 2 ^ 16 - s) * level p.1 ≤ 2 ^ 16 * (2 ^ p.2 + level p.1).

Lemma dequantize_spec a bits sf :
  0 ≤ a ≤ level bits → 0 < bits ≤ 16 → 0 ≤ sf < 16 →
  dequantize a bits sf = (2 * a + 1) * 2 ^ sf / level bits - 2 ^ sf.
Proof.
  intros Ha Hb Hs. destruct (level_bounds bits Hb) as [HL HL16]. unfold dequantize. set (L := level bits) in *.
  assert (0 < 2 ^ sf) by (apply Z.pow_pos_nonneg; lia). assert (2 ^ sf ≤ 2 ^ 15) by (apply Z.pow_le_mono_r; lia).
  assert (Z.lor (Z.shiftl a 1) 1 = 2 * a + 1) as ->.
  { rewrite Z.lor_comm, lor_shiftl_add by lia. lia. }
  rewrite Z.shiftl_1_l, Z.shiftl_mul_pow2 by lia. unfold to_u32. rewrite Z.mod_small by nia. apply to_i32_small.
  assert (0 ≤ (2 * a + 1) * 2 ^ sf / L) by (apply Z.div_pos; nia).
  assert ((2 * a + 1) * 2 ^ sf / L ≤ 3 * 2 ^ sf) by (apply Z.div_le_upper_bound; nia). lia.
Qed.

Lemma decoded_close p s : cell_ok p s → sample_close p s (decoded_cell p s).
Proof.
  destruct p as [bits sf]. intros Hc. unfold sample_close, decoded_cell. cbn [fst snd]. pose proof Hc as (Hb & Hs & Ha & _). cbn [fst snd] in *.
  destruct (Z.eqb_spec bits 0); [done|]. destruct (quantize_spec s bits sf Hc ltac:(lia)) as [Eq Hq].
  rewrite (dequantize_spec _ bits sf) by lia. destruct (level_bounds bits ltac:(lia)) as [HL _].
  set (a := quantize s bits sf) in *. set (L := level bits) in *. clearbody a L.
  assert (2 ^ (sf + 16) = 2 ^ 16 * 2 ^ sf) as E16 by (rewrite Z.pow_add_r by lia; lia).
  assert (2 ^ (sf + 17) = 2 ^ 17 * 2 ^ sf) as E17 by (rewrite Z.pow_add_r by lia; lia).
  assert (0 < 2 ^ sf) as Hsf by (apply Z.pow_pos_nonneg; lia). rewrite E16, E17 in *. set (f := 2 ^ sf) in *. clearbody f.
  pose proof (Z.div_mod (L * (2 ^ 16 * f + s)) (2 ^ 17 * f) ltac:(lia)) as D1.
  pose proof (Z.mod_pos_bound (L * (2 ^ 16 * f + s)) (2 ^ 17 * f) ltac:(lia)) as M1. rewrite <- Eq in D1.
  set (r1 := _ mod _) in *. clearbody r1.
  pose proof (Z.div_mod ((2 * a + 1) * f) L ltac:(lia)) as D2. pose proof (Z.mod_pos_bound ((2 * a + 1) * f) L ltac:(lia)) as M2.
  set (q := (2 * a + 1) * f / L) in *. set (r2 := _ mod _) in *. clearbody q r2.
  assert (((q - f) * 2 ^ 16 - s) * L = 2 ^ 16 * f - r1 - 2 ^ 16 * r2) as E by nia.
  rewrite <- (Z.abs_eq L) at 1 by lia. rewrite <- Z.abs_mul, E. lia.
Qed.

(** * Rows, blocks, all blocks *)

Definition cell_bits (p : Z * Z) (s : Z) : list bool := nbits (Z.to_nat p.1) (quantize s p.1 p.2).
Definition row_bits (row : list (Z * Z)) (samples : list Z) : list bool := concat (zip_with cell_bits row samples).
Definition block_bits (rows : list (list (Z * Z))) (block : list (list Z)) : list bool := concat (zip_with row_bits rows block).
Definition audio_bits (rows : list (list (Z * Z))) (samples : list (list (list Z))) : list bool := concat (map (block_bits rows) samples).

Definition block_ok (rows : list (list (Z * Z))) (block : list (list Z)) : Prop := Forall2 (Forall2 cell_ok) rows block.
Definition decoded_block (rows : list (list (Z * Z))) (block : list (list Z)) : list (list Z) :=
  zip_with (zip_with decoded_cell) rows block.

Lemma put_row_written row samples w l :
  Forall2 cell_ok row samples → written w l → written (put_row row samples w) (l ++ row_bits row samples).
Proof.
  intros H. revert w l. induction H as [|[bits sf] s row samples Hc _ IH]; intros w l Hw.
  - cbn. by rewrite app_nil_r.
  - unfold row_bits. cbn [put_row zip_with concat]. rewrite app_assoc. fold (row_bits row samples). apply IH.
    pose proof Hc as (Hb & _). cbn [fst] in Hb. unfold cell_bits. cbn [fst snd]. destruct (Z.eqb_spec bits 0) as [->|].
    + cbn. by rewrite app_nil_r.
    + destruct (quantize_spec s bits sf Hc ltac:(lia)) as [_ Hq]. destruct (level_bounds bits ltac:(lia)) as [HL _].
      replace bits with (Z.of_nat (Z.to_nat bits)) at 2 by lia. apply put_bits_written; [done|lia|].
      rewrite Z2Nat.id by lia. lia.
Qed.

Lemma put_block_written rows block w l :
  block_ok rows block → written w l → written (put_block rows w block) (l ++ block_bits rows block).
Proof.
  intros H. unfold put_block, block_bits. revert w l. induction H as [|row samples rows block Hr _ IH]; intros w l Hw.
  - cbn. by rewrite app_nil_r.
  - cbn [zip_with concat foldl fst snd]. rewrite app_assoc. apply IH. by apply put_row_written.
Qed.

Lemma put_audio_written rows samples w l :
  Forall (block_ok rows) samples → written w l → written (foldl (put_block rows) w samples) (l ++ audio_bits rows samples).
Proof.
  intros H. unfold audio_bits. revert w l. induction H as [|block samples Hb _ IH]; intros w l Hw.
  - cbn. by rewrite app_nil_r.
  - cbn [map concat foldl]. rewrite app_assoc. apply IH. by apply put_block_written.
Qed.

(** Reading what was written: there is data for all bits. *)
Lemma read_row_found row samples data pos len :
  Forall2 cell_ok row samples → found data pos (row_bits row samples) →
  Z.of_nat pos + Z.of_nat (length (row_bits row samples)) ≤ len * 8 →
  read_row row data len (Z.of_nat pos) =
  Ret (Some (zip_with decoded_cell row samples, Z.of_nat (pos + length (row_bits row samples)))).
Proof.
  intros H. revert pos. induction H as [|[bits sf] s row samples Hc _ IH]; intros pos Hf Hlen.
  - cbn. by rewrite Nat.add_0_r.
  - unfold row_bits in Hf, Hlen |- *. cbn [zip_with concat] in Hf, Hlen |- *. fold (row_bits row samples) in Hf, Hlen |- *.
    apply found_app in Hf as [Hf1 Hf2]. rewrite length_app in Hlen |- *. pose proof Hc as (Hb & _). cbn [fst] in Hb.
    unfold cell_bits in *. cbn [fst snd] in *. rewrite length_nbits in *.
    cbn [read_row]. rewrite level_positive by done. unfold decoded_cell at 1. cbn [fst snd]. destruct (Z.eqb_spec bits 0) as [->|Hn]; cbn [negb].
    + rewrite outcome_bind_ret. change (Z.to_nat 0) with 0%nat in *. rewrite Nat.add_0_r in Hf2. cbn [Nat.add] in *.
      rewrite IH by (done || lia). by rewrite outcome_bind_ret.
    + rewrite (read_sample_found _ _ _ _ _ _ Hf1) by lia. rewrite outcome_bind_ret. cbv iota.
      rewrite IH by (done || lia). rewrite outcome_bind_ret. cbv iota.
      destruct (quantize_spec s bits sf Hc ltac:(lia)) as [_ Hq]. destruct (level_bounds bits ltac:(lia)) as [HL _].
      rewrite Z.lor_0_l, Z2Nat.id, Z.land_ones, Z.mod_small by lia. f_equal. f_equal. f_equal. lia.
Qed.

Lemma read_block_found rows block data pos len :
  block_ok rows block → found data pos (block_bits rows block) →
  Z.of_nat pos + Z.of_nat (length (block_bits rows block)) ≤ len * 8 →
  read_block rows data len (Z.of_nat pos) =
  Ret (Some (decoded_block rows block, Z.of_nat (pos + length (block_bits rows block)))).
Proof.
  intros H. unfold block_bits. revert pos. induction H as [|row samples rows block Hr _ IH]; intros pos Hf Hlen.
  - cbn. by rewrite Nat.add_0_r.
  - cbn [zip_with concat] in Hf, Hlen |- *. apply found_app in Hf as [Hf1 Hf2]. rewrite length_app in Hlen |- *.
    cbn [read_block]. rewrite (read_row_found row samples) by (done || lia). rewrite outcome_bind_ret. cbv iota.
    rewrite IH by (done || lia). rewrite outcome_bind_ret. cbv iota. unfold decoded_block. cbn [zip_with].
    by rewrite Nat.add_assoc.
Qed.

Lemma read_blocks_found rows samples data pos len :
  Forall (block_ok rows) samples → found data pos (audio_bits rows samples) →
  Z.of_nat pos + Z.of_nat (length (audio_bits rows samples)) ≤ len * 8 →
  read_blocks (length samples) rows data len (Z.of_nat pos) =
  Ret (Some (map (decoded_block rows) samples, Z.of_nat (pos + length (audio_bits rows samples)))).
Proof.
  intros H. unfold audio_bits. revert pos. induction H as [|block samples Hb _ IH]; intros pos Hf Hlen.
  - cbn. by rewrite Nat.add_0_r.
  - cbn [map concat] in Hf, Hlen |- *. apply found_app in Hf as [Hf1 Hf2]. rewrite length_app in Hlen |- *.
    cbn [length read_blocks]. rewrite (read_block_found rows block) by (done || lia). rewrite outcome_bind_ret. cbv iota.
    rewrite IH by (done || lia). rewrite outcome_bind_ret. cbv iota. by rewrite Nat.add_assoc.
Qed.

(** How many bits that is. *)
Lemma length_row_bits row samples :
  Forall2 cell_ok row samples → Z.of_nat (length (row_bits row samples)) = zsum (map fst row).
Proof.
  induction 1 as [|[bits sf] s row samples (Hb & _) _ IH]; [done|]. unfold row_bits in *. cbn [zip_with concat map zsum fst] in *.
  rewrite length_app. unfold cell_bits at 1. rewrite length_nbits. cbn [fst]. lia.
Qed.

Lemma length_block_bits rows block :
  block_ok rows block → Z.of_nat (length (block_bits rows block)) = zsum (map (λ row, zsum (map fst row)) rows).
Proof.
  induction 1 as [|row samples rows block Hr _ IH]; [done|]. unfold block_bits in *. cbn [zip_with concat map zsum] in *.
  rewrite length_app, Nat2Z.inj_add, (length_row_bits _ _ Hr). lia.
Qed.

Lemma length_audio_bits rows samples :
  Forall (block_ok rows) samples →
  Z.of_nat (length (audio_bits rows samples)) = Z.of_nat (length samples) * zsum (map (λ row, zsum (map fst row)) rows).
Proof.
  induction 1 as [|block samples Hb _ IH]; [done|]. unfold audio_bits in *. cbn [map concat length] in *.
  rewrite length_app, Nat2Z.inj_add, (length_block_bits _ _ Hb), IH. lia.
Qed.

(** * The scale factors and the header of the checksum *)

Lemma read_factor data pos v :
  (pos mod 4 = 0)%nat → found data pos (nbits 4 v) → 0 ≤ v < 16 →
  ∃ b, rd8 (adv (Z.of_nat pos / 8) data) = Ret b ∧ Z.land (Z.shiftr b (4 - Z.of_nat pos mod 8)) 15 = v.
Proof.
  intros Hp Hf Hv. pose proof (found_length _ _ _ Hf ltac:(done)) as Hl. rewrite length_nbits in Hl. destruct Hf as [r H].
  pose proof (Nat.div_mod_eq pos 8) as E8. pose proof (Nat.mod_upper_bound pos 8 ltac:(lia)).
  assert (pos / 8 < length data)%nat as Hk by (apply Nat.Div0.div_lt_upper_bound; lia).
  destruct (lookup_lt_is_Some_2 data _ Hk) as [b Hb]. exists b. unfold adv. rewrite to_nat_div8, (drop_S _ _ _ Hb).
  split; [done|]. rewrite of_nat_mod8. change 15 with (Z.ones 4). rewrite Z.land_ones by lia.
  assert (∃ r', drop (pos mod 8) (nbits 8 b) ++ bits_of (drop (S (pos / 8)) data) = nbits 4 v ++ r') as [r' Hr].
  { exists r. rewrite <- H. rewrite <- (take_drop_middle data _ b Hb) at 2. rewrite bits_of_app, bits_of_cons.
    assert (length (bits_of (take (pos / 8) data)) = (8 * (pos / 8))%nat) as Hl' by (rewrite length_bits_of, length_take; lia).
    rewrite drop_app_ge by lia. rewrite Hl'. replace (pos - 8 * (pos / 8))%nat with (pos mod 8)%nat by lia.
    rewrite drop_app_le by (rewrite length_nbits; lia). done. }
  assert ((pos mod 8 = 0 ∨ pos mod 8 = 4)%nat) as [E|E].
  { pose proof (Nat.div_mod_eq pos 4). assert (pos / 4 = 2 * (pos / 8) ∨ pos / 4 = 2 * (pos / 8) + 1)%nat; lia. }
  - rewrite E in Hr |- *. change (nbits 8 b) with (nbits (4 + 4) b) in Hr. rewrite drop_0, nbits_add, <- app_assoc in Hr.
    apply app_inj_1 in Hr as [Hr _]; [|by rewrite !length_nbits]. apply (nbits_inj 4); [apply Z.mod_pos_bound; lia|done|].
    rewrite <- Z.land_ones by lia. rewrite (nbits_land 4 _ 4) by lia. exact Hr.
  - rewrite E in Hr |- *. change (nbits 8 b) with (nbits (4 + 4) b) in Hr. rewrite nbits_add, drop_app_length' in Hr by (by rewrite length_nbits).
    apply app_inj_1 in Hr as [Hr _]; [|by rewrite !length_nbits]. apply (nbits_inj 4); [apply Z.mod_pos_bound; lia|done|].
    rewrite <- Z.land_ones by lia. rewrite (nbits_land 4 _ 4) by lia. exact Hr.
Qed.

(** The header the encoder builds and the one the decoder builds, of which the
    first [n] halves of octets are there. *)
Definition headers_agree (hp hu : list Z) (n : nat) : Prop :=
  length hp = 11%nat ∧ Forall byte_ok hp ∧ hu = align_header hp (4 * Z.of_nat n) ∧
  (∀ i, (n ≤ 2 * i)%nat → (i < 11)%nat → hp !! i = Some 0) ∧
  (∀ k, n = (2 * k + 1)%nat → nth k hp 0 < 16).

Lemma half_cases (n : nat) : (∃ k, n = (2 * k)%nat) ∨ (∃ k, n = (2 * k + 1)%nat).
Proof. induction n as [|n [[k ->]|[k ->]]]; [left; by exists 0%nat|right; exists k; lia|left; exists (S k); lia]. Qed.

Lemma pos_even k : 4 * Z.of_nat (2 * k) / 8 = Z.of_nat k ∧ (4 * Z.of_nat (2 * k)) mod 8 = 0.
Proof. replace (4 * Z.of_nat (2 * k)) with (Z.of_nat k * 8) by lia. rewrite Z.div_mul, Z.mod_mul by lia. done. Qed.
Lemma pos_odd k : 4 * Z.of_nat (2 * k + 1) / 8 = Z.of_nat k ∧ (4 * Z.of_nat (2 * k + 1)) mod 8 = 4.
Proof.
  replace (4 * Z.of_nat (2 * k + 1)) with (4 + Z.of_nat k * 8) by lia. rewrite Z.div_add, Z.mod_add by lia. done.
Qed.

Lemma nibble_byte a v : 0 ≤ v < 16 → byte_ok (Z.lor (to_u8 (Z.shiftl a 4)) v).
Proof.
  intros Hv. assert (to_u8 (Z.shiftl a 4) = Z.shiftl (a mod 16) 4) as ->.
  { unfold to_u8. rewrite !Z.shiftl_mul_pow2 by lia. change (2 ^ 8) with (16 * 16). change (2 ^ 4) with 16.
    rewrite Z.mul_comm, (Z.mul_comm (_ mod _)). by rewrite Z.mul_mod_distr_l by lia. }
  rewrite Z.lor_comm, lor_shiftl_add by lia. pose proof (Z.mod_pos_bound a 16 ltac:(lia)). unfold byte_ok. lia.
Qed.

Lemma headers_agree_step hp hu n v :
  headers_agree hp hu n → (n < 22)%nat → 0 ≤ v < 16 →
  let pos := 4 * Z.of_nat n in
  headers_agree (header_set hp pos (Z.lor (to_u8 (Z.shiftl (header_octet hp pos) 4)) (Z.land v 15)))
    (header_set hu pos (Z.lor (header_octet hu pos) (to_u8 (Z.shiftl v (4 - pos mod 8))))) (S n).
Proof.
  intros (Hl & Hb & -> & Hz & Hn) H22 Hv. cbv zeta. unfold align_header, header_set, header_octet.
  assert (Z.land v 15 = v) as -> by (change 15 with (Z.ones 4); rewrite Z.land_ones by lia; by apply Z.mod_small).
  destruct (half_cases n) as [[k ->]|[k ->]].
  - destruct (pos_even k) as [-> ->]. rewrite Nat2Z.id. cbn [Z.eqb].
    rewrite (nth_lookup_Some _ _ _ _ (Hz k ltac:(lia) ltac:(lia))). change (to_u8 (Z.shiftl 0 4)) with 0. rewrite Z.lor_0_l.
    replace (S (2 * k)) with (2 * k + 1)%nat by lia. destruct (pos_odd k) as [E1 E2].
    assert (nth k (<[k:=v]> hp) 0 = v) as Ev by (apply nth_lookup_Some; apply list_lookup_insert_eq; lia).
    split; [by rewrite length_insert|]. split; [apply Forall_insert; [done|]; unfold byte_ok; lia|]. split; [|split].
    + unfold align_header, header_set, header_octet. rewrite E1, E2, Nat2Z.id. cbn [Z.eqb]. rewrite Ev, list_insert_insert_eq. done.
    + intros i Hi Hi11. rewrite list_lookup_insert_ne by lia. apply Hz; lia.
    + intros k' Hk'. replace k' with k by lia. rewrite Ev. lia.
  - destruct (pos_odd k) as [-> ->]. rewrite Nat2Z.id. change (4 =? 0) with false. cbv iota. change (8 - 4) with 4. change (4 - 4) with 0.
    assert (nth k (<[k:=to_u8 (Z.shiftl (nth k hp 0) 4)]> hp) 0 = to_u8 (Z.shiftl (nth k hp 0) 4)) as ->
      by (apply nth_lookup_Some; apply list_lookup_insert_eq; lia).
    rewrite Z.shiftl_0_r. assert (to_u8 v = v) as -> by (unfold to_u8; apply Z.mod_small; lia). rewrite list_insert_insert_eq.
    replace (S (2 * k + 1)) with (2 * (k + 1))%nat by lia.
    split; [by rewrite length_insert|]. split; [apply Forall_insert; [done|]; by apply nibble_byte|]. split; [|split].
    + unfold align_header. by rewrite (proj2 (pos_even (k + 1))).
    + intros i Hi Hi11. rewrite list_lookup_insert_ne by lia. apply Hz; lia.
    + intros k' Hk'. lia.
Qed.

(** All scale factors: what the encoder writes the decoder reads, and the two
    headers are the same in the end. *)
Lemma factors_agree l hp hu n w bs :
  headers_agree hp hu n → (n + length l ≤ 22)%nat → Forall (λ sf, 0 ≤ sf < 16) l → written w bs →
  ∃ w' hp' hu', put_factors l w hp (4 * Z.of_nat n) = (w', hp', 4 * Z.of_nat (n + length l)) ∧
    written w' (bs ++ concat (map (nbits 4) l)) ∧ headers_agree hp' hu' (n + length l) ∧
    ∀ data pos, (pos mod 4 = 0)%nat → found data pos (concat (map (nbits 4) l)) →
      read_factors (length l) data (Z.of_nat pos) hu (4 * Z.of_nat n) =
      Ret (l, Z.of_nat (pos + 4 * length l), hu', 4 * Z.of_nat (n + length l)).
Proof.
  intros Ha Hn Hl. revert hp hu n w bs Ha Hn. induction Hl as [|sf l Hsf _ IH]; intros hp hu n w bs Ha Hn Hw.
  - exists w, hp, hu. cbn [length map concat put_factors read_factors]. rewrite !Nat.add_0_r, app_nil_r.
    split_and!; try done. intros data pos _ _. do 4 f_equal. lia.
  - cbn [length] in *. pose proof (headers_agree_step hp hu n sf Ha ltac:(lia) Hsf) as Ha'. cbv zeta in Ha'.
    assert (Z.land sf 15 = sf) as E15 by (change 15 with (Z.ones 4); rewrite Z.land_ones by lia; by apply Z.mod_small).
    pose proof (put_bits_written w bs sf 4 Hw ltac:(lia) ltac:(lia)) as Hw'.
    destruct (IH _ _ (S n) _ _ Ha' ltac:(lia) Hw') as (w' & hp' & hu' & E & Hw2 & Ha2 & Hr).
    exists w', hp', hu'. cbn [put_factors map concat]. rewrite E15 in E |- *.
    replace (4 * Z.of_nat n + 4) with (4 * Z.of_nat (S n)) by lia. change (Z.of_nat 4) with 4 in E.
    replace (n + S (length l))%nat with (S n + length l)%nat by lia. split; [exact E|]. rewrite app_assoc. split; [done|]. split; [done|].
    intros data pos Hp [Hf1 Hf2]%found_app. rewrite length_nbits in Hf2. cbn [read_factors].
    destruct (read_factor data pos sf Hp Hf1 Hsf) as (b & -> & Eb). rewrite outcome_bind_ret, Eb.
    replace (Z.of_nat pos + 4) with (Z.of_nat (pos + 4)) by lia. replace (4 * Z.of_nat n + 4) with (4 * Z.of_nat (S n)) by lia.
    rewrite Hr; [|rewrite Nat.Div0.add_mod, Hp; done|done]. rewrite outcome_bind_ret. do 4 f_equal. lia.
Qed.

(** * Joint stereo *)

Definition sample_fits (sf s : Z) : Prop := Z.abs s ≤ 2 ^ (sf + 16) ∧ Z.abs s ≤ 2 ^ 31 - 2.
Definition block_fits (factors block : list (list Z)) : Prop := Forall2 (Forall2 sample_fits) factors block.

Lemma asr1_bounds v : Z.abs v ≤ 2 ^ 31 - 2 → Z.abs (asr1 v) ≤ 2 ^ 30 - 1.
Proof.
  intros H. unfold asr1. rewrite Z.shiftr_div_pow2 by lia. change (2 ^ 1) with 2.
  pose proof (Z.div_mod v 2 ltac:(lia)). pose proof (Z.mod_pos_bound v 2 ltac:(lia)). lia.
Qed.

Lemma raise_factor_spec fuel tmp factor :
  0 ≤ tmp ≤ 2 ^ 31 → 0 ≤ factor ≤ 15 → 15 - factor ≤ Z.of_nat fuel →
  ∃ factor', raise_factor fuel tmp factor (2 ^ (factor + 16)) = Ret (factor', 2 ^ (factor' + 16)) ∧
    factor ≤ factor' ≤ 15 ∧ tmp ≤ 2 ^ (factor' + 16).
Proof.
  intros Ht. revert factor. induction fuel as [|fuel IH]; intros factor Hf Hfuel; cbn [raise_factor];
    destruct (Z.ltb_spec (2 ^ (factor + 16)) tmp) as [Hlt|].
  - replace factor with 15 in Hlt by lia. lia.
  - exists factor. split; [done|]. lia.
  - assert (factor ≠ 15) by (intros ->; lia).
    assert (to_u8 (factor + 1) = factor + 1) as -> by (unfold to_u8; apply Z.mod_small; lia).
    assert (to_u32 (2 ^ (factor + 16) * 2) = 2 ^ (factor + 1 + 16)) as ->.
    { replace (factor + 1 + 16) with (factor + 16 + 1) by lia. rewrite (Z.pow_add_r 2 (factor + 16)) by lia. unfold to_u32.
      apply Z.mod_small. assert (2 ^ (factor + 16) ≤ 2 ^ 30) by (apply Z.pow_le_mono_r; lia). pose proof (Z.pow_pos_nonneg 2 (factor + 16)). lia. }
    destruct (IH (factor + 1) ltac:(lia) ltac:(lia)) as (f' & E & H1 & H2). exists f'. split; [done|]. lia.
  - exists factor. split; [done|]. lia.
Qed.

Lemma joint_factor_spec col factor :
  Forall (λ s, Z.abs s ≤ 2 ^ 31 - 2) col → 0 ≤ factor ≤ 15 →
  ∃ factor', joint_factor col factor (2 ^ (factor + 16)) = Ret factor' ∧ factor ≤ factor' ≤ 15 ∧ Forall (sample_fits factor') col.
Proof.
  intros H. revert factor. induction H as [|s col Hs _ IH]; intros factor Hf; [exists factor; split; [done|]; split; [lia|constructor]|]. cbn [joint_factor].
  assert (to_u32 (Z.abs s) = Z.abs s) as -> by (unfold to_u32; apply Z.mod_small; lia).
  destruct (raise_factor_spec raise_fuel (Z.abs s) factor ltac:(lia) Hf ltac:(unfold raise_fuel; lia)) as (f1 & -> & H1 & H2).
  rewrite outcome_bind_ret. cbn [fst snd]. destruct (IH f1 ltac:(lia)) as (f2 & -> & H3 & H4). exists f2. split; [done|].
  split; [lia|]. constructor; [|done]. split; [|done]. assert (2 ^ (f1 + 16) ≤ 2 ^ (f2 + 16)) by (apply Z.pow_le_mono_r; lia). lia.
Qed.

Lemma block_fits_two r0 r1 block : block_fits [r0; r1] block → ∃ b0 b1, block = [b0; b1] ∧ Forall2 sample_fits r0 b0 ∧ Forall2 sample_fits r1 b1.
Proof.
  intros H. apply Forall2_cons_inv_l in H as (b0 & l & H0 & H & ->). apply Forall2_cons_inv_l in H as (b1 & l' & H1 & H & ->).
  apply Forall2_nil_inv_l in H as ->. by exists b0, b1.
Qed.

Lemma nth_fits r b sb : Forall2 sample_fits r b → Z.abs (nth sb b 0) ≤ 2 ^ 31 - 2.
Proof.
  intros H. destruct (b !! sb) as [s|] eqn:E.
  - rewrite (nth_lookup_Some _ _ _ _ E). apply (Forall2_lookup_r _ _ _ _ _ H) in E as (sf & _ & ? & ?). done.
  - rewrite nth_overflow by (by apply lookup_ge_None). lia.
Qed.

Lemma insert_fits r b sb f s : Forall2 sample_fits r b → sample_fits f s → Forall2 sample_fits (<[sb:=f]> r) (<[sb:=s]> b).
Proof. intros. by apply Forall2_insert. Qed.

(** The sums and differences of a subband. *)
Definition halves (sb ch : nat) (samples : list (list (list Z))) : list Z := map asr1 (column sb ch samples).
Definition sums sb samples := zip_with (λ a b, to_i32 (a + b)) (halves sb 0 samples) (halves sb 1 samples).
Definition differences sb samples := zip_with (λ a b, to_i32 (a - b)) (halves sb 0 samples) (halves sb 1 samples).

Lemma sums_fit sb r0 r1 samples :
  Forall (block_fits [r0; r1]) samples →
  Forall (λ s, Z.abs s ≤ 2 ^ 31 - 2) (sums sb samples) ∧ Forall (λ s, Z.abs s ≤ 2 ^ 31 - 2) (differences sb samples).
Proof.
  unfold sums, differences, halves, column. induction 1 as [|block samples Hb _ [IH1 IH2]]; [by split|].
  destruct (block_fits_two _ _ _ Hb) as (b0 & b1 & -> & F0 & F1). cbn [map zip_with nth].
  pose proof (asr1_bounds _ (nth_fits _ _ sb F0)). pose proof (asr1_bounds _ (nth_fits _ _ sb F1)).
  split; constructor; try done; rewrite to_i32_small; lia.
Qed.

Lemma joined_fit sb r0 r1 f0 f1 samples :
  Forall (block_fits [r0; r1]) samples → Forall (sample_fits f0) (sums sb samples) → Forall (sample_fits f1) (differences sb samples) →
  let samples' := set_column sb 1 (differences sb samples) (set_column sb 0 (sums sb samples) samples) in
  length samples' = length samples ∧ Forall (block_fits [<[sb:=f0]> r0; <[sb:=f1]> r1]) samples'.
Proof.
  unfold sums, differences, halves, column, set_column. cbv zeta. induction 1 as [|block samples Hb _ IH]; [by split|].
  destruct (block_fits_two _ _ _ Hb) as (b0 & b1 & -> & F0 & F1). cbn [map zip_with nth length].
  intros [S1 S2]%Forall_cons [D1 D2]%Forall_cons. destruct (IH S2 D2) as [IH1 IH2]. split; [by f_equal|].
  constructor; [|done]. constructor; [by apply insert_fits|]. constructor; [by apply insert_fits|constructor].
Qed.

Definition audio_fits (fr : sbc_frame) : Prop :=
  Z.of_nat (length (sb_sample_f fr)) = blocks fr ∧ Forall (block_fits (scale_factor fr)) (sb_sample_f fr).

(** What the encoder is given. *)
Definition frame_ok (fr : sbc_frame) : Prop := header_fields_ok fr ∧ bitpool_ok fr ∧ factors_ok fr ∧ audio_fits fr.

(** The fields of the header of a frame. *)
Definition header_fields (fr : sbc_frame) := (frequency fr, block_mode fr, blocks fr, mode fr, channels fr, allocation fr,
  (subband_mode fr, subbands fr, bitpool fr)).

Lemma header_fields_eq fr fr' : header_fields fr = header_fields fr' →
  frequency fr = frequency fr' ∧ block_mode fr = block_mode fr' ∧ blocks fr = blocks fr' ∧ mode fr = mode fr' ∧
  channels fr = channels fr' ∧ allocation fr = allocation fr' ∧ subband_mode fr = subband_mode fr' ∧ subbands fr = subbands fr' ∧
  bitpool fr = bitpool fr'.
Proof. unfold header_fields. intros E. injection E. intros. by split_and!. Qed.

Lemma two_rows fr : factors_ok fr → channels fr = 2 →
  ∃ r0 r1, scale_factor fr = [r0; r1] ∧ Z.of_nat (length r0) = subbands fr ∧ Z.of_nat (length r1) = subbands fr ∧
    Forall (λ sf, 0 ≤ sf < 16) r0 ∧ Forall (λ sf, 0 ≤ sf < 16) r1.
Proof.
  intros [Hl Hr] Hc. destruct (scale_factor fr) as [|r0 [|r1 [|]]]; cbn [length] in Hl; try lia.
  rewrite !Forall_cons in Hr. destruct Hr as ([? ?] & [? ?] & _). by exists r0, r1.
Qed.

Lemma join_subband_ok fr sb :
  channels fr = 2 → factors_ok fr → audio_fits fr → Z.of_nat sb < subbands fr - 1 → 0 ≤ joint fr < 2 ^ (subbands fr - 1) →
  ∃ fr', join_subband sb fr = Ret fr' ∧ header_fields fr' = header_fields fr ∧ factors_ok fr' ∧ audio_fits fr' ∧
    0 ≤ joint fr' < 2 ^ (subbands fr - 1).
Proof.
  intros Hc Hf [Ha1 Ha2] Hsb Hj. destruct (two_rows fr Hf Hc) as (r0 & r1 & Er & L0 & L1 & F0 & F1). rewrite Er in Ha2.
  destruct (sums_fit sb r0 r1 _ Ha2) as [S D]. unfold join_subband. change (Z.shiftl 2 SCALE_OUT_BITS) with (2 ^ (0 + 16)).
  fold (halves sb 0 (sb_sample_f fr)) (halves sb 1 (sb_sample_f fr)). fold (sums sb (sb_sample_f fr)) (differences sb (sb_sample_f fr)).
  destruct (joint_factor_spec _ 0 S ltac:(lia)) as (f0 & -> & B0 & S'). rewrite outcome_bind_ret.
  destruct (joint_factor_spec _ 0 D ltac:(lia)) as (f1 & -> & B1 & D'). rewrite outcome_bind_ret.
  eexists. split; [reflexivity|]. destruct (f0 + f1 <? _); [|split; [done|]; split; [done|]; split; [|done]; split; [done|by rewrite Er]].
  destruct (joined_fit sb r0 r1 f0 f1 _ Ha2 S' D') as [J1 J2]. split; [done|]. rewrite Er. cbn [alter list_alter].
  split; [|split].
  - destruct Hf as [Hf _]. rewrite Er in Hf. split; [exact Hf|]. cbn. repeat constructor; rewrite ?length_insert; try done; apply Forall_insert; try done; lia.
  - split; [by rewrite <- J1 in Ha1|]. exact J2.
  - cbn [joint set_joint]. rewrite Z.shiftl_1_l. split; [apply Z.lor_nonneg; split; [lia|apply Z.pow_nonneg; lia]|].
    destruct (decide (Z.lor (joint fr) (2 ^ Z.of_nat sb) = 0)) as [->|]; [lia|].
    apply Z.log2_lt_pow2; [pose proof (Z.lor_nonneg (joint fr) (2 ^ Z.of_nat sb)); pose proof (Z.pow_nonneg 2 (Z.of_nat sb)); lia|].
    rewrite Z.log2_lor by (try apply Z.pow_nonneg; lia). apply Z.max_lub_lt; [|rewrite Z.log2_pow2; lia].
    destruct (decide (joint fr = 0)) as [->|]; [cbn; lia|]. apply Z.log2_lt_pow2; lia.
Qed.

Lemma join_subbands_ok sbs fr :
  channels fr = 2 → factors_ok fr → audio_fits fr → Forall (λ sb, Z.of_nat sb < subbands fr - 1) sbs → 0 ≤ joint fr < 2 ^ (subbands fr - 1) →
  ∃ fr', join_subbands sbs fr = Ret fr' ∧ header_fields fr' = header_fields fr ∧ factors_ok fr' ∧ audio_fits fr' ∧
    0 ≤ joint fr' < 2 ^ (subbands fr - 1).
Proof.
  intros Hc Hf Ha Hsbs. revert fr Hc Hf Ha Hsbs. induction sbs as [|sb sbs IH]; intros fr Hc Hf Ha Hsbs Hj; [by exists fr|].
  apply Forall_cons in Hsbs as [Hsb Hsbs]. destruct (join_subband_ok fr sb Hc Hf Ha Hsb Hj) as (fr1 & E & Hh & Hf1 & Ha1 & Hj1).
  cbn [join_subbands]. rewrite E, outcome_bind_ret. destruct (header_fields_eq _ _ Hh) as (_ & _ & _ & _ & Ec & _ & _ & Es & _).
  rewrite <- Es in *. destruct (IH fr1 ltac:(congruence) Hf1 Ha1 Hsbs Hj1) as (fr2 & E2 & Hh2 & ?). exists fr2. rewrite Hh2. done.
Qed.

(** * The header *)

Lemma header_byte_fields fq bm md am sm :
  0 ≤ fq < 4 → 0 ≤ bm < 4 → 0 ≤ md < 4 → 0 ≤ am < 2 → 0 ≤ sm < 2 →
  let b := header_byte fq bm md am (if sm =? 0 then 4 else 8) in
  byte_ok b ∧ Z.land (Z.shiftr b 6) 3 = fq ∧ Z.land (Z.shiftr b 4) 3 = bm ∧ Z.land (Z.shiftr b 2) 3 = md ∧
  Z.land (Z.shiftr b 1) 1 = am ∧ Z.land b 1 = sm.
Proof.
  intros Hf Hb Hm Ha Hs b.
  pose proof (forallb_seqZ2 (λ x y, let b := header_byte (x / 4) (x mod 4) (y / 4) (y / 2 mod 2) (if y mod 2 =? 0 then 4 else 8) in
    (0 <=? b) && (b <? 256) && (Z.land (Z.shiftr b 6) 3 =? x / 4) && (Z.land (Z.shiftr b 4) 3 =? x mod 4) &&
    (Z.land (Z.shiftr b 2) 3 =? y / 4) && (Z.land (Z.shiftr b 1) 1 =? y / 2 mod 2) && (Z.land b 1 =? y mod 2)) 16 16
    ltac:(vm_compute; reflexivity) (4 * fq + bm) (4 * md + 2 * am + sm) ltac:(lia) ltac:(lia)) as H. cbv zeta beta in H.
  assert ((4 * fq + bm) / 4 = fq) as E1 by (rewrite Z.mul_comm, Z.div_add_l, Z.div_small by lia; lia).
  assert ((4 * fq + bm) mod 4 = bm) as E2 by (rewrite Z.add_comm, Z.mul_comm, Z.mod_add, Z.mod_small by lia; lia).
  assert ((4 * md + 2 * am + sm) / 4 = md) as E3 by (replace (4 * md + 2 * am + sm) with (md * 4 + (2 * am + sm)) by lia; rewrite Z.div_add_l, Z.div_small by lia; lia).
  assert ((4 * md + 2 * am + sm) / 2 = 2 * md + am) as E4 by (replace (4 * md + 2 * am + sm) with ((2 * md + am) * 2 + sm) by lia; rewrite Z.div_add_l, Z.div_small by lia; lia).
  assert ((2 * md + am) mod 2 = am) as E5 by (rewrite Z.add_comm, Z.mul_comm, Z.mod_add, Z.mod_small by lia; lia).
  assert ((4 * md + 2 * am + sm) mod 2 = sm) as E6 by (replace (4 * md + 2 * am + sm) with (sm + (2 * md + am) * 2) by lia; rewrite Z.mod_add, Z.mod_small by lia; lia).
  rewrite E1, E2, E3, E4, E5, E6 in H. fold b in H. unfold byte_ok. lia.
Qed.

(** The flags of the joined subbands, written and read. *)
Lemma joint_flags_4 j low : 0 ≤ j < 8 → 0 ≤ low < 16 →
  0 ≤ joint_flags 4 j < 16 ∧ read_joint (16 * joint_flags 4 j + low) 3 = j.
Proof.
  intros Hj Hl. pose proof (forallb_seqZ2 (λ j low, (0 <=? joint_flags 4 j) && (joint_flags 4 j <? 16) &&
    (read_joint (16 * joint_flags 4 j + low) 3 =? j)) 8 16 ltac:(vm_compute; reflexivity) j low Hj Hl) as H. cbv beta in H. lia.
Qed.

Lemma joint_flags_8 j : 0 ≤ j < 128 → 0 ≤ joint_flags 8 j < 256 ∧ read_joint (joint_flags 8 j) 7 = j.
Proof.
  intros Hj. pose proof (forallb_seqZ2 (λ j low, (0 <=? joint_flags 8 j) && (joint_flags 8 j <? 256) &&
    (read_joint (joint_flags 8 j) 7 =? j)) 128 1 ltac:(vm_compute; reflexivity) j 0 Hj ltac:(lia)) as H. cbv beta in H. lia.
Qed.

Lemma headers_start a b : byte_ok a → byte_ok b → headers_agree (crc_header0 a b) (crc_header0 a b) 4.
Proof.
  intros Ha Hb. split; [done|]. split; [|split; [done|split; [|lia]]].
  { unfold crc_header0. apply Forall_app. split; [rewrite !Forall_cons; by split_and!|]. apply Forall_replicate. unfold byte_ok. lia. }
  intros i Hi H11. do 11 (destruct i as [|i]; [first [lia|done]|]). lia.
Qed.

(** The first octet of a value that starts an octet. *)
Lemma found_octet data pos n v r :
  found data (8 * pos) (nbits (n + r) v) → (n + r = 8)%nat → Forall byte_ok data → ∃ b, data !! pos = Some b ∧ byte_ok b ∧ nbits 8 b = nbits (n + r) v.
Proof.
  intros Hf Hn Hd. pose proof (found_length _ _ _ Hf) as Hl. rewrite length_nbits in Hl.
  assert (8 * pos + (n + r) ≤ 8 * length data)%nat as Hl' by (apply Hl; intros E; apply (f_equal length) in E; rewrite length_nbits in E; cbn in E; lia).
  destruct (lookup_lt_is_Some_2 data pos ltac:(lia)) as [b Hb]. exists b. split; [done|]. split; [by eapply Forall_lookup_1 in Hd|].
  destruct Hf as [q H]. rewrite <- (take_drop_middle data _ b Hb), bits_of_app, bits_of_cons in H.
  rewrite drop_app_length' in H by (rewrite length_bits_of, length_take; lia).
  apply app_inj_1 in H as [H _]; [done|]. rewrite !length_nbits. lia.
Qed.

(** ** What precedes the scale factors *)

Definition is_joint (fr : sbc_frame) : bool := mode fr =? SBC_MODE_JOINT_STEREO.
Definition prefix_size (fr : sbc_frame) : Z := if is_joint fr then subbands fr else 0.
Definition prefix_bits (fr : sbc_frame) : list bool :=
  nbits (Z.to_nat (prefix_size fr)) (joint_flags (subbands fr) (joint fr)).

Lemma pack_joint_header a b S flags b4 :
  byte_ok a → byte_ok b → S = 4 ∧ 0 ≤ flags < 16 ∧ Z.land b4 240 = Z.shiftl flags 4 ∨ S = 8 ∧ 0 ≤ flags < 256 ∧ b4 = flags →
  headers_agree (header_set (crc_header0 a b) 16 flags)
    (header_set (crc_header0 a b) 16 (if S =? 4 then Z.land b4 240 else b4)) (4 + Z.to_nat (S / 4)).
Proof.
  intros Ha Hb H. assert (byte_ok flags) as Hfl by (unfold byte_ok; lia).
  assert (header_set (crc_header0 a b) 16 flags = [a; b; flags] ++ replicate 8 0) as -> by done.
  assert (Forall byte_ok ([a; b; flags] ++ replicate 8 0)) as HF.
  { apply Forall_app. split; [rewrite !Forall_cons; by split_and!|]. apply Forall_replicate. unfold byte_ok. lia. }
  destruct H as [(-> & Hf & E)|(-> & Hf & ->)].
  - cbn [Z.eqb Pos.eqb]. rewrite E. change (4 + Z.to_nat (4 / 4))%nat with 5%nat. split; [done|]. split; [done|]. split; [|split].
    + unfold align_header. change (4 * Z.of_nat 5) with 20. change (20 mod 8) with 4. change (4 =? 0) with false. cbv iota.
      unfold header_set, header_octet, crc_header0. change (Z.to_nat (20 / 8)) with 2%nat. change (Z.to_nat (16 / 8)) with 2%nat.
      cbn [app nth replicate insert list_insert]. do 3 f_equal. unfold to_u8. change (8 - 4) with 4. rewrite !Z.shiftl_mul_pow2 by lia.
      rewrite Z.mod_small by lia. done.
    + intros i Hi H11. do 11 (destruct i as [|i]; [first [lia|done]|]). lia.
    + intros k Hk. replace k with 2%nat by lia. cbn. lia.
  - cbn [Z.eqb Pos.eqb]. change (4 + Z.to_nat (8 / 4))%nat with 6%nat. split; [done|]. split; [done|]. split; [done|]. split; [|lia].
    intros i Hi H11. do 11 (destruct i as [|i]; [first [lia|done]|]). lia.
Qed.

Lemma pack_prefix_spec fr a b :
  frame_ok fr → byte_ok a → byte_ok b →
  ∃ fr1 w hp n, pack_prefix fr (crc_header0 a b) = Ret (fr1, w, hp, 4 * Z.of_nat n) ∧ header_fields fr1 = header_fields fr ∧
    factors_ok fr1 ∧ audio_fits fr1 ∧ (is_joint fr = false → fr1 = fr) ∧ written w (prefix_bits fr1) ∧
    4 * Z.of_nat n = 16 + prefix_size fr ∧
    ∃ hu, headers_agree hp hu n ∧
    ∀ data frx, Forall byte_ok data → header_fields frx = header_fields fr → found data 32 (prefix_bits fr1) →
      unpack_joint data frx (crc_header0 a b) = Ret (if is_joint fr then set_joint (joint fr1) frx else frx, hu, prefix_size fr).
Proof.
  intros (Hh & _ & Hf & Ha) Hba Hbb. pose proof Hh as (_ & _ & _ & _ & Hch & _ & Hsm & Hsub).
  unfold pack_prefix, unpack_joint. fold (is_joint fr). destruct (is_joint fr) eqn:Hj.
  - assert (channels fr = 2) as Hc2 by (unfold is_joint in Hj; apply Z.eqb_eq in Hj; by rewrite Hj in Hch).
    assert (subbands fr = 4 ∨ subbands fr = 8) as HS by (rewrite Hsub; destruct (_ =? 0); tauto).
    destruct (join_subbands_ok (seq 0 (Z.to_nat (subbands fr - 1))) (set_joint 0 fr)) as (fr1 & -> & E & Hf1 & Ha1 & Hj1); try done.
    { apply Forall_forall. intros sb Hsb%elem_of_seq. cbn [subbands set_joint]. lia. }
    { cbn [joint subbands set_joint]. split; [lia|]. apply Z.pow_pos_nonneg; lia. }
    change (header_fields (set_joint 0 fr)) with (header_fields fr) in E. cbn [subbands set_joint] in Hj1.
    rewrite outcome_bind_ret. destruct (header_fields_eq _ _ E) as (_ & _ & _ & Em & _ & _ & _ & Es & _).
    assert (is_joint fr1 = true) as Hj1' by (unfold is_joint; by rewrite Em).
    set (flags := joint_flags (subbands fr) (joint fr1)).
    assert (0 ≤ flags < 2 ^ subbands fr) as Hfl.
    { subst flags. destruct HS as [HS|HS]; rewrite HS in *; [apply (joint_flags_4 _ 0 Hj1); lia|by apply joint_flags_8]. }
    exists fr1, (put_bits ([], 0, 0) flags (subbands fr)), (header_set (crc_header0 a b) 16 flags), (4 + Z.to_nat (subbands fr / 4))%nat.
    unfold prefix_bits, prefix_size. rewrite Hj, Hj1'. cbv zeta iota. rewrite Es. fold flags.
    assert (4 * Z.of_nat (4 + Z.to_nat (subbands fr / 4)) = 16 + subbands fr) as En by (destruct HS as [-> | ->]; done).
    rewrite En. split; [done|]. split; [done|]. split; [done|]. split; [done|]. split; [done|]. split.
    { pose proof (put_bits_written _ [] flags (Z.to_nat (subbands fr)) written_start ltac:(lia)) as Hw.
      rewrite Z2Nat.id in Hw by lia. by apply Hw. }
    split; [done|].
    assert (∃ v, headers_agree (header_set (crc_header0 a b) 16 flags) (header_set (crc_header0 a b) 16 v) (4 + Z.to_nat (subbands fr / 4)) ∧
      ((subbands fr = 4 ∧ v = Z.shiftl flags 4) ∨ (subbands fr = 8 ∧ v = flags))) as (v & Hagree & Hv).
    { destruct HS as [HS|HS]; rewrite HS in *.
      - exists (Z.shiftl flags 4). split; [|by left].
        pose proof (forallb_seqZ2 (λ f _, Z.land (Z.shiftl f 4) 240 =? Z.shiftl f 4) 16 1 ltac:(vm_compute; reflexivity) flags 0 Hfl ltac:(lia)) as B.
        cbv beta in B. apply Z.eqb_eq in B.
        pose proof (pack_joint_header a b 4 flags (Z.shiftl flags 4) Hba Hbb) as H. cbn [Z.eqb Pos.eqb] in H. rewrite B in H. apply H. left. done.
      - exists flags. split; [|by right]. apply (pack_joint_header a b 8 flags flags Hba Hbb). right. done. }
    eexists. split; [exact Hagree|].
    intros data frx Hd Ex Hfound. destruct (header_fields_eq _ _ Ex) as (_ & _ & _ & Emx & _ & _ & _ & Esx & _).
    assert ((mode frx =? SBC_MODE_JOINT_STEREO) = true) as -> by (by rewrite Emx). rewrite Esx.
    destruct HS as [HS|HS]; rewrite HS in *.
    + destruct (read_factor data 32 flags ltac:(done) Hfound ltac:(lia)) as (b4 & Eb & E4). change (Z.of_nat 32 / 8) with 4 in Eb.
      change (4 - Z.of_nat 32 mod 8) with 4 in E4. rewrite Eb, outcome_bind_ret.
      assert (byte_ok b4) as Hb4.
      { unfold adv in Eb. destruct (drop (Z.to_nat 4) data) as [|x l] eqn:Ed; [done|]. injection Eb as ->.
        eapply (Forall_drop _ (Z.to_nat 4)) in Hd. rewrite Ed in Hd. by apply Forall_cons in Hd as [? _]. }
      pose proof (forallb_seqZ2 (λ b _, (Z.land b 240 =? Z.shiftl (Z.land (Z.shiftr b 4) 15) 4) && (b =? 16 * Z.land (Z.shiftr b 4) 15 + b mod 16)) 256 1
        ltac:(vm_compute; reflexivity) b4 0 Hb4 ltac:(lia)) as B. cbv beta in B. rewrite E4 in B.
      apply andb_true_iff in B as [B1%Z.eqb_eq B2%Z.eqb_eq].
      pose proof (Z.mod_pos_bound b4 16 ltac:(lia)).
      destruct Hv as [[_ ->]|[? _]]; [|lia]. cbn [Z.eqb Pos.eqb]. rewrite B1. do 4 f_equal.
      change (Z.to_nat (4 - 1)) with 3%nat. destruct (joint_flags_4 (joint fr1) (b4 mod 16) Hj1 ltac:(lia)) as [_ E5].
      assert (joint_flags 4 (joint fr1) = flags) as Efl by (subst flags; by rewrite HS). rewrite Efl in E5.
      rewrite <- E5. f_equal. exact B2.
    + destruct (found_octet data 4 8 flags 0 Hfound ltac:(done) Hd) as (b4 & Eb & Hb4 & E4). unfold adv. rewrite (drop_S data b4 (Z.to_nat 4) Eb).
      cbn [rd8]. rewrite outcome_bind_ret. apply (nbits_inj 8) in E4 as ->; [|done|done].
      destruct Hv as [[? _]|[_ ->]]; [lia|]. cbn [Z.eqb Pos.eqb]. do 4 f_equal.
      assert (joint_flags 8 (joint fr1) = flags) as Efl by (subst flags; by rewrite HS). rewrite <- Efl.
      by destruct (joint_flags_8 (joint fr1) Hj1) as [_ E5].
  - exists fr, ([], 0, 0), (crc_header0 a b), 4%nat. unfold prefix_bits, prefix_size. rewrite Hj.
    split; [done|]. split; [done|]. split; [done|]. split; [done|]. split; [done|]. split; [apply written_start|]. split; [done|].
    eexists. split; [by apply headers_start|]. intros data frx Hd Ex _. destruct (header_fields_eq _ _ Ex) as (_ & _ & _ & Emx & _).
    assert ((mode frx =? SBC_MODE_JOINT_STEREO) = false) as -> by (by rewrite Emx). done.
Qed.

(** * The frame *)

Lemma calculate_bits_ext fr fr' :
  header_fields fr = header_fields fr' → scale_factor fr = scale_factor fr' → sbc_calculate_bits fr = sbc_calculate_bits fr'.
Proof.
  intros (E1 & _ & _ & E4 & E5 & E6 & _ & E8 & E9)%header_fields_eq Es. destruct fr, fr'. cbn in *. subst. done.
Qed.

Lemma unpack_header_spec data fr0 fr b0 :
  header_fields_ok fr → 0 ≤ bitpool fr → take 3 data = [b0; header_byte (frequency fr) (block_mode fr) (mode fr) (allocation fr) (subbands fr); bitpool fr] →
  ∃ frx, unpack_header data fr0 = Ret frx ∧ header_fields frx = header_fields fr.
Proof.
  intros (H1 & H2 & H3 & H4 & H5 & H6 & H7 & H8) _ Hd.
  destruct data as [|x0 [|x1 [|x2 data]]]; cbn [take] in Hd; try done. injection Hd as -> -> ->.
  destruct (header_byte_fields _ _ _ _ _ H1 H2 H4 H6 H7) as (_ & F1 & F2 & F3 & F4 & F5).
  rewrite <- H8 in F1, F2, F3, F4, F5. set (b := header_byte _ _ _ _ _) in *. unfold unpack_header. change (rd8 (adv 1 (b0 :: b :: bitpool fr :: data))) with (@Ret Z b).
  change (rd8 (adv 2 (b0 :: b :: bitpool fr :: data))) with (@Ret Z (bitpool fr)). rewrite !outcome_bind_ret, F1, F2, F3, F4, F5.
  eexists. split; [reflexivity|]. unfold header_fields. cbn. rewrite H3, H5, H8. clear F1 F2 F3 F4 F5.
  assert ((if block_mode fr =? SBC_BLK_4 then 4 else if block_mode fr =? SBC_BLK_8 then 8 else if block_mode fr =? SBC_BLK_12 then 12 else 16) =
    4 + 4 * block_mode fr) as ->; [|done].
  unfold SBC_BLK_4, SBC_BLK_8, SBC_BLK_12. decide_bools; lia.
Qed.

Lemma rows_ok fr bits :
  bits_ok fr bits → factors_ok fr →
  ∀ block, block_fits (scale_factor fr) block → block_ok (zip_with zip bits (scale_factor fr)) block.
Proof.
  intros [Hl Hb] [Hl' Hf]. assert (length bits = length (scale_factor fr)) as Hlen by lia. clear Hl Hl'. revert Hlen Hb Hf.
  generalize (subbands fr). intros S. revert bits. induction (scale_factor fr) as [|row rows IH]; intros [|brow bits] Hlen Hb Hf block Hfit; try done.
  - apply Forall2_nil_inv_l in Hfit as ->. constructor.
  - apply Forall2_cons_inv_l in Hfit as (b & block' & Hfit & Hfits & ->). apply Forall_cons in Hb as [[Lb Fb] Hb].
    apply Forall_cons in Hf as [[Lf Ff] Hf]. cbn [zip_with]. constructor; [|apply IH; [cbn [length] in Hlen; lia|done|done|done]].
    assert (length brow = length row) as Hbl by lia. clear -Hfit Fb Ff Hbl. revert brow Fb Hbl.
    induction Hfit as [|sf s row b [Hs1 Hs2] _ IH]; intros [|x brow] Fb Hbl; try done.
    apply Forall_cons in Fb as [Hx Fb]. apply Forall_cons in Ff as [Hsf Ff]. cbn [zip_with]. constructor; [|apply IH; [done|done|cbn [length] in Hbl; lia]].
    split; [done|]. by split.
Qed.

Lemma rows_total fr bits :
  bits_ok fr bits → factors_ok fr →
  zsum (map (λ row, zsum (map fst row)) (zip_with zip bits (scale_factor fr))) = zsum (map zsum bits).
Proof.
  intros [Hl Hb] [Hl' Hf]. assert (length bits = length (scale_factor fr)) as Hlen by lia. clear Hl Hl'. revert Hlen Hb Hf.
  generalize (subbands fr). intros S. revert bits. induction (scale_factor fr) as [|row rows IH]; intros [|brow bits] Hlen Hb Hf; try done.
  apply Forall_cons in Hb as [[Lb _] Hb]. apply Forall_cons in Hf as [[Lf _] Hf]. cbn [zip_with map zsum].
  rewrite IH; [|cbn [length] in Hlen; lia|done|done]. f_equal. f_equal. by rewrite fst_zip by lia.
Qed.

Lemma rows_of_concat fr : header_fields_ok fr → factors_ok fr →
  rows_of (Z.to_nat (subbands fr)) (concat (scale_factor fr)) (channels fr) = scale_factor fr ∧
  Z.of_nat (length (concat (scale_factor fr))) = subbands fr * channels fr ∧ Forall (λ sf, 0 ≤ sf < 16) (concat (scale_factor fr)).
Proof.
  intros Hh Hf. assert (channels fr = 1 ∨ channels fr = 2) as [Hc|Hc].
  { destruct Hh as (_ & _ & _ & _ & -> & _). destruct (_ =? _); tauto. }
  - destruct Hf as [Hl Hr]. rewrite Hc in *. destruct (scale_factor fr) as [|r0 [|]]; cbn [length] in Hl; try lia.
    rewrite !Forall_cons in Hr. destruct Hr as [[L0 F0] _]. cbn [concat rows_of Z.eqb Pos.eqb]. rewrite app_nil_r, take_ge by lia. by split_and!; [|lia|].
  - destruct (two_rows fr Hf Hc) as (r0 & r1 & -> & L0 & L1 & F0 & F1). rewrite Hc. cbn [concat rows_of Z.eqb Pos.eqb].
    rewrite app_nil_r. rewrite take_app_length', drop_app_length' by lia. split; [done|]. rewrite length_app, Forall_app. split; [lia|done].
Qed.

(** The number of octets of a frame: header, flags, scale factors and audio. *)
Definition audio_size (fr : sbc_frame) : Z := blocks fr * (if separate fr then channels fr * bitpool fr else bitpool fr).
Definition frame_size (fr : sbc_frame) : Z := 4 + (prefix_size fr + 4 * subbands fr * channels fr + audio_size fr + 7) / 8.

Lemma bits_total fr bits :
  bits_ok fr bits → (if separate fr then Forall (λ row, zsum row = bitpool fr) bits else zsum (concat bits) = bitpool fr) →
  blocks fr * zsum (map zsum bits) = audio_size fr.
Proof.
  intros [Hl _] H. unfold audio_size. f_equal. destruct (separate fr).
  - rewrite <- Hl. clear Hl. induction H as [|row bits Hr _ IH]; cbn [map zsum length]; [lia|]. rewrite IH, Hr. lia.
  - rewrite <- H. clear. induction bits as [|row bits IH]; [done|]. cbn [map zsum concat]. rewrite zsum_app, IH. done.
Qed.

Lemma round_up consumed pad n :
  0 ≤ consumed → 0 ≤ pad < 8 → consumed + pad = 8 * n →
  Z.shiftr (if Z.land consumed 7 =? 0 then consumed else consumed + (8 - Z.land consumed 7)) 3 = n ∧ n = (consumed + 7) / 8.
Proof.
  intros Hc Hp E. change 7 with (Z.ones 3) at 1 2. rewrite Z.land_ones, Z.shiftr_div_pow2 by lia. change (2 ^ 3) with 8.
  assert (consumed mod 8 = (8 - pad) mod 8) as ->.
  { replace consumed with (8 - pad + (n - 1) * 8) by lia. by rewrite Z.mod_add by lia. }
  destruct (decide (pad = 0)) as [->|].
  - change ((8 - 0) mod 8 =? 0) with true. cbv iota. assert (consumed = n * 8) as -> by lia. rewrite Z.div_mul, Z.div_add_l by lia. change (7 / 8) with 0. split; [done|lia].
  - rewrite (Z.mod_small (8 - pad)) by lia. rewrite (proj2 (Z.eqb_neq _ _)) by lia. split.
    + replace (consumed + (8 - (8 - pad))) with (n * 8) by lia. by rewrite Z.div_mul by lia.
    + replace (consumed + 7) with (n * 8 + (7 - pad)) by lia. rewrite Z.div_add_l, Z.div_small by lia. lia.
Qed.

(** What the encoder writes after the four octets of the header. *)
Definition body_bits (fr1 : sbc_frame) (rows : list (list (Z * Z))) : list bool :=
  prefix_bits fr1 ++ concat (map (nbits 4) (concat (scale_factor fr1))) ++ audio_bits rows (sb_sample_f fr1).

Definition first_octets (fr : sbc_frame) : list Z :=
  [SBC_SYNCWORD; header_byte (frequency fr) (block_mode fr) (mode fr) (allocation fr) (subbands fr); bitpool fr].

Lemma bitpool_guards fr : bitpool_ok fr →
  (separate fr && (16 * subbands fr <? bitpool fr) = false) ∧ (together fr && (32 * subbands fr <? bitpool fr) = false).
Proof.
  intros [Hp0 Hp]. unfold separate, together in *. unfold SBC_MODE_MONO, SBC_MODE_DUAL_CHANNEL, SBC_MODE_STEREO, SBC_MODE_JOINT_STEREO in *.
  revert Hp. decide_bools; intros; try lia; done.
Qed.

Lemma pack_spec stray fr :
  frame_ok fr → byte_ok stray →
  ∃ fr1 hp hu n bits crc body pad,
    sbc_pack_frame stray fr = Ret (4 + Z.of_nat (length body), first_octets fr ++ [crc] ++ body, fr1) ∧
    header_fields fr1 = header_fields fr ∧ factors_ok fr1 ∧ audio_fits fr1 ∧ (is_joint fr = false → fr1 = fr) ∧
    sbc_calculate_bits fr1 = Ret bits ∧ bits_ok fr bits ∧
    (if separate fr then Forall (λ row, zsum row = bitpool fr) bits else zsum (concat bits) = bitpool fr) ∧
    Forall byte_ok body ∧ bits_of body = body_bits fr1 (zip_with zip bits (scale_factor fr1)) ++ replicate pad false ∧ (pad < 8)%nat ∧
    crc = crc8 (take n (bits_of hp)) ∧ length hp = 11%nat ∧ Forall byte_ok hp ∧ (n ≤ 88)%nat ∧
    Z.of_nat n = 16 + prefix_size fr + 4 * subbands fr * channels fr ∧
    ∀ data frx, Forall byte_ok data → header_fields frx = header_fields fr →
      found data 32 (prefix_bits fr1 ++ concat (map (nbits 4) (concat (scale_factor fr1)))) →
      unpack_joint data frx (crc_header0 (header_byte (frequency fr) (block_mode fr) (mode fr) (allocation fr) (subbands fr)) (bitpool fr)) =
        Ret (if is_joint fr then set_joint (joint fr1) frx else frx, hu, prefix_size fr) ∧
      read_factors (Z.to_nat (subbands fr * channels fr)) data (32 + prefix_size fr) hu (16 + prefix_size fr) =
        Ret (concat (scale_factor fr1), 32 + prefix_size fr + 4 * subbands fr * channels fr, hp, Z.of_nat n).
Proof.
  intros Hok Hstray. pose proof Hok as (Hh & Hp & Hf & Ha). destruct (bitpool_guards fr Hp) as [G1 G2].
  pose proof Hh as (H1 & H2 & H3 & H4 & H5 & H6 & H7 & H8).
  set (b1 := header_byte (frequency fr) (block_mode fr) (mode fr) (allocation fr) (subbands fr)).
  destruct (header_byte_fields _ _ _ _ _ H1 H2 H4 H6 H7) as [Hb1 _]. rewrite <- H8 in Hb1. fold b1 in Hb1.
  assert (byte_ok (bitpool fr)) as Hb2 by (unfold byte_ok; apply Hp).
  destruct (pack_prefix_spec fr b1 (bitpool fr) Hok Hb1 Hb2) as (fr1 & w & hp & n & Epre & Ehf & Hf1 & Ha1 & Hsame & Hw & En & hu & Hagree & Hunj).
  destruct (header_fields_eq _ _ Ehf) as (E1 & E2 & E3 & E4 & E5 & E6 & E7 & E8 & E9).
  assert (header_fields_ok fr1) as Hh1 by (unfold header_fields_ok; rewrite E1, E2, E3, E4, E5, E6, E7, E8; exact Hh).
  assert (separate fr1 = separate fr) as Esep by (unfold separate; by rewrite E4).
  assert (bitpool_ok fr1) as Hp1 by (unfold bitpool_ok; rewrite Esep, E8, E9; exact Hp).
  destruct (rows_of_concat fr1 Hh1 Hf1) as (_ & Hlen & HF). rewrite E8, E5 in Hlen.
  assert (subbands fr = 4 ∨ subbands fr = 8) as HS by (rewrite H8; destruct (_ =? 0); tauto).
  assert (channels fr = 1 ∨ channels fr = 2) as HC by (rewrite H5; destruct (_ =? _); tauto).
  assert (prefix_size fr = 0 ∨ prefix_size fr = subbands fr ∧ channels fr = 2) as HP.
  { unfold prefix_size, is_joint. destruct (Z.eqb_spec (mode fr) SBC_MODE_JOINT_STEREO) as [Em|]; [|by left]. right. by rewrite Em in H5. }
  assert (n + length (concat (scale_factor fr1)) ≤ 22)%nat as Hn22 by (destruct HS, HC, HP; lia).
  destruct (factors_agree _ hp hu n w _ Hagree Hn22 HF Hw) as (w1 & hp1 & hu1 & Eput & Hw1 & (Hl1 & Hb1' & Ehu1 & _) & Hread).
  destruct (bit_allocation_exact_lemma fr1 Hh1 Hp1 Hf1) as (bits & Ebits & Hbits & Hsum). rewrite Esep, E9 in Hsum.
  assert (bits_ok fr bits) as Hbits' by (unfold bits_ok in *; by rewrite E5, E8 in Hbits).
  pose proof (put_audio_written (zip_with zip bits (scale_factor fr1)) (sb_sample_f fr1) w1 _
    ltac:(eapply Forall_impl; [apply Ha1|]; by apply rows_ok) Hw1) as Hw2.
  set (w2 := foldl _ w1 _) in *. destruct (flush_bits_written _ _ Hw2) as (pad & Hbody & Ebody & Hpad).
  set (m := (n + length (concat (scale_factor fr1)))%nat) in *.
  assert (hu1 = align_header hp1 (4 * Z.of_nat m)) as Ehu by done.
  assert (Forall byte_ok hu1 ∧ length hu1 = 11%nat) as [Hbu Hlu].
  { rewrite Ehu. unfold align_header. destruct ((4 * Z.of_nat m) mod 8 =? 0); [done|]. unfold header_set. rewrite length_insert. split; [|done].
    apply Forall_insert; [done|]. apply to_u8_byte. }
  exists fr1, hu1, hu, (4 * m)%nat, bits, (crc8 (take (4 * m) (bits_of hu1))), (flush_bits w2), pad.
  split.
  { unfold sbc_pack_frame. rewrite !Z.shiftl_mul_pow2 by lia. change (2 ^ 4) with 16. change (2 ^ 5) with 32.
    rewrite !(Z.mul_comm (subbands fr)), G1, G2.
    fold b1. rewrite Epre, outcome_bind_ret. cbv iota.
    rewrite Eput. cbv zeta. rewrite <- Ehu. rewrite (sbc_crc8_bits (hu1 ++ [stray])).
    2:{ rewrite length_app, Hlu. cbn [length]. lia. }
    2:{ apply Forall_app. split; [done|]. by constructor. }
    rewrite outcome_bind_ret, Ebits, outcome_bind_ret. fold w2. unfold first_octets. fold b1.
    assert (take (Z.to_nat (4 * Z.of_nat m)) (bits_of (hu1 ++ [stray])) = take (4 * m) (bits_of hu1)) as ->.
    { replace (Z.to_nat (4 * Z.of_nat m)) with (4 * m)%nat by lia. rewrite bits_of_app, take_app_le; [done|]. rewrite length_bits_of. lia. }
    rewrite E9, length_app. cbn [length]. by replace (Z.of_nat (4 + length (flush_bits w2))) with (4 + Z.of_nat (length (flush_bits w2))) by lia. }
  split_and!; try done; try lia.
  { rewrite Ebody. unfold body_bits. by rewrite <- !app_assoc. }
  intros data frx Hd Ex [Hfd1 Hfd2]%found_app. split; [by apply Hunj|].
  unfold prefix_bits in Hfd2. rewrite length_nbits in Hfd2.
  assert (prefix_size fr1 = prefix_size fr) as Eps by (unfold prefix_size, is_joint; by rewrite E4, E8). rewrite Eps in Hfd2.
  assert (0 ≤ prefix_size fr) as Hps by lia.
  specialize (Hread data (32 + Z.to_nat (prefix_size fr))%nat).
  replace (32 + prefix_size fr) with (Z.of_nat (32 + Z.to_nat (prefix_size fr))) by lia.
  replace (16 + prefix_size fr) with (4 * Z.of_nat n) by lia.
  replace (Z.to_nat (subbands fr * channels fr)) with (length (concat (scale_factor fr1))) by lia.
  rewrite Hread; [|destruct HP as [->|[-> _]]; [done|]; destruct HS as [-> | ->]; done|done].
  f_equal. f_equal; [|lia]. f_equal. f_equal. lia.
Qed.

(** The samples of a block and what the decoder makes of them. *)
Definition block_close (rows : list (list (Z * Z))) (block vs : list (list Z)) : Prop :=
  Forall2 (Forall2 (λ p v, sample_close p.1 p.2 v)) (zip_with zip rows block) vs.

Lemma decoded_block_close rows block : block_ok rows block → block_close rows block (decoded_block rows block).
Proof.
  unfold block_close, decoded_block. induction 1 as [|row samples rows block Hr _ IH]; [constructor|]. cbn [zip_with]. constructor; [|done].
  clear -Hr. induction Hr as [|p s row samples Hc _ IH]; [constructor|]. cbn [zip_with]. constructor; [|done]. cbn [fst snd].
  by apply decoded_close.
Qed.

Definition joined (fr : sbc_frame) (samples : list (list (list Z))) : list (list (list Z)) :=
  if is_joint fr then map (unjoin (joint fr)) samples else samples.

Lemma unpack_audio_spec fr1 frx bits data len pos :
  header_fields frx = header_fields fr1 → scale_factor frx = scale_factor fr1 → (is_joint fr1 = true → joint frx = joint fr1) →
  sbc_calculate_bits fr1 = Ret bits → bits_ok fr1 bits → factors_ok fr1 → audio_fits fr1 →
  let rows := zip_with zip bits (scale_factor fr1) in
  found data pos (audio_bits rows (sb_sample_f fr1)) →
  Z.of_nat pos + Z.of_nat (length (audio_bits rows (sb_sample_f fr1))) ≤ len * 8 →
  let consumed := Z.of_nat pos + Z.of_nat (length (audio_bits rows (sb_sample_f fr1))) in
  unpack_audio data frx len (Z.of_nat pos) =
  Ret (Z.shiftr (if Z.land consumed 7 =? 0 then consumed else consumed + (8 - Z.land consumed 7)) 3,
       set_sb_sample (joined fr1 (map (decoded_block rows) (sb_sample_f fr1))) frx).
Proof.
  intros Eh Es Ej Eb Hb Hf [Ha1 Ha2] rows Hfound Hlen consumed. unfold unpack_audio. rewrite (calculate_bits_ext _ _ Eh Es), Eb, outcome_bind_ret.
  rewrite Es. fold rows. destruct (header_fields_eq _ _ Eh) as (_ & _ & -> & -> & _).
  replace (Z.to_nat (blocks fr1)) with (length (sb_sample_f fr1)) by lia.
  rewrite (read_blocks_found rows); [|eapply Forall_impl; [exact Ha2|]; by apply rows_ok|done|done].
  rewrite outcome_bind_ret. cbv iota. rewrite Nat2Z.inj_add. unfold joined. fold (is_joint fr1).
  destruct (is_joint fr1) eqn:Hj; [|done]. by rewrite Ej.
Qed.

(** ** Decoding what was packed *)

Section packed.
Context (stray : Z) (fr fr1 : sbc_frame) (hp hu : list Z) (n : nat) (bits : list (list Z)) (crc : Z) (body rest : list Z) (pad : nat).
Context (Hh : header_fields_ok fr) (Hp : bitpool_ok fr) (Eh : header_fields fr1 = header_fields fr).
Context (Hf1 : factors_ok fr1) (Ha1 : audio_fits fr1) (Ebits : sbc_calculate_bits fr1 = Ret bits) (Hbits : bits_ok fr bits).
Context (Hsum : if separate fr then Forall (λ row, zsum row = bitpool fr) bits else zsum (concat bits) = bitpool fr).
Let rows := zip_with zip bits (scale_factor fr1).
Context (Hbody : Forall byte_ok body) (Hrest : Forall byte_ok rest) (Hstray : byte_ok stray).
Context (Ebody : bits_of body = body_bits fr1 rows ++ replicate pad false) (Hpad : (pad < 8)%nat).
Context (Ecrc : crc = crc8 (take n (bits_of hp))) (Hlp : length hp = 11%nat) (Hbp : Forall byte_ok hp) (Hn : (n ≤ 88)%nat).
Let b1 := header_byte (frequency fr) (block_mode fr) (mode fr) (allocation fr) (subbands fr).
Let whole := (first_octets fr ++ [crc] ++ body) ++ rest.
Context (Hunpack : ∀ data frx, Forall byte_ok data → header_fields frx = header_fields fr →
  found data 32 (prefix_bits fr1 ++ concat (map (nbits 4) (concat (scale_factor fr1)))) →
  unpack_joint data frx (crc_header0 b1 (bitpool fr)) =
    Ret (if is_joint fr then set_joint (joint fr1) frx else frx, hu, prefix_size fr) ∧
  read_factors (Z.to_nat (subbands fr * channels fr)) data (32 + prefix_size fr) hu (16 + prefix_size fr) =
    Ret (concat (scale_factor fr1), 32 + prefix_size fr + 4 * subbands fr * channels fr, hp, Z.of_nat n)).

Lemma packed_fields : header_fields_ok fr1 ∧ bits_ok fr1 bits ∧ is_joint fr1 = is_joint fr ∧ prefix_size fr1 = prefix_size fr ∧
  0 ≤ prefix_size fr ∧ 0 < subbands fr ∧ 0 < channels fr.
Proof.
  destruct (header_fields_eq _ _ Eh) as (E1 & E2 & E3 & E4 & E5 & E6 & E7 & E8 & E9).
  assert (is_joint fr1 = is_joint fr) as Ej by (unfold is_joint; by rewrite E4).
  split; [unfold header_fields_ok; rewrite E1, E2, E3, E4, E5, E6, E7, E8; exact Hh|].
  split; [unfold bits_ok; by rewrite E5, E8|]. split; [done|]. split; [unfold prefix_size; by rewrite Ej, E8|].
  destruct Hh as (_ & _ & _ & _ & Hc & _ & _ & Hs8). unfold prefix_size. rewrite Hs8, Hc. destruct (is_joint fr), (_ =? 0), (_ =? _); lia.
Qed.

Lemma packed_blocks : Forall (block_ok rows) (sb_sample_f fr1).
Proof. eapply Forall_impl; [apply Ha1|]. apply (rows_ok fr1); [apply packed_fields|done]. Qed.

Let consumed := 32 + prefix_size fr + 4 * subbands fr * channels fr + audio_size fr.

Lemma packed_lengths :
  Z.of_nat (length (audio_bits rows (sb_sample_f fr1))) = audio_size fr ∧
  Z.of_nat (length (prefix_bits fr1 ++ concat (map (nbits 4) (concat (scale_factor fr1))))) = prefix_size fr + 4 * subbands fr * channels fr ∧
  consumed + Z.of_nat pad = 8 * (4 + Z.of_nat (length body)) ∧ 0 ≤ consumed.
Proof.
  destruct packed_fields as (Hh1 & Hbits1 & _ & Eps & Hps & Hsb & Hch). destruct (header_fields_eq _ _ Eh) as (_ & _ & E3 & _ & E5 & _ & _ & E8 & _).
  destruct (rows_of_concat fr1 Hh1 Hf1) as (_ & Hlen & _). rewrite E8, E5 in Hlen.
  assert (Z.of_nat (length (audio_bits rows (sb_sample_f fr1))) = audio_size fr) as Eaudio.
  { rewrite length_audio_bits by apply packed_blocks. unfold rows. rewrite (rows_total fr1 bits Hbits1 Hf1), (proj1 Ha1), E3. by apply bits_total. }
  assert (length (concat (map (nbits 4) (concat (scale_factor fr1)))) = (4 * length (concat (scale_factor fr1)))%nat) as Elf.
  { clear. induction (concat (scale_factor fr1)) as [|sf l IH]; [done|]. cbn [map concat length]. rewrite length_app, length_nbits, IH. lia. }
  assert (length (prefix_bits fr1) = Z.to_nat (prefix_size fr)) as Elp by (unfold prefix_bits; by rewrite length_nbits, Eps).
  assert (4 * subbands fr * channels fr = 4 * (subbands fr * channels fr)) as Emul by lia.
  unfold consumed. rewrite Emul. split; [done|]. split; [rewrite length_app, Elf, Elp; lia|].
  pose proof (f_equal length Ebody) as El. unfold body_bits in El. rewrite length_bits_of, !length_app, length_replicate, Elf, Elp in El.
  split; [lia|]. assert (0 ≤ subbands fr * channels fr) by nia. lia.
Qed.

Lemma packed_size : 4 + Z.of_nat (length body) = frame_size fr.
Proof.
  destruct packed_lengths as (_ & _ & E & Hc). destruct (round_up consumed (Z.of_nat pad) _ Hc ltac:(lia) E) as [_ ->].
  unfold frame_size. replace (consumed + 7) with (4 * 8 + (prefix_size fr + 4 * subbands fr * channels fr + audio_size fr + 7))
    by (subst consumed; lia). by rewrite Z.div_add_l by lia.
Qed.

Lemma packed_octets : Forall byte_ok (first_octets fr ++ [crc] ++ body).
Proof.
  destruct Hh as (A1 & A2 & A3 & A4 & A5 & A6 & A7 & A8). destruct (header_byte_fields _ _ _ _ _ A1 A2 A4 A6 A7) as [Hb1 _]. rewrite <- A8 in Hb1.
  unfold first_octets. cbn [app]. rewrite !Forall_cons. split_and!; try done; [apply Hp|]. rewrite Ecrc. apply crc8_range.
Qed.

Lemma packed_found : found whole 32 (prefix_bits fr1 ++ concat (map (nbits 4) (concat (scale_factor fr1)))) ∧
  found whole (32 + Z.to_nat (prefix_size fr + 4 * subbands fr * channels fr)) (audio_bits rows (sb_sample_f fr1)).
Proof.
  destruct packed_lengths as (_ & E & _).
  replace (Z.to_nat (prefix_size fr + 4 * subbands fr * channels fr)) with
    (length (prefix_bits fr1 ++ concat (map (nbits 4) (concat (scale_factor fr1))))) by lia.
  apply found_app. exists (replicate pad false ++ bits_of rest). unfold whole. rewrite !bits_of_app, Ebody. unfold body_bits.
  change (bits_of (first_octets fr)) with (nbits 8 SBC_SYNCWORD ++ nbits 8 b1 ++ nbits 8 (bitpool fr) ++ []).
  change (bits_of [crc]) with (nbits 8 crc ++ []). rewrite <- !app_assoc. cbn [app].
  set (tail := prefix_bits fr1 ++ _). set (h := nbits 8 SBC_SYNCWORD ++ nbits 8 b1 ++ nbits 8 (bitpool fr) ++ nbits 8 crc).
  replace (nbits 8 SBC_SYNCWORD ++ _) with (h ++ tail) by (unfold h; by rewrite <- !app_assoc).
  rewrite drop_app_length' by (unfold h; by rewrite !length_app, !length_nbits). unfold tail. by rewrite <- ?app_assoc.
Qed.

Definition same_modes (frx : sbc_frame) : Prop := header_fields frx = header_fields fr.

Lemma packed_first : ∃ l, whole = SBC_SYNCWORD :: b1 :: bitpool fr :: crc :: l.
Proof. unfold whole, first_octets. by eexists. Qed.

Lemma packed_crc : sbc_crc8 (hp ++ [stray]) (Z.of_nat n) = Ret crc.
Proof.
  rewrite sbc_crc8_bits, Nat2Z.id.
  - rewrite bits_of_app, take_app_le by (rewrite length_bits_of; lia). by rewrite Ecrc.
  - rewrite length_app, Hlp. cbn [length]. lia.
  - apply Forall_app. split; [done|]. by constructor.
Qed.

Lemma packed_unpack fr0 len :
  frame_size fr ≤ len →
  ∃ fr2, sbc_unpack_frame stray whole fr0 len = Ret (frame_size fr, fr2) ∧ header_fields fr2 = header_fields fr ∧
    scale_factor fr2 = scale_factor fr1 ∧ (is_joint fr = true → joint fr2 = joint fr1) ∧
    sb_sample fr2 = joined fr1 (map (decoded_block rows) (sb_sample_f fr1)).
Proof.
  intros Hlen. destruct packed_fields as (Hh1 & Hbits1 & Ej & Eps & Hps & Hsb & Hch).
  destruct packed_lengths as (Ea & Ef & Econ & Hcon). destruct (bitpool_guards fr Hp) as [G1 G2].
  pose proof packed_size as Esz. destruct packed_found as [Hfound Hfound2]. destruct packed_first as [l Ewhole].
  destruct (unpack_header_spec whole fr0 fr SBC_SYNCWORD Hh ltac:(apply Hp) ltac:(rewrite Ewhole; done)) as (frx & Ehead & Ehx).
  assert (Forall byte_ok whole) as Hw by (unfold whole; apply Forall_app; split; [apply packed_octets|done]).
  destruct (Hunpack whole frx Hw Ehx Hfound) as [Ejoint Efactors].
  set (frj := if is_joint fr then set_joint (joint fr1) frx else frx) in *.
  assert (header_fields frj = header_fields fr) as Ehj by (unfold frj; by destruct (is_joint fr)).
  destruct (header_fields_eq _ _ Ehx) as (_ & _ & _ & X4 & _ & _ & _ & X8 & X9).
  destruct (header_fields_eq _ _ Ehj) as (_ & _ & _ & J4 & J5 & _ & _ & J8 & _).
  destruct (header_fields_eq _ _ Eh) as (_ & _ & _ & _ & E5 & _ & _ & E8 & _).
  destruct (rows_of_concat fr1 Hh1 Hf1) as (Hrows & Hlc & _). rewrite E8, E5 in Hrows, Hlc.
  set (frs := set_scale_factor (scale_factor fr1) frj).
  assert (32 + prefix_size fr + 4 * subbands fr * channels fr + audio_size fr ≤ len * 8) as Hl8 by (fold consumed; lia).
  assert (0 ≤ audio_size fr) as Haudio by lia.
  pose proof (unpack_audio_spec fr1 frs bits whole len (32 + Z.to_nat (prefix_size fr + 4 * subbands fr * channels fr))%nat) as Haudio2.
  cbv zeta in Haudio2. fold rows in Haudio2. rewrite Ea in Haudio2.
  assert (0 ≤ 4 * subbands fr * channels fr) as Hsc by nia.
  replace (Z.of_nat (32 + Z.to_nat (prefix_size fr + 4 * subbands fr * channels fr))) with (32 + prefix_size fr + 4 * subbands fr * channels fr)
    in Haudio2 by lia. fold consumed in Haudio2.
  rewrite (proj1 (round_up consumed (Z.of_nat pad) _ Hcon ltac:(lia) Econ)), Esz in Haudio2.
  eexists. split.
  - unfold sbc_unpack_frame. rewrite (proj2 (Z.ltb_ge len 4)) by lia. rewrite Ewhole at 1. cbn [rd8]. rewrite outcome_bind_ret, Z.eqb_refl.
    cbn [negb]. rewrite Ehead, outcome_bind_ret. unfold separate, together in *. rewrite X4, X8, X9, G1, G2.
    rewrite Ewhole at 1. change (rd8 (adv 1 (SBC_SYNCWORD :: b1 :: bitpool fr :: crc :: l))) with (@Ret Z b1). rewrite outcome_bind_ret.
    assert ((mode fr =? SBC_MODE_JOINT_STEREO) && (len * 8 <? 32 + subbands fr) = false) as ->.
    { fold (is_joint fr). destruct (is_joint fr) eqn:Ejj; [|done]. cbn [andb]. apply Z.ltb_ge.
      assert (prefix_size fr = subbands fr) by (unfold prefix_size; by rewrite Ejj). lia. }
    rewrite Ejoint, outcome_bind_ret. cbv iota. rewrite J5, J8.
    rewrite (proj2 (Z.ltb_ge _ _)) by lia. rewrite Efactors, outcome_bind_ret. cbv iota.
    rewrite Hrows. fold frs. rewrite packed_crc, outcome_bind_ret. rewrite Ewhole at 1.
    change (rd8 (adv 3 (SBC_SYNCWORD :: b1 :: bitpool fr :: crc :: l))) with (@Ret Z crc). rewrite outcome_bind_ret, Z.eqb_refl. cbn [negb].
    apply Haudio2; [by rewrite Eh|done| |done|done|done|done|exact Hfound2|lia].
    rewrite Ej. unfold frs, frj. by intros ->.
  - split; [exact Ehj|]. split; [done|]. split; [|done]. unfold frs, frj. by intros ->.
Qed.
End packed.

(** What the decoder makes of a packed frame, whatever follows it. *)
Definition decodes (data : list Z) (fr1 : sbc_frame) : Prop :=
  ∃ bits, sbc_calculate_bits fr1 = Ret bits ∧
    ∀ stray fr0 rest len, byte_ok stray → Forall byte_ok rest → frame_size fr1 ≤ len →
      ∃ fr2 vs, sbc_unpack_frame stray (data ++ rest) fr0 len = Ret (frame_size fr1, fr2) ∧
        header_fields fr2 = header_fields fr1 ∧ scale_factor fr2 = scale_factor fr1 ∧ (is_joint fr1 = true → joint fr2 = joint fr1) ∧
        sb_sample fr2 = joined fr1 vs ∧ Forall2 (block_close (zip_with zip bits (scale_factor fr1))) (sb_sample_f fr1) vs.

Lemma frame_size_ext fr fr1 : header_fields fr1 = header_fields fr → frame_size fr1 = frame_size fr.
Proof.
  intros (_ & _ & E3 & E4 & E5 & _ & _ & E8 & E9)%header_fields_eq.
  unfold frame_size, prefix_size, is_joint, audio_size, separate. by rewrite E3, E4, E5, E8, E9.
Qed.

Lemma frame_roundtrip_lemma (stray : Z) (fr : sbc_frame) (Hok : frame_ok fr) (Hs : byte_ok stray) :
  ∃ data fr1, sbc_pack_frame stray fr = Ret (frame_size fr, data, fr1) ∧
    Z.of_nat (length data) = frame_size fr ∧ Forall byte_ok data ∧ header_fields fr1 = header_fields fr ∧
    (is_joint fr = false → fr1 = fr) ∧ decodes data fr1.
Proof.
  destruct (pack_spec stray fr Hok Hs) as (fr1 & hp & hu & n & bits & crc & body & pad & Epack & Eh & Hf1 & Ha1 & Hsame & Ebits & Hbits &
    Hsum & Hbody & Ebody & Hpad & Ecrc & Hlp & Hbp & Hn & En & Hunpack).
  pose proof Hok as (Hh & Hp & _ & _).
  assert (4 + Z.of_nat (length body) = frame_size fr) as Esz by (by eapply (packed_size fr fr1 hp hu n bits body pad)). rewrite Esz in Epack.
  exists (first_octets fr ++ [crc] ++ body), fr1. split; [exact Epack|]. split; [rewrite !length_app; cbn [length first_octets]; lia|].
  split; [by eapply packed_octets|]. split; [exact Eh|]. split; [exact Hsame|]. exists bits. split; [exact Ebits|].
  intros stray' fr0 rest len Hs' Hrest Hlen. rewrite (frame_size_ext _ _ Eh) in *.
  destruct (packed_unpack stray' fr fr1 hp hu n bits crc body rest pad) with (fr0 := fr0) (len := len)
    as (fr2 & E1 & E2 & E3 & E4 & E5); try done.
  exists fr2, (map (decoded_block (zip_with zip bits (scale_factor fr1))) (sb_sample_f fr1)). split_and!; try done.
  - by rewrite E2.
  - unfold is_joint in *. destruct (header_fields_eq _ _ Eh) as (_ & _ & _ & -> & _). done.
  - apply Forall2_fmap_r, Forall_Forall2_diag. eapply Forall_impl; [by eapply packed_blocks|]. cbn. apply decoded_block_close.
Qed.

(** C4: A frame survives the trip. For every header, bit pool and set of scale
    factors a frame may have and all samples that fit their scale factors, the
    encoder writes a frame of [frame_size] octets; from any buffer that starts
    with those octets, whatever follows them and whatever the decoder's frame
    held before, the decoder takes that many octets and returns no error; it
    finds the header, the scale factors and the joined subbands the encoder
    chose, and each subband sample within half a step of its quantiser (plus
    one, for the division); without joint stereo the encoder leaves its frame
    as it was. *)
Theorem frame_roundtrip (stray stray' : Z) (fr : sbc_frame) (Hok : frame_ok fr) (Hs : byte_ok stray) (Hs' : byte_ok stray') :
  ∃ data fr1 bits, sbc_pack_frame stray fr = Ret (frame_size fr, data, fr1) ∧
    Z.of_nat (length data) = frame_size fr ∧ Forall byte_ok data ∧ header_fields fr1 = header_fields fr ∧
    (is_joint fr = false → fr1 = fr) ∧ sbc_calculate_bits fr1 = Ret bits ∧
    let rows := zip_with zip bits (scale_factor fr1) in
    ∀ fr0 rest len, Forall byte_ok rest → frame_size fr ≤ len →
      ∃ fr2 vs, sbc_unpack_frame stray' (data ++ rest) fr0 len = Ret (frame_size fr, fr2) ∧
        header_fields fr2 = header_fields fr ∧ scale_factor fr2 = scale_factor fr1 ∧ (is_joint fr1 = true → joint fr2 = joint fr1) ∧
        sb_sample fr2 = joined fr1 vs ∧ Forall2 (block_close rows) (sb_sample_f fr1) vs.
Proof.
  destruct (frame_roundtrip_lemma stray fr Hok Hs) as (data & fr1 & H1 & H2 & H3 & H4 & H5 & bits & H6 & H7).
  exists data, fr1, bits. split_and!; try done. cbv zeta. intros fr0 rest len Hr Hl. rewrite (frame_size_ext _ _ H4), H4 in H7. by apply H7.
Qed.

(** A frame of four blocks in joint stereo, with samples that make the encoder
    join its first subband. *)
Definition example_block : list (list Z) := [[65000; -3; 70000; 0]; [65000; 9; -1; -32768]].
Definition example_frame : sbc_frame :=
  Frame 1 0 4 SBC_MODE_JOINT_STEREO 2 SBC_AM_SNR SBC_SB_4 4 19 0 0 0 [[0; 0; 1; 0]; [0; 0; 0; 0]]
    [example_block; example_block; example_block; example_block] [] [].

Lemma frame_roundtrip_witness :
  frame_size example_frame = 18 ∧
  ∃ data fr1 bits, sbc_pack_frame 7 example_frame = Ret (18, data, fr1) ∧ sbc_calculate_bits fr1 = Ret bits ∧
    ∀ fr0 rest, Forall byte_ok rest →
      ∃ fr2 vs, sbc_unpack_frame 9 (data ++ rest) fr0 200 = Ret (18, fr2) ∧ sb_sample fr2 = joined fr1 vs ∧
        Forall2 (block_close (zip_with zip bits (scale_factor fr1))) (sb_sample_f fr1) vs.
Proof.
  assert (frame_size example_frame = 18) as Es by (vm_compute; reflexivity). split; [exact Es|].
  assert (frame_ok example_frame) as Hok.
  { split; [repeat split; vm_compute; (reflexivity || congruence)|]. split; [repeat split; vm_compute; (reflexivity || congruence)|].
    split; [split; [reflexivity|]; repeat constructor; vm_compute; (reflexivity || congruence)|].
    split; [reflexivity|]. repeat constructor; vm_compute; (reflexivity || congruence). }
  destruct (frame_roundtrip 7 9 example_frame Hok) as (data & fr1 & bits & H1 & H2 & H3 & H4 & H5 & H6 & H7); [unfold byte_ok; lia..|].
  rewrite Es in *. exists data, fr1, bits. split; [exact H1|]. split; [exact H6|]. intros fr0 rest Hr.
  destruct (H7 fr0 rest 200 Hr ltac:(lia)) as (fr2 & vs & K1 & _ & _ & _ & K5 & K6). exists fr2, vs. by split_and!.
Defined.
