(* ===== verification/SbcJoint.v ===== *)
(** utils/sbc/sbc.c: joint stereo. Where the encoder joins a subband it replaces
    the samples of the two channels by half their sum and half their
    difference. Theorem: taking the joined subbands apart again, as the decoder
    does, gives back every sample, or the sample less one
    ([joint_stereo_recovers]). *)

From stdpp Require Import base list numbers sorting.
From Stdlib Require Import ZArith Lia.
From S2P Require Import Prelude Sbc SbcBits SbcStream SbcFrame.

Local Open Scope Z_scope.

(** * Joined samples

    [a] and [b] are samples of the two channels in subband [sb], [c] and [d]
    what the frame holds. *)

Definition joins_at (j : Z) (sb : nat) (a b c d : Z) : Prop :=
  Z.abs a ≤ 2 ^ 31 - 2 ∧ Z.abs b ≤ 2 ^ 31 - 2 ∧
  if Z.testbit j (Z.of_nat sb) then c = asr1 a + asr1 b ∧ d = asr1 a - asr1 b else c = a ∧ d = b.

Definition joins (j : Z) (orig block : list (list Z)) : Prop :=
  ∃ a b c d, orig = [a; b] ∧ block = [c; d] ∧ length a = length b ∧ length c = length a ∧ length d = length a ∧
    ∀ i, (i < length a)%nat → joins_at j i (nth i a 0) (nth i b 0) (nth i c 0) (nth i d 0).

(** A sample and what is left of it. *)
Definition recovered (s s' : Z) : Prop := 0 ≤ s - s' ≤ 1.

Lemma asr1_double v : 0 ≤ v - 2 * asr1 v ≤ 1.
Proof.
  unfold asr1. rewrite Z.shiftr_div_pow2 by lia. change (2 ^ 1) with 2.
  pose proof (Z.div_mod v 2 ltac:(lia)). pose proof (Z.mod_pos_bound v 2 ltac:(lia)). lia.
Qed.

Lemma unjoin_pair_recovers j sb a b c d : joins_at j sb a b c d →
  recovered a (unjoin_pair j sb (c, d)).1 ∧ recovered b (unjoin_pair j sb (c, d)).2.
Proof.
  intros (Ha & Hb & H). unfold unjoin_pair, recovered. cbn [fst snd]. destruct (Z.testbit j (Z.of_nat sb)); destruct H as [-> ->].
  - pose proof (asr1_double a). pose proof (asr1_double b). cbn [fst snd]. rewrite !to_i32_small by lia. lia.
  - cbn [fst snd]. lia.
Qed.

Lemma nth_imap_zip (f : nat → Z * Z → Z * Z) c d i : length c = length d → (i < length c)%nat →
  imap f (zip c d) !! i = Some (f i (nth i c 0, nth i d 0)).
Proof.
  intros Hl Hi. rewrite list_lookup_imap. destruct (lookup_lt_is_Some_2 c i Hi) as [x Hx]. destruct (lookup_lt_is_Some_2 d i ltac:(lia)) as [y Hy].
  rewrite (proj2 (lookup_zip_with_Some _ _ _ _ _)) by eauto. cbn. by rewrite (nth_lookup_Some _ _ _ _ Hx), (nth_lookup_Some _ _ _ _ Hy).
Qed.

Lemma unjoin_recovers j orig block : joins j orig block → Forall2 (Forall2 recovered) orig (unjoin j block).
Proof.
  intros (a & b & c & d & -> & -> & Hab & Hca & Hda & H). unfold unjoin. cbv zeta.
  assert (∀ i, (i < length a)%nat → imap (unjoin_pair j) (zip c d) !! i = Some (unjoin_pair j i (nth i c 0, nth i d 0))) as Hz
    by (intros i Hi; apply nth_imap_zip; lia).
  assert (length (imap (unjoin_pair j) (zip c d)) = length a) as Hlz by (rewrite length_imap, length_zip_with; lia).
  constructor; [|constructor; [|constructor]]; apply Forall2_same_length_lookup; (split; [rewrite length_map; lia|]);
    intros i x y Hx Hy; change (map ?f ?l) with (f <$> l) in Hy; apply list_lookup_fmap_Some in Hy as (p & -> & Hp);
    pose proof (lookup_lt_Some _ _ _ Hx); rewrite Hz in Hp by lia; injection Hp as <-;
    rewrite <- (nth_lookup_Some _ _ 0 _ Hx); apply (unjoin_pair_recovers j i _ _ _ _ (H i ltac:(lia))).
Qed.

(** * The encoder's loop *)

Lemma nth_insert_eq (l : list Z) i x : (i < length l)%nat → nth i (<[i:=x]> l) 0 = x.
Proof. intros. apply nth_lookup_Some. by apply list_lookup_insert_eq. Qed.
Lemma nth_insert_ne (l : list Z) i k x : i ≠ k → nth k (<[i:=x]> l) 0 = nth k l 0.
Proof. intros. rewrite !nth_lookup. by rewrite list_lookup_insert_ne. Qed.

Lemma joins_insert j sb a b c d : Z.testbit j (Z.of_nat sb) = false → 0 ≤ j → joins j [a; b] [c; d] →
  joins (Z.lor j (Z.shiftl 1 (Z.of_nat sb))) [a; b]
    [<[sb := asr1 (nth sb c 0) + asr1 (nth sb d 0)]> c; <[sb := asr1 (nth sb c 0) - asr1 (nth sb d 0)]> d].
Proof.
  intros Hbit Hj (a' & b' & c' & d' & Ea & Eb & Hab & Hca & Hda & H). simplify_eq. eexists _, _, _, _. split; [done|]. split; [done|].
  rewrite !length_insert. split_and!; try done. intros i Hi. destruct (H i Hi) as (H1 & H2 & H3). split; [done|]. split; [done|].
  rewrite Z.lor_spec, Z.shiftl_spec by lia. destruct (decide (sb = i)) as [->|Hne].
  - rewrite Hbit in *. destruct H3 as [E1 E2]. rewrite Z.sub_diag. cbn [orb Z.testbit]. rewrite !nth_insert_eq by lia. by rewrite E1, E2.
  - rewrite !nth_insert_ne by done. assert (Z.testbit 1 (Z.of_nat i - Z.of_nat sb) = false) as ->; [|by rewrite orb_false_r].
    destruct (Z.of_nat i - Z.of_nat sb) eqn:E; [lia|by destruct p|done].
Qed.

Lemma joins_bounds j orig block : joins j orig block → ∃ c d, block = [c; d] ∧
  ∀ sb, Z.testbit j (Z.of_nat sb) = false → Z.abs (nth sb c 0) ≤ 2 ^ 31 - 2 ∧ Z.abs (nth sb d 0) ≤ 2 ^ 31 - 2.
Proof.
  intros (a & b & c & d & -> & -> & Hab & Hca & Hda & H). exists c, d. split; [done|]. intros sb Hsb.
  destruct (decide (sb < length a)%nat) as [Hlt|Hge]; [|rewrite !nth_overflow by lia; lia].
  destruct (H sb Hlt) as (H1 & H2 & H3). rewrite Hsb in H3. destruct H3 as [-> ->]. done.
Qed.

Lemma join_subband_joins orig sb fr fr' :
  Forall2 (joins (joint fr)) orig (sb_sample_f fr) → Z.testbit (joint fr) (Z.of_nat sb) = false → 0 ≤ joint fr →
  join_subband sb fr = Ret fr' →
  Forall2 (joins (joint fr')) orig (sb_sample_f fr') ∧ 0 ≤ joint fr' ∧
    ∀ i, i ≠ sb → Z.testbit (joint fr') (Z.of_nat i) = Z.testbit (joint fr) (Z.of_nat i).
Proof.
  intros HF Hbit Hj E. unfold join_subband in E. apply outcome_bind_Ret_inv in E as (j0 & _ & E). apply outcome_bind_Ret_inv in E as (j1 & _ & E).
  injection E as <-. destruct (_ <? _); [|by split_and!].
  cbn [joint sb_sample_f set_joint set_scale_factor set_sb_sample_f]. split; [|split].
  - clear j0 j1. unfold set_column, column. generalize dependent (joint fr). intros j HF Hbit Hj.
    induction HF as [|o block orig samples Hb _ IH]; [constructor|]. cbn [map zip_with]. constructor; [|done].
    destruct (joins_bounds _ _ _ Hb) as (c & d & -> & Hbound). destruct (Hbound sb Hbit) as [B0 B1].
    destruct Hb as (a & b & c' & d' & -> & Eb & Hr). simplify_eq. cbn [nth alter list_alter].
    pose proof (asr1_bounds _ B0). pose proof (asr1_bounds _ B1). rewrite !to_i32_small by lia.
    apply joins_insert; try done. by exists a, b, c', d'.
  - apply Z.lor_nonneg. split; [done|]. apply Z.shiftl_nonneg. lia.
  - intros i Hi. rewrite Z.lor_spec, Z.shiftl_spec by lia. assert (Z.testbit 1 (Z.of_nat i - Z.of_nat sb) = false) as ->; [|by rewrite orb_false_r].
    destruct (Z.of_nat i - Z.of_nat sb) eqn:E; [lia|by destruct p|done].
Qed.

Lemma join_subbands_joins orig sbs fr fr' :
  NoDup sbs → Forall2 (joins (joint fr)) orig (sb_sample_f fr) → (∀ sb, sb ∈ sbs → Z.testbit (joint fr) (Z.of_nat sb) = false) → 0 ≤ joint fr →
  join_subbands sbs fr = Ret fr' → Forall2 (joins (joint fr')) orig (sb_sample_f fr').
Proof.
  intros Hnd. revert fr. induction Hnd as [|sb sbs Hsb _ IH]; intros fr HF Hbits Hj E; cbn [join_subbands] in E; [by injection E as <-|].
  apply outcome_bind_Ret_inv in E as (fr1 & E1 & E). destruct (join_subband_joins orig sb fr fr1) as (HF1 & Hj1 & Hb1); try done.
  { apply Hbits, list_elem_of_here. }
  apply (IH fr1); try done. intros i Hi. rewrite Hb1; [apply Hbits; by apply list_elem_of_further|]. by intros ->.
Qed.

Lemma joins_none samples r0 r1 : Forall (block_fits [r0; r1]) samples → length r0 = length r1 → Forall2 (joins 0) samples samples.
Proof.
  intros H Hl. apply Forall_Forall2_diag. eapply Forall_impl; [exact H|]. cbn. intros block Hb.
  destruct (block_fits_two _ _ _ Hb) as (b0 & b1 & -> & F0 & F1). pose proof (Forall2_length _ _ _ F0). pose proof (Forall2_length _ _ _ F1).
  exists b0, b1, b0, b1. split_and!; try done; [lia|lia|]. intros i Hi. split; [apply (nth_fits _ _ i F0)|]. split; [apply (nth_fits _ _ i F1)|].
  by rewrite Z.bits_0.
Qed.

Definition samples_recovered : list (list (list Z)) → list (list (list Z)) → Prop := Forall2 (Forall2 (Forall2 recovered)).

Lemma samples_recovered_refl samples : samples_recovered samples samples.
Proof.
  unfold samples_recovered. repeat (apply Forall_Forall2_diag, Forall_forall; intros). unfold recovered. lia.
Qed.

Lemma pack_frame_prefix stray fr n data fr1 : bitpool_ok fr → sbc_pack_frame stray fr = Ret (n, data, fr1) →
  ∃ hdr r, pack_prefix fr hdr = Ret r ∧ r.1.1.1 = fr1.
Proof.
  intros Hp E. unfold sbc_pack_frame in E. cbv zeta in E. rewrite !Z.shiftl_mul_pow2 in E by lia. change (2 ^ 4) with 16 in E. change (2 ^ 5) with 32 in E.
  rewrite !(Z.mul_comm (subbands fr)) in E. destruct (bitpool_guards fr Hp) as [G1 G2]. rewrite G1, G2 in E.
  apply outcome_bind_Ret_inv in E as ([[[fr' w] hdr] pos] & Epre & E). eexists _, _. split; [exact Epre|]. cbn [fst].
  destruct (put_factors _ w hdr pos) as [[w' hdr'] pos']. apply outcome_bind_Ret_inv in E as (crc & _ & E).
  apply outcome_bind_Ret_inv in E as (bits & _ & E). by injection E.
Qed.

Lemma pack_frame_recovers stray fr n data fr1 :
  frame_ok fr → sbc_pack_frame stray fr = Ret (n, data, fr1) → samples_recovered (sb_sample_f fr) (joined fr1 (sb_sample_f fr1)).
Proof.
  intros (Hh & Hp & Hf & [_ Ha]) E. destruct (pack_frame_prefix _ _ _ _ _ Hp E) as (hdr & [[[fr' w] hdr'] pos] & Epre & Efr).
  cbn [fst] in Efr. subst fr'. unfold pack_prefix in Epre. unfold joined, is_joint. destruct (Z.eqb_spec (mode fr) SBC_MODE_JOINT_STEREO) as [Em|Hne].
  - apply outcome_bind_Ret_inv in Epre as (fr' & Ej & Epre). injection Epre as -> _ _ _.
    assert (channels fr = 2) as Hc by (destruct Hh as (_ & _ & _ & _ & -> & _); by rewrite Em).
    destruct (two_rows fr Hf Hc) as (r0 & r1 & Er & L0 & L1 & _). rewrite Er in Ha.
    assert (mode fr1 = mode fr) as ->.
    { clear -Ej. revert Ej. generalize (seq 0 (Z.to_nat (subbands fr - 1))) as sbs. change (mode fr) with (mode (set_joint 0 fr)).
      generalize (set_joint 0 fr) as f. intros f sbs. revert f. induction sbs as [|sb sbs IH]; intros f E; cbn [join_subbands] in E; [by injection E as ->|].
      apply outcome_bind_Ret_inv in E as (f1 & E1 & E). rewrite (IH _ E). unfold join_subband in E1. apply outcome_bind_Ret_inv in E1 as (j0 & _ & E1).
      apply outcome_bind_Ret_inv in E1 as (j1 & _ & E1). injection E1 as <-. by destruct (_ <? _). }
    rewrite Em, Z.eqb_refl. pose proof (joins_none _ _ _ Ha ltac:(lia)) as H0.
    pose proof (join_subbands_joins _ (seq 0 (Z.to_nat (subbands fr - 1))) (set_joint 0 fr) fr1 (NoDup_seq _ _) H0
      ltac:(intros; apply Z.bits_0) ltac:(done) Ej) as HJ.
    apply Forall2_fmap_r. eapply Forall2_impl; [exact HJ|]. intros o block Hb. by apply unjoin_recovers.
  - injection Epre as <- _ _ _. rewrite (proj2 (Z.eqb_neq _ _)) by done. apply samples_recovered_refl.
Qed.

(** Joint stereo keeps the stereo image. For every frame the encoder may be
    given, packing it leaves subband samples from which the decoder's step
    that takes joined subbands apart - sum and difference of the two channels -
    yields the samples of the frame, each of them exact or one too small,
    whatever set of subbands the encoder decided to join. *)
Theorem joint_stereo_recovers (stray : Z) (fr : sbc_frame) (Hok : frame_ok fr) (Hs : byte_ok stray) :
  ∃ data fr1, sbc_pack_frame stray fr = Ret (frame_size fr, data, fr1) ∧
    samples_recovered (sb_sample_f fr) (joined fr1 (sb_sample_f fr1)).
Proof.
  destruct (frame_roundtrip_lemma stray fr Hok Hs) as (data & fr1 & E & _). exists data, fr1. split; [exact E|].
  by eapply pack_frame_recovers.
Qed.

Lemma joint_stereo_recovers_witness :
  ∃ data fr1, sbc_pack_frame 0 example_frame = Ret (18, data, fr1) ∧ samples_recovered (sb_sample_f example_frame) (joined fr1 (sb_sample_f fr1)).
Proof.
  apply (joint_stereo_recovers 0 example_frame); [|unfold byte_ok; lia].
  split; [repeat split; vm_compute; (reflexivity || congruence)|]. split; [repeat split; vm_compute; (reflexivity || congruence)|].
  split; [split; [reflexivity|]; repeat constructor; vm_compute; (reflexivity || congruence)|].
  split; [reflexivity|]. repeat constructor; vm_compute; (reflexivity || congruence).
Defined.
