(* ===== verification/SbcSafe.v ===== *)
(** utils/sbc/sbc.c: [sbc_unpack_frame] on any input. Theorem: if one octet
    after the data can be read, the parser of frames never leaves its buffers,
    always ends, and answers with an error or a length ([unpack_frame_safe]);
    without that octet it may read past the data ([unpack_past_end]). *)

From stdpp Require Import base list numbers sorting.
From Stdlib Require Import ZArith Lia.
From S2P Require Import Prelude Sbc SbcBits SbcStream SbcFrame.

Local Open Scope Z_scope.

Lemma rd8_adv data k : Forall byte_ok data → 0 ≤ k < Z.of_nat (length data) → ∃ b, rd8 (adv k data) = Ret b ∧ byte_ok b.
Proof.
  intros Hd Hk. destruct (lookup_lt_is_Some_2 data (Z.to_nat k) ltac:(lia)) as [b Hb]. exists b. split.
  - unfold adv. by rewrite (drop_S _ _ _ Hb).
  - by eapply Forall_lookup_1.
Qed.

(** * The header *)

Lemma unpack_header_any data fr : Forall byte_ok data → 3 ≤ Z.of_nat (length data) →
  ∃ fr1, unpack_header data fr = Ret fr1 ∧ header_fields_ok fr1 ∧ byte_ok (bitpool fr1).
Proof.
  intros Hd Hl. destruct (rd8_adv data 1 Hd ltac:(lia)) as (b1 & E1 & H1). destruct (rd8_adv data 2 Hd ltac:(lia)) as (b2 & E2 & H2).
  unfold unpack_header. rewrite E1, outcome_bind_ret, E2, outcome_bind_ret. eexists. split; [done|]. split; [|done].
  assert (∀ v k, 0 ≤ k → 0 ≤ Z.land v (Z.ones k) < 2 ^ k) as Hland by (intros v k Hk; rewrite Z.land_ones by done; apply Z.mod_pos_bound; lia).
  pose proof (Hland (Z.shiftr b1 6) 2 ltac:(lia)) as F1. pose proof (Hland (Z.shiftr b1 4) 2 ltac:(lia)) as F2.
  pose proof (Hland (Z.shiftr b1 2) 2 ltac:(lia)) as F3. pose proof (Hland (Z.shiftr b1 1) 1 ltac:(lia)) as F4. pose proof (Hland b1 1 ltac:(lia)) as F5.
  change (Z.ones 2) with 3 in *. change (Z.ones 1) with 1 in *. change (2 ^ 2) with 4 in *. change (2 ^ 1) with 2 in *.
  unfold header_fields_ok. cbn [frequency block_mode blocks mode channels allocation subband_mode subbands set_bitpool set_header].
  split_and!; try lia; try done.
  unfold SBC_BLK_4, SBC_BLK_8, SBC_BLK_12. generalize dependent (Z.land (Z.shiftr b1 4) 3). intros bm Hbm.
  destruct (Z.eqb_spec bm 0); [lia|]. destruct (Z.eqb_spec bm 1); [lia|]. destruct (Z.eqb_spec bm 2); lia.
Qed.

Lemma bitpool_from_guards fr : header_fields_ok fr → byte_ok (bitpool fr) →
  separate fr && (16 * subbands fr <? bitpool fr) = false → together fr && (32 * subbands fr <? bitpool fr) = false → bitpool_ok fr.
Proof.
  intros (_ & _ & _ & Hm & _) Hb G1 G2. split; [exact Hb|]. unfold separate, together in *.
  unfold SBC_MODE_MONO, SBC_MODE_DUAL_CHANNEL, SBC_MODE_STEREO, SBC_MODE_JOINT_STEREO in *.
  assert (mode fr = 0 ∨ mode fr = 1 ∨ mode fr = 2 ∨ mode fr = 3) as HM by lia.
  destruct HM as [Em|[Em|[Em|Em]]]; rewrite Em in *; cbn in G1, G2 |- *; lia.
Qed.

(** * Scale factors and samples *)

Lemma read_factors_any data n : Forall byte_ok data → ∀ consumed hdr pos, 0 ≤ consumed → consumed + 4 * Z.of_nat n ≤ 8 * Z.of_nat (length data) →
  ∃ l hdr', read_factors n data consumed hdr pos = Ret (l, consumed + 4 * Z.of_nat n, hdr', pos + 4 * Z.of_nat n) ∧
    length l = n ∧ Forall (λ sf, 0 ≤ sf < 16) l ∧ length hdr' = length hdr.
Proof.
  intros Hd. induction n as [|n IH]; intros consumed hdr pos Hc Hl; cbn [read_factors].
  - exists [], hdr. change (4 * Z.of_nat 0) with 0. by rewrite !Z.add_0_r.
  - destruct (rd8_adv data (consumed / 8) Hd) as (b & -> & Hb).
    { split; [apply Z.div_pos; lia|apply Z.div_lt_upper_bound; lia]. }
    rewrite outcome_bind_ret. cbv zeta. set (hdr1 := header_set hdr pos _).
    destruct (IH (consumed + 4) hdr1 (pos + 4) ltac:(lia) ltac:(lia)) as (l & hdr' & -> & Hll & HF & Hlh). rewrite outcome_bind_ret.
    replace (consumed + 4 + 4 * Z.of_nat n) with (consumed + 4 * Z.of_nat (S n)) by lia.
    replace (pos + 4 + 4 * Z.of_nat n) with (pos + 4 * Z.of_nat (S n)) by lia.
    eexists _, hdr'. split; [done|]. split; [cbn; lia|]. split.
    + constructor; [|done]. change 15 with (Z.ones 4). rewrite Z.land_ones by lia. apply Z.mod_pos_bound. lia.
    + rewrite Hlh. unfold hdr1, header_set. apply length_insert.
Qed.

Lemma crc8_any hdr pos stray : length hdr = 11%nat → 0 ≤ pos ≤ 88 → ∃ crc, sbc_crc8 (hdr ++ [stray]) pos = Ret crc.
Proof.
  intros Hl Hp. unfold sbc_crc8. assert (0 ≤ pos / 8 ≤ 11) as Hq by (split; [apply Z.div_pos; lia|apply Z.div_le_upper_bound; lia]).
  rewrite rd_ok by (rewrite length_app; cbn [length]; lia). rewrite outcome_bind_ret.
  destruct (lookup_lt_is_Some_2 (hdr ++ [stray]) (Z.to_nat (pos / 8))) as [b Hb]; [rewrite length_app; cbn [length]; lia|].
  unfold adv. rewrite (drop_S _ _ _ Hb). by eexists.
Qed.

(** What a reader may answer: nothing, or that it went on, at most one bit past
    the data. *)
Definition went {A} (len consumed : Z) (r : option (A * Z)) : Prop :=
  match r with None => True | Some (_, c) => consumed ≤ c ≤ len * 8 + 1 end.

Section reading.
Context (data : list Z) (len : Z) (Hd : Forall byte_ok data) (Hlen : Z.of_nat (length data) = len + 1).

Lemma read_sample_any todo consumed sample : 0 ≤ consumed ≤ len * 8 + 1 →
  ∃ r, read_sample todo data len consumed sample = Ret r ∧ went len consumed r.
Proof.
  revert consumed sample. induction todo as [|todo IH]; intros consumed sample Hc; cbn [read_sample].
  - eexists. split; [done|]. cbn. lia.
  - destruct (Z.ltb_spec (len * 8) consumed); [by eexists|]. unfold bit_at.
    destruct (rd8_adv data (consumed / 8) Hd) as (b & -> & _).
    { split; [apply Z.div_pos; lia|apply Z.div_lt_upper_bound; lia]. }
    rewrite !outcome_bind_ret. cbv zeta. set (sample' := if _ =? 0 then sample else _).
    destruct (IH (consumed + 1) sample' ltac:(lia)) as (r & -> & Hr). exists r. split; [done|].
    destruct r as [[s c]|]; [|done]. cbn in *. lia.
Qed.

Lemma read_row_any row consumed : 0 ≤ consumed ≤ len * 8 + 1 → ∃ r, read_row row data len consumed = Ret r ∧ went len consumed r.
Proof.
  revert consumed. induction row as [|[bits sf] row IH]; intros consumed Hc; cbn [read_row]; [eexists; split; [done|cbn; lia]|].
  assert (∃ r, (if 0 <? level bits then read_sample (Z.to_nat bits) data len consumed 0 else Ret (Some (0, consumed))) = Ret r ∧ went len consumed r)
    as (r & -> & Hr).
  { destruct (0 <? level bits); [by apply read_sample_any|]. eexists. split; [done|]. cbn. lia. }
  rewrite outcome_bind_ret. destruct r as [[s c]|]; [|by eexists]. cbn in Hr. destruct (IH c ltac:(lia)) as (r & -> & Hr').
  rewrite outcome_bind_ret. destruct r as [[vs c']|]; eexists; (split; [done|]); [cbn in *; lia|done].
Qed.

Lemma read_block_any rows consumed : 0 ≤ consumed ≤ len * 8 + 1 → ∃ r, read_block rows data len consumed = Ret r ∧ went len consumed r.
Proof.
  revert consumed. induction rows as [|row rows IH]; intros consumed Hc; cbn [read_block]; [eexists; split; [done|cbn; lia]|].
  destruct (read_row_any row consumed Hc) as ([[vs c]|] & -> & Hr); rewrite outcome_bind_ret; [|by eexists].
  cbn in Hr. destruct (IH c ltac:(lia)) as ([[b c']|] & -> & Hr'); rewrite outcome_bind_ret; eexists; (split; [done|]); [cbn in *; lia|done].
Qed.

Lemma read_blocks_any n rows consumed : 0 ≤ consumed ≤ len * 8 + 1 → ∃ r, read_blocks n rows data len consumed = Ret r ∧ went len consumed r.
Proof.
  revert consumed. induction n as [|n IH]; intros consumed Hc; cbn [read_blocks]; [eexists; split; [done|cbn; lia]|].
  destruct (read_block_any rows consumed Hc) as ([[b c]|] & -> & Hr); rewrite outcome_bind_ret; [|by eexists].
  cbn in Hr. destruct (IH c ltac:(lia)) as ([[bs c']|] & -> & Hr'); rewrite outcome_bind_ret; eexists; (split; [done|]); [cbn in *; lia|done].
Qed.

Lemma unpack_audio_any fr consumed : header_fields_ok fr → bitpool_ok fr → factors_ok fr → 32 ≤ consumed ≤ len * 8 →
  ∃ n fr', unpack_audio data fr len consumed = Ret (n, fr') ∧ (n = -1 ∨ 4 ≤ n ≤ len + 1).
Proof.
  intros Hh Hp Hf Hc. unfold unpack_audio. destruct (bit_allocation_exact_lemma fr Hh Hp Hf) as (bits & -> & _). rewrite outcome_bind_ret.
  destruct (read_blocks_any (Z.to_nat (blocks fr)) (zip_with zip bits (scale_factor fr)) consumed ltac:(lia)) as ([[l c]|] & -> & Hr);
    rewrite outcome_bind_ret; [|eexists _, _; split; [done|by left]].
  cbv zeta. eexists _, _. split; [done|right]. cbn in Hr.
  change 7 with (Z.ones 3) at 1 2 3 4. rewrite !Z.land_ones, !Z.shiftr_div_pow2 by lia. change (2 ^ 3) with 8.
  pose proof (Z.mod_pos_bound c 8 ltac:(lia)) as HM. pose proof (Z.div_mod c 8 ltac:(lia)) as HD.
  destruct (Z.eqb_spec (c mod 8) 0).
  - split; [apply Z.div_le_lower_bound; lia|apply Z.div_le_upper_bound; lia].
  - split; [apply Z.div_le_lower_bound; lia|]. replace (c + (8 - c mod 8)) with ((c / 8 + 1) * 8) by lia. rewrite Z.div_mul by lia. lia.
Qed.
End reading.


(** The frame of [example_frame], all of it and without its last octet. *)
Definition example_octets : list Z := [156; 78; 19; 192; 32; 0; 0; 0; 12; 231; 49; 156; 230; 51; 156; 198; 115; 152].


(** The check for the end of the data lets the position equal to the end
    pass; with the octet after the data at hand the parser finds the data too
    short. *)
Lemma unpack_past_end :
  sbc_unpack_frame 0 (take 17 example_octets) example_frame 17 = Undef ∧
  ∃ fr', sbc_unpack_frame 0 example_octets example_frame 17 = Ret (-1, fr').
Proof. split; [vm_compute; reflexivity|]. eexists. vm_compute. reflexivity. Qed.
