(* ===== verification/SbcTables.v ===== *)
(** utils/sbc/sbc_tables.h: the constants of the two filter banks of the SBC
    codec. The decimal fractions of the source are written as integers: the
    prototype filter in units of 10^-12, cosines and scales in units of 10^-10;
    [F_PROTO] and [F_COS] convert them to 16-bit fixed point, rounding to
    nearest as the macros do. *)

From Stdlib Require Import ZArith List.

Import ListNotations.
Local Open Scope Z_scope.

(** * The synthesis filter bank, in the decoder *)

Definition SCALE_SPROTO4_TBL : Z := 12.
Definition SCALE_SPROTO8_TBL : Z := 14.
Definition SCALE_NPROTO4_TBL : Z := 11.
Definition SCALE_NPROTO8_TBL : Z := 11.
Definition SCALE4_STAGED1_BITS : Z := 15.
Definition SCALE8_STAGED1_BITS : Z := 15.

(** The arithmetic shift of a 32-bit pattern. *)
Definition ASR (val bits : Z) : Z := Z.shiftr ((val + 2 ^ 31) mod 2 ^ 32 - 2 ^ 31) bits.

Definition SS4 (val : Z) : Z := ASR val SCALE_SPROTO4_TBL.
Definition SS8 (val : Z) : Z := ASR val SCALE_SPROTO8_TBL.
Definition SN4 (val : Z) : Z := ASR val SCALE_NPROTO4_TBL.
Definition SN8 (val : Z) : Z := ASR val SCALE_NPROTO8_TBL.

Definition sbc_proto_4_40m0 : list Z :=
  [SS4 0x00000000; SS4 0xffa6982f; SS4 0xfba93848; SS4 0x0456c7b8; SS4 0x005967d1;
   SS4 0xfffb9ac7; SS4 0xff589157; SS4 0xf9c2a8d8; SS4 0x027c1434; SS4 0x0019118b;
   SS4 0xfff3c74c; SS4 0xff137330; SS4 0xf81b8d70; SS4 0x00ec1b8b; SS4 0xfff0b71a;
   SS4 0xffe99b00; SS4 0xfef84470; SS4 0xf6fb4370; SS4 0xffcdc351; SS4 0xffe01dc7].

Definition sbc_proto_4_40m1 : list Z :=
  [SS4 0xffe090ce; SS4 0xff2c0475; SS4 0xf694f800; SS4 0xff2c0475; SS4 0xffe090ce;
   SS4 0xffe01dc7; SS4 0xffcdc351; SS4 0xf6fb4370; SS4 0xfef84470; SS4 0xffe99b00;
   SS4 0xfff0b71a; SS4 0x00ec1b8b; SS4 0xf81b8d70; SS4 0xff137330; SS4 0xfff3c74c;
   SS4 0x0019118b; SS4 0x027c1434; SS4 0xf9c2a8d8; SS4 0xff589157; SS4 0xfffb9ac7].

Definition sbc_proto_8_80m0 : list Z :=
  [SS8 0x00000000; SS8 0xfe8d1970; SS8 0xee979f00; SS8 0x11686100; SS8 0x0172e690;
   SS8 0xfff5bd1a; SS8 0xfdf1c8d4; SS8 0xeac182c0; SS8 0x0d9daee0; SS8 0x00e530da;
   SS8 0xffe9811d; SS8 0xfd52986c; SS8 0xe7054ca0; SS8 0x0a00d410; SS8 0x006c1de4;
   SS8 0xffdba705; SS8 0xfcbc98e8; SS8 0xe3889d20; SS8 0x06af2308; SS8 0x000bb7db;
   SS8 0xffca00ed; SS8 0xfc3fbb68; SS8 0xe071bc00; SS8 0x03bf7948; SS8 0xffc4e05c;
   SS8 0xffb54b3b; SS8 0xfbedadc0; SS8 0xdde26200; SS8 0x0142291c; SS8 0xff960e94;
   SS8 0xff9f3e17; SS8 0xfbd8f358; SS8 0xdbf79400; SS8 0xff405e01; SS8 0xff7d4914;
   SS8 0xff8b1a31; SS8 0xfc1417b8; SS8 0xdac7bb40; SS8 0xfdbb828c; SS8 0xff762170].

Definition sbc_proto_8_80m1 : list Z :=
  [SS8 0xff7c272c; SS8 0xfcb02620; SS8 0xda612700; SS8 0xfcb02620; SS8 0xff7c272c;
   SS8 0xff762170; SS8 0xfdbb828c; SS8 0xdac7bb40; SS8 0xfc1417b8; SS8 0xff8b1a31;
   SS8 0xff7d4914; SS8 0xff405e01; SS8 0xdbf79400; SS8 0xfbd8f358; SS8 0xff9f3e17;
   SS8 0xff960e94; SS8 0x0142291c; SS8 0xdde26200; SS8 0xfbedadc0; SS8 0xffb54b3b;
   SS8 0xffc4e05c; SS8 0x03bf7948; SS8 0xe071bc00; SS8 0xfc3fbb68; SS8 0xffca00ed;
   SS8 0x000bb7db; SS8 0x06af2308; SS8 0xe3889d20; SS8 0xfcbc98e8; SS8 0xffdba705;
   SS8 0x006c1de4; SS8 0x0a00d410; SS8 0xe7054ca0; SS8 0xfd52986c; SS8 0xffe9811d;
   SS8 0x00e530da; SS8 0x0d9daee0; SS8 0xeac182c0; SS8 0xfdf1c8d4; SS8 0xfff5bd1a].

Definition synmatrix4 : list (list Z) :=
  [[SN4 0x05a82798; SN4 0xfa57d868; SN4 0xfa57d868; SN4 0x05a82798];
   [SN4 0x030fbc54; SN4 0xf89be510; SN4 0x07641af0; SN4 0xfcf043ac];
   [SN4 0x00000000; SN4 0x00000000; SN4 0x00000000; SN4 0x00000000];
   [SN4 0xfcf043ac; SN4 0x07641af0; SN4 0xf89be510; SN4 0x030fbc54];
   [SN4 0xfa57d868; SN4 0x05a82798; SN4 0x05a82798; SN4 0xfa57d868];
   [SN4 0xf89be510; SN4 0xfcf043ac; SN4 0x030fbc54; SN4 0x07641af0];
   [SN4 0xf8000000; SN4 0xf8000000; SN4 0xf8000000; SN4 0xf8000000];
   [SN4 0xf89be510; SN4 0xfcf043ac; SN4 0x030fbc54; SN4 0x07641af0]].

Definition synmatrix8 : list (list Z) :=
  [[SN8 0x05a82798; SN8 0xfa57d868; SN8 0xfa57d868; SN8 0x05a82798; SN8 0x05a82798; SN8 0xfa57d868; SN8 0xfa57d868; SN8 0x05a82798];
   [SN8 0x0471ced0; SN8 0xf8275a10; SN8 0x018f8b84; SN8 0x06a6d988; SN8 0xf9592678; SN8 0xfe70747c; SN8 0x07d8a5f0; SN8 0xfb8e3130];
   [SN8 0x030fbc54; SN8 0xf89be510; SN8 0x07641af0; SN8 0xfcf043ac; SN8 0xfcf043ac; SN8 0x07641af0; SN8 0xf89be510; SN8 0x030fbc54];
   [SN8 0x018f8b84; SN8 0xfb8e3130; SN8 0x06a6d988; SN8 0xf8275a10; SN8 0x07d8a5f0; SN8 0xf9592678; SN8 0x0471ced0; SN8 0xfe70747c];
   [SN8 0x00000000; SN8 0x00000000; SN8 0x00000000; SN8 0x00000000; SN8 0x00000000; SN8 0x00000000; SN8 0x00000000; SN8 0x00000000];
   [SN8 0xfe70747c; SN8 0x0471ced0; SN8 0xf9592678; SN8 0x07d8a5f0; SN8 0xf8275a10; SN8 0x06a6d988; SN8 0xfb8e3130; SN8 0x018f8b84];
   [SN8 0xfcf043ac; SN8 0x07641af0; SN8 0xf89be510; SN8 0x030fbc54; SN8 0x030fbc54; SN8 0xf89be510; SN8 0x07641af0; SN8 0xfcf043ac];
   [SN8 0xfb8e3130; SN8 0x07d8a5f0; SN8 0xfe70747c; SN8 0xf9592678; SN8 0x06a6d988; SN8 0x018f8b84; SN8 0xf8275a10; SN8 0x0471ced0];
   [SN8 0xfa57d868; SN8 0x05a82798; SN8 0x05a82798; SN8 0xfa57d868; SN8 0xfa57d868; SN8 0x05a82798; SN8 0x05a82798; SN8 0xfa57d868];
   [SN8 0xf9592678; SN8 0x018f8b84; SN8 0x07d8a5f0; SN8 0x0471ced0; SN8 0xfb8e3130; SN8 0xf8275a10; SN8 0xfe70747c; SN8 0x06a6d988];
   [SN8 0xf89be510; SN8 0xfcf043ac; SN8 0x030fbc54; SN8 0x07641af0; SN8 0x07641af0; SN8 0x030fbc54; SN8 0xfcf043ac; SN8 0xf89be510];
   [SN8 0xf8275a10; SN8 0xf9592678; SN8 0xfb8e3130; SN8 0xfe70747c; SN8 0x018f8b84; SN8 0x0471ced0; SN8 0x06a6d988; SN8 0x07d8a5f0];
   [SN8 0xf8000000; SN8 0xf8000000; SN8 0xf8000000; SN8 0xf8000000; SN8 0xf8000000; SN8 0xf8000000; SN8 0xf8000000; SN8 0xf8000000];
   [SN8 0xf8275a10; SN8 0xf9592678; SN8 0xfb8e3130; SN8 0xfe70747c; SN8 0x018f8b84; SN8 0x0471ced0; SN8 0x06a6d988; SN8 0x07d8a5f0];
   [SN8 0xf89be510; SN8 0xfcf043ac; SN8 0x030fbc54; SN8 0x07641af0; SN8 0x07641af0; SN8 0x030fbc54; SN8 0xfcf043ac; SN8 0xf89be510];
   [SN8 0xf9592678; SN8 0x018f8b84; SN8 0x07d8a5f0; SN8 0x0471ced0; SN8 0xfb8e3130; SN8 0xf8275a10; SN8 0xfe70747c; SN8 0x06a6d988]].

(** * The analysis filter bank, in the encoder

    The tables of the A2DP specification in its own order, as decimals: they
    are the reference for the tables the code uses. *)

Definition SBC_PROTO_FIXED_SCALE : Z := 16.
Definition SBC_COS_TABLE_FIXED_SCALE : Z := 15.

Definition F_PROTO (x c : Z) : Z := (x * c * 2 ^ 17 + 10 ^ 22) / (2 * 10 ^ 22).
Definition F_COS (x c : Z) : Z := (x * 2 ^ 16 + c) / (2 * c).

Definition sbc_proto_fixed4 : list Z :=
  [0; 536548976; -1491883570; 2733709040; 3837201930; 3892051490; 1865816910; 3060122860;
   10913762000; 20438508700; -28875739200; 32193929000; 25876781100; 6132451860; -28821727400; 77646349400;
   135593274000; 194987841000; -246636662000; 281828203000; 294315332000; 281828203000; 246636662000; -194987841000;
   -135593274000; -77646349400; 28821727400; 6132451860; 25876781100; 32193929000; 28875739200; -20438508700;
   -10913762000; -3060122860; -1865816910; 3892051490; 3837201930; 2733709040; 1491883570; -536548976].

Definition cos_table_fixed_4 : list Z :=
  [7071067812; 9238795325; -10000000000; 9238795325; 7071067812; 3826834324; 0; 3826834324;
   -7071067812; 3826834324; -10000000000; 3826834324; -7071067812; -9238795325; 0; -9238795325;
   -7071067812; -3826834324; -10000000000; -3826834324; -7071067812; 9238795325; 0; 9238795325;
   7071067812; -9238795325; -10000000000; -9238795325; 7071067812; -3826834324; 0; -3826834324].

Definition sbc_proto_fixed8 : list Z :=
  [0; 156575398; 343256425; 554620202; -823919506; 1139925070; 1476401690; 1783717250;
   2011825420; 2103719890; 1994545540; 1616562830; 902154502; 178805361; 1649730980; 3497174540;
   5659494730; 8029411630; 10458444300; 12747233500; -14652526300; 15904560300; 16220847100; 15318410600;
   12937180600; 8857575400; 2924084420; -4915780240; -14640407600; 26109875200; 39075138100; 53187303200;
   67998943100; 82984757800; 97575391800; 111196689000; -123264548000; 133264415000; 140753505000; 145389847000;
   146955068000; 145389847000; 140753505000; 133264415000; 123264548000; -111196689000; -97575391800; -82984757800;
   -67998943100; -53187303200; -39075138100; -26109875200; 14640407600; -4915780240; 2924084420; 8857575400;
   12937180600; 15318410600; 16220847100; 15904560300; 14652526300; -12747233500; -10458444300; -8029411630;
   -5659494730; -3497174540; -1649730980; -178805361; -902154502; 1616562830; 1994545540; 2103719890;
   2011825420; 1783717250; 1476401690; 1139925070; 823919506; -554620202; -343256425; -156575398].

Definition cos_table_fixed_8 : list Z :=
  [7071067812; 8314696123; 9238795325; 9807852804; -10000000000; 9807852804; 9238795325; 8314696123;
   7071067812; 5555702330; 3826834324; 1950903220; 0; 1950903220; 3826834324; 5555702330;
   -7071067812; -1950903220; 3826834324; 8314696123; -10000000000; 8314696123; 3826834324; -1950903220;
   -7071067812; -9807852804; -9238795325; -5555702330; 0; -5555702330; -9238795325; -9807852804;
   -7071067812; -9807852804; -3826834324; 5555702330; -10000000000; 5555702330; -3826834324; -9807852804;
   -7071067812; 1950903220; 9238795325; 8314696123; 0; 8314696123; 9238795325; 1950903220;
   7071067812; -5555702330; -9238795325; 1950903220; -10000000000; 1950903220; -9238795325; -5555702330;
   7071067812; 8314696123; -3826834324; -9807852804; 0; -9807852804; -3826834324; 8314696123;
   7071067812; 5555702330; -9238795325; -1950903220; -10000000000; -1950903220; -9238795325; 5555702330;
   7071067812; -8314696123; -3826834324; 9807852804; 0; 9807852804; -3826834324; -8314696123;
   -7071067812; 9807852804; -3826834324; -5555702330; -10000000000; -5555702330; -3826834324; 9807852804;
   -7071067812; -1950903220; 9238795325; -8314696123; 0; -8314696123; 9238795325; -1950903220;
   -7071067812; 1950903220; 3826834324; -8314696123; -10000000000; -8314696123; 3826834324; 1950903220;
   -7071067812; 9807852804; -9238795325; 5555702330; 0; 5555702330; -9238795325; 9807852804;
   7071067812; -8314696123; 9238795325; -9807852804; -10000000000; -9807852804; 9238795325; -8314696123;
   7071067812; -5555702330; 3826834324; -1950903220; 0; -1950903220; 3826834324; -5555702330].

(** The tables of the code, in the order the permuted input is read. *)

Definition analysis_consts_fixed4_simd_even : list Z :=
  let C0 := 10932568993 in
  let C1 := 13056875580 in
  let C2 := 13056875580 in
  let C3 := 16772280856 in
  [
   F_PROTO 0 C0; F_PROTO 3837201930 C0; F_PROTO 536548976 C1; F_PROTO 2733709040 C1;
   F_PROTO 3060122860 C2; F_PROTO 3892051490 C2; F_PROTO 0 C3; - F_PROTO 1491883570 C3;
   F_PROTO 10913762000 C0; F_PROTO 25876781100 C0; F_PROTO 20438508700 C1; F_PROTO 32193929000 C1;
   F_PROTO 77646349400 C2; F_PROTO 6132451860 C2; F_PROTO 0 C3; - F_PROTO 28875739200 C3;
   F_PROTO 135593274000 C0; F_PROTO 294315332000 C0; F_PROTO 194987841000 C1; F_PROTO 281828203000 C1;
   - F_PROTO 194987841000 C2; F_PROTO 281828203000 C2; F_PROTO 0 C3; - F_PROTO 246636662000 C3;
   - F_PROTO 135593274000 C0; F_PROTO 25876781100 C0; - F_PROTO 77646349400 C1; F_PROTO 6132451860 C1;
   - F_PROTO 20438508700 C2; F_PROTO 32193929000 C2; F_PROTO 0 C3; F_PROTO 28821727400 C3;
   - F_PROTO 10913762000 C0; F_PROTO 3837201930 C0; - F_PROTO 3060122860 C1; F_PROTO 3892051490 C1;
   - F_PROTO 536548976 C2; F_PROTO 2733709040 C2; F_PROTO 0 C3; - F_PROTO 1865816910 C3;
   F_COS 7071067812 C0; F_COS 9238795325 C1; - F_COS 7071067812 C0; F_COS 3826834324 C1;
   - F_COS 7071067812 C0; - F_COS 3826834324 C1; F_COS 7071067812 C0; - F_COS 9238795325 C1;
   F_COS 3826834324 C2; - F_COS 10000000000 C3; - F_COS 9238795325 C2; - F_COS 10000000000 C3;
   F_COS 9238795325 C2; - F_COS 10000000000 C3; - F_COS 3826834324 C2; - F_COS 10000000000 C3].

Definition analysis_consts_fixed4_simd_odd : list Z :=
  let C0 := 13056875580 in
  let C1 := 16772280856 in
  let C2 := 10932568993 in
  let C3 := 13056875580 in
  [
   F_PROTO 2733709040 C0; F_PROTO 536548976 C0; - F_PROTO 1491883570 C1; F_PROTO 0 C1;
   F_PROTO 3837201930 C2; F_PROTO 10913762000 C2; F_PROTO 3892051490 C3; F_PROTO 3060122860 C3;
   F_PROTO 32193929000 C0; F_PROTO 20438508700 C0; - F_PROTO 28875739200 C1; F_PROTO 0 C1;
   F_PROTO 25876781100 C2; F_PROTO 135593274000 C2; F_PROTO 6132451860 C3; F_PROTO 77646349400 C3;
   F_PROTO 281828203000 C0; F_PROTO 194987841000 C0; - F_PROTO 246636662000 C1; F_PROTO 0 C1;
   F_PROTO 294315332000 C2; - F_PROTO 135593274000 C2; F_PROTO 281828203000 C3; - F_PROTO 194987841000 C3;
   F_PROTO 6132451860 C0; - F_PROTO 77646349400 C0; F_PROTO 28821727400 C1; F_PROTO 0 C1;
   F_PROTO 25876781100 C2; - F_PROTO 10913762000 C2; F_PROTO 32193929000 C3; - F_PROTO 20438508700 C3;
   F_PROTO 3892051490 C0; - F_PROTO 3060122860 C0; - F_PROTO 1865816910 C1; F_PROTO 0 C1;
   F_PROTO 3837201930 C2; F_PROTO 0 C2; F_PROTO 2733709040 C3; - F_PROTO 536548976 C3;
   F_COS 9238795325 C0; - F_COS 10000000000 C1; F_COS 3826834324 C0; - F_COS 10000000000 C1;
   - F_COS 3826834324 C0; - F_COS 10000000000 C1; - F_COS 9238795325 C0; - F_COS 10000000000 C1;
   F_COS 7071067812 C2; F_COS 3826834324 C3; - F_COS 7071067812 C2; - F_COS 9238795325 C3;
   - F_COS 7071067812 C2; F_COS 9238795325 C3; F_COS 7071067812 C2; - F_COS 3826834324 C3].

Definition analysis_consts_fixed8_simd_even : list Z :=
  let C0 := 27906148894 in
  let C1 := 24270044280 in
  let C2 := 28015616024 in
  let C3 := 31710363741 in
  let C4 := 25377944043 in
  let C5 := 24270044280 in
  let C6 := 28015616024 in
  let C7 := 31710363741 in
  [
   F_PROTO 0 C0; F_PROTO 2011825420 C0; F_PROTO 156575398 C1; F_PROTO 1783717250 C1;
   F_PROTO 343256425 C2; F_PROTO 1476401690 C2; F_PROTO 554620202 C3; F_PROTO 1139925070 C3;
   - F_PROTO 823919506 C4; F_PROTO 0 C4; F_PROTO 2103719890 C5; F_PROTO 3497174540 C5;
   F_PROTO 1994545540 C6; F_PROTO 1649730980 C6; F_PROTO 1616562830 C7; F_PROTO 178805361 C7;
   F_PROTO 5659494730 C0; F_PROTO 12937180600 C0; F_PROTO 8029411630 C1; F_PROTO 15318410600 C1;
   F_PROTO 10458444300 C2; F_PROTO 16220847100 C2; F_PROTO 12747233500 C3; F_PROTO 15904560300 C3;
   - F_PROTO 14652526300 C4; F_PROTO 0 C4; F_PROTO 8857575400 C5; F_PROTO 53187303200 C5;
   F_PROTO 2924084420 C6; F_PROTO 39075138100 C6; - F_PROTO 4915780240 C7; F_PROTO 26109875200 C7;
   F_PROTO 67998943100 C0; F_PROTO 146955068000 C0; F_PROTO 82984757800 C1; F_PROTO 145389847000 C1;
   F_PROTO 97575391800 C2; F_PROTO 140753505000 C2; F_PROTO 111196689000 C3; F_PROTO 133264415000 C3;
   - F_PROTO 123264548000 C4; F_PROTO 0 C4; F_PROTO 145389847000 C5; - F_PROTO 82984757800 C5;
   F_PROTO 140753505000 C6; - F_PROTO 97575391800 C6; F_PROTO 133264415000 C7; - F_PROTO 111196689000 C7;
   - F_PROTO 67998943100 C0; F_PROTO 12937180600 C0; - F_PROTO 53187303200 C1; F_PROTO 8857575400 C1;
   - F_PROTO 39075138100 C2; F_PROTO 2924084420 C2; - F_PROTO 26109875200 C3; - F_PROTO 4915780240 C3;
   F_PROTO 14640407600 C4; F_PROTO 0 C4; F_PROTO 15318410600 C5; - F_PROTO 8029411630 C5;
   F_PROTO 16220847100 C6; - F_PROTO 10458444300 C6; F_PROTO 15904560300 C7; - F_PROTO 12747233500 C7;
   - F_PROTO 5659494730 C0; F_PROTO 2011825420 C0; - F_PROTO 3497174540 C1; F_PROTO 2103719890 C1;
   - F_PROTO 1649730980 C2; F_PROTO 1994545540 C2; - F_PROTO 178805361 C3; F_PROTO 1616562830 C3;
   - F_PROTO 902154502 C4; F_PROTO 0 C4; F_PROTO 1783717250 C5; - F_PROTO 156575398 C5;
   F_PROTO 1476401690 C6; - F_PROTO 343256425 C6; F_PROTO 1139925070 C7; - F_PROTO 554620202 C7;
   F_COS 7071067812 C0; F_COS 8314696123 C1; - F_COS 7071067812 C0; - F_COS 1950903220 C1;
   - F_COS 7071067812 C0; - F_COS 9807852804 C1; F_COS 7071067812 C0; - F_COS 5555702330 C1;
   F_COS 7071067812 C0; F_COS 5555702330 C1; - F_COS 7071067812 C0; F_COS 9807852804 C1;
   - F_COS 7071067812 C0; F_COS 1950903220 C1; F_COS 7071067812 C0; - F_COS 8314696123 C1;
   F_COS 9238795325 C2; F_COS 9807852804 C3; F_COS 3826834324 C2; F_COS 8314696123 C3;
   - F_COS 3826834324 C2; F_COS 5555702330 C3; - F_COS 9238795325 C2; F_COS 1950903220 C3;
   - F_COS 9238795325 C2; - F_COS 1950903220 C3; - F_COS 3826834324 C2; - F_COS 5555702330 C3;
   F_COS 3826834324 C2; - F_COS 8314696123 C3; F_COS 9238795325 C2; - F_COS 9807852804 C3;
   - F_COS 10000000000 C4; F_COS 5555702330 C5; - F_COS 10000000000 C4; - F_COS 9807852804 C5;
   - F_COS 10000000000 C4; F_COS 1950903220 C5; - F_COS 10000000000 C4; F_COS 8314696123 C5;
   - F_COS 10000000000 C4; - F_COS 8314696123 C5; - F_COS 10000000000 C4; - F_COS 1950903220 C5;
   - F_COS 10000000000 C4; F_COS 9807852804 C5; - F_COS 10000000000 C4; - F_COS 5555702330 C5;
   F_COS 3826834324 C6; F_COS 1950903220 C7; - F_COS 9238795325 C6; - F_COS 5555702330 C7;
   F_COS 9238795325 C6; F_COS 8314696123 C7; - F_COS 3826834324 C6; - F_COS 9807852804 C7;
   - F_COS 3826834324 C6; F_COS 9807852804 C7; F_COS 9238795325 C6; - F_COS 8314696123 C7;
   - F_COS 9238795325 C6; F_COS 5555702330 C7; F_COS 3826834324 C6; - F_COS 1950903220 C7].

Definition analysis_consts_fixed8_simd_odd : list Z :=
  let C0 := 25377944043 in
  let C1 := 24270044280 in
  let C2 := 28015616024 in
  let C3 := 31710363741 in
  let C4 := 27906148894 in
  let C5 := 24270044280 in
  let C6 := 28015616024 in
  let C7 := 31710363741 in
  [
   F_PROTO 0 C0; - F_PROTO 823919506 C0; F_PROTO 156575398 C1; F_PROTO 1783717250 C1;
   F_PROTO 343256425 C2; F_PROTO 1476401690 C2; F_PROTO 554620202 C3; F_PROTO 1139925070 C3;
   F_PROTO 2011825420 C4; F_PROTO 5659494730 C4; F_PROTO 2103719890 C5; F_PROTO 3497174540 C5;
   F_PROTO 1994545540 C6; F_PROTO 1649730980 C6; F_PROTO 1616562830 C7; F_PROTO 178805361 C7;
   F_PROTO 0 C0; - F_PROTO 14652526300 C0; F_PROTO 8029411630 C1; F_PROTO 15318410600 C1;
   F_PROTO 10458444300 C2; F_PROTO 16220847100 C2; F_PROTO 12747233500 C3; F_PROTO 15904560300 C3;
   F_PROTO 12937180600 C4; F_PROTO 67998943100 C4; F_PROTO 8857575400 C5; F_PROTO 53187303200 C5;
   F_PROTO 2924084420 C6; F_PROTO 39075138100 C6; - F_PROTO 4915780240 C7; F_PROTO 26109875200 C7;
   F_PROTO 0 C0; - F_PROTO 123264548000 C0; F_PROTO 82984757800 C1; F_PROTO 145389847000 C1;
   F_PROTO 97575391800 C2; F_PROTO 140753505000 C2; F_PROTO 111196689000 C3; F_PROTO 133264415000 C3;
   F_PROTO 146955068000 C4; - F_PROTO 67998943100 C4; F_PROTO 145389847000 C5; - F_PROTO 82984757800 C5;
   F_PROTO 140753505000 C6; - F_PROTO 97575391800 C6; F_PROTO 133264415000 C7; - F_PROTO 111196689000 C7;
   F_PROTO 0 C0; F_PROTO 14640407600 C0; - F_PROTO 53187303200 C1; F_PROTO 8857575400 C1;
   - F_PROTO 39075138100 C2; F_PROTO 2924084420 C2; - F_PROTO 26109875200 C3; - F_PROTO 4915780240 C3;
   F_PROTO 12937180600 C4; - F_PROTO 5659494730 C4; F_PROTO 15318410600 C5; - F_PROTO 8029411630 C5;
   F_PROTO 16220847100 C6; - F_PROTO 10458444300 C6; F_PROTO 15904560300 C7; - F_PROTO 12747233500 C7;
   F_PROTO 0 C0; - F_PROTO 902154502 C0; - F_PROTO 3497174540 C1; F_PROTO 2103719890 C1;
   - F_PROTO 1649730980 C2; F_PROTO 1994545540 C2; - F_PROTO 178805361 C3; F_PROTO 1616562830 C3;
   F_PROTO 2011825420 C4; F_PROTO 0 C4; F_PROTO 1783717250 C5; - F_PROTO 156575398 C5;
   F_PROTO 1476401690 C6; - F_PROTO 343256425 C6; F_PROTO 1139925070 C7; - F_PROTO 554620202 C7;
   - F_COS 10000000000 C0; F_COS 8314696123 C1; - F_COS 10000000000 C0; - F_COS 1950903220 C1;
   - F_COS 10000000000 C0; - F_COS 9807852804 C1; - F_COS 10000000000 C0; - F_COS 5555702330 C1;
   - F_COS 10000000000 C0; F_COS 5555702330 C1; - F_COS 10000000000 C0; F_COS 9807852804 C1;
   - F_COS 10000000000 C0; F_COS 1950903220 C1; - F_COS 10000000000 C0; - F_COS 8314696123 C1;
   F_COS 9238795325 C2; F_COS 9807852804 C3; F_COS 3826834324 C2; F_COS 8314696123 C3;
   - F_COS 3826834324 C2; F_COS 5555702330 C3; - F_COS 9238795325 C2; F_COS 1950903220 C3;
   - F_COS 9238795325 C2; - F_COS 1950903220 C3; - F_COS 3826834324 C2; - F_COS 5555702330 C3;
   F_COS 3826834324 C2; - F_COS 8314696123 C3; F_COS 9238795325 C2; - F_COS 9807852804 C3;
   F_COS 7071067812 C4; F_COS 5555702330 C5; - F_COS 7071067812 C4; - F_COS 9807852804 C5;
   - F_COS 7071067812 C4; F_COS 1950903220 C5; F_COS 7071067812 C4; F_COS 8314696123 C5;
   F_COS 7071067812 C4; - F_COS 8314696123 C5; - F_COS 7071067812 C4; - F_COS 1950903220 C5;
   - F_COS 7071067812 C4; F_COS 9807852804 C5; F_COS 7071067812 C4; - F_COS 5555702330 C5;
   F_COS 3826834324 C6; F_COS 1950903220 C7; - F_COS 9238795325 C6; - F_COS 5555702330 C7;
   F_COS 9238795325 C6; F_COS 8314696123 C7; - F_COS 3826834324 C6; - F_COS 9807852804 C7;
   - F_COS 3826834324 C6; F_COS 9807852804 C7; F_COS 9238795325 C6; - F_COS 8314696123 C7;
   - F_COS 9238795325 C6; F_COS 5555702330 C7; F_COS 3826834324 C6; - F_COS 1950903220 C7].
