(* ===== verification/SbcAnalysis.v ===== *)
(** utils/sbc/sbc_primitives.c and [sbc_analyze_audio] of sbc.c: the input
    buffers of the encoder, the analysis filter bank, the scale factors. *)

From stdpp Require Import base list numbers sorting.
From Stdlib Require Import ZArith Lia.
From S2P Require Import Prelude Sbc SbcBits SbcStream SbcFrame SbcTables.

Local Open Scope Z_scope.

(** * Data *)

Definition SBC_X_BUFFER_SIZE : Z := 328.

(** The function pointers of the state are those of the portable code. *)
Record sbc_encoder_state := EncoderState { position : Z; X : list (list Z) }.

Definition sbc_encoder_init (subbands : Z) : sbc_encoder_state :=
  EncoderState (SBC_X_BUFFER_SIZE - subbands * 9) (replicate 2 (replicate (Z.to_nat SBC_X_BUFFER_SIZE) 0)).

(** * Input *)

Definition unaligned16_be (p : list Z) : outcome Z :=
  b0 ← rd8 p; b1 ← rd8 (adv 1 p); Ret (to_i16 (Z.lor (Z.shiftl b0 8) b1)).
Definition unaligned16_le (p : list Z) : outcome Z :=
  b0 ← rd8 p; b1 ← rd8 (adv 1 p); Ret (to_i16 (Z.lor b0 (Z.shiftl b1 8))).

Definition PCM (big_endian : bool) (pcm : list Z) (i : Z) : outcome Z :=
  (if big_endian then unaligned16_be else unaligned16_le) (adv (i * 2) pcm).

(** The samples of a group in the order they have in the buffer. *)
Definition order4 : list Z := [7; 3; 6; 4; 0; 2; 1; 5].
Definition order8 : list Z := [15; 7; 14; 8; 13; 9; 12; 10; 11; 3; 6; 0; 5; 1; 4; 2].

Fixpoint each_channel (n : nat) (ch : Z) (f : Z → list Z → outcome (list Z)) (X : list (list Z)) : outcome (list (list Z)) :=
  match n, X with
  | S n, row :: X => row ← f ch row; X ← each_channel n (ch + 1) f X; Ret (row :: X)
  | _, _ => Ret X
  end.

(** Moving the newest [tail] samples to the top of the buffer. The areas must
    not overlap. *)
Definition wrap_row (tail position : Z) (row : list Z) : outcome (list Z) :=
  if position + tail <=? SBC_X_BUFFER_SIZE - tail then
    old ← rd (Z.to_nat tail) (adv position row);
    wr row (SBC_X_BUFFER_SIZE - tail) old
  else Undef.

Definition store_samples (order : list Z) (big_endian : bool) (position : Z) (pcm : list Z) (nchannels ch : Z) (row : list Z)
    : outcome (list Z) :=
  samples ← mapM (λ i, PCM big_endian pcm (ch + i * nchannels)) order;
  wr row position samples.

Fixpoint process_groups (fuel : nat) (order : list Z) (big_endian : bool) (position : Z) (pcm : list Z) (X : list (list Z))
    (nsamples nchannels : Z) : outcome (Z * list (list Z)) :=
  let n := Z.of_nat (length order) in
  if nsamples - n <? 0 then Ret (position, X)
  else
    match fuel with
    | O => NoFuel
    | S fuel =>
        X ← each_channel (Z.to_nat nchannels) 0 (store_samples order big_endian (position - n) pcm nchannels) X;
        process_groups fuel order big_endian (position - n) (adv (2 * n * nchannels) pcm) X (nsamples - n) nchannels
    end.

Definition process_input (order : list Z) (tail : Z) (position : Z) (pcm : list Z) (X : list (list Z)) (nsamples nchannels : Z)
    (big_endian : bool) : outcome (Z * list (list Z)) :=
  r ← (if position <? nsamples then
         X ← each_channel (Z.to_nat nchannels) 0 (λ _, wrap_row tail position) X;
         Ret (SBC_X_BUFFER_SIZE - tail, X)
       else Ret (position, X));
  let '(position, X) := r in
  process_groups (Z.to_nat nsamples) order big_endian position pcm X nsamples nchannels.

Definition sbc_encoder_process_input_s4_internal := process_input order4 36.
Definition sbc_encoder_process_input_s8_internal := process_input order8 72.

Definition sbc_enc_process_input_4s_le (position : Z) (pcm : list Z) (X : list (list Z)) (nsamples nchannels : Z) : outcome (Z * list (list Z)) :=
  sbc_encoder_process_input_s4_internal position pcm X nsamples (if 1 <? nchannels then 2 else 1) false.
Definition sbc_enc_process_input_4s_be (position : Z) (pcm : list Z) (X : list (list Z)) (nsamples nchannels : Z) : outcome (Z * list (list Z)) :=
  sbc_encoder_process_input_s4_internal position pcm X nsamples (if 1 <? nchannels then 2 else 1) true.
Definition sbc_enc_process_input_8s_le (position : Z) (pcm : list Z) (X : list (list Z)) (nsamples nchannels : Z) : outcome (Z * list (list Z)) :=
  sbc_encoder_process_input_s8_internal position pcm X nsamples (if 1 <? nchannels then 2 else 1) false.
Definition sbc_enc_process_input_8s_be (position : Z) (pcm : list Z) (X : list (list Z)) (nsamples nchannels : Z) : outcome (Z * list (list Z)) :=
  sbc_encoder_process_input_s8_internal position pcm X nsamples (if 1 <? nchannels then 2 else 1) true.

(** * The filter bank *)

(** The type of the accumulators: a signed overflow is undefined. *)
Definition int32 (z : Z) : outcome Z := if decide (- 2 ^ 31 ≤ z < 2 ^ 31) then Ret z else Undef.

Fixpoint macs (l : list (Z * Z)) (a : Z) : outcome Z :=
  match l with
  | [] => Ret a
  | p :: l => v ← int32 (p.1 * p.2); a ← int32 (a + v); macs l a
  end.

(** The entries of the input that make up accumulator [j], and the cosines
    that make up output [i], for [m] subbands. *)
Definition polyphase_taps (m j : nat) : list nat :=
  concat (map (λ g, [g * (2 * m) + 2 * j; g * (2 * m) + 2 * j + 1]) (seq 0 5))%nat.
Definition cosine_taps (m i : nat) : list nat :=
  map (λ j, 10 * m + j / 2 * (2 * m) + 2 * i + j mod 2)%nat (seq 0 m).

Definition lowpass (m : nat) (win consts : list Z) (j : nat) : outcome Z :=
  t ← macs (map (λ k, (nth k win 0, nth k consts 0)) (polyphase_taps m j)) (Z.shiftl 1 (SBC_PROTO_FIXED_SCALE - 1));
  Ret (to_i16 (Z.shiftr t SBC_PROTO_FIXED_SCALE)).

Definition transform (m : nat) (t2 consts : list Z) (i : nat) : outcome Z :=
  t ← macs (zip t2 (map (λ k, nth k consts 0) (cosine_taps m i))) 0;
  Ret (Z.shiftr t (SBC_COS_TABLE_FIXED_SCALE - SCALE_OUT_BITS)).

Definition sbc_analyze_simd (m : nat) (win consts : list Z) : outcome (list Z) :=
  t2 ← mapM (lowpass m win consts) (seq 0 m);
  mapM (transform m t2 consts) (seq 0 m).

Definition sbc_analyze_four_simd := sbc_analyze_simd 4.
Definition sbc_analyze_eight_simd := sbc_analyze_simd 8.

(** Four blocks, the oldest first. *)
Definition window (n : nat) (x : Z) (row : list Z) : outcome (list Z) := if x <? 0 then Undef else rd n (adv x row).

Definition sbc_analyze_4b_4s_simd (row : list Z) (x : Z) : outcome (list (list Z)) :=
  mapM (λ p, win ← window 40 (x + p.1) row; sbc_analyze_four_simd win p.2)
    [(12, analysis_consts_fixed4_simd_odd); (8, analysis_consts_fixed4_simd_even);
     (4, analysis_consts_fixed4_simd_odd); (0, analysis_consts_fixed4_simd_even)].
Definition sbc_analyze_4b_8s_simd (row : list Z) (x : Z) : outcome (list (list Z)) :=
  mapM (λ p, win ← window 80 (x + p.1) row; sbc_analyze_eight_simd win p.2)
    [(24, analysis_consts_fixed8_simd_odd); (16, analysis_consts_fixed8_simd_even);
     (8, analysis_consts_fixed8_simd_odd); (0, analysis_consts_fixed8_simd_even)].

(** The blocks of a channel, four at a time. *)
Fixpoint analyze_channel (n : nat) (analyze : list Z → Z → outcome (list (list Z))) (row : list Z) (x step : Z)
    : outcome (list (list Z)) :=
  match n with
  | O => Ret []
  | S n =>
      a ← analyze row x;
      r ← analyze_channel n analyze row (x - step) step;
      Ret (a ++ r)
  end.

(** [sb_sample_f] is indexed by block, then by channel. *)
Definition by_block (n : nat) (l : list (list (list Z))) : list (list (list Z)) :=
  map (λ b, map (λ ch, nth b ch []) l) (seq 0 n).

Definition EIO : Z := 5.

Definition sbc_analyze_audio (st : sbc_encoder_state) (fr : sbc_frame) : outcome (Z * sbc_frame) :=
  let n := Z.to_nat (blocks fr / 4) in
  let rows := take (Z.to_nat (channels fr)) (X st) in
  if subbands fr =? 4 then
    l ← mapM (λ row, analyze_channel n sbc_analyze_4b_4s_simd row (position st - 16 + blocks fr * 4) 16) rows;
    Ret (blocks fr * 4, set_sb_sample_f (by_block (Z.to_nat (blocks fr)) l) fr)
  else if subbands fr =? 8 then
    l ← mapM (λ row, analyze_channel n sbc_analyze_4b_8s_simd row (position st - 32 + blocks fr * 8) 32) rows;
    Ret (blocks fr * 8, set_sb_sample_f (by_block (Z.to_nat (blocks fr)) l) fr)
  else Ret (- EIO, fr).

(** * Scale factors *)

Fixpoint significant (fuel : nat) (x cnt : Z) : Z :=
  match fuel with
  | O => cnt
  | S fuel => if x =? 0 then cnt else significant fuel (Z.shiftr x 1) (cnt + 1)
  end.
Definition sbc_clz (x : Z) : Z := 32 - significant 32 x 0.

Definition fabs (x : Z) : outcome Z := if x <? 0 then int32 (- x) else Ret x.

(** All the bits of the magnitudes of a column. *)
Fixpoint magnitudes (col : list Z) (x : Z) : outcome Z :=
  match col with
  | [] => Ret x
  | s :: col => tmp ← fabs s; magnitudes col (if tmp =? 0 then x else Z.lor x (to_u32 (tmp - 1)))
  end.

Definition scale_of (samples : list (list (list Z))) (ch sb : nat) : outcome Z :=
  x ← magnitudes (column sb ch samples) (Z.shiftl 1 SCALE_OUT_BITS);
  Ret (to_u32 (31 - SCALE_OUT_BITS - sbc_clz x)).

Definition sbc_calc_scalefactors (samples : list (list (list Z))) (channels subbands : Z) : outcome (list (list Z)) :=
  mapM (λ ch, mapM (scale_of samples ch) (seq 0 (Z.to_nat subbands))) (seq 0 (Z.to_nat channels)).

(** * The front end of [sbc_encode]: from the input to the samples of a frame *)

Definition encode_audio (big_endian : bool) (pcm : list Z) (st : sbc_encoder_state) (fr : sbc_frame)
    : outcome (Z * sbc_encoder_state * sbc_frame) :=
  let sbc_enc_process_input :=
    if subbands fr =? 8 then (if big_endian then sbc_enc_process_input_8s_be else sbc_enc_process_input_8s_le)
    else (if big_endian then sbc_enc_process_input_4s_be else sbc_enc_process_input_4s_le) in
  r ← sbc_enc_process_input (position st) pcm (X st) (subbands fr * blocks fr) (channels fr);
  let st := EncoderState r.1 r.2 in
  r ← sbc_analyze_audio st fr;
  let '(samples, fr) := r in
  factors ← sbc_calc_scalefactors (sb_sample_f fr) (channels fr) (subbands fr);
  Ret (samples, st, set_scale_factor factors fr).

(** The samples of successive frames. *)
Fixpoint encode_stream (big_endian : bool) (inputs : list (list Z)) (st : sbc_encoder_state) (fr : sbc_frame)
    : outcome (list (list (list (list Z)))) :=
  match inputs with
  | [] => Ret []
  | pcm :: inputs =>
      r ← encode_audio big_endian pcm st fr;
      l ← encode_stream big_endian inputs r.1.2 r.2;
      Ret (sb_sample_f r.2 :: l)
  end.
