(* ===== verification/SbcFilter.v ===== *)
(** utils/sbc/sbc_primitives.c: the encoder's filter bank against the filter of
    the A2DP specification. The reference reads the samples of a channel from
    the newest to the oldest and uses the tables of the specification; the code
    reads them permuted, with two tables that depend on where a block starts.
    Theorems: both tables compute the reference filter, without overflow
    ([analysis_filter_correct]); frame after frame the encoder filters the
    stream of its input ([encoder_filters_stream]); the scale factors fit the
    samples. *)

From stdpp Require Import base list numbers sorting.
From Stdlib Require Import ZArith Lia.
From S2P Require Import Prelude Sbc SbcBits SbcStream SbcFrame SbcTables SbcAnalysis.

Local Open Scope Z_scope.

(** * The reference filter

    The prototype filter has ten coefficients for each of the [2 * bands]
    phases. Phases with the same cosines form a group, which has a scale of its
    own that makes the most of 16 bits; one phase has no effect. *)

Record bank := Bank {
  bands : nat;
  order : list Z;
  groups : list (list nat);
  scales : list Z;
  proto : list Z;
  cosines : list Z
}.

Definition bank4 : bank := Bank 4 order4 [[0; 4]; [1; 3]; [5; 7]; [2]]%nat
  [10932568993; 13056875580; 13056875580; 16772280856] sbc_proto_fixed4 cos_table_fixed_4.
Definition bank8 : bank := Bank 8 order8 [[0; 8]; [1; 7]; [2; 6]; [3; 5]; [4]; [9; 15]; [10; 14]; [11; 13]]%nat
  [27906148894; 24270044280; 28015616024; 31710363741; 25377944043; 24270044280; 28015616024; 31710363741]
  sbc_proto_fixed8 cos_table_fixed_8.

Definition fixed (f : Z → Z → Z) (x c : Z) : Z := if x <? 0 then - f (- x) c else f x c.

Definition group_coefficient (b : bank) (r k : nat) : Z :=
  if decide ((k mod (2 * bands b))%nat ∈ nth r (groups b) []) then fixed F_PROTO (nth k (proto b) 0) (nth r (scales b) 1) else 0.
Definition cos_coefficient (b : bank) (i r : nat) : Z :=
  fixed F_COS (nth (2 * bands b * i + hd 0%nat (nth r (groups b) [])) (cosines b) 0) (nth r (scales b) 1).

(** [h k] is the sample [k] before the newest one. *)
Definition dot (n : nat) (h c : nat → Z) : Z := zsum (map (λ k, h k * c k) (seq 0 n)).
Definition partial (b : bank) (h : nat → Z) (r : nat) : Z :=
  to_i16 (Z.shiftr (2 ^ 15 + dot (10 * bands b) h (group_coefficient b r)) 16).
Definition subband (b : bank) (h : nat → Z) (i : nat) : Z := dot (bands b) (partial b h) (cos_coefficient b i).
Definition analysis_filter (b : bank) (h : nat → Z) : list Z := map (subband b h) (seq 0 (bands b)).

(** * Accumulators *)

Definition weight (l : list (Z * Z)) : Z := zsum (map (λ p, Z.abs (p.1 * p.2)) l).
Definition products (l : list (Z * Z)) : Z := zsum (map (λ p, p.1 * p.2) l).

Lemma weight_nonneg l : 0 ≤ weight l.
Proof. unfold weight. induction l as [|p l IH]; cbn [map zsum]; lia. Qed.

Lemma products_bound l : Z.abs (products l) ≤ weight l.
Proof. unfold products, weight. induction l as [|p l IH]; cbn [map zsum]; lia. Qed.

Lemma int32_ret z : - 2 ^ 31 ≤ z < 2 ^ 31 → int32 z = Ret z.
Proof. intros. unfold int32. by rewrite decide_True. Qed.

Lemma macs_exact l a : Z.abs a + weight l < 2 ^ 31 → macs l a = Ret (a + products l).
Proof.
  revert a. unfold weight, products. induction l as [|p l IH]; intros a H; cbn [macs map zsum] in *; [f_equal; lia|].
  pose proof (weight_nonneg l) as Hw. unfold weight in Hw.
  rewrite int32_ret, outcome_bind_ret, int32_ret, outcome_bind_ret by lia. rewrite IH by lia. f_equal. lia.
Qed.

(** Samples of 16 bits, and the largest sum they can have. *)
Definition i16_ok (z : Z) : Prop := - 2 ^ 15 ≤ z < 2 ^ 15.
Definition mass (l : list Z) : Z := zsum (map Z.abs l).

Lemma weight_mass (l : list (Z * Z)) (B : Z) : 0 ≤ B → Forall (λ p, Z.abs p.1 ≤ B) l → weight l ≤ B * mass (map snd l).
Proof.
  intros HB. unfold weight, mass. induction 1 as [|p l Hp _ IH]; cbn [map zsum]; [lia|]. rewrite Z.abs_mul. nia.
Qed.

(** * Sums in another order

    A sum of samples times coefficients is determined by the coefficient each
    sample has in total. *)

Definition total (l : list (Z * nat)) (k : nat) : Z := zsum (map fst (filter (λ p, p.2 = k) l)).
Definition terms (h : nat → Z) (l : list (Z * nat)) : Z := zsum (map (λ p, h p.2 * p.1) l).

Lemma dot_zero n h : dot n h (λ _, 0) = 0.
Proof. unfold dot. induction (seq 0 n) as [|k l IH]; cbn [map zsum]; lia. Qed.

Lemma dot_ext n h c d : (∀ k, (k < n)%nat → c k = d k) → dot n h c = dot n h d.
Proof.
  intros H. unfold dot. f_equal. apply map_ext_in. intros k Hk%in_seq. rewrite H by lia. done.
Qed.

Lemma dot_add n h c d : dot n h (λ k, c k + d k) = dot n h c + dot n h d.
Proof. unfold dot. induction (seq 0 n) as [|k l IH]; cbn [map zsum]; lia. Qed.

Lemma dot_indicator n h x j : (j < n)%nat → dot n h (λ k, if decide (j = k) then x else 0) = h j * x.
Proof.
  unfold dot. intros Hj. assert (∀ m s, zsum (map (λ k, h k * (if decide (j = k) then x else 0)) (seq s m)) =
    if decide (s ≤ j < s + m)%nat then h j * x else 0) as E.
  { induction m as [|m IH]; intros s; cbn [seq map zsum].
    - rewrite decide_False by lia. done.
    - rewrite IH. destruct (decide (j = s)) as [->|].
      + rewrite decide_False, decide_True by lia. lia.
      + destruct (decide (S s ≤ j < S s + m)%nat); [rewrite decide_True by lia|rewrite decide_False by lia]; lia. }
  rewrite E, decide_True by lia. done.
Qed.

Lemma terms_dot n h l : Forall (λ p, (p.2 < n)%nat) l → terms h l = dot n h (total l).
Proof.
  unfold terms. induction 1 as [|p l Hp _ IH]; cbn [map zsum].
  - symmetry. apply dot_zero.
  - rewrite IH, <- (dot_indicator n) by exact Hp. rewrite <- dot_add. apply dot_ext. intros k _. unfold total.
    rewrite filter_cons. destruct (decide (p.2 = k)); cbn [map zsum]; lia.
Qed.

Lemma terms_nonzero h l : terms h l = terms h (filter (λ p, p.1 ≠ 0) l).
Proof.
  unfold terms. induction l as [|p l IH]; [done|]. rewrite filter_cons. cbn [map zsum].
  destruct (decide (p.1 ≠ 0)) as [|E%dec_stable]; cbn [map zsum]; [lia|]. rewrite E. lia.
Qed.

Lemma terms_ext h g l : (∀ p, p ∈ l → h p.2 = g p.2) → terms h l = terms g l.
Proof. intros H. unfold terms. f_equal. apply map_ext_in. intros p Hp%list_elem_of_In. by rewrite H. Qed.

(** * The tables

    Input entry [n] of the permuted order is this sample, and the table of a
    block starts at entry 0 or [bands]. *)

Definition slot (b : bank) (n : nat) : nat :=
  let w := (2 * bands b)%nat in (n / w * w + (w - 1) - Z.to_nat (nth (n mod w) (order b) 0%Z))%nat.

Definition taps (b : bank) (consts : list Z) (off j : nat) : list (Z * nat) :=
  map (λ k, (nth k consts 0, slot b (off + k))) (polyphase_taps (bands b) j).
Definition live_taps (b : bank) (consts : list Z) (off j : nat) : list (Z * nat) :=
  map (λ p, (p.1, p.2 - off)%nat) (filter (λ p, p.1 ≠ 0) (taps b consts off j)).
Definition cosine_terms (b : bank) (consts : list Z) (perm : list nat) (i : nat) : list (Z * nat) :=
  zip (map (λ k, nth k consts 0) (cosine_taps (bands b) i)) perm.

(** The largest magnitude of accumulator [j] after the shift. *)
Definition lowpass_mass (b : bank) (consts : list Z) (j : nat) : Z := mass (map (λ k, nth k consts 0) (polyphase_taps (bands b) j)).
Definition lowpass_max (b : bank) (consts : list Z) (j : nat) : Z := (2 ^ 15 + 2 ^ 15 * lowpass_mass b consts j) / 2 ^ 16.

Definition in_range (b : bank) (consts : list Z) (off j : nat) : bool :=
  forallb (λ p, (p.1 =? 0) || ((off <=? p.2)%nat && (p.2 <? off + 10 * bands b)%nat)) (taps b consts off j).

Definition lowpass_table_ok (b : bank) (consts : list Z) (off : nat) (perm : list nat) (j : nat) : bool :=
  in_range b consts off j && (2 ^ 15 + 2 ^ 15 * lowpass_mass b consts j <? 2 ^ 31) && (lowpass_max b consts j <? 2 ^ 15) &&
  bool_decide (map (total (live_taps b consts off j)) (seq 0 (10 * bands b)) =
               map (group_coefficient b (nth j perm 0%nat)) (seq 0 (10 * bands b))).

Definition transform_table_ok (b : bank) (consts : list Z) (perm : list nat) (i : nat) : bool :=
  bool_decide (map (total (cosine_terms b consts perm i)) (seq 0 (bands b)) = map (cos_coefficient b i) (seq 0 (bands b))) &&
  (zsum (zip_with Z.mul (map (lowpass_max b consts) (seq 0 (bands b))) (map (λ k, Z.abs (nth k consts 0)) (cosine_taps (bands b) i)))
     <=? 2 ^ 31 - 2).

Definition bank_table_ok (b : bank) (consts : list Z) (off : nat) (perm : list nat) : bool :=
  forallb (lowpass_table_ok b consts off perm) (seq 0 (bands b)) && forallb (transform_table_ok b consts perm) (seq 0 (bands b)) &&
  bool_decide (length perm = bands b) && forallb (λ r, (r <? bands b)%nat) perm.

Example even4_ok : bank_table_ok bank4 analysis_consts_fixed4_simd_even 0 [0; 1; 2; 3]%nat = true.
Proof. vm_compute. reflexivity. Qed.
Example odd4_ok : bank_table_ok bank4 analysis_consts_fixed4_simd_odd 4 [1; 3; 0; 2]%nat = true.
Proof. vm_compute. reflexivity. Qed.
Example even8_ok : bank_table_ok bank8 analysis_consts_fixed8_simd_even 0 [0; 1; 2; 3; 4; 5; 6; 7]%nat = true.
Proof. vm_compute. reflexivity. Qed.
Example odd8_ok : bank_table_ok bank8 analysis_consts_fixed8_simd_odd 8 [4; 1; 2; 3; 0; 5; 6; 7]%nat = true.
Proof. vm_compute. reflexivity. Qed.

(** ** What an accepted table computes *)

Lemma mapM_ret {A B} (f : A → outcome B) (g : A → B) l : (∀ x, x ∈ l → f x = Ret (g x)) → mapM f l = Ret (map g l).
Proof.
  induction l as [|x l IH]; intros H; [done|]. cbn [mapM map].
  rewrite H by apply list_elem_of_here. rewrite outcome_bind_ret, IH by (intros y Hy; apply H; by apply list_elem_of_further). done.
Qed.

Section table.
Context (b : bank) (consts : list Z) (off : nat) (perm : list nat) (win : list Z) (h : nat → Z).
Context (Hok : bank_table_ok b consts off perm = true).
Context (Hwin : Forall i16_ok win).
Context (Hread : ∀ e, (e < 10 * bands b)%nat → (off ≤ slot b (off + e))%nat → nth e win 0 = h (slot b (off + e) - off)%nat).

Lemma table_parts : (∀ j, (j < bands b)%nat → lowpass_table_ok b consts off perm j = true) ∧
  (∀ i, (i < bands b)%nat → transform_table_ok b consts perm i = true) ∧ length perm = bands b ∧ Forall (λ r, (r < bands b)%nat) perm.
Proof.
  unfold bank_table_ok in Hok. rewrite !andb_true_iff, !forallb_forall, bool_decide_eq_true in Hok. destruct Hok as (((H1 & H2) & H3) & H4).
  split_and!; [intros j Hj; apply H1, in_seq; lia|intros i Hi; apply H2, in_seq; lia|done|].
  apply Forall_forall. intros r Hr%list_elem_of_In. by apply Nat.ltb_lt, H4.
Qed.

Lemma polyphase_taps_range m j k : (j < m)%nat → k ∈ polyphase_taps m j → (k < 10 * m)%nat.
Proof.
  intros Hj. unfold polyphase_taps. cbn [seq map concat app]. rewrite !elem_of_cons, elem_of_nil. naive_solver lia.
Qed.

Lemma win_bound k : Z.abs (nth k win 0) ≤ 2 ^ 15.
Proof.
  destruct (nth_in_or_default k win 0) as [Hin| ->]; [|done]. rewrite Forall_forall in Hwin.
  specialize (Hwin _ (proj2 (list_elem_of_In _ _) Hin)). unfold i16_ok in Hwin. lia.
Qed.

Definition reads (j : nat) : list (Z * Z) := map (λ k, (nth k win 0, nth k consts 0)) (polyphase_taps (bands b) j).

Lemma reads_weight j : weight (reads j) ≤ 2 ^ 15 * lowpass_mass b consts j.
Proof.
  etransitivity; [apply (weight_mass _ (2 ^ 15)); [lia|]|].
  - unfold reads. apply Forall_map, Forall_forall. intros k _. apply win_bound.
  - unfold reads, lowpass_mass. rewrite map_map. cbn [snd]. lia.
Qed.

Lemma reads_dot j : (j < bands b)%nat →
  products (reads j) = dot (10 * bands b) h (group_coefficient b (nth j perm 0%nat)).
Proof.
  intros Hj. pose proof (proj1 table_parts j Hj) as H. apply andb_true_iff in H as [H Ht]. rewrite !andb_true_iff in H. destruct H as [[Hr _] _].
  rewrite bool_decide_eq_true in Ht. unfold in_range in Hr. rewrite forallb_forall in Hr.
  assert (∀ p, p ∈ filter (λ p, p.1 ≠ 0) (taps b consts off j) → (off ≤ p.2 < off + 10 * bands b)%nat) as Hrange.
  { intros p [Hp0 Hp%list_elem_of_In]%list_elem_of_filter. specialize (Hr p Hp). apply orb_true_iff in Hr as [Hr|Hr].
    - by apply Z.eqb_eq in Hr.
    - rewrite andb_true_iff, Nat.leb_le, Nat.ltb_lt in Hr. done. }
  transitivity (terms h (live_taps b consts off j)).
  - transitivity (zsum (map (λ k, nth k win 0 * nth k consts 0) (polyphase_taps (bands b) j))).
    { unfold products, reads. by rewrite map_map. }
    transitivity (terms (λ n, h (n - off)%nat) (taps b consts off j)).
    + rewrite terms_nonzero. unfold taps in *.
      assert (∀ l, (∀ k, k ∈ l → (k < 10 * bands b)%nat) → (∀ p, p ∈ filter (λ p, p.1 ≠ 0) (map (λ k, (nth k consts 0, slot b (off + k))) l) →
        (off ≤ p.2 < off + 10 * bands b)%nat) → zsum (map (λ k, nth k win 0 * nth k consts 0) l) =
        terms (λ n, h (n - off)%nat) (filter (λ p, p.1 ≠ 0) (map (λ k, (nth k consts 0, slot b (off + k))) l))) as E.
      { induction l as [|k l IH]; intros Hk Hp; [done|]. cbn [map zsum] in *. revert Hp. rewrite filter_cons. cbn [fst].
        assert (∀ k, k ∈ l → (k < 10 * bands b)%nat) as Hk' by (intros k' ?; apply Hk; by apply list_elem_of_further).
        destruct (decide (nth k consts 0 ≠ 0)) as [|E0%dec_stable]; intros Hp.
        - rewrite IH; [|done|intros p ?; apply Hp; by apply list_elem_of_further]. unfold terms. cbn [map zsum fst snd].
          rewrite Hread; [done|apply Hk, list_elem_of_here|]. apply (Hp (nth k consts 0, slot b (off + k))), list_elem_of_here.
        - rewrite IH by done. rewrite E0. lia. }
      apply E; [intros k Hk; by eapply polyphase_taps_range|exact Hrange].
    + rewrite terms_nonzero. unfold live_taps, terms. by rewrite map_map.
  - rewrite (terms_dot (10 * bands b)).
    + apply dot_ext. intros k Hk. assert (k ∈ seq 0 (10 * bands b)) as Hin by (apply elem_of_seq; lia).
      apply list_elem_of_In in Hin. by apply (ext_in_map Ht).
    + unfold live_taps. apply Forall_map, Forall_forall. intros p Hp%Hrange. cbn [snd]. lia.
Qed.

Lemma lowpass_partial j : (j < bands b)%nat →
  lowpass (bands b) win consts j = Ret (partial b h (nth j perm 0%nat)) ∧ Z.abs (partial b h (nth j perm 0%nat)) ≤ lowpass_max b consts j.
Proof.
  intros Hj. pose proof (proj1 table_parts j Hj) as H. apply andb_true_iff in H as [H Ht]. rewrite !andb_true_iff, !Z.ltb_lt in H. destruct H as [[Hr H1] H2].
  pose proof (reads_weight j) as Hw. pose proof (products_bound (reads j)) as Hp. pose proof (reads_dot j Hj) as Ed.
  unfold lowpass, partial. fold (reads j). change (Z.shiftl 1 (SBC_PROTO_FIXED_SCALE - 1)) with (2 ^ 15).
  change SBC_PROTO_FIXED_SCALE with 16. rewrite macs_exact by lia. rewrite outcome_bind_ret, Ed. split; [done|].
  rewrite <- Ed. rewrite Z.shiftr_div_pow2 by lia. unfold lowpass_max in *. set (A := 2 ^ 15 * lowpass_mass b consts j) in *.
  change (2 ^ 15) with 32768 in *. change (2 ^ 16) with 65536 in *.
  pose proof (Z.div_mod (32768 + A) 65536 ltac:(lia)). pose proof (Z.mod_pos_bound (32768 + A) 65536 ltac:(lia)).
  pose proof (Z.div_mod (32768 + products (reads j)) 65536 ltac:(lia)). pose proof (Z.mod_pos_bound (32768 + products (reads j)) 65536 ltac:(lia)).
  rewrite to_i16_small by lia. lia.
Qed.

Lemma transform_subband i : (i < bands b)%nat →
  transform (bands b) (map (λ j, partial b h (nth j perm 0%nat)) (seq 0 (bands b))) consts i = Ret (subband b h i) ∧
  Z.abs (subband b h i) ≤ 2 ^ 31 - 2.
Proof.
  intros Hi. destruct table_parts as (_ & Ht & Hlen & Hperm). specialize (Ht i Hi). apply andb_true_iff in Ht as [Ht Hb].
  rewrite bool_decide_eq_true in Ht. apply Z.leb_le in Hb. unfold transform.
  change (SBC_COS_TABLE_FIXED_SCALE - SCALE_OUT_BITS) with 0.
  set (cs := map (λ k, nth k consts 0) (cosine_taps (bands b) i)) in *.
  assert (length cs = bands b) as Hlc by (subst cs; unfold cosine_taps; by rewrite !length_map, length_seq).
  set (t2 := map _ (seq 0 (bands b))).
  assert (products (zip t2 cs) = subband b h i) as Ep.
  { transitivity (terms (partial b h) (cosine_terms b consts perm i)).
    - unfold products, terms, cosine_terms. fold cs. subst t2. rewrite <- Hlen. clear -Hlc Hlen. rewrite <- Hlc in Hlen. clear Hlc.
      transitivity (zsum (zip_with (λ r c, partial b h r * c) perm cs)).
      + f_equal. clearbody cs. revert cs Hlen. induction perm as [|r l IH]; intros [|c cs] Hl; try done. cbn [length seq map zip_with] in *.
        cbn [nth]. f_equal. rewrite <- seq_shift, map_map. cbn [nth]. apply IH. lia.
      + f_equal. clearbody cs. revert cs Hlen. induction perm as [|r l IH]; intros [|c cs] Hl; try done. cbn [length map zip_with fst snd] in *.
        f_equal. apply IH. lia.
    - unfold subband. rewrite (terms_dot (bands b)).
      + apply dot_ext. intros k Hk. assert (k ∈ seq 0 (bands b)) as Hin by (apply elem_of_seq; lia).
        apply list_elem_of_In in Hin. by apply (ext_in_map Ht).
      + unfold cosine_terms. apply Forall_forall. intros p Hp.
        rewrite Forall_forall in Hperm. apply Hperm. apply list_elem_of_lookup in Hp as [n Hn]. apply lookup_zip_with_Some in Hn as (x & y & -> & _ & Hy).
        by eapply list_elem_of_lookup_2. }
  assert (weight (zip t2 cs) ≤ 2 ^ 31 - 2) as Hw.
  { etransitivity; [|exact Hb]. subst cs t2. unfold weight, cosine_taps. rewrite !map_map.
    assert (∀ l, (∀ j, j ∈ l → (j < bands b)%nat) → zsum (map (λ p, Z.abs (p.1 * p.2)) (zip (map (λ j, partial b h (nth j perm 0%nat)) l)
      (map (λ j, nth (10 * bands b + j / 2 * (2 * bands b) + 2 * i + j mod 2) consts 0) l))) ≤
      zsum (zip_with Z.mul (map (lowpass_max b consts) l) (map (λ j, Z.abs (nth (10 * bands b + j / 2 * (2 * bands b) + 2 * i + j mod 2) consts 0)) l))) as E.
    { induction l as [|j l IH]; intros Hl; cbn [map zip_with zsum fst snd]; [lia|]. apply Z.add_le_mono.
      - rewrite Z.abs_mul. apply Z.mul_le_mono_nonneg_r; [lia|]. apply lowpass_partial, Hl, list_elem_of_here.
      - apply IH. intros j' ?. apply Hl. by apply list_elem_of_further. }
    apply E. intros j Hj%elem_of_seq. lia. }
  pose proof (products_bound (zip t2 cs)) as Hp. rewrite macs_exact by lia. rewrite outcome_bind_ret, Z.shiftr_0_r, Ep. split; [done|].
  rewrite <- Ep. lia.
Qed.

Lemma analyze_reference : sbc_analyze_simd (bands b) win consts = Ret (analysis_filter b h) ∧
  Forall (λ v, Z.abs v ≤ 2 ^ 31 - 2) (analysis_filter b h).
Proof.
  unfold sbc_analyze_simd. rewrite (mapM_ret _ (λ j, partial b h (nth j perm 0%nat))).
  2:{ intros j Hj%elem_of_seq. apply lowpass_partial. lia. }
  rewrite outcome_bind_ret. rewrite (mapM_ret _ (subband b h)).
  2:{ intros i Hi%elem_of_seq. apply transform_subband. lia. }
  split; [done|]. unfold analysis_filter. apply Forall_map, Forall_forall. intros i Hi%elem_of_seq. apply transform_subband. lia.
Qed.
End table.

(** * The input buffers

    The value of a sample of the input, the new samples of a channel, and the
    history of a channel, newest first, silence before its start. *)

Definition pcm_value (big_endian : bool) (pcm : list Z) (i : Z) : Z :=
  let b0 := nth (Z.to_nat (i * 2)) pcm 0 in
  let b1 := nth (Z.to_nat (i * 2) + 1) pcm 0 in
  to_i16 (if big_endian then b0 * 256 + b1 else b1 * 256 + b0).

Definition channel_samples (big_endian : bool) (pcm : list Z) (nchannels ch : Z) (n : nat) : list Z :=
  map (λ i, pcm_value big_endian pcm (ch + Z.of_nat i * nchannels)) (seq 0 n).

Definition past (h : list Z) (k : nat) : Z := nth k h 0.

Definition bank_ok (b : bank) : Prop := b = bank4 ∨ b = bank8.

(** A row whose first [n] entries from [pos] on are the newest samples. *)
Definition samples_row_ok (b : bank) (row : list Z) (pos : Z) (n : nat) (h : list Z) : Prop :=
  Z.of_nat (length row) = SBC_X_BUFFER_SIZE ∧ Forall i16_ok row ∧ 0 ≤ pos ∧ pos + Z.of_nat n ≤ SBC_X_BUFFER_SIZE ∧
  ∀ e, (e < n)%nat → nth (Z.to_nat pos + e) row 0 = past h (slot b e).

Lemma to_i16_ok z : i16_ok (to_i16 z).
Proof. unfold i16_ok, to_i16. pose proof (Z.mod_pos_bound (z + 2 ^ 15) (2 ^ 16)). lia. Qed.

Lemma rd8_nth p : p ≠ [] → rd8 p = Ret (nth 0 p 0).
Proof. by destruct p. Qed.

Lemma nth_drop (l : list Z) k n : nth n (drop k l) 0 = nth (k + n) l 0.
Proof. revert l. induction k as [|k IH]; intros [|x l]; try done. - by destruct n. - apply IH. Qed.

Lemma PCM_spec big_endian pcm i :
  Forall byte_ok pcm → 0 ≤ i → i * 2 + 2 ≤ Z.of_nat (length pcm) → PCM big_endian pcm i = Ret (pcm_value big_endian pcm i).
Proof.
  intros Hb Hi Hl.
  assert (∀ n, (n < length pcm)%nat → byte_ok (nth n pcm 0)) as Hn.
  { intros n Hn. rewrite Forall_forall in Hb. apply Hb, list_elem_of_In, nth_In. done. }
  pose proof (Hn (Z.to_nat (i * 2)) ltac:(lia)) as H0. pose proof (Hn (Z.to_nat (i * 2) + 1)%nat ltac:(lia)) as H1. unfold byte_ok in *.
  assert (∀ k, (k < length pcm)%nat → drop k pcm ≠ []) as Hne.
  { intros k Hk E. apply (f_equal length) in E. rewrite length_drop in E. cbn [length] in E. lia. }
  unfold PCM, pcm_value. destruct big_endian; unfold unaligned16_be, unaligned16_le, adv; rewrite drop_drop;
    (rewrite !rd8_nth by (apply Hne; lia)); rewrite !outcome_bind_ret, !nth_drop, ?Nat.add_0_r;
    change (Z.to_nat 1) with 1%nat; do 2 f_equal.
  - rewrite Z.lor_comm, (lor_shiftl_add 8) by lia. lia.
  - rewrite (lor_shiftl_add 8) by lia. lia.
Qed.

Lemma order_range b i : bank_ok b → i ∈ order b → 0 ≤ i < 2 * Z.of_nat (bands b).
Proof.
  assert (forallb (λ i, (0 <=? i) && (i <? 8)) order4 = true ∧ forallb (λ i, (0 <=? i) && (i <? 16)) order8 = true) as [H4 H8]
    by (split; reflexivity).
  rewrite forallb_forall in H4, H8. intros [-> | ->] H%list_elem_of_In; [specialize (H4 _ H)|specialize (H8 _ H)]; cbn [bands bank4 bank8]; lia.
Qed.

Lemma length_order b : bank_ok b → length (order b) = (2 * bands b)%nat.
Proof. by intros [-> | ->]. Qed.

Lemma bands_pos b : bank_ok b → (0 < bands b)%nat.
Proof. intros [-> | ->]; cbn; lia. Qed.

Lemma slot_first b e : bank_ok b → (e < 2 * bands b)%nat → slot b e = (2 * bands b - 1 - Z.to_nat (nth e (order b) 0%Z))%nat.
Proof. intros Hb He. unfold slot. rewrite Nat.div_small, Nat.mod_small by lia. lia. Qed.

Lemma slot_add b e k : bank_ok b → slot b (k * (2 * bands b) + e) = (k * (2 * bands b) + slot b e)%nat.
Proof.
  intros Hb. pose proof (bands_pos b Hb). unfold slot. rewrite (Nat.add_comm (k * _) e), Nat.div_add, Nat.Div0.mod_add by lia.
  assert (Z.to_nat (nth (e mod (2 * bands b)) (order b) 0%Z) ≤ 2 * bands b - 1)%nat; [|lia].
  pose proof (order_range b (nth (e mod (2 * bands b)) (order b) 0) Hb) as Hr.
  rewrite list_elem_of_In in Hr. specialize (Hr (nth_In _ _ ltac:(rewrite length_order by done; apply Nat.mod_upper_bound; lia))). lia.
Qed.

Lemma nth_map_lt {A B} (f : A → B) l n d d' : (n < length l)%nat → nth n (map f l) d' = f (nth n l d).
Proof. intros. rewrite (nth_indep _ d' (f d)) by (by rewrite length_map). apply map_nth. Qed.

Lemma nth_channel_samples big_endian pcm nchannels ch n k : (k < n)%nat →
  nth k (channel_samples big_endian pcm nchannels ch n) 0 = pcm_value big_endian pcm (ch + Z.of_nat k * nchannels).
Proof. intros. unfold channel_samples. rewrite (nth_map_lt _ _ _ 0%nat) by (by rewrite length_seq). by rewrite seq_nth. Qed.

(** Writing into a row. *)
Lemma wr_row row off l :
  0 ≤ off → off + Z.of_nat (length l) ≤ Z.of_nat (length row) →
  ∃ row', wr row off l = Ret row' ∧ length row' = length row ∧ (∀ P : Z → Prop, Forall P row → Forall P l → Forall P row') ∧
    (∀ e, (e < length l)%nat → nth (Z.to_nat off + e) row' 0 = nth e l 0) ∧
    (∀ n, (n < Z.to_nat off ∨ Z.to_nat off + length l ≤ n)%nat → nth n row' 0 = nth n row 0).
Proof.
  intros H0 Hl. unfold wr. rewrite decide_True by done. eexists. split; [done|]. split_and!.
  - rewrite !length_app, length_take, length_drop. lia.
  - intros P Hr Hp. rewrite !Forall_app. auto using Forall_take, Forall_drop.
  - intros e He. rewrite app_nth2, length_take by (rewrite length_take; lia). rewrite app_nth1 by lia. f_equal. lia.
  - intros n [Hn|Hn].
    + rewrite app_nth1 by (rewrite length_take; lia). rewrite <- (take_drop (Z.to_nat off) row) at 2. rewrite app_nth1; [done|rewrite length_take; lia].
    + rewrite app_assoc, app_nth2 by (rewrite length_app, length_take; lia). rewrite nth_drop, length_app, length_take. f_equal. lia.
Qed.

Lemma past_app_first l h k : (k < length l)%nat → past (l ++ h) k = nth k l 0.
Proof. intros. unfold past. by rewrite app_nth1. Qed.
Lemma past_app_second l h k : past (l ++ h) (length l + k) = past h k.
Proof. unfold past. rewrite app_nth2 by lia. f_equal. lia. Qed.

Lemma length_channel_samples big_endian pcm nchannels ch n : length (channel_samples big_endian pcm nchannels ch n) = n.
Proof. unfold channel_samples. by rewrite length_map, length_seq. Qed.

Lemma store_samples_spec b big_endian row pos n h pcm nchannels ch :
  bank_ok b → samples_row_ok b row pos n h → 2 * Z.of_nat (bands b) ≤ pos → Forall byte_ok pcm → 0 ≤ ch < nchannels →
  2 * (2 * Z.of_nat (bands b) * nchannels) ≤ Z.of_nat (length pcm) →
  ∃ row', store_samples (order b) big_endian (pos - 2 * Z.of_nat (bands b)) pcm nchannels ch row = Ret row' ∧
    samples_row_ok b row' (pos - 2 * Z.of_nat (bands b)) (n + 2 * bands b) (rev (channel_samples big_endian pcm nchannels ch (2 * bands b)) ++ h).
Proof.
  intros Hb (Hl & Hi & Hp & Hn & Hrow) Hroom Hbytes Hch Hlen. unfold store_samples. pose proof (length_order b Hb) as Hlo.
  set (w := (2 * bands b)%nat) in *. assert (2 * Z.of_nat (bands b) = Z.of_nat w) as Ew by (subst w; lia). rewrite Ew in *.
  rewrite (mapM_ret _ (λ i, pcm_value big_endian pcm (ch + i * nchannels))).
  2:{ intros i Hio%(order_range b i Hb). rewrite Ew in Hio. apply PCM_spec; [done|nia|nia]. }
  rewrite outcome_bind_ret. set (l := map _ (order b)).
  assert (length l = w) as Hll by (subst l; by rewrite length_map).
  destruct (wr_row row (pos - Z.of_nat w) l ltac:(lia) ltac:(rewrite Hll; unfold SBC_X_BUFFER_SIZE in *; lia)) as (row' & E & Hl' & HF & Hnew & Hold).
  exists row'. split; [exact E|]. split_and!; try lia.
  - apply HF; [done|]. subst l. apply Forall_map, Forall_forall. intros. apply to_i16_ok.
  - intros e He. set (cs := channel_samples big_endian pcm nchannels ch w).
    assert (length (rev cs) = w) as Hlc by (rewrite length_rev; apply length_channel_samples).
    destruct (decide (e < w)%nat) as [Hew|Hew].
    + rewrite Hnew by lia. unfold w in Hew. rewrite slot_first by done. fold w.
      assert (nth e (order b) 0 ∈ order b) as Hin by (apply list_elem_of_In, nth_In; lia).
      apply (order_range b _ Hb) in Hin. rewrite Ew in Hin.
      rewrite past_app_first by lia. rewrite rev_nth by (rewrite <- Hlc, length_rev in *; lia).
      rewrite length_rev in Hlc. rewrite Hlc. replace (w - S (w - 1 - Z.to_nat (nth e (order b) 0%Z)))%nat with (Z.to_nat (nth e (order b) 0)) by lia.
      subst l cs. rewrite (nth_map_lt _ _ _ 0) by (rewrite Hlo; exact Hew). rewrite nth_channel_samples by (clearbody w; lia).
      rewrite Z2Nat.id by apply Hin. done.
    + rewrite Hold by lia. replace e with (1 * (2 * bands b) + (e - w))%nat at 2 by lia. rewrite slot_add by done.
      replace (1 * (2 * bands b))%nat with (length (rev cs)) by lia. rewrite past_app_second, <- Hrow by lia. f_equal. lia.
Qed.

(** ** The channels of a stream *)

Definition stream_ok (b : bank) (X : list (list Z)) (pos : Z) (n : nat) (hs : list (list Z)) : Prop :=
  length X = 2%nat ∧ ∀ ch h, hs !! ch = Some h → ∃ row, X !! ch = Some row ∧ samples_row_ok b row pos n h.

Definition push (big_endian : bool) (pcm : list Z) (n : nat) (hs : list (list Z)) : list (list Z) :=
  imap (λ ch h, rev (channel_samples big_endian pcm (Z.of_nat (length hs)) (Z.of_nat ch) n) ++ h) hs.

Lemma length_push big_endian pcm n hs : length (push big_endian pcm n hs) = length hs.
Proof. apply length_imap. Qed.

Lemma lookup_push big_endian pcm n hs ch h :
  push big_endian pcm n hs !! ch = Some h →
  ∃ h0, hs !! ch = Some h0 ∧ h = rev (channel_samples big_endian pcm (Z.of_nat (length hs)) (Z.of_nat ch) n) ++ h0.
Proof. unfold push. rewrite list_lookup_imap, fmap_Some. naive_solver. Qed.

Lemma each_channel_spec f (Q : nat → list Z → list Z → Prop) X n c :
  (n ≤ length X)%nat →
  (∀ i row, (i < n)%nat → X !! i = Some row → ∃ row', f (c + Z.of_nat i) row = Ret row' ∧ Q i row row') →
  ∃ X', each_channel n c f X = Ret X' ∧ length X' = length X ∧
    ∀ i row, (i < n)%nat → X !! i = Some row → ∃ row', X' !! i = Some row' ∧ Q i row row'.
Proof.
  revert Q X c. induction n as [|n IH]; intros Q X c Hn H.
  - exists X. split_and!; [by destruct X|done|intros; lia].
  - destruct X as [|row X]; [cbn [length] in Hn; lia|]. cbn [each_channel length] in *.
    destruct (H 0%nat row ltac:(lia) eq_refl) as (row' & E & HQ). replace (c + Z.of_nat 0) with c in E by lia.
    destruct (IH (λ i, Q (S i)) X (c + 1) ltac:(lia)) as (X' & EX & Hl & HX).
    { intros i r Hi Hr. destruct (H (S i) r ltac:(lia) Hr) as (r' & Er & Hr'). exists r'. split; [|done].
      by replace (c + 1 + Z.of_nat i) with (c + Z.of_nat (S i)) by lia. }
    exists (row' :: X'). rewrite E, outcome_bind_ret, EX, outcome_bind_ret. split; [done|]. split; [cbn; lia|].
    intros [|i] r Hi Hr; [injection Hr as <-; by exists row'|]. by apply HX; [lia|].
Qed.

Lemma pcm_value_adv big_endian pcm a i : 0 ≤ a → 0 ≤ i → pcm_value big_endian (adv (2 * a) pcm) i = pcm_value big_endian pcm (a + i).
Proof.
  intros Ha Hi. unfold pcm_value, adv. rewrite !nth_drop.
  replace (Z.to_nat (2 * a) + Z.to_nat (i * 2))%nat with (Z.to_nat ((a + i) * 2)) by lia.
  by replace (Z.to_nat (2 * a) + (Z.to_nat (i * 2) + 1))%nat with (Z.to_nat ((a + i) * 2) + 1)%nat by lia.
Qed.

Lemma channel_samples_add big_endian pcm nchannels ch a n : 0 ≤ ch → 0 ≤ nchannels →
  channel_samples big_endian pcm nchannels ch (a + n) =
  channel_samples big_endian pcm nchannels ch a ++ channel_samples big_endian (adv (2 * (Z.of_nat a * nchannels)) pcm) nchannels ch n.
Proof.
  intros Hc Hn. unfold channel_samples. rewrite seq_app, map_app. f_equal. rewrite Nat.add_0_l.
  rewrite <- (Nat.add_0_r a) at 1. rewrite <- fmap_add_seq. rewrite map_map. apply map_ext. intros i.
  rewrite pcm_value_adv by nia. f_equal. nia.
Qed.

Lemma push_add big_endian pcm hs a n :
  push big_endian (adv (2 * (Z.of_nat a * Z.of_nat (length hs))) pcm) n (push big_endian pcm a hs) = push big_endian pcm (a + n) hs.
Proof.
  apply list_eq. intros ch. unfold push. rewrite !list_lookup_imap, length_imap. destruct (hs !! ch) as [h|]; [|done]. cbn. f_equal.
  rewrite channel_samples_add by lia. by rewrite rev_app_distr, app_assoc.
Qed.

Lemma process_groups_spec b big_endian k :
  bank_ok b → ∀ fuel X pos n hs pcm, (k ≤ fuel)%nat → stream_ok b X pos n hs → (length hs ≤ 2)%nat →
  Z.of_nat (k * (2 * bands b)) ≤ pos → Forall byte_ok pcm → 2 * (Z.of_nat (k * (2 * bands b)) * Z.of_nat (length hs)) ≤ Z.of_nat (length pcm) →
  ∃ X', process_groups fuel (order b) big_endian pos pcm X (Z.of_nat (k * (2 * bands b))) (Z.of_nat (length hs)) =
      Ret (pos - Z.of_nat (k * (2 * bands b)), X') ∧
    stream_ok b X' (pos - Z.of_nat (k * (2 * bands b))) (n + k * (2 * bands b)) (push big_endian pcm (k * (2 * bands b)) hs).
Proof.
  intros Hb. pose proof (bands_pos b Hb) as Hm. pose proof (length_order b Hb) as Hlo.
  induction k as [|k IH]; intros fuel X pos n hs pcm Hfuel HX Hhs Hpos Hbytes Hlen.
  - exists X. replace (pos - Z.of_nat (0 * (2 * bands b))) with pos by lia. replace (n + 0 * (2 * bands b))%nat with n by lia. split.
    + destruct fuel; cbn [process_groups]; rewrite (proj2 (Z.ltb_lt _ _)) by lia; done.
    + assert (push big_endian pcm (0 * (2 * bands b)) hs = hs) as ->; [|done].
      apply list_eq. intros ch. unfold push. rewrite list_lookup_imap. by destruct (hs !! ch).
  - destruct fuel as [|fuel]; [lia|]. cbn [process_groups]. rewrite Hlo, (proj2 (Z.ltb_ge _ _)) by lia.
    replace (Z.of_nat (S k * (2 * bands b))) with (Z.of_nat (k * (2 * bands b)) + Z.of_nat (2 * bands b)) in * by lia.
    set (kw := Z.of_nat (k * (2 * bands b))) in *. assert (0 ≤ kw) by lia.
    destruct HX as [HlX HX].
    destruct (each_channel_spec (store_samples (order b) big_endian (pos - Z.of_nat (2 * bands b)) pcm (Z.of_nat (length hs)))
      (λ i row row', ∀ h, hs !! i = Some h → samples_row_ok b row' (pos - Z.of_nat (2 * bands b)) (n + 2 * bands b)
         (rev (channel_samples big_endian pcm (Z.of_nat (length hs)) (Z.of_nat i) (2 * bands b)) ++ h)) X (length hs) 0) as (X1 & E1 & Hl1 & H1).
    { lia. }
    { intros i row Hi Hrow. destruct (lookup_lt_is_Some_2 hs i Hi) as [h Hh]. destruct (HX i h Hh) as (row1 & Er & Hr). simplify_eq.
      destruct (store_samples_spec b big_endian row pos n h pcm (Z.of_nat (length hs)) (Z.of_nat i) Hb Hr ltac:(lia) Hbytes ltac:(lia) ltac:(nia))
        as (row' & E & Hr'). replace (2 * Z.of_nat (bands b)) with (Z.of_nat (2 * bands b)) in * by lia.
      exists row'. split; [exact E|]. intros h' Hh'. by simplify_eq. }
    rewrite Nat2Z.id, E1, outcome_bind_ret.
    assert (stream_ok b X1 (pos - Z.of_nat (2 * bands b)) (n + 2 * bands b) (push big_endian pcm (2 * bands b) hs)) as HX1.
    { split; [lia|]. intros ch h (h0 & Hh0 & ->)%lookup_push. destruct (HX ch h0 Hh0) as (row & Er & _).
      assert (ch < length hs)%nat by (by eapply lookup_lt_Some). destruct (H1 ch row ltac:(done) Er) as (row' & Er' & HQ). exists row'. auto. }
    destruct (IH fuel X1 (pos - Z.of_nat (2 * bands b)) (n + 2 * bands b)%nat _ (adv (2 * (Z.of_nat (2 * bands b) * Z.of_nat (length hs))) pcm)
      ltac:(lia) HX1) as (X2 & E2 & HX2).
    { rewrite length_push. lia. } { lia. } { by apply Forall_drop. }
    { rewrite length_push. unfold adv. rewrite length_drop. nia. }
    rewrite length_push in E2. exists X2.
    replace (kw + Z.of_nat (2 * bands b) - Z.of_nat (2 * bands b)) with kw by lia.
    replace (2 * Z.of_nat (2 * bands b) * Z.of_nat (length hs)) with (2 * (Z.of_nat (2 * bands b) * Z.of_nat (length hs))) by lia.
    rewrite E2. replace (pos - (kw + Z.of_nat (2 * bands b))) with (pos - Z.of_nat (2 * bands b) - kw) by lia. split; [done|].
    rewrite push_add in HX2. replace (n + S k * (2 * bands b))%nat with (n + 2 * bands b + k * (2 * bands b))%nat by lia.
    by replace (S k * (2 * bands b))%nat with (2 * bands b + k * (2 * bands b))%nat by lia.
Qed.

Lemma samples_row_ok_fewer b row pos n n' h : (n' ≤ n)%nat → samples_row_ok b row pos n h → samples_row_ok b row pos n' h.
Proof. intros Hn (H1 & H2 & H3 & H4 & H5). split_and!; try done; [lia|]. intros e He. apply H5. lia. Qed.

Lemma wrap_row_spec b row pos tail h :
  samples_row_ok b row pos tail h → pos + Z.of_nat tail ≤ SBC_X_BUFFER_SIZE - Z.of_nat tail →
  ∃ row', wrap_row (Z.of_nat tail) pos row = Ret row' ∧ samples_row_ok b row' (SBC_X_BUFFER_SIZE - Z.of_nat tail) tail h.
Proof.
  intros (H1 & H2 & H3 & H4 & H5) Hpos. unfold wrap_row. rewrite (proj2 (Z.leb_le _ _)) by done. rewrite Nat2Z.id.
  rewrite rd_ok by (unfold adv; rewrite length_drop; unfold SBC_X_BUFFER_SIZE in *; lia). rewrite outcome_bind_ret.
  set (l := take tail (adv pos row)).
  assert (length l = tail) as Hl by (subst l; unfold adv; rewrite length_take, length_drop; unfold SBC_X_BUFFER_SIZE in *; lia).
  destruct (wr_row row (SBC_X_BUFFER_SIZE - Z.of_nat tail) l ltac:(lia) ltac:(lia)) as (row' & E & Hl' & HF & Hnew & _).
  exists row'. split; [exact E|]. split_and!; try lia.
  - apply HF; [done|]. subst l. by apply Forall_take, Forall_drop.
  - intros e He. rewrite Hnew by lia. rewrite <- H5 by done. subst l. unfold adv. rewrite <- nth_drop.
    rewrite <- (take_drop tail (drop (Z.to_nat pos) row)) at 2. rewrite app_nth1; [done|]. unfold adv in Hl. lia.
Qed.

Definition tail (b : bank) : nat := 9 * bands b.

Lemma process_input_spec b big_endian (blocks : nat) X pos hs pcm :
  bank_ok b → (0 < blocks ≤ 16)%nat → (blocks mod 2 = 0)%nat → stream_ok b X pos (tail b) hs → (length hs ≤ 2)%nat → 0 ≤ pos →
  Forall byte_ok pcm → 2 * (Z.of_nat (blocks * bands b) * Z.of_nat (length hs)) ≤ Z.of_nat (length pcm) →
  ∃ X' pos', process_input (order b) (Z.of_nat (tail b)) pos pcm X (Z.of_nat (blocks * bands b)) (Z.of_nat (length hs)) big_endian = Ret (pos', X') ∧
    stream_ok b X' pos' (tail b + blocks * bands b) (push big_endian pcm (blocks * bands b) hs) ∧ 0 ≤ pos'.
Proof.
  intros Hb Hbl Heven HX Hhs Hpos Hbytes Hlen. unfold process_input.
  assert ((bands b = 4 ∨ bands b = 8)%nat) as Hm by (destruct Hb as [-> | ->]; auto).
  assert (∃ k, blocks * bands b = k * (2 * bands b))%nat as [k Ek].
  { exists (blocks / 2)%nat. pose proof (Nat.div_mod_eq blocks 2). nia. }
  assert (Z.of_nat (tail b) = 9 * Z.of_nat (bands b)) as Et by (unfold tail; lia).
  assert (blocks * bands b ≤ 16 * bands b)%nat as Hk by nia.
  assert (∃ X1 pos1, (if pos <? Z.of_nat (blocks * bands b)
     then X ← each_channel (Z.to_nat (Z.of_nat (length hs))) 0 (λ _, wrap_row (Z.of_nat (tail b)) pos) X; Ret (SBC_X_BUFFER_SIZE - Z.of_nat (tail b), X)
     else Ret (pos, X)) = Ret (pos1, X1) ∧ stream_ok b X1 pos1 (tail b) hs ∧ Z.of_nat (blocks * bands b) ≤ pos1) as (X1 & pos1 & -> & HX1 & Hp1).
  { destruct (Z.ltb_spec pos (Z.of_nat (blocks * bands b))).
    - destruct HX as [HlX HX].
      destruct (each_channel_spec (λ _, wrap_row (Z.of_nat (tail b)) pos)
        (λ i row row', ∀ h, hs !! i = Some h → samples_row_ok b row' (SBC_X_BUFFER_SIZE - Z.of_nat (tail b)) (tail b) h) X (length hs) 0)
        as (X1 & E1 & Hl1 & H1).
      { lia. }
      { intros i row Hi Hrow. destruct (lookup_lt_is_Some_2 hs i Hi) as [h Hh]. destruct (HX i h Hh) as (row1 & Er & Hr). simplify_eq.
        destruct (wrap_row_spec b row pos (tail b) h Hr) as (row' & E & Hr').
        { unfold SBC_X_BUFFER_SIZE. destruct Hm as [Hm|Hm]; rewrite Hm in *; lia. }
        exists row'. split; [exact E|]. intros h' Hh'. by simplify_eq. }
      rewrite Nat2Z.id, E1, outcome_bind_ret. eexists X1, _. split; [done|]. split.
      + split; [lia|]. intros ch h Hh. destruct (HX ch h Hh) as (row & Er & _).
        assert (ch < length hs)%nat by (by eapply lookup_lt_Some). destruct (H1 ch row ltac:(done) Er) as (row' & Er' & HQ). exists row'. auto.
      + unfold SBC_X_BUFFER_SIZE. destruct Hm as [Hm|Hm]; rewrite Hm in *; lia.
    - by eexists X, pos. }
  rewrite outcome_bind_ret. cbv iota. rewrite Nat2Z.id. rewrite Ek in *.
  destruct (process_groups_spec b big_endian k Hb (k * (2 * bands b)) X1 pos1 (tail b) hs pcm ltac:(nia) HX1 Hhs ltac:(lia) Hbytes Hlen) as (X2 & E2 & HX2).
  eexists X2, _. split; [exact E2|]. split; [done|]. lia.
Qed.

(** * The blocks of a frame

    Block [bl] of a frame of [n] blocks is the reference filter at the time its
    last sample came in. *)

Definition block_output (b : bank) (h : list Z) (n bl : nat) : list Z :=
  analysis_filter b (λ k, past h (k + (n - 1 - bl) * bands b)).

Definition even_table (b : bank) : list Z := if (bands b =? 4)%nat then analysis_consts_fixed4_simd_even else analysis_consts_fixed8_simd_even.
Definition odd_table (b : bank) : list Z := if (bands b =? 4)%nat then analysis_consts_fixed4_simd_odd else analysis_consts_fixed8_simd_odd.

Lemma window_spec b row pos n h a : bank_ok b → samples_row_ok b row pos n h → (a + 10 * bands b ≤ n)%nat →
  ∃ win, window (10 * bands b) (pos + Z.of_nat a) row = Ret win ∧ Forall i16_ok win ∧
    ∀ e, (e < 10 * bands b)%nat → nth e win 0 = past h (slot b (a + e)).
Proof.
  intros Hb (H1 & H2 & H3 & H4 & H5) Ha. unfold window. rewrite (proj2 (Z.ltb_ge _ _)) by lia. unfold SBC_X_BUFFER_SIZE in *.
  rewrite rd_ok by (unfold adv; rewrite length_drop; lia). eexists. split; [done|]. split; [by apply Forall_take, Forall_drop|].
  intros e He. rewrite <- H5 by lia. unfold adv. replace (Z.to_nat (pos + Z.of_nat a)) with (Z.to_nat pos + a)%nat by lia.
  rewrite Nat.add_assoc, <- nth_drop. rewrite <- (take_drop (10 * bands b) (drop (Z.to_nat pos + a) row)) at 2.
  rewrite app_nth1; [done|]. rewrite length_take, length_drop. lia.
Qed.

Lemma analyze_window b row pos n h c : bank_ok b → samples_row_ok b row pos n h → (c * bands b + 10 * bands b ≤ n)%nat →
  (win ← window (10 * bands b) (pos + Z.of_nat (c * bands b)) row;
   sbc_analyze_simd (bands b) win (if Nat.even c then even_table b else odd_table b)) =
    Ret (analysis_filter b (λ k, past h (k + c * bands b))) ∧
  Forall (λ v, Z.abs v ≤ 2 ^ 31 - 2) (analysis_filter b (λ k, past h (k + c * bands b))).
Proof.
  intros Hb Hrow Hn. destruct (window_spec b row pos n h (c * bands b) Hb Hrow Hn) as (win & -> & Hwin & Hnth). rewrite outcome_bind_ret.
  destruct (Nat.even c) eqn:Ec.
  - apply Nat.even_spec in Ec as [k ->].
    assert (∃ perm, bank_table_ok b (even_table b) 0 perm = true) as [perm Hok].
    { destruct Hb as [-> | ->]; eexists; [exact even4_ok|exact even8_ok]. }
    apply (analyze_reference b _ 0 perm win _ Hok Hwin). intros e He _. rewrite Hnth by done. rewrite Nat.add_0_l, Nat.sub_0_r.
    replace (2 * k * bands b + e)%nat with (k * (2 * bands b) + e)%nat by lia. rewrite slot_add by done. f_equal. lia.
  - assert (∃ k, c = 2 * k + 1)%nat as [k ->].
    { apply Nat.odd_spec. unfold Nat.odd. by rewrite Ec. }
    assert (∃ perm, bank_table_ok b (odd_table b) (bands b) perm = true) as [perm Hok].
    { destruct Hb as [-> | ->]; eexists; [exact odd4_ok|exact odd8_ok]. }
    apply (analyze_reference b _ (bands b) perm win _ Hok Hwin). intros e He Hs. rewrite Hnth by done.
    replace ((2 * k + 1) * bands b + e)%nat with (k * (2 * bands b) + (bands b + e))%nat by lia. rewrite slot_add by done. f_equal. lia.
Qed.

Definition analyze_4b (b : bank) (row : list Z) (x : Z) : outcome (list (list Z)) :=
  mapM (λ p, win ← window (10 * bands b) (x + p.1) row; sbc_analyze_simd (bands b) win p.2)
    [(Z.of_nat (3 * bands b), odd_table b); (Z.of_nat (2 * bands b), even_table b);
     (Z.of_nat (1 * bands b), odd_table b); (Z.of_nat (0 * bands b), even_table b)].

Lemma analyze_4b_spec b row pos n h g : bank_ok b → samples_row_ok b row pos n h → (4 * g * bands b + 13 * bands b ≤ n)%nat →
  analyze_4b b row (pos + Z.of_nat (4 * g * bands b)) =
    Ret (map (λ c, analysis_filter b (λ k, past h (k + c * bands b))) [4 * g + 3; 4 * g + 2; 4 * g + 1; 4 * g]%nat) ∧
  Forall (Forall (λ v, Z.abs v ≤ 2 ^ 31 - 2)) (map (λ c, analysis_filter b (λ k, past h (k + c * bands b))) [4 * g + 3; 4 * g + 2; 4 * g + 1; 4 * g]%nat).
Proof.
  intros Hb Hrow Hn.
  assert (∀ q, (q ≤ 3)%nat → (win ← window (10 * bands b) (pos + Z.of_nat (4 * g * bands b) + Z.of_nat (q * bands b)) row;
    sbc_analyze_simd (bands b) win (if Nat.even q then even_table b else odd_table b)) =
    Ret (analysis_filter b (λ k, past h (k + (4 * g + q) * bands b))) ∧
    Forall (λ v, Z.abs v ≤ 2 ^ 31 - 2) (analysis_filter b (λ k, past h (k + (4 * g + q) * bands b)))) as H.
  { intros q Hq. pose proof (analyze_window b row pos n h (4 * g + q) Hb Hrow ltac:(nia)) as HW.
    replace (pos + Z.of_nat (4 * g * bands b) + Z.of_nat (q * bands b)) with (pos + Z.of_nat ((4 * g + q) * bands b)) by lia.
    assert (Nat.even (4 * g + q) = Nat.even q) as Ee by (rewrite Nat.even_add, Nat.even_mul; by destruct (Nat.even q)).
    by rewrite Ee in HW. }
  destruct (H 3%nat ltac:(lia)) as [E3 F3]. destruct (H 2%nat ltac:(lia)) as [E2 F2]. destruct (H 1%nat ltac:(lia)) as [E1 F1].
  destruct (H 0%nat ltac:(lia)) as [E0 F0]. cbn [Nat.even] in *. rewrite Nat.add_0_r in *. unfold analyze_4b. cbn [mapM fst snd map].
  rewrite E3, outcome_bind_ret, E2, outcome_bind_ret, E1, outcome_bind_ret, E0, outcome_bind_ret. split; [done|]. by repeat constructor.
Qed.

Lemma analyze_channel_spec b row pos h n : bank_ok b → ∀ g, samples_row_ok b row pos n h → (4 * g * bands b + 9 * bands b ≤ n)%nat →
  let outputs := map (λ bl, analysis_filter b (λ k, past h (k + (4 * g - 1 - bl) * bands b))) (seq 0 (4 * g)) in
  analyze_channel g (analyze_4b b) row (pos + Z.of_nat (4 * g * bands b) - Z.of_nat (4 * bands b)) (Z.of_nat (4 * bands b)) = Ret outputs ∧
  Forall (Forall (λ v, Z.abs v ≤ 2 ^ 31 - 2)) outputs.
Proof.
  intros Hb. induction g as [|g IH]; intros Hrow Hn; cbv zeta; [by split|]. cbn [analyze_channel].
  destruct (analyze_4b_spec b row pos n h g Hb Hrow ltac:(lia)) as [E F].
  destruct (IH Hrow ltac:(lia)) as [EI FI].
  replace (pos + Z.of_nat (4 * S g * bands b) - Z.of_nat (4 * bands b)) with (pos + Z.of_nat (4 * g * bands b)) by lia.
  rewrite E, outcome_bind_ret, EI, outcome_bind_ret.
  assert (map (λ bl, analysis_filter b (λ k, past h (k + (4 * S g - 1 - bl) * bands b))) (seq 0 (4 * S g)) =
    map (λ c, analysis_filter b (λ k, past h (k + c * bands b))) [4 * g + 3; 4 * g + 2; 4 * g + 1; 4 * g]%nat ++
    map (λ bl, analysis_filter b (λ k, past h (k + (4 * g - 1 - bl) * bands b))) (seq 0 (4 * g))) as ->; [|by rewrite Forall_app].
  replace (4 * S g)%nat with (4 + 4 * g)%nat by lia. rewrite seq_app, map_app. f_equal.
  - cbn [seq map]. replace (4 + 4 * g - 1 - 0)%nat with (4 * g + 3)%nat by lia. replace (4 + 4 * g - 1 - 1)%nat with (4 * g + 2)%nat by lia.
    replace (4 + 4 * g - 1 - 2)%nat with (4 * g + 1)%nat by lia. by replace (4 + 4 * g - 1 - 3)%nat with (4 * g)%nat by lia.
  - rewrite Nat.add_0_l, <- (Nat.add_0_r 4) at 1. rewrite <- fmap_add_seq, map_map. apply map_ext. intros bl.
    by replace (4 + 4 * g - 1 - (4 + bl))%nat with (4 * g - 1 - bl)%nat by lia.
Qed.

(** * Scale factors *)

Lemma significant_log2 fuel x cnt : 0 ≤ x < 2 ^ Z.of_nat fuel → significant fuel x cnt = cnt + (if x =? 0 then 0 else Z.log2 x + 1).
Proof.
  revert x cnt. induction fuel as [|fuel IH]; intros x cnt Hx; cbn [significant].
  - change (2 ^ Z.of_nat 0) with 1 in Hx. assert (x = 0) as -> by lia. change (0 =? 0) with true. cbv iota. lia.
  - destruct (Z.eqb_spec x 0) as [|Hx0]; [lia|]. rewrite Nat2Z.inj_succ, Z.pow_succ_r in Hx by lia.
    rewrite IH. 2:{ rewrite Z.shiftr_div_pow2 by lia. change (2 ^ 1) with 2. split; [apply Z.div_pos; lia|apply Z.div_lt_upper_bound; lia]. }
    destruct (decide (x = 1)) as [->|].
    + change (Z.shiftr 1 1 =? 0) with true. change (Z.log2 1) with 0. cbv iota. lia.
    + assert (1 ≤ Z.log2 x) by (apply (Z.log2_le_mono 2); lia). rewrite Z.log2_shiftr by lia.
      assert (Z.shiftr x 1 ≠ 0) as Hne.
      { rewrite Z.shiftr_div_pow2 by lia. change (2 ^ 1) with 2. assert (1 ≤ x / 2); [|lia]. apply Z.div_le_lower_bound; lia. }
      rewrite (proj2 (Z.eqb_neq _ _) Hne). lia.
Qed.

Lemma clz_log2 x : 0 < x < 2 ^ 32 → sbc_clz x = 31 - Z.log2 x.
Proof. intros Hx. unfold sbc_clz. rewrite (significant_log2 32) by lia. rewrite (proj2 (Z.eqb_neq x 0)) by lia. lia. Qed.

Lemma magnitudes_spec col x :
  Forall (λ s, Z.abs s ≤ 2 ^ 31 - 2) col → 0 < x < 2 ^ 31 →
  ∃ x', magnitudes col x = Ret x' ∧ 0 < x' < 2 ^ 31 ∧ Z.log2 x ≤ Z.log2 x' ∧ Forall (λ s, Z.abs s ≤ 2 ^ (Z.log2 x' + 1)) col.
Proof.
  intros H. revert x. induction H as [|s col Hs _ IH]; intros x Hx; cbn [magnitudes].
  - exists x. split_and!; try done; lia.
  - assert (fabs s = Ret (Z.abs s)) as ->.
    { unfold fabs. destruct (Z.ltb_spec s 0); [rewrite int32_ret by lia|]; f_equal; lia. }
    rewrite outcome_bind_ret. destruct (Z.eqb_spec (Z.abs s) 0) as [E0|E0].
    + destruct (IH x Hx) as (x' & -> & H1 & H2 & H3). exists x'. split_and!; try done; try lia. constructor; [|done].
      rewrite E0. apply Z.pow_nonneg. lia.
    + set (t := Z.abs s - 1). assert (to_u32 t = t) as -> by (apply Z.mod_small; subst t; lia).
      assert (0 < Z.lor x t) as Hpos.
      { assert (0 ≤ Z.lor x t) by (apply Z.lor_nonneg; subst t; lia). assert (Z.lor x t ≠ 0) by (rewrite Z.lor_eq_0_iff; lia). lia. }
      assert (Z.log2 (Z.lor x t) = Z.max (Z.log2 x) (Z.log2 t)) as El by (apply Z.log2_lor; subst t; lia).
      assert (Z.log2 x < 31) by (apply Z.log2_lt_pow2; lia).
      assert (Z.log2 t < 31) by (destruct (decide (t = 0)) as [->|]; [reflexivity|apply Z.log2_lt_pow2; subst t; lia]).
      destruct (IH (Z.lor x t)) as (x' & -> & H1 & H2 & H3).
      { split; [done|]. apply Z.log2_lt_pow2; lia. }
      exists x'. split_and!; try done; try lia. constructor; [|done].
      assert (t < 2 ^ (Z.log2 x' + 1)); [|subst t; lia]. pose proof (Z.log2_nonneg x'). destruct (decide (t = 0)) as [->|].
      * apply Z.pow_pos_nonneg; lia.
      * apply Z.log2_lt_pow2; [subst t; lia|]. lia.
Qed.

(** The samples of a frame: blocks of [nch] rows of [nsb] subbands. *)
Definition shape (nch nsb : nat) (samples : list (list (list Z))) : Prop :=
  Forall (λ block, length block = nch ∧ Forall (λ row, length row = nsb ∧ Forall (λ s, Z.abs s ≤ 2 ^ 31 - 2) row) block) samples.

Lemma scale_of_spec nch nsb samples ch sb : shape nch nsb samples → (ch < nch)%nat → (sb < nsb)%nat →
  ∃ sf, scale_of samples ch sb = Ret sf ∧ 0 ≤ sf < 16 ∧ Forall (λ s, sample_fits sf s) (column sb ch samples).
Proof.
  intros Hs Hch Hsb. assert (Forall (λ s, Z.abs s ≤ 2 ^ 31 - 2) (column sb ch samples)) as Hcol.
  { unfold column. apply Forall_map. eapply Forall_impl; [exact Hs|]. cbn. intros block [Hl HF]. rewrite Forall_forall in HF.
    destruct (HF (nth ch block [])) as [Hlr HFr]; [apply list_elem_of_In, nth_In; lia|]. rewrite Forall_forall in HFr.
    apply HFr, list_elem_of_In, nth_In. lia. }
  unfold scale_of. change (Z.shiftl 1 SCALE_OUT_BITS) with (2 ^ 15).
  destruct (magnitudes_spec _ (2 ^ 15) Hcol ltac:(lia)) as (x & -> & Hx & Hl & HF). rewrite outcome_bind_ret.
  change (Z.log2 (2 ^ 15)) with 15 in Hl. assert (Z.log2 x < 31) by (apply Z.log2_lt_pow2; lia).
  exists (Z.log2 x - 15). split.
  - rewrite clz_log2 by lia. unfold SCALE_OUT_BITS, to_u32. rewrite Z.mod_small by lia. f_equal. lia.
  - split; [lia|]. rewrite Forall_forall in *. intros s Hin. split; [|by apply Hcol].
    replace (Z.log2 x - 15 + 16) with (Z.log2 x + 1) by lia. by apply HF.
Qed.

Lemma mapM_exists {A B} (f : A → outcome B) (P : A → B → Prop) l :
  (∀ x, x ∈ l → ∃ y, f x = Ret y ∧ P x y) → ∃ ys, mapM f l = Ret ys ∧ Forall2 P l ys.
Proof.
  induction l as [|x l IH]; intros H; [by exists []|]. destruct (H x) as (y & E & HP); [apply list_elem_of_here|].
  destruct IH as (ys & E' & HF); [intros z Hz; apply H; by apply list_elem_of_further|].
  exists (y :: ys). cbn [mapM]. rewrite E, outcome_bind_ret, E', outcome_bind_ret. by split; [|constructor].
Qed.

Lemma Forall2_seq_iff {A B} (P : A → B → Prop) (l : list A) (k : list B) (da : A) (db : B) :
  length l = length k → (∀ i, (i < length l)%nat → P (nth i l da) (nth i k db)) → Forall2 P l k.
Proof.
  revert k. induction l as [|x l IH]; intros [|y k] Hl H; try done. cbn [length] in *.
  constructor; [apply (H 0%nat); lia|]. apply IH; [lia|]. intros i Hi. apply (H (S i)). lia.
Qed.

Lemma calc_scalefactors_spec nch nsb samples : shape nch nsb samples →
  ∃ factors, sbc_calc_scalefactors samples (Z.of_nat nch) (Z.of_nat nsb) = Ret factors ∧ length factors = nch ∧
    Forall (λ row, length row = nsb ∧ Forall (λ sf, 0 ≤ sf < 16) row) factors ∧ Forall (block_fits factors) samples.
Proof.
  intros Hs. unfold sbc_calc_scalefactors. rewrite !Nat2Z.id.
  set (P := λ ch sb sf, 0 ≤ sf < 16 ∧ Forall (λ s, sample_fits sf s) (column sb ch samples)).
  destruct (mapM_exists (λ ch, mapM (scale_of samples ch) (seq 0 nsb)) (λ ch row, Forall2 (P ch) (seq 0 nsb) row) (seq 0 nch)) as (factors & E & HF).
  { intros ch Hch%elem_of_seq. apply mapM_exists. intros sb Hsb%elem_of_seq. by apply (scale_of_spec nch nsb); try lia. }
  exists factors. split; [exact E|]. pose proof (Forall2_length _ _ _ HF) as Hl. rewrite length_seq in Hl. split; [done|].
  assert (∀ ch, (ch < nch)%nat → Forall2 (P ch) (seq 0 nsb) (nth ch factors [])) as Hrow.
  { intros ch Hch. assert (∃ row, factors !! ch = Some row) as [row Hr] by (apply lookup_lt_is_Some_2; lia).
    rewrite Forall2_lookup in HF. specialize (HF ch). rewrite lookup_seq_lt, Hr in HF by done. inversion HF as [? ? HP|]; subst.
    rewrite (nth_lookup_Some _ _ _ _ Hr). done. }
  split.
  - apply Forall_forall. intros row (ch & Hr)%list_elem_of_lookup. pose proof (lookup_lt_Some _ _ _ Hr) as Hlt.
    specialize (Hrow ch ltac:(lia)). rewrite (nth_lookup_Some _ _ _ _ Hr) in Hrow. pose proof (Forall2_length _ _ _ Hrow) as Hlr.
    rewrite length_seq in Hlr. split; [done|]. apply Forall_forall. intros sf (sb & Hsf)%list_elem_of_lookup.
    rewrite Forall2_lookup in Hrow. specialize (Hrow sb). rewrite Hsf in Hrow. inversion Hrow as [? ? [HP _]|]; subst. done.
  - apply Forall_forall. intros block Hblock. pose proof Hs as Hs'. unfold shape in Hs'. rewrite Forall_forall in Hs'. destruct (Hs' block Hblock) as [Hlb HFb].
    apply (Forall2_seq_iff _ _ _ [] []); [lia|]. intros ch Hch. specialize (Hrow ch ltac:(lia)).
    pose proof (Forall2_length _ _ _ Hrow) as Hlr. rewrite length_seq in Hlr. rewrite Forall_forall in HFb.
    destruct (HFb (nth ch block [])) as [Hlbr _]; [apply list_elem_of_In, nth_In; lia|].
    apply (Forall2_seq_iff _ _ _ 0 0); [lia|]. intros sb Hsb. rewrite Forall2_lookup in Hrow. specialize (Hrow sb).
    rewrite lookup_seq_lt in Hrow by lia. destruct (nth ch factors [] !! sb) as [sf|] eqn:Hsf; [|inversion Hrow].
    inversion Hrow as [? ? [_ HP]|]; subst. rewrite (nth_lookup_Some _ _ _ _ Hsf). rewrite Forall_forall in HP. apply HP.
    unfold column. apply list_elem_of_In, in_map_iff. exists block. split; [done|]. by apply list_elem_of_In.
Qed.

(** * A frame *)

Definition frame_reference (b : bank) (hs : list (list Z)) (n : nat) : list (list (list Z)) :=
  map (λ bl, map (λ h, block_output b h n bl) hs) (seq 0 n).

Definition bank_of (fr : sbc_frame) : bank := if subbands fr =? 4 then bank4 else bank8.

Lemma mapM_Forall2 {A B C} (f : A → outcome B) (g : C → B) l k : Forall2 (λ x y, f x = Ret (g y)) l k → mapM f l = Ret (map g k).
Proof. induction 1 as [|x y l k E _ IH]; [done|]. cbn [mapM map]. by rewrite E, outcome_bind_ret, IH, outcome_bind_ret. Qed.

Lemma stream_rows b X pos n hs : stream_ok b X pos n hs → (length hs ≤ 2)%nat →
  Forall2 (λ row h, samples_row_ok b row pos n h) (take (length hs) X) hs.
Proof.
  intros [Hl HX] Hhs. apply Forall2_lookup. intros ch. destruct (hs !! ch) as [h|] eqn:Hh.
  - destruct (HX ch h Hh) as (row & Er & Hr). pose proof (lookup_lt_Some _ _ _ Hh). rewrite lookup_take_lt by done. rewrite Er. by constructor.
  - apply lookup_ge_None in Hh. rewrite lookup_take_ge by done. constructor.
Qed.

Lemma by_block_map n (out : list Z → nat → list Z) hs :
  by_block n (map (λ h, map (out h) (seq 0 n)) hs) = map (λ bl, map (λ h, out h bl) hs) (seq 0 n).
Proof.
  unfold by_block. apply map_ext_in. intros bl Hbl%in_seq. rewrite map_map. apply map_ext. intros h.
  rewrite (nth_map_lt _ _ _ 0%nat) by (rewrite length_seq; lia). by rewrite seq_nth by lia.
Qed.

(** The numbers of a header as the lemmas above have them. *)
Lemma header_numbers fr : header_fields_ok fr →
  bank_ok (bank_of fr) ∧ subbands fr = Z.of_nat (bands (bank_of fr)) ∧
  ∃ n g : nat, blocks fr = Z.of_nat n ∧ n = (4 * g)%nat ∧ (0 < n ≤ 16)%nat ∧ (n mod 2 = 0)%nat ∧ blocks fr / 4 = Z.of_nat g.
Proof.
  intros (_ & Hbm & Hbl & _ & _ & _ & _ & Hsb). unfold bank_of. split; [|split].
  - destruct (subbands fr =? 4); [by left|by right].
  - destruct (subband_mode fr =? 0); by rewrite Hsb.
  - exists (4 * Z.to_nat (1 + block_mode fr))%nat, (Z.to_nat (1 + block_mode fr)). split_and!; try lia.
    + replace (4 * Z.to_nat (1 + block_mode fr))%nat with ((2 * Z.to_nat (1 + block_mode fr)) * 2)%nat by lia. by rewrite Nat.Div0.mod_mul.
    + rewrite Hbl. replace (4 + 4 * block_mode fr) with ((1 + block_mode fr) * 4) by lia. rewrite Z.div_mul by lia. lia.
Qed.

Lemma analyze_audio_spec st fr hs :
  header_fields_ok fr → Z.of_nat (length hs) = channels fr → (length hs ≤ 2)%nat →
  let b := bank_of fr in
  let n := Z.to_nat (blocks fr) in
  stream_ok b (X st) (position st) (tail b + n * bands b) hs →
  sbc_analyze_audio st fr = Ret (blocks fr * subbands fr, set_sb_sample_f (frame_reference b hs n) fr) ∧
  shape (length hs) (bands b) (frame_reference b hs n).
Proof.
  intros Hh Hch Hhs b n HX. destruct (header_numbers fr Hh) as (Hb & Hsb & n' & g & Hn & Hg & Hn16 & Heven & Hdiv).
  assert (n = n') as En by (subst n; lia). rewrite En in *. clear n En. fold b in Hb, Hsb.
  pose proof (stream_rows _ _ _ _ _ HX Hhs) as Hrows.
  assert (Forall (λ h, Forall (Forall (λ v, Z.abs v ≤ 2 ^ 31 - 2)) (map (block_output b h n') (seq 0 n'))) hs ∧
    mapM (λ row, analyze_channel g (analyze_4b b) row (position st + Z.of_nat (n' * bands b) - Z.of_nat (4 * bands b)) (Z.of_nat (4 * bands b)))
      (take (length hs) (X st)) = Ret (map (λ h, map (block_output b h n') (seq 0 n')) hs)) as [Hbound EM].
  { assert (∀ row h, samples_row_ok b row (position st) (tail b + n' * bands b) h →
      analyze_channel g (analyze_4b b) row (position st + Z.of_nat (n' * bands b) - Z.of_nat (4 * bands b)) (Z.of_nat (4 * bands b)) =
        Ret (map (block_output b h n') (seq 0 n')) ∧
      Forall (Forall (λ v, Z.abs v ≤ 2 ^ 31 - 2)) (map (block_output b h n') (seq 0 n'))) as H.
    { intros row h Hr. pose proof (analyze_channel_spec b row (position st) h _ Hb g Hr) as HA. cbv zeta in HA. rewrite <- Hg in HA.
      unfold block_output. apply HA. unfold tail. lia. }
    split.
    - clear -Hrows H. induction Hrows as [|row h rows hs Hr _ IH]; constructor; [by eapply H|done].
    - apply mapM_Forall2. eapply Forall2_impl; [exact Hrows|]. intros row h Hr. by apply H. }
  split.
  - unfold sbc_analyze_audio. rewrite <- Hch, Hdiv, Hn, !Nat2Z.id. unfold bank_of in b.
    assert (b = bank4 ∧ (subbands fr =? 4) = true ∨ b = bank8 ∧ (subbands fr =? 4) = false ∧ (subbands fr =? 8) = true) as [[Eb E4]|(Eb & E4 & E8)].
    { subst b. destruct (subbands fr =? 4) eqn:E4; [by left|right]. split_and!; try done. cbn in Hsb. by rewrite Hsb. }
    + rewrite E4. apply Z.eqb_eq in E4. rewrite Eb in *. change (bands bank4) with 4%nat in *. rewrite E4.
      replace (position st - 16 + Z.of_nat n' * 4) with (position st + Z.of_nat (n' * 4) - Z.of_nat (4 * 4)) by lia.
      change sbc_analyze_4b_4s_simd with (analyze_4b bank4). change 16 with (Z.of_nat (4 * 4)). rewrite EM, outcome_bind_ret. by rewrite by_block_map.
    + rewrite E4, E8. apply Z.eqb_eq in E8. rewrite Eb in *. change (bands bank8) with 8%nat in *. rewrite E8.
      replace (position st - 32 + Z.of_nat n' * 8) with (position st + Z.of_nat (n' * 8) - Z.of_nat (4 * 8)) by lia.
      change sbc_analyze_4b_8s_simd with (analyze_4b bank8). change 32 with (Z.of_nat (4 * 8)). rewrite EM, outcome_bind_ret. by rewrite by_block_map.
  - unfold shape, frame_reference. apply Forall_map, Forall_forall. intros bl Hbl. split; [by rewrite length_map|].
    apply Forall_map. eapply Forall_impl; [exact Hbound|]. cbn. intros h HF. split.
    + unfold block_output, analysis_filter. by rewrite length_map, length_seq.
    + rewrite Forall_map, Forall_forall in HF. by apply HF.
Qed.

Lemma encode_audio_spec big_endian pcm st fr hs :
  header_fields_ok fr → Z.of_nat (length hs) = channels fr →
  let b := bank_of fr in
  let n := Z.to_nat (blocks fr) in
  let hs' := push big_endian pcm (n * bands b) hs in
  stream_ok b (X st) (position st) (tail b) hs → 0 ≤ position st → Forall byte_ok pcm →
  2 * (subbands fr * blocks fr * channels fr) ≤ Z.of_nat (length pcm) →
  ∃ st' factors, encode_audio big_endian pcm st fr =
      Ret (blocks fr * subbands fr, st', set_scale_factor factors (set_sb_sample_f (frame_reference b hs' n) fr)) ∧
    stream_ok b (X st') (position st') (tail b) hs' ∧ 0 ≤ position st' ∧
    factors_ok (set_scale_factor factors fr) ∧ Forall (block_fits factors) (frame_reference b hs' n).
Proof.
  intros Hh Hch b n hs' HX Hpos Hbytes Hlen. destruct (header_numbers fr Hh) as (Hb & Hsb & n' & g & Hn & Hg & Hn16 & Heven & _).
  assert (n = n') as En by (subst n; lia). subst hs'. rewrite En in *. clear n En. fold b in Hb, Hsb.
  assert (channels fr = 1 ∨ channels fr = 2) as HC by (destruct Hh as (_ & _ & _ & _ & -> & _); destruct (_ =? _); tauto).
  destruct (process_input_spec b big_endian n' (X st) (position st) hs pcm Hb Hn16 Heven HX ltac:(lia) Hpos Hbytes) as (X' & pos' & E & HX' & Hpos').
  { rewrite Hn, Hsb in Hlen. nia. }
  set (hs' := push big_endian pcm (n' * bands b) hs) in *. assert (length hs' = length hs) as Hl' by apply length_push.
  pose proof (analyze_audio_spec (EncoderState pos' X') fr hs' Hh ltac:(lia) ltac:(lia)) as HA. cbv zeta in HA. fold b in HA.
  replace (Z.to_nat (blocks fr)) with n' in HA by lia. destruct (HA HX') as [EA Hshape].
  destruct (calc_scalefactors_spec _ _ _ Hshape) as (factors & EF & Hlf & HFf & Hfits).
  exists (EncoderState pos' X'), factors. split.
  - unfold encode_audio. cbv zeta.
    assert ((if subbands fr =? 8 then (if big_endian then sbc_enc_process_input_8s_be else sbc_enc_process_input_8s_le)
      else (if big_endian then sbc_enc_process_input_4s_be else sbc_enc_process_input_4s_le))
      (position st) pcm (X st) (subbands fr * blocks fr) (channels fr) = Ret (pos', X')) as ->.
    { unfold sbc_enc_process_input_8s_be, sbc_enc_process_input_8s_le, sbc_enc_process_input_4s_be, sbc_enc_process_input_4s_le.
      assert ((if 1 <? channels fr then 2 else 1) = channels fr) as Ec by (destruct HC as [-> | ->]; done).
      rewrite <- E, Hn, <- Hch, Hsb, (Z.mul_comm (Z.of_nat (bands b))), <- Nat2Z.inj_mul. rewrite <- Hch in Ec.
      destruct Hb as [-> | ->]; [change (Z.of_nat (bands bank4) =? 8) with false|change (Z.of_nat (bands bank8) =? 8) with true];
        destruct big_endian; cbv iota beta; by rewrite Ec. }
    rewrite outcome_bind_ret. cbv zeta. cbn [fst snd]. rewrite EA, outcome_bind_ret. cbv iota.
    cbn [sb_sample_f set_sb_sample_f channels subbands]. rewrite Hsb. rewrite <- Hch, <- Hl'. rewrite EF, outcome_bind_ret. done.
  - destruct HX' as [HlX HX']. split.
    + split; [done|]. intros ch h Hc. destruct (HX' ch h Hc) as (row & Er & Hr). exists row. split; [done|]. eapply samples_row_ok_fewer; [|exact Hr]. lia.
    + split; [done|]. split; [|done]. split; cbn [scale_factor set_scale_factor channels subbands]; [lia|].
      eapply Forall_impl; [exact HFf|]. cbn. intros row [Hlr Hr]. split; [lia|done].
Qed.

Lemma nth_zeros n k : nth k (replicate n 0) 0 = 0.
Proof. revert k. induction n as [|n IH]; intros [|k]; cbn; auto. Qed.

Lemma init_stream fr : header_fields_ok fr →
  stream_ok (bank_of fr) (X (sbc_encoder_init (subbands fr))) (position (sbc_encoder_init (subbands fr))) (tail (bank_of fr))
    (replicate (Z.to_nat (channels fr)) []) ∧ 0 ≤ position (sbc_encoder_init (subbands fr)).
Proof.
  intros Hh. destruct (header_numbers fr Hh) as (Hb & Hsb & _). rewrite Hsb. unfold sbc_encoder_init, tail. cbn [position X].
  assert (0 ≤ SBC_X_BUFFER_SIZE - Z.of_nat (bands (bank_of fr)) * 9) as Hpos by (destruct Hb as [-> | ->]; done). split; [|done].
  split; [done|]. intros ch h Hc. apply lookup_replicate in Hc as [-> Hc].
  assert (channels fr ≤ 2) by (destruct Hh as (_ & _ & _ & _ & -> & _); destruct (_ =? _); lia).
  exists (replicate (Z.to_nat SBC_X_BUFFER_SIZE) 0). split; [apply lookup_replicate; split; [done|lia]|].
  split_and!; try done.
  - apply Forall_replicate. unfold i16_ok. lia.
  - lia.
  - intros e _. rewrite nth_zeros. unfold past. by destruct (slot _ e).
Qed.

(** What the encoder computes from the inputs of successive frames. *)
Fixpoint stream_reference (b : bank) (big_endian : bool) (n : nat) (inputs : list (list Z)) (hs : list (list Z))
    : list (list (list (list Z))) :=
  match inputs with
  | [] => []
  | pcm :: inputs =>
      let hs := push big_endian pcm (n * bands b) hs in
      frame_reference b hs n :: stream_reference b big_endian n inputs hs
  end.

(** C13: The encoder filters the stream of its input. For every header, in both
    byte orders and for any sequence of inputs that are large enough, the
    front end of the encoder - the buffers with their permuted, wrapping
    layout and the two coefficient tables for odd and even blocks - yields in
    every block of every frame, for every channel and subband, the polyphase
    filter of the A2DP specification, with its tables in their own order,
    applied to the samples of that channel so far, preceded by silence. No
    accumulator overflows and no access leaves its buffer. *)
Theorem encoder_filters_stream (big_endian : bool) (fr : sbc_frame) (inputs : list (list Z)) (Hh : header_fields_ok fr)
    (Hin : Forall (λ pcm, Forall byte_ok pcm ∧ 2 * (subbands fr * blocks fr * channels fr) ≤ Z.of_nat (length pcm)) inputs) :
  encode_stream big_endian inputs (sbc_encoder_init (subbands fr)) fr =
  Ret (stream_reference (bank_of fr) big_endian (Z.to_nat (blocks fr)) inputs (replicate (Z.to_nat (channels fr)) [])).
Proof.
  destruct (init_stream fr Hh) as [HX Hpos]. set (hs := replicate _ []) in *.
  assert (Z.of_nat (length hs) = channels fr) as Hch.
  { unfold hs. rewrite length_replicate. destruct Hh as (_ & _ & _ & _ & -> & _). destruct (_ =? _); done. }
  clearbody hs. revert HX Hpos. generalize (sbc_encoder_init (subbands fr)) as st.
  assert (∀ fr' st hs, header_fields fr' = header_fields fr → Z.of_nat (length hs) = channels fr →
    stream_ok (bank_of fr) (X st) (position st) (tail (bank_of fr)) hs → 0 ≤ position st →
    encode_stream big_endian inputs st fr' = Ret (stream_reference (bank_of fr) big_endian (Z.to_nat (blocks fr)) inputs hs)) as H;
    [|intros st HX Hpos; by apply H].
  clear hs Hch. induction Hin as [|pcm inputs [Hb Hl] _ IH]; intros fr' st hs Eh Hch HX Hpos; cbn [encode_stream stream_reference]; [done|].
  destruct (header_fields_eq _ _ Eh) as (E1 & E2 & E3 & E4 & E5 & E6 & E7 & E8 & E9).
  assert (header_fields_ok fr') as Hh' by (unfold header_fields_ok; rewrite E1, E2, E3, E4, E5, E6, E7, E8; exact Hh).
  assert (bank_of fr' = bank_of fr) as Eb by (unfold bank_of; by rewrite E8).
  pose proof (encode_audio_spec big_endian pcm st fr' hs Hh') as HE. cbv zeta in HE. rewrite Eb, E3, E5, E8 in HE.
  destruct (HE ltac:(lia) HX Hpos Hb ltac:(lia)) as (st' & factors & -> & HX' & Hpos' & _). rewrite outcome_bind_ret. cbn [fst snd].
  rewrite IH with (hs := push big_endian pcm (Z.to_nat (blocks fr) * bands (bank_of fr)) hs); try done. rewrite length_push. lia.
Qed.

(** Two frames of a mono stream. *)
Definition example_stream : sbc_frame :=
  Frame 0 0 4 SBC_MODE_MONO 1 SBC_AM_SNR SBC_SB_4 4 16 0 0 0 [] [] [] [].
Definition example_input (seed : Z) : list Z := map (λ i, (Z.of_nat i * Z.of_nat i * 37 + seed) mod 256) (seq 0 32).

Lemma encoder_filters_stream_witness :
  encode_stream true [example_input 5; example_input 77] (sbc_encoder_init 4) example_stream =
  Ret (stream_reference bank4 true 4 [example_input 5; example_input 77] [[]]).
Proof.
  apply (encoder_filters_stream true example_stream).
  - repeat split; vm_compute; (reflexivity || congruence).
  - repeat constructor; vm_compute; (reflexivity || congruence).
Defined.
