(* ===== verification/SbcSynth.v ===== *)
(** utils/sbc/sbc.c: the synthesis filter bank of the decoder. Each of the
    phases of the bank keeps ten values in a window of one ring buffer that
    all phases share; the windows move down by one with every block. Theorem:
    the ring is the shift register of the A2DP specification
    ([synthesis_is_shift_register]). *)

From stdpp Require Import base list numbers sorting.
From Stdlib Require Import ZArith Lia.
From S2P Require Import Prelude Sbc SbcBits SbcStream SbcFrame SbcTables SbcAnalysis SbcFilter.

Local Open Scope Z_scope.

(** * Data *)

Record sbc_decoder_state := DecoderState { dec_subbands : Z; V : list (list Z); offset : list (list Z) }.

Definition first_offsets (subbands : Z) : list Z := map (λ i, 10 * Z.of_nat i + 10) (seq 0 (Z.to_nat (subbands * 2))).

Definition sbc_decoder_init (subbands : Z) (st : sbc_decoder_state) : sbc_decoder_state :=
  let n := Z.to_nat (subbands * 2) in
  DecoderState subbands (replicate 2 (replicate 170 0)) (map (λ row, first_offsets subbands ++ drop n row) (offset st)).

(** * The ring

    Its cells hold values of any type. *)

Definition v_set {A} (v : list A) (o : Z) (x : A) : outcome (list A) :=
  if decide (0 ≤ o < Z.of_nat (length v)) then Ret (<[Z.to_nat o := x]> v) else Undef.

(** The first nine cells are repeated after the last one. *)
Definition v_repeat {A} (limit : nat) (v : list A) : outcome (list A) :=
  if decide (limit + 9 ≤ length v)%nat then Ret (take limit v ++ take 9 v ++ drop (limit + 9) v) else Undef.

Fixpoint shift_slots {A} (limit : nat) (offsets : list Z) (news : list A) (v : list A) : outcome (list Z * list A) :=
  match offsets, news with
  | o :: offsets, x :: news =>
      r ← (if o - 1 <? 0 then v ← v_repeat limit v; Ret (Z.of_nat limit - 1, v) else Ret (o - 1, v));
      v ← v_set r.2 r.1 x;
      r' ← shift_slots limit offsets news v;
      Ret (r.1 :: r'.1, r'.2)
  | _, _ => Ret ([], v)
  end.

(** * The filter bank

    Sums of 32 bits wrap. *)

Definition matrixing (matrix : list (list Z)) (samples : list Z) : list Z :=
  map (λ row, ASR (zsum (zip_with Z.mul row samples)) SCALE8_STAGED1_BITS) matrix.

Definition v_at (v : list Z) (o : Z) : outcome Z :=
  if decide (0 ≤ o < Z.of_nat (length v)) then Ret (nth (Z.to_nat o) v 0) else Undef.

(** The products for output [i]: even entries of window [i], odd entries of
    window [k]. *)
Definition synth_sample (m0 m1 : list Z) (offsets v : list Z) (i k : nat) : outcome Z :=
  let oi := nth i offsets 0 in
  let ok := nth k offsets 0 in
  products ← mapM (λ d, a ← v_at v (oi + 2 * Z.of_nat d); b ← v_at v (ok + 2 * Z.of_nat d + 1);
                        Ret (a * nth (5 * i + d) m0 0 + b * nth (5 * i + d) m1 0)) (seq 0 5);
  Ret (to_i16 (ASR (zsum products) SCALE8_STAGED1_BITS)).

Definition synthesize (m : nat) (matrix : list (list Z)) (m0 m1 : list Z) (samples offsets v : list Z)
    : outcome (list Z * list Z * list Z) :=
  r ← shift_slots (20 * m) (take (2 * m) offsets) (matrixing matrix samples) v;
  let offsets := r.1 ++ drop (2 * m) offsets in
  pcm ← mapM (λ i, synth_sample m0 m1 offsets r.2 i (i + m)) (seq 0 m);
  Ret (offsets, r.2, pcm).

Definition sbc_synthesize_four := synthesize 4 synmatrix4 sbc_proto_4_40m0 sbc_proto_4_40m1.
Definition sbc_synthesize_eight := synthesize 8 synmatrix8 sbc_proto_8_80m0 sbc_proto_8_80m1.

(** The blocks of a channel. *)
Fixpoint synthesize_blocks (f : list Z → list Z → list Z → outcome (list Z * list Z * list Z)) (blocks : list (list Z))
    (offsets v : list Z) : outcome (list Z * list Z * list Z) :=
  match blocks with
  | [] => Ret (offsets, v, [])
  | samples :: blocks =>
      r ← f samples offsets v;
      let '(offsets, v, pcm) := r in
      r ← synthesize_blocks f blocks offsets v;
      Ret (r.1, pcm ++ r.2)
  end.

(** The channels of a frame: the rows of the state and the samples. *)
Fixpoint synthesize_channels (n ch : nat) (f : list Z → list Z → list Z → outcome (list Z * list Z * list Z))
    (samples : list (list (list Z))) (offsets vs : list (list Z)) : outcome (list (list Z) * list (list Z) * list (list Z)) :=
  match n, offsets, vs with
  | S n, os :: offsets, v :: vs =>
      r ← synthesize_blocks f (map (λ block, nth ch block []) samples) os v;
      r' ← synthesize_channels n (S ch) f samples offsets vs;
      Ret (r.1.1 :: r'.1.1, r.1.2 :: r'.1.2, r.2 :: r'.2)
  | _, _, _ => Ret (offsets, vs, [])
  end.

Definition sbc_synthesize_audio (st : sbc_decoder_state) (fr : sbc_frame) : outcome (Z * sbc_decoder_state * sbc_frame) :=
  let f := if subbands fr =? 4 then sbc_synthesize_four else sbc_synthesize_eight in
  if (subbands fr =? 4) || (subbands fr =? 8) then
    r ← synthesize_channels (Z.to_nat (channels fr)) 0 f (take (Z.to_nat (blocks fr)) (sb_sample fr)) (offset st) (V st);
    Ret (blocks fr * subbands fr, DecoderState (dec_subbands st) r.1.2 r.1.1, set_pcm_sample r.2 fr)
  else Ret (- EIO, st, fr).

(** * The shift register

    The outputs of the matrix, newest first, silence before their start. *)

Definition register (hist : list (list Z)) (d i : nat) : Z := nth i (nth d hist []) 0.

Definition reference_sample (m : nat) (m0 m1 : list Z) (hist : list (list Z)) (i : nat) : Z :=
  to_i16 (ASR (zsum (map (λ d, register hist (2 * d) i * nth (5 * i + d) m0 0 + register hist (2 * d + 1) (i + m) * nth (5 * i + d) m1 0) (seq 0 5)))
    SCALE8_STAGED1_BITS).

Fixpoint reference_blocks (m : nat) (matrix : list (list Z)) (m0 m1 : list Z) (blocks : list (list Z)) (hist : list (list Z)) : list Z :=
  match blocks with
  | [] => []
  | samples :: blocks =>
      let hist := matrixing matrix samples :: hist in
      map (reference_sample m m0 m1 hist) (seq 0 m) ++ reference_blocks m matrix m0 m1 blocks hist
  end.

(** * One step of the ring

    What a step does to the cells does not depend on what they hold. *)

Lemma shift_slots_map {A B} (f : A → B) limit offsets news v :
  shift_slots limit offsets (map f news) (map f v) =
  (r ← shift_slots limit offsets news v; Ret (r.1, map f r.2)).
Proof.
  revert news v. induction offsets as [|o offsets IH]; intros [|x news] v; try done. cbn [shift_slots map].
  unfold v_repeat, v_set. rewrite length_map.
  assert (∀ o' v', (v ← (if decide (0 ≤ o' < Z.of_nat (length (map f v'))) then Ret (<[Z.to_nat o' := f x]> (map f v')) else Undef);
     r' ← shift_slots limit offsets (map f news) v; Ret (o' :: r'.1, r'.2)) =
    (r ← (v ← (if decide (0 ≤ o' < Z.of_nat (length v')) then Ret (<[Z.to_nat o' := x]> v') else Undef);
          r' ← shift_slots limit offsets news v; Ret (o' :: r'.1, r'.2)); Ret (r.1, map f r.2))) as H.
  { intros o' v'. rewrite length_map. destruct (decide _); [|done]. rewrite !outcome_bind_ret.
    change (map f v') with (f <$> v'). rewrite <- list_fmap_insert. change (f <$> ?l) with (map f l) in *. rewrite IH.
    destruct (shift_slots limit offsets news _); done. }
  destruct (o - 1 <? 0).
  - destruct (decide _); [|done]. rewrite !outcome_bind_ret. cbn [fst snd].
    rewrite <- H. do 2 f_equal. all: rewrite !map_app, !firstn_map, !skipn_map; done.
  - rewrite !outcome_bind_ret. cbn [fst snd]. by rewrite <- H.
Qed.

(** The offsets in each phase of the ring, and the ones it starts with. *)
Definition phase_offsets (m p : nat) : list Z :=
  map (λ i, (10 * Z.of_nat i + 10 - Z.of_nat p) mod Z.of_nat (20 * m)) (seq 0 (2 * m)).

Definition ring_window {A} (o : Z) (v : list A) : list A := take 10 (drop (Z.to_nat o) v).

(** One step on cells that hold their own number, the new values numbered from
    170: the offsets go to the next phase, and in each window the new value
    comes first and the last one is gone. *)
Definition step_ok (m : nat) (offsets next : list Z) : bool :=
  match shift_slots (20 * m) offsets (seq 170 (2 * m)) (seq 0 170) with
  | Ret (offsets', v') =>
      bool_decide (offsets' = next) && bool_decide (length v' = 170%nat) &&
      forallb (λ i, bool_decide (ring_window (nth i next 0) v' = (170 + i)%nat :: take 9 (ring_window (nth i offsets 0) (seq 0 170))) &&
        (0 <=? nth i next 0) && (nth i next 0 <=? 160)) (seq 0 (2 * m))
  | _ => false
  end.

Definition phases_ok (m : nat) : bool :=
  step_ok m (first_offsets (Z.of_nat m)) (phase_offsets m 1) &&
  forallb (λ p, step_ok m (phase_offsets m p) (phase_offsets m (S p))) (seq 0 (20 * m)).

Example phases4_ok : phases_ok 4 = true.
Proof. vm_compute. reflexivity. Qed.
Example phases8_ok : phases_ok 8 = true.
Proof. vm_compute. reflexivity. Qed.

Lemma phase_offsets_period m p : phase_offsets m (p + 20 * m) = phase_offsets m p.
Proof.
  unfold phase_offsets. apply map_ext. intros i. destruct m as [|m].
  - f_equal. lia.
  - replace (10 * Z.of_nat i + 10 - Z.of_nat (p + 20 * S m)) with (10 * Z.of_nat i + 10 - Z.of_nat p + (-1) * Z.of_nat (20 * S m)) by lia.
    rewrite Z.mod_add; [done|lia].
Qed.

Lemma phase_offsets_mod m p : (0 < m)%nat → phase_offsets m p = phase_offsets m (p mod (20 * m)).
Proof.
  intros Hm. rewrite (Nat.div_mod_eq p (20 * m)) at 1. generalize (p / (20 * m))%nat (p mod (20 * m))%nat. intros q r.
  induction q as [|q IH]; [f_equal; lia|]. rewrite <- IH, <- (phase_offsets_period m (20 * m * q + r)). f_equal. lia.
Qed.

(** The states of the ring after any number of blocks. *)
Definition ring_phase (m : nat) (offsets : list Z) : Prop := offsets = first_offsets (Z.of_nat m) ∨ ∃ p, offsets = phase_offsets m p.

Lemma ring_phase_step m offsets : (0 < m)%nat → phases_ok m = true → ring_phase m offsets →
  ∃ next, ring_phase m next ∧ step_ok m offsets next = true.
Proof.
  intros Hm Hok. unfold phases_ok in Hok. rewrite andb_true_iff, forallb_forall in Hok. destruct Hok as [H0 Hp]. intros [-> | [p ->]].
  - exists (phase_offsets m 1). split; [right; by eexists|done].
  - rewrite (phase_offsets_mod m p Hm). exists (phase_offsets m (S (p mod (20 * m)))). split; [right; by eexists|].
    apply Hp, in_seq. pose proof (Nat.mod_upper_bound p (20 * m)). lia.
Qed.

Lemma ring_phase_length m offsets : ring_phase m offsets → length offsets = (2 * m)%nat.
Proof.
  intros [-> | [p ->]]; unfold first_offsets, phase_offsets; rewrite length_map, length_seq; lia.
Qed.

(** ** The step on any cells *)

Lemma map_nth_seq (l : list Z) k n : (k + n ≤ length l)%nat → map (λ t, nth t l 0) (seq k n) = take n (drop k l).
Proof.
  revert k. induction n as [|n IH]; intros k H; [done|]. cbn [seq map]. rewrite IH by lia.
  destruct (drop k l) as [|x r] eqn:E; [apply (f_equal length) in E; rewrite length_drop in E; cbn in E; lia|].
  pose proof (nth_drop l k 0) as H0. rewrite Nat.add_0_r, E in H0. cbn in H0. rewrite <- H0. cbn [take]. f_equal.
  assert (drop (S k) l = r) as ->; [|done]. replace (S k) with (k + 1)%nat by lia. by rewrite <- drop_drop, E.
Qed.

Lemma shift_step m offsets next news v :
  step_ok m offsets next = true → length news = (2 * m)%nat → length v = 170%nat →
  ∃ v', shift_slots (20 * m) offsets news v = Ret (next, v') ∧ length v' = 170%nat ∧
    ∀ i, (i < 2 * m)%nat → ring_window (nth i next 0) v' = nth i news 0 :: take 9 (ring_window (nth i offsets 0) v) ∧ 0 ≤ nth i next 0 ≤ 160.
Proof.
  intros Hok Hnews Hv. unfold step_ok in Hok.
  set (f := λ t, if (t <? 170)%nat then nth t v 0 else nth (t - 170) news 0).
  assert (map f (seq 0 170) = v) as Efv.
  { transitivity (map (λ t, nth t v 0) (seq 0 170)).
    - apply map_ext_in. intros t Ht%in_seq. unfold f. by rewrite (proj2 (Nat.ltb_lt t 170)) by lia.
    - rewrite map_nth_seq by lia. rewrite drop_0, <- Hv. apply firstn_all. }
  assert (map f (seq 170 (2 * m)) = news) as Efn.
  { transitivity (map (λ t, nth t news 0) (seq 0 (2 * m))).
    - replace 170%nat with (170 + 0)%nat by lia. rewrite <- fmap_add_seq, map_map. apply map_ext_in. intros t Ht%in_seq. unfold f.
      rewrite (proj2 (Nat.ltb_ge (170 + t) 170)) by lia. f_equal. lia.
    - rewrite map_nth_seq by lia. rewrite drop_0, <- Hnews. apply firstn_all. }
  pose proof (shift_slots_map f (20 * m) offsets (seq 170 (2 * m)) (seq 0 170)) as EM. rewrite Efn, Efv in EM. rewrite EM. clear EM.
  destruct (shift_slots (20 * m) offsets (seq 170 (2 * m)) (seq 0 170)) as [[offsets' t]| |]; [|done|done].
  rewrite !andb_true_iff, !bool_decide_eq_true, forallb_forall in Hok. destruct Hok as [[-> Hlen] Hw].
  rewrite outcome_bind_ret. exists (map f t). split; [done|]. split; [by rewrite length_map|].
  intros i Hi. specialize (Hw i ltac:(apply in_seq; lia)). rewrite !andb_true_iff, bool_decide_eq_true, !Z.leb_le in Hw.
  destruct Hw as [[Hw H0] H1]. split; [|lia].
  transitivity (map f (ring_window (nth i next 0) t)); [unfold ring_window; by rewrite skipn_map, firstn_map|]. rewrite Hw. cbn [map]. f_equal.
  - unfold f. rewrite (proj2 (Nat.ltb_ge (170 + i) 170)) by lia. f_equal. lia.
  - rewrite <- Efv. unfold ring_window. by rewrite skipn_map, firstn_map, firstn_map.
Qed.

(** ** A channel *)

Definition holds (m : nat) (offsets v : list Z) (hist : list (list Z)) : Prop :=
  length v = 170%nat ∧ ∀ i d, (i < 2 * m)%nat → (d < 10)%nat → nth d (ring_window (nth i offsets 0) v) 0 = register hist d i.

Definition channel_ok (m : nat) (offsets v : list Z) (hist : list (list Z)) : Prop :=
  ∃ ring rest, offsets = ring ++ rest ∧ ring_phase m ring ∧ holds m ring v hist.

Lemma v_at_window v o e : 0 ≤ o ≤ 160 → 0 ≤ e < 10 → length v = 170%nat → v_at v (o + e) = Ret (nth (Z.to_nat e) (ring_window o v) 0).
Proof.
  intros Ho He Hl. unfold v_at. rewrite decide_True by lia. f_equal. unfold ring_window.
  replace (Z.to_nat (o + e)) with (Z.to_nat o + Z.to_nat e)%nat by lia. rewrite <- nth_drop.
  rewrite <- (take_drop 10 (drop (Z.to_nat o) v)) at 1. rewrite app_nth1; [done|]. rewrite length_take, length_drop. lia.
Qed.

Lemma synth_sample_spec m m0 m1 offsets rest v hist i :
  length offsets = (2 * m)%nat → holds m offsets v hist → (∀ i, (i < 2 * m)%nat → 0 ≤ nth i offsets 0 ≤ 160) → (i < m)%nat →
  synth_sample m0 m1 (offsets ++ rest) v i (i + m) = Ret (reference_sample m m0 m1 hist i).
Proof.
  intros Hl [Hv Hw] Ho Hi. unfold synth_sample, reference_sample. rewrite !app_nth1 by lia.
  erewrite mapM_ret; [rewrite outcome_bind_ret; reflexivity|]. intros d Hd%elem_of_seq.
  pose proof (Ho i ltac:(lia)) as H1. pose proof (Ho (i + m)%nat ltac:(lia)) as H2.
  rewrite (v_at_window v (nth i offsets 0) (2 * Z.of_nat d)) by lia. rewrite outcome_bind_ret, <- Z.add_assoc.
  rewrite (v_at_window v (nth (i + m) offsets 0)) by lia. rewrite outcome_bind_ret, !Hw by lia.
  replace (Z.to_nat (2 * Z.of_nat d)) with (2 * d)%nat by lia. by replace (Z.to_nat (2 * Z.of_nat d + 1)) with (2 * d + 1)%nat by lia.
Qed.

Lemma synthesize_spec m matrix m0 m1 samples offsets v hist :
  (0 < m)%nat → phases_ok m = true → length matrix = (2 * m)%nat → channel_ok m offsets v hist →
  ∃ offsets' v', synthesize m matrix m0 m1 samples offsets v =
      Ret (offsets', v', map (reference_sample m m0 m1 (matrixing matrix samples :: hist)) (seq 0 m)) ∧
    channel_ok m offsets' v' (matrixing matrix samples :: hist).
Proof.
  intros Hm Hok Hmat (ring & rest & -> & Hring & Hv & Hw). destruct (ring_phase_step m ring Hm Hok Hring) as (next & Hnext & Hstep).
  pose proof (ring_phase_length _ _ Hring) as Hlr. pose proof (ring_phase_length _ _ Hnext) as Hln.
  destruct (shift_step m ring next (matrixing matrix samples) v Hstep) as (v' & E & Hv' & Hw'); [unfold matrixing; by rewrite length_map|done|].
  exists (next ++ rest), v'.
  assert (holds m next v' (matrixing matrix samples :: hist)) as Hhold.
  { split; [done|]. intros i d Hi Hd. destruct (Hw' i Hi) as [-> _]. unfold register. destruct d as [|d]; [done|]. cbn [nth].
    fold (register hist d i). rewrite <- (Hw i d Hi ltac:(lia)). rewrite <- (take_drop 9 (ring_window _ v)) at 2.
    destruct (decide (d < length (take 9 (ring_window (nth i ring 0%Z) v)))%nat) as [Hlt|Hge]; [by rewrite app_nth1|].
    rewrite nth_overflow by lia. rewrite length_take in Hge. rewrite nth_overflow; [done|]. rewrite take_drop. lia. }
  split; [|by exists next, rest].
  unfold synthesize. rewrite take_app_length', drop_app_length' by done. rewrite E, outcome_bind_ret. cbv zeta. cbn [fst snd].
  rewrite (mapM_ret _ (reference_sample m m0 m1 (matrixing matrix samples :: hist))); [done|]. intros i Hi%elem_of_seq.
  apply synth_sample_spec; try done; [|lia]. intros j Hj. by destruct (Hw' j Hj).
Qed.

Definition bank_matrix (m : nat) : list (list Z) := if (m =? 4)%nat then synmatrix4 else synmatrix8.
Definition bank_m0 (m : nat) : list Z := if (m =? 4)%nat then sbc_proto_4_40m0 else sbc_proto_8_80m0.
Definition bank_m1 (m : nat) : list Z := if (m =? 4)%nat then sbc_proto_4_40m1 else sbc_proto_8_80m1.
Definition synthesis (m : nat) := synthesize m (bank_matrix m) (bank_m0 m) (bank_m1 m).
Definition reference (m : nat) := reference_blocks m (bank_matrix m) (bank_m0 m) (bank_m1 m).
Definition size_ok (m : nat) : Prop := m = 4%nat ∨ m = 8%nat.

Definition register_after (m : nat) (blocks hist : list (list Z)) : list (list Z) := rev (map (matrixing (bank_matrix m)) blocks) ++ hist.

Lemma reference_app m a c hist : reference m (a ++ c) hist = reference m a hist ++ reference m c (register_after m a hist).
Proof.
  unfold reference, register_after. revert hist. induction a as [|x a IH]; intros hist; [done|]. cbn [app reference_blocks map rev]. cbv zeta.
  rewrite IH, <- app_assoc. by rewrite <- (app_assoc _ [_] hist).
Qed.

Lemma synthesize_blocks_spec m blocks : size_ok m → ∀ offsets v hist, channel_ok m offsets v hist →
  ∃ offsets' v', synthesize_blocks (synthesis m) blocks offsets v = Ret (offsets', v', reference m blocks hist) ∧
    channel_ok m offsets' v' (register_after m blocks hist).
Proof.
  intros Hm. unfold reference, register_after. induction blocks as [|samples blocks IH]; intros offsets v hist Hc; [by exists offsets, v|].
  cbn [synthesize_blocks reference_blocks map rev]. cbv zeta.
  destruct (synthesize_spec m (bank_matrix m) (bank_m0 m) (bank_m1 m) samples offsets v hist) as (o1 & v1 & E & Hc1).
  { destruct Hm as [-> | ->]; lia. } { destruct Hm as [-> | ->]; [exact phases4_ok|exact phases8_ok]. } { by destruct Hm as [-> | ->]. } { done. }
  change (synthesize m (bank_matrix m) (bank_m0 m) (bank_m1 m)) with (synthesis m) in E. rewrite E, outcome_bind_ret. destruct (IH o1 v1 _ Hc1) as (o2 & v2 & E2 & Hc2). rewrite E2, outcome_bind_ret.
  exists o2, v2. split; [done|]. by rewrite <- app_assoc.
Qed.

(** ** All channels *)

Definition channel_blocks (ch : nat) (samples : list (list (list Z))) : list (list Z) := map (λ block, nth ch block []) samples.

Lemma synthesize_channels_spec m samples : size_ok m → ∀ n ch offsets vs hists,
  length hists = n → length offsets = length vs → (n ≤ length vs)%nat →
  (∀ i, (i < n)%nat → channel_ok m (nth i offsets []) (nth i vs []) (nth i hists [])) →
  ∃ offsets' vs', synthesize_channels n ch (synthesis m) samples offsets vs =
      Ret (offsets', vs', imap (λ i hist, reference m (channel_blocks (ch + i) samples) hist) hists) ∧
    length offsets' = length offsets ∧ length vs' = length vs ∧
    ∀ i, (i < n)%nat → channel_ok m (nth i offsets' []) (nth i vs' []) (register_after m (channel_blocks (ch + i) samples) (nth i hists [])).
Proof.
  intros Hm. induction n as [|n IH]; intros ch offsets vs hists Hl Hlo Hn H.
  - destruct hists; [|done]. exists offsets, vs. split_and!; try done; intros; lia.
  - destruct hists as [|hist hists]; [done|]. destruct vs as [|v vs]; [cbn in Hn; lia|]. destruct offsets as [|os offsets]; [done|].
    cbn [synthesize_channels length] in *.
    destruct (synthesize_blocks_spec m (channel_blocks ch samples) Hm os v hist (H 0%nat ltac:(lia))) as (o1 & v1 & E & Hc).
    fold (channel_blocks ch samples). rewrite E, outcome_bind_ret.
    destruct (IH (S ch) offsets vs hists) as (o2 & v2 & E2 & Ho2 & Hv2 & Hc2); [lia|lia|lia|intros i Hi; apply (H (S i)); lia|].
    rewrite E2, outcome_bind_ret. exists (o1 :: o2), (v1 :: v2). cbn [imap fst snd]. split.
    + do 3 f_equal. rewrite Nat.add_0_r. f_equal. apply imap_ext. intros i x _. cbn. by rewrite Nat.add_succ_r.
    + cbn [length]. split; [lia|]. split; [lia|]. intros [|i] Hi; [by rewrite Nat.add_0_r|]. rewrite Nat.add_succ_r. apply (Hc2 i). lia.
Qed.

(** The samples of successive frames. *)
Fixpoint synthesize_stream (frames : list sbc_frame) (st : sbc_decoder_state) : outcome (list (list (list Z))) :=
  match frames with
  | [] => Ret []
  | fr :: frames =>
      r ← sbc_synthesize_audio st fr;
      l ← synthesize_stream frames r.1.2;
      Ret (pcm_sample r.2 :: l)
  end.

Definition stream_frame (m c : nat) (fr : sbc_frame) : Prop :=
  subbands fr = Z.of_nat m ∧ channels fr = Z.of_nat c ∧ blocks fr = Z.of_nat (length (sb_sample fr)).

Definition state_ok (m c : nat) (st : sbc_decoder_state) (hists : list (list (list Z))) : Prop :=
  length hists = c ∧ length (offset st) = 2%nat ∧ length (V st) = 2%nat ∧
  ∀ i, (i < c)%nat → channel_ok m (nth i (offset st) []) (nth i (V st) []) (nth i hists []).

Lemma synthesize_audio_spec m c st fr hists : size_ok m → (c ≤ 2)%nat → stream_frame m c fr → state_ok m c st hists →
  ∃ st', sbc_synthesize_audio st fr =
      Ret (blocks fr * subbands fr, st', set_pcm_sample (imap (λ i hist, reference m (channel_blocks i (sb_sample fr)) hist) hists) fr) ∧
    state_ok m c st' (imap (λ i hist, register_after m (channel_blocks i (sb_sample fr)) hist) hists).
Proof.
  intros Hm Hc (Hs & Hch & Hb) (Hl & Ho & Hv & Hok). unfold sbc_synthesize_audio.
  assert ((subbands fr =? 4) || (subbands fr =? 8) = true ∧
    (if subbands fr =? 4 then sbc_synthesize_four else sbc_synthesize_eight) = synthesis m) as [-> ->] by (rewrite Hs; by destruct Hm as [-> | ->]).
  rewrite Hch, Hb, !Nat2Z.id, firstn_all.
  destruct (synthesize_channels_spec m (sb_sample fr) Hm c 0 (offset st) (V st) hists Hl ltac:(lia) ltac:(lia) Hok) as (o' & v' & E & Ho' & Hv' & Hok').
  rewrite E, outcome_bind_ret. cbn [fst snd]. eexists. split; [done|]. split; [by rewrite length_imap|]. cbn [offset V]. split; [lia|]. split; [lia|].
  intros i Hi. specialize (Hok' i Hi). destruct (lookup_lt_is_Some_2 hists i ltac:(lia)) as [hist Hh].
  rewrite (nth_lookup_Some hists i [] hist Hh) in Hok'. erewrite (nth_lookup_Some (imap _ _)); [exact Hok'|].
  rewrite list_lookup_imap, Hh. done.
Qed.

Lemma init_state m c st0 : size_ok m → (c ≤ 2)%nat → length (offset st0) = 2%nat →
  state_ok m c (sbc_decoder_init (Z.of_nat m) st0) (replicate c []).
Proof.
  intros Hm Hc Hl. split; [apply length_replicate|]. unfold sbc_decoder_init. cbn [offset V]. split; [by rewrite length_map|]. split; [done|].
  intros i Hi. rewrite (nth_map_lt _ _ _ []) by lia. exists (first_offsets (Z.of_nat m)). eexists. split; [done|]. split; [by left|].
  assert (nth i (replicate 2 (replicate 170 0)) [] = replicate 170 0) as -> by (destruct i as [|[|i]]; try done; lia).
  assert (nth i (replicate c []) [] = @nil (list Z)) as -> by (clear; revert i; induction c as [|c IH]; intros [|i]; cbn; auto).
  split; [by rewrite length_replicate|]. intros j d Hj Hd. unfold ring_window. rewrite drop_replicate, take_replicate, nth_zeros.
  unfold register. by destruct d, j.
Qed.

(** C18: The decoder's filter bank is the one of the A2DP specification. After
    [sbc_decoder_init], for every sequence of frames with the same number of
    subbands and channels, [sbc_synthesize_audio] never leaves its buffers, and
    the samples of each channel over all frames are what the specification's
    shift register yields: the last ten outputs of the matrix, newest first,
    kept in full, where the code moves windows around one ring buffer with its
    first nine cells repeated at the end. *)
Theorem synthesis_is_shift_register (m c : nat) (frames : list sbc_frame) (st0 : sbc_decoder_state) (Hm : size_ok m) (Hc : (c ≤ 2)%nat)
    (Hst : length (offset st0) = 2%nat) (Hf : Forall (stream_frame m c) frames) :
  ∃ pcms, synthesize_stream frames (sbc_decoder_init (Z.of_nat m) st0) = Ret pcms ∧
    ∀ ch, (ch < c)%nat → concat (map (λ rows, nth ch rows []) pcms) =
      reference m (concat (map (λ fr, channel_blocks ch (sb_sample fr)) frames)) [].
Proof.
  pose proof (init_state m c st0 Hm Hc Hst) as Hok. revert Hok. generalize (sbc_decoder_init (Z.of_nat m) st0) as st.
  assert (∀ st hists, state_ok m c st hists → ∃ pcms, synthesize_stream frames st = Ret pcms ∧
    ∀ ch, (ch < c)%nat → concat (map (λ rows, nth ch rows []) pcms) =
      reference m (concat (map (λ fr, channel_blocks ch (sb_sample fr)) frames)) (nth ch hists [])) as H.
  { induction Hf as [|fr frames Hfr _ IH]; intros st hists Hok; [by exists []|]. cbn [synthesize_stream].
    destruct (synthesize_audio_spec m c st fr hists Hm Hc Hfr Hok) as (st' & E & Hok'). rewrite E, outcome_bind_ret. cbn [fst snd].
    destruct (IH st' _ Hok') as (pcms & E2 & H2). rewrite E2, outcome_bind_ret. eexists. split; [done|]. intros ch Hch. cbn [map concat].
    rewrite reference_app, (H2 ch Hch). destruct Hok as [Hl _]. destruct (lookup_lt_is_Some_2 hists ch ltac:(lia)) as [hist Hh].
    rewrite (nth_lookup_Some hists ch [] hist Hh). cbn [pcm_sample set_pcm_sample].
    erewrite (nth_lookup_Some (imap _ hists)) by (rewrite list_lookup_imap, Hh; done).
    erewrite (nth_lookup_Some (imap (λ i hist, register_after _ _ _) hists)) by (rewrite list_lookup_imap, Hh; done). done. }
  intros st Hok. destruct (H st _ Hok) as (pcms & E & Hp). exists pcms. split; [exact E|]. intros ch Hch. rewrite (Hp ch Hch). f_equal.
  clear. revert ch. induction c as [|c IH]; intros [|ch]; cbn; auto.
Qed.

(** A stereo frame of four blocks, twice. *)
Definition example_subbands : sbc_frame :=
  Frame 0 0 4 SBC_MODE_STEREO 2 SBC_AM_SNR SBC_SB_4 4 16 0 0 0 [] []
    (replicate 4 [[1000; -2000; 30; 4]; [-5; 600; 7000; -8]]) [].

Lemma synthesis_is_shift_register_witness :
  ∃ pcms, synthesize_stream [example_subbands; example_subbands] (sbc_decoder_init 4 (DecoderState 0 [] (replicate 2 (replicate 16 0)))) = Ret pcms ∧
    ∀ ch, (ch < 2)%nat → concat (map (λ rows, nth ch rows []) pcms) =
      reference 4 (concat (map (λ fr, channel_blocks ch (sb_sample fr)) [example_subbands; example_subbands])) [].
Proof.
  apply (synthesis_is_shift_register 4 2).
  - by left.
  - lia.
  - reflexivity.
  - repeat constructor.
Defined.
