(* ===== verification/SbcApi.v ===== *)
(** utils/sbc/sbc.c and sbc.h: the interface of the SBC codec. Theorems: a
    call of [sbc_encode] takes a whole input and writes a frame that decodes
    to the filtered stream, and keeps the encoder ready for the next one
    ([encode_step_sound]); [sbc_decode] plays what the frames hold
    ([decode_step_sound]); the length [sbc_get_frame_length] promises is exact
    except for dual channels ([frame_length_exact]). *)

From stdpp Require Import base list numbers sorting.
From Stdlib Require Import ZArith Lia.
From S2P Require Import Prelude Sbc SbcBits SbcStream SbcFrame SbcJoint SbcTables SbcAnalysis SbcFilter SbcSynth.

Local Open Scope Z_scope.

(** * Data

    The fields of [struct sbc_struct] carry its name, for those of the frame
    have the same names. *)

Definition ENOMEM : Z := 12.
Definition ENOSPC : Z := 28.

Record sbc_priv := Priv {
  init : bool;
  frame : sbc_frame;
  dec_state : sbc_decoder_state;
  enc_state : sbc_encoder_state
}.

Record sbc_t := Sbc {
  sbc_flags : Z;
  sbc_frequency : Z;
  sbc_blocks : Z;
  sbc_subbands : Z;
  sbc_mode : Z;
  sbc_allocation : Z;
  sbc_bitpool : Z;
  sbc_endian : Z;
  priv : option sbc_priv
}.

Definition set_priv (p : option sbc_priv) (sbc : sbc_t) : sbc_t :=
  Sbc (sbc_flags sbc) (sbc_frequency sbc) (sbc_blocks sbc) (sbc_subbands sbc) (sbc_mode sbc) (sbc_allocation sbc) (sbc_bitpool sbc)
    (sbc_endian sbc) p.

(** What [memset] leaves. *)
Definition zero_frame : sbc_frame := Frame 0 0 0 0 0 0 0 0 0 0 0 0 [] [] [] [].
Definition zero_priv : sbc_priv :=
  Priv false zero_frame (DecoderState 0 (replicate 2 (replicate 170 0)) (replicate 2 (replicate 16 0)))
    (EncoderState 0 (replicate 2 (replicate (Z.to_nat SBC_X_BUFFER_SIZE) 0))).
Definition zero_sbc : sbc_t := Sbc 0 0 0 0 0 0 0 0 None.

(** * Life cycle *)

Definition sbc_set_defaults (sbc : sbc_t) : sbc_t :=
  Sbc (sbc_flags sbc) SBC_FREQ_44100 SBC_BLK_16 SBC_SB_8 SBC_MODE_STEREO (sbc_allocation sbc) 32 SBC_LE (priv sbc).

(** Whether [malloc] succeeds is an argument. *)
Definition sbc_init (malloc_ok : bool) (sbc : option sbc_t) : Z * option sbc_t :=
  match sbc with
  | None => (- EIO, None)
  | Some _ =>
      if malloc_ok then (0, Some (sbc_set_defaults (set_priv (Some zero_priv) zero_sbc)))
      else (- ENOMEM, Some zero_sbc)
  end.

Definition sbc_finish (sbc : option sbc_t) : option sbc_t := match sbc with None => None | Some _ => Some zero_sbc end.

Definition sbc_reinit (sbc : option sbc_t) : Z * option sbc_t :=
  match sbc with
  | None => (- EIO, None)
  | Some s =>
      match priv s with
      | None => (- EIO, Some s)
      | Some p => (0, Some (sbc_set_defaults (if init p then set_priv (Some zero_priv) s else s)))
      end
  end.

(** * Sizes *)

Definition sbc_get_frame_length (sbc : sbc_t) : outcome Z :=
  match priv sbc with
  | None => Undef
  | Some p =>
      let fr := frame p in
      let '(subbands, blocks, channels, joint) :=
        if negb (init p) then
          (if sbc_subbands sbc =? 0 then 4 else 8, to_u8 (4 + sbc_blocks sbc * 4), if sbc_mode sbc =? SBC_MODE_MONO then 1 else 2,
           if sbc_mode sbc =? SBC_MODE_JOINT_STEREO then 1 else 0)
        else (subbands fr, blocks fr, channels fr, joint fr) in
      let ret := 4 + 4 * subbands * channels / 8 in
      Ret (if channels =? 1 then ret + (blocks * channels * sbc_bitpool sbc + 7) / 8
           else ret + ((if joint =? 0 then 0 else subbands) + blocks * sbc_bitpool sbc + 7) / 8)
  end.

Definition sbc_get_frame_duration (sbc : sbc_t) : outcome Z :=
  match priv sbc with
  | None => Undef
  | Some p =>
      let '(subbands, blocks) :=
        if negb (init p) then (if sbc_subbands sbc =? 0 then 4 else 8, to_u8 (4 + sbc_blocks sbc * 4))
        else (subbands (frame p), blocks (frame p)) in
      Ret (if sbc_frequency sbc =? SBC_FREQ_16000 then 1000000 * blocks * subbands / 16000
           else if sbc_frequency sbc =? SBC_FREQ_32000 then 1000000 * blocks * subbands / 32000
           else if sbc_frequency sbc =? SBC_FREQ_44100 then 1000000 * blocks * subbands / 44100
           else if sbc_frequency sbc =? SBC_FREQ_48000 then 1000000 * blocks * subbands / 48000
           else 0)
  end.

Definition sbc_get_codesize (sbc : sbc_t) : outcome Z :=
  match priv sbc with
  | None => Undef
  | Some p =>
      let '(subbands, blocks, channels) :=
        if negb (init p) then
          (if sbc_subbands sbc =? 0 then 4 else 8, to_u16 (4 + sbc_blocks sbc * 4), if sbc_mode sbc =? SBC_MODE_MONO then 1 else 2)
        else (subbands (frame p), blocks (frame p), channels (frame p)) in
      Ret (to_u16 (subbands * blocks * channels * 2))
  end.

(** * Decoding *)

Section codec.
Variable stray : Z.

Definition sample_octets (endian s : Z) : list Z :=
  if endian =? SBC_BE then [to_u8 (Z.shiftr s 8); to_u8 s] else [to_u8 s; to_u8 (Z.shiftr s 8)].

(** The first [n] samples, the channels interleaved. *)
Definition pcm_octets (endian : Z) (n : nat) (rows : list (list Z)) : list Z :=
  concat (map (λ i, concat (map (λ row, sample_octets endian (nth i row 0)) rows)) (seq 0 n)).

(** What the first call copies from the frame it unpacked. *)
Definition decode_init (sbc : sbc_t) (p : sbc_priv) : outcome (sbc_t * sbc_priv) :=
  if init p then Ret (sbc, p)
  else
    let fr := frame p in
    let p := Priv true fr (sbc_decoder_init (subbands fr) (dec_state p)) (enc_state p) in
    let sbc := Sbc (sbc_flags sbc) (frequency fr) (block_mode fr) (subband_mode fr) (mode fr) (allocation fr) (bitpool fr) (sbc_endian sbc)
                 (Some p) in
    codesize ← sbc_get_codesize sbc;
    length ← sbc_get_frame_length sbc;
    Ret (sbc, Priv true (set_sizes codesize (to_u8 length) fr) (dec_state p) (enc_state p)).

(** The result, what is stored in [*written] if anything, and the output. *)
Definition sbc_decode (sbc : sbc_t) (input : list Z) (input_len : Z) (output : option (list Z)) (output_len : Z)
    : outcome (Z * option Z * option (list Z) * sbc_t) :=
  match priv sbc with
  | None => Undef
  | Some p =>
      r ← sbc_unpack_frame stray input (frame p) input_len;
      let '(framelen, fr) := r in
      r ← decode_init sbc (Priv (init p) fr (dec_state p) (enc_state p));
      let '(sbc, p) := r in
      match output with
      | None => Ret (framelen, None, None, set_priv (Some p) sbc)
      | Some out =>
          if framelen <=? 0 then Ret (framelen, Some 0, Some out, set_priv (Some p) sbc)
          else
            r ← sbc_synthesize_audio (dec_state p) (frame p);
            let '(samples, dec, fr) := r in
            let samples := if output_len <? samples * channels fr * 2 then output_len / (channels fr * 2) else samples in
            out ← wr out 0 (pcm_octets (sbc_endian sbc) (Z.to_nat samples) (pcm_sample fr));
            Ret (framelen, Some (samples * channels fr * 2), Some out, set_priv (Some (Priv (init p) fr dec (enc_state p))) sbc)
      end
  end.

Definition sbc_parse (sbc : sbc_t) (input : list Z) (input_len : Z) : outcome (Z * sbc_t) :=
  r ← sbc_decode sbc input input_len None 0; Ret (r.1.1.1, r.2).

(** * Encoding *)

(** What the first call copies to the frame. *)
Definition encode_init (sbc : sbc_t) (p : sbc_priv) : outcome sbc_priv :=
  if init p then Ret p
  else
    codesize ← sbc_get_codesize sbc;
    length ← sbc_get_frame_length sbc;
    let fr := set_sizes codesize (to_u8 length)
                (set_bitpool (sbc_bitpool sbc)
                   (set_header (sbc_frequency sbc) (sbc_blocks sbc) (to_u8 (4 + sbc_blocks sbc * 4)) (sbc_mode sbc)
                      (if sbc_mode sbc =? SBC_MODE_MONO then 1 else 2) (sbc_allocation sbc) (sbc_subbands sbc)
                      (if sbc_subbands sbc =? 0 then 4 else 8) (frame p))) in
    Ret (Priv true fr (dec_state p) (sbc_encoder_init (subbands fr))).

(** The result, what is stored in [*written] and the output. *)
Definition sbc_encode (sbc : sbc_t) (input : list Z) (input_len : Z) (output : option (list Z)) (output_len : Z)
    : outcome (Z * Z * option (list Z) * sbc_t) :=
  match priv sbc with
  | None => Undef
  | Some p =>
      p ← encode_init sbc p;
      let fr := frame p in
      if input_len <? codesize fr then Ret (0, 0, output, set_priv (Some p) sbc)
      else
        match output with
        | None => Ret (- ENOSPC, 0, None, set_priv (Some p) sbc)
        | Some out =>
            if output_len <? frame_length fr then Ret (- ENOSPC, 0, Some out, set_priv (Some p) sbc)
            else
              r ← encode_audio (sbc_endian sbc =? SBC_BE) input (enc_state p) fr;
              let '(samples, enc, fr) := r in
              r ← sbc_pack_frame stray fr;
              let '(framelen, data, fr) := r in
              out ← wr out 0 data;
              Ret (samples * channels fr * 2, framelen, Some out, set_priv (Some (Priv (init p) fr (dec_state p) enc)) sbc)
        end
  end.

End codec.

(** * The parameters of an encoder *)

Definition fresh_frame (sbc : sbc_t) : sbc_frame :=
  set_bitpool (sbc_bitpool sbc)
    (set_header (sbc_frequency sbc) (sbc_blocks sbc) (to_u8 (4 + sbc_blocks sbc * 4)) (sbc_mode sbc)
       (if sbc_mode sbc =? SBC_MODE_MONO then 1 else 2) (sbc_allocation sbc) (sbc_subbands sbc)
       (if sbc_subbands sbc =? 0 then 4 else 8) zero_frame).

Definition params_ok (sbc : sbc_t) : Prop := header_fields_ok (fresh_frame sbc) ∧ bitpool_ok (fresh_frame sbc).

Definition input_size (fr : sbc_frame) : Z := 2 * (subbands fr * blocks fr * channels fr).

(** What a fresh encoder promises. *)
Definition promised (sbc : sbc_t) : Z :=
  let fr := fresh_frame sbc in
  if mode fr =? SBC_MODE_DUAL_CHANNEL then frame_size fr - blocks fr * bitpool fr / 8 else frame_size fr.

Lemma sizes_cases sbc : params_ok sbc →
  (subbands (fresh_frame sbc) = 4 ∨ subbands (fresh_frame sbc) = 8) ∧
  (blocks (fresh_frame sbc) = 4 ∨ blocks (fresh_frame sbc) = 8 ∨ blocks (fresh_frame sbc) = 12 ∨ blocks (fresh_frame sbc) = 16) ∧
  channels (fresh_frame sbc) = (if mode (fresh_frame sbc) =? SBC_MODE_MONO then 1 else 2).
Proof.
  intros [(_ & Hb & Hbl & _ & Hc & _ & _ & Hs) _]. split_and!; [rewrite Hs; destruct (_ =? 0); tauto| |exact Hc].
  rewrite Hbl. lia.
Qed.

Lemma get_codesize_spec sbc p : params_ok sbc → priv sbc = Some p → init p = false → sbc_get_codesize sbc = Ret (input_size (fresh_frame sbc)).
Proof.
  intros Hok Ep Ei. destruct (sizes_cases sbc Hok) as (HS & HB & HC). unfold sbc_get_codesize. rewrite Ep, Ei. cbn [negb].
  destruct Hok as [(_ & Hbm & Hbl & _) _]. cbn [block_mode blocks fresh_frame set_bitpool set_header] in Hbm, Hbl.
  assert (to_u16 (4 + sbc_blocks sbc * 4) = blocks (fresh_frame sbc)) as ->.
  { cbn [blocks fresh_frame set_bitpool set_header]. rewrite Hbl. unfold to_u16. rewrite Z.mod_small; lia. }
  change (if sbc_subbands sbc =? 0 then 4 else 8) with (subbands (fresh_frame sbc)).
  change (if sbc_mode sbc =? SBC_MODE_MONO then 1 else 2) with (channels (fresh_frame sbc)).
  unfold input_size, to_u16. rewrite Z.mod_small; [f_equal; lia|].
  assert (channels (fresh_frame sbc) = 1 ∨ channels (fresh_frame sbc) = 2) as HC' by (rewrite HC; destruct (_ =? _); tauto).
  destruct HS as [-> | ->], HC' as [-> | ->]; destruct HB as [-> |[-> |[-> | ->]]]; lia.
Qed.

Lemma div8 a n : (8 * a + n) / 8 = a + n / 8.
Proof. rewrite Z.mul_comm, Z.div_add_l by lia. done. Qed.

Lemma frame_size_parts sbc : params_ok sbc →
  let fr := fresh_frame sbc in
  frame_size fr = 4 + 4 * subbands fr * channels fr / 8 + (prefix_size fr + audio_size fr + 7) / 8.
Proof.
  intros Hok fr. destruct (sizes_cases sbc Hok) as (HS & _ & HC). fold fr in HS, HC. unfold frame_size.
  assert (∃ k, 4 * subbands fr * channels fr = 8 * k) as [k ->].
  { destruct HS as [-> | ->]; rewrite HC; destruct (_ =? _); [exists 2|exists 4|exists 4|exists 8]; lia. }
  replace (prefix_size fr + 8 * k + audio_size fr + 7) with (8 * k + (prefix_size fr + audio_size fr + 7)) by lia. rewrite div8.
  rewrite (Z.mul_comm 8 k), Z.div_mul by lia. lia.
Qed.

Lemma get_frame_length_spec sbc p : params_ok sbc → priv sbc = Some p → init p = false → sbc_get_frame_length sbc = Ret (promised sbc).
Proof.
  intros Hok Ep Ei. pose proof (frame_size_parts sbc Hok) as Hsz. cbv zeta in Hsz. destruct (sizes_cases sbc Hok) as (HS & HB & HC).
  unfold sbc_get_frame_length, promised. rewrite Ep, Ei. cbn [negb]. cbv zeta. set (fr := fresh_frame sbc) in *.
  assert (sbc_mode sbc = mode fr) as -> by done. assert (sbc_bitpool sbc = bitpool fr) as -> by done.
  assert (to_u8 (4 + sbc_blocks sbc * 4) = blocks fr) as -> by done.
  assert ((if mode fr =? SBC_MODE_MONO then 1 else 2) = channels fr) as -> by done.
  assert ((if sbc_subbands sbc =? 0 then 4 else 8) = subbands fr) as -> by done. f_equal. rewrite Hsz. clear Hsz.
  unfold prefix_size, audio_size, is_joint, separate in *. destruct Hok as [(_ & _ & _ & Hm & _) _]. fold fr in Hm.
  unfold SBC_MODE_MONO, SBC_MODE_DUAL_CHANNEL, SBC_MODE_JOINT_STEREO in *.
  assert (mode fr = 0 ∨ mode fr = 1 ∨ mode fr = 2 ∨ mode fr = 3) as HM by lia.
  destruct HM as [Em|[Em|[Em|Em]]]; rewrite Em in *; cbn [Z.eqb Pos.eqb orb] in *; rewrite HC; cbn [Z.eqb Pos.eqb].
  - rewrite Z.mul_1_r, Z.mul_assoc, Z.mul_1_r. f_equal.
  - assert (∃ k, blocks fr = 4 * k) as [k ->] by (destruct HB as [-> |[-> |[-> | ->]]]; [exists 1|exists 2|exists 3|exists 4]; lia).
    replace (0 + 4 * k * (2 * bitpool fr) + 7) with (8 * (k * bitpool fr) + 7) by lia. rewrite div8. change (7 / 8) with 0.
    replace (0 + 4 * k * bitpool fr + 7) with (4 * (k * bitpool fr) + 7) by lia. replace (4 * k * bitpool fr) with (4 * (k * bitpool fr)) by lia.
    generalize (k * bitpool fr). intros x. pose proof (Z.div_mod (4 * x) 8 ltac:(lia)). pose proof (Z.mod_pos_bound (4 * x) 8 ltac:(lia)).
    pose proof (Z.div_mod (4 * x + 7) 8 ltac:(lia)). pose proof (Z.mod_pos_bound (4 * x + 7) 8 ltac:(lia)). lia.
  - done.
  - done.
Qed.

(** * The encoder from call to call *)

(** An encoder that has taken in the samples [hs], newest first. *)
Definition encoder_ok (sbc : sbc_t) (hs : list (list Z)) : Prop :=
  let fr := fresh_frame sbc in
  params_ok sbc ∧ Z.of_nat (length hs) = channels fr ∧ ∃ p, priv sbc = Some p ∧
  if init p then
    header_fields (frame p) = header_fields fr ∧ codesize (frame p) = input_size fr ∧ frame_length (frame p) = to_u8 (promised sbc) ∧
    stream_ok (bank_of fr) (X (enc_state p)) (position (enc_state p)) (tail (bank_of fr)) hs ∧ 0 ≤ position (enc_state p)
  else hs = replicate (Z.to_nat (channels fr)) [].

Definition new_history (sbc : sbc_t) (input : list Z) (hs : list (list Z)) : list (list Z) :=
  let fr := fresh_frame sbc in
  push (sbc_endian sbc =? SBC_BE) input (Z.to_nat (blocks fr) * bands (bank_of fr)) hs.

Lemma encode_init_spec sbc hs : encoder_ok sbc hs →
  let fr := fresh_frame sbc in
  ∃ p0 p, priv sbc = Some p0 ∧ encode_init sbc p0 = Ret p ∧ init p = true ∧
    header_fields (frame p) = header_fields fr ∧ codesize (frame p) = input_size fr ∧ frame_length (frame p) = to_u8 (promised sbc) ∧
    stream_ok (bank_of fr) (X (enc_state p)) (position (enc_state p)) (tail (bank_of fr)) hs ∧ 0 ≤ position (enc_state p).
Proof.
  intros (Hok & Hl & p & Ep & Hp) fr. exists p. unfold encode_init. destruct (init p) eqn:Ei; [by exists p|].
  rewrite (get_codesize_spec sbc p Hok Ep Ei), outcome_bind_ret, (get_frame_length_spec sbc p Hok Ep Ei), outcome_bind_ret.
  eexists. split; [done|]. split; [done|]. cbn [init frame enc_state]. split; [done|]. split; [done|]. split; [done|]. split; [done|].
  rewrite Hp. apply (init_stream fr). apply Hok.
Qed.

Lemma wr_front out data : (length data ≤ length out)%nat → wr out 0 data = Ret (data ++ drop (length data) out).
Proof. intros. unfold wr. rewrite decide_True by lia. done. Qed.

(** What packing does not touch. *)
Lemma join_subbands_keeps sbs fr fr' : join_subbands sbs fr = Ret fr' → codesize fr' = codesize fr ∧ frame_length fr' = frame_length fr.
Proof.
  revert fr. induction sbs as [|sb sbs IH]; intros fr E; cbn [join_subbands] in E; [by injection E as ->|].
  apply outcome_bind_Ret_inv in E as (f1 & E1 & E). destruct (IH _ E) as [-> ->]. unfold join_subband in E1.
  apply outcome_bind_Ret_inv in E1 as (j0 & _ & E1). apply outcome_bind_Ret_inv in E1 as (j1 & _ & E1). injection E1 as <-. by destruct (_ <? _).
Qed.

Lemma pack_frame_keeps stray fr n data fr1 : bitpool_ok fr → sbc_pack_frame stray fr = Ret (n, data, fr1) →
  codesize fr1 = codesize fr ∧ frame_length fr1 = frame_length fr.
Proof.
  intros Hp E. destruct (pack_frame_prefix _ _ _ _ _ Hp E) as (hdr & [[[fr' w] hdr'] pos] & Epre & Efr). cbn [fst] in Efr. subst fr'.
  unfold pack_prefix in Epre. destruct (mode fr =? SBC_MODE_JOINT_STEREO).
  - apply outcome_bind_Ret_inv in Epre as (fr' & Ej & Epre). injection Epre as -> _ _ _. by apply join_subbands_keeps in Ej.
  - by injection Epre as <- _ _ _.
Qed.

(** What [sbc_encode] makes of an input, up to storing the frame. *)
Lemma encode_frame_spec stray sbc hs p input :
  params_ok sbc → Z.of_nat (length hs) = channels (fresh_frame sbc) → byte_ok stray → Forall byte_ok input →
  let fr := fresh_frame sbc in
  header_fields (frame p) = header_fields fr →
  stream_ok (bank_of fr) (X (enc_state p)) (position (enc_state p)) (tail (bank_of fr)) hs → 0 ≤ position (enc_state p) →
  input_size fr ≤ Z.of_nat (length input) →
  ∃ samples enc frp data fr1, encode_audio (sbc_endian sbc =? SBC_BE) input (enc_state p) (frame p) = Ret (samples, enc, frp) ∧
    sbc_pack_frame stray frp = Ret (frame_size fr, data, fr1) ∧ samples * channels fr1 * 2 = input_size fr ∧
    header_fields fr1 = header_fields fr ∧ codesize fr1 = codesize (frame p) ∧ frame_length fr1 = frame_length (frame p) ∧
    Z.of_nat (length data) = frame_size fr ∧ Forall byte_ok data ∧ decodes data fr1 ∧
    samples_recovered (frame_reference (bank_of fr) (new_history sbc input hs) (Z.to_nat (blocks fr))) (joined fr1 (sb_sample_f fr1)) ∧
    stream_ok (bank_of fr) (X enc) (position enc) (tail (bank_of fr)) (new_history sbc input hs) ∧ 0 ≤ position enc.
Proof.
  intros [Hh Hp] Hl Hs Hb fr Eh HX Hpos Hin. destruct (header_fields_eq _ _ Eh) as (E1 & E2 & E3 & E4 & E5 & E6 & E7 & E8 & E9). fold fr in Hh, Hp.
  assert (header_fields_ok (frame p)) as Hh' by (unfold header_fields_ok; rewrite E1, E2, E3, E4, E5, E6, E7, E8; exact Hh).
  assert (bank_of (frame p) = bank_of fr) as Eb by (unfold bank_of; by rewrite E8).
  pose proof (encode_audio_spec (sbc_endian sbc =? SBC_BE) input (enc_state p) (frame p) hs Hh') as HE. cbv zeta in HE. rewrite Eb, E3, E5, E8 in HE.
  fold (new_history sbc input hs) in HE. unfold input_size in Hin.
  destruct (HE Hl HX Hpos Hb Hin) as (enc & factors & EA & HX' & Hpos' & Hfo & Hfits). clear HE.
  set (frp := set_scale_factor factors _) in EA.
  assert (header_fields frp = header_fields fr) as Ehp by (rewrite <- Eh; done).
  destruct (header_numbers fr Hh) as (_ & Hsb & n & g & Hn & _).
  assert (frame_ok frp) as Hok.
  { destruct (header_fields_eq _ _ Ehp) as (F1 & F2 & F3 & F4 & F5 & F6 & F7 & F8 & F9). split; [|split; [|split]].
    - unfold header_fields_ok. rewrite F1, F2, F3, F4, F5, F6, F7, F8. exact Hh.
    - unfold bitpool_ok, separate. rewrite F4, F8, F9. exact Hp.
    - exact Hfo.
    - split; [|exact Hfits]. rewrite F3. unfold frp. cbn [sb_sample_f set_scale_factor set_sb_sample_f]. unfold frame_reference.
      rewrite length_map, length_seq. lia. }
  destruct (frame_roundtrip_lemma stray frp Hok Hs) as (data & fr1 & EP & Hld & Hbd & Eh1 & _ & Hdec).
  rewrite (frame_size_ext _ _ Ehp) in *. pose proof (pack_frame_recovers _ _ _ _ _ Hok EP) as Hrec.
  destruct (pack_frame_keeps _ _ _ _ _ (proj1 (proj2 Hok)) EP) as [Ec El].
  rewrite Ehp in Eh1. destruct (header_fields_eq _ _ Eh1) as (_ & _ & _ & _ & G5 & _).
  exists (blocks fr * subbands fr), enc, frp, data, fr1. split; [exact EA|]. split; [exact EP|]. split; [unfold input_size; rewrite G5; fold fr; lia|].
  split; [exact Eh1|]. split; [by rewrite Ec|]. split; [by rewrite El|]. split_and!; try done.
Qed.

Lemma frame_length_small sbc : params_ok sbc → 0 ≤ to_u8 (promised sbc) ≤ frame_size (fresh_frame sbc).
Proof.
  intros Hok. pose proof (frame_size_parts sbc Hok) as Hsz. cbv zeta in Hsz. destruct (sizes_cases sbc Hok) as (HS & HB & HC).
  unfold promised. set (fr := fresh_frame sbc) in *. destruct Hok as [Hh [Hp0 _]]. fold fr in Hp0.
  assert (0 ≤ blocks fr * bitpool fr / 8) as H8 by (apply Z.div_pos; nia).
  assert (0 ≤ 4 * subbands fr * channels fr / 8) as H1 by (apply Z.div_pos; [rewrite HC; destruct (_ =? _); lia|lia]).
  assert (0 ≤ audio_size fr) as H2 by (unfold audio_size; rewrite HC; destruct (separate fr), (_ =? _); nia).
  assert (0 ≤ prefix_size fr) as H3 by (unfold prefix_size; destruct (is_joint fr); lia).
  assert (0 ≤ (prefix_size fr + audio_size fr + 7) / 8) as H4 by (apply Z.div_pos; lia).
  assert (0 ≤ frame_size fr) as H5 by lia. unfold to_u8. split; [apply Z.mod_pos_bound; lia|].
  destruct (mode fr =? SBC_MODE_DUAL_CHANNEL) eqn:Em; [|apply Z.mod_le; lia].
  assert (0 ≤ frame_size fr - blocks fr * bitpool fr / 8) as H6.
  { rewrite Hsz. assert (blocks fr * bitpool fr / 8 ≤ (prefix_size fr + audio_size fr + 7) / 8); [|lia]. apply Z.div_le_mono; [lia|].
    unfold audio_size. rewrite HC. destruct (separate fr), (_ =? _); nia. }
  etransitivity; [apply Z.mod_le; lia|lia].
Qed.

Lemma encode_step_lemma (stray : Z) (sbc : sbc_t) (hs : list (list Z)) (input out : list Z) (Hsbc : encoder_ok sbc hs)
    (Hs : byte_ok stray) (Hb : Forall byte_ok input) (Hin : input_size (fresh_frame sbc) ≤ Z.of_nat (length input))
    (Hout : frame_size (fresh_frame sbc) ≤ Z.of_nat (length out)) :
  let fr := fresh_frame sbc in
  ∃ data fr1 sbc', sbc_encode stray sbc input (Z.of_nat (length input)) (Some out) (Z.of_nat (length out)) =
      Ret (input_size fr, frame_size fr, Some (data ++ drop (length data) out), sbc') ∧
    Z.of_nat (length data) = frame_size fr ∧ header_fields fr1 = header_fields fr ∧ decodes data fr1 ∧
    samples_recovered (frame_reference (bank_of fr) (new_history sbc input hs) (Z.to_nat (blocks fr))) (joined fr1 (sb_sample_f fr1)) ∧
    fresh_frame sbc' = fr ∧ sbc_endian sbc' = sbc_endian sbc ∧ encoder_ok sbc' (new_history sbc input hs).
Proof.
  cbv zeta. destruct (encode_init_spec sbc hs Hsbc) as (p0 & p & Ep & Ei & Eit & Eh & Ec & El & HX & Hpos). destruct Hsbc as (Hok & Hl & _).
  destruct (encode_frame_spec stray sbc hs p input Hok Hl Hs Hb Eh HX Hpos Hin)
    as (samples & enc & frp & data & fr1 & EA & EP & Esz & Eh1 & Ec1 & El1 & Hld & Hbd & Hdec & Hrec & HX' & Hpos').
  pose proof (frame_length_small sbc Hok) as Hsmall.
  exists data, fr1, (set_priv (Some (Priv true fr1 (dec_state p) enc)) sbc).
  split.
  - unfold sbc_encode. rewrite Ep, Ei, outcome_bind_ret. cbv zeta. rewrite Ec, (proj2 (Z.ltb_ge _ _)) by lia.
    rewrite El, (proj2 (Z.ltb_ge _ _)) by lia. rewrite EA, outcome_bind_ret, EP, outcome_bind_ret. rewrite wr_front by lia.
    rewrite outcome_bind_ret, Esz, Eit. done.
  - split_and!; try done. split; [done|]. split; [unfold new_history; by rewrite length_push|].
    eexists. split; [done|]. cbn [init frame enc_state]. split_and!; try done; [by rewrite Ec1, Ec|by rewrite El1, El].
Qed.

(** C27: Every call of the encoder is sound. An encoder with valid parameters,
    fresh or in the middle of a stream, given a whole input and room for the
    frame, takes [sbc_get_codesize] octets and writes a frame, of the length it
    reports in [*written]; any decoder takes that frame back, and its subband
    samples are the filtered stream of all inputs so far, as far as the
    quantisers go: taken apart again they are what the A2DP filter yields, or
    one less where subbands were joined. The encoder is then ready for the next
    call in the same sense. *)
Theorem encode_step_sound (stray : Z) (sbc : sbc_t) (hs : list (list Z)) (input out : list Z) (Hsbc : encoder_ok sbc hs)
    (Hs : byte_ok stray) (Hb : Forall byte_ok input) (Hin : input_size (fresh_frame sbc) ≤ Z.of_nat (length input))
    (Hout : frame_size (fresh_frame sbc) ≤ Z.of_nat (length out)) :
  let fr := fresh_frame sbc in
  ∃ data fr1 sbc', sbc_encode stray sbc input (Z.of_nat (length input)) (Some out) (Z.of_nat (length out)) =
      Ret (input_size fr, frame_size fr, Some (data ++ drop (length data) out), sbc') ∧
    Z.of_nat (length data) = frame_size fr ∧ header_fields fr1 = header_fields fr ∧ decodes data fr1 ∧
    samples_recovered (frame_reference (bank_of fr) (new_history sbc input hs) (Z.to_nat (blocks fr))) (joined fr1 (sb_sample_f fr1)) ∧
    fresh_frame sbc' = fr ∧ encoder_ok sbc' (new_history sbc input hs).
Proof.
  destruct (encode_step_lemma stray sbc hs input out Hsbc Hs Hb Hin Hout) as (data & fr1 & sbc' & H1 & H2 & H3 & H4 & H5 & H6 & _ & H7).
  exists data, fr1, sbc'. by split_and!.
Qed.

(** The length an encoder promises. A fresh encoder with valid parameters
    answers [sbc_get_frame_length] with exactly the octets [sbc_pack_frame]
    writes, except in dual-channel mode, where it counts the bits of one
    channel only and falls short by an eighth of blocks times bit pool. *)
Theorem frame_length_exact (sbc : sbc_t) (p : sbc_priv) (Hok : params_ok sbc) (Hp : priv sbc = Some p) (Hi : init p = false) :
  let fr := fresh_frame sbc in
  ∃ n, sbc_get_frame_length sbc = Ret n ∧
    if mode fr =? SBC_MODE_DUAL_CHANNEL then n + blocks fr * bitpool fr / 8 = frame_size fr else n = frame_size fr.
Proof.
  intros fr. rewrite (get_frame_length_spec sbc p Hok Hp Hi). eexists. split; [done|]. unfold promised. fold fr.
  destruct (mode fr =? SBC_MODE_DUAL_CHANNEL); lia.
Qed.

(** The check of the output's size is not enough. [sbc_encode] compares the
    size with the promised length, kept in eight bits, and [sbc_pack_frame]
    does not look at it at all: an encoder with valid parameters, given a whole
    input and an output that passes the check but is shorter than the frame,
    writes past the end of the output. *)
Theorem short_output_overflows (stray : Z) (sbc : sbc_t) (hs : list (list Z)) (input out : list Z) (Hsbc : encoder_ok sbc hs)
    (Hs : byte_ok stray) (Hb : Forall byte_ok input) (Hin : input_size (fresh_frame sbc) ≤ Z.of_nat (length input))
    (Hout : to_u8 (promised sbc) ≤ Z.of_nat (length out) < frame_size (fresh_frame sbc)) :
  sbc_encode stray sbc input (Z.of_nat (length input)) (Some out) (Z.of_nat (length out)) = Undef.
Proof.
  destruct (encode_init_spec sbc hs Hsbc) as (p0 & p & Ep & Ei & Eit & Eh & Ec & El & HX & Hpos). destruct Hsbc as (Hok & Hl & _).
  destruct (encode_frame_spec stray sbc hs p input Hok Hl Hs Hb Eh HX Hpos Hin)
    as (samples & enc & frp & data & fr1 & EA & EP & _ & _ & _ & _ & Hld & _).
  unfold sbc_encode. rewrite Ep, Ei, outcome_bind_ret. cbv zeta. rewrite Ec, (proj2 (Z.ltb_ge _ _)) by lia.
  rewrite El, (proj2 (Z.ltb_ge _ _)) by lia. rewrite EA, outcome_bind_ret, EP, outcome_bind_ret.
  unfold wr. rewrite decide_False by lia. done.
Qed.

(** A fresh encoder for two channels of their own: four blocks, four subbands,
    and a bit pool of 16. *)
Definition example_encoder (mode : Z) : sbc_t := Sbc 0 1 SBC_BLK_4 SBC_SB_4 mode SBC_AM_SNR 16 SBC_LE (Some zero_priv).

Lemma example_encoder_ok mode : 0 ≤ mode < 4 → encoder_ok (example_encoder mode) (replicate (if mode =? 0 then 1 else 2) []).
Proof.
  intros H. assert (mode = 0 ∨ mode = 1 ∨ mode = 2 ∨ mode = 3) as Hm by lia.
  destruct Hm as [-> |[-> |[-> | ->]]]; (split; [split; repeat split; vm_compute; (reflexivity || congruence)|]; split; [reflexivity|]; by exists zero_priv).
Qed.

Lemma encode_step_sound_witness :
  ∃ data fr1 sbc', sbc_encode 0 (example_encoder 3) (replicate 64 77) 64 (Some (replicate 50 1)) 50 =
      Ret (64, 17, Some (data ++ drop (length data) (replicate 50 1)), sbc') ∧ decodes data fr1 ∧ encoder_ok sbc' (new_history (example_encoder 3) (replicate 64 77) [[]; []]).
Proof.
  destruct (encode_step_sound 0 (example_encoder 3) [[]; []] (replicate 64 77) (replicate 50 1) (example_encoder_ok 3 ltac:(lia)))
    as (data & fr1 & sbc' & E & _ & _ & H3 & _ & _ & H6).
  - unfold byte_ok; lia.
  - apply Forall_replicate. unfold byte_ok. lia.
  - vm_compute. congruence.
  - vm_compute. congruence.
  - exists data, fr1, sbc'. split; [exact E|]. by split.
Defined.

Lemma frame_length_exact_witness :
  ∃ n, sbc_get_frame_length (example_encoder 1) = Ret n ∧ n + 4 * 16 / 8 = 24.
Proof. apply (frame_length_exact (example_encoder 1) zero_priv); [apply (example_encoder_ok 1); lia|reflexivity|reflexivity]. Defined.

(** An output as long as [sbc_get_frame_length] says. *)
Lemma short_output_overflows_witness :
  sbc_get_frame_length (example_encoder 1) = Ret 16 ∧
  sbc_encode 0 (example_encoder 1) (replicate 64 77) 64 (Some (replicate 16 0)) 16 = Undef.
Proof.
  split; [vm_compute; reflexivity|].
  apply (short_output_overflows 0 (example_encoder 1) [[]; []] (replicate 64 77) (replicate 16 0)).
  - apply (example_encoder_ok 1). lia.
  - unfold byte_ok; lia.
  - apply Forall_replicate. unfold byte_ok. lia.
  - vm_compute. congruence.
  - vm_compute. split; congruence.
Defined.

(** * The decoder from call to call *)

Lemma read_blocks_length n rows data len consumed l c : read_blocks n rows data len consumed = Ret (Some (l, c)) → length l = n.
Proof.
  revert consumed l c. induction n as [|n IH]; intros consumed l c E; cbn [read_blocks] in E; [by injection E as <- _|].
  apply outcome_bind_Ret_inv in E as ([[b c1]|] & _ & E); [|done].
  apply outcome_bind_Ret_inv in E as ([[bs c2]|] & E1 & E); [|done]. injection E as <- _. cbn [length]. f_equal. by eapply IH.
Qed.

(** A frame that was taken has the shape its header says. *)
Definition whole_frame (fr : sbc_frame) : Prop :=
  blocks fr = Z.of_nat (length (sb_sample fr)) ∧ (subbands fr = 4 ∨ subbands fr = 8) ∧ (channels fr = 1 ∨ channels fr = 2).

Lemma unpack_header_shape data fr0 fr : unpack_header data fr0 = Ret fr →
  0 ≤ blocks fr ∧ (subbands fr = 4 ∨ subbands fr = 8) ∧ (channels fr = 1 ∨ channels fr = 2).
Proof.
  intros E. unfold unpack_header in E. apply outcome_bind_Ret_inv in E as (b1 & _ & E). apply outcome_bind_Ret_inv in E as (b2 & _ & E).
  injection E as <-. cbn [blocks subbands channels set_bitpool set_header]. split_and!.
  - repeat (match goal with |- context [if ?c then _ else _] => destruct c end); lia.
  - destruct (_ =? 0); tauto.
  - destruct (_ =? SBC_MODE_MONO); tauto.
Qed.

Lemma unpack_success stray data fr0 len n fr : sbc_unpack_frame stray data fr0 len = Ret (n, fr) → 0 < n → whole_frame fr.
Proof.
  intros E Hn. unfold sbc_unpack_frame in E. destruct (len <? 4); [injection E as <- _; lia|].
  apply outcome_bind_Ret_inv in E as (b0 & _ & E). destruct (negb (b0 =? SBC_SYNCWORD)); [injection E as <- _; lia|].
  apply outcome_bind_Ret_inv in E as (fr1 & Eh & E). apply unpack_header_shape in Eh.
  destruct (separate fr1 && _); [injection E as <- _; lia|]. destruct (together fr1 && _); [injection E as <- _; lia|].
  apply outcome_bind_Ret_inv in E as (b1 & _ & E). destruct (_ && _); [injection E as <- _; lia|].
  apply outcome_bind_Ret_inv in E as ([[fr2 hdr] k] & Ej & E).
  assert (blocks fr2 = blocks fr1 ∧ subbands fr2 = subbands fr1 ∧ channels fr2 = channels fr1) as (B2 & S2 & C2).
  { unfold unpack_joint in Ej. destruct (mode fr1 =? SBC_MODE_JOINT_STEREO).
    - apply outcome_bind_Ret_inv in Ej as (b4 & _ & Ej). by injection Ej as <- _ _.
    - by injection Ej as <- _ _. }
  destruct (_ <? _); [injection E as <- _; lia|]. apply outcome_bind_Ret_inv in E as ([[[l c] hdr'] pos] & _ & E).
  apply outcome_bind_Ret_inv in E as (crc & _ & E). apply outcome_bind_Ret_inv in E as (b3 & _ & E). destruct (negb (b3 =? crc)); [injection E as <- _; lia|].
  unfold unpack_audio in E. apply outcome_bind_Ret_inv in E as (bits & _ & E). apply outcome_bind_Ret_inv in E as ([[samples c2]|] & Er & E); [|injection E as <- _; lia].
  apply read_blocks_length in Er. injection E as _ <-. unfold whole_frame. cbn [blocks subbands channels sb_sample set_sb_sample set_scale_factor].
  cbn [blocks set_scale_factor] in Er. rewrite S2, C2, B2. destruct Eh as (Hb & HS & HC). split; [|by split].
  destruct (_ =? SBC_MODE_JOINT_STEREO); rewrite ?length_map, Er, B2; lia.
Qed.

(** A decoder that has played the blocks whose matrix outputs are [hists]. *)
Definition decoder_ok (m c : nat) (sbc : sbc_t) (hists : list (list (list Z))) : Prop :=
  ∃ p, priv sbc = Some p ∧
  if init p then state_ok m c (dec_state p) hists else hists = replicate c [] ∧ length (offset (dec_state p)) = 2%nat.

Lemma length_sample_octets endian s : length (sample_octets endian s) = 2%nat.
Proof. unfold sample_octets. by destruct (endian =? SBC_BE). Qed.

Lemma length_pcm_octets endian n rows : length (pcm_octets endian n rows) = (n * length rows * 2)%nat.
Proof.
  assert (∀ i, length (concat (map (λ row, sample_octets endian (nth i row 0)) rows)) = (2 * length rows)%nat) as H.
  { intros i. induction rows as [|row rows IH]; [done|]. cbn [map concat length]. rewrite length_app, length_sample_octets, IH. lia. }
  unfold pcm_octets. rewrite <- (length_seq n 0) at 2. induction (seq 0 n) as [|i l IH]; [done|]. cbn [map concat length].
  rewrite length_app, H, IH. lia.
Qed.

(** The samples of a channel that a frame adds. *)
Definition played (m : nat) (fr : sbc_frame) (hists : list (list (list Z))) : list (list Z) :=
  imap (λ i hist, reference m (channel_blocks i (sb_sample fr)) hist) hists.
Definition played_hists (m : nat) (fr : sbc_frame) (hists : list (list (list Z))) : list (list (list Z)) :=
  imap (λ i hist, register_after m (channel_blocks i (sb_sample fr)) hist) hists.

Lemma decode_init_spec m c sbc p fr hists : size_ok m → (c ≤ 2)%nat → subbands fr = Z.of_nat m →
  (if init p then state_ok m c (dec_state p) hists else hists = replicate c [] ∧ length (offset (dec_state p)) = 2%nat) →
  ∃ sbc' p' fr', decode_init sbc (Priv (init p) fr (dec_state p) (enc_state p)) = Ret (sbc', p') ∧
    init p' = true ∧ frame p' = fr' ∧ header_fields fr' = header_fields fr ∧ sb_sample fr' = sb_sample fr ∧ state_ok m c (dec_state p') hists ∧
    sbc_endian sbc' = sbc_endian sbc.
Proof.
  intros Hm Hc Hs Hp. unfold decode_init. cbn [init]. destruct (init p) eqn:Ei.
  - by eexists _, _, _.
  - destruct Hp as [-> Hl]. cbn [frame dec_state enc_state]. cbv zeta.
    unfold sbc_get_codesize, sbc_get_frame_length. cbn [priv init frame negb]. rewrite !outcome_bind_ret.
    eexists _, _, _. split; [done|]. cbn [init frame dec_state]. split_and!; try done. rewrite Hs. by apply init_state.
Qed.

Lemma decode_step_lemma (stray : Z) (m c : nat) (sbc : sbc_t) (p : sbc_priv) (hists : list (list (list Z))) (input out : list Z) (len n : Z)
    (fr : sbc_frame) (Hm : size_ok m) (Hc : (0 < c ≤ 2)%nat) (Hsbc : decoder_ok m c sbc hists) (Hp : priv sbc = Some p)
    (Hun : sbc_unpack_frame stray input (frame p) len = Ret (n, fr)) (Hn : 0 < n) (Hsb : subbands fr = Z.of_nat m) (Hch : channels fr = Z.of_nat c) :
  let samples := Z.to_nat (Z.min (blocks fr * subbands fr) (Z.of_nat (length out) / (channels fr * 2))) in
  let octets := pcm_octets (sbc_endian sbc) samples (played m fr hists) in
  ∃ sbc', sbc_decode stray sbc input len (Some out) (Z.of_nat (length out)) =
      Ret (n, Some (Z.of_nat (length octets)), Some (octets ++ drop (length octets) out), sbc') ∧
    sbc_endian sbc' = sbc_endian sbc ∧ decoder_ok m c sbc' (played_hists m fr hists).
Proof.
  intros samples octets. destruct Hsbc as (p' & Ep & Hok). rewrite Hp in Ep. injection Ep as <-. destruct (unpack_success _ _ _ _ _ _ Hun Hn) as (Hb & _ & _).
  destruct (decode_init_spec m c sbc p fr hists Hm ltac:(lia) Hsb Hok) as (sbc1 & p1 & fr1 & Ei & Ii & Ef & Eh & Es & Hst & Een).
  destruct (header_fields_eq _ _ Eh) as (_ & _ & E3 & _ & E5 & _ & _ & E8 & _).
  destruct (synthesize_audio_spec m c (dec_state p1) fr1 hists Hm ltac:(lia)) as (st' & EA & Hst'); [|done|].
  { split; [by rewrite E8|]. split; [by rewrite E5|]. by rewrite E3, Es. }
  rewrite Es in EA, Hst'. fold (played m fr hists) in EA. fold (played_hists m fr hists) in Hst'.
  assert (length (played m fr hists) = c) as Hlp by (unfold played; rewrite length_imap; apply Hst).
  assert (0 ≤ blocks fr * subbands fr) as Hbs by (rewrite Hb, Hsb; lia).
  assert (length octets = (samples * c * 2)%nat) as Hlo by (subst octets; by rewrite length_pcm_octets, Hlp).
  set (q := Z.of_nat (length out) / (channels fr * 2)) in *.
  assert (0 ≤ q ∧ q * (channels fr * 2) ≤ Z.of_nat (length out) ∧ (blocks fr * subbands fr * channels fr * 2 ≤ Z.of_nat (length out) ↔ blocks fr * subbands fr ≤ q)) as (Hq0 & Hq1 & Hq2).
  { subst q. rewrite Hch. generalize (Z.of_nat (length out)) (blocks fr * subbands fr) (Nat2Z.is_nonneg (length out)). intros L N HL.
    assert (0 < Z.of_nat c * 2) as Hc2 by lia. generalize dependent (Z.of_nat c). intros k Hch' Hc2.
    pose proof (Z.div_mod L (k * 2) ltac:(lia)). pose proof (Z.mod_pos_bound L (k * 2) Hc2). replace (N * k * 2) with (k * 2 * N) by lia.
    split_and!; [apply Z.div_pos; lia|lia|]. split; intros; [apply Z.div_le_lower_bound; lia|nia]. }
  assert (Z.of_nat samples = Z.min (blocks fr * subbands fr) q) as Esam by (subst samples; lia).
  exists (set_priv (Some (Priv true (set_pcm_sample (played m fr hists) fr1) st' (enc_state p1))) sbc1). split.
  - unfold sbc_decode. rewrite Hp, Hun, outcome_bind_ret. cbv iota. rewrite Ei, outcome_bind_ret. cbv iota.
    rewrite (proj2 (Z.leb_gt _ _)) by done. rewrite Ef, EA, outcome_bind_ret. cbv iota zeta. cbn [channels pcm_sample set_pcm_sample].
    rewrite E3, E5, E8, Een. fold q.
    assert ((if Z.of_nat (length out) <? blocks fr * subbands fr * channels fr * 2 then q else blocks fr * subbands fr) = Z.of_nat samples) as ->.
    { rewrite Esam. destruct (Z.ltb_spec (Z.of_nat (length out)) (blocks fr * subbands fr * channels fr * 2)); lia. }
    rewrite Nat2Z.id. fold octets. rewrite wr_front.
    + rewrite outcome_bind_ret, Ii. do 5 f_equal. rewrite Hlo, Hch. lia.
    + rewrite Hlo. rewrite Hch in Hq1. nia.
  - split; [exact Een|]. eexists. split; [done|]. cbn [init dec_state]. exact Hst'.
Qed.

(** C28: Every call of the decoder is sound. A decoder, fresh or in the middle of
    a stream of [m] subbands and [c] channels, that is given a frame it takes,
    plays it: the output gets as many whole sample frames as fit, of the
    samples the A2DP synthesis yields for all frames so far, the channels
    interleaved in the byte order chosen; [*written] is their size, the octets
    after them are untouched, and the decoder is ready for the next frame. *)
Theorem decode_step_sound (stray : Z) (m c : nat) (sbc : sbc_t) (p : sbc_priv) (hists : list (list (list Z))) (input out : list Z) (len n : Z)
    (fr : sbc_frame) (Hm : size_ok m) (Hc : (0 < c ≤ 2)%nat) (Hsbc : decoder_ok m c sbc hists) (Hp : priv sbc = Some p)
    (Hun : sbc_unpack_frame stray input (frame p) len = Ret (n, fr)) (Hn : 0 < n) (Hsb : subbands fr = Z.of_nat m) (Hch : channels fr = Z.of_nat c) :
  let samples := Z.to_nat (Z.min (blocks fr * subbands fr) (Z.of_nat (length out) / (channels fr * 2))) in
  let octets := pcm_octets (sbc_endian sbc) samples (played m fr hists) in
  ∃ sbc', sbc_decode stray sbc input len (Some out) (Z.of_nat (length out)) =
      Ret (n, Some (Z.of_nat (length octets)), Some (octets ++ drop (length octets) out), sbc') ∧
    decoder_ok m c sbc' (played_hists m fr hists).
Proof.
  cbv zeta. destruct (decode_step_lemma stray m c sbc p hists input out len n fr Hm Hc Hsbc Hp Hun Hn Hsb Hch) as (sbc' & H1 & _ & H2).
  by exists sbc'.
Qed.

(** A fresh decoder, the frame of [example_frame], and room for two samples of
    each channel and two octets more. *)
Definition example_decoder : sbc_t := Sbc 0 0 0 0 0 0 0 SBC_BE (Some zero_priv).
Definition example_data : list Z := [156; 78; 19; 192; 32; 0; 0; 0; 12; 231; 49; 156; 230; 51; 156; 198; 115; 152].
Definition example_unpacked : sbc_frame :=
  match sbc_unpack_frame 0 example_data zero_frame 18 with Ret (_, fr) => fr | _ => zero_frame end.

Lemma decode_step_sound_witness :
  ∃ sbc', sbc_decode 0 example_decoder example_data 18 (Some (replicate 10 1)) 10 =
    Ret (18, Some 8, Some (pcm_octets SBC_BE 2 (played 4 example_unpacked [[]; []]) ++ [1; 1]), sbc') ∧
    decoder_ok 4 2 sbc' (played_hists 4 example_unpacked [[]; []]).
Proof.
  apply (decode_step_sound 0 4 2 example_decoder zero_priv [[]; []] example_data (replicate 10 1) 18 18 example_unpacked).
  - by left.
  - lia.
  - exists zero_priv. split; [reflexivity|]. split; reflexivity.
  - reflexivity.
  - vm_compute. reflexivity.
  - lia.
  - vm_compute. reflexivity.
  - vm_compute. reflexivity.
Defined.
