(* ===== verification/SbcCodec.v ===== *)
(** utils/sbc/sbc.c: an encoder and a decoder in a row. Theorem: what comes out
    of the decoder, call after call, is the A2DP synthesis of the A2DP analysis
    of what went into the encoder, but for the steps of the quantisers
    ([codec_stream]). *)

From stdpp Require Import base list numbers sorting.
From Stdlib Require Import ZArith Lia.
From S2P Require Import Prelude Sbc SbcBits SbcStream SbcFrame SbcJoint SbcTables SbcAnalysis SbcFilter SbcSynth SbcApi.

Local Open Scope Z_scope.

(** * A stream through both

    Each input is encoded into a fresh buffer of [size] octets, and what was
    written is decoded into one of [psize] octets. *)

Fixpoint transcode (stray stray' : Z) (size psize : nat) (inputs : list (list Z)) (enc dec : sbc_t) : outcome (list (list Z)) :=
  match inputs with
  | [] => Ret []
  | pcm :: inputs =>
      r ← sbc_encode stray enc pcm (Z.of_nat (length pcm)) (Some (replicate size 0)) (Z.of_nat size);
      let '(_, written, data, enc) := r in
      match data with
      | None => Undef
      | Some data =>
          r ← sbc_decode stray' dec data written (Some (replicate psize 0)) (Z.of_nat psize);
          let '(_, _, out, dec) := r in
          match out with
          | None => Undef
          | Some out => l ← transcode stray stray' size psize inputs enc dec; Ret (out :: l)
          end
      end
  end.

(** ** What a frame loses

    [A] are the subband samples the analysis yields, [D] those the synthesis
    gets. *)

Definition frame_close (fr : sbc_frame) (A D : list (list (list Z))) : Prop :=
  ∃ fr1 bits vs, header_fields fr1 = header_fields fr ∧ sbc_calculate_bits fr1 = Ret bits ∧
    samples_recovered A (joined fr1 (sb_sample_f fr1)) ∧
    Forall2 (block_close (zip_with zip bits (scale_factor fr1))) (sb_sample_f fr1) vs ∧ D = joined fr1 vs.

(** The samples each frame adds to each channel. *)
Fixpoint play (m : nat) (Ds : list (list (list (list Z)))) (hists : list (list (list Z))) : list (list (list Z)) :=
  match Ds with
  | [] => []
  | D :: Ds =>
      imap (λ i hist, reference m (channel_blocks i D) hist) hists ::
      play m Ds (imap (λ i hist, register_after m (channel_blocks i D) hist) hists)
  end.

Lemma play_channel m Ds hists ch : (ch < length hists)%nat →
  concat (map (λ rows, nth ch rows []) (play m Ds hists)) = reference m (concat (map (channel_blocks ch) Ds)) (nth ch hists []).
Proof.
  revert hists. induction Ds as [|D Ds IH]; intros hists Hch; [done|]. cbn [play map concat].
  rewrite IH by (by rewrite length_imap). rewrite reference_app. destruct (lookup_lt_is_Some_2 hists ch Hch) as [hist Hh].
  rewrite (nth_lookup_Some hists ch [] hist Hh).
  erewrite (nth_lookup_Some (imap (λ i hist, reference _ _ _) hists)) by (rewrite list_lookup_imap, Hh; done).
  by erewrite (nth_lookup_Some (imap (λ i hist, register_after _ _ _) hists)) by (rewrite list_lookup_imap, Hh; done).
Qed.

Lemma transcode_spec stray stray' fr be inputs :
  byte_ok stray → byte_ok stray' → header_fields_ok fr →
  Forall (λ pcm, Forall byte_ok pcm ∧ input_size fr ≤ Z.of_nat (length pcm)) inputs →
  let m := bands (bank_of fr) in
  let c := Z.to_nat (channels fr) in
  let n := Z.to_nat (blocks fr) in
  ∀ enc dec hs hists, encoder_ok enc hs → fresh_frame enc = fr → (sbc_endian enc =? SBC_BE) = be → decoder_ok m c dec hists →
  ∃ Ds, transcode stray stray' (Z.to_nat (frame_size fr)) (Z.to_nat (input_size fr)) inputs enc dec =
      Ret (map (pcm_octets (sbc_endian dec) (n * m)) (play m Ds hists)) ∧
    Forall2 (frame_close fr) (stream_reference (bank_of fr) be n inputs hs) Ds.
Proof.
  intros Hs Hs' Hh Hin m c n. destruct (header_numbers fr Hh) as (Hb & Hsb & n' & g & Hn & _).
  assert (n = n') as En by (subst n; lia). rewrite En in *. clear n En.
  assert (size_ok m) as Hm by (subst m; destruct Hb as [-> | ->]; [by left|by right]).
  assert (Z.of_nat c = channels fr ∧ (0 < c ≤ 2)%nat) as [Hc Hc2].
  { subst c. destruct Hh as (_ & _ & _ & _ & -> & _). destruct (_ =? _); lia. }
  fold m in Hsb. induction Hin as [|pcm inputs [Hbytes Hlen] _ IH]; intros enc dec hs hists Henc Hfr Hbe Hdec; cbn [transcode stream_reference].
  - by exists [].
  - assert (0 ≤ frame_size fr) as Hfs.
    { destruct Henc as (Hok & _). pose proof (frame_length_small enc Hok). rewrite Hfr in *. lia. }
    destruct (encode_step_lemma stray enc hs pcm (replicate (Z.to_nat (frame_size fr)) 0) Henc Hs Hbytes) as (data & fr1 & enc' & E & Hld & Eh & Hdec1 & Hrec & Hfr' & Hend & Henc').
    { by rewrite Hfr. } { rewrite Hfr, length_replicate. lia. }
    rewrite Hfr in *. rewrite length_replicate in E. rewrite E, outcome_bind_ret. cbv iota.
    rewrite drop_replicate. replace (Z.to_nat (frame_size fr) - length data)%nat with 0%nat by lia. cbn [replicate].
    destruct Hdec1 as (bits & Ebits & Hdec1). destruct Hdec as (p & Ep & Hp).
    destruct (Hdec1 stray' (frame p) [] (frame_size fr) Hs' ltac:(constructor)) as (fr2 & vs & Eun & Eh2 & Esf & Ej & Ess & Hclose).
    { rewrite (frame_size_ext _ _ Eh). lia. }
    rewrite (frame_size_ext _ _ Eh) in Eun. rewrite Eh in Eh2. destruct (header_fields_eq _ _ Eh2) as (_ & _ & F3 & _ & F5 & _ & _ & F8 & _).
    assert (0 < frame_size fr) as Hpos.
    { assert (4 ≤ frame_size fr); [|lia]. unfold frame_size. assert (0 ≤ (prefix_size fr + 4 * subbands fr * channels fr + audio_size fr + 7) / 8); [|lia].
      apply Z.div_pos; [|lia]. destruct Henc' as ((_ & Hbp & _) & _). rewrite Hfr' in Hbp.
      unfold prefix_size, audio_size. destruct (is_joint fr), (separate fr); nia. }
    destruct (decode_step_lemma stray' m c dec p hists (data ++ []) (replicate (Z.to_nat (input_size fr)) 0) (frame_size fr) (frame_size fr) fr2 Hm Hc2)
      as (dec' & ED & Hend' & Hdec').
    { by exists p. } { done. } { exact Eun. } { done. } { by rewrite F8. } { by rewrite F5. }
    rewrite length_replicate in ED. rewrite ED, outcome_bind_ret. cbv iota.
    assert (0 ≤ input_size fr) as Hi0 by (unfold input_size; nia).
    assert (Z.to_nat (Z.min (blocks fr2 * subbands fr2) (Z.of_nat (Z.to_nat (input_size fr)) / (channels fr2 * 2))) = (n' * m)%nat) as Esam.
    { rewrite F3, F5, F8, Z2Nat.id by done. unfold input_size. replace (2 * (subbands fr * blocks fr * channels fr)) with (blocks fr * subbands fr * (channels fr * 2)) by lia.
      rewrite Z.div_mul by lia. rewrite Z.min_id, Hn, Hsb. lia. }
    rewrite Esam. rewrite drop_replicate, length_pcm_octets.
    assert (length (played m fr2 hists) = c) as Hlp.
    { unfold played. rewrite length_imap. destruct (init p); [by destruct Hp|]. destruct Hp as [-> _]. apply length_replicate. }
    replace (Z.to_nat (input_size fr) - n' * m * length (played m fr2 hists) * 2)%nat with 0%nat.
    2:{ rewrite Hlp. unfold input_size. rewrite Hn, Hsb, <- Hc. lia. }
    cbn [replicate]. rewrite app_nil_r.
    destruct (IH enc' dec' (new_history enc pcm hs) (played_hists m fr2 hists) Henc' Hfr' ltac:(by rewrite Hend) Hdec') as (Ds & EI & HF).
    rewrite EI, outcome_bind_ret. exists (sb_sample fr2 :: Ds). split; [by rewrite Hend'|].
    cbv zeta. unfold new_history in HF, Hrec. rewrite Hfr, Hn, Nat2Z.id, Hbe in HF. rewrite Hfr, Hn, Nat2Z.id, Hbe in Hrec.
    constructor; [|exact HF]. exists fr1, bits, vs. by split_and!.
Qed.


