(* ===== verification/Heap.v ===== *)
(** Structures in memory: a map from addresses to structures for each type, and
    the lists of addresses that hold them. What [g_slist_remove] does to such a
    list is [sdp_list_remove] (GSList proves it of the lists of eglib). *)

From stdpp Require Import base list numbers gmap.
From Stdlib Require Import ZArith Lia.
From S2P Require Import Prelude CString SdpTypes SdpList.

Local Open Scope Z_scope.

(** Following a pointer; a structure that was freed is gone. *)
Definition at_ptr {X} (h : gmap Z X) (a : Z) : outcome X := match h !! a with Some x => Ret x | None => Undef end.

Lemma at_ptr_Some {X} (h : gmap Z X) a x : h !! a = Some x → at_ptr h a = Ret x.
Proof. unfold at_ptr. by intros ->. Qed.

Lemma at_ptr_Ret {X} (h : gmap Z X) a x : at_ptr h a = Ret x → h !! a = Some x.
Proof. unfold at_ptr. destruct (h !! a); [by intros [= ->]|done]. Qed.

(** The first element of a list that passes a test. *)
Fixpoint find_at {X} (h : gmap Z X) (test : X → bool) (l : list Z) : outcome (option Z) :=
  match l with
  | [] => Ret None
  | a :: l => x ← at_ptr h a; if test x then Ret (Some a) else find_at h test l
  end.

Lemma find_at_spec {X} (h : gmap Z X) test l : (∀ a, a ∈ l → is_Some (h !! a)) →
  ∃ r, find_at h test l = Ret r ∧ match r with
    | Some a => a ∈ l ∧ ∃ x, h !! a = Some x ∧ test x = true
    | None => ∀ a x, a ∈ l → h !! a = Some x → test x = false
    end.
Proof.
  induction l as [|a l IH]; intros Hl; cbn [find_at].
  - exists None. split; [done|]. by intros a x ?%elem_of_nil.
  - destruct (Hl a) as [x Hx]; [by left|]. rewrite (at_ptr_Some _ _ _ Hx), outcome_bind_ret. destruct (test x) eqn:E.
    + exists (Some a). split; [done|]. split; [by left|by exists x].
    + destruct IH as (r & -> & Hr); [intros; apply Hl; by right|]. exists r. split; [done|]. destruct r as [b|].
      * destruct Hr as [Hb Hr]. split; [by right|done].
      * intros b y [->|Hb]%elem_of_cons Hy; [congruence|by eapply Hr].
Qed.

Lemma list_remove_absent (l : list Z) a : a ∉ l → sdp_list_remove l a = l.
Proof.
  induction l as [|b l IH]; [done|]. rewrite not_elem_of_cons. intros [Hb Ha]. cbn. rewrite decide_False by done. by rewrite IH.
Qed.

Lemma list_remove_head (l : list Z) a : sdp_list_remove (a :: l) a = l.
Proof. cbn. by rewrite decide_True. Qed.

Lemma list_remove_NoDup (l : list Z) a : NoDup l → NoDup (sdp_list_remove l a).
Proof. intros Hn. eapply sublist_NoDup; [exact Hn|apply remove_sublist]. Qed.

Lemma elem_of_list_remove (l : list Z) a b : NoDup l → b ∈ sdp_list_remove l a ↔ b ∈ l ∧ b ≠ a.
Proof.
  intros Hn. destruct (decide (a ∈ l)) as [Ha|Ha].
  - pose proof (remove_perm l a Ha) as Hp. rewrite Hp in Hn. apply NoDup_cons in Hn as [Hx _].
    assert (b ∈ l ↔ b = a ∨ b ∈ sdp_list_remove l a) as -> by (rewrite Hp at 1; apply elem_of_cons). split; [|naive_solver].
    intros Hb. split; [by right|]. by intros ->.
  - rewrite list_remove_absent by done. split; [|by intros []]. intros Hb. split; [done|]. by intros ->.
Qed.

(** ** Results that satisfy a predicate *)

Definition yields {X} (o : outcome X) (P : X → Prop) : Prop := ∃ r, o = Ret r ∧ P r.

Lemma yields_ret {X} (x : X) (P : X → Prop) : P x → yields (Ret x) P.
Proof. intros Hx. by exists x. Qed.

Lemma yields_bind {X Y} (o : outcome X) (f : X → outcome Y) (Q : X → Prop) (P : Y → Prop) :
  yields o Q → (∀ x, Q x → yields (f x) P) → yields (o ≫= f) P.
Proof. intros (x & -> & Hx) Hf. rewrite outcome_bind_ret. by apply Hf. Qed.

Lemma yields_mono {X} (o : outcome X) (P Q : X → Prop) : yields o P → (∀ x, P x → Q x) → yields o Q.
Proof. intros (x & -> & Hx) Hi. exists x. auto. Qed.

(** ** An allocator *)

Definition next_above (X : gset Z) : Z := foldr Z.max 0 (elements X) + 1.

Lemma next_above_fresh X : next_above X ∉ X.
Proof.
  assert (∀ l : list Z, ∀ a, a ∈ l → a ≤ foldr Z.max 0 l) as Hm.
  { induction l as [|b l IH]; intros a; [by intros ?%elem_of_nil|]. intros [->|Ha]%elem_of_cons; cbn; [lia|]. specialize (IH a Ha). lia. }
  intros Hx%elem_of_elements%Hm. unfold next_above in Hx. lia.
Qed.
