(* ===== verification/GSList.v ===== *)
(** utils/eglib/gmain.c, [GSList]: singly linked lists on a heap of nodes.
    Theorems: in any memory, any sequence of operations acts on the list of
    data as the operations on lists do, frees what it unlinks and leaves the
    rest of the memory alone; [g_slist_sort] is a stable sort that only
    relinks nodes. *)

From stdpp Require Import base list numbers gmap sorting.
From Stdlib Require Import ZArith Lia.
From S2P Require Import Prelude CString SdpTypes SdpList.

Local Open Scope Z_scope.

(** A node; [NULL] is [None]. Data pointers are compared, never followed. *)
Record GSList := Node { data : Z; next : option Z }.
Abbreviation heap := (gmap Z GSList).

Definition node_at (h : heap) (p : option Z) : outcome GSList :=
  match p with
  | Some a => match h !! a with Some n => Ret n | None => Undef end
  | None => Undef
  end.
Definition set_next (h : heap) (p q : option Z) : outcome heap :=
  n ← node_at h p; Ret (match p with Some a => <[a := Node (data n) q]> h | None => h end).
Definition free_node (h : heap) (p : option Z) : outcome heap :=
  match p with
  | Some a => n ← node_at h p; Ret (delete a h)
  | None => Ret h
  end.

(** A loop over a list that ends visits no node twice. *)
Definition list_fuel (h : heap) : nat := S (S (size h)).

Section operations.
(** The address [malloc] gives for a new node, when these are in use. *)
Context (malloc : gset Z → Z).

Definition new_node (h : heap) (d : Z) (q : option Z) : option Z * heap :=
  let a := malloc (dom h) in (Some a, <[a := Node d q]> h).

Fixpoint last_loop (fuel : nat) (h : heap) (tail : option Z) : outcome (option Z) :=
  match fuel with
  | O => NoFuel
  | S fuel => n ← node_at h tail; match next n with None => Ret tail | q => last_loop fuel h q end
  end.

Definition g_slist_append (h : heap) (list : option Z) (d : Z) : outcome (option Z * heap) :=
  let '(entry, h) := new_node h d None in
  match list with
  | None => Ret (entry, h)
  | Some _ =>
      tail ← last_loop (list_fuel h) h list;
      h ← set_next h tail entry;
      Ret (list, h)
  end.

Definition g_slist_prepend (h : heap) (list : option Z) (d : Z) : option Z * heap := new_node h d list.

Fixpoint insert_loop (fuel : nat) (h : heap) (cmp_func : Z → Z → Z) (d : Z) (prev tmp : option Z) (cmp : Z)
    : outcome (option Z * option Z * Z) :=
  match fuel with
  | O => NoFuel
  | S fuel =>
      n ← node_at h tmp;
      match next n with
      | Some _ =>
          if 0 <? cmp then
            m ← node_at h (next n);
            insert_loop fuel h cmp_func d tmp (next n) (cmp_func d (data m))
          else Ret (prev, tmp, cmp)
      | None => Ret (prev, tmp, cmp)
      end
  end.

Definition g_slist_insert_sorted (h : heap) (list : option Z) (d : Z) (cmp_func : Z → Z → Z) : outcome (option Z * heap) :=
  let '(entry, h) := new_node h d None in
  match list with
  | None => Ret (entry, h)
  | Some _ =>
      n ← node_at h list;
      r ← insert_loop (list_fuel h) h cmp_func d None list (cmp_func d (data n));
      let '(prev, tmp, cmp) := r in
      n ← node_at h tmp;
      if bool_decide (next n = None) && (0 <? cmp) then
        h ← set_next h tmp entry; Ret (list, h)
      else
        match prev with
        | Some _ => h ← set_next h prev entry; h ← set_next h entry tmp; Ret (list, h)
        | None => h ← set_next h entry list; Ret (entry, h)
        end
  end.

(** The loops of [g_slist_remove], [g_slist_find] and [g_slist_find_custom]:
    the first node whose data passes the test, and the node before it. *)
Fixpoint find_loop (fuel : nat) (h : heap) (test : Z → bool) (prev l : option Z) : outcome (option Z * option Z) :=
  match fuel with
  | O => NoFuel
  | S fuel =>
      match l with
      | None => Ret (prev, None)
      | Some _ => n ← node_at h l; if test (data n) then Ret (prev, l) else find_loop fuel h test l (next n)
      end
  end.

Definition g_slist_remove (h : heap) (list : option Z) (d : Z) : outcome (option Z * heap) :=
  match list with
  | None => Ret (None, h)
  | Some _ =>
      r ← find_loop (list_fuel h) h (λ x, x =? d) None list;
      let '(prev, match_) := r in
      match match_ with
      | None => Ret (list, h)
      | Some _ =>
          n ← node_at h match_;
          h ← free_node h match_;
          match prev with
          | None => Ret (next n, h)
          | Some _ => h ← set_next h prev (next n); Ret (list, h)
          end
      end
  end.

Definition g_slist_find (h : heap) (list : option Z) (d : Z) : outcome (option Z) :=
  r ← find_loop (list_fuel h) h (λ x, x =? d) None list; Ret r.2.
Definition g_slist_find_custom (h : heap) (list : option Z) (d : Z) (cmp_func : Z → Z → Z) : outcome (option Z) :=
  r ← find_loop (list_fuel h) h (λ x, cmp_func x d =? 0) None list; Ret r.2.

(** [&list], the node on the stack whose [next] is the merged list, is [None]
    for [l]; [head] is its [next]. [l->next = q]. *)
Definition merge_link (h : heap) (head l q : option Z) : outcome (option Z * heap) :=
  match l with None => Ret (q, h) | Some _ => h ← set_next h l q; Ret (head, h) end.

Fixpoint merge_loop (fuel : nat) (h : heap) (cmp_func : Z → Z → Z) (head l l1 l2 : option Z) : outcome (option Z * heap) :=
  match fuel with
  | O => NoFuel
  | S fuel =>
      match l1, l2 with
      | Some _, Some _ =>
          n1 ← node_at h l1; n2 ← node_at h l2;
          if cmp_func (data n1) (data n2) <=? 0 then
            r ← merge_link h head l l1; let '(head, h) := r in
            n1 ← node_at h l1; merge_loop fuel h cmp_func head l1 (next n1) l2
          else
            r ← merge_link h head l l2; let '(head, h) := r in
            n2 ← node_at h l2; merge_loop fuel h cmp_func head l2 l1 (next n2)
      | _, _ => merge_link h head l (match l1 with Some _ => l1 | None => l2 end)
      end
  end.

Definition g_slist_sort_merge (h : heap) (l1 l2 : option Z) (cmp_func : Z → Z → Z) : outcome (option Z * heap) :=
  merge_loop (list_fuel h) h cmp_func None None l1 l2.

(** [l1] goes one node for every two of [l2]. *)
Fixpoint split_loop (fuel : nat) (h : heap) (l1 l2 : option Z) : outcome (option Z) :=
  match fuel with
  | O => NoFuel
  | S fuel =>
      n ← node_at h l2;
      match next n with
      | None => Ret l1
      | l2 =>
          n ← node_at h l2;
          match next n with
          | None => Ret l1
          | l2 => m ← node_at h l1; split_loop fuel h (next m) l2
          end
      end
  end.

Fixpoint sort_loop (fuel : nat) (h : heap) (list : option Z) (cmp_func : Z → Z → Z) : outcome (option Z * heap) :=
  match fuel with
  | O => NoFuel
  | S fuel =>
      match list with
      | None => Ret (list, h)
      | Some _ =>
          n ← node_at h list;
          match next n with
          | None => Ret (list, h)
          | l2 =>
              l1 ← split_loop (list_fuel h) h list l2;
              m ← node_at h l1;
              let l2 := next m in
              h ← set_next h l1 None;
              a ← sort_loop fuel h list cmp_func;
              b ← sort_loop fuel a.2 l2 cmp_func;
              g_slist_sort_merge b.2 a.1 b.1 cmp_func
          end
      end
  end.
Definition g_slist_sort (h : heap) (list : option Z) (cmp_func : Z → Z → Z) : outcome (option Z * heap) :=
  sort_loop (list_fuel h) h list cmp_func.

Fixpoint length_loop (fuel : nat) (h : heap) (list : option Z) (len : Z) : outcome Z :=
  match fuel with
  | O => NoFuel
  | S fuel =>
      match list with
      | None => Ret len
      | Some _ => n ← node_at h list; length_loop fuel h (next n) (len + 1)
      end
  end.
Definition g_slist_length (h : heap) (list : option Z) : outcome Z := length_loop (list_fuel h) h list 0.

(** The callback acts on a state of its own. *)
Fixpoint foreach_loop {S} (fuel : nat) (h : heap) (list : option Z) (func : Z → S → outcome S) (u : S) : outcome S :=
  match fuel with
  | O => NoFuel
  | Datatypes.S fuel =>
      match list with
      | None => Ret u
      | Some _ => n ← node_at h list; u ← func (data n) u; foreach_loop fuel h (next n) func u
      end
  end.
Definition g_slist_foreach {S} (h : heap) (list : option Z) (func : Z → S → outcome S) (u : S) : outcome S :=
  foreach_loop (list_fuel h) h list func u.

Fixpoint free_loop (fuel : nat) (h : heap) (l : option Z) : outcome heap :=
  match fuel with
  | O => NoFuel
  | S fuel =>
      match l with
      | None => Ret h
      | Some _ => n ← node_at h l; h ← free_node h l; free_loop fuel h (next n)
      end
  end.
Definition g_slist_free (h : heap) (list : option Z) : outcome heap := free_loop (list_fuel h) h list.

Fixpoint g_slist_nth (h : heap) (list : option Z) (n : nat) : outcome (option Z) :=
  match n, list with
  | S n, Some _ => m ← node_at h list; g_slist_nth h (next m) n
  | _, _ => Ret list
  end.
Definition g_slist_nth_data (h : heap) (list : option Z) (n : nat) : outcome (option Z) :=
  p ← g_slist_nth h list n;
  match p with None => Ret None | Some _ => m ← node_at h p; Ret (Some (data m)) end.

Fixpoint position_loop (fuel : nat) (h : heap) (list link : option Z) (i : Z) : outcome Z :=
  match fuel with
  | O => NoFuel
  | S fuel =>
      match list with
      | None => Ret (-1)
      | Some _ => if decide (list = link) then Ret i else n ← node_at h list; position_loop fuel h (next n) link (i + 1)
      end
  end.
Definition g_slist_position (h : heap) (list link : option Z) : outcome Z := position_loop (list_fuel h) h list link 0.

Definition g_slist_last (h : heap) (list : option Z) : outcome (option Z) :=
  match list with None => Ret None | Some _ => last_loop (list_fuel h) h list end.

Fixpoint remove_link_loop (fuel : nat) (h : heap) (list link prev tmp : option Z) : outcome (option Z * heap) :=
  match fuel with
  | O => NoFuel
  | S fuel =>
      match tmp with
      | None => Ret (list, h)
      | Some _ =>
          n ← node_at h tmp;
          if decide (tmp = link) then
            h ← (match prev with Some _ => set_next h prev (next n) | None => Ret h end);
            list ← (if decide (list = tmp) then m ← node_at h list; Ret (next m) else Ret list);
            h ← set_next h tmp None;
            Ret (list, h)
          else remove_link_loop fuel h list link tmp (next n)
      end
  end.
Definition _g_slist_remove_link (h : heap) (list link : option Z) : outcome (option Z * heap) :=
  remove_link_loop (list_fuel h) h list link None list.
Definition g_slist_delete_link (h : heap) (list link : option Z) : outcome (option Z * heap) :=
  r ← _g_slist_remove_link h list link;
  h ← free_node r.2 link;
  Ret (r.1, h).
End operations.

(** * Lists in memory *)

(** From [p] the nodes [cs], addresses and data, lead to [q]. *)
Fixpoint chain (h : heap) (p : option Z) (cs : list (Z * Z)) (q : option Z) : Prop :=
  match cs with
  | [] => p = q
  | (a, d) :: cs => p = Some a ∧ ∃ r, h !! a = Some (Node d r) ∧ chain h r cs q
  end.

Lemma chain_app h p cs1 cs2 q : chain h p (cs1 ++ cs2) q ↔ ∃ r, chain h p cs1 r ∧ chain h r cs2 q.
Proof.
  revert p. induction cs1 as [|[a d] cs1 IH]; intros p; cbn.
  - split; [by exists p|by intros (r & -> & ?)].
  - split.
    + intros (-> & r & Hr & Hc). apply IH in Hc as (r' & ? & ?). exists r'. split; [|done]. split; [done|]. by exists r.
    + intros (r' & (-> & r & Hr & Hc) & H2). split; [done|]. exists r. split; [done|]. apply IH. by exists r'.
Qed.

Lemma chain_same h h' p cs q : (∀ a, a ∈ cs.*1 → h' !! a = h !! a) → chain h p cs q → chain h' p cs q.
Proof.
  revert p. induction cs as [|[a d] cs IH]; intros p Hs; cbn; [done|]. intros (-> & r & Hr & Hc).
  split; [done|]. exists r. rewrite (Hs a) by (cbn; by left). split; [done|]. apply IH; [|done]. intros b Hb. apply Hs. cbn. by right.
Qed.

Lemma chain_insert h p cs q a n : a ∉ cs.*1 → chain h p cs q → chain (<[a := n]> h) p cs q.
Proof. intros Ha. apply chain_same. intros b Hb. apply lookup_insert_ne. by intros ->. Qed.

Lemma chain_det h p cs cs' : chain h p cs None → chain h p cs' None → cs = cs'.
Proof.
  revert p cs'. induction cs as [|[a d] cs IH]; intros p [|[a' d'] cs']; cbn.
  - done.
  - intros -> (? & _). done.
  - intros (-> & _) ?. done.
  - intros (-> & r & Hr & Hc) (Ea & r' & Hr' & Hc'). simplify_eq. f_equal. by eapply IH.
Qed.

Lemma chain_NoDup h p cs : chain h p cs None → NoDup cs.*1.
Proof.
  revert p. induction cs as [|[a d] cs IH]; intros p; cbn; [constructor|].
  intros (-> & r & Hr & Hc). constructor; [|by eapply IH]. intros Ha.
  apply list_elem_of_fmap in Ha as ([a' d'] & ? & Hin). cbn in *. subst a'.
  apply list_elem_of_split in Hin as (l1 & l2 & ->). pose proof Hc as Hc0. apply chain_app in Hc as (r' & _ & Hc2).
  assert ((a, d') :: l2 = (a, d) :: l1 ++ (a, d') :: l2) as E.
  { eapply (chain_det h (Some a)); [|cbn; eauto]. cbn in *. destruct Hc2 as (-> & Hc2). done. }
  apply (f_equal length) in E. cbn in E. rewrite length_app in E. cbn in E. lia.
Qed.

Lemma chain_size h p cs : chain h p cs None → (length cs ≤ size h)%nat.
Proof.
  intros Hc. pose proof (chain_NoDup _ _ _ Hc) as Hnd. rewrite <- (length_fmap fst), <- size_dom, <- (size_list_to_set (C:=gset Z)) by done.
  apply subseteq_size. intros a Ha. apply elem_of_list_to_set in Ha. clear Hnd.
  revert p Hc. induction cs as [|[b d] cs IH]; intros p; cbn in *; [by apply elem_of_nil in Ha|].
  intros (-> & r & Hr & Hc). apply elem_of_cons in Ha as [->|Ha]; [by eapply elem_of_dom_2|by eapply IH].
Qed.

Lemma chain_fuel h p cs : chain h p cs None → (length cs < list_fuel h)%nat.
Proof. intros H%chain_size. unfold list_fuel. lia. Qed.

Lemma chain_head h p a d cs q : chain h p ((a, d) :: cs) q → p = Some a ∧ ∃ r, h !! a = Some (Node d r) ∧ chain h r cs q.
Proof. done. Qed.

Lemma node_at_Some h a n : h !! a = Some n → node_at h (Some a) = Ret n.
Proof. intros E. unfold node_at. by rewrite E. Qed.

Lemma set_next_Some h a d r q : h !! a = Some (Node d r) → set_next h (Some a) q = Ret (<[a := Node d q]> h).
Proof. intros E. unfold set_next. by rewrite (node_at_Some _ _ _ E), outcome_bind_ret. Qed.

Lemma free_node_Some h a n : h !! a = Some n → free_node h (Some a) = Ret (delete a h).
Proof. intros E. unfold free_node. by rewrite (node_at_Some _ _ _ E), outcome_bind_ret. Qed.


Lemma chain_relink h p cs a d r q :
  chain h p (cs ++ [(a, d)]) r → a ∉ cs.*1 → chain (<[a := Node d q]> h) p (cs ++ [(a, d)]) q.
Proof.
  intros Hc Ha. apply chain_app in Hc as (r1 & H1 & -> & r2 & Hr2 & _). apply chain_app.
  exists (Some a). split; [by apply chain_insert|]. cbn. split; [done|]. exists q. by rewrite lookup_insert_eq.
Qed.

Lemma chain_lookup h p cs1 a d cs2 q : chain h p (cs1 ++ (a, d) :: cs2) q → ∃ r, h !! a = Some (Node d r) ∧ chain h r cs2 q.
Proof. intros Hc. apply chain_app in Hc as (r1 & _ & -> & H). done. Qed.

Lemma chain_dom h p cs q a : chain h p cs q → a ∈ cs.*1 → a ∈ dom h.
Proof.
  intros Hc Ha. apply list_elem_of_fmap in Ha as ([b d] & -> & Hin). apply list_elem_of_split in Hin as (l1 & l2 & ->).
  apply chain_lookup in Hc as (r & Hr & _). by eapply elem_of_dom_2.
Qed.

Lemma NoDup_mid {A} (l1 l2 : list A) a : NoDup (l1 ++ a :: l2) → (a ∉ l1) ∧ (a ∉ l2) ∧ NoDup (l1 ++ l2).
Proof.
  intros H. rewrite <- Permutation_middle in H. apply NoDup_cons in H as [Ha H]. rewrite elem_of_app in Ha. naive_solver.
Qed.

(** ** Loops *)

Lemma last_loop_spec h cs a d : ∀ fuel p, chain h p (cs ++ [(a, d)]) None → (length cs < fuel)%nat → last_loop fuel h p = Ret (Some a).
Proof.
  induction cs as [|[b e] cs IH]; intros [|fuel] p Hc Hf; cbn in Hf; try lia; cbn [app] in Hc;
    apply chain_head in Hc as (-> & r & Hr & Hc); cbn [last_loop]; rewrite (node_at_Some _ _ _ Hr), outcome_bind_ret; cbn [next].
  - by cbn in Hc; subst r.
  - assert (∃ c, r = Some c) as [c ->]; [|apply IH; [done|lia]].
    destruct cs as [|[c f] cs]; cbn in Hc; destruct Hc as (-> & _); by eexists.
Qed.

(** The address of the last node, or the one given. *)
Definition last_at (cs : list (Z * Z)) (p : option Z) : option Z := match last cs with Some c => Some c.1 | None => p end.

Lemma last_at_cons c cs p : last_at (c :: cs) p = last_at cs (Some c.1).
Proof. unfold last_at. rewrite last_cons. by destruct (last cs). Qed.

Lemma find_loop_spec h (test : Z → bool) cs : ∀ fuel p prev, chain h p cs None → (length cs < fuel)%nat →
  ∃ l1 l2, cs = l1 ++ l2 ∧ Forall (λ c, test c.2 = false) l1 ∧ (match l2 with [] => True | c :: _ => test c.2 = true end) ∧
    find_loop fuel h test prev p = Ret (last_at l1 prev, fst <$> head l2).
Proof.
  induction cs as [|[b e] cs IH]; intros [|fuel] p prev Hc Hf; cbn in Hf; try lia; [by cbn in Hc; subst p; exists [], []|].
  apply chain_head in Hc as (-> & r & Hr & Hc). cbn [find_loop]. rewrite (node_at_Some _ _ _ Hr), outcome_bind_ret. cbn [data next].
  destruct (test e) eqn:D; [by exists [], ((b, e) :: cs)|].
  destruct (IH fuel r (Some b) Hc) as (l1 & l2 & -> & H1 & H2 & ->); [lia|]. exists ((b, e) :: l1), l2.
  split_and!; [done|by constructor|done|by rewrite last_at_cons].
Qed.

Lemma length_loop_spec h cs : ∀ fuel p n, chain h p cs None → (length cs < fuel)%nat → length_loop fuel h p n = Ret (n + Z.of_nat (length cs)).
Proof.
  induction cs as [|[b e] cs IH]; intros [|fuel] p n Hc Hf; cbn in Hf; try lia; [cbn in Hc; subst p; cbn; f_equal; lia|].
  apply chain_head in Hc as (-> & r & Hr & Hc). cbn [length_loop]. rewrite (node_at_Some _ _ _ Hr), outcome_bind_ret. cbn [next].
  rewrite IH by (done || lia). f_equal. cbn [length]. lia.
Qed.

Lemma foreach_loop_spec {S} h (func : Z → S → outcome S) cs : ∀ fuel p u, chain h p cs None → (length cs < fuel)%nat →
  foreach_loop fuel h p func u = sdp_list_foreach cs.*2 func u.
Proof.
  induction cs as [|[b e] cs IH]; intros [|fuel] p u Hc Hf; cbn in Hf; try lia; [by cbn in Hc; subst p|].
  apply chain_head in Hc as (-> & r & Hr & Hc). cbn [foreach_loop]. rewrite (node_at_Some _ _ _ Hr), outcome_bind_ret. cbn [next data].
  cbn. destruct (func e u); cbn; try done. apply IH; [done|lia].
Qed.

Lemma free_loop_spec cs : ∀ fuel h p, chain h p cs None → (length cs < fuel)%nat →
  ∃ h', free_loop fuel h p = Ret h' ∧ ∀ a, h' !! a = if decide (a ∈ cs.*1) then None else h !! a.
Proof.
  induction cs as [|[b e] cs IH]; intros [|fuel] h p Hc Hf; cbn in Hf; try lia; [by cbn in Hc; subst p; exists h|].
  pose proof (chain_NoDup _ _ _ Hc) as Hnd. cbn in Hnd. apply NoDup_cons in Hnd as [Hb _].
  apply chain_head in Hc as (-> & r & Hr & Hc). cbn [free_loop].
  rewrite (node_at_Some _ _ _ Hr), outcome_bind_ret, (free_node_Some _ _ _ Hr), outcome_bind_ret. cbn [next].
  destruct (IH fuel (delete b h) r) as (h' & E & Hh'); [|lia|].
  - eapply chain_same; [|exact Hc]. intros a Ha. apply lookup_delete_ne. by intros ->.
  - exists h'. split; [exact E|]. intros a. rewrite Hh'. cbn [fmap list_fmap]. destruct (decide (a = b)) as [->|Hne].
    + rewrite lookup_delete_eq, (decide_True (P := b ∈ b :: _)) by (by left). by case_decide.
    + rewrite lookup_delete_ne by done. apply decide_ext. cbn. rewrite elem_of_cons. tauto.
Qed.

Lemma g_slist_nth_spec h n : ∀ cs p, chain h p cs None → g_slist_nth h p n = Ret (fst <$> cs !! n).
Proof.
  induction n as [|n IH]; intros [|[b e] cs] p Hc; cbn in Hc; try (subst p; done).
  - by destruct Hc as (-> & _).
  - destruct Hc as (-> & r & Hr & Hc). cbn [g_slist_nth]. rewrite (node_at_Some _ _ _ Hr), outcome_bind_ret. cbn [next]. by rewrite (IH cs).
Qed.

(** ** Operations *)

Definition same_but (l : list Z) (h h' : heap) : Prop := ∀ b, b ∉ l → h' !! b = h !! b.

Lemma same_but_insert l h a n : a ∈ l → same_but l h (<[a := n]> h).
Proof. intros Ha b Hb. apply lookup_insert_ne. by intros ->. Qed.
Lemma same_but_delete l h a : a ∈ l → same_but l h (delete a h).
Proof. intros Ha b Hb. apply lookup_delete_ne. by intros ->. Qed.
Lemma same_but_trans l h h' h'' : same_but l h h' → same_but l h' h'' → same_but l h h''.
Proof. intros H1 H2 b Hb. rewrite H2 by done. by apply H1. Qed.

(** The last node of a segment is made to point to another list. *)
Lemma chain_link h p l1 b f r q l2 :
  chain h p (l1 ++ [(b, f)]) r → b ∉ l1.*1 → chain h q l2 None → b ∉ l2.*1 →
  chain (<[b := Node f q]> h) p (l1 ++ (b, f) :: l2) None.
Proof.
  intros H1 Hb1 H2 Hb2. rewrite (assoc _ l1 [_] l2 : l1 ++ (b, f) :: l2 = (l1 ++ [(b, f)]) ++ l2).
  apply chain_app. exists q. split; [by eapply chain_relink|by apply chain_insert].
Qed.

(** The first place an element may go in a sorted list: [g_slist_insert_sorted]
    puts it before its equals. *)
Fixpoint insert_before {A} (cmp : A → A → Z) (d : A) (l : list A) : list A :=
  match l with
  | [] => [d]
  | x :: l' => if 0 <? cmp d x then x :: insert_before cmp d l' else d :: l
  end.

Lemma insert_before_split {A} (cmp : A → A → Z) d l1 l2 :
  Forall (λ x, 0 < cmp d x) l1 → (match l2 with [] => True | x :: _ => cmp d x ≤ 0 end) → insert_before cmp d (l1 ++ l2) = l1 ++ d :: l2.
Proof.
  intros H1 H2. induction H1 as [|x l1 Hx H1 IH]; cbn.
  - destruct l2; cbn; [done|]. by rewrite (proj2 (Z.ltb_ge _ _)).
  - rewrite (proj2 (Z.ltb_lt _ _)) by done. by rewrite IH.
Qed.

Section specs.
Context (malloc : gset Z → Z) (malloc_fresh : ∀ X, malloc X ∉ X).

Lemma new_node_spec h d q : ∃ a, new_node malloc h d q = (Some a, <[a := Node d q]> h) ∧ h !! a = None.
Proof using malloc_fresh. eexists. split; [done|]. apply not_elem_of_dom. apply malloc_fresh. Qed.

Lemma chain_fresh h p cs q a : chain h p cs q → h !! a = None → a ∉ cs.*1.
Proof using Type. intros Hc Ha Hin. apply (chain_dom _ _ _ _ _ Hc) in Hin. apply elem_of_dom in Hin as [? E]. by rewrite Ha in E. Qed.

Lemma append_spec h p cs d : chain h p cs None →
  ∃ a p' h', h !! a = None ∧ g_slist_append malloc h p d = Ret (p', h') ∧ chain h' p' (cs ++ [(a, d)]) None ∧ same_but (a :: cs.*1) h h'.
Proof using malloc_fresh.
  intros Hc. unfold g_slist_append. destruct (new_node_spec h d None) as (a & -> & Ha).
  pose proof (chain_fresh _ _ _ _ _ Hc Ha) as Hac. exists a.
  destruct cs as [|c cs] using rev_ind.
  - cbn in Hc. subst p. eexists _, _. split_and!; [done|done| |by apply same_but_insert, list_elem_of_here].
    cbn. split; [done|]. eexists. by rewrite lookup_insert_eq.
  - clear IHcs. destruct c as [b e]. pose proof (chain_NoDup _ _ _ Hc) as Hnd. rewrite fmap_app in Hnd, Hac. cbn in Hnd, Hac.
    apply NoDup_mid in Hnd as (Hb & _ & _). rewrite elem_of_app, list_elem_of_singleton in Hac.
    assert (∃ x, p = Some x) as [x ->] by (destruct cs as [|[]]; cbn in Hc; destruct Hc as (-> & _); by eexists).
    set (h1 := <[a := Node d None]> h). assert (chain h1 (Some x) (cs ++ [(b, e)]) None) as Hc1.
    { apply chain_insert; [|done]. rewrite fmap_app, elem_of_app; cbn; rewrite list_elem_of_singleton; tauto. }
    rewrite (last_loop_spec h1 cs b e) by (try done; apply chain_fuel in Hc1; rewrite length_app in Hc1; cbn in Hc1; lia).
    rewrite outcome_bind_ret. destruct (chain_lookup _ _ _ _ _ _ _ Hc1) as (r & Hr & _).
    rewrite (set_next_Some _ _ _ _ _ Hr), outcome_bind_ret. eexists _, _. split_and!; [done|done| |].
    + rewrite <- app_assoc. cbn. eapply chain_link; [done|done| |cbn; rewrite list_elem_of_singleton; intros ->; tauto].
      cbn. split; [done|]. exists None. subst h1. by rewrite lookup_insert_eq.
    + eapply same_but_trans; apply same_but_insert; [by left|]. right. rewrite fmap_app, elem_of_app. right. by left.
Qed.

Lemma prepend_spec h p cs d : chain h p cs None →
  ∃ a p' h', h !! a = None ∧ g_slist_prepend malloc h p d = (p', h') ∧ chain h' p' ((a, d) :: cs) None ∧ same_but (a :: cs.*1) h h'.
Proof using malloc_fresh.
  intros Hc. unfold g_slist_prepend. destruct (new_node_spec h d p) as (a & -> & Ha).
  pose proof (chain_fresh _ _ _ _ _ Hc Ha) as Hac. eexists a, _, _. split_and!; [done|done| |by apply same_but_insert, list_elem_of_here].
  cbn. split; [done|]. exists p. rewrite lookup_insert_eq. split; [done|]. by apply chain_insert.
Qed.

Definition on_data (cmp : Z → Z → Z) (c1 c2 : Z * Z) : Z := cmp c1.2 c2.2.

Lemma insert_loop_spec h cmp d cs : ∀ fuel prev a e, chain h (Some a) ((a, e) :: cs) None → (S (length cs) < fuel)%nat →
  ∃ l1 b f l2, (a, e) :: cs = l1 ++ (b, f) :: l2 ∧ Forall (λ c, 0 < cmp d c.2) l1 ∧ (l2 = [] ∨ cmp d f ≤ 0) ∧
    insert_loop fuel h cmp d prev (Some a) (cmp d e) = Ret (last_at l1 prev, Some b, cmp d f).
Proof using Type.
  induction cs as [|[b f] cs IH]; intros [|fuel] prev a e Hc Hf; try lia; apply chain_head in Hc as (_ & r & Hr & Hc); cbn [insert_loop];
    rewrite (node_at_Some _ _ _ Hr), outcome_bind_ret; cbn [next].
  - cbn in Hc. subst r. exists [], a, e, []. split_and!; [done|constructor|by left|done].
  - pose proof Hc as Hc0. apply chain_head in Hc as (-> & r' & Hr' & Hc). destruct (Z.ltb_spec 0 (cmp d e)).
    + rewrite (node_at_Some _ _ _ Hr'), outcome_bind_ret. cbn [data].
      destruct (IH fuel (Some a) b f Hc0) as (l1 & b' & f' & l2 & E & H1 & H2 & ->); [cbn in Hf; lia|].
      exists ((a, e) :: l1), b', f', l2. rewrite E. split_and!; [done|by constructor|done|by rewrite last_at_cons].
    + exists [], a, e, ((b, f) :: cs). split_and!; [done|constructor|by right|done].
Qed.

(** The node is put before [(b, f)], which the nodes [l1] lead to. *)
Lemma insert_middle h h1 x a d l1 b f l2 cmp :
  chain h1 (Some x) (l1 ++ (b, f) :: l2) None → h1 !! a = Some (Node d None) → h !! a = None →
  a ∉ l1.*1 → a ≠ b → a ∉ l2.*1 → NoDup (l1.*1 ++ l2.*1) → same_but (a :: (l1 ++ (b, f) :: l2).*1) h h1 →
  Forall (λ c, 0 < cmp d c.2) l1 → cmp d f ≤ 0 →
  ∃ p' h', h !! a = None ∧
    (match last_at l1 None with
     | Some _ => h ← set_next h1 (last_at l1 None) (Some a); h ← set_next h (Some a) (Some b); Ret (Some x, h)
     | None => h ← set_next h1 (Some a) (Some x); Ret (Some a, h)
     end) = Ret (p', h') ∧
    chain h' p' (insert_before (on_data cmp) (a, d) (l1 ++ (b, f) :: l2)) None ∧ same_but (a :: (l1 ++ (b, f) :: l2).*1) h h'.
Proof using Type.
  intros Hc1 Ha1 Ha H1 Hab H2 Hnd Hs Hl1 Hle. pose proof (chain_NoDup _ _ _ Hc1) as Hnd1.
  rewrite insert_before_split by done. destruct l1 as [|[c g] l1 _] using rev_ind.
  - cbn [last_at last app]. change (last_at [] None) with (@None Z). rewrite (set_next_Some _ _ _ _ _ Ha1), outcome_bind_ret.
    eexists _, _. split_and!; [done|done| |].
    + cbn [app]. split; [done|]. exists (Some x). rewrite lookup_insert_eq. split; [done|]. apply (chain_insert h1 (Some x) ((b, f) :: l2)); [|done].
      cbn. rewrite not_elem_of_cons. done.
    + eapply same_but_trans; [exact Hs|]. apply same_but_insert. by left.
  - unfold last_at. rewrite last_snoc. cbn [fst]. rewrite <- app_assoc in Hc1, Hnd1. cbn [app] in Hc1, Hnd1.
    assert (∀ l, (l1 ++ [(c, g)]) ++ l = l1 ++ (c, g) :: l) as E by (intros; by rewrite <- app_assoc). rewrite E in Hs. rewrite !E.
    destruct (chain_lookup _ _ _ _ _ _ _ Hc1) as (r & Hr & Hc2). rewrite (set_next_Some _ _ _ _ _ Hr), outcome_bind_ret.
    rewrite fmap_app in H1, Hnd1. cbn in H1, Hnd1. rewrite not_elem_of_app, list_elem_of_singleton in H1. destruct H1 as [H1 Hac].
    apply NoDup_mid in Hnd1 as (Hc1' & Hc2' & _).
    rewrite (set_next_Some _ a d None) by (by rewrite lookup_insert_ne by congruence). rewrite outcome_bind_ret.
    eexists _, _. split_and!; [done|done| |].
    + assert (chain (<[c := Node g (Some a)]> h1) (Some x) (l1 ++ [(c, g)]) (Some a)) as Hl.
      { apply chain_app in Hc1 as (q & Hq & -> & _). eapply chain_relink; [|done]. apply chain_app. exists (Some c). split; [done|].
        cbn. split; [done|]. by exists r. }
      rewrite (assoc _ l1 [_] (_ :: _) : l1 ++ (c, g) :: (a, d) :: (b, f) :: l2 = (l1 ++ [(c, g)]) ++ (a, d) :: (b, f) :: l2).
      apply chain_app. exists (Some a). split.
      * apply chain_insert; [|done]. rewrite fmap_app. cbn. rewrite not_elem_of_app, list_elem_of_singleton. done.
      * cbn [chain]. split; [done|]. exists (Some b). rewrite lookup_insert_eq. split; [done|].
        apply (chain_insert _ _ ((b, f) :: l2)); [cbn; by rewrite not_elem_of_cons|]. apply (chain_insert _ _ ((b, f) :: l2)); [done|].
        pose proof Hc2 as Hc3. by apply chain_head in Hc3 as (-> & _).
    + eapply same_but_trans; [exact Hs|]. eapply same_but_trans; apply same_but_insert; [|by left].
      right. rewrite fmap_app, elem_of_app. right. by left.
Qed.

Lemma insert_sorted_spec h p cs d cmp : chain h p cs None →
  ∃ a p' h', h !! a = None ∧ g_slist_insert_sorted malloc h p d cmp = Ret (p', h') ∧
    chain h' p' (insert_before (on_data cmp) (a, d) cs) None ∧ same_but (a :: cs.*1) h h'.
Proof using malloc_fresh.
  intros Hc. unfold g_slist_insert_sorted. destruct (new_node_spec h d None) as (a & -> & Ha).
  pose proof (chain_fresh _ _ _ _ _ Hc Ha) as Hac. pose proof (chain_NoDup _ _ _ Hc) as Hnd. exists a.
  set (h1 := <[a := Node d None]> h). assert (chain h1 p cs None) as Hc1 by (by apply chain_insert).
  assert (h1 !! a = Some (Node d None)) as Ha1 by (subst h1; by rewrite lookup_insert_eq).
  assert (same_but (a :: cs.*1) h h1) as Hs1 by (apply same_but_insert; by left).
  destruct cs as [|[x e] cs].
  { cbn in Hc. subst p. eexists _, _. split_and!; [done|done| |done]. cbn. split; [done|]. by exists None. }
  pose proof Hc1 as Hx. apply chain_head in Hx as (-> & rx & Hrx & _). rewrite (node_at_Some _ _ _ Hrx), outcome_bind_ret. cbn [data].
  destruct (insert_loop_spec h1 cmp d cs (list_fuel h1) None x e Hc1) as (l1 & b & f & l2 & E & H1 & H2 & ->).
  { apply chain_fuel in Hc1. cbn in Hc1. lia. }
  rewrite outcome_bind_ret. rewrite E in *. destruct (chain_lookup _ _ _ _ _ _ _ Hc1) as (r & Hr & Hc2).
  rewrite (node_at_Some _ _ _ Hr), outcome_bind_ret. cbn [next].
  rewrite fmap_app in Hnd, Hac. cbn in Hnd, Hac. apply NoDup_mid in Hnd as (Hb1 & Hb2 & Hnd). rewrite not_elem_of_app, not_elem_of_cons in Hac.
  destruct Hac as (Ha1' & Hab & Ha2). assert (b ∈ a :: (l1 ++ (b, f) :: l2).*1) as Hbin.
  { right. rewrite fmap_app, elem_of_app. right. by left. }
  destruct (bool_decide_reflect (r = None)) as [->|Hrn]; [destruct (Z.ltb_spec 0 (cmp d f))|]; cbn [andb].
  - (* after the last node *)
    assert (l2 = []) as -> by (destruct l2 as [|[]]; [done|by destruct Hc2]).
    rewrite (set_next_Some _ _ _ _ _ Hr), outcome_bind_ret. eexists _, _. split_and!; [done|done| |].
    + replace (insert_before _ _ _) with (l1 ++ (b, f) :: [(a, d)]).
      * eapply chain_link; [done|done| |cbn; rewrite list_elem_of_singleton; congruence]. cbn. split; [done|]. by exists None.
      * rewrite <- (app_nil_r (l1 ++ [(b, f)])), insert_before_split; [by rewrite <- app_assoc|apply Forall_app; split; [done|by repeat constructor]|done].
    + eapply same_but_trans; [exact Hs1|]. by apply same_but_insert.
  - eapply insert_middle; done.
  - assert (cmp d f ≤ 0) as Hle by (destruct H2 as [->|?]; [by cbn in Hc2|done]). eapply insert_middle; done.
Qed.
End specs.

(** ** Removal *)

(** Unlinking and freeing the node after [l1]. *)
Lemma unlink_spec h p l1 b f l2 : chain h p (l1 ++ (b, f) :: l2) None →
  ∃ r, h !! b = Some (Node f r) ∧ match last_at l1 None with
    | Some c => ∃ g x, (delete b h) !! c = Some (Node g x) ∧ chain (<[c := Node g r]> (delete b h)) p (l1 ++ l2) None ∧ c ∈ l1.*1
    | None => l1 = [] ∧ chain (delete b h) r l2 None
    end.
Proof.
  intros Hc. pose proof (chain_NoDup _ _ _ Hc) as Hnd. rewrite fmap_app in Hnd. cbn in Hnd. apply NoDup_mid in Hnd as (Hb1 & Hb2 & Hnd).
  destruct (chain_lookup _ _ _ _ _ _ _ Hc) as (r & Hr & Hc2). exists r. split; [done|].
  assert (chain (delete b h) r l2 None) as Hc2' by (eapply chain_same; [|exact Hc2]; intros a Ha; apply lookup_delete_ne; by intros ->).
  destruct l1 as [|[c g] l1 _] using rev_ind; [done|]. unfold last_at. rewrite last_snoc. cbn [fst].
  rewrite <- app_assoc in Hc. cbn in Hc. destruct (chain_lookup _ _ _ _ _ _ _ Hc) as (x & Hx & _).
  rewrite fmap_app in Hb1, Hnd. cbn in Hb1, Hnd. rewrite not_elem_of_app, list_elem_of_singleton in Hb1.
  rewrite <- app_assoc in Hnd. apply NoDup_mid in Hnd as (Hc1' & Hc2'' & _).
  exists g, x. split; [by rewrite lookup_delete_ne by naive_solver|]. split.
  - rewrite <- app_assoc. cbn. apply chain_app in Hc as (q & H1 & -> & _).
    eapply chain_link; [|done|done|done]. apply chain_app. exists (Some c). split.
    + eapply chain_same; [|exact H1]. intros a Ha. apply lookup_delete_ne. intros ->. naive_solver.
    + cbn. split; [done|]. exists x. by rewrite lookup_delete_ne by naive_solver.
  - rewrite fmap_app, elem_of_app. right. by left.
Qed.


Lemma remove_spec h p cs d : chain h p cs None →
  ∃ l1 l2 p' h', cs = l1 ++ l2 ∧ Forall (λ c, c.2 ≠ d) l1 ∧ (match l2 with [] => True | c :: _ => c.2 = d end) ∧
    g_slist_remove h p d = Ret (p', h') ∧ chain h' p' (l1 ++ tail l2) None ∧ same_but cs.*1 h h' ∧
    (∀ c, head l2 = Some c → h' !! c.1 = None).
Proof.
  intros Hc. unfold g_slist_remove. destruct cs as [|[x e] cs].
  { cbn in Hc. subst p. by exists [], [], None, h. }
  destruct (find_loop_spec h (λ x, x =? d) _ (list_fuel h) p None Hc) as (l1 & l2 & E & H1 & H2 & EF); [by eapply chain_fuel|].
  exists l1, l2. pose proof Hc as Hx. apply chain_head in Hx as (-> & _). rewrite EF, outcome_bind_ret. clear EF. rewrite E in *.
  assert (Forall (λ c, c.2 ≠ d) l1) as H1' by (eapply Forall_impl; [exact H1|]; intros c Hcd; by apply Z.eqb_neq).
  destruct l2 as [|[b f] l2]; cbn [head fmap option_fmap option_map]; [by eexists _, _|].
  apply Z.eqb_eq in H2. cbn in H2. destruct (unlink_spec _ _ _ _ _ _ Hc) as (r & Hr & HU). cbn [fst].
  rewrite (node_at_Some _ _ _ Hr), outcome_bind_ret, (free_node_Some _ _ _ Hr), outcome_bind_ret. cbn [next tail].
  assert (b ∈ (l1 ++ (b, f) :: l2).*1) as Hb by (rewrite fmap_app, elem_of_app; right; by left).
  pose proof (chain_NoDup _ _ _ Hc) as Hnd. rewrite fmap_app in Hnd. cbn in Hnd. apply NoDup_mid in Hnd as (Hb1 & _ & _).
  destruct (last_at l1 None) as [c|].
  - destruct HU as (g & y & Hy & HU & Hcin). rewrite (set_next_Some _ _ _ _ _ Hy), outcome_bind_ret. eexists _, _.
    split_and!; [done|done|done|done|done| |].
    + eapply same_but_trans; [by apply same_but_delete|]. apply same_but_insert. rewrite fmap_app, elem_of_app. by left.
    + intros c' [= <-]. cbn. rewrite lookup_insert_ne by (intros ->; done). by rewrite lookup_delete_eq.
  - destruct HU as [-> HU]. eexists _, _. split_and!; [done|done|done|done|done|by apply same_but_delete|].
    intros c' [= <-]. cbn. by rewrite lookup_delete_eq.
Qed.

Lemma remove_link_loop_spec h list b f l2 l1 : ∀ l0 fuel p, chain h list (l0 ++ l1 ++ (b, f) :: l2) None →
  chain h p (l1 ++ (b, f) :: l2) None → (length l1 < fuel)%nat → b ∉ l1.*1 →
  ∃ r g x, h !! b = Some (Node f r) ∧
    remove_link_loop fuel h list (Some b) (last_at l0 None) p =
    match last_at (l0 ++ l1) None with
    | Some c => Ret (list, <[b := Node f None]> (<[c := Node g r]> h))
    | None => Ret (r, <[b := Node f None]> h)
    end ∧ match last_at (l0 ++ l1) None with Some c => h !! c = Some (Node g x) | None => True end.
Proof.
  induction l1 as [|[c g] l1 IH]; intros l0 [|fuel] p Hl Hp Hf Hb; cbn in Hf; try lia; cbn [app] in Hp;
    apply chain_head in Hp as (-> & r & Hr & Hc2); cbn [remove_link_loop]; rewrite (node_at_Some _ _ _ Hr), outcome_bind_ret; cbn [next].
  - cbn [app] in Hl. rewrite app_nil_r. rewrite decide_True by done. exists r.
    destruct l0 as [|[c g] l0 _] using rev_ind.
    + exists 0, None. split_and!; [done| |done]. change (last_at [] None) with (@None Z). cbv iota. rewrite outcome_bind_ret.
      cbn [app] in Hl. apply chain_head in Hl as (-> & _). rewrite decide_True by done.
      by rewrite (node_at_Some _ _ _ Hr), outcome_bind_ret, outcome_bind_ret, (set_next_Some _ _ _ _ _ Hr), outcome_bind_ret.
    + unfold last_at. rewrite last_snoc. cbn [fst]. pose proof (chain_NoDup _ _ _ Hl) as Hnd.
      rewrite <- app_assoc in Hl, Hnd. cbn [app] in Hl, Hnd. destruct (chain_lookup _ _ _ _ _ _ _ Hl) as (x & Hx & _).
      exists g, x. split_and!; [done| |done]. rewrite (set_next_Some _ _ _ _ _ Hx), outcome_bind_ret.
      rewrite fmap_app in Hnd. cbn in Hnd. pose proof Hnd as Hnd1. apply NoDup_mid in Hnd as (_ & Hcb & _).
      rewrite not_elem_of_cons in Hcb.
      rewrite decide_False.
      * rewrite outcome_bind_ret, (set_next_Some _ b f r) by (by rewrite lookup_insert_ne by naive_solver). by rewrite outcome_bind_ret.
      * intros ->. destruct l0 as [|[y u] l0]; cbn [app] in Hl; apply chain_head in Hl as (E & _); simplify_eq; [naive_solver|].
        cbn in Hnd1. apply NoDup_cons in Hnd1 as [Hnd1 _]. apply Hnd1. rewrite elem_of_app. right. right. by left.
  - cbn in Hb. rewrite not_elem_of_cons in Hb. rewrite decide_False by (intros [= ->]; naive_solver).
    replace (Some c) with (last_at (l0 ++ [(c, g)]) None) by (unfold last_at; by rewrite last_snoc).
    destruct (IH (l0 ++ [(c, g)]) fuel r) as (r' & g' & x & H1 & H2 & H3); [by rewrite <- app_assoc|done|lia|naive_solver|].
    exists r', g', x. rewrite <- app_assoc in H2, H3. cbn [app] in H2, H3. by split_and!.
Qed.

Lemma delete_link_spec h p l1 b f l2 : chain h p (l1 ++ (b, f) :: l2) None →
  ∃ p' h', g_slist_delete_link h p (Some b) = Ret (p', h') ∧ chain h' p' (l1 ++ l2) None ∧
    same_but (l1 ++ (b, f) :: l2).*1 h h' ∧ h' !! b = None.
Proof.
  intros Hc. pose proof (chain_NoDup _ _ _ Hc) as Hnd. rewrite fmap_app in Hnd. cbn in Hnd. apply NoDup_mid in Hnd as (Hb1 & Hb2 & Hnd).
  unfold g_slist_delete_link, _g_slist_remove_link.
  destruct (remove_link_loop_spec h p b f l2 l1 [] (list_fuel h) p) as (r & g & x & Hr & E & Hx); [done|done| |done|].
  { apply chain_fuel in Hc. rewrite length_app in Hc. lia. }
  change (last_at [] None) with (@None Z) in E. rewrite E. clear E. cbn [app] in *.
  destruct (unlink_spec _ _ _ _ _ _ Hc) as (r' & Hr' & HU). rewrite Hr in Hr'. simplify_eq.
  assert (b ∈ (l1 ++ (b, f) :: l2).*1) as Hb by (rewrite fmap_app, elem_of_app; right; by left).
  destruct (last_at l1 None) as [c|].
  - destruct HU as (g' & y & Hy & HU & Hcin). assert (b ≠ c) as Hbc by (intros ->; done).
    rewrite lookup_delete_ne in Hy by done. rewrite Hx in Hy. simplify_eq.
    rewrite outcome_bind_ret. cbn [fst snd]. rewrite (free_node_Some _ _ (Node f None)) by (by rewrite lookup_insert_eq).
    rewrite outcome_bind_ret. rewrite delete_insert_eq, delete_insert_ne by done. eexists _, _. split_and!; [done|done| |].
    + eapply same_but_trans; [by apply same_but_delete|]. apply same_but_insert. rewrite fmap_app, elem_of_app. by left.
    + by rewrite lookup_insert_ne, lookup_delete_eq by done.
  - destruct HU as [-> HU]. rewrite outcome_bind_ret. cbn [fst snd]. rewrite (free_node_Some _ _ (Node f None)) by (by rewrite lookup_insert_eq).
    rewrite outcome_bind_ret, delete_insert_eq. eexists _, _. split_and!; [done|done|by apply same_but_delete|by rewrite lookup_delete_eq].
Qed.

Lemma position_loop_spec h link cs : ∀ fuel p i, chain h p cs None → (length cs < fuel)%nat →
  position_loop fuel h p (Some link) i = Ret match list_find (λ a, a = link) cs.*1 with Some (n, _) => i + Z.of_nat n | None => -1 end.
Proof.
  induction cs as [|[b e] cs IH]; intros [|fuel] p i Hc Hf; cbn in Hf; try lia; [by cbn in Hc; subst p|].
  apply chain_head in Hc as (-> & r & Hr & Hc). cbn [position_loop fmap list_fmap fst list_find].
  destruct (decide (b = link)) as [->|Hne].
  - rewrite (decide_True (P := Some link = Some link)) by done. f_equal. lia.
  - rewrite (decide_False (P := Some b = Some link)) by congruence. rewrite (node_at_Some _ _ _ Hr), outcome_bind_ret. cbn [next]. rewrite IH by (done || lia).
    destruct (list_find _ cs.*1) as [[n c]|]; cbn; [|done]. f_equal. lia.
Qed.

Lemma last_spec h p cs : chain h p cs None → g_slist_last h p = Ret (last_at cs None).
Proof.
  intros Hc. unfold g_slist_last. destruct cs as [|[b e] cs _] using rev_ind; [by cbn in Hc; subst p|].
  assert (∃ x, p = Some x) as [x ->] by (destruct cs as [|[]]; cbn in Hc; destruct Hc as (-> & _); by eexists).
  rewrite (last_loop_spec _ _ _ _ _ _ Hc) by (apply chain_fuel in Hc; rewrite length_app in Hc; cbn in Hc; lia).
  unfold last_at. by rewrite last_snoc.
Qed.

(** ** Sorting *)

(** The list merged so far: [o], whose last node points anywhere. *)
Definition merged (h : heap) (head l : option Z) (o : list (Z * Z)) : Prop :=
  l = last_at o None ∧ (o = [] ∨ ∃ r, chain h head o r).

Lemma merge_link_spec h head l o q cs e :
  merged h head l o → chain h q cs e → NoDup (o ++ cs).*1 →
  ∃ head' h', merge_link h head l q = Ret (head', h') ∧ chain h' head' (o ++ cs) e ∧ same_but o.*1 h h'.
Proof.
  intros [-> Ho] Hc Hnd. destruct o as [|[b f] o _] using rev_ind.
  - exists q, h. done.
  - destruct Ho as [Ho|[r Ho]]; [by destruct o|]. unfold last_at. rewrite last_snoc. cbn [merge_link fst].
    destruct (chain_lookup _ _ _ _ _ _ _ Ho) as (x & Hx & _). rewrite (set_next_Some _ _ _ _ _ Hx), outcome_bind_ret.
    rewrite <- app_assoc, fmap_app in Hnd. cbn in Hnd. apply NoDup_mid in Hnd as (H1 & H2 & _).
    eexists _, _. split_and!; [done| |].
    + apply chain_app. exists q. split; [by eapply chain_relink|by apply chain_insert].
    + apply same_but_insert. rewrite fmap_app, elem_of_app. right. by left.
Qed.

Lemma merged_snoc h head o a d r : chain h head (o ++ [(a, d)]) r → merged h head (Some a) (o ++ [(a, d)]).
Proof. intros H. split; [unfold last_at; by rewrite last_snoc|]. right. by exists r. Qed.

Lemma same_but_sub l l' h h' : (∀ a, a ∈ l → a ∈ l') → same_but l h h' → same_but l' h h'.
Proof. intros Hs H b Hb. apply H. auto. Qed.

Definition in_order (cmp : Z → Z → Z) (c1 c2 : Z * Z) : Prop := on_data cmp c1 c2 ≤ 0.
#[export] Instance in_order_dec cmp c1 c2 : Decision (in_order cmp c1 c2).
Proof. unfold in_order. apply _. Defined.

(** One node moves from the front of a list to the end of the merged one. *)
Lemma merge_step h head l o q a d c : merged h head l o → chain h q ((a, d) :: c) None → NoDup (o ++ (a, d) :: c).*1 →
  ∃ head' h' r, merge_link h head l q = Ret (head', h') ∧ q = Some a ∧ h' !! a = Some (Node d r) ∧
    merged h' head' (Some a) (o ++ [(a, d)]) ∧ chain h' r c None ∧ same_but o.*1 h h'.
Proof.
  intros Ho Hc Hnd. pose proof Hc as Hx. apply chain_head in Hx as (-> & r & Hr & Hc').
  destruct (merge_link_spec h head l o (Some a) [(a, d)] r Ho) as (head' & h' & E & Hl & Hs).
  { cbn. split; [done|]. by exists r. }
  { eapply sublist_NoDup; [exact Hnd|]. apply fmap_sublist, sublist_app; [done|]. apply sublist_skip, sublist_nil_l. }
  exists head', h', r. rewrite fmap_app in Hnd. cbn in Hnd. apply NoDup_app in Hnd as (_ & Hdis & _). split_and!; try done.
  - rewrite Hs; [done|]. intros Ha. by destruct (Hdis _ Ha ltac:(by left)).
  - by eapply merged_snoc.
  - eapply chain_same; [|exact Hc']. intros b Hb. apply Hs. intros Hbo. by destruct (Hdis _ Hbo ltac:(by right)).
Qed.

Lemma merge_loop_spec cmp : ∀ fuel h head l l1 l2 o c1 c2,
  merged h head l o → chain h l1 c1 None → chain h l2 c2 None → NoDup (o ++ c1 ++ c2).*1 → (length c1 + length c2 < fuel)%nat →
  ∃ p h', merge_loop fuel h cmp head l l1 l2 = Ret (p, h') ∧ chain h' p (o ++ list_merge (in_order cmp) c1 c2) None ∧
    same_but (o ++ c1 ++ c2).*1 h h'.
Proof.
  induction fuel as [|fuel IH]; intros h head l l1 l2 o c1 c2 Ho H1 H2 Hnd Hf; [lia|]. cbn [merge_loop].
  destruct c1 as [|[a d] c1]; [|destruct c2 as [|[b e] c2]].
  - cbn in H1. subst l1. cbn [app] in *. replace (list_merge _ [] c2) with c2 by (by destruct c2).
    destruct (merge_link_spec h head l o l2 c2 None Ho H2 Hnd) as (p & h' & E & Hc & Hs). exists p, h'.
    split_and!; [by destruct l2|done|]. eapply same_but_sub; [|done]. intros x. rewrite fmap_app, elem_of_app. by left.
  - cbn in H2. subst l2. rewrite app_nil_r in Hnd |- *. change (list_merge _ _ _) with ((a, d) :: c1).
    destruct (merge_link_spec h head l o l1 _ None Ho H1 Hnd) as (p & h' & E & Hc & Hs). exists p, h'.
    split_and!; [by destruct H1 as (-> & _)|done|]. eapply same_but_sub; [|done]. intros x. rewrite fmap_app, elem_of_app. by left.
  - pose proof H1 as Hx1. apply chain_head in Hx1 as (-> & r1 & Hr1 & _). pose proof H2 as Hx2. apply chain_head in Hx2 as (-> & r2 & Hr2 & _).
    rewrite (node_at_Some _ _ _ Hr1), outcome_bind_ret, (node_at_Some _ _ _ Hr2), outcome_bind_ret. cbn [data list_merge].
    cbn [length] in Hf. destruct (Z.leb_spec (cmp d e) 0).
    + rewrite decide_True by done. destruct (merge_step h head l o (Some a) a d c1 Ho H1) as (head' & h1 & r & -> & _ & Ha & Ho' & Hc1 & Hs).
      { eapply sublist_NoDup; [exact Hnd|]. apply fmap_sublist, sublist_app; [done|]. apply sublist_inserts_r. done. }
      rewrite outcome_bind_ret. cbv beta iota. rewrite (node_at_Some _ _ _ Ha), outcome_bind_ret. cbn [next].
      destruct (IH h1 head' (Some a) r (Some b) (o ++ [(a, d)]) c1 ((b, e) :: c2)) as (p & h' & -> & Hc & Hs'); try done.
      * eapply chain_same; [|exact H2]. intros x Hx. apply Hs. rewrite !fmap_app in Hnd. apply NoDup_app in Hnd as (_ & Hd & _).
        intros Hxo. apply (Hd _ Hxo). rewrite elem_of_app. by right.
      * by rewrite <- app_assoc.
      * cbn [length]. lia.
      * exists p, h'. rewrite <- app_assoc in Hc, Hs'. split_and!; [done|done|]. eapply same_but_trans; [|exact Hs'].
        eapply same_but_sub; [|exact Hs]. intros x. rewrite fmap_app, elem_of_app. by left.
    + rewrite decide_False by (unfold in_order, on_data; cbn; lia).
      destruct (merge_step h head l o (Some b) b e c2 Ho H2) as (head' & h1 & r & -> & _ & Ha & Ho' & Hc1 & Hs).
      { eapply sublist_NoDup; [exact Hnd|]. apply fmap_sublist, sublist_app; [done|]. apply sublist_inserts_l. done. }
      rewrite outcome_bind_ret. cbv beta iota. rewrite (node_at_Some _ _ _ Ha), outcome_bind_ret. cbn [next].
      destruct (IH h1 head' (Some b) (Some a) r (o ++ [(b, e)]) ((a, d) :: c1) c2) as (p & h' & -> & Hc & Hs'); try done.
      * eapply chain_same; [|exact H1]. intros x Hx. apply Hs. rewrite !fmap_app in Hnd. apply NoDup_app in Hnd as (_ & Hd & _).
        intros Hxo. apply (Hd _ Hxo). rewrite elem_of_app. by left.
      * rewrite <- app_assoc. cbn [app]. eapply NoDup_Permutation_proper; [|exact Hnd]. apply fmap_Permutation. apply Permutation_app_head, (Permutation_middle ((a, d) :: c1)).
      * cbn [length]. lia.
      * exists p, h'. rewrite <- app_assoc in Hc, Hs'. split_and!; [done|done|].
        eapply same_but_trans; [eapply same_but_sub; [|exact Hs]; intros x; rewrite fmap_app, elem_of_app; by left|].
        eapply same_but_sub; [|exact Hs']. intros x. rewrite !fmap_app. cbn. set_solver.
Qed.

Lemma size_bound (h : heap) (l : list Z) : NoDup l → (∀ a, a ∈ l → a ∈ dom h) → (length l ≤ size h)%nat.
Proof.
  intros Hnd Hd. rewrite <- size_dom, <- (size_list_to_set (C:=gset Z)) by done.
  apply subseteq_size. intros a Ha. apply elem_of_list_to_set in Ha. auto.
Qed.

Lemma sort_merge_spec cmp h l1 l2 c1 c2 : chain h l1 c1 None → chain h l2 c2 None → NoDup (c1 ++ c2).*1 →
  ∃ p h', g_slist_sort_merge h l1 l2 cmp = Ret (p, h') ∧ chain h' p (list_merge (in_order cmp) c1 c2) None ∧ same_but (c1 ++ c2).*1 h h'.
Proof.
  intros H1 H2 Hnd. apply (merge_loop_spec cmp _ h None None l1 l2 [] c1 c2); try done.
  - split; [done|by left].
  - unfold list_fuel. pose proof (size_bound h _ Hnd) as HS. rewrite length_fmap, length_app in HS. enough (length c1 + length c2 ≤ size h)%nat by lia.
    apply HS. intros a. rewrite fmap_app, elem_of_app. intros [Ha|Ha]; [by apply (chain_dom _ _ _ _ _ H1)|by apply (chain_dom _ _ _ _ _ H2)].
Qed.

(** The slow pointer stops half way. *)
Lemma split_loop_spec h : ∀ fuel c1 c2 p q, chain h p c1 None → chain h q c2 None → c2 ≠ [] → (length c2 ≤ length c1)%nat →
  (length c2 < fuel)%nat → split_loop fuel h p q = Ret (fst <$> c1 !! ((length c2 - 1) / 2)%nat).
Proof.
  induction fuel as [|fuel IH]; intros c1 c2 p q H1 H2 Hne Hl Hf; [lia|]. destruct c2 as [|[a d] c2]; [done|].
  destruct c1 as [|[x u] c1]; [cbn in Hl; lia|]. apply chain_head in H1 as (-> & rx & Hrx & H1).
  apply chain_head in H2 as (-> & r & Hr & H2). cbn [split_loop]. rewrite (node_at_Some _ _ _ Hr), outcome_bind_ret. cbn [next].
  destruct c2 as [|[b e] c2]; [by cbn in H2; subst r|]. apply chain_head in H2 as (-> & r2 & Hr2 & H2).
  rewrite (node_at_Some _ _ _ Hr2), outcome_bind_ret. cbn [next].
  destruct c2 as [|c c2]; [by cbn in H2; subst r2|]. assert (∃ y, r2 = Some y) as [y Ey] by (destruct c; destruct H2 as (-> & _); by eexists).
  subst r2. rewrite (node_at_Some _ _ _ Hrx), outcome_bind_ret. cbn [next].
  rewrite (IH c1 (c :: c2)) by (try done; cbn in *; lia). cbn [length].
  replace (S (S (S (length c2))) - 1)%nat with (S (length c2) - 1 + 1 * 2)%nat by lia. rewrite Nat.div_add by done.
  by rewrite Nat.add_1_r.
Qed.

(** Insertion sort: what the sort computes. *)
Definition insertion_sort {A} (cmp : A → A → Z) (l : list A) : list A := foldr (insert_before cmp) [] l.

Section ordered.
Context (cmp : Z → Z → Z) `{!CompFunc cmp}.

Lemma cmp_le_trans a b c : cmp a b ≤ 0 → cmp b c ≤ 0 → cmp a c ≤ 0.
Proof using Type*.
  intros H1 H2. destruct (decide (cmp a b = 0)) as [E|E].
  - pose proof (comp_zero a b c E) as Hz. lia.
  - destruct (decide (cmp b c = 0)) as [E2|E2].
    + apply (comp_zero_sym cmp) in E2. pose proof (comp_zero c b a E2) as Hz. pose proof (comp_sym (f:=cmp) a b). pose proof (comp_sym (f:=cmp) a c). lia.
    + pose proof (comp_trans (f:=cmp) a b c). lia.
Qed.

Lemma cmp_total a b : 0 < cmp a b → cmp b a ≤ 0.
Proof using Type*. pose proof (comp_sym (f:=cmp) b a). lia. Qed.

Lemma list_merge_cons (x1 x2 : Z * Z) l1 l2 : list_merge (in_order cmp) (x1 :: l1) (x2 :: l2) =
  if decide (in_order cmp x1 x2) then x1 :: list_merge (in_order cmp) l1 (x2 :: l2) else x2 :: list_merge (in_order cmp) (x1 :: l1) l2.
Proof using Type. done. Qed.

Lemma merge_insert x l1 l2 :
  list_merge (in_order cmp) (insert_before (on_data cmp) x l1) l2 = insert_before (on_data cmp) x (list_merge (in_order cmp) l1 l2).
Proof using Type*.
  revert l2. induction l1 as [|u l1 IH1].
  - intros [|y l2]; [done|]. cbn. unfold in_order, on_data. destruct (Z.ltb_spec 0 (cmp x.2 y.2)) as [H|H].
    + rewrite decide_False by lia. f_equal. clear. induction l2 as [|z l2 IH]; cbn; [done|]. unfold on_data.
      destruct (Z.ltb_spec 0 (cmp x.2 z.2)); [rewrite decide_False by lia; by f_equal|by rewrite decide_True by lia].
    + by rewrite decide_True by lia.
  - induction l2 as [|y l2 IH2].
    + cbn. unfold on_data. by destruct (0 <? cmp x.2 u.2).
    + change (insert_before (on_data cmp) x (u :: l1)) with (if 0 <? on_data cmp x u then u :: insert_before (on_data cmp) x l1 else x :: u :: l1) in *.
      unfold on_data at 1 in IH2. unfold on_data at 1. destruct (Z.ltb_spec 0 (cmp x.2 u.2)) as [H|H].
      * rewrite !list_merge_cons. destruct (decide (in_order cmp u y)) as [Huy|Huy].
        -- cbn [insert_before]. unfold on_data at 2. rewrite (proj2 (Z.ltb_lt _ _)) by done. f_equal. apply IH1.
        -- rewrite IH2. cbn [insert_before]. unfold on_data at 2. rewrite (proj2 (Z.ltb_lt _ _)); [done|].
           destruct (decide (cmp x.2 y.2 ≤ 0)); [|lia]. exfalso. apply Huy. unfold in_order, on_data.
           eapply cmp_le_trans; [by apply cmp_total|done].
      * rewrite !list_merge_cons. destruct (decide (in_order cmp x y)) as [Hxy|Hxy].
        -- destruct (decide (in_order cmp u y)); cbn [insert_before]; unfold on_data at 1; [by rewrite (proj2 (Z.ltb_ge _ _)) by done|].
           by rewrite (proj2 (Z.ltb_ge _ _)) by done.
        -- rewrite IH2. rewrite decide_False.
           ++ cbn [insert_before]. unfold on_data at 2. rewrite (proj2 (Z.ltb_lt _ _)); [done|]. unfold in_order, on_data in Hxy. lia.
           ++ intros Huy. apply Hxy. unfold in_order, on_data in *. by eapply cmp_le_trans.
Qed.

Lemma merge_insertion_sort l1 l2 :
  list_merge (in_order cmp) (insertion_sort (on_data cmp) l1) (insertion_sort (on_data cmp) l2) = insertion_sort (on_data cmp) (l1 ++ l2).
Proof using Type*.
  unfold insertion_sort. induction l1 as [|x l1 IH]; cbn [foldr app]; [by destruct (foldr _ [] l2)|]. by rewrite merge_insert, IH.
Qed.

Lemma insert_before_perm {A} (f : A → A → Z) d l : insert_before f d l ≡ₚ d :: l.
Proof using Type. induction l as [|x l IH]; cbn; [done|]. destruct (0 <? f d x); [|done]. rewrite IH. apply Permutation_swap. Qed.

Lemma insertion_sort_perm {A} (f : A → A → Z) l : insertion_sort f l ≡ₚ l.
Proof using Type. induction l as [|x l IH]; cbn; [done|]. by rewrite insert_before_perm, IH. Qed.

Lemma insertion_sort_sorted l : StronglySorted (in_order cmp) (insertion_sort (on_data cmp) l).
Proof using Type*.
  induction l as [|x l IH]; [constructor|]. change (insertion_sort _ (x :: l)) with (insert_before (on_data cmp) x (insertion_sort (on_data cmp) l)).
  revert IH. generalize (insertion_sort (on_data cmp) l). clear l. intros l.
  induction 1 as [|y l Hl IH Hy]; cbn; [repeat constructor|]. unfold on_data at 1. destruct (Z.ltb_spec 0 (cmp x.2 y.2)).
  - constructor; [done|]. rewrite insert_before_perm. constructor; [|done]. by apply cmp_total.
  - constructor; [by constructor|]. constructor; [done|]. eapply Forall_impl; [exact Hy|]. intros z Hz. unfold in_order, on_data in *. by eapply cmp_le_trans.
Qed.

(** Equal elements stay in their order. *)
Lemma insertion_sort_stable e l :
  filter (λ c, cmp c.2 e = 0) (insertion_sort (on_data cmp) l) = filter (λ c, cmp c.2 e = 0) l.
Proof using Type*.
  induction l as [|x l IH]; cbn [insertion_sort foldr]; [done|]. rewrite filter_cons, <- IH. fold (insertion_sort (on_data cmp) l).
  generalize (insertion_sort (on_data cmp) l). clear l IH. intros l. induction l as [|y l IH]; cbn [insert_before]; [by rewrite filter_cons|].
  unfold on_data at 1. destruct (Z.ltb_spec 0 (cmp x.2 y.2)); [|by rewrite filter_cons].
  rewrite !filter_cons. destruct (decide (cmp y.2 e = 0)) as [Hy|Hy]; [|apply IH].
  rewrite decide_False in IH |- *.
  - by rewrite IH.
  - intros Hx. apply (comp_zero_sym cmp) in Hy. pose proof (comp_zero _ _ y.2 Hx). rewrite Hy in *. cbn in *. lia.
  - intros Hx. apply (comp_zero_sym cmp) in Hy. pose proof (comp_zero _ _ y.2 Hx). rewrite Hy in *. cbn in *. lia.
Qed.

Lemma sort_loop_spec : ∀ fuel h p cs, chain h p cs None → (length cs < fuel)%nat →
  ∃ p' h', sort_loop fuel h p cmp = Ret (p', h') ∧ chain h' p' (insertion_sort (on_data cmp) cs) None ∧ same_but cs.*1 h h'.
Proof using Type*.
  induction fuel as [|fuel IH]; intros h p cs Hc Hf; [lia|]. cbn [sort_loop].
  destruct cs as [|[x u] [|c cs]]; [cbn in Hc; subst p; by exists None, h| |].
  { pose proof Hc as Hx. cbn in Hc. destruct Hc as (-> & r & Hr & ->). rewrite (node_at_Some _ _ _ Hr), outcome_bind_ret. by exists (Some x), h. }
  pose proof Hc as Hx. apply chain_head in Hx as (-> & r & Hr & Hc2). rewrite (node_at_Some _ _ _ Hr), outcome_bind_ret. cbn [next].
  assert (∃ y, r = Some y) as [y ->] by (destruct c; destruct Hc2 as (-> & _); by eexists).
  rewrite (split_loop_spec h _ _ (c :: cs) _ _ Hc Hc2) by first [done|cbn; lia|by apply chain_fuel in Hc2].
  rewrite outcome_bind_ret. clear Hr Hc2. set (k := ((length (c :: cs) - 1) / 2)%nat). remember ((x, u) :: c :: cs) as l eqn:El.
  assert (2 * k ≤ length (c :: cs) - 1)%nat as Hk by (apply Nat.Div0.mul_div_le). assert (length l = S (length (c :: cs))) as Hll by (by rewrite El).
  destruct (lookup_lt_is_Some_2 l k) as [[a d] Ha]; [cbn in *; lia|]. pose proof (take_drop_middle _ _ _ Ha) as Hsplit.
  assert (length (take k l) = k) as Hlk by (rewrite length_take; cbn in *; lia).
  assert (length (drop (S k) l) = length l - S k)%nat as Hld by apply length_drop. clearbody k.
  rewrite Ha. cbn [fmap option_fmap option_map fst]. clear Ha El.
  revert Hlk Hld Hsplit. generalize (take k l) (drop (S k) l). intros c1 c2 Hlk Hld <-. rewrite length_app in *. cbn [length] in *.
  pose proof (chain_NoDup _ _ _ Hc) as Hnd. rewrite fmap_app in Hnd. cbn in Hnd. pose proof Hnd as Hnd'. apply NoDup_mid in Hnd' as (Ha1 & Ha2 & _).
  destruct (chain_lookup _ _ _ _ _ _ _ Hc) as (r & Hr & Hc2). rewrite (node_at_Some _ _ _ Hr), outcome_bind_ret. cbn [next].
  rewrite (set_next_Some _ _ _ _ _ Hr), outcome_bind_ret. set (h1 := <[a := Node d None]> h).
  assert (chain h1 (Some x) (c1 ++ [(a, d)]) None) as H1.
  { rewrite (assoc _ c1 [_] c2 : c1 ++ (a, d) :: c2 = (c1 ++ [(a, d)]) ++ c2) in Hc.
    apply chain_app in Hc as (r' & Hc & _). by eapply chain_relink. }
  assert (chain h1 r c2 None) as H2 by (by apply chain_insert).
  destruct (IH h1 (Some x) _ H1) as (p1 & h2 & -> & H1' & Hs1); [rewrite length_app; cbn; lia|]. rewrite outcome_bind_ret. cbn [fst snd].
  assert (NoDup ((c1 ++ [(a, d)]) ++ c2).*1) as Hnd2 by (rewrite <- app_assoc, fmap_app; exact Hnd).
  assert (∀ b, b ∈ (c1 ++ [(a, d)]).*1 → b ∈ c2.*1 → False) as Hdis.
  { rewrite fmap_app in Hnd2. apply NoDup_app in Hnd2 as (_ & Hd & _). exact Hd. }
  assert (chain h2 r c2 None) as H2' by (eapply chain_same; [|exact H2]; intros b Hb; apply Hs1; eauto).
  destruct (IH h2 r _ H2') as (p2 & h3 & -> & H2'' & Hs2); [lia|]. rewrite outcome_bind_ret. cbn [fst snd].
  assert (chain h3 p1 (insertion_sort (on_data cmp) (c1 ++ [(a, d)])) None) as H1''.
  { eapply chain_same; [|exact H1']. intros b Hb. apply Hs2. rewrite insertion_sort_perm in Hb. eauto. }
  destruct (sort_merge_spec cmp h3 p1 p2 _ _ H1'' H2'') as (p' & h' & E & Hc' & Hs3).
  { rewrite fmap_app in Hnd2 |- *. by rewrite !insertion_sort_perm. }
  exists p', h'. split; [exact E|]. rewrite merge_insertion_sort, <- app_assoc in Hc'. split; [exact Hc'|].
  assert (∀ b, b ∈ (c1 ++ (a, d) :: c2).*1 ↔ b ∈ (c1 ++ [(a, d)]).*1 ∨ b ∈ c2.*1) as Hin.
  { intros b. rewrite !fmap_app. cbn. set_solver. }
  eapply same_but_trans; [apply same_but_insert, Hin; left; rewrite fmap_app, elem_of_app; right; by left|].
  eapply same_but_trans; [eapply same_but_sub; [|exact Hs1]; intros b ?; apply Hin; by left|].
  eapply same_but_trans; [eapply same_but_sub; [|exact Hs2]; intros b ?; apply Hin; by right|].
  eapply same_but_sub; [|exact Hs3]. intros b. rewrite fmap_app, !insertion_sort_perm, Hin, elem_of_app. done.
Qed.

Lemma sort_spec h p cs : chain h p cs None →
  ∃ p' h', g_slist_sort h p cmp = Ret (p', h') ∧ chain h' p' (insertion_sort (on_data cmp) cs) None ∧ same_but cs.*1 h h'.
Proof using Type*. intros Hc. by apply sort_loop_spec; [|eapply chain_fuel]. Qed.
End ordered.

(** * Theorems *)

(** C37: [g_slist_sort] sorts. For every comparison function that is a total
    preorder and every list in memory, whatever else the memory holds, the
    function ends without following a dangling pointer; the nodes it was given,
    each with its data, are relinked in an order that is sorted and keeps the
    order of equal elements, and no other memory is touched. *)
Theorem g_slist_sort_correct (cmp : Z → Z → Z) `{!CompFunc cmp} (h : heap) (p : option Z) (cs : list (Z * Z)) (Hc : chain h p cs None) :
  ∃ p' h' cs', g_slist_sort h p cmp = Ret (p', h') ∧ chain h' p' cs' None ∧ cs' ≡ₚ cs ∧
    StronglySorted (λ c1 c2, cmp c1.2 c2.2 ≤ 0) cs' ∧
    (∀ e, filter (λ c, cmp c.2 e = 0) cs' = filter (λ c, cmp c.2 e = 0) cs) ∧
    ∀ a, a ∉ cs.*1 → h' !! a = h !! a.
Proof.
  destruct (sort_spec cmp h p cs Hc) as (p' & h' & E & Hc' & Hs). exists p', h', (insertion_sort (on_data cmp) cs). split_and!; try done.
  - apply insertion_sort_perm.
  - by apply insertion_sort_sorted.
  - intros e. by apply insertion_sort_stable.
Qed.

(** Comparing the last decimal digit: elements that differ may be equal. *)
Definition cmp_digit (x y : Z) : Z := x mod 10 - y mod 10.
#[export] Instance cmp_digit_comp : CompFunc cmp_digit.
Proof. unfold cmp_digit. split; intros; lia. Qed.

Definition example_heap : heap :=
  list_to_map [(8, Node 31 (Some 24)); (24, Node 22 (Some 16)); (16, Node 41 (Some 40)); (40, Node 12 (Some 32)); (32, Node 20 None); (7, Node 1 (Some 99))].
Definition example_cells : list (Z * Z) := [(8, 31); (24, 22); (16, 41); (40, 12); (32, 20)].

Lemma example_chain : chain example_heap (Some 8) example_cells None.
Proof. repeat (split; [reflexivity|]; eexists; split; [reflexivity|]). reflexivity. Qed.

Lemma g_slist_sort_correct_witness :
  ∃ p' h' cs', g_slist_sort example_heap (Some 8) cmp_digit = Ret (p', h') ∧ chain h' p' cs' None ∧
    cs'.*2 = [20; 31; 41; 22; 12] ∧ h' !! 7 = Some (Node 1 (Some 99)).
Proof.
  destruct (g_slist_sort_correct cmp_digit example_heap (Some 8) example_cells example_chain) as (p' & h' & cs' & E & Hc & Hp & Hs & Hst & Hfr).
  exists p', h', cs'. split; [exact E|]. split; [exact Hc|]. split; [|rewrite Hfr; [vm_compute; reflexivity|intros H; repeat (apply elem_of_cons in H as [H|H]; [done|]); by apply elem_of_nil in H]].
  assert (chain h' p' [(32, 20); (8, 31); (16, 41); (24, 22); (40, 12)] None) as Hc'.
  { assert (E' : g_slist_sort example_heap (Some 8) cmp_digit = g_slist_sort example_heap (Some 8) cmp_digit) by reflexivity.
    rewrite E in E' at 1. vm_compute in E'. injection E' as -> ->. repeat (split; [reflexivity|]; eexists; split; [reflexivity|]). reflexivity. }
  by rewrite (chain_det _ _ _ _ Hc Hc').
Defined.

(** The operations of a program on one list; [DeleteLink n] deletes the node
    [g_slist_nth] finds. *)
Inductive list_op :=
  | Append (d : Z)
  | Prepend (d : Z)
  | InsertSorted (d : Z) (cmp : Z → Z → Z)
  | Remove (d : Z)
  | DeleteLink (n : nat)
  | Sort (cmp : Z → Z → Z).

Definition run_op (malloc : gset Z → Z) (o : list_op) (s : option Z * heap) : outcome (option Z * heap) :=
  let '(p, h) := s in
  match o with
  | Append d => g_slist_append malloc h p d
  | Prepend d => Ret (g_slist_prepend malloc h p d)
  | InsertSorted d cmp => g_slist_insert_sorted malloc h p d cmp
  | Remove d => g_slist_remove h p d
  | DeleteLink n => link ← g_slist_nth h p n; g_slist_delete_link h p link
  | Sort cmp => g_slist_sort h p cmp
  end.

Definition apply_op (o : list_op) (l : list Z) : list Z :=
  match o with
  | Append d => l ++ [d]
  | Prepend d => d :: l
  | InsertSorted d cmp => insert_before cmp d l
  | Remove d => sdp_list_remove l d
  | DeleteLink n => delete n l
  | Sort cmp => insertion_sort cmp l
  end.

Definition op_ok (o : list_op) : Prop := match o with Sort cmp => CompFunc cmp | _ => True end.

Fixpoint run_ops (malloc : gset Z → Z) (os : list list_op) (s : option Z * heap) : outcome (option Z * heap) :=
  match os with
  | [] => Ret s
  | o :: os => s ← run_op malloc o s; run_ops malloc os s
  end.

(** The memory is [rest] and the nodes of a list of [l] that starts at [p]. *)
Definition owns (rest : heap) (s : option Z * heap) (l : list Z) : Prop :=
  ∃ cs, chain s.2 s.1 cs None ∧ cs.*2 = l ∧ ∀ a, (a ∈ cs.*1 → rest !! a = None) ∧ (a ∉ cs.*1 → s.2 !! a = rest !! a).

Lemma owns_step rest h p cs p' h' cs' : owns rest (p, h) cs.*2 → chain h p cs None → chain h' p' cs' None →
  (∀ a, a ∈ cs'.*1 → a ∈ cs.*1 ∨ h !! a = None) → (∀ a, a ∉ cs'.*1 → h' !! a = if decide (a ∈ cs.*1) then None else h !! a) →
  owns rest (p', h') cs'.*2.
Proof.
  intros (cs0 & Hc0 & _ & Ho) Hc Hc' Hin Hout. cbn in *. rewrite (chain_det _ _ _ _ Hc0 Hc) in Ho. exists cs'. split_and!; [done|done|].
  intros a. destruct (Ho a) as [H1 H2]. split; intros Ha.
  - destruct (decide (a ∈ cs.*1)) as [|Hn]; [by apply H1|]. destruct (Hin a Ha) as [|E]; [done|]. by rewrite <- H2.
  - cbn. rewrite (Hout a Ha). destruct (decide (a ∈ cs.*1)); [by rewrite H1|by apply H2].
Qed.

Lemma insert_before_data cmp a d cs : (insert_before (on_data cmp) (a, d) cs).*2 = insert_before cmp d cs.*2.
Proof. induction cs as [|[b e] cs IH]; cbn; [done|]. unfold on_data at 1. cbn. destruct (0 <? cmp d e); [|done]. cbn. by rewrite IH. Qed.

Lemma insertion_sort_data cmp cs : (insertion_sort (on_data cmp) cs).*2 = insertion_sort cmp cs.*2.
Proof. induction cs as [|[b e] cs IH]; cbn; [done|]. rewrite insert_before_data. unfold insertion_sort in IH. by rewrite IH. Qed.

Lemma remove_first_data d (l1 l2 : list (Z * Z)) : Forall (λ c, c.2 ≠ d) l1 → (match l2 with [] => True | c :: _ => c.2 = d end) →
  sdp_list_remove (l1 ++ l2).*2 d = (l1 ++ tail l2).*2.
Proof.
  intros H1 H2. induction H1 as [|c l1 Hc H1 IH]; cbn.
  - destruct l2; cbn; [done|]. by rewrite decide_True.
  - rewrite decide_False by done. f_equal. exact IH.
Qed.

Lemma owns_grow rest h p cs p' h' cs' a d : owns rest (p, h) cs.*2 → chain h p cs None → chain h' p' cs' None →
  cs' ≡ₚ (a, d) :: cs → h !! a = None → same_but (a :: cs.*1) h h' → owns rest (p', h') cs'.*2.
Proof.
  intros Ho Hc Hc' Hp Ha Hs. eapply owns_step; [done..| |]; intros b Hb; rewrite Hp in Hb; cbn in Hb.
  - apply elem_of_cons in Hb as [->|Hb]; [by right|by left].
  - rewrite Hs by done. rewrite decide_False; [done|]. intros Hin. apply Hb. by right.
Qed.

Lemma owns_perm rest h p cs p' h' cs' : owns rest (p, h) cs.*2 → chain h p cs None → chain h' p' cs' None →
  cs' ≡ₚ cs → same_but cs.*1 h h' → owns rest (p', h') cs'.*2.
Proof.
  intros Ho Hc Hc' Hp Hs. eapply owns_step; [done..| |]; intros b Hb; rewrite Hp in Hb; [by left|].
  rewrite Hs by done. by rewrite decide_False.
Qed.

Lemma owns_shrink rest h p l1 c l2 p' h' : owns rest (p, h) (l1 ++ c :: l2).*2 → chain h p (l1 ++ c :: l2) None →
  chain h' p' (l1 ++ l2) None → same_but (l1 ++ c :: l2).*1 h h' → h' !! c.1 = None → owns rest (p', h') (l1 ++ l2).*2.
Proof.
  intros Ho Hc Hc' Hs Hn. eapply owns_step; [done..| |]; intros b Hb; rewrite fmap_app, elem_of_app in Hb.
  - left. rewrite fmap_app, elem_of_app. cbn. rewrite elem_of_cons. tauto.
  - case_decide as Hin.
    + rewrite fmap_app, elem_of_app in Hin. cbn in Hin. rewrite elem_of_cons in Hin. destruct (decide (b = c.1)) as [->|]; [done|tauto].
    + by apply Hs.
Qed.

Lemma delete_beyond {A} n (l : list A) : (length l ≤ n)%nat → delete n l = l.
Proof. revert n. induction l as [|x l IH]; intros [|n] H; cbn in *; try done; try lia. f_equal. apply IH. lia. Qed.

Section programs.
Context (malloc : gset Z → Z) (malloc_fresh : ∀ X, malloc X ∉ X) (rest : heap).

Lemma run_op_owns o s l : owns rest s l → op_ok o → ∃ s', run_op malloc o s = Ret s' ∧ owns rest s' (apply_op o l).
Proof using malloc_fresh.
  destruct s as [p h]. intros Ho Hok. pose proof Ho as (cs & Hc & <- & _). cbn [fst snd] in Hc. destruct o as [d|d|d cmp|d|n|cmp]; cbn [run_op apply_op].
  - destruct (append_spec malloc malloc_fresh h p cs d Hc) as (a & p' & h' & Ha & -> & Hc' & Hs). eexists. split; [done|].
    change [d] with ([(a, d)].*2). rewrite <- fmap_app. eapply owns_grow; try done. apply (Permutation_app_comm cs [(a, d)]).
  - destruct (prepend_spec malloc malloc_fresh h p cs d Hc) as (a & p' & h' & Ha & -> & Hc' & Hs). eexists. split; [done|].
    change (d :: cs.*2) with (((a, d) :: cs).*2). by eapply owns_grow.
  - destruct (insert_sorted_spec malloc malloc_fresh h p cs d cmp Hc) as (a & p' & h' & Ha & -> & Hc' & Hs). eexists. split; [done|].
    rewrite <- (insert_before_data _ a). eapply owns_grow; try done. apply insert_before_perm.
  - destruct (remove_spec h p cs d Hc) as (l1 & l2 & p' & h' & -> & H1 & H2 & -> & Hc' & Hs & Hn). eexists. split; [done|].
    rewrite remove_first_data by done. destruct l2 as [|c l2]; cbn [tail] in *.
    + rewrite app_nil_r in *. by eapply owns_perm.
    + eapply owns_shrink; try done. by apply Hn.
  - rewrite (g_slist_nth_spec _ _ _ _ Hc), outcome_bind_ret. destruct (cs !! n) as [c|] eqn:En; cbn [fmap option_fmap option_map].
    + pose proof (take_drop_middle _ _ _ En) as Hsp. destruct c as [b f]. rewrite <- Hsp in Hc. cbn [fst].
      destruct (delete_link_spec h p _ b f _ Hc) as (p' & h' & -> & Hc' & Hs & Hn). eexists. split; [done|].
      assert (delete n cs.*2 = (take n cs ++ drop (S n) cs).*2) as ->.
      { rewrite <- list_fmap_delete. f_equal. apply delete_take_drop. }
      rewrite <- Hsp in Ho. by eapply owns_shrink.
    + unfold g_slist_delete_link, _g_slist_remove_link.
      assert (∀ fuel cs q prev, chain h q cs None → (length cs < fuel)%nat → remove_link_loop fuel h p None prev q = Ret (p, h)) as HL.
      { clear. induction fuel as [|fuel IH]; intros [|[b e] cs] q prev Hc Hf; cbn in Hf; try lia; [by cbn in Hc; subst q|].
        apply chain_head in Hc as (-> & r & Hr & Hc). cbn [remove_link_loop]. rewrite (node_at_Some _ _ _ Hr), outcome_bind_ret.
        rewrite decide_False by done. apply (IH cs); [done|lia]. }
      rewrite (HL _ cs) by (try done; by eapply chain_fuel). rewrite outcome_bind_ret. cbn [snd fst free_node]. rewrite outcome_bind_ret.
      eexists. split; [done|]. rewrite delete_beyond; [done|]. rewrite length_fmap. by apply lookup_ge_None.
  - cbn in Hok. destruct (sort_spec cmp h p cs Hc) as (p' & h' & -> & Hc' & Hs). eexists. split; [done|].
    rewrite <- insertion_sort_data. eapply owns_perm; try done. apply insertion_sort_perm.
Qed.

Lemma run_ops_owns os s l : owns rest s l → Forall op_ok os → ∃ s', run_ops malloc os s = Ret s' ∧ owns rest s' (foldl (flip apply_op) l os).
Proof using malloc_fresh.
  intros Ho Hos. revert s l Ho. induction Hos as [|o os Hok Hos IH]; intros s l Ho; cbn; [by exists s|].
  destruct (run_op_owns o s l Ho Hok) as (s' & E & Ho'). rewrite E. cbn. by apply IH.
Qed.
End programs.

(** C20: A [GSList] is a list, in any memory. Take any sequence of appends,
    prepends, sorted insertions, removals by data or by node, and sorts, on a
    list that is empty at first, in a memory that holds anything else, with any
    allocator. Every step returns; the list then holds what the same operations
    give on lists; length, nth, find, last and position answer accordingly and
    foreach visits the elements in order; and [g_slist_free] gives back exactly
    the memory there was before: nothing is leaked, freed twice or touched that
    is not the list's. *)
Theorem g_slist_refines_list (malloc : gset Z → Z) (malloc_fresh : ∀ X, malloc X ∉ X) (rest : heap) (os : list list_op) (Hos : Forall op_ok os) :
  let l := foldl (flip apply_op) [] os in
  ∃ p h, run_ops malloc os (None, rest) = Ret (p, h) ∧
    g_slist_length h p = Ret (Z.of_nat (length l)) ∧
    (∀ n, g_slist_nth_data h p n = Ret (l !! n)) ∧
    (∀ d, ∃ q, g_slist_find h p d = Ret q ∧ (q = None ↔ d ∉ l)) ∧
    (∀ n q, g_slist_nth h p n = Ret (Some q) → g_slist_position h p (Some q) = Ret (Z.of_nat n)) ∧
    (∃ q, g_slist_last h p = Ret q ∧ g_slist_nth h p (length l - 1) = Ret q) ∧
    (∀ (S : Type) (func : Z → S → outcome S) u, g_slist_foreach h p func u = sdp_list_foreach l func u) ∧
    g_slist_free h p = Ret rest.
Proof.
  intros l. destruct (run_ops_owns malloc malloc_fresh rest os (None, rest) []) as ([p h] & E & cs & Hc & Hd & Ho); [|done|].
  { exists []. split; [done|]. split; [done|]. intros a. split; [by intros ?%elem_of_nil|done]. }
  fold l in Hd. cbn [fst snd] in Hc, Ho. exists p, h. pose proof (chain_fuel _ _ _ Hc) as Hf. split; [exact E|]. clear E. rewrite <- Hd. split_and!.
  - unfold g_slist_length. rewrite (length_loop_spec _ cs) by done. by rewrite length_fmap.
  - intros n. unfold g_slist_nth_data. rewrite (g_slist_nth_spec _ _ _ _ Hc), outcome_bind_ret, list_lookup_fmap.
    destruct (cs !! n) as [[a d]|] eqn:En; cbn [fmap option_fmap option_map fst]; [|done].
    rewrite <- (take_drop_middle _ _ _ En) in Hc. destruct (chain_lookup _ _ _ _ _ _ _ Hc) as (r & Hr & _).
    by rewrite (node_at_Some _ _ _ Hr), outcome_bind_ret.
  - intros d. unfold g_slist_find. destruct (find_loop_spec h (λ x, x =? d) cs (list_fuel h) p None Hc Hf) as (l1 & l2 & -> & H1 & H2 & ->).
    rewrite outcome_bind_ret. eexists. split; [done|]. cbn [snd]. rewrite fmap_app, elem_of_app.
    assert (d ∉ l1.*2) as Hn.
    { intros Hin. apply list_elem_of_fmap in Hin as (c & -> & Hin). rewrite Forall_forall in H1. specialize (H1 c Hin). cbn in H1. lia. }
    destruct l2 as [|c l2]; cbn; [rewrite elem_of_nil; tauto|]. apply Z.eqb_eq in H2. rewrite elem_of_cons. naive_solver.
  - intros n q. rewrite (g_slist_nth_spec _ _ _ _ Hc). intros [= Hq]. unfold g_slist_position.
    rewrite (position_loop_spec _ _ cs) by done. apply fmap_Some in Hq as ([b e] & En & ->). cbn [fst].
    assert (list_find (λ a, a = b) cs.*1 = Some (n, b)) as ->; [|done].
    apply list_find_Some. split_and!; [by rewrite list_lookup_fmap, En|done|]. intros j y Hy Hj ->.
    pose proof (NoDup_lookup _ j n b (chain_NoDup _ _ _ Hc) Hy) as Hjn. rewrite list_lookup_fmap, En in Hjn. specialize (Hjn eq_refl). lia.
  - rewrite (last_spec _ _ _ Hc). eexists. split; [done|]. rewrite (g_slist_nth_spec _ _ _ _ Hc), length_fmap. f_equal. unfold last_at.
    rewrite last_lookup. replace (Init.Nat.pred (length cs)) with (length cs - 1)%nat by lia. by destruct (cs !! _).
  - intros S func u. unfold g_slist_foreach. by apply foreach_loop_spec.
  - unfold g_slist_free. destruct (free_loop_spec cs (list_fuel h) h p Hc Hf) as (h' & -> & Hh'). f_equal. apply map_eq. intros a.
    rewrite Hh'. destruct (Ho a) as [H1 H2]. case_decide; [by rewrite H1|by apply H2].
Qed.

Lemma g_slist_refines_list_witness :
  ∃ p h, run_ops fresh [Append 5; Prepend 3; InsertSorted 4 Z.sub; Sort cmp_digit; DeleteLink 1; Append 3; Remove 3] (None, example_heap) = Ret (p, h) ∧
    g_slist_nth_data h p 1 = Ret (Some 3) ∧ g_slist_free h p = Ret example_heap.
Proof.
  destruct (g_slist_refines_list fresh is_fresh example_heap
    [Append 5; Prepend 3; InsertSorted 4 Z.sub; Sort cmp_digit; DeleteLink 1; Append 3; Remove 3]) as (p & h & E & _ & H2 & _ & _ & _ & _ & H7).
  { repeat constructor; apply cmp_digit_comp. }
  exists p, h. split; [exact E|]. split; [rewrite H2; vm_compute; reflexivity|exact H7].
Defined.
