(* ===== verification/GUtf8.v ===== *)
(** utils/eglib/gmain.c, [g_utf8_validate]. Theorem: it accepts exactly the
    UTF-8 encodings of sequences of characters and otherwise finds the first
    place where none is encoded. *)

From stdpp Require Import base list numbers.
From Stdlib Require Import ZArith Lia.
From S2P Require Import Prelude CString.

Local Open Scope Z_scope.

Definition UNICODE_VALID (c : Z) : bool :=
  (c <? 0x110000) && negb (Z.land c 0xFFFFF800 =? 0xD800) && ((c <? 0xFDD0) || (0xFDEF <? c)) && negb (Z.land c 0xFFFE =? 0xFFFE).

(** [INCREMENT_AND_CHECK_MAX], then [p[i]]; [p] and [i] are those after the
    increment. The octet is read before [i] is compared with [max_len]. *)
Definition INCREMENT_AND_CHECK_MAX (p : list Z) (i max_len : Z) : outcome (option Z) :=
  b ← rd8 p;
  Ret (if (b =? 0) || ((0 <=? max_len) && (max_len <=? i)) then None else Some b).

Definition CONTINUATION_CHAR (c val : Z) : option Z :=
  if negb (Z.land c 0xc0 =? 0x80) then None else Some (Z.lor (Z.shiftl val 6) (Z.land c 0x3f)).

Definition next_char (p : list Z) (i max_len val : Z) : outcome (option Z) :=
  r ← INCREMENT_AND_CHECK_MAX p i max_len;
  Ret (match r with None => None | Some c => CONTINUATION_CHAR c val end).

(** From [two_remaining] on; [p] and [i] are those of the second last octet. *)
Definition two_remaining (p : list Z) (i max_len val min : Z) : outcome bool :=
  r ← next_char p i max_len val;
  match r with
  | None => Ret false
  | Some val =>
      r ← next_char (drop 1 p) (i + 1) max_len val;
      match r with
      | None => Ret false
      | Some val => Ret (negb ((val <? min) || negb (UNICODE_VALID val)))
      end
  end.

(** The body of the loop, at an octet of at least 128: the octets of the
    character, or [None] for [goto failed]. *)
Definition multibyte (p : list Z) (b i max_len : Z) : outcome (option nat) :=
  let accept (n : nat) (ok : bool) := if ok then Some n else None in
  if Z.land b 0xe0 =? 0xc0 then
    if Z.land b 0x1e =? 0 then Ret None
    else
      r ← INCREMENT_AND_CHECK_MAX (drop 1 p) (i + 1) max_len;
      Ret (match r with None => None | Some c => accept 2%nat (Z.land c 0xc0 =? 0x80) end)
  else if Z.land b 0xf0 =? 0xe0 then
    ok ← two_remaining (drop 1 p) (i + 1) max_len (Z.land b 0x0f) (Z.shiftl 1 11);
    Ret (accept 3%nat ok)
  else if Z.land b 0xf8 =? 0xf0 then
    r ← next_char (drop 1 p) (i + 1) max_len (Z.land b 0x07);
    match r with
    | None => Ret None
    | Some val => ok ← two_remaining (drop 2 p) (i + 2) max_len val (Z.shiftl 1 16); Ret (accept 4%nat ok)
    end
  else Ret None.

(** The result and the offset of [*end]. *)
Fixpoint validate_loop (fuel : nat) (p : list Z) (i max_len : Z) : outcome (bool * Z) :=
  match fuel with
  | O => NoFuel
  | S fuel =>
      b ← rd8 p;
      if b =? 0 then Ret (true, i)
      else if (0 <=? max_len) && (max_len <=? i) then Ret (true, i)
      else if b <? 128 then validate_loop fuel (drop 1 p) (i + 1) max_len
      else
        r ← multibyte p b i max_len;
        match r with
        | None => Ret (false, i)
        | Some n => validate_loop fuel (drop n p) (i + Z.of_nat n) max_len
        end
  end.

Definition g_utf8_validate (str : list Z) (max_len : Z) : outcome (bool * Z) := validate_loop (S (length str)) str 0 max_len.

(** * The encoding *)

(** The characters g_utf8_validate accepts: no surrogates, no noncharacters. *)
Definition unichar (c : Z) : Prop := 0 < c ∧ UNICODE_VALID c = true.

Definition utf8_encode (c : Z) : list Z :=
  if c <? 0x80 then [c]
  else if c <? 0x800 then [0xC0 + c / 64; 0x80 + c mod 64]
  else if c <? 0x10000 then [0xE0 + c / 4096; 0x80 + c / 64 mod 64; 0x80 + c mod 64]
  else [0xF0 + c / 262144; 0x80 + c / 4096 mod 64; 0x80 + c / 64 mod 64; 0x80 + c mod 64].

Lemma byte_forall (P : Z → bool) : forallb P (map Z.of_nat (seq 0 256)) = true → ∀ b, byte_ok b → P b = true.
Proof.
  intros H b Hb. unfold byte_ok in Hb. rewrite forallb_forall in H. apply H, in_map_iff. exists (Z.to_nat b).
  split; [lia|]. apply in_seq. lia.
Qed.

(** The masks of the source as ranges of octets. *)
Definition masks_ok (b : Z) : bool :=
  eqb (Z.land b 0xe0 =? 0xc0) ((0xC0 <=? b) && (b <? 0xE0)) && eqb (Z.land b 0xf0 =? 0xe0) ((0xE0 <=? b) && (b <? 0xF0)) &&
  eqb (Z.land b 0xf8 =? 0xf0) ((0xF0 <=? b) && (b <? 0xF8)) && eqb (Z.land b 0xc0 =? 0x80) ((0x80 <=? b) && (b <? 0xC0)) &&
  ((Z.land b 0x0f =? b mod 16) && (Z.land b 0x07 =? b mod 8) && (Z.land b 0x3f =? b mod 64) &&
   implb ((0xC0 <=? b) && (b <? 0xE0)) (eqb (Z.land b 0x1e =? 0) (b <? 0xC2))).

Lemma masks b : byte_ok b →
  (Z.land b 0xe0 =? 0xc0) = ((0xC0 <=? b) && (b <? 0xE0)) ∧ (Z.land b 0xf0 =? 0xe0) = ((0xE0 <=? b) && (b <? 0xF0)) ∧
  (Z.land b 0xf8 =? 0xf0) = ((0xF0 <=? b) && (b <? 0xF8)) ∧ (Z.land b 0xc0 =? 0x80) = ((0x80 <=? b) && (b <? 0xC0)) ∧
  Z.land b 0x0f = b mod 16 ∧ Z.land b 0x07 = b mod 8 ∧ Z.land b 0x3f = b mod 64 ∧
  (0xC0 ≤ b < 0xE0 → (Z.land b 0x1e =? 0) = (b <? 0xC2)).
Proof.
  intros Hb. assert (masks_ok b = true) as H by (apply byte_forall; [vm_compute; reflexivity|done]).
  unfold masks_ok in H. rewrite !andb_true_iff, !eqb_true_iff, !Z.eqb_eq in H. destruct H as ((((H1 & H2) & H3) & H4) & ((H5 & H6) & H7) & H8).
  split_and!; try done. intros Hr. rewrite (proj2 (Z.leb_le _ _)), (proj2 (Z.ltb_lt _ _)) in H8 by lia. by apply eqb_true_iff.
Qed.

(** * Decoding *)

Definition is_continuation (c : Z) : bool := (0x80 <=? c) && (c <? 0xC0).
Definition char_ok (min v : Z) : bool := (min <=? v) && UNICODE_VALID v.

(** The octets of the character of at least two that starts a text. *)
Definition char_len (t : list Z) : option nat :=
  match t with
  | b :: t =>
      if (0xC0 <=? b) && (b <? 0xE0) then
        match t with c :: _ => if (0xC2 <=? b) && is_continuation c then Some 2%nat else None | _ => None end
      else if (0xE0 <=? b) && (b <? 0xF0) then
        match t with
        | c :: d :: _ =>
            if is_continuation c && is_continuation d && char_ok 0x800 ((b mod 16 * 64 + c mod 64) * 64 + d mod 64) then Some 3%nat else None
        | _ => None
        end
      else if (0xF0 <=? b) && (b <? 0xF8) then
        match t with
        | c :: d :: e :: _ =>
            if is_continuation c && is_continuation d && is_continuation e &&
               char_ok 0x10000 (((b mod 8 * 64 + c mod 64) * 64 + d mod 64) * 64 + e mod 64) then Some 4%nat else None
        | _ => None
        end
      else None
  | [] => None
  end.

Lemma unicode_valid_bound c : UNICODE_VALID c = true → c < 0x110000.
Proof. unfold UNICODE_VALID. rewrite !andb_true_iff, Z.ltb_lt. tauto. Qed.

Lemma is_continuation_true c : 0x80 ≤ c < 0xC0 → is_continuation c = true.
Proof. intros H. unfold is_continuation. by rewrite (proj2 (Z.leb_le _ _)), (proj2 (Z.ltb_lt _ _)) by lia. Qed.

Lemma char_len_encode c q : unichar c → 0x80 ≤ c → char_len (utf8_encode c ++ q) = Some (length (utf8_encode c)).
Proof.
  intros [_ Hv] Hc. pose proof (unicode_valid_bound c Hv) as Hb. unfold utf8_encode.
  rewrite (proj2 (Z.ltb_ge c 0x80)) by lia. destruct (Z.ltb_spec c 0x800); [|destruct (Z.ltb_spec c 0x10000)]; cbn [app char_len length].
  - pose proof (Z.mod_pos_bound c 64 ltac:(lia)). assert (2 ≤ c / 64 < 32) by (split; [apply Z.div_le_lower_bound|apply Z.div_lt_upper_bound]; lia).
    rewrite (proj2 (Z.leb_le 0xC0 _)), (proj2 (Z.ltb_lt _ 0xE0)), (proj2 (Z.leb_le 0xC2 _)), is_continuation_true by lia. done.
  - pose proof (Z.mod_pos_bound c 64 ltac:(lia)). pose proof (Z.mod_pos_bound (c / 64) 64 ltac:(lia)).
    assert (0 ≤ c / 4096 < 16) by (split; [apply Z.div_le_lower_bound|apply Z.div_lt_upper_bound]; lia).
    rewrite (proj2 (Z.leb_le 0xC0 _)), (proj2 (Z.ltb_ge _ 0xE0)) by lia. cbn [andb].
    rewrite (proj2 (Z.leb_le 0xE0 _)), (proj2 (Z.ltb_lt _ 0xF0)), !is_continuation_true by lia. cbn [andb].
    replace (((224 + c / 4096) mod 16 * 64 + (128 + c / 64 mod 64) mod 64) * 64 + (128 + c mod 64) mod 64) with c
      by (Z.to_euclidean_division_equations; lia).
    unfold char_ok. by rewrite Hv, (proj2 (Z.leb_le _ _)) by lia.
  - pose proof (Z.mod_pos_bound c 64 ltac:(lia)). pose proof (Z.mod_pos_bound (c / 64) 64 ltac:(lia)).
    pose proof (Z.mod_pos_bound (c / 4096) 64 ltac:(lia)).
    assert (0 ≤ c / 262144 < 5) by (split; [apply Z.div_le_lower_bound|apply Z.div_lt_upper_bound]; lia).
    rewrite (proj2 (Z.leb_le 0xC0 _)), (proj2 (Z.ltb_ge _ 0xE0)) by lia. cbn [andb].
    rewrite (proj2 (Z.leb_le 0xE0 _)), (proj2 (Z.ltb_ge _ 0xF0)) by lia. cbn [andb].
    rewrite (proj2 (Z.leb_le 0xF0 _)), (proj2 (Z.ltb_lt _ 0xF8)), !is_continuation_true by lia. cbn [andb].
    replace ((((240 + c / 262144) mod 8 * 64 + (128 + c / 4096 mod 64) mod 64) * 64 + (128 + c / 64 mod 64) mod 64) * 64 + (128 + c mod 64) mod 64)
      with c by (Z.to_euclidean_division_equations; lia).
    unfold char_ok. by rewrite Hv, (proj2 (Z.leb_le _ _)) by lia.
Qed.

Lemma small_unichar c : 0 ≤ c < 0x800 → negb (Z.land c 0xFFFFF800 =? 0xD800) && negb (Z.land c 0xFFFE =? 0xFFFE) = true.
Proof.
  intros H. rewrite andb_true_iff, !negb_true_iff, !Z.eqb_neq. split; intros E; apply (f_equal (λ z, Z.testbit z 15)) in E;
    rewrite Z.land_spec, (testbit_above 11) in E by lia; vm_compute in E; done.
Qed.

Lemma is_continuation_inv c : is_continuation c = true → c mod 64 = c - 0x80 ∧ 0x80 ≤ c < 0xC0.
Proof.
  unfold is_continuation. rewrite andb_true_iff, Z.leb_le, Z.ltb_lt. intros H. split; [|done].
  symmetry. apply (Z.mod_unique _ _ 2); lia.
Qed.

Lemma if_some {A} (b : bool) (x y : A) : (if b then Some x else None) = Some y → b = true ∧ y = x.
Proof. destruct b; [|done]. by intros [= ->]. Qed.

Lemma char_len_Some t n : char_len t = Some n → ∃ c, unichar c ∧ 0x80 ≤ c ∧ take n t = utf8_encode c ∧ n = length (utf8_encode c) ∧ (n ≤ length t)%nat.
Proof.
  destruct t as [|b t]; [done|]. cbn [char_len].
  destruct ((0xC0 <=? b) && (b <? 0xE0)) eqn:E1; [|destruct ((0xE0 <=? b) && (b <? 0xF0)) eqn:E2; [|destruct ((0xF0 <=? b) && (b <? 0xF8)) eqn:E3; [|done]]].
  - destruct t as [|c t]; [done|]. intros [E ->]%if_some.
    rewrite !andb_true_iff, !Z.leb_le, !Z.ltb_lt in E1. rewrite !andb_true_iff, !Z.leb_le in E. destruct E as [Hb Hc].
    apply is_continuation_inv in Hc as [Hm Hc]. exists ((b - 0xC0) * 64 + (c - 0x80)).
    assert (((b - 0xC0) * 64 + (c - 0x80)) / 64 = b - 0xC0) as Hd by (symmetry; apply (Z.div_unique _ _ _ (c - 0x80)); lia).
    assert (((b - 0xC0) * 64 + (c - 0x80)) mod 64 = c - 0x80) as Hr by (symmetry; apply (Z.mod_unique _ _ (b - 0xC0)); lia).
    unfold utf8_encode. rewrite (proj2 (Z.ltb_ge _ 0x80)), (proj2 (Z.ltb_lt _ 0x800)), Hd, Hr by lia.
    split_and!; [split; [lia|]|lia|cbn; do 2 f_equal; [lia|f_equal; lia]|done|cbn; lia].
    unfold UNICODE_VALID. rewrite !(proj2 (Z.ltb_lt _ _)) by lia. cbn [andb orb]. rewrite andb_true_r. apply small_unichar. lia.
  - rewrite !andb_true_iff, !Z.leb_le, !Z.ltb_lt in E2.
    destruct t as [|c [|d t]]; [done|done|]. intros [E ->]%if_some. unfold char_ok in E. rewrite !andb_true_iff, !Z.leb_le in E.
    destruct E as [[Hc Hd] [Hmin Hv]]. apply is_continuation_inv in Hc as [Hmc Hc]. apply is_continuation_inv in Hd as [Hmd Hd].
    assert (b mod 16 = b - 0xE0) as Hmb by (symmetry; apply (Z.mod_unique _ _ 14); lia). rewrite Hmc, Hmd, Hmb in *.
    set (v := ((b - 0xE0) * 64 + (c - 0x80)) * 64 + (d - 0x80)) in *. exists v. pose proof (unicode_valid_bound v Hv).
    assert (v / 4096 = b - 0xE0 ∧ v / 64 mod 64 = c - 0x80 ∧ v mod 64 = d - 0x80) as (Q1 & Q2 & Q3) by (subst v; Z.to_euclidean_division_equations; lia).
    unfold utf8_encode. rewrite (proj2 (Z.ltb_ge _ 0x80)), (proj2 (Z.ltb_ge _ 0x800)), (proj2 (Z.ltb_lt _ 0x10000)), Q1, Q2, Q3 by lia.
    split_and!; [split; [lia|done]|lia|cbn; repeat (f_equal; try lia)|done|cbn; lia].
  - rewrite !andb_true_iff, !Z.leb_le, !Z.ltb_lt in E3.
    destruct t as [|c [|d [|e t]]]; [done|done|done|]. intros [E ->]%if_some. unfold char_ok in E. rewrite !andb_true_iff, !Z.leb_le in E.
    destruct E as [[[Hc Hd] He] [Hmin Hv]]. apply is_continuation_inv in Hc as [Hmc Hc]. apply is_continuation_inv in Hd as [Hmd Hd].
    apply is_continuation_inv in He as [Hme He]. assert (b mod 8 = b - 0xF0) as Hmb by (symmetry; apply (Z.mod_unique _ _ 30); lia). rewrite Hmc, Hmd, Hme, Hmb in *.
    set (v := (((b - 0xF0) * 64 + (c - 0x80)) * 64 + (d - 0x80)) * 64 + (e - 0x80)) in *. exists v. pose proof (unicode_valid_bound v Hv).
    assert (v / 262144 = b - 0xF0 ∧ v / 4096 mod 64 = c - 0x80 ∧ v / 64 mod 64 = d - 0x80 ∧ v mod 64 = e - 0x80) as (Q1 & Q2 & Q3 & Q4)
      by (subst v; Z.to_euclidean_division_equations; lia).
    unfold utf8_encode. rewrite !(proj2 (Z.ltb_ge _ _)), Q1, Q2, Q3, Q4 by lia.
    split_and!; [split; [lia|done]|lia|cbn; repeat (f_equal; try lia)|done|cbn; lia].
Qed.

(** * The code on a text *)

(** At [p], [i] octets into the string, the text [t] is left, which a zero or
    the maximal length ends; either way one more octet can be read. *)
Definition text_at (p : list Z) (i max_len : Z) (t : list Z) : Prop :=
  Forall (λ b, 0 < b < 256) t ∧ ∃ e r, p = t ++ e :: r ∧
    (e = 0 ∧ (max_len < 0 ∨ i + Z.of_nat (length t) ≤ max_len) ∨ 0 ≤ max_len ∧ max_len = i + Z.of_nat (length t)).

Lemma text_at_tail p i max_len b t : text_at p i max_len (b :: t) → text_at (drop 1 p) (i + 1) max_len t.
Proof.
  intros (Ht & e & r & -> & H). inversion Ht; subst. split; [done|]. exists e, r. split; [done|]. cbn [length] in H. lia.
Qed.

Lemma text_at_drop n p i max_len t : text_at p i max_len t → (n ≤ length t)%nat → text_at (drop n p) (i + Z.of_nat n) max_len (drop n t).
Proof.
  revert p i t. induction n as [|n IH]; intros p i t H Hn; [by rewrite Z.add_0_r|]. destruct t as [|b t]; cbn in Hn; [lia|].
  apply text_at_tail in H. replace (drop (S n) p) with (drop n (drop 1 p)) by (by rewrite drop_drop).
  replace (i + Z.of_nat (S n)) with (i + 1 + Z.of_nat n) by lia. apply (IH _ _ t); [done|lia].
Qed.

Lemma text_at_head p i max_len b t : text_at p i max_len (b :: t) → rd8 p = Ret b ∧ 0 < b < 256 ∧ (0 ≤ max_len → i < max_len).
Proof. intros (Ht & e & r & -> & H). inversion Ht; subst. split; [done|]. split; [done|]. cbn [length] in H. lia. Qed.

Lemma increment_spec p i max_len t : text_at p i max_len t → INCREMENT_AND_CHECK_MAX p i max_len = Ret (head t).
Proof.
  intros H. unfold INCREMENT_AND_CHECK_MAX. destruct t as [|b t].
  - destruct H as (_ & e & r & -> & H). cbn [app rd8]. change (rd8 (e :: r)) with (Ret e). rewrite outcome_bind_ret. cbn [length] in H.
    destruct (Z.eqb_spec e 0); [done|]. by rewrite !(proj2 (Z.leb_le _ _)) by lia.
  - apply text_at_head in H as (-> & Hb & Hm). rewrite outcome_bind_ret, (proj2 (Z.eqb_neq b 0)) by lia. cbn [orb].
    destruct (Z.leb_spec 0 max_len); [|done]. by rewrite (proj2 (Z.leb_gt _ _)) by lia.
Qed.

Lemma next_char_spec p i max_len val t : text_at p i max_len t → 0 ≤ val →
  next_char p i max_len val =
  Ret match t with c :: _ => if is_continuation c then Some (val * 64 + c mod 64) else None | [] => None end.
Proof.
  intros H Hv. unfold next_char. rewrite (increment_spec _ _ _ _ H), outcome_bind_ret. destruct t as [|c t]; [done|]. cbn [head].
  apply text_at_head in H as (_ & Hc & _). destruct (masks c) as (_ & _ & _ & M4 & _ & _ & M7 & _); [unfold byte_ok; lia|].
  unfold CONTINUATION_CHAR, is_continuation. rewrite M4, M7. destruct (_ && _); [|done]. cbn [negb].
  pose proof (Z.mod_pos_bound c 64 ltac:(lia)). rewrite Z.lor_comm, lor_shiftl_add by (change (2 ^ 6) with 64; lia). change (2 ^ 6) with 64. do 2 f_equal. lia.
Qed.

Lemma multibyte_spec p b t i max_len : text_at p i max_len (b :: t) → multibyte p b i max_len = Ret (char_len (b :: t)).
Proof.
  intros H. pose proof (text_at_head _ _ _ _ _ H) as (_ & Hb & _). apply text_at_tail in H.
  destruct (masks b) as (M1 & M2 & M3 & _ & M5 & M6 & _ & M8); [unfold byte_ok; lia|]. unfold multibyte, char_len. rewrite M1, M2, M3, M5, M6.
  destruct ((0xC0 <=? b) && (b <? 0xE0)) eqn:E1.
  { rewrite andb_true_iff, Z.leb_le, Z.ltb_lt in E1. rewrite M8 by done. rewrite (increment_spec _ _ _ _ H).
    destruct (Z.ltb_spec b 0xC2); [rewrite (proj2 (Z.leb_gt _ _)) by lia; by destruct t|]. rewrite (proj2 (Z.leb_le _ _)) by lia.
    rewrite outcome_bind_ret. destruct t as [|c t]; [done|]. cbn [head andb]. apply text_at_head in H as (_ & Hc & _).
    destruct (masks c) as (_ & _ & _ & -> & _); [unfold byte_ok; lia|done]. }
  assert (∀ q j u v min, text_at q j max_len u → 0 ≤ v → two_remaining q j max_len v min =
    Ret match u with c :: d :: _ => is_continuation c && is_continuation d && char_ok min ((v * 64 + c mod 64) * 64 + d mod 64) | _ => false end) as H2.
  { intros q j u v min Hu Hv. unfold two_remaining. rewrite (next_char_spec _ _ _ _ _ Hu Hv), outcome_bind_ret. destruct u as [|c u]; [done|].
    destruct (is_continuation c) eqn:Ec; [|by destruct u]. pose proof (Z.mod_pos_bound c 64 ltac:(lia)).
    rewrite (next_char_spec _ _ _ _ _ (text_at_tail _ _ _ _ _ Hu)), outcome_bind_ret by lia. destruct u as [|d u]; [done|].
    destruct (is_continuation d); [|done]. cbn [andb]. unfold char_ok. rewrite negb_orb, negb_involutive, Z.leb_antisym. done. }
  destruct ((0xE0 <=? b) && (b <? 0xF0)) eqn:E2.
  { pose proof (Z.mod_pos_bound b 16 ltac:(lia)). rewrite (H2 _ _ _ _ _ H) by lia. rewrite outcome_bind_ret. by destruct t as [|c [|d t]]. }
  destruct ((0xF0 <=? b) && (b <? 0xF8)); [|done]. pose proof (Z.mod_pos_bound b 8 ltac:(lia)).
  rewrite (next_char_spec _ _ _ _ _ H), outcome_bind_ret by lia. destruct t as [|c t]; [done|].
  destruct (is_continuation c) eqn:Ec; [|by destruct t as [|d [|e t]]]. apply text_at_tail in H. rewrite drop_drop in H.
  replace (i + 1 + 1) with (i + 2) in H by lia. pose proof (Z.mod_pos_bound c 64 ltac:(lia)). rewrite (H2 _ _ _ _ _ H) by lia. rewrite outcome_bind_ret.
  by destruct t as [|d [|e t]].
Qed.

(** A text is valid up to an offset, where no character starts. *)
Definition valid_up_to (t : list Z) (n : nat) : Prop :=
  (n ≤ length t)%nat ∧ (∃ cs, Forall unichar cs ∧ take n t = concat (map utf8_encode cs)) ∧
  ∀ c, unichar c → ¬ (utf8_encode c `prefix_of` drop n t).

Lemma utf8_encode_pos c : (0 < length (utf8_encode c))%nat.
Proof. unfold utf8_encode. repeat (destruct (_ <? _); [cbn; lia|]). cbn. lia. Qed.

Lemma utf8_encode_head c : unichar c → ∃ b l, utf8_encode c = b :: l ∧ (b < 0x80 ↔ c < 0x80) ∧ (c < 0x80 → l = [] ∧ b = c).
Proof.
  intros [Hc Hv]. unfold utf8_encode. destruct (Z.ltb_spec c 0x80); [by exists c, []|].
  repeat (destruct (_ <? _); [eexists _, _; split; [done|]; split; [|lia]; Z.to_euclidean_division_equations; lia|]).
  eexists _, _. split; [done|]. split; [|lia]. Z.to_euclidean_division_equations; lia.
Qed.

Lemma char_len_None t b : char_len (b :: t) = None → 0x80 ≤ b → ∀ c, unichar c → ¬ (utf8_encode c `prefix_of` b :: t).
Proof.
  intros E Hb c Hc [q Hq]. destruct (utf8_encode_head c Hc) as (b' & l & El & Hlt & _).
  assert (b' = b) as -> by (rewrite El in Hq; by injection Hq). rewrite Hq, char_len_encode in E; [done|done|lia].
Qed.

Lemma validate_loop_spec max_len : ∀ fuel t p i, text_at p i max_len t → (length t < fuel)%nat →
  ∃ n, validate_loop fuel p i max_len = Ret (bool_decide (n = length t), i + Z.of_nat n) ∧ valid_up_to t n.
Proof.
  induction fuel as [|fuel IH]; intros t p i H Hf; [lia|]. cbn [validate_loop]. destruct t as [|b t].
  - exists 0%nat. rewrite bool_decide_true by done. split.
    + pose proof H as (_ & e & r & -> & He). cbn [app length] in *. change (rd8 (e :: r)) with (Ret e). rewrite outcome_bind_ret.
      destruct (Z.eqb_spec e 0); [by rewrite Z.add_0_r|]. by rewrite !(proj2 (Z.leb_le _ _)), Z.add_0_r by lia.
    + split; [done|]. split; [by exists []|]. intros c _ Hp%prefix_nil_inv. pose proof (utf8_encode_pos c) as Hl. rewrite Hp in Hl. cbn in Hl. lia.
  - pose proof (text_at_head _ _ _ _ _ H) as (-> & Hb & Hm). rewrite outcome_bind_ret, (proj2 (Z.eqb_neq b 0)) by lia.
    assert ((0 <=? max_len) && (max_len <=? i) = false) as ->.
    { destruct (Z.leb_spec 0 max_len); [|done]. by rewrite (proj2 (Z.leb_gt _ _)) by lia. }
    assert (∀ k c, unichar c → utf8_encode c = take k (b :: t) → k = length (utf8_encode c) → (k ≤ length (b :: t))%nat →
      ∃ n, validate_loop fuel (drop k p) (i + Z.of_nat k) max_len = Ret (bool_decide (n = length (b :: t)), i + Z.of_nat n) ∧ valid_up_to (b :: t) n) as Hstep.
    { intros k c Hc Ek Hk Hl. pose proof (utf8_encode_pos c) as Hpos.
      destruct (IH (drop k (b :: t)) (drop k p) (i + Z.of_nat k)) as (n & E & Hn & (cs & Hcs & Ht) & Hp); [by apply text_at_drop|rewrite length_drop; cbn in *; lia|].
      rewrite length_drop in Hn, E. exists (k + n)%nat. rewrite E. split.
      - f_equal. f_equal; [|lia]. apply bool_decide_ext. cbn [length] in *. lia.
      - split; [cbn [length] in *; lia|]. split; [|rewrite <- drop_drop; exact Hp].
        exists (c :: cs). split; [by constructor|]. cbn [map concat]. rewrite Ek, <- Ht. apply take_add. }
    destruct (Z.ltb_spec b 128).
    + apply (Hstep 1%nat b).
      * split; [lia|]. unfold UNICODE_VALID. rewrite !(proj2 (Z.ltb_lt _ _)) by lia. cbn [andb orb]. rewrite andb_true_r. apply small_unichar. lia.
      * unfold utf8_encode. by rewrite (proj2 (Z.ltb_lt _ _)) by lia.
      * unfold utf8_encode. by rewrite (proj2 (Z.ltb_lt _ _)) by lia.
      * cbn. lia.
    + rewrite (multibyte_spec _ _ _ _ _ H), outcome_bind_ret. destruct (char_len (b :: t)) as [k|] eqn:E.
      * apply char_len_Some in E as (c & Hc & _ & Et & Ek & Hk). by apply (Hstep k c).
      * exists 0%nat. rewrite bool_decide_false by (cbn; lia). split; [by rewrite Z.add_0_r|]. split; [lia|]. split; [by exists []|].
        intros c Hc. rewrite drop_0. by apply char_len_None.
Qed.

(** No encoding is a prefix of another. *)
Lemma utf8_encode_prefix c c' q q' : unichar c → unichar c' → utf8_encode c ++ q = utf8_encode c' ++ q' → utf8_encode c = utf8_encode c' ∧ q = q'.
Proof.
  intros Hc Hc' E. assert (length (utf8_encode c) = length (utf8_encode c')) as El; [|by apply app_inj_1].
  destruct (utf8_encode_head c Hc) as (b & l & Eb & Hlt & H1). destruct (utf8_encode_head c' Hc') as (b' & l' & Eb' & Hlt' & H1').
  assert (b' = b) as -> by (rewrite Eb, Eb' in E; by injection E). destruct (decide (b < 0x80)).
  - rewrite Eb, Eb'. destruct H1 as [-> _]; [tauto|]. by destruct H1' as [-> _]; [tauto|].
  - pose proof (char_len_encode c q Hc ltac:(lia)) as L. rewrite E, char_len_encode in L by (done || lia). by injection L.
Qed.

Lemma valid_text_continues cs' : ∀ cs n t, Forall unichar cs → Forall unichar cs' → t = concat (map utf8_encode cs) →
  take n t = concat (map utf8_encode cs') → (n < length t)%nat → ∃ c, unichar c ∧ utf8_encode c `prefix_of` drop n t.
Proof.
  induction cs' as [|c' cs' IH]; intros cs n t Hcs Hcs' Et En Hn.
  - destruct n as [|n]; [|by destruct t; cbn in *; [lia|]]. destruct Hcs as [|c cs Hc Hcs]; [by rewrite Et in Hn; cbn in Hn; lia|].
    exists c. split; [done|]. rewrite drop_0, Et. cbn. by apply prefix_app_r.
  - inversion Hcs' as [|? ? Hc' Hcs'']; subst. cbn in En. destruct Hcs as [|c cs Hc Hcs]; [cbn in Hn; lia|]. cbn [map concat] in *.
    assert (utf8_encode c ++ concat (map utf8_encode cs) = utf8_encode c' ++ (concat (map utf8_encode cs') ++ drop n (utf8_encode c ++ concat (map utf8_encode cs)))) as E.
    { rewrite app_assoc, <- En. by rewrite take_drop. }
    apply utf8_encode_prefix in E as [E _]; [|done|done]. rewrite <- E in En.
    assert (length (utf8_encode c) ≤ n)%nat as Hle by (apply (f_equal length) in En; rewrite length_take, !length_app in En; lia).
    rewrite take_app_ge in En by done. apply app_inv_head in En. rewrite drop_app_ge by done. rewrite length_app in Hn.
    apply (IH cs _ _ Hcs Hcs'' eq_refl En). lia.
Qed.

(** C34: [g_utf8_validate] decides UTF-8. For every text that a zero octet or the
    maximal length ends, with one octet more readable after it, the function
    ends without reading further; it returns TRUE exactly when the text is the
    concatenation of the UTF-8 encodings of characters that are no surrogates
    and no noncharacters; and [*end] is the first place where no such character
    is encoded, the whole text before it being valid. *)
Theorem utf8_validate_correct (str : list Z) (max_len : Z) (t : list Z) (Ht : text_at str 0 max_len t) :
  ∃ ok n, g_utf8_validate str max_len = Ret (ok, Z.of_nat n) ∧
    (ok = true ↔ ∃ cs, Forall unichar cs ∧ t = concat (map utf8_encode cs)) ∧ valid_up_to t n.
Proof.
  destruct (validate_loop_spec max_len (S (length str)) t str 0 Ht) as (n & E & Hv).
  { destruct Ht as (_ & e & r & -> & _). rewrite length_app. lia. }
  exists (bool_decide (n = length t)), n. split; [exact E|]. split; [|exact Hv]. destruct Hv as (Hn & (cs & Hcs & Et) & Hp). rewrite bool_decide_eq_true. split.
  - intros ->. exists cs. split; [done|]. by rewrite <- Et, take_ge.
  - intros (cs' & Hcs' & Et'). destruct (decide (n = length t)); [done|].
    destruct (valid_text_continues cs cs' n t) as (c & Hc & Hpc); [done..|lia|]. by destruct (Hp c).
Qed.

Lemma utf8_validate_correct_witness :
  (∃ n, g_utf8_validate [72; 0xC3; 0xA9; 0xE2; 0x82; 0xAC; 0xF0; 0x9F; 0x98; 0x80; 0] (-1) = Ret (true, n)) ∧
  ∃ n, g_utf8_validate [72; 0xC3; 0xA9; 0xED; 0xA0; 0x80; 33; 7] 7 = Ret (false, Z.of_nat n) ∧ valid_up_to [72; 0xC3; 0xA9; 0xED; 0xA0; 0x80; 33] n.
Proof.
  split.
  - destruct (utf8_validate_correct [72; 0xC3; 0xA9; 0xE2; 0x82; 0xAC; 0xF0; 0x9F; 0x98; 0x80; 0] (-1) [72; 0xC3; 0xA9; 0xE2; 0x82; 0xAC; 0xF0; 0x9F; 0x98; 0x80])
      as (ok & n & E & Hok & _).
    { split; [repeat constructor; lia|]. exists 0, []. split; [done|]. cbn. lia. }
    exists (Z.of_nat n). rewrite E. assert (ok = true) as ->; [|done]. apply Hok. exists [72; 233; 8364; 128512].
    split; [|reflexivity]. repeat constructor.
  - destruct (utf8_validate_correct [72; 0xC3; 0xA9; 0xED; 0xA0; 0x80; 33; 7] 7 [72; 0xC3; 0xA9; 0xED; 0xA0; 0x80; 33]) as (ok & n & E & _ & Hv).
    { split; [repeat constructor; lia|]. exists 7, []. split; [done|]. cbn. lia. }
    exists n. split; [|exact Hv]. assert (g_utf8_validate [72; 0xC3; 0xA9; 0xED; 0xA0; 0x80; 33; 7] 7 = Ret (false, 3)) as E2 by (vm_compute; reflexivity).
    rewrite E2 in E |- *. by injection E as <- <-.
Defined.

(** The octet at the maximal length is read although it is not part of the
    text: a text of [max_len] octets at the end of its object is read past. *)
Lemma utf8_validate_past_end : g_utf8_validate [72] 1 = Undef.
Proof. reflexivity. Qed.
