(* ===== verification/GString.v ===== *)
(** utils/eglib/gmain.c, strings: [g_strdup], [g_strsplit] and the like, and the
    growing strings [GString]. Theorems: a [GString] holds what was appended to
    it, within its block; [g_strlcat] appends as much as fits; what splitting,
    joining and concatenating get wrong. *)

From stdpp Require Import base list numbers.
From Stdlib Require Import ZArith Lia.
From S2P Require Import Prelude CString TextFile.

Local Open Scope Z_scope.

(** * C strings *)

(** A pointer is the octets from it to the end of its object. *)
Definition string_at (p : list Z) : outcome (list Z) := n ← strlen p; Ret (take (Z.to_nat n) p).

Definition strcat (dest s : list Z) : outcome (list Z) :=
  n ← strlen dest; s ← string_at s; wr dest n (s ++ [0]).

(** [strstr] of two strings, as an offset. *)
Fixpoint strstr_at (p q : list Z) : option nat :=
  if bool_decide (q `prefix_of` p) then Some 0%nat
  else match p with [] => None | _ :: p => S <$> strstr_at p q end.

Definition INT_MAX : Z := 2 ^ 31 - 1.

Section strings.
(** What fresh memory holds. *)
Context (junk : Z).

Definition g_new_chars (n : Z) : list Z := replicate (Z.to_nat n) junk.

Definition g_strdup (str : option (list Z)) : outcome (option (list Z)) :=
  match str with
  | None => Ret None
  | Some p => s ← string_at p; Ret (Some (s ++ [0]))
  end.

(** [text] is what the format and its arguments stand for; the buffer of 1024
    octets is used as one of 1023. *)
Definition vsnprintf (size : Z) (text : list Z) : list Z :=
  let t := take (Z.to_nat (size - 1)) text in t ++ 0 :: g_new_chars (1023 - Z.of_nat (length t)).

Definition g_strdup_printf (text : list Z) : outcome (option (list Z)) := g_strdup (Some (vsnprintf 1023 text)).

Fixpoint strdelimit_loop (c delimiters : list Z) (new_delim : Z) : outcome (list Z) :=
  match c with
  | [] => Undef
  | b :: c =>
      if b =? 0 then Ret (b :: c)
      else c ← strdelimit_loop c delimiters new_delim; Ret ((if bool_decide (b ∈ delimiters) then new_delim else b) :: c)
  end.
Definition g_strdelimit (string : option (list Z)) (delimiters : list Z) (new_delim : Z) : outcome (option (list Z)) :=
  match string with
  | None => Ret None
  | Some c => c ← strdelimit_loop c delimiters new_delim; Ret (Some c)
  end.

Fixpoint strlen_sum (l : Z) (args : list (list Z)) : outcome Z :=
  match args with [] => Ret l | s :: args => n ← strlen s; strlen_sum (l + n) args end.
Fixpoint strcat_all (concat : list Z) (args : list (list Z)) : outcome (list Z) :=
  match args with [] => Ret concat | s :: args => concat ← strcat concat s; strcat_all concat args end.

(** [args] are the arguments after the first. *)
Definition g_strconcat (string1 : option (list Z)) (args : list (list Z)) : outcome (option (list Z)) :=
  match string1 with
  | None => Ret None
  | Some s1 =>
      n ← strlen s1;
      l ← strlen_sum (1 + n) args;
      concat ← wr (g_new_chars l) 0 [0];
      concat ← strcat_all concat args;
      Ret (Some concat)
  end.

(** The end of [dest]; [d] octets have been passed. *)
Fixpoint strlcat_end (dest : list Z) (d bytes_left : Z) : outcome Z :=
  match dest with
  | [] => Undef
  | b :: dest => if (b =? 0) || (bytes_left =? 0) then Ret d else strlcat_end dest (d + 1) (bytes_left - 1)
  end.

(** The octets of [s] are stored at [d]; the new [dest] and [d], and the
    octets of [s] passed. *)
Fixpoint strlcat_loop (dest : list Z) (d : Z) (s : list Z) (n bytes_left : Z) : outcome (list Z * Z * Z) :=
  match s with
  | [] => Undef
  | b :: s =>
      if b =? 0 then Ret (dest, d, n)
      else if bytes_left =? 1 then strlcat_loop dest d s (n + 1) bytes_left
      else dest ← wr dest d [b]; strlcat_loop dest (d + 1) s (n + 1) (bytes_left - 1)
  end.

Definition g_strlcat (dest src : list Z) (dest_size : Z) : outcome (Z * list Z) :=
  dlength ← strlcat_end dest 0 dest_size;
  let bytes_left := dest_size - dlength in
  if bytes_left =? 0 then n ← strlen src; Ret (dlength + n, dest)
  else
    r ← strlcat_loop dest dlength src 0 bytes_left;
    let '(dest, d, n) := r in
    dest ← wr dest d [0];
    Ret (dlength + n, dest).

(** An array of pointers that [NULL] ends; a block of no octets is [NULL]. *)
Fixpoint strsplit_loop (fuel : nat) (remainder delimiter : list Z) (s : option nat) (max_tokens : Z) (acc : list (option (list Z)))
    : outcome (list Z * list (option (list Z))) :=
  match fuel with
  | O => NoFuel
  | S fuel =>
      let max_tokens := max_tokens - 1 in
      match s with
      | Some len =>
          if max_tokens =? 0 then Ret (remainder, acc)
          else
            let tmp := if decide (len = 0%nat) then None else Some (take len remainder) in
            let remainder := drop (len + length delimiter) remainder in
            strsplit_loop fuel remainder delimiter (strstr_at remainder delimiter) max_tokens (acc ++ [tmp])
      | None => Ret (remainder, acc)
      end
  end.

(** [string] and [delimiter] are strings. *)
Definition g_strsplit (string delimiter : option (list Z)) (max_tokens : Z) : outcome (option (list (option (list Z)))) :=
  match string, delimiter with
  | Some string, Some delimiter =>
      if bool_decide (delimiter = []) then Ret None
      else
        let max_tokens := if max_tokens <? 1 then INT_MAX else max_tokens in
        r ← strsplit_loop (S (length string)) string delimiter (strstr_at string delimiter) max_tokens [];
        let '(remainder, acc) := r in
        Ret (Some (acc ++ (if bool_decide (string = []) then [] else [Some (remainder ++ [0])]) ++ [None]))
  | _, _ => Ret None
  end.

Fixpoint strup_loop (todo : nat) (s : list Z) : outcome (list Z) :=
  match todo with
  | O => Ret s
  | S todo => match s with [] => Undef | b :: s => s ← strup_loop todo s; Ret (toupper b :: s) end
  end.
Definition g_ascii_strup (str : option (list Z)) (len : Z) : outcome (option (list Z)) :=
  s ← g_strdup str;
  match s with
  | None => Ret None
  | Some s => len ← (if len <? 0 then strlen s else Ret len); s ← strup_loop (Z.to_nat len) s; Ret (Some s)
  end.

(** These compare strings. *)
Definition g_str_equal (v1 v2 : list Z) : bool := bool_decide (v1 = v2).
Definition g_str_has_prefix (str prefix : option (list Z)) : bool :=
  match str, prefix with
  | Some str, Some prefix => if (length str <? length prefix)%nat then false else bool_decide (take (length prefix) str = prefix)
  | _, _ => false
  end.
Definition g_str_has_suffix (str suffix : option (list Z)) : bool :=
  match str, suffix with
  | Some str, Some suffix =>
      if (length str <? length suffix)%nat then false else bool_decide (drop (length str - length suffix) str = suffix)
  | _, _ => false
  end.

(** [strncpy] into the buffer [result], then the elements. *)
Fixpoint build_loop (result : list Z) (elements : list (list Z)) : outcome (list Z) :=
  match elements with
  | [] => Ret result
  | element :: elements =>
      r ← g_strlcat result [47; 0] PATH_MAX;
      r ← g_strlcat r.2 element PATH_MAX;
      build_loop r.2 elements
  end.
Definition strncpy_path (s : list Z) : list Z := take (Z.to_nat PATH_MAX) s ++ replicate (Z.to_nat PATH_MAX - length s) 0.
Definition g_build_filename (first_element : list Z) (elements : list (list Z)) : outcome (option (list Z)) :=
  first ← string_at first_element;
  result ← build_loop (strncpy_path first) elements;
  g_strdup (Some result).
End strings.

(** * Growing strings *)

Record GString := Str { str : list Z; len : Z; allocated_len : Z }.

Definition MY_MAXSIZE : Z := 2 ^ 64 - 1.

Fixpoint power_loop (fuel : nat) (n num : Z) : outcome Z :=
  match fuel with
  | O => NoFuel
  | S fuel => if n <? num then power_loop fuel (to_size_t (Z.shiftl n 1)) num else Ret n
  end.
Definition nearest_power (base num : Z) : outcome Z :=
  if MY_MAXSIZE / 2 <? num then Ret MY_MAXSIZE else power_loop 65 base num.

Section growing.
Context (junk : Z).

Definition g_realloc_chars (s : list Z) (n : Z) : list Z := take (Z.to_nat n) s ++ replicate (Z.to_nat n - length s) junk.

Definition g_string_maybe_expand (string : GString) (l : Z) : outcome GString :=
  if to_size_t (len string + l) <? allocated_len string then Ret string
  else
    n ← nearest_power 1 (to_size_t (len string + l + 1));
    Ret (Str (g_realloc_chars (str string) n) (len string) n).

Definition g_string_sized_new (dfl_size : Z) : outcome GString :=
  string ← g_string_maybe_expand (Str [] 0 0) dfl_size;
  s ← wr (str string) 0 [0];
  Ret (Str s (len string) (allocated_len string)).

Definition g_string_append_len (string : GString) (val : list Z) (l : Z) : outcome GString :=
  string ← g_string_maybe_expand string l;
  v ← rd (Z.to_nat l) val;
  s ← wr (str string) (len string) v;
  let n := to_size_t (len string + l) in
  s ← wr s n [0];
  Ret (Str s n (allocated_len string)).

Definition g_string_new (init : option (list Z)) : outcome GString :=
  match init with
  | None => g_string_sized_new 2
  | Some p =>
      b ← rd8 p;
      if b =? 0 then g_string_sized_new 2
      else
        l ← strlen p;
        let l := to_i32 l in
        string ← g_string_sized_new (l + 2);
        g_string_append_len string p l
  end.

(** [vsnprintf] returns the length of the whole text. *)
Definition g_string_append_printf (string : GString) (text : list Z) : outcome GString :=
  g_string_append_len string (vsnprintf junk 1023 text) (Z.of_nat (length text)).

Definition g_string_free (string : GString) (free_segment : bool) : option (list Z) := if free_segment then None else Some (str string).
End growing.

(** * A growing string holds what was appended *)

Lemma to_size_t_small z : 0 ≤ z < 2 ^ 64 → to_size_t z = z.
Proof. intros. unfold to_size_t. by rewrite Z.mod_small. Qed.

Lemma power_loop_spec num : num ≤ 2 ^ 62 → ∀ (fuel : nat) j, 0 ≤ j ≤ 62 → 62 - j < Z.of_nat fuel →
  ∃ m, power_loop fuel (2 ^ j) num = Ret (2 ^ m) ∧ j ≤ m ≤ 62 ∧ num ≤ 2 ^ m.
Proof.
  intros Hnum. induction fuel as [|fuel IH]; intros j Hj Hf; [lia|]. cbn [power_loop]. destruct (Z.ltb_spec (2 ^ j) num).
  - assert (j < 62) by (destruct (decide (j = 62)) as [->|]; lia).
    assert (2 ^ (j + 1) ≤ 2 ^ 62) by (apply Z.pow_le_mono_r; lia).
    rewrite Z.shiftl_mul_pow2, <- Z.pow_add_r, to_size_t_small by (lia || (rewrite ?Z.shiftl_mul_pow2, <- ?Z.pow_add_r by lia; lia)).
    destruct (IH (j + 1)) as (m & -> & Hm & Hn); [lia|lia|]. exists m. split_and!; try done; lia.
  - exists j. split_and!; try done; lia.
Qed.

Lemma nearest_power_spec num : num ≤ 2 ^ 62 → ∃ m, nearest_power 1 num = Ret (2 ^ m) ∧ 0 ≤ m ≤ 62 ∧ num ≤ 2 ^ m.
Proof.
  intros H. unfold nearest_power. rewrite (proj2 (Z.ltb_ge _ _)) by (unfold MY_MAXSIZE; change ((2 ^ 64 - 1) / 2) with (2 ^ 63 - 1); lia).
  change 1 with (2 ^ 0) at 1. by apply power_loop_spec.
Qed.

(** The block holds the string, its terminator and anything; its size is a
    power of two. *)
Definition gstring_ok (g : GString) (s : list Z) : Prop :=
  len g = Z.of_nat (length s) ∧ (∃ m, 0 ≤ m ∧ allocated_len g = 2 ^ m) ∧ ∃ rest, str g = s ++ 0 :: rest ∧ Z.of_nat (length (str g)) = allocated_len g.

Section growing_lemmas.
Context (junk : Z).

Lemma maybe_expand_spec b n a l : Z.of_nat (length b) = a → 0 ≤ n → 0 ≤ l → n + l < 2 ^ 62 → (a = 0 ∨ ∃ m, 0 ≤ m ∧ a = 2 ^ m) →
  ∃ b' m, g_string_maybe_expand junk (Str b n a) l = Ret (Str (b ++ b') n (2 ^ m)) ∧ 0 ≤ m ∧
    Z.of_nat (length (b ++ b')) = 2 ^ m ∧ n + l < 2 ^ m.
Proof.
  intros Hb Hn Hl Hs Ha. unfold g_string_maybe_expand. cbn [len allocated_len str].
  rewrite to_size_t_small by lia. destruct (Z.ltb_spec (n + l) a).
  - destruct Ha as [?|(m & Hm & E)]; [lia|]. exists [], m. rewrite app_nil_r, <- E. split_and!; done || lia.
  - rewrite to_size_t_small by lia. destruct (nearest_power_spec (n + l + 1)) as (m & -> & Hm & Hle); [lia|].
    rewrite outcome_bind_ret. exists (replicate (Z.to_nat (2 ^ m) - length b) junk), m.
    unfold g_realloc_chars. rewrite take_ge by lia. split_and!; [done|lia| |lia]. rewrite length_app, length_replicate. lia.
Qed.

Lemma append_len_spec g s val l v : gstring_ok g s → rd (Z.to_nat l) val = Ret v → Z.of_nat (length v) = l →
  Z.of_nat (length s) + l < 2 ^ 62 → ∃ g', g_string_append_len junk g val l = Ret g' ∧ gstring_ok g' (s ++ v).
Proof.
  intros (Hlen & (m0 & Hm0 & Ha) & rest & Hs & Hb) Hv Hl Hsmall. destruct g as [b n a]. cbn [str len allocated_len] in *.
  destruct (maybe_expand_spec b n a l) as (b' & m & E & Hm & Hlb & Hlt); [done|lia|lia|lia|by eauto|].
  unfold g_string_append_len. rewrite E, outcome_bind_ret, Hv, outcome_bind_ret. cbn [str len allocated_len]. clear E.
  assert (∃ x1 x x2, b ++ b' = s ++ x1 ++ x :: x2 ∧ length x1 = length v) as (x1 & x & x2 & E & Hx).
  { exists (take (length v) (drop (length s) (b ++ b'))). pose proof (length_drop (b ++ b') (length s)) as Hd.
    destruct (drop (length v) (drop (length s) (b ++ b'))) as [|x x2] eqn:E.
    - apply (f_equal length) in E. rewrite !length_drop in E. cbn in E. lia.
    - exists x, x2. split; [|rewrite length_take; lia]. rewrite <- E, take_drop. subst b. rewrite <- app_assoc, drop_app_length. done. }
  rewrite E in *. rewrite (wr_app s x1 (x :: x2)) by (done || lia). rewrite outcome_bind_ret, to_size_t_small by lia.
  rewrite (app_assoc s v (x :: x2)). change (x :: x2) with ([x] ++ x2). rewrite (wr_app (s ++ v) [x] x2) by (rewrite ?length_app; done || lia).
  rewrite outcome_bind_ret. eexists. split; [done|]. split; [cbn; rewrite length_app; lia|]. split; [by exists m|].
  exists x2. split; [done|]. cbn [str allocated_len]. rewrite <- Hlb, !length_app. cbn [length]. lia.
Qed.

Lemma sized_new_spec dfl : 0 ≤ dfl < 2 ^ 62 → ∃ g, g_string_sized_new junk dfl = Ret g ∧ gstring_ok g [].
Proof.
  intros H. unfold g_string_sized_new. destruct (maybe_expand_spec [] 0 0 dfl) as (b' & m & E & Hm & Hlb & Hlt); [done|lia|lia|lia|by left|].
  rewrite E, outcome_bind_ret. cbn [str len allocated_len app] in *. destruct b' as [|x b']; [cbn in Hlb; lia|].
  change (x :: b') with ([] ++ [x] ++ b'). rewrite (wr_app [] [x] b' [0] 0) by done. rewrite outcome_bind_ret.
  eexists. split; [done|]. split; [done|]. split; [by exists m|]. exists b'. split; [done|]. cbn in Hlb |- *. lia.
Qed.

Lemma string_new_spec init : Forall (λ b, b ≠ 0) init → Z.of_nat (length init) < 2 ^ 31 - 2 →
  ∃ g, g_string_new junk (Some (init ++ [0])) = Ret g ∧ gstring_ok g init.
Proof.
  intros Hn Hl. unfold g_string_new. destruct Hn as [|b init Hb Hn]; cbn [app].
  - change (rd8 [0]) with (Ret 0). rewrite outcome_bind_ret. apply (sized_new_spec 2). lia.
  - change (rd8 (b :: init ++ [0])) with (Ret b). rewrite outcome_bind_ret, (proj2 (Z.eqb_neq b 0)) by done.
    change (b :: init ++ [0]) with ((b :: init) ++ [0]). rewrite strlen_terminated by (by constructor). rewrite outcome_bind_ret.
    cbv zeta. rewrite to_i32_small by lia. destruct (sized_new_spec (Z.of_nat (length (b :: init)) + 2)) as (g & -> & Hg); [lia|].
    rewrite outcome_bind_ret. apply (append_len_spec g [] _ _ (b :: init) Hg); [|done|cbn [length] in *; lia].
    rewrite Nat2Z.id. by apply rd_app.
Qed.

Lemma append_printf_spec g s text : gstring_ok g s → (length text ≤ 1022)%nat → Z.of_nat (length s) < 2 ^ 61 →
  ∃ g', g_string_append_printf junk g text = Ret g' ∧ gstring_ok g' (s ++ text).
Proof.
  intros Hg Ht Hs. unfold g_string_append_printf. apply (append_len_spec g s _ _ text Hg); [|done|lia].
  rewrite Nat2Z.id. unfold vsnprintf. rewrite take_ge by (change (Z.to_nat (1023 - 1)) with 1022%nat; lia). by apply rd_app.
Qed.
End growing_lemmas.

Fixpoint append_all (junk : Z) (g : GString) (texts : list (list Z)) : outcome GString :=
  match texts with [] => Ret g | t :: texts => g ← g_string_append_printf junk g t; append_all junk g texts end.

(** C39: A [GString] holds what was appended to it. A string made from any
    text, to which any number of formatted texts of up to 1022 octets are
    appended, is the concatenation of them all when it is freed and its segment
    kept: every write is inside the block that [g_string_maybe_expand] made
    large enough, whose size is a power of two, the terminator is in its place
    and the octets after it are whatever fresh memory held. *)
Theorem gstring_appends (junk : Z) (init : list Z) (texts : list (list Z)) (Hn : Forall (λ b, b ≠ 0) init)
    (Hnt : Forall (λ t, Forall (λ b, b ≠ 0) t ∧ (length t ≤ 1022)%nat) texts)
    (Hi : Z.of_nat (length init) < 2 ^ 31 - 2) (Hl : Z.of_nat (length (concat texts)) < 2 ^ 60) :
  ∃ g g' blk, g_string_new junk (Some (init ++ [0])) = Ret g ∧ append_all junk g texts = Ret g' ∧
    gstring_ok g' (init ++ concat texts) ∧ g_string_free g' false = Some blk ∧ string_at blk = Ret (init ++ concat texts).
Proof.
  destruct (string_new_spec junk init Hn Hi) as (g & E & Hg). exists g. rewrite E. clear E.
  assert (∃ g', append_all junk g texts = Ret g' ∧ gstring_ok g' (init ++ concat texts)) as (g' & E & Hg').
  { assert (Z.of_nat (length init) + Z.of_nat (length (concat texts)) < 2 ^ 61) as Hs by lia. clear Hn Hi Hl. revert g init Hg Hs.
    induction Hnt as [|t texts [_ Ht] Hnt IH]; intros g init Hg Hs; cbn [append_all concat] in *; [exists g; by rewrite app_nil_r|].
    rewrite length_app in Hs. destruct (append_printf_spec junk g init t Hg Ht ltac:(lia)) as (g1 & -> & Hg1). rewrite outcome_bind_ret, app_assoc.
    apply IH; [done|]. rewrite length_app. lia. }
  exists g', (str g'). split_and!; [done|done|done|done|]. destruct Hg' as (_ & _ & rest & -> & _). unfold string_at.
  rewrite strlen_terminated, outcome_bind_ret, Nat2Z.id, take_app_length; [done|]. apply Forall_app. split; [done|].
  apply Forall_concat. eapply List.Forall_impl; [|exact Hnt]. by intros t [].
Qed.

Lemma gstring_appends_witness :
  ∃ g g' blk, g_string_new 7 (Some ([72; 105] ++ [0])) = Ret g ∧ append_all 7 g [[44; 32]; [119; 111]] = Ret g' ∧
    g_string_free g' false = Some blk ∧ string_at blk = Ret [72; 105; 44; 32; 119; 111].
Proof.
  destruct (gstring_appends 7 [72; 105] [[44; 32]; [119; 111]]) as (g & g' & blk & H1 & H2 & _ & H3 & H4).
  - by repeat constructor.
  - repeat constructor; (done || (cbn; lia)).
  - cbn. lia.
  - cbn. lia.
  - by exists g, g', blk.
Defined.

(** A text of more than 1024 octets is read past the end of the buffer it is
    cut to. *)
Lemma gstring_append_reads_past (junk : Z) g s text : gstring_ok g s → Z.of_nat (length s) < 2 ^ 61 → 1024 < Z.of_nat (length text) < 2 ^ 31 →
  g_string_append_printf junk g text = Undef.
Proof.
  intros (Hlen & (m0 & Hm0 & Ha) & rest & Hs & Hb) Hl Ht. destruct g as [b n a]. cbn [str len allocated_len] in *.
  unfold g_string_append_printf, g_string_append_len. destruct (maybe_expand_spec junk b n a (Z.of_nat (length text))) as (b' & m & -> & _);
    [done|lia|lia|lia|by eauto|]. rewrite outcome_bind_ret. unfold rd. rewrite decide_False; [done|].
  unfold vsnprintf, g_new_chars. rewrite length_app, length_cons, length_replicate, length_take. lia.
Qed.

(** * The other functions *)

Definition zero_free (s : list Z) : Prop := Forall (λ b, b ≠ 0) s.

Lemma string_at_terminated s rest : zero_free s → string_at (s ++ 0 :: rest) = Ret s.
Proof. intros H. unfold string_at. by rewrite strlen_terminated, outcome_bind_ret, Nat2Z.id, take_app_length. Qed.

Lemma strlcat_end_spec d rest : zero_free d → ∀ n left, Z.of_nat (length d) < left →
  strlcat_end (d ++ 0 :: rest) n left = Ret (n + Z.of_nat (length d)).
Proof.
  induction 1 as [|b d Hb Hd IH]; intros n left Hl; cbn [app strlcat_end length] in *; [f_equal; lia|].
  rewrite (proj2 (Z.eqb_neq b 0)), (proj2 (Z.eqb_neq left 0)) by (done || lia). cbn [orb]. rewrite IH by lia. f_equal. lia.
Qed.

Lemma strlcat_loop_spec s r : zero_free s → ∀ dest rest n left, 1 ≤ left ≤ Z.of_nat (length rest) →
  strlcat_loop (dest ++ rest) (Z.of_nat (length dest)) (s ++ 0 :: r) n left =
  let t := take (Z.to_nat (left - 1)) s in
  Ret ((dest ++ t) ++ drop (length t) rest, Z.of_nat (length (dest ++ t)), n + Z.of_nat (length s)).
Proof.
  induction 1 as [|b s Hb Hs IH]; intros dest rest n left Hl; cbn [app strlcat_loop length].
  - rewrite take_nil, drop_0, app_nil_r. cbn [Z.eqb]. do 2 f_equal. lia.
  - rewrite (proj2 (Z.eqb_neq b 0)) by done. destruct (Z.eqb_spec left 1) as [->|].
    + rewrite (IH dest rest) by lia. change (Z.to_nat (1 - 1)) with 0%nat. cbn [take]. do 2 f_equal. lia.
    + destruct rest as [|x rest]; [cbn in Hl; lia|]. cbn [length] in Hl.
      change (x :: rest) with ([x] ++ rest) at 1. rewrite (wr_app dest [x] rest) by done. rewrite outcome_bind_ret.
      replace (Z.of_nat (length dest) + 1) with (Z.of_nat (length (dest ++ [b]))) by (rewrite length_app; cbn; lia).
      rewrite (app_assoc dest [b] rest), (IH (dest ++ [b]) rest) by lia.
      replace (Z.to_nat (left - 1)) with (S (Z.to_nat (left - 1 - 1))) by lia. cbn [take length drop]. cbv zeta.
      rewrite <- (app_assoc dest [b]). cbn [app]. do 2 f_equal. lia.
Qed.

(** [g_strlcat] appends what fits, terminates the result and returns the
    length it tried to make. *)
Lemma g_strlcat_spec d rest s r size : zero_free d → zero_free s → size = Z.of_nat (length (d ++ 0 :: rest)) →
  ∃ rest', g_strlcat (d ++ 0 :: rest) (s ++ 0 :: r) size =
      Ret (Z.of_nat (length d + length s), d ++ take (length rest) s ++ 0 :: rest') ∧
    length (d ++ take (length rest) s ++ 0 :: rest') = length (d ++ 0 :: rest).
Proof.
  intros Hd Hs ->. unfold g_strlcat. rewrite strlcat_end_spec by (done || (rewrite length_app; cbn; lia)). rewrite outcome_bind_ret.
  rewrite Z.add_0_l, length_app. cbn [length]. rewrite (proj2 (Z.eqb_neq _ _)) by lia.
  rewrite strlcat_loop_spec by (done || (cbn [length]; lia)). cbv zeta. rewrite outcome_bind_ret.
  replace (Z.to_nat (Z.of_nat (length d + S (length rest)) - Z.of_nat (length d) - 1)) with (length rest) by lia.
  set (t := take (length rest) s). assert (length t ≤ length rest)%nat as Ht by (subst t; rewrite length_take; lia).
  destruct (drop (length t) (0 :: rest)) as [|x rest'] eqn:E; [apply (f_equal length) in E; rewrite length_drop in E; cbn in E; lia|].
  change (x :: rest') with ([x] ++ rest'). rewrite (wr_app (d ++ t) [x] rest') by done. rewrite outcome_bind_ret.
  exists rest'. split; [f_equal; f_equal; [lia|by rewrite <- app_assoc]|]. apply (f_equal length) in E. rewrite length_drop in E.
  cbn [length] in E. rewrite !length_app. cbn [length]. lia.
Qed.

Lemma strstr_at_Some p q n : strstr_at p q = Some n → ∃ r, p = take n p ++ q ++ r ∧ (n + length q ≤ length p)%nat.
Proof.
  revert n. induction p as [|b p IH]; intros n; cbn [strstr_at]; case_bool_decide as Hp.
  - intros [= <-]. destruct Hp as [r Hr]. exists r. rewrite Hr, length_app. cbn. split; [done|lia].
  - done.
  - intros [= <-]. destruct Hp as [r Hr]. exists r. rewrite Hr, length_app. cbn. split; [done|lia].
  - destruct (strstr_at p q) as [m|]; [|done]. intros [= <-]. destruct (IH m eq_refl) as (r & E & Hl). exists r. cbn. split; [by f_equal|lia].
Qed.

(** A token as [g_strsplit] stores it: a block without a terminator, or no
    block at all. *)
Definition token (t : list Z) : option (list Z) := if decide (length t = 0%nat) then None else Some t.

(** The tokens of [g_strsplit] are what lies between the delimiters; only the
    last has a terminator, and an empty one is the pointer that ends the
    array. *)
Lemma strsplit_tokens string delimiter : string ≠ [] → delimiter ≠ [] → Z.of_nat (length string) < INT_MAX - 1 →
  ∃ toks rest, g_strsplit (Some string) (Some delimiter) 0 = Ret (Some (map token toks ++ [Some (rest ++ [0]); None])) ∧
    string = concat (map (λ t, t ++ delimiter) toks) ++ rest ∧ strstr_at rest delimiter = None.
Proof.
  intros Hs Hd Hl. unfold g_strsplit. rewrite bool_decide_false by done. change (0 <? 1) with true. cbv iota zeta.
  assert (∀ fuel rem max acc, (length rem < fuel)%nat → Z.of_nat (length rem) + 1 < max →
    ∃ toks rest, strsplit_loop fuel rem delimiter (strstr_at rem delimiter) max acc = Ret (rest, acc ++ map token toks) ∧
      rem = concat (map (λ t, t ++ delimiter) toks) ++ rest ∧ strstr_at rest delimiter = None) as HL.
  { induction fuel as [|fuel IH]; intros rem max acc Hf Hm; [lia|]. cbn [strsplit_loop].
    destruct (strstr_at rem delimiter) as [n|] eqn:E; [|exists [], rem; rewrite app_nil_r; by split_and!].
    apply strstr_at_Some in E as (r & E & Hn). rewrite (proj2 (Z.eqb_neq _ _)) by lia.
    assert (0 < length delimiter)%nat by (destruct delimiter; [done|cbn; lia]).
    assert (drop (n + length delimiter) rem = r) as Hr.
    { rewrite E, app_assoc. rewrite drop_app_ge; rewrite length_app, length_take; [|lia]. replace (_ - _)%nat with 0%nat by lia. done. }
    rewrite Hr. destruct (IH r (max - 1) (acc ++ [if decide (n = 0%nat) then None else Some (take n rem)])) as (toks & rest & E2 & E3 & E4).
    { rewrite <- Hr, length_drop. lia. }
    { rewrite <- Hr, length_drop. lia. }
    exists (take n rem :: toks), rest. rewrite E2. split_and!; [|by rewrite E at 1; cbn; rewrite <- app_assoc, <- app_assoc, <- E3|done].
    f_equal. f_equal. rewrite <- app_assoc. cbn [map app]. do 2 f_equal. unfold token. rewrite length_take.
    apply decide_ext. lia. }
  destruct (HL (S (length string)) string INT_MAX []) as (toks & rest & -> & E & Hr); [lia|lia|].
  rewrite outcome_bind_ret, bool_decide_false by done. exists toks, rest. by split_and!.
Qed.

Lemma strcat_all_spec junk args : Forall zero_free args → ∀ x n, zero_free x → (length (concat args) ≤ n)%nat →
  ∃ m, strcat_all (x ++ 0 :: replicate n junk) (map (λ s, s ++ [0]) args) = Ret ((x ++ concat args) ++ 0 :: replicate m junk).
Proof.
  induction 1 as [|s args Hs Ha IH]; intros x n Hx Hn; cbn [map strcat_all concat] in *; [exists n; by rewrite app_nil_r|].
  rewrite length_app in Hn. unfold strcat. rewrite strlen_terminated, outcome_bind_ret by done.
  rewrite (string_at_terminated s []), outcome_bind_ret by done.
  replace (0 :: replicate n junk) with ((0 :: replicate (length s) junk) ++ replicate (n - length s) junk)
    by (cbn; f_equal; rewrite <- replicate_add; f_equal; lia).
  rewrite wr_app by (rewrite ?length_app; cbn; rewrite ?length_replicate; lia). rewrite outcome_bind_ret.
  rewrite <- (app_assoc s [0]), app_assoc. cbn [app]. destruct (IH (x ++ s) (n - length s)%nat) as (m & ->).
  - by apply Forall_app_2.
  - lia.
  - exists m. by rewrite (app_assoc x s).
Qed.

(** The concatenation lacks its first string. *)
Lemma g_strconcat_drops_first junk s1 args : zero_free s1 → Forall zero_free args →
  ∃ blk, g_strconcat junk (Some (s1 ++ [0])) (map (λ s, s ++ [0]) args) = Ret (Some blk) ∧ string_at blk = Ret (concat args).
Proof.
  intros H1 Ha. unfold g_strconcat. rewrite strlen_terminated, outcome_bind_ret by done.
  assert (∀ l, strlen_sum l (map (λ s, s ++ [0]) args) = Ret (l + Z.of_nat (length (concat args)))) as HS.
  { induction Ha as [|s args Hs Ha IH]; intros l; cbn [map strlen_sum concat]; [cbn; f_equal; lia|].
    rewrite strlen_terminated, outcome_bind_ret, IH by done. rewrite length_app. f_equal. lia. }
  rewrite HS, outcome_bind_ret. unfold g_new_chars.
  replace (Z.to_nat (1 + Z.of_nat (length s1) + Z.of_nat (length (concat args)))) with (S (length s1 + length (concat args))) by lia.
  change (replicate (S _) junk) with ([] ++ [junk] ++ replicate (length s1 + length (concat args)) junk).
  rewrite (wr_app [] [junk] _ [0] 0) by done. rewrite outcome_bind_ret.
  destruct (strcat_all_spec junk args Ha [] (length s1 + length (concat args))) as (m & E); [by constructor|lia|].
  cbn [app] in E |- *. rewrite E, outcome_bind_ret. eexists. split; [done|]. apply string_at_terminated. by apply Forall_concat.
Qed.
