(* ===== verification/GMain.v ===== *)
(** utils/eglib/gmain.c, the main loop: timeouts, watches of channels, watches
    of child processes, and the loop that polls and dispatches them. This file
    is the model; GMainSafe and GMainSpec are about it. *)

From stdpp Require Import base list numbers gmap sorting.
From Stdlib Require Import ZArith Lia.
From S2P Require Import Prelude CString SdpTypes SdpList Heap GSList.

Local Open Scope Z_scope.

(** * Data

    A pointer to a structure is its address in the memory of its type; the
    lists of the context hold such addresses. Functions are numbers; what they
    do is up to the program that uses the loop. *)

Record timeval := Timeval { tv_sec : Z; tv_usec : Z }.

Record timeout := Timeout { t_id : Z; interval : Z; expiration : timeval; t_function : Z; t_data : Z }.

Record GIOChannel := Channel { fd : Z; ref_count : Z; closed : bool; close_on_unref : bool }.

(** [revents] is what the pointer of that name points to; it is [None] before
    the loop has set the pointer. *)
Record io_watch := Watch {
  w_id : Z; channel : Z; priority : Z; condition : Z; revents : option Z; w_func : Z; w_data : Z; w_destroy : option Z
}.

Record child_watch := Child { c_id : Z; pid : Z; c_function : Z; c_data : Z }.

(** A list of the context, the list that collects what is kept while it is
    worked off, and the flag that says so: [timeouts], [proc_timeouts] and
    [timeout_lock] and so on. *)
Record sources := Sources { current : list Z; proc : list Z; lock : bool }.

Record GMainContext := Context {
  next_id : Z; next_timeout : Z; timeouts : sources; io_watches : sources; child_watches : sources
}.

(** Calls of the program's functions, as the loop makes them. *)
Inductive call :=
  | CallTimeout (function data : Z)
  | CallWatch (func channel revents data : Z)
  | CallChild (function pid status data : Z).

(** The program and everything around it: the context, the memory of each
    type, the clock, the loop's flag, the channel whose watch reports dead
    children, those not yet waited for, the descriptors closed, and what the
    program itself keeps. *)
Record state (A : Type) := State {
  context : GMainContext;
  timeout_at : gmap Z timeout;
  watch_at : gmap Z io_watch;
  child_at : gmap Z child_watch;
  channel_at : gmap Z GIOChannel;
  now : timeval;
  is_running : bool;
  child_pipe : option Z;
  exited : gmap Z Z;
  closed_fds : list Z;
  app : A
}.
Arguments State {A}.
Arguments context {A}. Arguments timeout_at {A}. Arguments watch_at {A}. Arguments child_at {A}. Arguments channel_at {A}.
Arguments now {A}. Arguments is_running {A}. Arguments child_pipe {A}. Arguments exited {A}. Arguments closed_fds {A}. Arguments app {A}.

Section setters.
Context {A : Type}.
Implicit Types s : state A.
Definition set_context c s := State c (timeout_at s) (watch_at s) (child_at s) (channel_at s) (now s) (is_running s) (child_pipe s) (exited s) (closed_fds s) (app s).
Definition set_timeout_at h s := State (context s) h (watch_at s) (child_at s) (channel_at s) (now s) (is_running s) (child_pipe s) (exited s) (closed_fds s) (app s).
Definition set_watch_at h s := State (context s) (timeout_at s) h (child_at s) (channel_at s) (now s) (is_running s) (child_pipe s) (exited s) (closed_fds s) (app s).
Definition set_child_at h s := State (context s) (timeout_at s) (watch_at s) h (channel_at s) (now s) (is_running s) (child_pipe s) (exited s) (closed_fds s) (app s).
Definition set_channel_at h s := State (context s) (timeout_at s) (watch_at s) (child_at s) h (now s) (is_running s) (child_pipe s) (exited s) (closed_fds s) (app s).
Definition set_now t s := State (context s) (timeout_at s) (watch_at s) (child_at s) (channel_at s) t (is_running s) (child_pipe s) (exited s) (closed_fds s) (app s).
Definition set_running b s := State (context s) (timeout_at s) (watch_at s) (child_at s) (channel_at s) (now s) b (child_pipe s) (exited s) (closed_fds s) (app s).
Definition set_child_pipe p s := State (context s) (timeout_at s) (watch_at s) (child_at s) (channel_at s) (now s) (is_running s) p (exited s) (closed_fds s) (app s).
Definition set_exited e s := State (context s) (timeout_at s) (watch_at s) (child_at s) (channel_at s) (now s) (is_running s) (child_pipe s) e (closed_fds s) (app s).
Definition set_closed_fds l s := State (context s) (timeout_at s) (watch_at s) (child_at s) (channel_at s) (now s) (is_running s) (child_pipe s) (exited s) l (app s).
Definition set_app (a : A) s := State (context s) (timeout_at s) (watch_at s) (child_at s) (channel_at s) (now s) (is_running s) (child_pipe s) (exited s) (closed_fds s) a.

Definition set_next_id i s := let c := context s in set_context (Context i (next_timeout c) (timeouts c) (io_watches c) (child_watches c)) s.
Definition set_next_timeout t s := let c := context s in set_context (Context (next_id c) t (timeouts c) (io_watches c) (child_watches c)) s.
Definition set_timeouts l s := let c := context s in set_context (Context (next_id c) (next_timeout c) l (io_watches c) (child_watches c)) s.
Definition set_io_watches l s := let c := context s in set_context (Context (next_id c) (next_timeout c) (timeouts c) l (child_watches c)) s.
Definition set_child_watches l s := let c := context s in set_context (Context (next_id c) (next_timeout c) (timeouts c) (io_watches c) l) s.
End setters.

(** The first element of a list with this id. *)
Definition find_id {X} (h : gmap Z X) (id_of : X → Z) (id : Z) (l : list Z) : outcome (option Z) := find_at h (λ x, id_of x =? id) l.

(** The loops that look for a source first in the one and then in the other
    list; the source and the lists without it. *)
Definition find_source {X} (h : gmap Z X) (id_of : X → Z) (id : Z) (l : sources) : outcome (option (Z * sources)) :=
  a ← find_id h id_of id (current l);
  match a with
  | Some a => Ret (Some (a, Sources (sdp_list_remove (current l) a) (proc l) (lock l)))
  | None =>
      a ← find_id h id_of id (proc l);
      Ret (match a with
           | Some a => Some (a, Sources (current l) (sdp_list_remove (proc l) a) (lock l))
           | None => None
           end)
  end.

(** [ptr_cmp] returns the difference of two pointers as an [int]. *)
Definition ptr_cmp (t1 t2 : Z) : Z := to_i32 (t1 - t2).
Definition still_listed (l : list Z) (a : Z) : bool := existsb (λ b, ptr_cmp b a =? 0) l.

(** [watch_prio_cmp] and [watch_list_add]: what they read of a structure is its
    priority. *)
Definition watch_prio_cmp (p1 p2 : Z) : Z := to_i32 (p1 - p2).
Fixpoint watch_list_add {X} (h : gmap Z X) (prio : X → Z) (l : list Z) (w : Z) : outcome (list Z) :=
  match l with
  | [] => Ret [w]
  | x :: l' =>
      a ← at_ptr h w;
      b ← at_ptr h x;
      if 0 <? watch_prio_cmp (prio a) (prio b) then r ← watch_list_add h prio l' w; Ret (x :: r) else Ret (w :: l)
  end.

(** The octets [watch_prio_cmp] takes for the priority of a [child_watch] are
    the lower half of its [user_data]. *)
Definition child_priority (c : child_watch) : Z := to_i32 (c_data c).

(** An interval after a time. *)
Definition expires (tv : timeval) (interval : Z) : timeval :=
  let secs := interval / 1000 in
  let msecs := interval - secs * 1000 in
  let sec := tv_sec tv + secs in
  let usec := tv_usec tv + msecs * 1000 in
  if 1000000 <=? usec then Timeval (sec + 1) (usec - 1000000) else Timeval sec usec.

(** [timercmp(a, b, <)]. *)
Definition timer_lt (a b : timeval) : bool := if tv_sec a =? tv_sec b then tv_usec a <? tv_usec b else tv_sec a <? tv_sec b.

Definition G_IO_IN : Z := 1.
(** The address of the function [child_watch]. *)
Definition CHILD_WATCH : Z := 0.

(** What a function of the program may do before it returns: call the library,
    change what the program keeps, let time pass. Each call yields a number on
    which the rest may depend. *)
Inductive action (A : Type) :=
  | TimeoutAdd (interval function data : Z)
  | TimeoutAddSeconds (interval function data : Z)
  | IdleAdd (function data : Z)
  | AddWatchFull (channel priority condition func data : Z) (notify : option Z)
  | AddWatch (channel condition func data : Z)
  | ChildWatchAdd (pipe_fd pid func data : Z)
  | SourceRemove (tag : Z)
  | ChannelNew (fd : Z)
  | ChannelRef (channel : Z)
  | ChannelUnref (channel : Z)
  | ChannelClose (channel : Z)
  | SetCloseOnUnref (channel : Z) (do_close : bool)
  | GetFd (channel : Z)
  | Quit
  | Spend (until : timeval)
  | Keep (a : A).
Arguments TimeoutAdd {A}. Arguments TimeoutAddSeconds {A}. Arguments IdleAdd {A}. Arguments AddWatchFull {A}. Arguments AddWatch {A}.
Arguments ChildWatchAdd {A}. Arguments SourceRemove {A}. Arguments ChannelNew {A}. Arguments ChannelRef {A}. Arguments ChannelUnref {A}.
Arguments ChannelClose {A}. Arguments SetCloseOnUnref {A}. Arguments GetFd {A}. Arguments Quit {A}. Arguments Spend {A}. Arguments Keep {A}.

Inductive prog (A : Type) :=
  | Return (ret : bool)
  | Do (a : action A) (k : Z → prog A).
Arguments Return {A}.
Arguments Do {A}.

(** [g_main_context_default], the first time. *)
Definition g_main_context_default : GMainContext :=
  Context 1 (-1) (Sources [] [] false) (Sources [] [] false) (Sources [] [] false).

(** ** Reading and writing

    [read] and [write] return a number or fail with an error; the model is
    given what they return, call after call. *)
Inductive sys_result := Done (n : Z) | Failed (errno : Z).
Definition EINTR : Z := 4.
Definition EAGAIN : Z := 11.

Definition G_IO_STATUS_ERROR : Z := -1.
Definition G_IO_STATUS_NORMAL : Z := 0.
Definition G_IO_STATUS_EOF : Z := 1.
Definition G_IO_STATUS_AGAIN : Z := 2.
Definition G_IO_ERROR_NONE : Z := 0.
Definition G_IO_ERROR_AGAIN : Z := 1.

Fixpoint retry (results : list sys_result) : outcome (Z * Z) :=
  match results with
  | [] => NoFuel
  | Failed e :: results =>
      if e =? EINTR then retry results
      else if e =? EAGAIN then Ret (G_IO_STATUS_AGAIN, 0)
      else Ret (G_IO_STATUS_ERROR, 0)
  | Done n :: _ => Ret (if 0 <? n then G_IO_STATUS_NORMAL else G_IO_STATUS_EOF, n)
  end.

(** The status, and the number stored if one is; writing differs from reading
    only in the call. *)
Definition g_io_channel_read (channel : GIOChannel) (results : list sys_result) : outcome (Z * option Z) :=
  if closed channel then Ret (G_IO_STATUS_ERROR, None) else r ← retry results; Ret (r.1, Some r.2).
Definition g_io_channel_write (channel : GIOChannel) (results : list sys_result) : outcome (Z * option Z) :=
  if closed channel then Ret (G_IO_STATUS_ERROR, None) else r ← retry results; Ret (r.1, Some r.2).

Section program.
Context {A : Type}.
(** [malloc] gives the address of a new structure when these are in use;
    [destroy_notify] is what the program does when a watch is freed; [program]
    is what it does when the loop calls it. *)
Context (malloc : gset Z → Z) (destroy_notify : Z → Z → A → A) (program : call → A → prog A).
Implicit Types s : state A.

Definition live s : gset Z := dom (timeout_at s) ∪ dom (watch_at s) ∪ dom (child_at s) ∪ dom (channel_at s).

(** ** Channels *)

Definition g_io_channel_close (c : Z) s : outcome (state A) :=
  ch ← at_ptr (channel_at s) c;
  if closed ch then Ret s
  else Ret (set_channel_at (<[c := Channel (fd ch) (ref_count ch) true (close_on_unref ch)]> (channel_at s))
              (set_closed_fds (closed_fds s ++ [fd ch]) s)).

Definition g_io_channel_unref (c : Z) s : outcome (state A) :=
  ch ← at_ptr (channel_at s) c;
  let ch := Channel (fd ch) (ref_count ch - 1) (closed ch) (close_on_unref ch) in
  let s := set_channel_at (<[c := ch]> (channel_at s)) s in
  if 0 <? ref_count ch then Ret s
  else
    s ← (if close_on_unref ch && (0 <=? fd ch) then g_io_channel_close c s else Ret s);
    Ret (set_channel_at (delete c (channel_at s)) s).

Definition g_io_channel_ref (c : Z) s : outcome (state A) :=
  ch ← at_ptr (channel_at s) c;
  Ret (set_channel_at (<[c := Channel (fd ch) (ref_count ch + 1) (closed ch) (close_on_unref ch)]> (channel_at s)) s).

Definition g_io_channel_unix_new (fd : Z) s : Z * state A :=
  let c := malloc (live s) in (c, set_channel_at (<[c := Channel fd 1 false false]> (channel_at s)) s).

Definition g_io_channel_set_close_on_unref (c : Z) (do_close : bool) s : outcome (state A) :=
  ch ← at_ptr (channel_at s) c;
  Ret (set_channel_at (<[c := Channel (fd ch) (ref_count ch) (closed ch) do_close]> (channel_at s)) s).

Definition g_io_channel_unix_get_fd (c : Z) s : outcome Z :=
  ch ← at_ptr (channel_at s) c; Ret (if closed ch then -1 else fd ch).

(** ** Adding sources *)

Definition fresh_id s : Z * state A := let i := next_id (context s) in (i, set_next_id (to_u32 (i + 1)) s).

Definition g_timeout_add (interval function data : Z) s : Z * state A :=
  let t := malloc (live s) in
  let '(id, s) := fresh_id s in
  let s := set_timeout_at (<[t := Timeout id interval (expires (now s) interval) function data]> (timeout_at s)) s in
  let l := timeouts (context s) in
  (id, set_timeouts (if lock l then Sources (current l) (t :: proc l) (lock l) else Sources (t :: current l) (proc l) (lock l)) s).

Definition g_timeout_add_seconds (interval function data : Z) s : Z * state A := g_timeout_add interval function data s.
Definition g_idle_add (function data : Z) s : Z * state A := g_timeout_add 1 function data s.

Definition g_io_add_watch_full (c priority_ condition func user_data : Z) (notify : option Z) s : outcome (Z * state A) :=
  let w := malloc (live s) in
  let '(id, s) := fresh_id s in
  s ← g_io_channel_ref c s;
  let s := set_watch_at (<[w := Watch id c priority_ condition None func user_data notify]> (watch_at s)) s in
  let l := io_watches (context s) in
  l ← (if lock l then p ← watch_list_add (watch_at s) priority (proc l) w; Ret (Sources (current l) p (lock l))
       else p ← watch_list_add (watch_at s) priority (current l) w; Ret (Sources p (proc l) (lock l)));
  Ret (id, set_io_watches l s).

Definition g_io_add_watch (c condition func user_data : Z) s : outcome (Z * state A) :=
  g_io_add_watch_full c 0 condition func user_data None s.

(** The descriptor of the pipe is an argument. *)
Definition init_child_pipe (fd : Z) s : outcome (state A) :=
  let '(io, s) := g_io_channel_unix_new fd s in
  let s := set_child_pipe (Some io) s in
  r ← g_io_add_watch io G_IO_IN CHILD_WATCH 0 s;
  g_io_channel_unref io r.2.

Definition g_child_watch_add (pipe_fd pid func user_data : Z) s : outcome (Z * state A) :=
  s ← (match child_pipe s with None => init_child_pipe pipe_fd s | Some _ => Ret s end);
  let w := malloc (live s) in
  let '(id, s) := fresh_id s in
  let s := set_child_at (<[w := Child id pid func user_data]> (child_at s)) s in
  let l := child_watches (context s) in
  l ← (if lock l then p ← watch_list_add (child_at s) child_priority (proc l) w; Ret (Sources (current l) p (lock l))
       else p ← watch_list_add (child_at s) child_priority (current l) w; Ret (Sources p (proc l) (lock l)));
  Ret (id, set_child_watches l s).

(** ** Removing sources *)

Definition watch_free (w : Z) s : outcome (state A) :=
  x ← at_ptr (watch_at s) w;
  let s := match w_destroy x with Some d => set_app (destroy_notify d (w_data x) (app s)) s | None => s end in
  s ← g_io_channel_unref (channel x) s;
  Ret (set_watch_at (delete w (watch_at s)) s).

Definition g_io_remove_watch (id : Z) s : outcome (bool * state A) :=
  r ← find_source (watch_at s) w_id id (io_watches (context s));
  match r with
  | None => Ret (false, s)
  | Some (w, l) => s ← watch_free w (set_io_watches l s); Ret (true, s)
  end.

Definition g_timeout_remove (id : Z) s : outcome (bool * state A) :=
  r ← find_source (timeout_at s) t_id id (timeouts (context s));
  match r with
  | None => Ret (false, s)
  | Some (t, l) => Ret (true, set_timeout_at (delete t (timeout_at s)) (set_timeouts l s))
  end.

Definition child_watch_remove (id : Z) s : outcome (bool * state A) :=
  r ← find_source (child_at s) c_id id (child_watches (context s));
  match r with
  | None => Ret (false, s)
  | Some (c, l) => Ret (true, set_child_at (delete c (child_at s)) (set_child_watches l s))
  end.

Definition g_source_remove (tag : Z) s : outcome (bool * state A) :=
  r ← g_io_remove_watch tag s;
  let '(found, s) := r in
  if found : bool then Ret (true, s)
  else
    r ← g_timeout_remove tag s;
    let '(found, s) := r in
    if found : bool then Ret (true, s) else child_watch_remove tag s.

(** ** The program's functions *)

Definition run_action (a : action A) s : outcome (Z * state A) :=
  match a with
  | TimeoutAdd i f d => Ret (g_timeout_add i f d s)
  | TimeoutAddSeconds i f d => Ret (g_timeout_add_seconds i f d s)
  | IdleAdd f d => Ret (g_idle_add f d s)
  | AddWatchFull c p cond f d n => g_io_add_watch_full c p cond f d n s
  | AddWatch c cond f d => g_io_add_watch c cond f d s
  | ChildWatchAdd pipe p f d => g_child_watch_add pipe p f d s
  | SourceRemove tag => r ← g_source_remove tag s; Ret (Z.b2z r.1, r.2)
  | ChannelNew fd => Ret (g_io_channel_unix_new fd s)
  | ChannelRef c => s ← g_io_channel_ref c s; Ret (c, s)
  | ChannelUnref c => s ← g_io_channel_unref c s; Ret (0, s)
  | ChannelClose c => s ← g_io_channel_close c s; Ret (0, s)
  | SetCloseOnUnref c b => s ← g_io_channel_set_close_on_unref c b s; Ret (0, s)
  | GetFd c => n ← g_io_channel_unix_get_fd c s; Ret (n, s)
  | Quit => Ret (0, set_running false s)
  | Spend t => Ret (0, set_now t s)
  | Keep x => Ret (0, set_app x s)
  end.

Fixpoint run_prog (p : prog A) s : outcome (bool * state A) :=
  match p with
  | Return ret => Ret (ret, s)
  | Do a k => r ← run_action a s; run_prog (k r.1) r.2
  end.

(** A function called by the loop. *)
Definition invoke (c : call) s : outcome (bool * state A) := run_prog (program c (app s)) s.

(** ** Timeouts *)

(** The milliseconds left; a negative number counts as none. *)
Definition remaining (tv expiration : timeval) : Z :=
  let msec := (tv_sec expiration - tv_sec tv) * 1000 + Z.quot (tv_usec expiration - tv_usec tv) 1000 in
  if msec <? 0 then 0 else msec.

Fixpoint prepare_loop (h : gmap Z timeout) (tv : timeval) (l : list Z) (timeout : Z) : outcome Z :=
  match l with
  | [] => Ret timeout
  | t :: l =>
      x ← at_ptr h t;
      let msec := remaining tv (expiration x) in
      prepare_loop h tv l (if timeout <? msec then timeout else msec)
  end.

Definition timeout_handlers_prepare s : outcome (state A) :=
  timeout ← prepare_loop (timeout_at s) (now s) (current (timeouts (context s))) LONG_MAX;
  Ret (set_next_timeout (if timeout =? LONG_MAX then -1 else timeout) s).

(** A timeout leaves [timeouts], and joins [proc_timeouts] if it is kept. *)
Definition take_timeout (t : Z) (keep : bool) s : state A :=
  let l := timeouts (context s) in
  set_timeouts (Sources (sdp_list_remove (current l) t) (if keep then proc l ++ [t] else proc l) (lock l)) s.

Fixpoint check_loop (fuel : nat) (tv : timeval) s : outcome (state A) :=
  match current (timeouts (context s)) with
  | [] => Ret s
  | t :: _ =>
      match fuel with
      | O => NoFuel
      | S fuel =>
          x ← at_ptr (timeout_at s) t;
          if timer_lt tv (expiration x) then check_loop fuel tv (take_timeout t true s)
          else
            r ← invoke (CallTimeout (t_function x) (t_data x)) s;
            let '(ret, s) := r in
            if negb (still_listed (current (timeouts (context s))) t) then check_loop fuel tv s
            else if negb ret then
              let s := take_timeout t false s in
              check_loop fuel tv (set_timeout_at (delete t (timeout_at s)) s)
            else
              x ← at_ptr (timeout_at s) t;
              let x := Timeout (t_id x) (interval x) (expires tv (interval x)) (t_function x) (t_data x) in
              check_loop fuel tv (take_timeout t true (set_timeout_at (<[t := x]> (timeout_at s)) s))
      end
  end.

Definition timeout_handlers_check s : outcome (state A) :=
  let tv := now s in
  let l := timeouts (context s) in
  let s := set_timeouts (Sources (current l) (proc l) true) s in
  s ← check_loop (length (current l)) tv s;
  Ret (set_timeouts (Sources (proc (timeouts (context s))) [] false) s).

(** ** Children *)

Definition take_child (c : Z) (keep : bool) s : outcome (state A) :=
  let l := child_watches (context s) in
  p ← (if keep then watch_list_add (child_at s) child_priority (proc l) c else Ret (proc l));
  Ret (set_child_watches (Sources (sdp_list_remove (current l) c) p (lock l)) s).

Fixpoint child_loop (fuel : nat) s : outcome (state A) :=
  match current (child_watches (context s)) with
  | [] => Ret s
  | c :: _ =>
      match fuel with
      | O => NoFuel
      | S fuel =>
          x ← at_ptr (child_at s) c;
          match exited s !! pid x with
          | None => s ← take_child c true s; child_loop fuel s
          | Some status =>
              r ← invoke (CallChild (c_function x) (pid x) status (c_data x)) (set_exited (delete (pid x) (exited s)) s);
              let s := r.2 in
              if bool_decide (c ∈ current (child_watches (context s))) then
                s ← take_child c false s;
                child_loop fuel (set_child_at (delete c (child_at s)) s)
              else child_loop fuel s
          end
      end
  end.

(** The callback of the pipe's watch; what it reads from the pipe is not used. *)
Definition child_watch_func s : outcome (bool * state A) :=
  let l := child_watches (context s) in
  let s := set_child_watches (Sources (current l) (proc l) true) s in
  s ← child_loop (length (current l)) s;
  Ret (true, set_child_watches (Sources (proc (child_watches (context s))) [] false) s).

(** ** The loop *)

(** The [ufds] are set up: every watch gets its cell. *)
Fixpoint set_cells (h : gmap Z io_watch) (l : list Z) (cells : list Z) : outcome (gmap Z io_watch) :=
  match l with
  | [] => Ret h
  | w :: l =>
      x ← at_ptr h w;
      set_cells (<[w := Watch (w_id x) (channel x) (priority x) (condition x) (Some (hd 0 cells)) (w_func x) (w_data x) (w_destroy x)]> h) l (tail cells)
  end.

(** [w->channel->fd] for every watch. *)
Fixpoint read_fds s (l : list Z) : outcome (list Z) :=
  match l with
  | [] => Ret []
  | w :: l => x ← at_ptr (watch_at s) w; ch ← at_ptr (channel_at s) (channel x); r ← read_fds s l; Ret (fd ch :: r)
  end.

Definition call_watch (x : io_watch) (r : Z) s : outcome (bool * state A) :=
  if w_func x =? CHILD_WATCH then child_watch_func s else invoke (CallWatch (w_func x) (channel x) r (w_data x)) s.

Definition take_watch (w : Z) (keep : bool) s : outcome (state A) :=
  let l := io_watches (context s) in
  p ← (if keep then watch_list_add (watch_at s) priority (proc l) w else Ret (proc l));
  Ret (set_io_watches (Sources (sdp_list_remove (current l) w) p (lock l)) s).

Fixpoint io_loop (fuel : nat) s : outcome (state A) :=
  match current (io_watches (context s)) with
  | [] => Ret s
  | w :: _ =>
      match fuel with
      | O => NoFuel
      | S fuel =>
          x ← at_ptr (watch_at s) w;
          match revents x with
          | None => Undef
          | Some r =>
              if r =? 0 then s ← take_watch w true s; io_loop fuel s
              else
                c ← call_watch x r s;
                let '(ret, s) := c in
                if negb (still_listed (current (io_watches (context s))) w) then io_loop fuel s
                else if negb ret then s ← take_watch w false s; s ← watch_free w s; io_loop fuel s
                else s ← take_watch w true s; io_loop fuel s
          end
      end
  end.

Definition dispatch_watches s : outcome (state A) :=
  let l := io_watches (context s) in
  let s := set_io_watches (Sources (current l) (proc l) true) s in
  s ← io_loop (length (current l)) s;
  Ret (set_io_watches (Sources (proc (io_watches (context s))) [] false) s).

(** What [poll] does: its result, the events of each descriptor, the time when
    it returns and the children that have died by then. *)
Record poll_result := Poll { poll_ret : Z; poll_revents : list Z; poll_time : timeval; poll_exited : gmap Z Z }.

(** One round; [None] is [abort()]. *)
Definition iterate (open_max : Z) (p : poll_result) s : outcome (option (state A)) :=
  let l := current (io_watches (context s)) in
  if open_max <? Z.of_nat (length l) then Ret None
  else
    _ ← read_fds s l;
    h ← set_cells (watch_at s) l [];
    s ← timeout_handlers_prepare (set_watch_at h s);
    let s := set_exited (poll_exited p) (set_now (poll_time p) s) in
    if poll_ret p <? 0 then Ret (Some s)
    else
      h ← set_cells (watch_at s) l (poll_revents p);
      s ← dispatch_watches (set_watch_at h s);
      s ← timeout_handlers_check s;
      Ret (Some s).

(** The loop over what [poll] does; when that is used up, it waits in [poll]. *)
Fixpoint run_loop (open_max : Z) (ps : list poll_result) s : outcome (option (state A)) :=
  match ps with
  | [] => Ret (Some s)
  | p :: ps =>
      if is_running s then
        r ← iterate open_max p s;
        match r with None => Ret None | Some s => run_loop open_max ps s end
      else Ret (Some s)
  end.
Definition g_main_loop_run (open_max : Z) (ps : list poll_result) s : outcome (option (state A)) :=
  run_loop open_max ps (set_running true s).

Definition g_main_loop_quit s : state A := set_running false s.
End program.
