(* ===== verification/GMainSafe.v ===== *)
(** utils/eglib/gmain.c, the main loop: its invariant. Whatever the functions of
    the program add and remove while the loop works its lists off, no structure
    that was freed is used, nothing is leaked, channels live as long as their
    watches, and every round ends. *)

From stdpp Require Import base list numbers gmap sorting.
From Stdlib Require Import ZArith Lia.
From S2P Require Import Prelude CString SdpTypes SdpList Heap GSList GMain.

Local Open Scope Z_scope.

(** * Lists of sources *)

(** The list and the list of those kept hold every structure of their type in
    memory, once; nothing is kept outside a pass. *)
Definition src_ok {X} (h : gmap Z X) (l : sources) : Prop :=
  NoDup (current l ++ proc l) ∧ (∀ a, a ∈ current l ++ proc l ↔ a ∈ dom h) ∧ (lock l = false → proc l = []).

Lemma src_ok_add {X} (h : gmap Z X) l l' a x : src_ok h l → a ∉ dom h → current l' ++ proc l' ≡ₚ a :: (current l ++ proc l) →
  (lock l' = false → proc l' = []) → src_ok (<[a := x]> h) l'.
Proof.
  intros (Hn & Hd & _) Ha Hp Hl. split; [|split; [|done]].
  - rewrite Hp. constructor; [|done]. by rewrite Hd.
  - intros b. rewrite Hp, elem_of_cons, Hd, dom_insert, elem_of_union, elem_of_singleton. done.
Qed.

Lemma src_ok_del {X} (h : gmap Z X) l l' a : src_ok h l → a :: (current l' ++ proc l') ≡ₚ current l ++ proc l →
  (lock l' = false → proc l' = []) → src_ok (delete a h) l'.
Proof.
  intros (Hn & Hd & _) Hp Hl. rewrite <- Hp in Hn. apply NoDup_cons in Hn as [Ha Hn]. split; [done|]. split; [|done].
  intros b. rewrite dom_delete, elem_of_difference, elem_of_singleton, <- Hd, <- Hp, elem_of_cons. naive_solver.
Qed.

Lemma src_ok_move {X Y} (h : gmap Z X) (h' : gmap Z Y) l l' : src_ok h l → current l' ++ proc l' ≡ₚ current l ++ proc l → dom h' = dom h →
  (lock l' = false → proc l' = []) → src_ok h' l'.
Proof. intros (Hn & Hd & _) Hp E Hl. split; [by rewrite Hp|]. split; [|done]. intros a. by rewrite Hp, E. Qed.

Lemma src_ok_current {X} (h : gmap Z X) l a : src_ok h l → a ∈ current l → ∃ x, h !! a = Some x.
Proof. intros (_ & Hd & _) Ha. apply elem_of_dom. rewrite <- Hd, elem_of_app. by left. Qed.
Lemma src_ok_proc {X} (h : gmap Z X) l a : src_ok h l → a ∈ proc l → ∃ x, h !! a = Some x.
Proof. intros (_ & Hd & _) Ha. apply elem_of_dom. rewrite <- Hd, elem_of_app. by right. Qed.

Lemma find_id_spec {X} (h : gmap Z X) id_of id l : (∀ a, a ∈ l → is_Some (h !! a)) →
  ∃ r, find_id h id_of id l = Ret r ∧ match r with
    | Some a => a ∈ l ∧ ∃ x, h !! a = Some x ∧ id_of x = id
    | None => ∀ a x, a ∈ l → h !! a = Some x → id_of x ≠ id
    end.
Proof.
  intros Hl. unfold find_id. destruct (find_at_spec h (λ x, id_of x =? id) l Hl) as (r & -> & Hr). exists r. split; [done|].
  destruct r as [a|].
  - destruct Hr as (Ha & x & Hx & ?%Z.eqb_eq). split; [done|]. by exists x.
  - intros a x Ha Hx. apply Z.eqb_neq. by apply (Hr a x).
Qed.

(** What a search finds, and the lists without it. *)
Lemma find_source_spec {X} (h : gmap Z X) id_of id l : src_ok h l →
  ∃ r, find_source h id_of id l = Ret r ∧ match r with
    | Some (a, l') => (∃ x, h !! a = Some x ∧ id_of x = id) ∧ a :: (current l' ++ proc l') ≡ₚ current l ++ proc l ∧ lock l' = lock l ∧
        (lock l' = false → proc l' = []) ∧ current l' = sdp_list_remove (current l) a ∧ proc l' = sdp_list_remove (proc l) a
    | None => ∀ a x, h !! a = Some x → id_of x ≠ id
    end.
Proof.
  intros Hok. pose proof Hok as (Hn & Hd & Hl). unfold find_source.
  destruct (find_id_spec h id_of id (current l)) as (r & -> & Hr); [intros a Ha; by eapply src_ok_current|]. rewrite outcome_bind_ret.
  destruct r as [a|].
  - destruct Hr as [Ha Hr]. eexists. split; [done|]. split; [done|]. cbn [current proc lock].
    split; [rewrite app_comm_cons; apply Permutation_app_tail; symmetry; by apply remove_perm|]. split; [done|]. split; [done|]. split; [done|].
    rewrite list_remove_absent; [done|]. apply NoDup_app in Hn as (_ & Hdis & _). by apply Hdis.
  - destruct (find_id_spec h id_of id (proc l)) as (r2 & -> & Hr2); [intros a Ha; by eapply src_ok_proc|]. rewrite outcome_bind_ret.
    eexists. split; [done|]. destruct r2 as [a|].
    + destruct Hr2 as [Ha Hr2]. split; [done|]. cbn [current proc lock].
      split; [etrans; [apply Permutation_middle|]; apply Permutation_app_head; symmetry; by apply remove_perm|]. split; [done|]. split; [intros E; rewrite Hl in Ha by done; by apply elem_of_nil in Ha|]. split; [|done].
      rewrite list_remove_absent; [done|]. apply NoDup_app in Hn as (_ & Hdis & _). intros Hc. by apply (Hdis a).
    + intros a x Hx. assert (a ∈ current l ++ proc l) as Ha by (apply Hd; by eapply elem_of_dom_2). apply elem_of_app in Ha as [Ha|Ha]; eauto.
Qed.

(** ** Sorting by priority *)

Definition prio_ok (p : Z) : Prop := - 2 ^ 30 ≤ p < 2 ^ 30.

Definition by_priority (h : gmap Z io_watch) (l : list Z) : Prop :=
  StronglySorted (λ a b, ∀ x y, h !! a = Some x → h !! b = Some y → priority x ≤ priority y) l.

Lemma watch_list_add_spec {X} (h : gmap Z X) prio l w : is_Some (h !! w) → (∀ a, a ∈ l → is_Some (h !! a)) →
  ∃ l', watch_list_add h prio l w = Ret l' ∧ l' ≡ₚ w :: l.
Proof.
  intros [x Hx]. induction l as [|a l IH]; intros Hl; cbn [watch_list_add]; [by exists [w]|].
  destruct (Hl a) as [y Hy]; [by left|]. rewrite (at_ptr_Some _ _ _ Hx), outcome_bind_ret, (at_ptr_Some _ _ _ Hy), outcome_bind_ret.
  destruct (_ <? _); [|by exists (w :: a :: l)]. destruct IH as (l' & -> & Hp); [intros; apply Hl; by right|].
  rewrite outcome_bind_ret. eexists. split; [done|]. rewrite Hp. apply Permutation_swap.
Qed.

Lemma by_priority_sublist h l l' : by_priority h l → l' `sublist_of` l → by_priority h l'.
Proof.
  unfold by_priority. intros Hs Hsub. revert Hs. induction Hsub as [|a l' l Hsub IH|a l' l Hsub IH]; intros Hs; [done| |].
  - apply StronglySorted_inv in Hs as [Hs Ha]. constructor; [by apply IH|]. rewrite Forall_forall in Ha |- *. intros b Hb. apply Ha.
    eapply elem_of_submseteq; [exact Hb|by apply sublist_submseteq].
  - apply StronglySorted_inv in Hs as [Hs Ha]. by apply IH.
Qed.

Lemma by_priority_same h h' l : by_priority h l → (∀ a, a ∈ l → priority <$> h' !! a = priority <$> h !! a) → by_priority h' l.
Proof.
  unfold by_priority. intros Hs. induction Hs as [|a l Hs IH Ha]; intros He; constructor; [apply IH; intros; apply He; by right|].
  rewrite Forall_forall in Ha |- *. intros b Hb x y Hx Hy. pose proof (He a ltac:(by left)) as E1. pose proof (He b ltac:(by right)) as E2.
  rewrite Hx in E1. rewrite Hy in E2. cbn in E1, E2. symmetry in E1, E2. apply fmap_Some in E1 as (x' & Hx' & ->). apply fmap_Some in E2 as (y' & Hy' & ->). by apply (Ha b).
Qed.

Lemma watch_list_add_sorted (h : gmap Z io_watch) l w l' : (∀ a x, h !! a = Some x → prio_ok (priority x)) → by_priority h l →
  watch_list_add h priority l w = Ret l' → by_priority h l'.
Proof.
  intros Hp Hs. revert l'. unfold by_priority in *. induction Hs as [|a l Hs IH Ha]; intros l'; cbn [watch_list_add].
  { intros [= <-]. repeat constructor. }
  intros E. apply outcome_bind_Ret_inv in E as (x & Hw%at_ptr_Ret & E). apply outcome_bind_Ret_inv in E as (y & Hy%at_ptr_Ret & E).
  revert E. pose proof (Hp _ _ Hw) as Hpx. pose proof (Hp _ _ Hy) as Hpy. unfold watch_prio_cmp, prio_ok in *.
  rewrite to_i32_small by lia. destruct (Z.ltb_spec 0 (priority x - priority y)).
  - intros E. apply outcome_bind_Ret_inv in E as (r & Er & [= <-]). constructor; [by apply IH|].
    assert (∀ b, b ∈ r → b = w ∨ b ∈ l) as Hr.
    { clear -Er. revert r Er. induction l as [|c l IH]; intros r; cbn [watch_list_add]; [intros [= <-] b; rewrite list_elem_of_singleton; by left|].
      intros E. apply outcome_bind_Ret_inv in E as (x & _ & E). apply outcome_bind_Ret_inv in E as (y & _ & E). destruct (_ <? _).
      - apply outcome_bind_Ret_inv in E as (r' & Er & [= <-]). intros b. rewrite !elem_of_cons. intros [->|Hb]; [by right; left|].
        destruct (IH _ Er b Hb); tauto.
      - injection E as <-. intros b. rewrite !elem_of_cons. tauto. }
    rewrite Forall_forall in Ha |- *. intros b Hb. destruct (Hr b Hb) as [->|Hb']; [|by apply Ha].
    intros u v Hu Hv. simplify_eq. lia.
  - intros [= <-]. constructor; [by constructor|]. constructor.
    + intros u v Hu Hv. simplify_eq. lia.
    + rewrite Forall_forall in Ha |- *. intros b Hb u v Hu Hv. specialize (Ha b Hb y v Hy Hv). simplify_eq. lia.
Qed.

(** * The invariant *)

(** The addresses in use differ in their lower 32 bits: [ptr_cmp] looks at no
    more. *)
Definition apart (X : gset Z) : Prop := ∀ a b, a ∈ X → b ∈ X → to_i32 (a - b) = 0 → a = b.

(** What the loop relies on of [malloc]: while fewer than 2^31 structures are in
    use, a new one is apart from them. *)
Class Allocator (malloc : gset Z → Z) : Prop :=
  malloc_apart X a : Z.of_nat (size X) < 2 ^ 31 → a ∈ X → to_i32 (malloc X - a) ≠ 0.

Lemma to_i32_zero z : to_i32 z = 0 ↔ z mod 2 ^ 32 = 0.
Proof. unfold to_i32. Z.to_euclidean_division_equations. lia. Qed.

Lemma to_i32_zero_opp z : to_i32 (- z) = 0 ↔ to_i32 z = 0.
Proof. rewrite !to_i32_zero. Z.to_euclidean_division_equations. lia. Qed.

Lemma apart_subseteq X Y : apart X → Y ⊆ X → apart Y.
Proof. intros H Hs a b Ha Hb. apply H; set_solver. Qed.

Lemma size_add_one (X Y : gset Z) a : X ⊆ {[a]} ∪ Y → (size X ≤ S (size Y))%nat.
Proof.
  intros Hs%subseteq_size. rewrite size_union_alt, size_singleton in Hs. pose proof (subseteq_size (Y ∖ {[a]}) Y ltac:(set_solver)). lia.
Qed.

Section allocator.
Context (malloc : gset Z → Z) `{!Allocator malloc}.

Lemma malloc_fresh X : Z.of_nat (size X) < 2 ^ 31 → malloc X ∉ X.
Proof using All. intros Hs Hin. apply (malloc_apart X (malloc X) Hs Hin). by rewrite Z.sub_diag. Qed.

Lemma apart_malloc X Y : Z.of_nat (size X) < 2 ^ 31 → apart X → Y ⊆ {[malloc X]} ∪ X → apart Y.
Proof using All.
  intros Hs HX HY. eapply apart_subseteq; [|exact HY]. intros a b Ha Hb E. apply elem_of_union in Ha, Hb.
  rewrite !elem_of_singleton in *. destruct Ha as [->|Ha], Hb as [->|Hb]; [done| | |by apply HX].
  - by destruct (malloc_apart X b Hs Hb).
  - destruct (malloc_apart X a Hs Ha). apply to_i32_zero_opp. by rewrite Z.opp_sub_distr, Z.add_comm, Z.add_opp_r.
Qed.
End allocator.

Definition refs (h : gmap Z io_watch) (c : Z) : Z := Z.of_nat (size (filter (λ p : Z * io_watch, channel p.2 = c) h)).

(** The channel of every watch is there, and every channel counts at least
    itself and its watches. *)
Definition channels_ok (h : gmap Z io_watch) (chs : gmap Z GIOChannel) : Prop :=
  (∀ w x, h !! w = Some x → is_Some (chs !! channel x)) ∧
  ∀ c ch, chs !! c = Some ch → 1 ≤ ref_count ch ∧ refs h c ≤ ref_count ch.

Record wf {A} (s : state A) : Prop := {
  wf_timeouts : src_ok (timeout_at s) (timeouts (context s));
  wf_watches : src_ok (watch_at s) (io_watches (context s));
  wf_children : src_ok (child_at s) (child_watches (context s));
  wf_apart : apart (live s);
  wf_prio : ∀ w x, watch_at s !! w = Some x → prio_ok (priority x);
  wf_sorted : by_priority (watch_at s) (current (io_watches (context s))) ∧ by_priority (watch_at s) (proc (io_watches (context s)));
  wf_channels : channels_ok (watch_at s) (channel_at s)
}.

(** What a function of the program leaves of a list that is being worked off:
    some of its elements, in order and unchanged. *)
Definition kept {X} (h h' : gmap Z X) (l l' : sources) : Prop :=
  lock l' = lock l ∧ (lock l = true → current l' `sublist_of` current l ∧ ∀ a, a ∈ current l' → h' !! a = h !! a).

Record evolves {A} (s s' : state A) : Prop := {
  ev_timeouts : kept (timeout_at s) (timeout_at s') (timeouts (context s)) (timeouts (context s'));
  ev_watches : kept (watch_at s) (watch_at s') (io_watches (context s)) (io_watches (context s'));
  ev_children : kept (child_at s) (child_at s') (child_watches (context s)) (child_watches (context s'))
}.

Lemma kept_refl {X} (h : gmap Z X) l : kept h h l l.
Proof. done. Qed.

Lemma kept_trans {X} (h h' h'' : gmap Z X) l l' l'' : kept h h' l l' → kept h' h'' l' l'' → kept h h'' l l''.
Proof.
  intros [E1 H1] [E2 H2]. split; [congruence|]. intros Hl. destruct (H1 Hl) as [S1 K1]. destruct (H2 ltac:(congruence)) as [S2 K2].
  split; [by etrans|]. intros a Ha. rewrite K2 by done. apply K1. eapply elem_of_submseteq; [exact Ha|by apply sublist_submseteq].
Qed.

Lemma evolves_refl {A} (s : state A) : evolves s s.
Proof. split; apply kept_refl. Qed.
Lemma evolves_trans {A} (s s' s'' : state A) : evolves s s' → evolves s' s'' → evolves s s''.
Proof. intros [] []. split; by eapply kept_trans. Qed.

(** The list of an added or freed source. *)
Lemma kept_same {X} (h h' : gmap Z X) l : (∀ a, a ∈ current l → h' !! a = h !! a) → kept h h' l l.
Proof. done. Qed.

Lemma kept_remove {X} (h : gmap Z X) l l' a : NoDup (current l ++ proc l) → lock l' = lock l → current l' = sdp_list_remove (current l) a →
  kept h (delete a h) l l'.
Proof.
  intros Hn El E. split; [done|]. intros _. rewrite E. split; [apply remove_sublist|]. intros b Hb. apply lookup_delete_ne. intros <-.
  destruct (decide (a ∈ current l)) as [Ha|Ha].
  - apply NoDup_app in Hn as (Hn & _). rewrite (remove_perm _ _ Ha) in Hn. by apply NoDup_cons in Hn as [? _].
  - rewrite list_remove_absent in Hb by done. done.
Qed.

Create HintDb gmain.
#[export] Hint Resolve kept_refl evolves_refl : gmain.

(** ** References *)

Lemma refs_insert h c w x : h !! w = None → refs (<[w := x]> h) c = refs h c + (if decide (channel x = c) then 1 else 0).
Proof.
  intros Hw. unfold refs. case_decide as E.
  - rewrite map_filter_insert_True by done. rewrite map_size_insert_None; [lia|]. apply map_lookup_filter_None. by left.
  - rewrite map_filter_insert_False by done. rewrite delete_id by done. lia.
Qed.

Lemma refs_delete h c w x : h !! w = Some x → refs (delete w h) c = refs h c - (if decide (channel x = c) then 1 else 0).
Proof.
  intros Hw. rewrite <- (insert_delete_id h w x Hw) at 2. rewrite refs_insert by (by rewrite lookup_delete_eq). lia.
Qed.

Lemma refs_nonneg h c : 0 ≤ refs h c.
Proof. unfold refs. lia. Qed.

Lemma refs_zero h c : refs h c ≤ 0 → ∀ w x, h !! w = Some x → channel x ≠ c.
Proof.
  intros H w x Hw E. rewrite <- (insert_delete_id h w x Hw), refs_insert in H by (by rewrite lookup_delete_eq).
  rewrite decide_True in H by done. pose proof (refs_nonneg (delete w h) c). lia.
Qed.

(** * The library keeps the invariant *)

Section operations.
Context {A : Type} (malloc : gset Z → Z) `{!Allocator malloc} (destroy_notify : Z → Z → A → A).
Implicit Types s : state A.

Definition good s s' : Prop := wf s' ∧ evolves s s'.

Lemma good_trans s s' s'' : good s s' → good s' s'' → good s s''.
Proof. intros [_ H1] [H H2]. split; [done|by eapply evolves_trans]. Qed.

(** Room for a structure when [n] more have been made. *)
Definition room (n : Z) s : Prop := Z.of_nat (size (live s)) + n < 2 ^ 31.

(** The program has a reference of its own. *)
Definition owned s c ch : Prop := channel_at s !! c = Some ch ∧ refs (watch_at s) c < ref_count ch.
Definition same_channel (ch ch' : GIOChannel) : Prop := fd ch' = fd ch ∧ closed ch' = closed ch ∧ close_on_unref ch' = close_on_unref ch.

(** What the loop itself changes between two calls: structures may go, and
    notifications may be sent for them, but the references of the program stay. *)
Record settles s s' : Prop := {
  se_live : live s' ⊆ live s;
  se_owned : ∀ c ch, owned s c ch → ∃ ch', channel_at s' !! c = Some ch' ∧ same_channel ch ch' ∧
    ref_count ch' - refs (watch_at s') c = ref_count ch - refs (watch_at s) c;
  se_app : app s' = app s ∨ ∃ d data, app s' = destroy_notify d data (app s)
}.

Definition shrinks s s' : Prop := live s' ⊆ live s ∧ (app s' = app s ∨ ∃ d data, app s' = destroy_notify d data (app s)).

Lemma settles_same s s' : dom (timeout_at s') = dom (timeout_at s) → watch_at s' = watch_at s → dom (child_at s') = dom (child_at s) →
  channel_at s' = channel_at s → app s' = app s → settles s s'.
Proof.
  intros E1 E2 E3 E4 E5. split; [unfold live; by rewrite E1, E2, E3, E4| |by left].
  intros c ch [Hc _]. exists ch. by rewrite E2, E4.
Qed.

Lemma live_timeout s a : a ∉ live s → timeout_at s !! a = None ∧ watch_at s !! a = None ∧ child_at s !! a = None ∧ channel_at s !! a = None.
Proof. unfold live. rewrite !not_elem_of_union, !not_elem_of_dom. tauto. Qed.

Lemma timeout_add_spec i f d s : wf s → room 0 s → good s (g_timeout_add malloc i f d s).2.
Proof.
  intros [Ht Hw Hc Ha Hp Hs Hch] Hr. unfold g_timeout_add, fresh_id. cbn. set (t := malloc (live s)).
  assert (t ∉ live s) as Hf by (apply malloc_fresh; [done|unfold room in Hr; lia]). pose proof (live_timeout s t Hf) as (Hft & _).
  split; [split; cbn; try done|].
  - eapply src_ok_add; [exact Ht|by apply not_elem_of_dom| |]; destruct (lock (timeouts (context s))) eqn:El; cbn; try done.
    + symmetry. apply Permutation_middle.
    + intros _. by apply Ht.
  - apply (apart_malloc malloc (live s)); [unfold room in Hr; lia|done|]. unfold live. cbn. rewrite dom_insert. set_solver.
  - split; cbn; try apply kept_refl. unfold kept. destruct (lock (timeouts (context s))) eqn:El; cbn; [|done].
    split; [done|]. intros _. split; [done|]. intros a Hin. apply lookup_insert_ne. intros <-.
    destruct (src_ok_current _ _ _ Ht Hin) as [x Hx]. by rewrite Hx in Hft.
Qed.

(** A list of watches and the memory they are in, with one watch more. *)
Lemma watch_list_add_ok {X} (h : gmap Z X) prio l w x : src_ok h l → h !! w = None → let h' := <[w := x]> h in
  ∃ l', (if lock l then p ← watch_list_add h' prio (proc l) w; Ret (Sources (current l) p (lock l))
         else p ← watch_list_add h' prio (current l) w; Ret (Sources p (proc l) (lock l))) = Ret l' ∧
    src_ok h' l' ∧ kept h h' l l' ∧
    ((lock l = true ∧ current l' = current l ∧ watch_list_add h' prio (proc l) w = Ret (proc l')) ∨
     (lock l = false ∧ proc l' = proc l ∧ watch_list_add h' prio (current l) w = Ret (current l'))).
Proof.
  intros Hok Hw h'. pose proof Hok as (Hn & Hd & Hl).
  assert (∀ a, a ∈ current l ++ proc l → is_Some (h' !! a)) as Hlook.
  { intros a Hin. subst h'. apply lookup_insert_is_Some'. right. by apply elem_of_dom, Hd. }
  assert (is_Some (h' !! w)) as Hw' by (subst h'; rewrite lookup_insert_eq; by eexists).
  destruct (lock l) eqn:El.
  - destruct (watch_list_add_spec h' prio (proc l) w Hw') as (p & E & Hp); [intros; apply Hlook, elem_of_app; by right|].
    rewrite E, outcome_bind_ret. eexists. split; [done|]. split_and!; cbn.
    + eapply src_ok_add; [done|by apply not_elem_of_dom| |done]. cbn. rewrite Hp. symmetry. apply Permutation_middle.
    + split; [done|]. intros _. split; [done|]. intros a Hin. subst h'. apply lookup_insert_ne. intros <-.
      destruct (src_ok_current _ _ _ Hok Hin) as [y Hy]. by rewrite Hy in Hw.
    + by left.
  - destruct (watch_list_add_spec h' prio (current l) w Hw') as (p & E & Hp); [intros; apply Hlook, elem_of_app; by left|].
    rewrite E, outcome_bind_ret. eexists. split; [done|]. split_and!; cbn.
    + eapply src_ok_add; [done|by apply not_elem_of_dom| |cbn; by intros _; apply Hl]. cbn. by rewrite Hp.
    + split; [done|]. by rewrite El.
    + by right.
Qed.

Lemma by_priority_insert h w x l : by_priority h l → w ∉ l → by_priority (<[w := x]> h) l.
Proof. intros Hs Hw. eapply by_priority_same; [done|]. intros a Ha. by rewrite lookup_insert_ne by (by intros ->). Qed.

Lemma add_watch_full_spec c p cond f d n s : wf s → room 0 s → is_Some (channel_at s !! c) → prio_ok p →
  ∃ id s', g_io_add_watch_full malloc c p cond f d n s = Ret (id, s') ∧ good s s' ∧
    (∀ c', refs (watch_at s') c' = refs (watch_at s) c' + (if decide (c = c') then 1 else 0)) ∧
    (∀ c', channel_at s' !! c' = (λ ch, if decide (c = c') then Channel (fd ch) (ref_count ch + 1) (closed ch) (close_on_unref ch) else ch) <$> channel_at s !! c') ∧
    dom (timeout_at s') = dom (timeout_at s) ∧ dom (child_at s') = dom (child_at s) ∧ child_pipe s' = child_pipe s ∧
    dom (watch_at s') = {[malloc (live s)]} ∪ dom (watch_at s).
Proof.
  intros [Ht Hw Hc Ha Hp Hs Hch] Hr [ch Hch0] Hpr. unfold g_io_add_watch_full, fresh_id, g_io_channel_ref. cbn. set (w := malloc (live s)).
  assert (w ∉ live s) as Hf by (apply malloc_fresh; [done|unfold room in Hr; lia]). pose proof (live_timeout s w Hf) as (_ & Hfw & _).
  rewrite (at_ptr_Some _ _ _ Hch0), !outcome_bind_ret. cbn. set (x := Watch _ _ _ _ _ _ _ _).
  destruct (watch_list_add_ok (watch_at s) priority (io_watches (context s)) w x Hw Hfw) as (l' & E & Hok & Hk & Hl').
  cbn in E |- *. rewrite E, outcome_bind_ret. clear E. eexists _, _. split; [done|]. cbn.
  assert (∀ l : list Z, (∀ a, a ∈ l → a ∈ current (io_watches (context s)) ++ proc (io_watches (context s))) → w ∉ l) as Hwl.
  { intros l Hl Hin. apply Hl, Hw in Hin. apply elem_of_dom in Hin as [y Hy]. by rewrite Hy in Hfw. }
  destruct Hs as [Hs1 Hs2]. pose proof (by_priority_insert _ w x _ Hs1 (Hwl _ ltac:(intros; apply elem_of_app; by left))) as Hs1'.
  pose proof (by_priority_insert _ w x _ Hs2 (Hwl _ ltac:(intros; apply elem_of_app; by right))) as Hs2'.
  assert (∀ a y, <[w := x]> (watch_at s) !! a = Some y → prio_ok (priority y)) as Hp'.
  { intros a y Hy. apply lookup_insert_Some in Hy as [[<- <-]|[_ Hy]]; [done|by eapply Hp]. }
  split; [split; [split; cbn; try done|split; cbn; try apply kept_refl; done]|].
  - apply (apart_malloc malloc (live s)); [unfold room in Hr; lia|done|]. unfold live. cbn. rewrite !dom_insert.
    assert (c ∈ dom (channel_at s)) by (by eapply elem_of_dom_2). set_solver.
  - destruct Hl' as [(El & Ec & Ep)|(El & Ep & Ec)].
    + rewrite Ec. split; [done|]. exact (watch_list_add_sorted _ _ _ _ Hp' Hs2' Ep).
    + rewrite Ep. split; [|done]. exact (watch_list_add_sorted _ _ _ _ Hp' Hs1' Ec).
  - destruct Hch as [H1 H2]. split.
    + intros a y Hy. destruct (decide (channel y = c)) as [->|Hne]; [rewrite lookup_insert_eq; by eexists|].
      rewrite lookup_insert_ne by done. apply lookup_insert_Some in Hy as [[_ <-]|[_ Hy]]; [done|by eapply H1].
    + intros c' ch' Hc'. rewrite refs_insert by done. cbn. apply lookup_insert_Some in Hc' as [[<- <-]|[Hne Hc']]; cbn.
      * rewrite decide_True by done. destruct (H2 _ _ Hch0). lia.
      * rewrite decide_False by done. destruct (H2 _ _ Hc'). lia.
  - split_and!; try done.
    + intros c'. by rewrite refs_insert.
    + intros c'. case_decide as E; [subst c'; by rewrite lookup_insert_eq, Hch0|]. rewrite lookup_insert_ne by done. by destruct (channel_at s !! c').
    + apply dom_insert_L.
Qed.

(** A reference less: one of a watch that goes away, when [h'] are the others,
    or one of the program's own. *)
Lemma unref_spec c ch h' s : channel_at s !! c = Some ch → channels_ok h' (channel_at s) → refs h' c < ref_count ch →
  ∃ m l, g_io_channel_unref c s = Ret (set_closed_fds l (set_channel_at m s)) ∧ channels_ok h' m ∧ dom m ⊆ dom (channel_at s) ∧
    (∀ c', c' ≠ c → m !! c' = channel_at s !! c') ∧
    (1 < ref_count ch → m !! c = Some (Channel (fd ch) (ref_count ch - 1) (closed ch) (close_on_unref ch))).
Proof.
  intros Hch [H1 H2] Hr. unfold g_io_channel_unref. rewrite (at_ptr_Some _ _ _ Hch), outcome_bind_ret. cbn.
  destruct (Z.ltb_spec 0 (ref_count ch - 1)) as [Hpos|Hpos].
  - exists (<[c := Channel (fd ch) (ref_count ch - 1) (closed ch) (close_on_unref ch)]> (channel_at s)), (closed_fds s).
    split; [done|]. split; [split|].
    + intros w x Hx. destruct (decide (channel x = c)) as [->|Hne]; [rewrite lookup_insert_eq; by eexists|].
      rewrite lookup_insert_ne by done. by eapply H1.
    + intros c' ch' Hc'. apply lookup_insert_Some in Hc' as [[<- <-]|[_ Hc']]; [cbn; lia|by apply H2].
    + split; [rewrite dom_insert; assert (c ∈ dom (channel_at s)) by (by eapply elem_of_dom_2); set_solver|].
      split; [intros c' Hne; by rewrite lookup_insert_ne|intros _; by rewrite lookup_insert_eq].
  - assert (channels_ok h' (delete c (channel_at s))) as Hok.
    { split.
      - intros w x Hx. rewrite lookup_delete_ne; [by eapply H1|]. intros Hc. symmetry in Hc. revert Hc. apply (refs_zero h' c ltac:(lia) w x Hx).
      - intros c' ch' [_ Hc']%lookup_delete_Some. by apply H2. }
    assert (dom (delete c (channel_at s)) ⊆ dom (channel_at s)) as Hsub by (rewrite dom_delete; set_solver).
    assert (∀ c', c' ≠ c → delete c (channel_at s) !! c' = channel_at s !! c') as Hsame by (intros c' Hne; by rewrite lookup_delete_ne).
    assert (1 < ref_count ch → delete c (channel_at s) !! c = Some (Channel (fd ch) (ref_count ch - 1) (closed ch) (close_on_unref ch))) as Hlast by lia.
    destruct (close_on_unref ch && (0 <=? fd ch)).
    + unfold g_io_channel_close. cbn. rewrite (at_ptr_Some _ _ _ (lookup_insert_eq _ _ _)), outcome_bind_ret. cbn.
      destruct (closed ch); rewrite outcome_bind_ret; cbn; rewrite ?insert_insert_eq, delete_insert_eq; [exists (delete c (channel_at s)), (closed_fds s)|exists (delete c (channel_at s)), (closed_fds s ++ [fd ch])]; by split.
    + rewrite outcome_bind_ret. cbn. rewrite delete_insert_eq. by exists (delete c (channel_at s)), (closed_fds s).
Qed.

Lemma channels_ok_delete h chs w : channels_ok h chs → channels_ok (delete w h) chs.
Proof.
  intros [H1 H2]. split; [intros a x [_ Hx]%lookup_delete_Some; by eapply H1|]. intros c ch Hc. destruct (H2 c ch Hc). split; [done|].
  destruct (h !! w) as [x|] eqn:Hw; [|by rewrite delete_id]. rewrite (refs_delete _ _ _ _ Hw). case_decide; lia.
Qed.

Lemma watch_free_spec w x s : watch_at s !! w = Some x → channels_ok (watch_at s) (channel_at s) →
  ∃ m l a, watch_free destroy_notify w s = Ret (set_watch_at (delete w (watch_at s)) (set_closed_fds l (set_channel_at m (set_app a s)))) ∧
    channels_ok (delete w (watch_at s)) m ∧ dom m ⊆ dom (channel_at s) ∧
    (∀ c ch, owned s c ch → ∃ ch', m !! c = Some ch' ∧ same_channel ch ch' ∧
       ref_count ch' - refs (delete w (watch_at s)) c = ref_count ch - refs (watch_at s) c) ∧
    (a = app s ∨ ∃ d data, a = destroy_notify d data (app s)).
Proof.
  intros Hw Hok. unfold watch_free. rewrite (at_ptr_Some _ _ _ Hw), outcome_bind_ret.
  destruct (proj1 Hok w x Hw) as [ch Hch]. pose proof (proj2 Hok _ _ Hch) as [_ Href].
  assert (refs (delete w (watch_at s)) (channel x) < ref_count ch) as Hlt by (rewrite (refs_delete _ _ _ _ Hw), decide_True by done; lia).
  set (a := match w_destroy x with Some d => destroy_notify d (w_data x) (app s) | None => app s end).
  assert (match w_destroy x with Some d => set_app (destroy_notify d (w_data x) (app s)) s | None => s end = set_app a s) as ->.
  { subst a. destruct (w_destroy x); [done|by destruct s]. }
  destruct (unref_spec (channel x) ch (delete w (watch_at s)) (set_app a s) Hch) as (m & l & -> & Hm & Hd & Hs & Hc); [by apply channels_ok_delete|done|].
  rewrite outcome_bind_ret. cbn. exists m, l, a.
  split_and!; try done; [|subst a; destruct (w_destroy x); [right; by eexists _, _|by left]]. intros c ch' [Hc' Hown]. destruct (decide (c = channel x)) as [->|Hne].
  - simplify_eq. rewrite (refs_delete _ _ _ _ Hw), decide_True in * by done. pose proof (refs_nonneg (delete w (watch_at s)) (channel x)) as Hnn.
    rewrite (refs_delete _ _ _ _ Hw), decide_True in Hnn by done. eexists. split; [apply Hc; lia|]. split; [done|]. cbn. lia.
  - exists ch'. rewrite Hs by done. split; [done|]. split; [done|]. rewrite (refs_delete _ _ _ _ Hw), decide_False by done. lia.
Qed.

Lemma live_delete_apart s s' : wf s → live s' ⊆ live s → apart (live s').
Proof. intros H. by apply apart_subseteq, wf_apart. Qed.

Lemma by_priority_delete h w l l' : by_priority h l → l' = sdp_list_remove l w → w ∉ l' → by_priority (delete w h) l'.
Proof.
  intros Hs -> Hw. eapply by_priority_same; [eapply by_priority_sublist; [exact Hs|apply remove_sublist]|].
  intros a Ha. by rewrite lookup_delete_ne by (by intros ->).
Qed.

(** A watch leaves the lists [l] and memory. *)
Lemma drop_watch_spec w x l s : wf s → watch_at s !! w = Some x →
  w :: (current l ++ proc l) ≡ₚ current (io_watches (context s)) ++ proc (io_watches (context s)) →
  lock l = lock (io_watches (context s)) → (lock l = false → proc l = []) →
  current l = sdp_list_remove (current (io_watches (context s))) w → proc l = sdp_list_remove (proc (io_watches (context s))) w →
  ∃ s', watch_free destroy_notify w (set_io_watches l s) = Ret s' ∧ good s s' ∧ settles s s' ∧ watch_at s' = delete w (watch_at s) ∧ io_watches (context s') = l ∧
    timeouts (context s') = timeouts (context s) ∧ child_watches (context s') = child_watches (context s).
Proof.
  intros Hwf Hw Hp Hl Hlp Ec Ep. pose proof Hwf as [Ht Hww Hc Ha Hpr Hs Hch].
  destruct (watch_free_spec w x (set_io_watches l s) Hw Hch) as (m & cl & a & -> & Hm & Hd & Ho & Happ). eexists. split; [done|]. cbn in *.
  assert (w ∉ current l ++ proc l) as Hnot.
  { pose proof (proj1 Hww) as Hn. rewrite <- Hp in Hn. by apply NoDup_cons in Hn as [? _]. }
  rewrite not_elem_of_app in Hnot. split; [split|split; [split; cbn|done]].
  - split; cbn; try done.
    + by eapply src_ok_del.
    + apply (live_delete_apart s); [done|]. unfold live. cbn. rewrite dom_delete. set_solver.
    + intros b y [_ Hy]%lookup_delete_Some. by eapply Hpr.
    + destruct Hs as [Hs1 Hs2]. split; [exact (by_priority_delete _ _ _ _ Hs1 Ec (proj1 Hnot))|exact (by_priority_delete _ _ _ _ Hs2 Ep (proj2 Hnot))].
  - split; cbn; try apply kept_refl. eapply kept_remove; [apply Hww|done|done].
  - unfold live. cbn. rewrite dom_delete. set_solver.
  - exact Ho.
  - exact Happ.
Qed.

Lemma remove_watch_spec id s : wf s → ∃ b s', g_io_remove_watch destroy_notify id s = Ret (b, s') ∧ good s s' ∧ shrinks s s' ∧
  timeouts (context s') = timeouts (context s) ∧ child_watches (context s') = child_watches (context s) ∧
  (b = false → s' = s ∧ ∀ w x, watch_at s !! w = Some x → w_id x ≠ id) ∧
  (b = true → ∃ w x, watch_at s !! w = Some x ∧ w_id x = id ∧ watch_at s' = delete w (watch_at s)).
Proof.
  intros Hwf. unfold g_io_remove_watch. destruct (find_source_spec (watch_at s) w_id id _ (wf_watches _ Hwf)) as (r & -> & Hr).
  rewrite outcome_bind_ret. destruct r as [[w l]|].
  - destruct Hr as ((x & Hx & Hid) & Hp & Hl & Hlp & Ec & Ep). destruct (drop_watch_spec w x l s) as (s' & -> & Hg & Hse & Hw' & _ & H1 & H2); try done.
    rewrite outcome_bind_ret. exists true, s'. split_and!; try done; [split; apply Hse|]. intros _. by exists w, x.
  - exists false, s. split_and!; try done; first [by apply evolves_refl|by split; [|left]].
Qed.

Lemma timeout_remove_spec id s : wf s → ∃ b s', g_timeout_remove id s = Ret (b, s') ∧ good s s' ∧ shrinks s s' ∧
  watch_at s' = watch_at s ∧ child_at s' = child_at s ∧
  (b = false → s' = s ∧ ∀ t x, timeout_at s !! t = Some x → t_id x ≠ id) ∧
  (b = true → ∃ t x, timeout_at s !! t = Some x ∧ t_id x = id ∧ timeout_at s' = delete t (timeout_at s)).
Proof.
  intros Hwf. unfold g_timeout_remove. destruct (find_source_spec (timeout_at s) t_id id _ (wf_timeouts _ Hwf)) as (r & -> & Hr).
  rewrite outcome_bind_ret. destruct r as [[t l]|].
  - destruct Hr as ((x & Hx & Hid) & Hp & Hl & Hlp & Ec & Ep). eexists true, _. split; [done|]. cbn.
    pose proof Hwf as [Ht Hww Hc Ha Hpr Hs Hch]. split; [split|].
    + split; cbn; try done; [by eapply src_ok_del|]. apply (live_delete_apart s); [done|]. unfold live. cbn. rewrite dom_delete. set_solver.
    + split; cbn; try apply kept_refl. eapply kept_remove; [apply Ht|done|done].
    + split; [split; [unfold live; cbn; rewrite dom_delete; set_solver|by left]|]. split_and!; try done. intros _. by exists t, x.
  - exists false, s. split_and!; try done; first [by apply evolves_refl|by split; [|left]].
Qed.

Lemma child_remove_spec id s : wf s → ∃ b s', child_watch_remove id s = Ret (b, s') ∧ good s s' ∧ shrinks s s' ∧
  watch_at s' = watch_at s ∧ timeout_at s' = timeout_at s ∧
  (b = false → s' = s ∧ ∀ c x, child_at s !! c = Some x → c_id x ≠ id) ∧
  (b = true → ∃ c x, child_at s !! c = Some x ∧ c_id x = id ∧ child_at s' = delete c (child_at s)).
Proof.
  intros Hwf. unfold child_watch_remove. destruct (find_source_spec (child_at s) c_id id _ (wf_children _ Hwf)) as (r & -> & Hr).
  rewrite outcome_bind_ret. destruct r as [[c l]|].
  - destruct Hr as ((x & Hx & Hid) & Hp & Hl & Hlp & Ec & Ep). eexists true, _. split; [done|]. cbn.
    pose proof Hwf as [Ht Hww Hc Ha Hpr Hs Hch]. split; [split|].
    + split; cbn; try done; [by eapply src_ok_del|]. apply (live_delete_apart s); [done|]. unfold live. cbn. rewrite dom_delete. set_solver.
    + split; cbn; try apply kept_refl. eapply kept_remove; [apply Hc|done|done].
    + split; [split; [unfold live; cbn; rewrite dom_delete; set_solver|by left]|]. split_and!; try done. intros _. by exists c, x.
  - exists false, s. split_and!; try done; first [by apply evolves_refl|by split; [|left]].
Qed.

Lemma source_remove_spec tag s : wf s → ∃ b s', g_source_remove destroy_notify tag s = Ret (b, s') ∧ good s s' ∧ shrinks s s'.
Proof.
  intros Hwf. unfold g_source_remove. destruct (remove_watch_spec tag s Hwf) as (b & s1 & -> & Hg & Hl & _ & _ & Hf & _). rewrite outcome_bind_ret.
  destruct b; [by exists true, s1|]. destruct (Hf eq_refl) as [-> _].
  destruct (timeout_remove_spec tag s Hwf) as (b & s2 & -> & Hg2 & Hl2 & _ & _ & Hf2 & _). rewrite outcome_bind_ret.
  destruct b; [by exists true, s2|]. destruct (Hf2 eq_refl) as [-> _].
  destruct (child_remove_spec tag s Hwf) as (b & s3 & -> & Hg3 & Hl3 & _). by exists b, s3.
Qed.

(** ** Channels *)

(** Calls that change channels only. *)
Lemma good_channels s s' : wf s → context s' = context s → timeout_at s' = timeout_at s → watch_at s' = watch_at s → child_at s' = child_at s →
  channels_ok (watch_at s) (channel_at s') → apart (live s') → good s s'.
Proof.
  intros [Ht Hw Hc Ha Hp Hs Hch] E1 E2 E3 E4 Hok Hap. split; [split|split]; rewrite ?E1, ?E2, ?E3, ?E4; try done; apply kept_refl.
Qed.

Lemma channels_ok_insert h chs c ch ch' : channels_ok h chs → chs !! c = Some ch → ref_count ch ≤ ref_count ch' → channels_ok h (<[c := ch']> chs).
Proof.
  intros [H1 H2] Hc Hle. split.
  - intros w x Hx. destruct (decide (channel x = c)) as [->|Hne]; [rewrite lookup_insert_eq; by eexists|].
    rewrite lookup_insert_ne by done. by eapply H1.
  - intros c' ch2 Hc'. apply lookup_insert_Some in Hc' as [[<- <-]|[_ Hc']]; [|by apply H2]. destruct (H2 _ _ Hc). lia.
Qed.

Lemma set_channel_spec c ch ch' l s : wf s → channel_at s !! c = Some ch → ref_count ch ≤ ref_count ch' →
  good s (set_channel_at (<[c := ch']> (channel_at s)) (set_closed_fds l s)) ∧
  live (set_channel_at (<[c := ch']> (channel_at s)) (set_closed_fds l s)) = live s.
Proof.
  intros Hwf Hc Hle. assert (live (set_channel_at (<[c := ch']> (channel_at s)) (set_closed_fds l s)) = live s) as El.
  { unfold live. cbn. rewrite dom_insert_lookup_L; [done|by eexists]. }
  split; [|done]. apply good_channels; try done; [cbn; eapply channels_ok_insert; [apply Hwf|done|done]|]. rewrite El. apply Hwf.
Qed.

Lemma refs_fresh h chs c : channels_ok h chs → chs !! c = None → refs h c = 0.
Proof.
  intros [H1 _] Hc. unfold refs. assert (filter (λ p : Z * io_watch, channel p.2 = c) h = ∅) as ->; [|done].
  apply map_empty. intros w. apply map_lookup_filter_None. right. intros x Hx E. cbn in E.
  destruct (H1 w x Hx) as [ch Hch]. congruence.
Qed.

Lemma unix_new_spec n s : wf s → room 0 s → let r := g_io_channel_unix_new malloc n s in
  good s r.2 ∧ channel_at s !! r.1 = None ∧ channel_at r.2 = <[r.1 := Channel n 1 false false]> (channel_at s) ∧
  watch_at r.2 = watch_at s ∧ live r.2 = {[r.1]} ∪ live s ∧ r.1 ∉ live s.
Proof.
  intros Hwf Hr. unfold g_io_channel_unix_new. cbn. set (c := malloc (live s)).
  assert (c ∉ live s) as Hf by (apply malloc_fresh; [done|unfold room in Hr; lia]). pose proof (live_timeout s c Hf) as (_ & _ & _ & Hfc).
  assert (live (set_channel_at (<[c := Channel n 1 false false]> (channel_at s)) s) = {[c]} ∪ live s) as El.
  { unfold live. cbn. rewrite dom_insert_L. set_solver. }
  split; [|done]. apply good_channels; try done; cbn.
  - destruct (wf_channels _ Hwf) as [H1 H2]. split.
    + intros w x Hx. destruct (H1 w x Hx) as [ch Hch]. destruct (decide (channel x = c)) as [E|Hne]; [congruence|].
      rewrite lookup_insert_ne by done. by eexists.
    + intros c' ch' Hc'. apply lookup_insert_Some in Hc' as [[<- <-]|[_ Hc']]; [|by apply H2]. cbn.
      rewrite (refs_fresh _ (channel_at s)) by (done || apply Hwf). lia.
  - apply (apart_malloc malloc (live s)); [unfold room in Hr; lia|apply Hwf|]. by rewrite El.
Qed.
(** ** Children *)

Lemma room_live n n' s s' a : room n s → live s' ⊆ {[a]} ∪ live s → n' + 1 ≤ n → room n' s'.
Proof.
  unfold room. intros Hr Hs%size_add_one Hn. lia.
Qed.

Lemma room_le n n' s : room n s → n' ≤ n → room n' s.
Proof. unfold room. lia. Qed.

Lemma set_child_pipe_good p s : wf s → good s (set_child_pipe p s).
Proof. intros [Ht Hw Hc Ha Hp Hs Hch]. split; [by split|split; apply kept_refl]. Qed.

Lemma init_child_pipe_spec n s : wf s → room 1 s → ∃ s', init_child_pipe malloc n s = Ret s' ∧ good s s' ∧
  (∃ a b, live s' ⊆ {[a]} ∪ ({[b]} ∪ live s)) ∧ child_at s' = child_at s.
Proof.
  intros Hwf Hr. unfold init_child_pipe. pose proof (unix_new_spec n s Hwf ltac:(by eapply room_le)) as Hnew. cbn zeta in Hnew.
  destruct (g_io_channel_unix_new malloc n s) as [io s1] eqn:E1. cbn [fst snd] in Hnew. destruct Hnew as (Hg1 & Hfr & Hc1 & Hw1 & Hl1 & Hio).
  assert (child_at s1 = child_at s) as Hch1 by (by injection E1 as _ <-).
  set (s2 := set_child_pipe (Some io) s1). pose proof (set_child_pipe_good (Some io) s1 (proj1 Hg1)) as Hg2. fold s2 in Hg2.
  assert (room 0 s2) as Hr2 by (eapply (room_live 1 0 s s2 io); [done|by rewrite <- Hl1|lia]).
  destruct (add_watch_full_spec io 0 G_IO_IN CHILD_WATCH 0 None s2 (proj1 Hg2) Hr2) as (id & s3 & E3 & Hg3 & Hrefs & Hch3 & Ht3 & Hc3 & _ & Hw3).
  { unfold s2. cbn. rewrite Hc1, lookup_insert_eq. by eexists. }
  { unfold prio_ok. lia. }
  unfold g_io_add_watch. rewrite E3, outcome_bind_ret. cbn [snd].
  assert (channel_at s3 !! io = Some (Channel n 2 false false)) as Hc3'.
  { rewrite Hch3. unfold s2. cbn. rewrite Hc1, lookup_insert_eq. cbn. by rewrite decide_True. }
  destruct (unref_spec io _ (watch_at s3) s3 Hc3') as (m & l & -> & Hm & Hd & _); [apply Hg3| |].
  { rewrite Hrefs. unfold s2. cbn. rewrite Hw1, (refs_fresh _ (channel_at s)), decide_True; [lia|done|apply Hwf|done]. }
  assert (dom (channel_at s3) ⊆ dom (channel_at s2)) as Hd3.
  { intros a. rewrite !elem_of_dom, Hch3. by destruct (channel_at s2 !! a). }
  assert (child_at s3 = child_at s2) as Hch32.
  { revert E3. unfold g_io_add_watch_full, fresh_id. intros E. apply outcome_bind_Ret_inv in E as (s4 & E4 & E).
    unfold g_io_channel_ref in E4. apply outcome_bind_Ret_inv in E4 as (ch & _ & [= <-]).
    apply outcome_bind_Ret_inv in E as (l' & _ & [= _ <-]). done. }
  assert (good s3 (set_closed_fds l (set_channel_at m s3))) as Hg4.
  { apply good_channels; try done; [apply Hg3|]. eapply apart_subseteq; [apply Hg3|]. unfold live. cbn. set_solver. }
  eexists. split; [done|]. split; [|split].
  - eapply good_trans; [exact Hg1|]. eapply good_trans; [exact Hg2|]. by eapply good_trans.
  - exists (malloc (live s2)), io. unfold live at 1. cbn. rewrite Ht3, Hc3, Hw3. change (live s1) with (live s2) in Hl1.
    unfold live in Hl1 |- *. set_solver.
  - cbn. by rewrite Hch32.
Qed.

Lemma child_watch_add_spec n p f d s : wf s → room 2 s → ∃ id s', g_child_watch_add malloc n p f d s = Ret (id, s') ∧ good s s'.
Proof.
  intros Hwf Hr. unfold g_child_watch_add.
  assert (∃ s1, (match child_pipe s with None => init_child_pipe malloc n s | Some _ => Ret s end) = Ret s1 ∧ good s s1 ∧ room 0 s1) as (s1 & -> & Hg1 & Hr1).
  { destruct (child_pipe s); [exists s; split; [done|split; [by split; [|apply evolves_refl]|by eapply room_le]]|].
    destruct (init_child_pipe_spec n s Hwf ltac:(by eapply room_le)) as (s1 & -> & Hg & (a & b & Hl) & _). exists s1. split; [done|]. split; [done|].
    apply size_add_one in Hl. pose proof (size_add_one ({[b]} ∪ live s) (live s) b ltac:(done)). unfold room in *. lia. }
  rewrite outcome_bind_ret. unfold fresh_id. cbn. set (w := malloc (live s1)). destruct Hg1 as [Hwf1 He1]. clear Hwf Hr.
  pose proof Hwf1 as [Ht Hw Hc Ha Hp Hs Hch].
  assert (w ∉ live s1) as Hf by (apply malloc_fresh; [done|unfold room in Hr1; lia]). pose proof (live_timeout s1 w Hf) as (_ & _ & Hfw & _).
  set (x := Child _ _ _ _).
  destruct (watch_list_add_ok (child_at s1) child_priority (child_watches (context s1)) w x Hc Hfw) as (l' & E & Hok & Hk & Hl').
  cbn in E |- *. rewrite E, outcome_bind_ret. clear E. eexists _, _. split; [done|]. split.
  - split; cbn; try done. apply (apart_malloc malloc (live s1)); [unfold room in Hr1; lia|done|]. unfold live. cbn. rewrite dom_insert. set_solver.
  - eapply evolves_trans; [exact He1|]. split; cbn; try apply kept_refl. done.
Qed.

(** ** The program *)

(** What a function of the program may call when. *)
Definition action_ok (a : action A) s : Prop :=
  room 2 s ∧
  match a with
  | AddWatchFull c p _ _ _ _ => is_Some (channel_at s !! c) ∧ prio_ok p
  | AddWatch c _ _ _ | ChannelRef c | ChannelClose c | SetCloseOnUnref c _ | GetFd c => is_Some (channel_at s !! c)
  | ChannelUnref c => ∃ ch, owned s c ch
  | _ => True
  end.

Lemma good_refl s : wf s → good s s.
Proof. intros Hwf. split; [done|apply evolves_refl]. Qed.

Lemma good_same s s' : wf s → context s' = context s → timeout_at s' = timeout_at s → watch_at s' = watch_at s → child_at s' = child_at s →
  channel_at s' = channel_at s → good s s'.
Proof.
  intros Hwf E1 E2 E3 E4 E5. apply good_channels; try done; rewrite ?E5; [apply Hwf|]. unfold live. rewrite E2, E3, E4, E5. apply Hwf.
Qed.

Lemma run_action_spec a s : wf s → action_ok a s → ∃ r s', run_action malloc destroy_notify a s = Ret (r, s') ∧ good s s'.
Proof.
  intros Hwf [Hr Ha]. pose proof (room_le 2 0 s Hr ltac:(done)) as Hr0. destruct a; cbn [run_action].
  - eexists _, _. split; [apply f_equal, surjective_pairing|]. by apply timeout_add_spec.
  - eexists _, _. split; [apply f_equal, surjective_pairing|]. by apply timeout_add_spec.
  - eexists _, _. split; [apply f_equal, surjective_pairing|]. by apply timeout_add_spec.
  - destruct Ha as [Hc Hp]. destruct (add_watch_full_spec channel priority condition func data notify s Hwf Hr0 Hc Hp) as (id & s' & -> & Hg & _). by eexists _, _.
  - destruct (add_watch_full_spec channel 0 condition func data None s Hwf Hr0 Ha ltac:(unfold prio_ok; lia)) as (id & s' & E & Hg & _).
    unfold g_io_add_watch. rewrite E. by eexists _, _.
  - by apply child_watch_add_spec.
  - destruct (source_remove_spec tag s Hwf) as (b & s' & -> & Hg & _). rewrite outcome_bind_ret. by eexists _, _.
  - eexists _, _. split; [apply f_equal, surjective_pairing|]. by apply unix_new_spec.
  - destruct Ha as [ch Hc]. unfold g_io_channel_ref. rewrite (at_ptr_Some _ _ _ Hc), !outcome_bind_ret. eexists _, _. split; [done|].
    apply (set_channel_spec channel ch _ (closed_fds s)); [done|done|cbn; lia].
  - destruct Ha as (ch & Hc & Hown). destruct (unref_spec channel ch (watch_at s) s Hc) as (m & l & -> & Hm & Hd & _); [apply Hwf|done|].
    rewrite outcome_bind_ret. eexists _, _. split; [done|]. apply good_channels; try done.
    eapply apart_subseteq; [apply Hwf|]. unfold live. cbn. set_solver.
  - destruct Ha as [ch Hc]. unfold g_io_channel_close. rewrite (at_ptr_Some _ _ _ Hc), outcome_bind_ret.
    destruct (closed ch); rewrite outcome_bind_ret; eexists _, _; (split; [done|]); [by apply good_refl|].
    apply (set_channel_spec channel ch); [done|done|cbn; lia].
  - destruct Ha as [ch Hc]. unfold g_io_channel_set_close_on_unref. rewrite (at_ptr_Some _ _ _ Hc), !outcome_bind_ret. eexists _, _. split; [done|].
    apply (set_channel_spec channel ch _ (closed_fds s)); [done|done|cbn; lia].
  - destruct Ha as [ch Hc]. unfold g_io_channel_unix_get_fd. rewrite (at_ptr_Some _ _ _ Hc), !outcome_bind_ret. eexists _, _. split; [done|]. by apply good_refl.
  - eexists _, _. split; [done|]. by apply good_same.
  - eexists _, _. split; [done|]. by apply good_same.
  - eexists _, _. split; [done|]. by apply good_same.
Qed.

(** A function whose calls are in order, one after the other, and that leaves
    what the program relies on. *)
Fixpoint prog_ok (I : state A → Prop) (p : prog A) s : Prop :=
  match p with
  | Return _ => I s
  | Do a k => action_ok a s ∧ ∀ r s', run_action malloc destroy_notify a s = Ret (r, s') → prog_ok I (k r) s'
  end.

Lemma run_prog_spec (I : state A → Prop) p s : wf s → prog_ok I p s →
  ∃ ret s', run_prog malloc destroy_notify p s = Ret (ret, s') ∧ good s s' ∧ I s'.
Proof.
  revert s. induction p as [ret|a k IH]; intros s Hwf Hp; cbn [run_prog].
  - exists ret, s. split; [done|]. split; [by apply good_refl|done].
  - destruct Hp as [Ha Hk]. destruct (run_action_spec a s Hwf Ha) as (r & s1 & E & Hg). rewrite E, outcome_bind_ret.
    destruct (IH r s1 (proj1 Hg) (Hk _ _ E)) as (ret & s2 & E2 & Hg2 & HI). exists ret, s2. split; [done|]. split; [by eapply good_trans|done].
Qed.
End operations.

(** * The loop *)

(** The head of a list that is worked off, after the program was called: it was
    removed, or it is the head still. *)
Lemma kept_head {X} (h h' : gmap Z X) l l' t r : src_ok h l → kept h h' l l' → lock l = true → current l = t :: r →
  ((t ∉ current l') ∧ (length (current l') ≤ length r)%nat) ∨
  (∃ r', current l' = t :: r' ∧ (length r' ≤ length r)%nat ∧ h' !! t = h !! t).
Proof.
  intros (Hn & _) [_ Hk] El Ec. destruct (Hk El) as [Hs Hh]. rewrite Ec in Hs, Hn. apply NoDup_app in Hn as [Hn _].
  apply NoDup_cons in Hn as [Ht _]. apply sublist_cons_r in Hs as [Hs|(r' & E & Hs)].
  - left. split; [|by apply sublist_length]. intros Hin. apply Ht. eapply elem_of_submseteq; [exact Hin|by apply sublist_submseteq].
  - right. exists r'. split; [done|]. split; [by apply sublist_length|]. apply Hh. rewrite E. by left.
Qed.

Lemma still_listed_apart (X : gset Z) l a : apart X → a ∈ X → (∀ b, b ∈ l → b ∈ X) → still_listed l a = bool_decide (a ∈ l).
Proof.
  intros Hap Ha Hl. unfold still_listed. apply eq_true_iff_eq. rewrite existsb_exists, bool_decide_eq_true. split.
  - intros (b & Hb%list_elem_of_In & E%Z.eqb_eq). unfold ptr_cmp in E. by rewrite (Hap a b Ha (Hl _ Hb)); [|by apply to_i32_zero_opp; rewrite Z.opp_sub_distr, Z.add_comm, Z.add_opp_r].
  - intros Hin. exists a. split; [by apply list_elem_of_In|]. unfold ptr_cmp. by rewrite Z.sub_diag.
Qed.

(** The two cases of the pass over the list [l] whose head was called. *)
Lemma still_listed_head {A X} (s : state A) (h h' : gmap Z X) l l' t r : wf s → dom h ⊆ live s → src_ok h l → kept h h' l l' → lock l = true →
  current l = t :: r →
  (still_listed (current l') t = false ∧ (length (current l') ≤ length r)%nat) ∨
  (still_listed (current l') t = true ∧ ∃ r', current l' = t :: r' ∧ (length r' ≤ length r)%nat ∧ h' !! t = h !! t).
Proof.
  intros Hwf Hd Hok Hk El Ec.
  assert (still_listed (current l') t = bool_decide (t ∈ current l')) as ->.
  { apply (still_listed_apart (live s)); [apply Hwf| |]; intros; apply Hd; apply Hok, elem_of_app; left; [rewrite Ec; by left|].
    destruct (proj2 Hk El) as [Hs _]. eapply elem_of_submseteq; [done|by apply sublist_submseteq]. }
  destruct (kept_head _ _ _ _ _ _ Hok Hk El Ec) as [[Ht Hlen]|(r' & E & Hlen & Hh)]; [left|right].
  - by rewrite bool_decide_false.
  - rewrite bool_decide_true by (rewrite E; by left). split; [done|]. by exists r'.
Qed.

Lemma refs_same h h' : (∀ w, channel <$> h' !! w = channel <$> h !! w) → ∀ c, refs h' c = refs h c.
Proof.
  intros E c. assert (∀ g, refs g c = Z.of_nat (size (filter (λ p : Z * Z, p.2 = c) (channel <$> g)))) as Hr.
  { intros g. unfold refs. rewrite map_filter_fmap, map_size_fmap. do 3 f_equal. }
  rewrite !Hr. do 3 f_equal. apply map_eq. intros w. by rewrite !lookup_fmap.
Qed.

Section client.
Context {A : Type} (malloc : gset Z → Z) `{!Allocator malloc} (destroy_notify : Z → Z → A → A) (program : call → A → prog A) (I : state A → Prop).
Implicit Types s : state A.

(** A function is called for a source that is there. *)
Definition called (c : call) s : Prop :=
  match c with
  | CallTimeout f d => ∃ t x, timeout_at s !! t = Some x ∧ t_function x = f ∧ t_data x = d
  | CallWatch f ch _ d => ∃ w x, watch_at s !! w = Some x ∧ w_func x = f ∧ channel x = ch ∧ w_data x = d
  | CallChild f p _ d => ∃ c x, child_at s !! c = Some x ∧ c_function x = f ∧ pid x = p ∧ c_data x = d
  end.

(** What the program promises the loop: given [I], its functions call the
    library in order and leave [I]; what the loop does does not disturb [I]. *)
Class Client : Prop := {
  client_call c s : wf s → called c s → I s → prog_ok malloc destroy_notify I (program c (app s)) s;
  client_settles s s' : wf s → I s → wf s' → settles destroy_notify s s' → I s'
}.
Context `{!Client}.

Definition fine s : Prop := wf s ∧ I s.

Lemma invoke_spec c s : fine s → called c s → ∃ ret s', invoke malloc destroy_notify program c s = Ret (ret, s') ∧ evolves s s' ∧ fine s'.
Proof.
  intros [Hwf HI] Hc. destruct (run_prog_spec malloc destroy_notify I _ s Hwf (client_call c s Hwf Hc HI)) as (ret & s' & E & [Hwf' He] & HI').
  by exists ret, s'.
Qed.

Lemma fine_settles s s' : fine s → wf s' → settles destroy_notify s s' → fine s'.
Proof. intros [Hwf HI] Hwf' Hs. split; [done|exact (client_settles s s' Hwf HI Hwf' Hs)]. Qed.

(** The lists and the memory of one type change, and no structure is added. *)
Lemma timeouts_change h l s : fine s → src_ok h l → dom h ⊆ dom (timeout_at s) → fine (set_timeouts l (set_timeout_at h s)).
Proof.
  intros Hf Hok Hd. assert (live (set_timeouts l (set_timeout_at h s)) ⊆ live s) as Hl by (unfold live; cbn; set_solver).
  apply (fine_settles s); [done| |].
  - destruct Hf as [[Ht Hw Hc Ha Hp Hs Hch] _]. split; cbn; try done. by eapply apart_subseteq.
  - split; [done| |by left]. intros c ch [Hc _]. by exists ch.
Qed.

Lemma children_change h l s : fine s → src_ok h l → dom h ⊆ dom (child_at s) → fine (set_child_watches l (set_child_at h s)).
Proof.
  intros Hf Hok Hd. assert (live (set_child_watches l (set_child_at h s)) ⊆ live s) as Hl by (unfold live; cbn; set_solver).
  apply (fine_settles s); [done| |].
  - destruct Hf as [[Ht Hw Hc Ha Hp Hs Hch] _]. split; cbn; try done. by eapply apart_subseteq.
  - split; [done| |by left]. intros c ch [Hc _]. by exists ch.
Qed.

Lemma watches_change h l s : fine s → src_ok h l → (∀ w, channel <$> h !! w = channel <$> watch_at s !! w) →
  (∀ w, priority <$> h !! w = priority <$> watch_at s !! w) → by_priority (watch_at s) (current l) → by_priority (watch_at s) (proc l) →
  fine (set_io_watches l (set_watch_at h s)).
Proof.
  intros Hf Hok Hch Hpr Hs1 Hs2.
  assert (dom h = dom (watch_at s)) as Hd.
  { apply set_eq. intros w. rewrite !elem_of_dom. specialize (Hch w). by destruct (h !! w), (watch_at s !! w). }
  assert (live (set_io_watches l (set_watch_at h s)) = live s) as Hl by (unfold live; cbn; by rewrite Hd).
  apply (fine_settles s); [done| |].
  - destruct Hf as [[Ht Hw Hc Ha Hp Hs Hchs] _]. split; cbn; try done.
    + by rewrite Hl.
    + intros w x Hx. specialize (Hpr w). rewrite Hx in Hpr. cbn in Hpr. symmetry in Hpr. apply fmap_Some in Hpr as (y & Hy & ->). by eapply Hp.
    + split; (apply (by_priority_same (watch_at s)); [done|]); intros; apply Hpr.
    + split; [|intros c ch; rewrite (refs_same _ _ Hch); apply Hchs]. intros w x Hx. specialize (Hch w). rewrite Hx in Hch. cbn in Hch.
      symmetry in Hch. apply fmap_Some in Hch as (y & Hy & ->). by eapply Hchs.
  - split; [by rewrite Hl| |by left]. intros c ch [Hc _]. exists ch. cbn. by rewrite (refs_same _ _ Hch).
Qed.

Lemma set_timeouts_at l h s : set_timeouts l (set_timeout_at h s) = set_timeout_at h (set_timeouts l s).
Proof. done. Qed.
Lemma set_child_watches_at l h s : set_child_watches l (set_child_at h s) = set_child_at h (set_child_watches l s).
Proof. done. Qed.

(** Only the lists change. *)
Lemma set_timeout_at_id s : set_timeout_at (timeout_at s) s = s.
Proof. by destruct s. Qed.
Lemma set_child_at_id s : set_child_at (child_at s) s = s.
Proof. by destruct s. Qed.
Lemma set_watch_at_id s : set_watch_at (watch_at s) s = s.
Proof. by destruct s. Qed.

(** ** A source leaves the list that is worked off *)

Lemma src_ok_keep {X Y} (h : gmap Z X) (h' : gmap Z Y) l t r p : src_ok h l → current l = t :: r → lock l = true → dom h' = dom h →
  p ≡ₚ t :: proc l → src_ok h' (Sources r p (lock l)).
Proof.
  intros Hok Ec El Hd Hp. eapply src_ok_move; [exact Hok| |done|cbn; by rewrite El]. cbn. rewrite Hp, Ec. cbn. symmetry. apply Permutation_middle.
Qed.

Lemma src_ok_take {X} (h : gmap Z X) l t r : src_ok h l → current l = t :: r → lock l = true → src_ok (delete t h) (Sources r (proc l) (lock l)).
Proof. intros Hok Ec El. eapply src_ok_del; [exact Hok| |cbn; by rewrite El]. cbn. by rewrite Ec. Qed.

Definition locks s : bool * bool * bool :=
  (lock (timeouts (context s)), lock (io_watches (context s)), lock (child_watches (context s))).

Lemma evolves_locks s s' : evolves s s' → locks s' = locks s.
Proof. intros [[H1 _] [H2 _] [H3 _]]. unfold locks. by rewrite H1, H2, H3. Qed.

Lemma take_timeout_eq t r keep s : current (timeouts (context s)) = t :: r →
  take_timeout t keep s = set_timeouts (Sources r (if keep then proc (timeouts (context s)) ++ [t] else proc (timeouts (context s))) (lock (timeouts (context s)))) s.
Proof. intros E. unfold take_timeout. by rewrite E, list_remove_head. Qed.

(** ** The pass over the timeouts *)

Lemma keep_timeout_fine t r h s : fine s → current (timeouts (context s)) = t :: r → lock (timeouts (context s)) = true →
  dom h = dom (timeout_at s) → fine (take_timeout t true (set_timeout_at h s)).
Proof.
  intros Hf Ec El Hd. rewrite (take_timeout_eq t r) by done. cbn [set_timeout_at context]. apply timeouts_change; [done| |by rewrite Hd].
  eapply src_ok_keep; [apply Hf|done|done|done|]. by rewrite Permutation_app_comm.
Qed.

Lemma free_timeout_fine t r s : fine s → current (timeouts (context s)) = t :: r → lock (timeouts (context s)) = true →
  fine (set_timeout_at (delete t (timeout_at s)) (take_timeout t false s)).
Proof.
  intros Hf Ec El. rewrite (take_timeout_eq t r) by done. rewrite <- set_timeouts_at. apply timeouts_change; [done| |rewrite dom_delete; set_solver].
  eapply src_ok_take; [apply Hf|done|done].
Qed.

Lemma check_loop_spec fuel tv s : fine s → lock (timeouts (context s)) = true → (length (current (timeouts (context s))) ≤ fuel)%nat →
  ∃ s', check_loop malloc destroy_notify program fuel tv s = Ret s' ∧ fine s' ∧ current (timeouts (context s')) = [] ∧ locks s' = locks s.
Proof.
  revert s. induction fuel as [|fuel IH]; intros s Hf El Hfuel; cbn [check_loop];
    destruct (current (timeouts (context s))) as [|t r] eqn:Ec; [by exists s|cbn in Hfuel; lia|by exists s|].
  destruct (src_ok_current _ _ t (wf_timeouts _ (proj1 Hf))) as [x Hx]; [rewrite Ec; by left|].
  rewrite (at_ptr_Some _ _ _ Hx), outcome_bind_ret. destruct (timer_lt tv (expiration x)).
  { pose proof (keep_timeout_fine t r (timeout_at s) s Hf Ec El eq_refl) as Hf'. rewrite set_timeout_at_id in Hf'. rewrite (take_timeout_eq t r) in Hf' |- * by done.
    destruct (IH _ Hf') as (s' & E & ?); [done|cbn in *; lia|]. by exists s'. }
  destruct (invoke_spec (CallTimeout (t_function x) (t_data x)) s Hf) as (ret & s1 & -> & He & Hf1); [by exists t, x|].
  rewrite outcome_bind_ret. pose proof (evolves_locks _ _ He) as Elk. pose proof (ev_timeouts _ _ He) as Hk.
  assert (lock (timeouts (context s1)) = true) as El1 by (by rewrite (proj1 Hk)).
  destruct (still_listed_head s (timeout_at s) (timeout_at s1) _ _ t r (proj1 Hf) ltac:(unfold live; set_solver) (wf_timeouts _ (proj1 Hf)) Hk El Ec) as [[-> Hlen]|(-> & r' & Ec1 & Hlen & Hh)]; cbn [negb].
  { destruct (IH s1 Hf1 El1) as (s' & -> & Hf' & Ec' & El'); [cbn in *; lia|]. exists s'. by rewrite El', Elk. }
  destruct ret; cbn [negb].
  - rewrite Hx in Hh. rewrite (at_ptr_Some _ _ x), outcome_bind_ret by done. set (h := <[t := _]> (timeout_at s1)).
    assert (dom h = dom (timeout_at s1)) as Hd by (apply dom_insert_lookup_L; rewrite Hh; by eexists).
    pose proof (keep_timeout_fine t r' h s1 Hf1 Ec1 El1 Hd) as Hf2. rewrite (take_timeout_eq t r') in Hf2 |- * by done.
    destruct (IH _ Hf2) as (s' & -> & Hf' & Ec' & El'); [done|cbn in *; lia|]. exists s'. rewrite El'. by split_and!.
  - pose proof (free_timeout_fine t r' s1 Hf1 Ec1 El1) as Hf2. rewrite (take_timeout_eq t r') in Hf2 |- * by done. change (timeout_at (set_timeouts ?l s1)) with (timeout_at s1).
    destruct (IH _ Hf2) as (s' & -> & Hf' & Ec' & El'); [done|cbn in *; lia|]. exists s'. rewrite El'. by split_and!.
Qed.

(** The list and the list of those kept change places. *)
Lemma src_ok_swap {X} (h : gmap Z X) l : src_ok h l → current l = [] → src_ok h (Sources (proc l) [] false).
Proof. intros Hok Ec. eapply src_ok_move; [exact Hok| |done|done]. cbn. by rewrite Ec, app_nil_r. Qed.

Lemma src_ok_lock {X} (h : gmap Z X) l : src_ok h l → src_ok h (Sources (current l) (proc l) true).
Proof. intros Hok. by eapply src_ok_move. Qed.

Lemma timeout_handlers_check_spec s : fine s → locks s = (false, false, false) →
  ∃ s', timeout_handlers_check malloc destroy_notify program s = Ret s' ∧ fine s' ∧ locks s' = (false, false, false).
Proof.
  intros Hf El. unfold timeout_handlers_check. set (l := timeouts (context s)). cbn zeta.
  pose proof (timeouts_change (timeout_at s) (Sources (current l) (proc l) true) s Hf ltac:(apply src_ok_lock, Hf) ltac:(done)) as Hf1.
  rewrite set_timeout_at_id in Hf1. destruct (check_loop_spec (length (current l)) (now s) _ Hf1 eq_refl ltac:(done)) as (s2 & -> & Hf2 & Ec & El2).
  rewrite outcome_bind_ret. eexists. split; [done|]. split.
  - rewrite <- (set_timeout_at_id s2) at 2. apply timeouts_change; [done| |done]. apply src_ok_swap; [apply Hf2|done].
  - unfold locks in *. cbn in *. injection El2 as _ -> ->. by injection El as _ -> ->.
Qed.
(** ** The pass over the children *)

(** The clock, the flags and what [poll] reports. *)
Lemma fine_rest s s' : fine s → timeouts (context s') = timeouts (context s) → io_watches (context s') = io_watches (context s) →
  child_watches (context s') = child_watches (context s) → timeout_at s' = timeout_at s → watch_at s' = watch_at s → child_at s' = child_at s →
  channel_at s' = channel_at s → app s' = app s → fine s'.
Proof.
  intros Hf E1 E2 E3 E4 E5 E6 E7 E8. apply (fine_settles s); [done| |apply settles_same; congruence].
  destruct Hf as [[Ht Hw Hc Ha Hp Hs Hch] _]. split; rewrite ?E1, ?E2, ?E3, ?E4, ?E5, ?E6, ?E7; try done. unfold live. by rewrite E4, E5, E6, E7.
Qed.

Lemma keep_child_fine c r s : fine s → current (child_watches (context s)) = c :: r → lock (child_watches (context s)) = true →
  ∃ p, take_child c true s = Ret (set_child_watches (Sources r p true) s) ∧ fine (set_child_watches (Sources r p true) s).
Proof.
  intros Hf Ec El. pose proof (wf_children _ (proj1 Hf)) as Hok. unfold take_child. cbn zeta.
  destruct (watch_list_add_spec (child_at s) child_priority (proc (child_watches (context s))) c) as (p & -> & Hp).
  { eapply src_ok_current; [exact Hok|rewrite Ec; by left]. }
  { intros a Ha. by eapply src_ok_proc. }
  rewrite outcome_bind_ret, Ec, list_remove_head, El. exists p. split; [done|].
  rewrite <- (set_child_at_id s) at 1. apply children_change; [done| |done]. rewrite <- El. by eapply src_ok_keep.
Qed.

Lemma free_child_fine c r s : fine s → current (child_watches (context s)) = c :: r → lock (child_watches (context s)) = true →
  let s' := set_child_watches (Sources r (proc (child_watches (context s))) true) s in
  take_child c false s = Ret s' ∧ fine (set_child_at (delete c (child_at s)) s').
Proof.
  intros Hf Ec El s'. unfold take_child. cbn zeta. rewrite outcome_bind_ret, Ec, list_remove_head, El. split; [done|].
  subst s'. rewrite <- set_child_watches_at. apply children_change; [done| |rewrite dom_delete; set_solver].
  rewrite <- El. eapply src_ok_take; [apply Hf|done|done].
Qed.

(** What the pass leaves of the other two lists, which may be worked off as
    well. *)
Definition others_kept s s' : Prop :=
  kept (timeout_at s) (timeout_at s') (timeouts (context s)) (timeouts (context s')) ∧
  kept (watch_at s) (watch_at s') (io_watches (context s)) (io_watches (context s')).

Lemma others_kept_trans s s' s'' : others_kept s s' → others_kept s' s'' → others_kept s s''.
Proof. intros [] []. split; by eapply kept_trans. Qed.

Lemma child_loop_spec fuel s : fine s → lock (child_watches (context s)) = true → (length (current (child_watches (context s))) ≤ fuel)%nat →
  ∃ s', child_loop malloc destroy_notify program fuel s = Ret s' ∧ fine s' ∧ current (child_watches (context s')) = [] ∧ others_kept s s'.
Proof.
  revert s. induction fuel as [|fuel IH]; intros s Hf El Hfuel; cbn [child_loop];
    destruct (current (child_watches (context s))) as [|c r] eqn:Ec; [by exists s|cbn in Hfuel; lia|by exists s|].
  destruct (src_ok_current _ _ c (wf_children _ (proj1 Hf))) as [x Hx]; [rewrite Ec; by left|].
  rewrite (at_ptr_Some _ _ _ Hx), outcome_bind_ret. destruct (exited s !! pid x) as [status|].
  2: { destruct (keep_child_fine c r s Hf Ec El) as (p & -> & Hf'). rewrite outcome_bind_ret.
    destruct (IH _ Hf') as (s' & -> & ?); [done|cbn in *; lia|]. by exists s'. }
  set (s0 := set_exited _ s). assert (fine s0) as Hf0 by (by apply (fine_rest s)).
  destruct (invoke_spec (CallChild (c_function x) (pid x) status (c_data x)) s0 Hf0) as (ret & s1 & -> & He & Hf1); [by exists c, x|].
  rewrite outcome_bind_ret. cbn [snd]. pose proof (ev_children _ _ He) as Hk. assert (others_kept s s1) as Ho by (by split; apply He).
  assert (lock (child_watches (context s1)) = true) as El1 by (by rewrite (proj1 Hk)).
  destruct (kept_head (child_at s) (child_at s1) _ _ c r (wf_children _ (proj1 Hf)) Hk El Ec) as [[Hc Hlen]|(r' & Ec1 & Hlen & Hh)].
  - rewrite bool_decide_false by done. destruct (IH s1 Hf1 El1) as (s' & -> & Hf' & Ec' & Ho'); [cbn in *; lia|].
    exists s'. split_and!; try done. by eapply others_kept_trans.
  - rewrite bool_decide_true by (rewrite Ec1; by left). destruct (free_child_fine c r' s1 Hf1 Ec1 El1) as [-> Hf2]. rewrite outcome_bind_ret.
    change (child_at (set_child_watches ?l s1)) with (child_at s1).
    destruct (IH _ Hf2) as (s' & -> & Hf' & Ec' & Ho'); [done|cbn in *; lia|]. exists s'. split_and!; try done. by eapply others_kept_trans.
Qed.

Lemma child_watch_func_spec s : fine s → lock (child_watches (context s)) = false →
  ∃ s', child_watch_func malloc destroy_notify program s = Ret (true, s') ∧ evolves s s' ∧ fine s'.
Proof.
  intros Hf El. unfold child_watch_func. set (l := child_watches (context s)). cbn zeta.
  pose proof (children_change (child_at s) (Sources (current l) (proc l) true) s Hf ltac:(apply src_ok_lock, Hf) ltac:(done)) as Hf1.
  rewrite set_child_at_id in Hf1. destruct (child_loop_spec (length (current l)) _ Hf1 eq_refl ltac:(done)) as (s2 & -> & Hf2 & Ec & [Ho1 Ho2]).
  rewrite outcome_bind_ret. eexists. split; [done|]. split.
  - split; [done|done|]. split; [cbn; by rewrite El|]. by rewrite El.
  - rewrite <- (set_child_at_id s2) at 2. apply children_change; [done| |done]. apply src_ok_swap; [apply Hf2|done].
Qed.
(** ** The pass over the watches *)

Lemma call_watch_spec w x r s : fine s → watch_at s !! w = Some x → lock (child_watches (context s)) = false →
  ∃ ret s', call_watch malloc destroy_notify program x r s = Ret (ret, s') ∧ evolves s s' ∧ fine s'.
Proof.
  intros Hf Hx El. unfold call_watch. destruct (w_func x =? CHILD_WATCH).
  - destruct (child_watch_func_spec s Hf El) as (s' & E & He). by exists true, s'.
  - apply invoke_spec; [done|by exists w, x].
Qed.

Lemma keep_watch_fine w r s : fine s → current (io_watches (context s)) = w :: r → lock (io_watches (context s)) = true →
  ∃ p, take_watch w true s = Ret (set_io_watches (Sources r p true) s) ∧ fine (set_io_watches (Sources r p true) s).
Proof.
  intros Hf Ec El. pose proof (proj1 Hf) as [_ Hok _ _ Hp [Hs1 Hs2] _]. unfold take_watch. cbn zeta.
  destruct (watch_list_add_spec (watch_at s) priority (proc (io_watches (context s))) w) as (p & E & Hperm).
  { eapply src_ok_current; [exact Hok|rewrite Ec; by left]. }
  { intros a Ha. by eapply src_ok_proc. }
  rewrite E, outcome_bind_ret, Ec, list_remove_head, El. exists p. split; [done|].
  rewrite <- (set_watch_at_id s) at 1. apply watches_change; try done.
  - rewrite <- El. by eapply src_ok_keep.
  - rewrite Ec in Hs1. by apply StronglySorted_inv in Hs1 as [? _].
  - by eapply watch_list_add_sorted.
Qed.

Lemma free_watch_fine w r s : fine s → current (io_watches (context s)) = w :: r → lock (io_watches (context s)) = true →
  ∃ s', (s1 ← take_watch w false s; watch_free destroy_notify w s1) = Ret s' ∧ fine s' ∧ watch_at s' = delete w (watch_at s) ∧
    current (io_watches (context s')) = r ∧ locks s' = locks s.
Proof.
  intros Hf Ec El. pose proof (wf_watches _ (proj1 Hf)) as Hok. unfold take_watch. cbn zeta. rewrite outcome_bind_ret, Ec, list_remove_head, El.
  destruct (src_ok_current _ _ w Hok) as [x Hx]; [rewrite Ec; by left|].
  assert (w ∉ proc (io_watches (context s))) as Hw.
  { pose proof (proj1 Hok) as Hn. rewrite Ec in Hn. cbn in Hn. apply NoDup_cons in Hn as [Hn _]. intros Hin. apply Hn, elem_of_app. by right. }
  destruct (drop_watch_spec malloc destroy_notify w x (Sources r (proc (io_watches (context s))) true) s (proj1 Hf) Hx) as (s' & E & [Hwf _] & Hse & Hd & Hio & Ht & Hc).
  { cbn. by rewrite Ec. }
  { done. }
  { done. }
  { cbn. by rewrite Ec, list_remove_head. }
  { cbn. by rewrite list_remove_absent. }
  exists s'. rewrite outcome_bind_ret. split; [exact E|]. split; [by eapply fine_settles|]. split; [done|]. rewrite Hio. split; [done|].
  unfold locks. by rewrite Hio, Ht, Hc, El.
Qed.

(** Every watch that is still to be looked at has its cell. *)
Definition cells_set s : Prop := ∀ w x, w ∈ current (io_watches (context s)) → watch_at s !! w = Some x → is_Some (revents x).

Lemma io_loop_spec fuel s : fine s → lock (io_watches (context s)) = true → lock (child_watches (context s)) = false → cells_set s →
  (length (current (io_watches (context s))) ≤ fuel)%nat →
  ∃ s', io_loop malloc destroy_notify program fuel s = Ret s' ∧ fine s' ∧ current (io_watches (context s')) = [] ∧ locks s' = locks s.
Proof.
  revert s. induction fuel as [|fuel IH]; intros s Hf El Elc Hcells Hfuel; cbn [io_loop];
    destruct (current (io_watches (context s))) as [|w r] eqn:Ec; [by exists s|cbn in Hfuel; lia|by exists s|].
  assert (∀ s1 r1, fine s1 → current (io_watches (context s1)) = w :: r1 → lock (io_watches (context s1)) = true → lock (child_watches (context s1)) = false →
    cells_set s1 → (length r1 ≤ fuel)%nat →
    ∃ s', (s ← take_watch w true s1; io_loop malloc destroy_notify program fuel s) = Ret s' ∧ fine s' ∧ current (io_watches (context s')) = [] ∧ locks s' = locks s1) as Hkeep.
  { intros s1 r1 Hf1 Ec1 El1 Elc1 Hcells1 Hlen. destruct (keep_watch_fine w r1 s1 Hf1 Ec1 El1) as (p & -> & Hf2). rewrite outcome_bind_ret.
    destruct (IH _ Hf2) as (s' & -> & Hf' & Ec' & El'); [done|done| |done|].
    - intros a x Ha Hx. apply (Hcells1 a x); [|done]. rewrite Ec1. by right.
    - exists s'. rewrite El'. split_and!; try done. unfold locks. by rewrite El1. }
  destruct (src_ok_current _ _ w (wf_watches _ (proj1 Hf))) as [x Hx]; [rewrite Ec; by left|].
  rewrite (at_ptr_Some _ _ _ Hx), outcome_bind_ret. destruct (Hcells w x) as [ev ->]; [rewrite Ec; by left|done|].
  destruct (ev =? 0); [apply (Hkeep s r); try done; cbn in *; lia|].
  destruct (call_watch_spec w x ev s Hf Hx Elc) as (ret & s1 & -> & He & Hf1). rewrite outcome_bind_ret.
  pose proof (evolves_locks _ _ He) as Elk. pose proof (ev_watches _ _ He) as Hk.
  assert (lock (io_watches (context s1)) = true) as El1 by (by rewrite (proj1 Hk)).
  assert (lock (child_watches (context s1)) = false) as Elc1 by (by rewrite (proj1 (ev_children _ _ He))).
  assert (cells_set s1) as Hcells1.
  { intros a y Ha Hy. destruct (proj2 Hk El) as [Hs Hh]. rewrite Hh in Hy by done. apply (Hcells a y); [|done].
    eapply elem_of_submseteq; [exact Ha|by apply sublist_submseteq]. }
  destruct (still_listed_head s (watch_at s) (watch_at s1) _ _ w r (proj1 Hf) ltac:(unfold live; set_solver) (wf_watches _ (proj1 Hf)) Hk El Ec) as [[-> Hlen]|(-> & r' & Ec1 & Hlen & Hh)]; cbn [negb].
  { destruct (IH s1 Hf1 El1 Elc1 Hcells1) as (s' & -> & Hf' & Ec' & El'); [cbn in *; lia|]. exists s'. by rewrite El', Elk. }
  destruct ret; cbn [negb].
  - destruct (Hkeep s1 r' Hf1 Ec1 El1 Elc1 Hcells1) as (s' & -> & Hf' & Ec' & El'); [cbn in *; lia|]. exists s'. by rewrite El', Elk.
  - destruct (free_watch_fine w r' s1 Hf1 Ec1 El1) as (s2 & E2 & Hf2 & Hd2 & Ec2 & Elk2).
    apply outcome_bind_Ret_inv in E2 as (s3 & -> & E3). rewrite outcome_bind_ret, E3, outcome_bind_ret.
    assert (∀ b : bool * bool * bool, locks s2 = b → lock (io_watches (context s2)) = b.1.2 ∧ lock (child_watches (context s2)) = b.2) as Hb by (by intros b <-).
    destruct (Hb _ Elk2) as [El2 Elc2]. cbn in El2, Elc2. rewrite El1 in El2. rewrite Elc1 in Elc2.
    destruct (IH s2 Hf2 El2 Elc2) as (s' & -> & Hf' & Ec' & El'); [|rewrite Ec2; cbn in *; lia|exists s'; by rewrite El', Elk2, Elk].
    intros a y Ha Hy. rewrite Hd2 in Hy. apply lookup_delete_Some in Hy as [_ Hy]. apply (Hcells1 a y); [|done]. rewrite Ec1. right. by rewrite <- Ec2.
Qed.

Lemma dispatch_watches_spec s : fine s → locks s = (false, false, false) → cells_set s →
  ∃ s', dispatch_watches malloc destroy_notify program s = Ret s' ∧ fine s' ∧ locks s' = (false, false, false).
Proof.
  intros Hf El Hcells. unfold dispatch_watches. set (l := io_watches (context s)). cbn zeta. injection El as El1 El2 El3.
  pose proof (watches_change (watch_at s) (Sources (current l) (proc l) true) s Hf ltac:(apply src_ok_lock, Hf) ltac:(done) ltac:(done) ltac:(apply Hf) ltac:(apply Hf)) as Hf1.
  rewrite set_watch_at_id in Hf1. destruct (io_loop_spec (length (current l)) _ Hf1 eq_refl El3 Hcells ltac:(done)) as (s2 & -> & Hf2 & Ec & Elk).
  rewrite outcome_bind_ret. eexists. split; [done|]. split.
  - rewrite <- (set_watch_at_id s2) at 2. apply watches_change; try done; [|apply Hf2|constructor]. apply src_ok_swap; [apply Hf2|done].
  - unfold locks in *. cbn in *. injection Elk as -> _ ->. by rewrite El1, El3.
Qed.
(** ** A round *)

Lemma set_cells_spec h l cells : (∀ w, w ∈ l → is_Some (h !! w)) →
  ∃ h', set_cells h l cells = Ret h' ∧ (∀ w, channel <$> h' !! w = channel <$> h !! w) ∧ (∀ w, priority <$> h' !! w = priority <$> h !! w) ∧
    ∀ w x, h' !! w = Some x → (w ∈ l ∨ ∃ y, h !! w = Some y ∧ is_Some (revents y)) → is_Some (revents x).
Proof.
  revert h cells. induction l as [|w l IH]; intros h cells Hl; cbn [set_cells].
  { exists h. split_and!; try done. intros w x Hx [Hw|(y & Hy & Hr)]; [by apply elem_of_nil in Hw|by simplify_eq]. }
  destruct (Hl w) as [x Hx]; [by left|]. rewrite (at_ptr_Some _ _ _ Hx), outcome_bind_ret. set (x' := Watch _ _ _ _ _ _ _ _).
  destruct (IH (<[w := x']> h) (tail cells)) as (h' & -> & Hc & Hp & Hr).
  { intros a Ha. destruct (decide (w = a)) as [->|Hne]; [rewrite lookup_insert_eq; by eexists|]. rewrite lookup_insert_ne by done. apply Hl. by right. }
  exists h'. split; [done|]. split; [|split].
  - intros a. rewrite Hc. destruct (decide (w = a)) as [->|Hne]; [by rewrite lookup_insert_eq, Hx|by rewrite lookup_insert_ne].
  - intros a. rewrite Hp. destruct (decide (w = a)) as [->|Hne]; [by rewrite lookup_insert_eq, Hx|by rewrite lookup_insert_ne].
  - intros a y Hy Ha. apply (Hr a y Hy). destruct (decide (w = a)) as [->|Hne]; [right; rewrite lookup_insert_eq; by repeat eexists|].
    rewrite lookup_insert_ne by done. rewrite elem_of_cons in Ha. destruct Ha as [[?|?]|?]; [congruence|by left|by right].
Qed.

(** The cells of the watches are set. *)
Lemma cells_fine s cells : fine s → let l := current (io_watches (context s)) in
  ∃ h, set_cells (watch_at s) l cells = Ret h ∧ fine (set_watch_at h s) ∧ cells_set (set_watch_at h s).
Proof.
  intros Hf l. destruct (set_cells_spec (watch_at s) l cells) as (h & E & Hc & Hp & Hr); [intros w Hw; eapply src_ok_current; [apply Hf|done]|].
  exists h. split; [done|]. split; [|intros w x Hw Hx; apply (Hr w x Hx); by left].
  assert (set_watch_at h s = set_io_watches (io_watches (context s)) (set_watch_at h s)) as -> by (destruct s as [[]]; reflexivity).
  apply watches_change; try done; try apply Hf. apply (src_ok_move (watch_at s) h (io_watches (context s))); [apply Hf|done| |apply Hf].
  apply set_eq. intros w. rewrite !elem_of_dom. specialize (Hc w). by destruct (h !! w), (watch_at s !! w).
Qed.

Lemma read_fds_spec s l : fine s → (∀ w, w ∈ l → is_Some (watch_at s !! w)) → ∃ r, read_fds s l = Ret r.
Proof.
  intros Hf. induction l as [|w l IH]; intros Hl; cbn [read_fds]; [by eexists|].
  destruct (Hl w) as [x Hx]; [by left|]. destruct (proj1 (wf_channels _ (proj1 Hf)) w x Hx) as [ch Hch].
  destruct IH as [r Hr]; [intros; apply Hl; by right|].
  rewrite (at_ptr_Some _ _ _ Hx), outcome_bind_ret, (at_ptr_Some _ _ _ Hch), outcome_bind_ret, Hr. by eexists.
Qed.

Lemma prepare_loop_spec h tv l n : (∀ t, t ∈ l → is_Some (h !! t)) → ∃ r, prepare_loop h tv l n = Ret r.
Proof.
  revert n. induction l as [|t l IH]; intros n Hl; cbn [prepare_loop]; [by eexists|].
  destruct (Hl t) as [x Hx]; [by left|]. rewrite (at_ptr_Some _ _ _ Hx), outcome_bind_ret. apply IH. intros. apply Hl. by right.
Qed.

Lemma prepare_fine s : fine s → ∃ n, timeout_handlers_prepare s = Ret (set_next_timeout n s) ∧ fine (set_next_timeout n s).
Proof.
  intros Hf. unfold timeout_handlers_prepare.
  destruct (prepare_loop_spec (timeout_at s) (now s) (current (timeouts (context s))) LONG_MAX) as [r ->]; [intros t Ht; eapply src_ok_current; [apply Hf|done]|].
  rewrite outcome_bind_ret. eexists. split; [done|]. by apply (fine_rest s).
Qed.

Lemma iterate_spec open_max p s : fine s → locks s = (false, false, false) →
  ∃ r, iterate malloc destroy_notify program open_max p s = Ret r ∧
    match r with
    | None => open_max < Z.of_nat (length (current (io_watches (context s))))
    | Some s' => fine s' ∧ locks s' = (false, false, false)
    end.
Proof.
  intros Hf El. unfold iterate. cbn zeta. destruct (Z.ltb_spec open_max (Z.of_nat (length (current (io_watches (context s)))))) as [Hlt|_]; [by exists None|].
  destruct (read_fds_spec s (current (io_watches (context s))) Hf) as [r ->]; [intros w Hw; eapply src_ok_current; [apply Hf|done]|]. rewrite outcome_bind_ret.
  destruct (cells_fine s [] Hf) as (h & -> & Hf1 & _). rewrite outcome_bind_ret. destruct (prepare_fine _ Hf1) as (n & -> & Hf2). rewrite outcome_bind_ret.
  set (s2 := set_exited _ _). assert (fine s2) as Hf3 by (by apply (fine_rest (set_next_timeout n (set_watch_at h s)))).
  destruct (poll_ret p <? 0); [exists (Some s2); split; [done|]; by split|].
  destruct (cells_fine s2 (poll_revents p) Hf3) as (h2 & E2 & Hf4 & Hc4). change (current (io_watches (context s2))) with (current (io_watches (context s))) in E2.
  rewrite E2, outcome_bind_ret.
  destruct (dispatch_watches_spec _ Hf4 El Hc4) as (s5 & -> & Hf5 & El5). rewrite outcome_bind_ret.
  destruct (timeout_handlers_check_spec _ Hf5 El5) as (s6 & -> & Hf6 & El6). rewrite outcome_bind_ret. by exists (Some s6).
Qed.

(** It stops with [abort()] only if there are more watches than descriptors. *)
Definition outcome_ok (open_max : Z) (r : option (state A)) : Prop :=
  match r with
  | None => ∃ s, wf s ∧ I s ∧ open_max < Z.of_nat (length (current (io_watches (context s))))
  | Some s => wf s ∧ I s ∧ locks s = (false, false, false)
  end.

Lemma run_loop_spec open_max ps s : fine s → locks s = (false, false, false) →
  ∃ r, run_loop malloc destroy_notify program open_max ps s = Ret r ∧ outcome_ok open_max r.
Proof.
  revert s. induction ps as [|p ps IH]; intros s Hf El; cbn [run_loop]; [exists (Some s); split; [done|]; by destruct Hf|].
  destruct (is_running s); [|exists (Some s); split; [done|]; by destruct Hf].
  destruct (iterate_spec open_max p s Hf El) as ([s1|] & -> & H1); rewrite outcome_bind_ret; [by apply IH; apply H1|].
  exists None. split; [done|]. exists s. by destruct Hf.
Qed.

End client.

(** * An allocator and a program *)

(** The first number that is not, in its lower 32 bits, in use. *)
Definition first_fit (X : gset Z) : Z :=
  let R : gset Z := set_map (λ a, a mod 2 ^ 32) X in
  default 0 (head (filter (λ k, k ∉ R) (seqZ 1 (Z.of_nat (size X) + 1)))).

#[export] Instance first_fit_allocator : Allocator first_fit.
Proof.
  intros X a Hs Ha. unfold first_fit. set (R := set_map (λ a, a mod 2 ^ 32) X : gset Z). set (l := seqZ 1 (Z.of_nat (size X) + 1)).
  assert (size R ≤ size X)%nat as HR.
  { subst R. clear. induction X as [|x X Hx IH] using set_ind_L; [by rewrite set_map_empty|].
    rewrite set_map_union_L, set_map_singleton_L, (size_union {[x]} X), size_singleton by set_solver.
    pose proof (size_add_one ({[x mod 2 ^ 32]} ∪ set_map (λ a, a mod 2 ^ 32) X : gset Z) (set_map (λ a, a mod 2 ^ 32) X) (x mod 2 ^ 32) ltac:(done)). lia. }
  destruct (filter (λ k, k ∉ R) l) as [|k l'] eqn:E; cbn [head default].
  - exfalso. assert (∀ k, k ∈ l → k ∈ R) as Hl.
    { intros k Hk. destruct (decide (k ∈ R)); [done|]. assert (k ∈ filter (λ k, k ∉ R) l) as Hin by (by apply list_elem_of_filter). rewrite E in Hin. by apply elem_of_nil in Hin. }
    assert (size (list_to_set l : gset Z) ≤ size R)%nat as Hsz by (apply subseteq_size; set_solver).
    rewrite size_list_to_set in Hsz by apply NoDup_seqZ. subst l. rewrite length_seqZ in Hsz. lia.
  - assert (k ∈ filter (λ k, k ∉ R) l) as Hk by (rewrite E; by left). apply list_elem_of_filter in Hk as [Hk Hkl].
    apply elem_of_seqZ in Hkl. rewrite to_i32_zero. intros Hz. apply Hk. subst R. apply elem_of_map. exists a. split; [|done].
    apply Z.mod_divide in Hz as [q Hq]; [|done]. unfold id in Hq.
    rewrite <- (Z.mod_small k (2 ^ 32)) by lia. replace k with (a + q * 2 ^ 32) by lia. by rewrite Z.mod_add.
Qed.

(** A program that keeps adding a timeout, as often as the number it keeps says,
    and removes the source that its data names, which may be the one it was
    called for; the functions of its watches ask for their descriptor. *)
Definition respawn (c : call) (n : Z) : prog Z :=
  match c with
  | CallTimeout _ d => if 0 <? n then Do (Keep (n - 1)) (λ _, Do (TimeoutAdd 1000 0 (d + 1)) (λ _, Do (SourceRemove d) (λ _, Return true))) else Return false
  | CallWatch _ c _ _ => Do (GetFd c) (λ _, Return false)
  | CallChild _ _ _ _ => Return true
  end.

Definition few (s : state Z) : Prop := 0 ≤ app s ∧ Z.of_nat (size (live s)) + app s ≤ 1000.

#[export] Instance respawn_client : Client first_fit (λ _ _ n, n) respawn few.
Proof.
  assert (∀ s : state Z, few s → room 2 s) as Hroom by (unfold few, room; intros s []; lia).
  split.
  - intros c s Hwf Hc HI. destruct c; cbn [respawn prog_ok]; [| |done].
    + destruct (Z.ltb_spec 0 (app s)); [|done]. cbn [prog_ok]. split; [by split; [apply Hroom|]|]. intros r1 s1' [= _ <-].
      set (s1 := set_app (app s - 1) s). assert (wf s1) as Hwf1 by (by apply (good_same s s1)).
      assert (room 2 s1) as Hr1 by (apply Hroom; destruct HI; split; cbn; [lia|]; change (live s1) with (live s); lia).
      split; [done|]. intros r2 s2 E2. assert (s2 = (g_timeout_add first_fit 1000 0 (data + 1) s1).2) as Es by (by injection E2).
      destruct (timeout_add_spec first_fit (λ _ _ n, n) 1000 0 (data + 1) s1 Hwf1 ltac:(by eapply room_le)) as [Hwf2 _]. rewrite <- Es in Hwf2.
      assert (few s2) as HI2.
      { destruct HI as [HI1 HI2]. assert (app s2 = app s - 1) as Ea by (by rewrite Es). split; [lia|]. rewrite Ea.
        enough (size (live s2) ≤ S (size (live s)))%nat by lia. apply (size_add_one _ _ (first_fit (live s))). rewrite Es. unfold live. cbn. rewrite dom_insert. set_solver. }
      clear Es E2. split; [by split; [apply Hroom|]|]. intros r s3 E3. cbn [run_action] in E3. apply outcome_bind_Ret_inv in E3 as ([b s4] & E3 & [= _ <-]).
      destruct (source_remove_spec first_fit (λ _ _ n, n) data s2 Hwf2) as (b' & s4' & E4 & _ & Hl & Ha). rewrite E3 in E4. injection E4 as <- <-.
      apply subseteq_size in Hl. unfold few in *. cbn. destruct Ha as [->|(d & x & ->)]; lia.
    + destruct Hc as (w & x & Hx & _ & Hch & _). split; [split; [by apply Hroom|]|].
      * rewrite <- Hch. by eapply (proj1 (wf_channels _ Hwf)).
      * intros r s1 E. apply outcome_bind_Ret_inv in E as (n & _ & [= _ <-]). done.
  - intros s s' Hwf [H1 H2] _ [Hl%subseteq_size _ Ha]. unfold few. destruct Ha as [->|(d & x & ->)]; lia.
Qed.

(** Three timeouts, two of which name the third, a channel with a watch, which
    holds the only reference, and a child. *)
Definition no_sources : state Z := State g_main_context_default ∅ ∅ ∅ ∅ (Timeval 0 0) false None ∅ [] 5.
Definition setup : prog Z :=
  Do (TimeoutAdd 10 0 3) (λ _, Do (TimeoutAdd 20 0 3) (λ _, Do (TimeoutAdd 30 0 1) (λ _,
  Do (ChannelNew 7) (λ c, Do (AddWatch c G_IO_IN 1 0) (λ _, Do (SetCloseOnUnref c true) (λ _, Do (ChannelUnref c) (λ _,
  Do (ChildWatchAdd 9 100 2 0) (λ _, Return true)))))))).
Definition with_sources : outcome (bool * state Z) := run_prog first_fit (λ _ _ n, n) setup no_sources.

Lemma src_ok_empty {X} : src_ok (∅ : gmap Z X) (Sources [] [] false).
Proof. split; [constructor|]. split; [|done]. intros a. cbn. by rewrite dom_empty, elem_of_empty, elem_of_nil. Qed.

Lemma setup_ok : ∃ b s, with_sources = Ret (b, s) ∧ wf s ∧ few s ∧ locks s = (false, false, false).
Proof.
  destruct (run_prog_spec first_fit (λ _ _ n, n) few setup no_sources) as (b & s & E & [Hwf He] & HI).
  - split; try apply src_ok_empty; [| |split; constructor|].
    + intros a b Ha. unfold live in Ha. cbn in Ha. rewrite !dom_empty_L in Ha. set_solver.
    + intros w x Hx. case (lookup_empty_Some (M:=gmap Z) _ _ Hx).
    + split; [intros w x Hx|intros c ch Hx]; case (lookup_empty_Some (M:=gmap Z) _ _ Hx).
  - cbn [setup prog_ok]. unfold action_ok, room.
    repeat (split; [split; [by vm_compute|]; try done|intros ? ? E; vm_compute in E; injection E as <- <-]).
    + eexists. by split.
    + by split.
  - exists b, s. split; [exact E|]. split; [done|]. split; [done|]. by rewrite (evolves_locks _ _ He).
Qed.

