(* ===== verification/GMainSpec.v ===== *)
(** utils/eglib/gmain.c, the main loop: its timing. The loop sleeps until the
    next timeout is due, to the millisecond, and a pass over the timeouts calls
    those that are due, in the order of the list, and sets the clock of those
    that are kept. *)

From stdpp Require Import base list numbers gmap sorting.
From Stdlib Require Import ZArith Lia.
From S2P Require Import Prelude CString SdpTypes SdpList Heap GSList GMain GMainSafe.

Local Open Scope Z_scope.

(** * Times *)

(** A time in microseconds. *)
Definition micros (tv : timeval) : Z := tv_sec tv * 1000000 + tv_usec tv.
Definition time_ok (tv : timeval) : Prop := 0 ≤ tv_sec tv < 2 ^ 31 ∧ 0 ≤ tv_usec tv < 1000000.

Lemma expires_micros tv i : micros (expires tv i) = micros tv + 1000 * i.
Proof. unfold micros, expires. cbn zeta. destruct (_ <=? _); cbn [tv_sec tv_usec]; lia. Qed.

Lemma expires_normal tv i : 0 ≤ tv_usec tv < 1000000 → 0 ≤ tv_usec (expires tv i) < 1000000.
Proof.
  unfold expires. cbn zeta. intros Hu. pose proof (Z.mod_pos_bound i 1000 ltac:(done)). pose proof (Z.div_mod i 1000 ltac:(done)).
  destruct (Z.leb_spec 1000000 (tv_usec tv + (i - i / 1000 * 1000) * 1000)); cbn [tv_usec]; lia.
Qed.

Lemma timer_lt_micros a b : 0 ≤ tv_usec a < 1000000 → 0 ≤ tv_usec b < 1000000 → timer_lt a b = (micros a <? micros b).
Proof.
  unfold timer_lt, micros. intros Ha Hb. destruct (Z.eqb_spec (tv_sec a) (tv_sec b)) as [E|E]; [rewrite E|];
    apply eq_true_iff_eq; rewrite !Z.ltb_lt; lia.
Qed.

(** The milliseconds left are right to less than one. *)
Lemma remaining_bounds tv e : time_ok tv → time_ok e →
  let left := Z.max 0 (micros e - micros tv) in left - 1000 < 1000 * remaining tv e < left + 1000 ∧ 0 ≤ remaining tv e < 2 ^ 42.
Proof.
  unfold time_ok, remaining, micros. intros [Hs Hu] [Hs' Hu']. cbn zeta.
  pose proof (Z.quot_rem' (tv_usec e - tv_usec tv) 1000). pose proof (Z.rem_bound_abs (tv_usec e - tv_usec tv) 1000 ltac:(done)).
  pose proof (Z.quot_abs_l (tv_usec e - tv_usec tv) 1000).
  destruct (Z.ltb_spec ((tv_sec e - tv_sec tv) * 1000 + Z.quot (tv_usec e - tv_usec tv) 1000) 0); lia.
Qed.

(** * How long the loop sleeps *)

Section timing.
Context {A : Type}.
Implicit Types s : state A.

Lemma prepare_loop_min h tv (l : list (Z * timeout)) n : (∀ t x, (t, x) ∈ l → h !! t = Some x) →
  prepare_loop h tv l.*1 n = Ret (foldl (λ n p, if n <? remaining tv (expiration p.2) then n else remaining tv (expiration p.2)) n l).
Proof.
  revert n. induction l as [|[t x] l IH]; intros n Hl; cbn [prepare_loop fmap list_fmap foldl]; [done|].
  cbn [fst snd]. rewrite (at_ptr_Some _ _ x), outcome_bind_ret by (apply Hl; by left). apply IH. intros. apply Hl. by right.
Qed.

Lemma foldl_min (f : Z * timeout → Z) l n : let m := foldl (λ n p, if n <? f p then n else f p) n l in
  m ≤ n ∧ (∀ p, p ∈ l → m ≤ f p) ∧ (m = n ∨ ∃ p, p ∈ l ∧ m = f p).
Proof.
  revert n. induction l as [|p l IH]; intros n; cbn [foldl]; [split; [done|]; split; [by intros p ?%elem_of_nil|by left]|].
  destruct (IH (if n <? f p then n else f p)) as (H1 & H2 & H3). cbn zeta. set (m := foldl _ _ l) in *.
  destruct (Z.ltb_spec n (f p)); (split; [lia|]; split; [intros q [->|Hq]%elem_of_cons; [lia|by apply H2]|]).
  - destruct H3 as [H3|(q & Hq & H3)]; [by left|right; exists q; split; [by right|done]].
  - right. destruct H3 as [H3|(q & Hq & H3)]; [exists p; split; [by left|done]|exists q; split; [by right|done]].
Qed.

Lemma prepare_spec l s : timeouts (context s) = Sources l.*1 [] false → (∀ t x, (t, x) ∈ l → timeout_at s !! t = Some x) →
  time_ok (now s) → (∀ t x, (t, x) ∈ l → time_ok (expiration x)) →
  ∃ n, timeout_handlers_prepare s = Ret (set_next_timeout n s) ∧
    match l with
    | [] => n = -1
    | _ => 0 ≤ n ∧ (∀ t x, (t, x) ∈ l → 1000 * n < Z.max 0 (micros (expiration x) - micros (now s)) + 1000) ∧
           ∃ t x, (t, x) ∈ l ∧ Z.max 0 (micros (expiration x) - micros (now s)) - 1000 < 1000 * n
    end.
Proof.
  intros El Hl Hnow Hexp. unfold timeout_handlers_prepare. rewrite El. cbn [current].
  rewrite (prepare_loop_min (timeout_at s) (now s) l) by done. rewrite outcome_bind_ret. eexists. split; [done|].
  destruct (foldl_min (λ p, remaining (now s) (expiration p.2)) l LONG_MAX) as (H1 & H2 & H3). cbn zeta in *. set (m := foldl _ _ l) in *.
  destruct l as [|[t x] l]; [done|]. pose proof (remaining_bounds _ _ Hnow (Hexp t x ltac:(by left))) as [_ Hb]. pose proof (H2 (t, x) ltac:(by left)) as Hm. cbn [snd] in Hm.
  assert (m < LONG_MAX) as Hlt by (unfold LONG_MAX; lia). destruct (Z.eqb_spec m LONG_MAX); [lia|].
  destruct H3 as [H3|([t' x'] & Hin & H3)]; [lia|]. cbn [snd] in H3. pose proof (remaining_bounds _ _ Hnow (Hexp t' x' Hin)) as [Hb1 Hb2]. cbn zeta in Hb1.
  split; [lia|]. split; [|exists t', x'; split; [done|lia]].
  intros u y Hu. pose proof (H2 (u, y) Hu) as Hmu. pose proof (remaining_bounds _ _ Hnow (Hexp u y Hu)) as [Hu1 _]. cbn in *. lia.
Qed.
End timing.

(** * Which timeouts are called *)

(** The set clock. *)
Definition renewed (tv : timeval) (x : timeout) : timeout := Timeout (t_id x) (interval x) (expires tv (interval x)) (t_function x) (t_data x).

(** The timeouts left, and what the program keeps, after every timeout that is
    due at [tv] was called in turn. *)
Fixpoint due_pass {A} (step : Z → Z → A → bool * A) (tv : timeval) (l : list (Z * timeout)) (a : A) : list (Z * timeout) * A :=
  match l with
  | [] => ([], a)
  | (t, x) :: l =>
      if timer_lt tv (expiration x) then let '(ks, a) := due_pass step tv l a in ((t, x) :: ks, a)
      else
        let '(ret, a) := step (t_function x) (t_data x) a in
        let '(ks, a) := due_pass step tv l a in
        (if ret then (t, renewed tv x) :: ks else ks, a)
  end.

Lemma list_to_map_middle {X} (l1 l2 : list (Z * X)) t x : NoDup (l1 ++ (t, x) :: l2).*1 →
  (list_to_map (l1 ++ (t, x) :: l2) : gmap Z X) = <[t := x]> (list_to_map (l1 ++ l2)) ∧ (list_to_map (l1 ++ l2) : gmap Z X) !! t = None ∧ NoDup (l1 ++ l2).*1.
Proof.
  intros Hn. assert (l1 ++ (t, x) :: l2 ≡ₚ (t, x) :: l1 ++ l2) as Hp by (symmetry; apply Permutation_middle).
  rewrite (list_to_map_proper _ _ Hn Hp). rewrite Hp in Hn. cbn in Hn. apply NoDup_cons in Hn as [Ht Hn].
  split; [done|]. split; [|done]. by apply not_elem_of_list_to_map.
Qed.

Section pass.
Context {A : Type} (malloc : gset Z → Z) (destroy_notify : Z → Z → A → A) (program : call → A → prog A) (step : Z → Z → A → bool * A).
(** The functions of the timeouts leave the sources alone. *)
Hypothesis quiet : ∀ f d a, program (CallTimeout f d) a = Do (Keep (step f d a).2) (λ _, Return (step f d a).1).
Implicit Types s : state A.

Definition after_pass (ks : list (Z * timeout)) (l : sources) (a : A) s : state A :=
  set_timeouts l (set_timeout_at (list_to_map ks) (set_app a s)).

Lemma check_loop_pass tv p l lk s : NoDup (p ++ l).*1 → timeout_at s = list_to_map (p ++ l) →
  timeouts (context s) = Sources l.*1 p.*1 lk →
  check_loop malloc destroy_notify program (length l) tv s =
    Ret (let '(ks, a) := due_pass step tv l (app s) in after_pass (p ++ ks) (Sources [] (p ++ ks).*1 lk) a s).
Proof using quiet.
  revert p s. induction l as [|[t x] l IH]; intros p s Hn Hh El; cbn [length check_loop due_pass]; rewrite El; cbn [current fmap list_fmap fst].
  { f_equal. destruct s as [c]. cbn in *. unfold after_pass. cbn. rewrite Hh. destruct c. cbn in El. rewrite El, app_nil_r. done. }
  destruct (list_to_map_middle p l t x Hn) as (Hm & Hnone & Hn').
  assert (∀ y s', timeout_at s' = <[t := y]> (list_to_map (p ++ l)) → timeouts (context s') = Sources (t :: l.*1) p.*1 lk →
    check_loop malloc destroy_notify program (length l) tv (take_timeout t true s') =
    Ret (let '(ks, a) := due_pass step tv l (app s') in after_pass (p ++ (t, y) :: ks) (Sources [] (p ++ (t, y) :: ks).*1 lk) a s')) as Hkeep.
  { intros y s' Hh' El'. rewrite (take_timeout_eq t l.*1) by (by rewrite El'). rewrite El'. cbn [proc lock].
    assert (NoDup ((p ++ [(t, y)]) ++ l).*1) as Hn2 by (rewrite <- app_assoc; revert Hn; by rewrite !fmap_app).
    rewrite (IH (p ++ [(t, y)]) (set_timeouts _ s') Hn2); [|cbn; rewrite Hh', <- app_assoc|by rewrite fmap_app].
    - change (app (set_timeouts _ s')) with (app s'). destruct (due_pass step tv l (app s')) as [ks a]. by rewrite <- !app_assoc.
    - symmetry. apply (list_to_map_middle p l t y). revert Hn. by rewrite !fmap_app. }
  rewrite (at_ptr_Some _ _ x), outcome_bind_ret by (by rewrite Hh, Hm, lookup_insert_eq).
  destruct (timer_lt tv (expiration x)).
  { rewrite (Hkeep x s) by (by rewrite ?Hh, ?El). by destruct (due_pass step tv l (app s)). }
  unfold invoke. rewrite quiet. cbn [run_prog run_action]. rewrite !outcome_bind_ret. cbn [fst snd].
  destruct (step (t_function x) (t_data x) (app s)) as [ret a1] eqn:Es. cbn [fst snd].
  change (timeouts (context (set_app a1 s))) with (timeouts (context s)). rewrite El. cbn [current].
  assert (still_listed ((t, x) :: l).*1 t = true) as -> by (unfold still_listed, ptr_cmp; cbn; by rewrite Z.sub_diag). cbn [negb].
  destruct ret; cbn [negb].
  - rewrite (at_ptr_Some _ _ x), outcome_bind_ret by (cbn; by rewrite Hh, Hm, lookup_insert_eq). cbn zeta. fold (renewed tv x).
    rewrite (Hkeep (renewed tv x)); [|cbn; by rewrite Hh, Hm, insert_insert_eq|done].
    change (app (set_timeout_at _ (set_app a1 s))) with a1. by destruct (due_pass step tv l a1).
  - rewrite (take_timeout_eq t l.*1) by (cbn; by rewrite El). cbn zeta.
    change (timeouts (context (set_app a1 s))) with (timeouts (context s)). rewrite El. cbn [proc lock].
    rewrite (IH p); [|done|cbn; by rewrite Hh, Hm, delete_insert_id|done].
    change (app (set_timeout_at _ (set_timeouts _ (set_app a1 s)))) with a1. by destruct (due_pass step tv l a1).
Qed.
End pass.

(** Three timeouts, one to come and two due, of which the second is kept. *)
Definition count_calls (f d n : Z) : bool * Z := (0 <? d, n + 1).
Definition counting (c : call) (n : Z) : prog Z :=
  match c with CallTimeout f d => Do (Keep (count_calls f d n).2) (λ _, Return (count_calls f d n).1) | _ => Return true end.
Definition three : list (Z * timeout) :=
  [(1, Timeout 1 10 (Timeval 9 0) 0 0); (2, Timeout 2 20 (Timeval 3 500) 0 0); (3, Timeout 3 999 (Timeval 5 1000) 0 1)].
Definition with_three : state Z :=
  State (Context 4 0 (Sources [1; 2; 3] [] false) (Sources [] [] false) (Sources [] [] false)) (list_to_map three) ∅ ∅ ∅
    (Timeval 5 1500) true None ∅ [] 0.

