(* ===== verification/Avdtp.v ===== *)
(** utils/audio/avdtp.c: a signalling session. The packets of a message, the
    commands of the other device, the requests of this one with their queues and
    responses, and the stream end points and streams they act on. This file is
    the model; AvdtpFrame, AvdtpAcceptor, AvdtpSafe, AvdtpTable and AvdtpPair
    are about it. *)

From stdpp Require Import base list numbers gmap.
From Stdlib Require Import ZArith Lia.
From S2P Require Import Prelude CString SdpTypes SdpList Heap.

Local Open Scope Z_scope.

(** * Constants *)

Definition MAX_SEID : Z := 62.

Definition AVDTP_DISCOVER : Z := 1.
Definition AVDTP_GET_CAPABILITIES : Z := 2.
Definition AVDTP_SET_CONFIGURATION : Z := 3.
Definition AVDTP_GET_CONFIGURATION : Z := 4.
Definition AVDTP_RECONFIGURE : Z := 5.
Definition AVDTP_OPEN : Z := 6.
Definition AVDTP_START : Z := 7.
Definition AVDTP_CLOSE : Z := 8.
Definition AVDTP_SUSPEND : Z := 9.
Definition AVDTP_ABORT : Z := 10.
Definition AVDTP_SECURITY_CONTROL : Z := 11.

Definition AVDTP_PKT_TYPE_SINGLE : Z := 0.
Definition AVDTP_PKT_TYPE_START : Z := 1.
Definition AVDTP_PKT_TYPE_CONTINUE : Z := 2.
Definition AVDTP_PKT_TYPE_END : Z := 3.

Definition AVDTP_MSG_TYPE_COMMAND : Z := 0.
Definition AVDTP_MSG_TYPE_GENERAL_REJECT : Z := 1.
Definition AVDTP_MSG_TYPE_ACCEPT : Z := 2.
Definition AVDTP_MSG_TYPE_REJECT : Z := 3.

Definition AVDTP_MEDIA_TRANSPORT : Z := 1.
Definition AVDTP_MEDIA_CODEC : Z := 7.

Definition AVDTP_BAD_LENGTH : Z := 17.
Definition AVDTP_BAD_ACP_SEID : Z := 18.
Definition AVDTP_SEP_IN_USE : Z := 19.
Definition AVDTP_BAD_MEDIA_TRANSPORT_FORMAT : Z := 35.
Definition AVDTP_UNSUPPORTED_CONFIGURATION : Z := 41.
Definition AVDTP_BAD_STATE : Z := 49.

Definition AVDTP_SEP_TYPE_SOURCE : Z := 0.
Definition AVDTP_SEP_TYPE_SINK : Z := 1.

Definition EIO : Z := 5.
Definition EACCES : Z := 13.
Definition EBUSY : Z := 16.
Definition EINVAL : Z := 22.
Definition ENOTCONN : Z := 107.
Definition ETIMEDOUT : Z := 110.

(** * Data *)

Inductive avdtp_state :=
  | AVDTP_STATE_IDLE | AVDTP_STATE_CONFIGURED | AVDTP_STATE_OPEN | AVDTP_STATE_STREAMING | AVDTP_STATE_CLOSING | AVDTP_STATE_ABORTING.
#[export] Instance avdtp_state_eq_dec : EqDecision avdtp_state.
Proof. solve_decision. Defined.

(** The value of the enumerator. *)
Definition state_num (st : avdtp_state) : Z :=
  match st with
  | AVDTP_STATE_IDLE => 0 | AVDTP_STATE_CONFIGURED => 1 | AVDTP_STATE_OPEN => 2
  | AVDTP_STATE_STREAMING => 3 | AVDTP_STATE_CLOSING => 4 | AVDTP_STATE_ABORTING => 5
  end.

Inductive session_state := AVDTP_SESSION_STATE_DISCONNECTED | AVDTP_SESSION_STATE_CONNECTING | AVDTP_SESSION_STATE_CONNECTED.
#[export] Instance session_state_eq_dec : EqDecision session_state.
Proof. solve_decision. Defined.

Inductive avdtp_error := AVDTP_ERROR_ERRNO (posix_errno : Z) | AVDTP_ERROR_ERROR_CODE (error_code : Z).

(** A capability; its length is that of its data. *)
Record capability := Cap { category : Z; cap_data : list Z }.
Definition cap_length (c : capability) : Z := Z.of_nat (length (cap_data c)).
Definition cap_bytes (c : capability) : list Z := category c :: cap_length c :: cap_data c.

Record in_buf := InBuf { active : bool; no_of_packets : Z; in_transaction : Z; in_message_type : Z; in_signal_id : Z; buf : list Z; data_size : Z }.

(** The timer of a request runs while it is the one being answered. *)
Record pending_req := Req { r_transaction : Z; r_signal_id : Z; r_data : list Z; r_stream : option Z }.

Record remote_sep := RemoteSep {
  rs_seid : Z; rs_type : Z; rs_media_type : Z; rs_codec : option capability; rs_caps : list capability; rs_stream : option Z
}.

Record local_sep := LocalSep {
  state : avdtp_state; ls_stream : option Z; seid : Z; inuse : bool; ls_type : Z; ls_media_type : Z; ls_codec : Z
}.

(** What the timer of a stream waits for. *)
Inductive stream_timer := OpenTimeout | CloseTimeout.
#[export] Instance stream_timer_eq_dec : EqDecision stream_timer.
Proof. solve_decision. Defined.

Record stream := Stream {
  s_sock : Z; s_lsep : Z; rseid : Z; s_caps : list capability; s_codec : option capability; s_io : bool;
  s_timer : option stream_timer; open_acp : bool; close_int : bool; idle_timer : bool
}.

(** A session, the stream end points and streams in memory, and what goes on
    around: the packets sent, whether the next calls of [send] and of
    [l2cap_connect] succeed (they do when nothing is said), the sockets closed,
    and what the layers above keep. *)
Record avdtp (U : Type) := Avdtp {
  sock : Z; sstate : session_state; imtu : Z; omtu : Z;
  inb : in_buf; req : option pending_req; req_queue : list pending_req; prio_queue : list pending_req;
  pending_open : option Z; streams : list Z; seps : list remote_sep; discovering : bool;
  io : bool; transaction : Z; stream_at : gmap Z stream; sep_at : gmap Z local_sep;
  local_seps : list Z; free_seid : Z; sent : list (list Z); faults : list bool;
  connects : list bool; closed_socks : list Z; upper : U
}.
Arguments Avdtp {U}.
Arguments sock {U}. Arguments sstate {U}. Arguments imtu {U}. Arguments omtu {U}. Arguments inb {U}. Arguments req {U}. Arguments req_queue {U}. Arguments prio_queue {U}.
Arguments pending_open {U}. Arguments streams {U}. Arguments seps {U}. Arguments discovering {U}. Arguments io {U}. Arguments transaction {U}. Arguments stream_at {U}. Arguments sep_at {U}.
Arguments local_seps {U}. Arguments free_seid {U}. Arguments sent {U}. Arguments faults {U}. Arguments connects {U}. Arguments closed_socks {U}. Arguments upper {U}.

Section setters.
Context {U : Type}.
Implicit Types s : avdtp U.
Definition set_sock v s := Avdtp v (sstate s) (imtu s) (omtu s) (inb s) (req s) (req_queue s) (prio_queue s) (pending_open s) (streams s) (seps s) (discovering s) (io s) (transaction s) (stream_at s) (sep_at s) (local_seps s) (free_seid s) (sent s) (faults s) (connects s) (closed_socks s) (upper s).
Definition set_sstate v s := Avdtp (sock s) v (imtu s) (omtu s) (inb s) (req s) (req_queue s) (prio_queue s) (pending_open s) (streams s) (seps s) (discovering s) (io s) (transaction s) (stream_at s) (sep_at s) (local_seps s) (free_seid s) (sent s) (faults s) (connects s) (closed_socks s) (upper s).
Definition set_imtu v s := Avdtp (sock s) (sstate s) v (omtu s) (inb s) (req s) (req_queue s) (prio_queue s) (pending_open s) (streams s) (seps s) (discovering s) (io s) (transaction s) (stream_at s) (sep_at s) (local_seps s) (free_seid s) (sent s) (faults s) (connects s) (closed_socks s) (upper s).
Definition set_omtu v s := Avdtp (sock s) (sstate s) (imtu s) v (inb s) (req s) (req_queue s) (prio_queue s) (pending_open s) (streams s) (seps s) (discovering s) (io s) (transaction s) (stream_at s) (sep_at s) (local_seps s) (free_seid s) (sent s) (faults s) (connects s) (closed_socks s) (upper s).
Definition set_inb v s := Avdtp (sock s) (sstate s) (imtu s) (omtu s) v (req s) (req_queue s) (prio_queue s) (pending_open s) (streams s) (seps s) (discovering s) (io s) (transaction s) (stream_at s) (sep_at s) (local_seps s) (free_seid s) (sent s) (faults s) (connects s) (closed_socks s) (upper s).
Definition set_req v s := Avdtp (sock s) (sstate s) (imtu s) (omtu s) (inb s) v (req_queue s) (prio_queue s) (pending_open s) (streams s) (seps s) (discovering s) (io s) (transaction s) (stream_at s) (sep_at s) (local_seps s) (free_seid s) (sent s) (faults s) (connects s) (closed_socks s) (upper s).
Definition set_req_queue v s := Avdtp (sock s) (sstate s) (imtu s) (omtu s) (inb s) (req s) v (prio_queue s) (pending_open s) (streams s) (seps s) (discovering s) (io s) (transaction s) (stream_at s) (sep_at s) (local_seps s) (free_seid s) (sent s) (faults s) (connects s) (closed_socks s) (upper s).
Definition set_prio_queue v s := Avdtp (sock s) (sstate s) (imtu s) (omtu s) (inb s) (req s) (req_queue s) v (pending_open s) (streams s) (seps s) (discovering s) (io s) (transaction s) (stream_at s) (sep_at s) (local_seps s) (free_seid s) (sent s) (faults s) (connects s) (closed_socks s) (upper s).
Definition set_pending_open v s := Avdtp (sock s) (sstate s) (imtu s) (omtu s) (inb s) (req s) (req_queue s) (prio_queue s) v (streams s) (seps s) (discovering s) (io s) (transaction s) (stream_at s) (sep_at s) (local_seps s) (free_seid s) (sent s) (faults s) (connects s) (closed_socks s) (upper s).
Definition set_streams v s := Avdtp (sock s) (sstate s) (imtu s) (omtu s) (inb s) (req s) (req_queue s) (prio_queue s) (pending_open s) v (seps s) (discovering s) (io s) (transaction s) (stream_at s) (sep_at s) (local_seps s) (free_seid s) (sent s) (faults s) (connects s) (closed_socks s) (upper s).
Definition set_seps v s := Avdtp (sock s) (sstate s) (imtu s) (omtu s) (inb s) (req s) (req_queue s) (prio_queue s) (pending_open s) (streams s) v (discovering s) (io s) (transaction s) (stream_at s) (sep_at s) (local_seps s) (free_seid s) (sent s) (faults s) (connects s) (closed_socks s) (upper s).
Definition set_discovering v s := Avdtp (sock s) (sstate s) (imtu s) (omtu s) (inb s) (req s) (req_queue s) (prio_queue s) (pending_open s) (streams s) (seps s) v (io s) (transaction s) (stream_at s) (sep_at s) (local_seps s) (free_seid s) (sent s) (faults s) (connects s) (closed_socks s) (upper s).
Definition set_io v s := Avdtp (sock s) (sstate s) (imtu s) (omtu s) (inb s) (req s) (req_queue s) (prio_queue s) (pending_open s) (streams s) (seps s) (discovering s) v (transaction s) (stream_at s) (sep_at s) (local_seps s) (free_seid s) (sent s) (faults s) (connects s) (closed_socks s) (upper s).
Definition set_transaction v s := Avdtp (sock s) (sstate s) (imtu s) (omtu s) (inb s) (req s) (req_queue s) (prio_queue s) (pending_open s) (streams s) (seps s) (discovering s) (io s) v (stream_at s) (sep_at s) (local_seps s) (free_seid s) (sent s) (faults s) (connects s) (closed_socks s) (upper s).
Definition set_stream_at v s := Avdtp (sock s) (sstate s) (imtu s) (omtu s) (inb s) (req s) (req_queue s) (prio_queue s) (pending_open s) (streams s) (seps s) (discovering s) (io s) (transaction s) v (sep_at s) (local_seps s) (free_seid s) (sent s) (faults s) (connects s) (closed_socks s) (upper s).
Definition set_sep_at v s := Avdtp (sock s) (sstate s) (imtu s) (omtu s) (inb s) (req s) (req_queue s) (prio_queue s) (pending_open s) (streams s) (seps s) (discovering s) (io s) (transaction s) (stream_at s) v (local_seps s) (free_seid s) (sent s) (faults s) (connects s) (closed_socks s) (upper s).
Definition set_local_seps v s := Avdtp (sock s) (sstate s) (imtu s) (omtu s) (inb s) (req s) (req_queue s) (prio_queue s) (pending_open s) (streams s) (seps s) (discovering s) (io s) (transaction s) (stream_at s) (sep_at s) v (free_seid s) (sent s) (faults s) (connects s) (closed_socks s) (upper s).
Definition set_free_seid v s := Avdtp (sock s) (sstate s) (imtu s) (omtu s) (inb s) (req s) (req_queue s) (prio_queue s) (pending_open s) (streams s) (seps s) (discovering s) (io s) (transaction s) (stream_at s) (sep_at s) (local_seps s) v (sent s) (faults s) (connects s) (closed_socks s) (upper s).
Definition set_sent v s := Avdtp (sock s) (sstate s) (imtu s) (omtu s) (inb s) (req s) (req_queue s) (prio_queue s) (pending_open s) (streams s) (seps s) (discovering s) (io s) (transaction s) (stream_at s) (sep_at s) (local_seps s) (free_seid s) v (faults s) (connects s) (closed_socks s) (upper s).
Definition set_faults v s := Avdtp (sock s) (sstate s) (imtu s) (omtu s) (inb s) (req s) (req_queue s) (prio_queue s) (pending_open s) (streams s) (seps s) (discovering s) (io s) (transaction s) (stream_at s) (sep_at s) (local_seps s) (free_seid s) (sent s) v (connects s) (closed_socks s) (upper s).
Definition set_connects v s := Avdtp (sock s) (sstate s) (imtu s) (omtu s) (inb s) (req s) (req_queue s) (prio_queue s) (pending_open s) (streams s) (seps s) (discovering s) (io s) (transaction s) (stream_at s) (sep_at s) (local_seps s) (free_seid s) (sent s) (faults s) v (closed_socks s) (upper s).
Definition set_closed_socks v s := Avdtp (sock s) (sstate s) (imtu s) (omtu s) (inb s) (req s) (req_queue s) (prio_queue s) (pending_open s) (streams s) (seps s) (discovering s) (io s) (transaction s) (stream_at s) (sep_at s) (local_seps s) (free_seid s) (sent s) (faults s) (connects s) v (upper s).
Definition set_upper (v : U) s : avdtp U := Avdtp (sock s) (sstate s) (imtu s) (omtu s) (inb s) (req s) (req_queue s) (prio_queue s) (pending_open s) (streams s) (seps s) (discovering s) (io s) (transaction s) (stream_at s) (sep_at s) (local_seps s) (free_seid s) (sent s) (faults s) (connects s) (closed_socks s) v.
End setters.

(** The layers above, as the session calls them: capabilities, whether they
    agree to what the other device asks for (if not, an error code and, for a
    configuration, a category), confirmations of requests, changes of state, and
    the end of a discovery. *)
Record callbacks (U : Type) := Callbacks {
  get_capability : Z → U → (Z + list capability) * U;
  ind_set_configuration : Z → Z → list capability → U → option (Z * Z) * U;
  ind : Z → Z → Z → U → option Z * U;
  cfm : Z → Z → option Z → option avdtp_error → U → U;
  state_cb : Z → avdtp_state → avdtp_state → bool → U → U;
  discov_cb : list remote_sep → option avdtp_error → U → U
}.
Arguments get_capability {U}. Arguments ind_set_configuration {U}. Arguments ind {U}. Arguments cfm {U}.
Arguments state_cb {U}. Arguments discov_cb {U}.

Section session.
Context {U : Type} (malloc : gset Z → Z) (calls : callbacks U).
Implicit Types s : avdtp U.

Definition set_stream (st : Z) (x : stream) s : avdtp U := set_stream_at (<[st := x]> (stream_at s)) s.
Definition set_sep (l : Z) (x : local_sep) s : avdtp U := set_sep_at (<[l := x]> (sep_at s)) s.
Definition close_sock (fd : Z) s : avdtp U := set_closed_socks (closed_socks s ++ [fd]) s.

(** ** Sending *)

Definition try_send (data : list Z) s : bool * avdtp U :=
  match faults s with
  | false :: f => (false, set_faults f s)
  | f => (true, set_sent (sent s ++ [data]) (set_faults (tail f) s))
  end.

(** The first octet of every packet, and the one with the signal. *)
Definition header (transaction packet_type message_type : Z) : Z := message_type mod 4 + 4 * packet_type + 16 * (transaction mod 16).
Definition signal_octet (signal_id : Z) : Z := signal_id mod 64.

Fixpoint send_loop (fuel : nat) (transaction message_type : Z) (data : list Z) s : outcome (bool * avdtp U) :=
  match fuel with
  | O => NoFuel
  | S fuel =>
      let left := Z.of_nat (length data) in
      if left =? 0 then Ret (true, s)
      else
        let '(packet_type, to_copy) :=
          if omtu s <? left + 1 then (AVDTP_PKT_TYPE_CONTINUE, omtu s - 1) else (AVDTP_PKT_TYPE_END, left) in
        let '(ok, s) := try_send (header transaction packet_type message_type :: take (Z.to_nat to_copy) data) s in
        if ok : bool then send_loop fuel transaction message_type (drop (Z.to_nat to_copy) data) s else Ret (false, s)
  end.

(** The buffer of the session has room for [imtu] octets. *)
Definition avdtp_send (transaction message_type signal_id : Z) (data : list Z) s : outcome (bool * avdtp U) :=
  let len := Z.of_nat (length data) in
  if sock s <? 0 then Ret (false, s)
  else if 2 + len <=? omtu s then
    if imtu s <? 2 + len then Undef
    else Ret (try_send (header transaction AVDTP_PKT_TYPE_SINGLE message_type :: signal_octet signal_id :: data) s)
  else if omtu s <? 3 then Undef
  else if imtu s <? omtu s then Undef
  else
    let cont_fragments := (len - (omtu s - 3)) / (omtu s - 1) + 1 in
    let first := Z.to_nat (omtu s - 3) in
    let '(ok, s) := try_send (header transaction AVDTP_PKT_TYPE_START message_type :: to_u8 (cont_fragments + 1) :: signal_octet signal_id :: take first data) s in
    if ok : bool then send_loop (S (length data)) transaction message_type (drop first data) s else Ret (false, s).

(** ** Receiving *)

Inductive parse_result := PARSE_ERROR | PARSE_FRAGMENT | PARSE_SUCCESS.

(** The header of the packet is looked at; [None] is an error, else what is
    noted of the message and the payload. *)
Definition parse_header (pkt : list Z) (i : in_buf) : outcome (option (in_buf * list Z)) :=
  h ← rd8 pkt;
  let size := Z.of_nat (length pkt) in
  let transaction := Z.shiftr h 4 in
  let packet_type := Z.land (Z.shiftr h 2) 3 in
  let message_type := Z.land h 3 in
  if packet_type =? AVDTP_PKT_TYPE_SINGLE then
    if size <? 2 then Ret None
    else if active i then Ret None
    else
      sig ← rd8 (drop 1 pkt);
      Ret (Some (InBuf true 1 transaction message_type (Z.land sig 63) (buf i) 0, drop 2 pkt))
  else if packet_type =? AVDTP_PKT_TYPE_START then
    if size <? 3 then Ret None
    else if active i then Ret None
    else
      n ← rd8 (drop 1 pkt);
      sig ← rd8 (drop 2 pkt);
      Ret (Some (InBuf true n transaction message_type (Z.land sig 63) (buf i) 0, drop 3 pkt))
  else if packet_type =? AVDTP_PKT_TYPE_CONTINUE then
    if size <? 1 then Ret None
    else if negb (active i) then Ret None
    else if negb (in_transaction i =? transaction) then Ret None
    else if no_of_packets i <=? 1 then Ret None
    else Ret (Some (i, drop 1 pkt))
  else
    if size <? 1 then Ret None
    else if negb (active i) then Ret None
    else if negb (in_transaction i =? transaction) then Ret None
    else if 1 <? no_of_packets i then Ret None
    else Ret (Some (i, drop 1 pkt)).

Definition avdtp_parse_data (pkt : list Z) (i : in_buf) : outcome (parse_result * in_buf) :=
  r ← parse_header pkt i;
  match r with
  | None => Ret (PARSE_ERROR, i)
  | Some (i, payload) =>
      if 1024 <? data_size i + Z.of_nat (length payload) then Ret (PARSE_ERROR, i)
      else
        b ← wr (buf i) (data_size i) payload;
        let i := InBuf (active i) (no_of_packets i) (in_transaction i) (in_message_type i) (in_signal_id i) b
                   (to_u8 (data_size i + Z.of_nat (length payload))) in
        if 1 <? no_of_packets i then
          Ret (PARSE_FRAGMENT, InBuf (active i) (no_of_packets i - 1) (in_transaction i) (in_message_type i) (in_signal_id i) (buf i) (data_size i))
        else
          Ret (PARSE_SUCCESS, InBuf false (no_of_packets i) (in_transaction i) (in_message_type i) (in_signal_id i) (buf i) (data_size i))
  end.

(** The capabilities in [data], and the last one of a codec. *)
Fixpoint caps_loop (fuel : nat) (data : list Z) (caps : list capability) (codec : option capability) : outcome (list capability * option capability) :=
  match fuel with
  | O => NoFuel
  | S fuel =>
      if Z.of_nat (length data) <=? 2 then Ret (caps, codec)
      else
        category ← rd8 data;
        len ← rd8 (drop 1 data);
        if Z.of_nat (length data) <? 2 + len then Ret (caps, codec)
        else
          let cap := Cap category (take (Z.to_nat len) (drop 2 data)) in
          caps_loop fuel (drop (Z.to_nat (2 + len)) data) (caps ++ [cap])
            (if (category =? AVDTP_MEDIA_CODEC) && (2 <=? len) then Some cap else codec)
  end.
Definition caps_to_list (data : list Z) : outcome (list capability * option capability) := caps_loop (S (length data)) data [] None.

(** ** Streams and stream end points *)

Definition find_stream_by_rseid (seid : Z) s : outcome (option Z) := find_at (stream_at s) (λ x, rseid x =? seid) (streams s).

Definition find_remote_sep (l : list remote_sep) (seid : Z) : option nat := fst <$> list_find (λ r, rs_seid r = seid) l.

Definition clear_rsep (seid : Z) (l : list remote_sep) : list remote_sep :=
  match find_remote_sep l seid with
  | Some i => alter (λ r, RemoteSep (rs_seid r) (rs_type r) (rs_media_type r) (rs_codec r) (rs_caps r) None) i l
  | None => l
  end.

Definition stream_free (st : Z) s : outcome (avdtp U) :=
  x ← at_ptr (stream_at s) st;
  sep ← at_ptr (sep_at s) (s_lsep x);
  let s := set_sep (s_lsep x) (LocalSep (state sep) None (seid sep) false (ls_type sep) (ls_media_type sep) (ls_codec sep)) s in
  let s := set_seps (clear_rsep (rseid x) (seps s)) s in
  let s := if 0 <=? s_sock x then close_sock (s_sock x) s else s in
  Ret (set_stream_at (delete st (stream_at s)) s).

Definition with_timer (t : option stream_timer) (x : stream) : stream :=
  Stream (s_sock x) (s_lsep x) (rseid x) (s_caps x) (s_codec x) (s_io x) t (open_acp x) (close_int x) (idle_timer x).
Definition with_idle_timer (b : bool) (x : stream) : stream :=
  Stream (s_sock x) (s_lsep x) (rseid x) (s_caps x) (s_codec x) (s_io x) (s_timer x) (open_acp x) (close_int x) b.
Definition with_state (st : avdtp_state) (l : local_sep) : local_sep :=
  LocalSep st (ls_stream l) (seid l) (inuse l) (ls_type l) (ls_media_type l) (ls_codec l).
Definition with_stream (st : option Z) (l : local_sep) : local_sep :=
  LocalSep (state l) st (seid l) (inuse l) (ls_type l) (ls_media_type l) (ls_codec l).

Definition confirm (signal_id lsep : Z) (st : option Z) (err : option avdtp_error) s : avdtp U :=
  set_upper (cfm calls signal_id lsep st err (upper s)) s.

(** [handle_transport_connect] without a socket. *)
Definition transport_failed s : outcome (avdtp U) :=
  match pending_open s with
  | None => Undef
  | Some st =>
      x ← at_ptr (stream_at s) st;
      let s := set_pending_open None s in
      if bool_decide (st ∉ streams s) then Ret s
      else
        let s := set_stream st (with_timer None x) s in
        Ret (if open_acp x then s else confirm AVDTP_OPEN (s_lsep x) None (Some (AVDTP_ERROR_ERRNO EIO)) s)
  end.

(** A stream whose end point became idle leaves the session. *)
Definition stream_idle (st : Z) s : outcome (avdtp U) :=
  x ← at_ptr (stream_at s) st;
  let s := set_stream st (with_idle_timer false x) s in
  let s := set_streams (sdp_list_remove (streams s) st) s in
  s ← (if bool_decide (pending_open s = Some st) then transport_failed s else Ret s);
  let s := match req s with
           | Some r => if bool_decide (r_stream r = Some st) then set_req (Some (Req (r_transaction r) (r_signal_id r) (r_data r) None)) s else s
           | None => s
           end in
  stream_free st s.

Definition avdtp_sep_set_state (lsep : Z) (new : avdtp_state) s : outcome (avdtp U) :=
  sep ← at_ptr (sep_at s) lsep;
  let s := set_sep lsep (with_state new sep) s in
  let s := match ls_stream sep with
           | Some st => set_upper (state_cb calls st (state sep) new (bool_decide (state sep = new)) (upper s)) s
           | None => s
           end in
  match new with
  | AVDTP_STATE_STREAMING | AVDTP_STATE_CLOSING | AVDTP_STATE_ABORTING =>
      match ls_stream sep with
      | None => Undef
      | Some st => x ← at_ptr (stream_at s) st; Ret (set_stream st (with_idle_timer false x) s)
      end
  | AVDTP_STATE_IDLE =>
      match ls_stream sep with
      | Some st => if bool_decide (st ∈ streams s) then stream_idle st s else Ret s
      | None => Ret s
      end
  | _ => Ret s
  end.

(** [handle_transport_connect] with a socket. *)
Definition handle_transport_connect (fd : Z) s : outcome (avdtp U) :=
  if fd <? 0 then transport_failed s
  else
    match pending_open s with
    | None => Undef
    | Some st =>
        x ← at_ptr (stream_at s) st;
        let s := set_pending_open None s in
        if bool_decide (st ∉ streams s) then Ret s
        else
          let x := Stream fd (s_lsep x) (rseid x) (s_caps x) (s_codec x) (s_io x) None (open_acp x) (close_int x) (idle_timer x) in
          let s := set_stream st x s in
          let s := if open_acp x then s else confirm AVDTP_OPEN (s_lsep x) (Some st) None s in
          s ← avdtp_sep_set_state (s_lsep x) AVDTP_STATE_OPEN s;
          x ← at_ptr (stream_at s) st;
          Ret (set_stream st (Stream (s_sock x) (s_lsep x) (rseid x) (s_caps x) (s_codec x) true (s_timer x) (open_acp x) (close_int x) (idle_timer x)) s)
    end.

(** The transport channel was closed. *)
Definition transport_cb (st : Z) s : outcome (avdtp U) :=
  x ← at_ptr (stream_at s) st;
  let s := if close_int x then confirm AVDTP_CLOSE (s_lsep x) (Some st) None s else s in
  let s := set_stream st (Stream (s_sock x) (s_lsep x) (rseid x) (s_caps x) (s_codec x) false (s_timer x) (open_acp x) (close_int x) (idle_timer x)) s in
  avdtp_sep_set_state (s_lsep x) AVDTP_STATE_IDLE s.

(** The other device has not closed the transport channel. *)
Definition stream_close_timeout (st : Z) s : outcome (avdtp U) :=
  x ← at_ptr (stream_at s) st;
  Ret (close_sock (s_sock x) (set_stream st (with_timer None x) s)).

Definition release_stream (st : Z) s : outcome (avdtp U) :=
  x ← at_ptr (stream_at s) st;
  avdtp_sep_set_state (s_lsep x) AVDTP_STATE_IDLE (confirm AVDTP_ABORT (s_lsep x) (Some st) None s).

Definition finalize_discovery (err : Z) s : avdtp U :=
  if discovering s then
    set_discovering false (set_upper (discov_cb calls (seps s) (if err =? 0 then None else Some (AVDTP_ERROR_ERRNO (- err))) (upper s)) s)
  else s.

Fixpoint release_streams (l : list Z) s : outcome (avdtp U) :=
  match l with [] => Ret s | st :: l => s ← release_stream st s; release_streams l s end.

(** The end of the connection. The session itself goes when nobody refers to it
    any more. *)
Definition connection_lost (err : Z) s : outcome (avdtp U) :=
  let s := finalize_discovery err s in
  s ← release_streams (streams s) s;
  let s := set_streams [] s in
  let s := if 0 <=? sock s then set_sock (-1) (close_sock (sock s) s) else s in
  Ret (set_io false (set_sstate AVDTP_SESSION_STATE_DISCONNECTED s)).

(** ** Stream end points *)

Definition find_local_sep_by_seid (id : Z) s : outcome (option Z) :=
  find_at (sep_at s) (λ x, seid x =? id) (local_seps s).

Definition find_local_sep (type media_type codec : Z) s : outcome (option Z) :=
  find_at (sep_at s) (λ x, negb (inuse x) && ((ls_type x =? type) && (ls_media_type x =? media_type) && (ls_codec x =? codec))) (local_seps s).

Definition avdtp_register_sep (type media_type codec_type : Z) s : option Z * avdtp U :=
  if MAX_SEID <? free_seid s then (None, s)
  else
    let a := malloc (dom (sep_at s)) in
    let x := LocalSep AVDTP_STATE_IDLE None (free_seid s) false type media_type codec_type in
    (Some a, set_local_seps (local_seps s ++ [a]) (set_free_seid (free_seid s + 1) (set_sep a x s))).

Definition avdtp_unregister_sep (a : Z) s : outcome (Z * avdtp U) :=
  x ← at_ptr (sep_at s) a;
  if inuse x then Ret (- EBUSY, s)
  else Ret (0, set_sep_at (delete a (sep_at s)) (set_local_seps (sdp_list_remove (local_seps s) a) s)).

Definition avdtp_sep_get_state (a : Z) s : outcome avdtp_state := x ← at_ptr (sep_at s) a; Ret (state x).

(** ** Commands of the other device *)

Definition avdtp_unknown_cmd (transaction : Z) s : outcome (bool * avdtp U) :=
  avdtp_send transaction AVDTP_MSG_TYPE_GENERAL_REJECT (in_signal_id (inb s)) [] s.

Definition accept (transaction signal_id : Z) (data : list Z) s : outcome (bool * avdtp U) :=
  avdtp_send transaction AVDTP_MSG_TYPE_ACCEPT signal_id data s.
Definition reject (transaction signal_id : Z) (data : list Z) s : outcome (bool * avdtp U) :=
  avdtp_send transaction AVDTP_MSG_TYPE_REJECT signal_id data s.

(** [struct seid_info], [struct seid_req]. *)
Definition seid_info (x : local_sep) : list Z := [2 * Z.b2z (inuse x) + 4 * seid x; 8 * ls_type x + 16 * ls_media_type x].
Definition acp_seid (b : Z) : Z := Z.shiftr b 2.
Definition seid_req (id : Z) : list Z := [4 * id].

Fixpoint discover_loop s (l : list Z) : outcome (list Z) :=
  match l with
  | [] => Ret []
  | a :: l => x ← at_ptr (sep_at s) a; r ← discover_loop s l; Ret (seid_info x ++ r)
  end.

Definition avdtp_discover_cmd (transaction : Z) s : outcome (bool * avdtp U) :=
  r ← discover_loop s (local_seps s); accept transaction AVDTP_DISCOVER r s.

(** As many capabilities as fit in 1024 octets. *)
Fixpoint put_caps (l : list capability) (rsp : list Z) : list Z :=
  match l with
  | [] => rsp
  | c :: l => if 1024 <? Z.of_nat (length rsp) + cap_length c + 2 then rsp else put_caps l (rsp ++ cap_bytes c)
  end.

Definition avdtp_getcap_cmd (transaction : Z) (req : list Z) s : outcome (bool * avdtp U) :=
  match req with
  | [] => reject transaction AVDTP_GET_CAPABILITIES [AVDTP_BAD_LENGTH] s
  | b :: _ =>
      sep ← find_local_sep_by_seid (acp_seid b) s;
      match sep with
      | None => reject transaction AVDTP_GET_CAPABILITIES [AVDTP_BAD_ACP_SEID] s
      | Some a =>
          let '(r, u) := get_capability calls a (upper s) in
          let s := set_upper u s in
          match r with
          | inl err => reject transaction AVDTP_GET_CAPABILITIES [err] s
          | inr caps => accept transaction AVDTP_GET_CAPABILITIES (put_caps caps []) s
          end
      end
  end.

(** A media transport capability has no data. *)
Definition bad_media_transport (c : capability) : bool := (category c =? AVDTP_MEDIA_TRANSPORT) && negb (cap_length c =? 0).

Definition setconf_failed (transaction err category : Z) s : outcome (bool * avdtp U) :=
  reject transaction AVDTP_SET_CONFIGURATION [category; err] s.

Definition avdtp_setconf_cmd (transaction : Z) (req : list Z) s : outcome (bool * avdtp U) :=
  match req with
  | b0 :: b1 :: caps =>
      sep ← find_local_sep_by_seid (acp_seid b0) s;
      match sep with
      | None => setconf_failed transaction AVDTP_BAD_ACP_SEID 0 s
      | Some a =>
          x ← at_ptr (sep_at s) a;
          match ls_stream x with
          | Some _ => setconf_failed transaction AVDTP_SEP_IN_USE 0 s
          | None =>
              let st := malloc (dom (stream_at s)) in
              c ← caps_to_list caps;
              let '(caps, codec) := c in
              let s := set_stream st (Stream (-1) a (acp_seid b1) caps codec false None false false false) s in
              if existsb bad_media_transport caps then setconf_failed transaction AVDTP_BAD_MEDIA_TRANSPORT_FORMAT 0 s
              else
                let '(r, u) := ind_set_configuration calls a st caps (upper s) in
                let s := set_upper u s in
                match r with
                | Some (err, category) => s ← stream_free st s; setconf_failed transaction err category s
                | None =>
                    r ← accept transaction AVDTP_SET_CONFIGURATION [] s;
                    let '(ok, s) := r in
                    if ok : bool then
                      x ← at_ptr (sep_at s) a;
                      let s := set_streams (streams s ++ [st]) (set_sep a (with_stream (Some st) x) s) in
                      s ← avdtp_sep_set_state a AVDTP_STATE_CONFIGURED s;
                      Ret (true, s)
                    else s ← stream_free st s; Ret (false, s)
                end
          end
      end
  | _ => Ret (false, s)
  end.

Definition avdtp_getconf_cmd (transaction : Z) (req : list Z) s : outcome (bool * avdtp U) :=
  match req with
  | [] => Ret (false, s)
  | b :: _ =>
      sep ← find_local_sep_by_seid (acp_seid b) s;
      match sep with
      | None => reject transaction AVDTP_GET_CONFIGURATION [AVDTP_BAD_ACP_SEID] s
      | Some a =>
          x ← at_ptr (sep_at s) a;
          match ls_stream x with
          | None => reject transaction AVDTP_GET_CONFIGURATION [AVDTP_UNSUPPORTED_CONFIGURATION] s
          | Some st =>
              y ← at_ptr (stream_at s) st;
              match s_caps y with
              | [] => reject transaction AVDTP_GET_CONFIGURATION [AVDTP_UNSUPPORTED_CONFIGURATION] s
              | caps => accept transaction AVDTP_GET_CONFIGURATION (put_caps caps []) s
              end
          end
      end
  end.

Definition avdtp_reconf_cmd (transaction : Z) s : outcome (bool * avdtp U) := avdtp_unknown_cmd transaction s.
Definition avdtp_secctl_cmd (transaction : Z) s : outcome (bool * avdtp U) := avdtp_unknown_cmd transaction s.

(** Asking the layers above. *)
Definition indicate (signal_id a st : Z) s : option Z * avdtp U :=
  let '(r, u) := ind calls signal_id a st (upper s) in (r, set_upper u s).

Definition avdtp_open_cmd (transaction : Z) (req : list Z) s : outcome (bool * avdtp U) :=
  match req with
  | [] => Ret (false, s)
  | b :: _ =>
      sep ← find_local_sep_by_seid (acp_seid b) s;
      match sep with
      | None => reject transaction AVDTP_OPEN [AVDTP_BAD_ACP_SEID] s
      | Some a =>
          x ← at_ptr (sep_at s) a;
          if bool_decide (state x ≠ AVDTP_STATE_CONFIGURED) then reject transaction AVDTP_OPEN [AVDTP_BAD_STATE] s
          else
            match ls_stream x with
            | None => Undef
            | Some st =>
                let '(r, s) := indicate AVDTP_OPEN a st s in
                match r with
                | Some err => reject transaction AVDTP_OPEN [err] s
                | None =>
                    r ← accept transaction AVDTP_OPEN [] s;
                    let '(ok, s) := r in
                    if ok : bool then
                      y ← at_ptr (stream_at s) st;
                      let y := Stream (s_sock y) (s_lsep y) (rseid y) (s_caps y) (s_codec y) (s_io y) (Some OpenTimeout) true (close_int y) (idle_timer y) in
                      Ret (true, set_pending_open (Some st) (set_stream st y s))
                    else Ret (false, s)
                end
            end
      end
  end.

(** The loops of [avdtp_start_cmd] and [avdtp_suspend_cmd] over the stream end
    points named; what each round looks up is the first of them. [inl] is a
    failure with the one it is blamed on. *)
Fixpoint seid_loop (signal_id : Z) (from to : avdtp_state) (first : Z) (l : list Z) s : outcome ((Z * Z + unit) * avdtp U) :=
  match l with
  | [] => Ret (inr tt, s)
  | b :: l =>
      let failed_seid := acp_seid b in
      sep ← find_local_sep_by_seid first s;
      match sep with
      | None => Ret (inl (failed_seid, AVDTP_BAD_ACP_SEID), s)
      | Some a =>
          x ← at_ptr (sep_at s) a;
          match ls_stream x with
          | None => Ret (inl (failed_seid, AVDTP_BAD_ACP_SEID), s)
          | Some st =>
              if bool_decide (state x ≠ from) then Ret (inl (failed_seid, AVDTP_BAD_STATE), s)
              else
                let '(r, s) := indicate signal_id a st s in
                match r with
                | Some err => Ret (inl (failed_seid, err), s)
                | None => s ← avdtp_sep_set_state a to s; seid_loop signal_id from to first l s
                end
          end
      end
  end.

(** [struct stream_rej]. *)
Definition stream_rej (failed_seid err : Z) : list Z := [4 * failed_seid; err].

Definition avdtp_start_cmd (transaction : Z) (req : list Z) s : outcome (bool * avdtp U) :=
  match req with
  | [] => Ret (false, s)
  | b :: _ =>
      r ← seid_loop AVDTP_START AVDTP_STATE_OPEN AVDTP_STATE_STREAMING (acp_seid b) req s;
      match r with
      | (inr _, s) => accept transaction AVDTP_START [] s
      | (inl (failed_seid, err), s) => accept transaction AVDTP_START (stream_rej failed_seid err) s
      end
  end.

Definition avdtp_suspend_cmd (transaction : Z) (req : list Z) s : outcome (bool * avdtp U) :=
  match req with
  | [] => Ret (false, s)
  | b :: _ =>
      r ← seid_loop AVDTP_SUSPEND AVDTP_STATE_STREAMING AVDTP_STATE_OPEN (acp_seid b) req s;
      match r with
      | (inr _, s) => accept transaction AVDTP_SUSPEND [] s
      | (inl (failed_seid, err), s) => reject transaction AVDTP_SUSPEND (stream_rej failed_seid err) s
      end
  end.

Definition avdtp_close_cmd (transaction : Z) (req : list Z) s : outcome (bool * avdtp U) :=
  match req with
  | [] => Ret (false, s)
  | b :: _ =>
      sep ← find_local_sep_by_seid (acp_seid b) s;
      match sep with
      | None => reject transaction AVDTP_CLOSE [AVDTP_BAD_ACP_SEID] s
      | Some a =>
          x ← at_ptr (sep_at s) a;
          match ls_stream x with
          | None => reject transaction AVDTP_CLOSE [AVDTP_BAD_ACP_SEID] s
          | Some st =>
              if bool_decide (state x ≠ AVDTP_STATE_OPEN ∧ state x ≠ AVDTP_STATE_STREAMING) then reject transaction AVDTP_CLOSE [AVDTP_BAD_STATE] s
              else
                let '(r, s) := indicate AVDTP_CLOSE a st s in
                match r with
                | Some err => reject transaction AVDTP_CLOSE [err] s
                | None =>
                    s ← avdtp_sep_set_state a AVDTP_STATE_CLOSING s;
                    r ← accept transaction AVDTP_CLOSE [] s;
                    let '(ok, s) := r in
                    if ok : bool then y ← at_ptr (stream_at s) st; Ret (true, set_stream st (with_timer (Some CloseTimeout) y) s) else Ret (false, s)
                end
          end
      end
  end.

Definition avdtp_abort_cmd (transaction : Z) (req : list Z) s : outcome (bool * avdtp U) :=
  match req with
  | [] => Ret (false, s)
  | b :: _ =>
      sep ← find_local_sep_by_seid (acp_seid b) s;
      match sep with
      | None => reject transaction AVDTP_ABORT [AVDTP_BAD_ACP_SEID] s
      | Some a =>
          x ← at_ptr (sep_at s) a;
          match ls_stream x with
          | None => reject transaction AVDTP_ABORT [AVDTP_BAD_ACP_SEID] s
          | Some st =>
              let '(r, s) := indicate AVDTP_ABORT a st s in
              match r with
              | Some err => reject transaction AVDTP_ABORT [err] s
              | None =>
                  r ← accept transaction AVDTP_ABORT [] s;
                  let '(ok, s) := r in
                  if ok : bool then s ← avdtp_sep_set_state a AVDTP_STATE_ABORTING s; Ret (true, s) else Ret (false, s)
              end
          end
      end
  end.

Definition avdtp_parse_cmd (transaction signal_id : Z) (buf : list Z) s : outcome (bool * avdtp U) :=
  if signal_id =? AVDTP_DISCOVER then avdtp_discover_cmd transaction s
  else if signal_id =? AVDTP_GET_CAPABILITIES then avdtp_getcap_cmd transaction buf s
  else if signal_id =? AVDTP_SET_CONFIGURATION then avdtp_setconf_cmd transaction buf s
  else if signal_id =? AVDTP_GET_CONFIGURATION then avdtp_getconf_cmd transaction buf s
  else if signal_id =? AVDTP_RECONFIGURE then avdtp_reconf_cmd transaction s
  else if signal_id =? AVDTP_OPEN then avdtp_open_cmd transaction buf s
  else if signal_id =? AVDTP_START then avdtp_start_cmd transaction buf s
  else if signal_id =? AVDTP_CLOSE then avdtp_close_cmd transaction buf s
  else if signal_id =? AVDTP_SUSPEND then avdtp_suspend_cmd transaction buf s
  else if signal_id =? AVDTP_ABORT then avdtp_abort_cmd transaction buf s
  else if signal_id =? AVDTP_SECURITY_CONTROL then avdtp_secctl_cmd transaction s
  else avdtp_unknown_cmd transaction s.

(** ** Requests of this device *)

Definition l2cap_connect s : Z * avdtp U :=
  match connects s with
  | false :: c => (- EIO, set_connects c s)
  | c => (0, set_connects (tail c) s)
  end.

Definition queue_request (r : pending_req) (priority : bool) s : avdtp U :=
  if priority then set_prio_queue (prio_queue s ++ [r]) s else set_req_queue (req_queue s ++ [r]) s.

Definition send_req (priority : bool) (r : pending_req) s : outcome (Z * avdtp U) :=
  let '(err, s) := if bool_decide (sstate s = AVDTP_SESSION_STATE_DISCONNECTED) then l2cap_connect s else (0, s) in
  if err <? 0 then Ret (err, s)
  else if bool_decide (sstate s ≠ AVDTP_SESSION_STATE_CONNECTED ∨ req s ≠ None) then Ret (0, queue_request r priority s)
  else
    let r := Req (transaction s) (r_signal_id r) (r_data r) (r_stream r) in
    let s := set_transaction ((transaction s + 1) mod 16) s in
    o ← avdtp_send (r_transaction r) AVDTP_MSG_TYPE_COMMAND (r_signal_id r) (r_data r) s;
    let '(ok, s) := o in
    if ok : bool then Ret (0, set_req (Some r) s) else Ret (- EIO, s).

Definition send_request (priority : bool) (st : option Z) (signal_id : Z) (data : list Z) s : outcome (Z * avdtp U) :=
  send_req priority (Req 0 signal_id data st) s.

Definition process_queue s : outcome (avdtp U) :=
  match req s with
  | Some _ => Ret s
  | None =>
      match prio_queue s, req_queue s with
      | r :: q, _ => o ← send_req false r (set_prio_queue q s); Ret o.2
      | [], r :: q => o ← send_req false r (set_req_queue q s); Ret o.2
      | [], [] => Ret s
      end
  end.

(** The next functions are the interface to the layers above. *)
Definition avdtp_discover s : outcome (Z * avdtp U) :=
  if discovering s then Ret (- EBUSY, s)
  else
    match seps s with
    | _ :: _ => Ret (0, set_upper (discov_cb calls (seps s) None (upper s)) s)
    | [] =>
        o ← send_request false None AVDTP_DISCOVER [] s;
        let '(ret, s) := o in
        Ret (ret, if ret =? 0 then set_discovering true s else s)
    end.

Definition avdtp_get_seps (acp_type media_type codec : Z) s : outcome (option (Z * nat)) :=
  let int_type := if acp_type =? AVDTP_SEP_TYPE_SINK then AVDTP_SEP_TYPE_SOURCE else AVDTP_SEP_TYPE_SINK in
  lsep ← find_local_sep int_type media_type codec s;
  Ret (match lsep with
       | None => None
       | Some a =>
           match list_find (λ r, rs_type r = acp_type ∧ rs_media_type r = media_type ∧
                                 (rs_codec r ≫= λ c, cap_data c !! 1%nat) = Some codec ∧ rs_stream r = None) (seps s) with
           | Some (i, _) => Some (a, i)
           | None => None
           end
       end).

Definition with_inuse (st : Z) (l : local_sep) : local_sep := LocalSep (state l) (Some st) (seid l) true (ls_type l) (ls_media_type l) (ls_codec l).

(** [i] is the remote stream end point. A stream made here has no socket yet,
    but its field says 0. *)
Definition avdtp_set_configuration (i : nat) (lsep : Z) (caps : list capability) s : outcome (Z * option Z * avdtp U) :=
  if bool_decide (sstate s ≠ AVDTP_SESSION_STATE_CONNECTED) then Ret (- ENOTCONN, None, s)
  else
    match seps s !! i with
    | None => Undef
    | Some r =>
        l ← at_ptr (sep_at s) lsep;
        let st := malloc (dom (stream_at s)) in
        let s := set_stream st (Stream 0 lsep (rs_seid r) caps None false None false false false) s in
        o ← send_request false (Some st) AVDTP_SET_CONFIGURATION (4 * rs_seid r :: 4 * seid l :: concat (map cap_bytes caps)) s;
        let '(ret, s) := o in
        if ret <? 0 then s ← stream_free st s; Ret (ret, None, s)
        else
          l ← at_ptr (sep_at s) lsep;
          let s := set_sep lsep (with_inuse st l) s in
          let s := set_seps (alter (λ r, RemoteSep (rs_seid r) (rs_type r) (rs_media_type r) (rs_codec r) (rs_caps r) (Some st)) i (seps s)) s in
          Ret (ret, Some st, set_streams (streams s ++ [st]) s)
    end.

(** The state of the stream's end point, if the stream is one of the session. *)
Definition stream_state (st : Z) s : outcome (option (stream * avdtp_state)) :=
  if bool_decide (st ∉ streams s) then Ret None
  else x ← at_ptr (stream_at s) st; l ← at_ptr (sep_at s) (s_lsep x); Ret (Some (x, state l)).

(** What the requests on a stream share: a check of its state and a request
    that names the other device's end point. *)
Definition stream_request (signal_id : Z) (allowed : Z → bool) (st : Z) s : outcome (Z * avdtp U) :=
  o ← stream_state st s;
  match o with
  | None => Ret (- EINVAL, s)
  | Some (x, state) => if allowed (state_num state) then send_request false (Some st) signal_id (seid_req (rseid x)) s else Ret (- EINVAL, s)
  end.

Definition avdtp_get_configuration (st : Z) s : outcome (Z * avdtp U) :=
  if bool_decide (sstate s ≠ AVDTP_SESSION_STATE_CONNECTED) then Ret (- EINVAL, s)
  else x ← at_ptr (stream_at s) st; send_request false (Some st) AVDTP_GET_CONFIGURATION (seid_req (rseid x)) s.
Definition avdtp_reconfigure (caps : list capability) (st : Z) s : outcome (Z * avdtp U) :=
  o ← stream_state st s;
  match o with
  | None => Ret (- EINVAL, s)
  | Some (x, state) =>
      if bool_decide (state ≠ AVDTP_STATE_OPEN) then Ret (- EINVAL, s)
      else send_request false (Some st) AVDTP_RECONFIGURE (4 * rseid x :: 0 :: 0 :: concat (map cap_bytes caps)) s
  end.
Definition avdtp_open (st : Z) s : outcome (Z * avdtp U) := stream_request AVDTP_OPEN (λ n, n <=? 1) st s.
Definition avdtp_start (st : Z) s : outcome (Z * avdtp U) := stream_request AVDTP_START (λ n, n =? 2) st s.
Definition avdtp_suspend (st : Z) s : outcome (Z * avdtp U) := stream_request AVDTP_SUSPEND (λ n, 2 <? n) st s.
Definition avdtp_close (st : Z) s : outcome (Z * avdtp U) :=
  o ← stream_request AVDTP_CLOSE (λ n, 2 <=? n) st s;
  let '(ret, s) := o in
  if ret =? 0 then
    x ← at_ptr (stream_at s) st;
    Ret (ret, set_stream st (Stream (s_sock x) (s_lsep x) (rseid x) (s_caps x) (s_codec x) (s_io x) (s_timer x) (open_acp x) true (idle_timer x)) s)
  else Ret (ret, s).
Definition avdtp_abort (st : Z) s : outcome (Z * avdtp U) :=
  o ← stream_state st s;
  match o with
  | None => Ret (- EINVAL, s)
  | Some (x, state) =>
      if state_num state <=? 2 then Ret (- EINVAL, s)
      else
        o ← send_request false (Some st) AVDTP_ABORT (seid_req (rseid x)) s;
        let '(ret, s) := o in
        if ret =? 0 then s ← avdtp_sep_set_state (s_lsep x) AVDTP_STATE_ABORTING s; Ret (0, s) else Ret (0, s)
  end.

(** The other device has not opened the transport channel. *)
Definition stream_open_timeout (st : Z) s : outcome (avdtp U) :=
  x ← at_ptr (stream_at s) st;
  o ← avdtp_abort st (set_pending_open None (set_stream st (with_timer None x) s));
  Ret o.2.

(** ** Responses *)

Fixpoint discover_resp_loop (fuel : nat) (resp : list Z) s : outcome (avdtp U) :=
  match fuel with
  | O => NoFuel
  | S fuel =>
      match resp with
      | b0 :: b1 :: resp =>
          let id := Z.shiftr b0 2 in
          let inuse := Z.testbit b0 1 in
          st ← find_stream_by_rseid id s;
          let i := find_remote_sep (seps s) id in
          if bool_decide (i = None) && inuse && bool_decide (st = None) then discover_resp_loop fuel resp s
          else
            let r := RemoteSep id (Z.land (Z.shiftr b1 3) 1) (Z.shiftr b1 4) in
            let l := match i with
                     | None => seps s ++ [r None [] st]
                     | Some i => alter (λ o, r (rs_codec o) (rs_caps o) st) i (seps s)
                     end in
            o ← send_request true None AVDTP_GET_CAPABILITIES (seid_req id) (set_seps l s);
            let '(ret, s) := o in
            if ret <? 0 then Ret (finalize_discovery ret s) else discover_resp_loop fuel resp s
      | _ => Ret s
      end
  end.
Definition avdtp_discover_resp (resp : list Z) s : outcome (bool * avdtp U) :=
  s ← discover_resp_loop (S (length resp)) resp s; Ret (true, s).

(** [r] is the request that is answered. *)
Definition avdtp_get_capabilities_resp (r : pending_req) (resp : list Z) s : outcome (bool * avdtp U) :=
  if Z.of_nat (length resp) <? 6 then Ret (false, s)
  else
    b ← rd8 (r_data r);
    match find_remote_sep (seps s) (acp_seid b) with
    | None => Undef
    | Some i =>
        c ← caps_to_list resp;
        Ret (true, set_seps (alter (λ o, RemoteSep (rs_seid o) (rs_type o) (rs_media_type o)
                                           (match c.2, rs_caps o with None, [] => rs_codec o | c, _ => c end) c.1 (rs_stream o)) i (seps s)) s)
    end.

Definition on_stream (st : option Z) (f : Z → stream → avdtp U → outcome (bool * avdtp U)) s : outcome (bool * avdtp U) :=
  match st with
  | None => Ret (true, s)
  | Some a => x ← at_ptr (stream_at s) a; f a x s
  end.

Definition avdtp_set_configuration_resp (st : option Z) s : outcome (bool * avdtp U) :=
  on_stream st (λ a x s, s ← avdtp_sep_set_state (s_lsep x) AVDTP_STATE_CONFIGURED (confirm AVDTP_SET_CONFIGURATION (s_lsep x) st None s); Ret (true, s)) s.

Definition avdtp_open_resp (st : option Z) s : outcome (bool * avdtp U) :=
  match st with
  | None => Undef
  | Some a =>
      x ← at_ptr (stream_at s) a;
      let '(err, s) := l2cap_connect s in
      if err <? 0 then s ← avdtp_sep_set_state (s_lsep x) AVDTP_STATE_IDLE s; Ret (false, s)
      else Ret (true, set_pending_open (Some a) s)
  end.

Definition avdtp_start_resp (st : option Z) s : outcome (bool * avdtp U) :=
  on_stream st (λ a x s, s ← avdtp_sep_set_state (s_lsep x) AVDTP_STATE_STREAMING (confirm AVDTP_START (s_lsep x) st None s); Ret (true, s)) s.

Definition avdtp_close_resp (st : option Z) s : outcome (bool * avdtp U) :=
  on_stream st (λ a x s,
    s ← avdtp_sep_set_state (s_lsep x) AVDTP_STATE_CLOSING s;
    x ← at_ptr (stream_at s) a;
    let y := Stream (-1) (s_lsep x) (rseid x) (s_caps x) (s_codec x) (s_io x) (s_timer x) (open_acp x) (close_int x) (idle_timer x) in
    Ret (true, set_stream a y (close_sock (s_sock x) s))) s.

Definition avdtp_suspend_resp (st : option Z) s : outcome (bool * avdtp U) :=
  on_stream st (λ a x s,
    s ← avdtp_sep_set_state (s_lsep x) AVDTP_STATE_OPEN s;
    x ← at_ptr (stream_at s) a;
    Ret (true, confirm AVDTP_SUSPEND (s_lsep x) st None (set_stream a (with_idle_timer true x) s))) s.

Definition avdtp_abort_resp (st : option Z) s : outcome (bool * avdtp U) :=
  on_stream st (λ a x s, s ← avdtp_sep_set_state (s_lsep x) AVDTP_STATE_IDLE (confirm AVDTP_ABORT (s_lsep x) st None s); Ret (true, s)) s.

Definition avdtp_parse_resp (r : pending_req) (st : option Z) (signal_id : Z) (buf : list Z) s : outcome (bool * avdtp U) :=
  let next := match prio_queue s, req_queue s with n :: _, _ => Some n | [], n :: _ => Some n | [], [] => None end in
  if signal_id =? AVDTP_DISCOVER then avdtp_discover_resp buf s
  else if signal_id =? AVDTP_GET_CAPABILITIES then
    o ← avdtp_get_capabilities_resp r buf s;
    let '(ok, s) := o in
    if ok : bool then
      Ret (true, match next with
                 | Some n => if r_signal_id n =? AVDTP_GET_CAPABILITIES then s else finalize_discovery 0 s
                 | None => finalize_discovery 0 s
                 end)
    else Ret (false, s)
  else if signal_id =? AVDTP_SET_CONFIGURATION then avdtp_set_configuration_resp st s
  else if signal_id =? AVDTP_RECONFIGURE then Ret (true, s)
  else if signal_id =? AVDTP_OPEN then avdtp_open_resp st s
  else if signal_id =? AVDTP_SUSPEND then avdtp_suspend_resp st s
  else if signal_id =? AVDTP_START then avdtp_start_resp st s
  else if signal_id =? AVDTP_CLOSE then avdtp_close_resp st s
  else if signal_id =? AVDTP_ABORT then avdtp_abort_resp st s
  else Ret (true, s).

(** The error code of a rejection of [size] octets, [code] the one that holds
    it. *)
Definition rej_to_err (size : Z) (code : nat) (buf : list Z) : option Z :=
  if Z.of_nat (length buf) <? size then None else buf !! code.
Definition seid_rej_to_err : list Z → option Z := rej_to_err 1 0.
Definition conf_rej_to_err : list Z → option Z := rej_to_err 2 1.
Definition stream_rej_to_err : list Z → option Z := rej_to_err 2 1.

Definition confirm_rej (signal_id : Z) (st : option Z) (err : option Z) s : outcome (bool * avdtp U) :=
  match err with
  | None => Ret (false, s)
  | Some e =>
      match st with
      | None => Ret (true, s)
      | Some a => x ← at_ptr (stream_at s) a; Ret (true, confirm signal_id (s_lsep x) st (Some (AVDTP_ERROR_ERROR_CODE e)) s)
      end
  end.

Definition avdtp_parse_rej (st : option Z) (signal_id : Z) (buf : list Z) s : outcome (bool * avdtp U) :=
  if (signal_id =? AVDTP_DISCOVER) || (signal_id =? AVDTP_GET_CAPABILITIES) then
    Ret (match seid_rej_to_err buf with None => false | Some _ => true end, s)
  else if signal_id =? AVDTP_OPEN then confirm_rej signal_id st (seid_rej_to_err buf) s
  else if (signal_id =? AVDTP_SET_CONFIGURATION) || (signal_id =? AVDTP_RECONFIGURE) then confirm_rej signal_id st (conf_rej_to_err buf) s
  else if (signal_id =? AVDTP_START) || (signal_id =? AVDTP_SUSPEND) || (signal_id =? AVDTP_CLOSE) || (signal_id =? AVDTP_ABORT) then
    confirm_rej signal_id st (stream_rej_to_err buf) s
  else Ret (true, s).

(** The request was not answered in time. *)
Definition request_timeout s : outcome (avdtp U) :=
  match req s with
  | None => Undef
  | Some r =>
      let s := set_req None s in
      let id := match r_data r with b :: _ => acp_seid b | [] => 0 end in
      st ← (match r_data r with [] => Ret None | _ => find_stream_by_rseid id s end);
      let sig := r_signal_id r in
      let err := AVDTP_ERROR_ERRNO ETIMEDOUT in
      s ← (match st with
           | Some a =>
               if bool_decide (sig ∈ [AVDTP_RECONFIGURE; AVDTP_OPEN; AVDTP_START; AVDTP_SUSPEND; AVDTP_CLOSE; AVDTP_SET_CONFIGURATION])
               then x ← at_ptr (stream_at s) a; Ret (confirm sig (s_lsep x) st (Some err) s) else Ret s
           | None => Ret s
           end);
      if bool_decide (sig ∈ [AVDTP_SET_CONFIGURATION; AVDTP_DISCOVER; AVDTP_GET_CAPABILITIES; AVDTP_ABORT]) then connection_lost (- ETIMEDOUT) s
      else
        o ← send_request true st AVDTP_ABORT (seid_req id) s;
        let '(ret, s) := o in
        if ret <? 0 then connection_lost (- ETIMEDOUT) s else Ret s
  end.

(** ** A packet arrives *)

Definition session_cb (pkt : list Z) s : outcome (bool * avdtp U) :=
  let failed s := s ← connection_lost (- EIO) s; Ret (false, s) in
  match pkt with
  | [] => failed s
  | h :: _ =>
      p ← avdtp_parse_data pkt (inb s);
      let '(res, i) := p in
      let s := set_inb i s in
      let data := take (Z.to_nat (data_size i)) (buf i) in
      match res with
      | PARSE_ERROR => failed s
      | PARSE_FRAGMENT => Ret (true, s)
      | PARSE_SUCCESS =>
          if in_message_type i =? AVDTP_MSG_TYPE_COMMAND then
            o ← avdtp_parse_cmd (in_transaction i) (in_signal_id i) data s;
            let '(ok, s) := o in
            if ok : bool then Ret (true, s) else failed s
          else
            match req s with
            | None => Ret (true, s)
            | Some r =>
                if negb (Z.shiftr h 4 =? r_transaction r) then Ret (true, s)
                else if negb (in_signal_id i =? r_signal_id r) then Ret (true, s)
                else
                  let st := match r_stream r with Some a => if bool_decide (a ∈ streams s) then Some a else None | None => None end in
                  let type := Z.land h 3 in
                  o ← (if type =? AVDTP_MSG_TYPE_ACCEPT then avdtp_parse_resp r st (in_signal_id i) data s
                       else if type =? AVDTP_MSG_TYPE_REJECT then avdtp_parse_rej st (in_signal_id i) data s
                       else Ret (true, s));
                  let '(ok, s) := o in
                  if ok : bool then s ← process_queue (set_req None s); Ret (true, s) else failed s
            end
      end
  end.

(** The connection for signalling or for a transport is there, or it failed. *)
Definition l2cap_connect_cb (err fd imtu_ omtu_ : Z) s : outcome (avdtp U) :=
  let failed err s :=
    match pending_open s with
    | Some st => x ← at_ptr (stream_at s) st; s ← avdtp_sep_set_state (s_lsep x) AVDTP_STATE_IDLE s; Ret (set_pending_open None s)
    | None => connection_lost (- err) s
    end in
  if err <? 0 then failed err s
  else
    let s := if bool_decide (sstate s = AVDTP_SESSION_STATE_DISCONNECTED) then set_sstate AVDTP_SESSION_STATE_CONNECTING (set_sock fd s) else s in
    if bool_decide (sstate s = AVDTP_SESSION_STATE_CONNECTING) then
      process_queue (set_io true (set_sstate AVDTP_SESSION_STATE_CONNECTED (set_omtu omtu_ (set_imtu imtu_ s))))
    else
      match pending_open s with
      | Some _ => s ← handle_transport_connect fd s; process_queue s
      | None => failed (- EIO) s
      end.

(** A connection from the other device: the transport that was agreed on, or
    signalling, which waits for authorization. *)
Definition avdtp_server_cb (fd imtu_ omtu_ : Z) s : outcome (avdtp U) :=
  o ← (match pending_open s with Some st => x ← at_ptr (stream_at s) st; Ret (open_acp x) | None => Ret false end);
  if o : bool then handle_transport_connect fd s
  else if 0 <=? sock s then Ret (close_sock fd s)
  else Ret (set_io true (set_sock fd (set_omtu omtu_ (set_imtu imtu_ s)))).

Definition auth_cb (granted : bool) s : outcome (avdtp U) :=
  if granted then Ret (set_io true (set_sstate AVDTP_SESSION_STATE_CONNECTED s)) else connection_lost (- EACCES) s.
End session.
