(* ===== verification/AvdtpFrame.v ===== *)
(** utils/audio/avdtp.c: messages and packets. What [avdtp_send] cuts a message
    into, [avdtp_parse_data] puts together again, with the exceptions the code
    has; on any packets the parser stays inside its buffer; and the
    capabilities of a message are read as they were written. *)

From stdpp Require Import base list numbers gmap.
From Stdlib Require Import ZArith Lia.
From S2P Require Import Prelude CString SdpTypes SdpList Heap Avdtp.

Local Open Scope Z_scope.

(** * Packets *)

(** The packets after the first, of [c] octets of payload each but the last. *)
Fixpoint conts (fuel c : nat) (t m : Z) (data : list Z) : list (list Z) :=
  match fuel with
  | O => []
  | S fuel =>
      if decide (length data = 0%nat) then []
      else if decide (c < length data)%nat then (header t AVDTP_PKT_TYPE_CONTINUE m :: take c data) :: conts fuel c t m (drop c data)
      else [header t AVDTP_PKT_TYPE_END m :: data]
  end.

(** The packets of a message. *)
Definition packets (omtu t m sig : Z) (data : list Z) : list (list Z) :=
  let len := Z.of_nat (length data) in
  if 2 + len <=? omtu then [header t AVDTP_PKT_TYPE_SINGLE m :: signal_octet sig :: data]
  else
    let first := Z.to_nat (omtu - 3) in
    let rest := drop first data in
    (header t AVDTP_PKT_TYPE_START m :: to_u8 ((len - (omtu - 3)) / (omtu - 1) + 2) :: signal_octet sig :: take first data) ::
    conts (length rest) (Z.to_nat (omtu - 1)) t m rest.

Section sending.
Context {U : Type}.
Implicit Types s : avdtp U.

Lemma try_send_ok d s : faults s = [] → try_send d s = (true, set_sent (sent s ++ [d]) s).
Proof. intros E. unfold try_send. rewrite E. destruct s. cbn in *. by subst. Qed.

Lemma set_sent_twice v w s : set_sent v (set_sent w s) = set_sent v s.
Proof. done. Qed.
Lemma sent_set v s : sent (set_sent v s) = v.
Proof. done. Qed.

Lemma send_loop_ok fuel t m data s : faults s = [] → 3 ≤ omtu s → (length data < fuel)%nat →
  send_loop fuel t m data s = Ret (true, set_sent (sent s ++ conts (length data) (Z.to_nat (omtu s - 1)) t m data) s).
Proof.
  intros Hf Ho. assert (∀ n, (n < fuel)%nat → ∀ data s', (length data ≤ n)%nat → faults s' = [] → omtu s' = omtu s →
    send_loop fuel t m data s' = Ret (true, set_sent (sent s' ++ conts n (Z.to_nat (omtu s - 1)) t m data) s')) as H; [|intros Hl; by apply H].
  clear data. induction fuel as [|fuel IH]; [lia|]. intros n Hn data s' Hl Hf' Ho'. cbn [send_loop]. rewrite Ho'.
  destruct n as [|n]; cbn [conts].
  { assert (length data = 0%nat) as -> by lia. cbn. rewrite app_nil_r. by destruct s'. }
  case_decide as E0; [rewrite E0; cbn; rewrite app_nil_r; by destruct s'|]. destruct (Z.eqb_spec (Z.of_nat (length data)) 0); [lia|].
  destruct (Z.ltb_spec (omtu s) (Z.of_nat (length data) + 1)).
  - rewrite decide_True by lia. cbn zeta. rewrite try_send_ok by done. rewrite (IH n); [|lia|rewrite length_drop; lia|done|done].
    by rewrite set_sent_twice, sent_set, <- app_assoc.
  - rewrite decide_False by lia. cbn zeta. rewrite try_send_ok by done. rewrite (IH 0%nat); [|lia|rewrite length_drop; lia|done|done].
    cbn [conts]. rewrite app_nil_r, take_ge by lia. by destruct s'.
Qed.

(** What [avdtp_send] sends. *)
Lemma avdtp_send_ok t m sig data s : 0 ≤ sock s → faults s = [] → 3 ≤ omtu s ≤ imtu s →
  avdtp_send t m sig data s = Ret (true, set_sent (sent s ++ packets (omtu s) t m sig data) s).
Proof.
  intros Hs Hf Ho. unfold avdtp_send, packets. cbn zeta. destruct (Z.ltb_spec (sock s) 0); [lia|].
  destruct (Z.leb_spec (2 + Z.of_nat (length data)) (omtu s)).
  - destruct (Z.ltb_spec (imtu s) (2 + Z.of_nat (length data))); [lia|]. by rewrite try_send_ok.
  - destruct (Z.ltb_spec (omtu s) 3); [lia|]. destruct (Z.ltb_spec (imtu s) (omtu s)); [lia|].
    rewrite try_send_ok by done. rewrite send_loop_ok; [|done|cbn; lia|rewrite length_drop; lia].
    rewrite set_sent_twice, sent_set, <- app_assoc. change (omtu (set_sent _ s)) with (omtu s). cbn [app]. by rewrite <- Z.add_assoc.
Qed.
End sending.

(** * Reassembly *)

(** The results for packets that arrive one after the other. *)
Fixpoint feed (pkts : list (list Z)) (i : in_buf) : outcome (list parse_result * in_buf) :=
  match pkts with
  | [] => Ret ([], i)
  | p :: pkts =>
      r ← avdtp_parse_data p i;
      q ← feed pkts r.2;
      Ret (r.1 :: q.1, q.2)
  end.

(** The buffer of a session. *)
Definition in_ok (i : in_buf) : Prop := length (buf i) = 1024%nat ∧ Forall byte_ok (buf i) ∧ 0 ≤ data_size i < 256.

(** The fields of a header. *)
Lemma header_fields t p m : 0 ≤ t < 16 → 0 ≤ p < 4 → 0 ≤ m < 4 →
  Z.shiftr (header t p m) 4 = t ∧ Z.land (Z.shiftr (header t p m) 2) 3 = p ∧ Z.land (header t p m) 3 = m.
Proof.
  intros Ht Hp Hm. unfold header. rewrite (Z.mod_small m), (Z.mod_small t) by lia.
  change 3 with (Z.ones 2). rewrite !Z.land_ones, !Z.shiftr_div_pow2 by lia. change (2 ^ 4) with 16. change (2 ^ 2) with 4.
  Z.to_euclidean_division_equations. lia.
Qed.

Lemma signal_octet_land sig : 0 ≤ sig < 64 → Z.land (signal_octet sig) 63 = sig.
Proof. intros H. unfold signal_octet. change 63 with (Z.ones 6). rewrite Z.land_ones, Z.mod_mod, Z.mod_small by lia. done. Qed.

(** Octets received so far. *)
Definition holds (i : in_buf) (data : list Z) : Prop :=
  data_size i = Z.of_nat (length data) ∧ take (length data) (buf i) = data ∧ length (buf i) = 1024%nat.

Lemma wr_holds i data payload : holds i data → (length data + length payload ≤ 1024)%nat →
  ∃ b, wr (buf i) (data_size i) payload = Ret b ∧ take (length data + length payload) b = data ++ payload ∧ length b = 1024%nat.
Proof.
  intros (Hs & Ht & Hl) Hle. unfold wr. rewrite decide_True by lia. eexists. split; [done|].
  rewrite Hs, Nat2Z.id, Ht. split.
  - rewrite app_assoc, take_app_le by (rewrite length_app; lia). by rewrite take_ge by (rewrite length_app; lia).
  - rewrite !length_app, length_drop. lia.
Qed.

(** The message being received is the same one, and [data] has arrived of it. *)
Definition received (i i' : in_buf) (data : list Z) : Prop :=
  holds i' data ∧ in_transaction i' = in_transaction i ∧ in_message_type i' = in_message_type i ∧ in_signal_id i' = in_signal_id i.

(** A payload is stored. *)
Lemma parse_payload pkt i i0 got payload : parse_header pkt i = Ret (Some (i0, payload)) → holds i0 got → (length got + length payload ≤ 255)%nat →
  ∃ i', avdtp_parse_data pkt i = Ret (if 1 <? no_of_packets i0 then PARSE_FRAGMENT else PARSE_SUCCESS, i') ∧
    received i0 i' (got ++ payload) ∧ (if 1 <? no_of_packets i0 then active i' = active i0 ∧ no_of_packets i' = no_of_packets i0 - 1 else active i' = false).
Proof.
  intros E Hg Hle. unfold avdtp_parse_data. rewrite E, outcome_bind_ret. destruct (wr_holds i0 got payload Hg ltac:(lia)) as (b & Eb & Hb & Hl).
  pose proof Hg as (Hs & _ & _). rewrite Hs. destruct (Z.ltb_spec 1024 (Z.of_nat (length got) + Z.of_nat (length payload))); [lia|].
  rewrite <- Hs, Eb, outcome_bind_ret. cbn zeta. cbn [no_of_packets].
  assert (to_u8 (data_size i0 + Z.of_nat (length payload)) = Z.of_nat (length (got ++ payload))) as E8.
  { rewrite Hs, length_app. unfold to_u8. rewrite Z.mod_small; lia. }
  destruct (1 <? no_of_packets i0); eexists; (split; [done|]); (split; [|done]);
    (split; [|done]); unfold holds; cbn; rewrite E8, !length_app, Hb; by split_and!.
Qed.

Lemma parse_continue t m i payload : 0 ≤ t < 16 → 0 ≤ m < 4 → active i = true → in_transaction i = t →
  parse_header (header t AVDTP_PKT_TYPE_CONTINUE m :: payload) i = Ret (if no_of_packets i <=? 1 then None else Some (i, payload)) ∧
  parse_header (header t AVDTP_PKT_TYPE_END m :: payload) i = Ret (if 1 <? no_of_packets i then None else Some (i, payload)).
Proof.
  intros Ht Hm Ha Hti. unfold parse_header. cbn [rd8]. rewrite !outcome_bind_ret. cbn zeta.
  destruct (header_fields t AVDTP_PKT_TYPE_CONTINUE m Ht ltac:(done) Hm) as (-> & -> & _).
  destruct (header_fields t AVDTP_PKT_TYPE_END m Ht ltac:(done) Hm) as (-> & -> & _).
  destruct (Z.ltb_spec (Z.of_nat (length (header t AVDTP_PKT_TYPE_CONTINUE m :: payload))) 1) as [H|_]; [cbn [length] in H; lia|].
  destruct (Z.ltb_spec (Z.of_nat (length (header t AVDTP_PKT_TYPE_END m :: payload))) 1) as [H|_]; [cbn [length] in H; lia|].
  rewrite Ha, Hti. unfold AVDTP_PKT_TYPE_CONTINUE, AVDTP_PKT_TYPE_END, AVDTP_PKT_TYPE_SINGLE, AVDTP_PKT_TYPE_START.
  cbn [Z.eqb Pos.eqb negb drop]. rewrite drop_0, Z.eqb_refl. cbn [negb]. split; [by destruct (_ <=? _)|by destruct (_ <? _)].
Qed.

Lemma conts_feed n c t m data i got : 0 ≤ t < 16 → 0 ≤ m < 4 → (0 < c)%nat → (0 < length data ≤ n)%nat →
  active i = true → in_transaction i = t → holds i got → (length got + length data ≤ 255)%nat →
  no_of_packets i = Z.of_nat (length data) / Z.of_nat c + 1 →
  ∃ k r i', feed (conts n c t m data) i = Ret (replicate k PARSE_FRAGMENT ++ [r], i') ∧
    (if decide (Z.of_nat (length data) mod Z.of_nat c = 0) then r = PARSE_ERROR
     else r = PARSE_SUCCESS ∧ active i' = false ∧ received i i' (got ++ data)).
Proof.
  intros Ht Hm Hc. revert data i got. induction n as [|n IH]; intros data i got Hn Ha Hti Hg Hle Hno; [lia|]. cbn [conts].
  rewrite decide_False by lia. case_decide as E; cbn [feed].
  - destruct (parse_continue t m i (take c data) Ht Hm Ha Hti) as [Ep _].
    assert (1 < no_of_packets i) as Hgt.
    { rewrite Hno. pose proof (Z.div_le_lower_bound (Z.of_nat (length data)) (Z.of_nat c) 1 ltac:(lia) ltac:(lia)). lia. }
    destruct (Z.leb_spec (no_of_packets i) 1); [lia|].
    destruct (parse_payload _ i i got (take c data) Ep Hg) as (i1 & E1 & Hr & Hrest); [rewrite length_take; lia|].
    destruct (Z.ltb_spec 1 (no_of_packets i)); [|lia]. destruct Hrest as [Ha1 Hno1]. rewrite E1, outcome_bind_ret. cbn [fst snd].
    assert (Z.of_nat (length data) = Z.of_nat (length (drop c data)) + 1 * Z.of_nat c) as El by (rewrite length_drop; lia).
    destruct (IH (drop c data) i1 (got ++ take c data)) as (k & r & i' & -> & Hres).
    + rewrite length_drop. lia.
    + congruence.
    + destruct Hr as (_ & -> & _). done.
    + apply Hr.
    + rewrite length_app, length_take, length_drop. lia.
    + rewrite Hno1, Hno, El, Z.div_add by lia. lia.
    + rewrite outcome_bind_ret. exists (S k), r, i'. split; [done|]. rewrite El, Z.mod_add by lia.
      case_decide; [done|]. destruct Hres as (-> & Ha' & Hr'). split; [done|]. split; [done|].
      rewrite <- app_assoc, take_drop in Hr'. destruct Hr as (_ & R1 & R2 & R3), Hr' as (H' & R4 & R5 & R6). repeat split; try apply H'; congruence.
  - destruct (parse_continue t m i data Ht Hm Ha Hti) as [_ Ep].
    assert (Z.of_nat (length data) mod Z.of_nat c = 0 ↔ length data = c) as Hmod.
    { destruct (decide (length data = c)) as [->|]; [by rewrite Z.mod_same by lia|]. rewrite Z.mod_small by lia. lia. }
    exists 0%nat. case_decide as Ed.
    + rewrite Hmod in Ed. rewrite Ed, Z.div_same in Hno by lia. destruct (Z.ltb_spec 1 (no_of_packets i)); [|lia].
      unfold avdtp_parse_data. rewrite Ep, !outcome_bind_ret. by eexists _, _.
    + rewrite Z.div_small in Hno by lia. destruct (Z.ltb_spec 1 (no_of_packets i)); [lia|].
      destruct (parse_payload _ i i got data Ep Hg ltac:(lia)) as (i1 & E1 & Hr & Hrest). destruct (Z.ltb_spec 1 (no_of_packets i)); [lia|].
      rewrite E1, !outcome_bind_ret. by eexists _, _.
Qed.

Lemma parse_first t m sig n i payload : 0 ≤ t < 16 → 0 ≤ m < 4 → 0 ≤ sig < 64 → active i = false →
  parse_header (header t AVDTP_PKT_TYPE_SINGLE m :: signal_octet sig :: payload) i = Ret (Some (InBuf true 1 t m sig (buf i) 0, payload)) ∧
  parse_header (header t AVDTP_PKT_TYPE_START m :: n :: signal_octet sig :: payload) i = Ret (Some (InBuf true n t m sig (buf i) 0, payload)).
Proof.
  intros Ht Hm Hs Ha. unfold parse_header. cbn [rd8 drop]. rewrite !outcome_bind_ret. cbn zeta.
  destruct (header_fields t AVDTP_PKT_TYPE_SINGLE m Ht ltac:(done) Hm) as (-> & -> & ->).
  destruct (header_fields t AVDTP_PKT_TYPE_START m Ht ltac:(done) Hm) as (-> & -> & ->).
  rewrite !signal_octet_land by done. rewrite Ha.
  destruct (Z.ltb_spec (Z.of_nat (length (header t AVDTP_PKT_TYPE_SINGLE m :: signal_octet sig :: payload))) 2) as [H|_]; [cbn [length] in H; lia|].
  destruct (Z.ltb_spec (Z.of_nat (length (header t AVDTP_PKT_TYPE_START m :: n :: signal_octet sig :: payload))) 3) as [H|_]; [cbn [length] in H; lia|].
  unfold AVDTP_PKT_TYPE_SINGLE, AVDTP_PKT_TYPE_START. cbn [Z.eqb Pos.eqb]. by rewrite !drop_0.
Qed.

(** A message has arrived. *)
Definition message (i : in_buf) (t m sig : Z) (data : list Z) : Prop :=
  active i = false ∧ in_transaction i = t ∧ in_message_type i = m ∧ in_signal_id i = sig ∧ holds i data.

Lemma packets_feed omtu t m sig data i : 3 ≤ omtu → 0 ≤ t < 16 → 0 ≤ m < 4 → 0 ≤ sig < 64 → (length data ≤ 255)%nat →
  active i = false → length (buf i) = 1024%nat →
  ∃ k r i', feed (packets omtu t m sig data) i = Ret (replicate k PARSE_FRAGMENT ++ [r], i') ∧
    (if decide (omtu < 2 + Z.of_nat (length data) ∧ (Z.of_nat (length data) - (omtu - 3)) mod (omtu - 1) = 0) then r = PARSE_ERROR
     else r = PARSE_SUCCESS ∧ message i' t m sig data).
Proof.
  intros Ho Ht Hm Hs Hle Ha Hl. unfold packets. cbn zeta. set (len := Z.of_nat (length data)).
  assert (∀ n, holds (InBuf true n t m sig (buf i) 0) []) as H0 by (intros n; by repeat split).
  destruct (Z.leb_spec (2 + len) omtu).
  - cbn [feed]. destruct (parse_first t m sig 0 i data Ht Hm Hs Ha) as [E _].
    destruct (parse_payload _ _ _ [] data E (H0 1) ltac:(cbn; lia)) as (i' & -> & Hr & Hi). rewrite !outcome_bind_ret.
    exists 0%nat, PARSE_SUCCESS, i'. split; [done|]. rewrite decide_False by lia. split; [done|]. destruct Hr as (? & ? & ? & ?). by split_and!.
  - cbn [feed]. set (rest := drop (Z.to_nat (omtu - 3)) data). set (c := Z.to_nat (omtu - 1)).
    assert (Z.of_nat (length rest) = len - (omtu - 3)) as Er by (unfold rest; rewrite length_drop; lia).
    assert ((len - (omtu - 3)) / (omtu - 1) ≤ 128) as Hd by (apply Z.div_le_upper_bound; lia).
    pose proof (Z.div_pos (len - (omtu - 3)) (omtu - 1) ltac:(lia) ltac:(lia)).
    destruct (parse_first t m sig (to_u8 ((len - (omtu - 3)) / (omtu - 1) + 2)) i (take (Z.to_nat (omtu - 3)) data) Ht Hm Hs Ha) as [_ E].
    assert (to_u8 ((len - (omtu - 3)) / (omtu - 1) + 2) = (len - (omtu - 3)) / (omtu - 1) + 2) as E8 by (unfold to_u8; apply Z.mod_small; lia).
    rewrite E8 in *. destruct (parse_payload _ _ _ [] _ E (H0 _)) as (i1 & -> & Hr & Hi); [cbn [length]; rewrite length_take; lia|].
    cbn [no_of_packets] in *. destruct (Z.ltb_spec 1 ((len - (omtu - 3)) / (omtu - 1) + 2)); [|lia]. destruct Hi as [Ha1 Hn1].
    rewrite outcome_bind_ret. cbn [fst snd]. destruct Hr as (R0 & R1 & R2 & R3).
    destruct (conts_feed (length rest) c t m rest i1 (take (Z.to_nat (omtu - 3)) data) Ht Hm) as (k & r & i' & -> & Hres); try done.
    + lia.
    + lia.
    + unfold rest. rewrite length_take, length_drop. lia.
    + rewrite Hn1, Er. replace (Z.of_nat c) with (omtu - 1) by lia. cbn [no_of_packets]. lia.
    + rewrite outcome_bind_ret. exists (S k), r, i'. split; [done|]. rewrite Er in Hres. replace (Z.of_nat c) with (omtu - 1) in Hres by lia.
      destruct (decide ((len - (omtu - 3)) mod (omtu - 1) = 0)) as [Hz|Hz]; [rewrite decide_True by lia; done|].
      rewrite decide_False by tauto. destruct Hres as (-> & Ha' & R4 & R5 & R6 & R7). split; [done|].
      unfold rest in R4. rewrite take_drop in R4. cbn in *. split_and!; try done; congruence.
Qed.

(** C22: what [avdtp_send] cuts a message of up to 255 octets into is put together
    by [avdtp_parse_data] at the other end: every packet but the last is a
    fragment, and with the last the message is there, with its transaction, type,
    signal and octets. There is one exception, in the code as it is: when what
    does not fit the first packet is a whole number of continue packets, the
    number of packets announced is one too large and the last is refused. *)
Theorem message_roundtrip {U} (s : avdtp U) (t m sig : Z) (data : list Z) (i : in_buf) :
  0 ≤ sock s → faults s = [] → 3 ≤ omtu s ≤ imtu s → 0 ≤ t < 16 → 0 ≤ m < 4 → 0 ≤ sig < 64 → (length data ≤ 255)%nat →
  active i = false → length (buf i) = 1024%nat →
  ∃ pkts k r i', avdtp_send t m sig data s = Ret (true, set_sent (sent s ++ pkts) s) ∧
    feed pkts i = Ret (replicate k PARSE_FRAGMENT ++ [r], i') ∧
    (if decide (omtu s < 2 + Z.of_nat (length data) ∧ (Z.of_nat (length data) - (omtu s - 3)) mod (omtu s - 1) = 0) then r = PARSE_ERROR
     else r = PARSE_SUCCESS ∧ message i' t m sig data).
Proof.
  intros Hsock Hf Ho Ht Hm Hs Hle Ha Hl. destruct (packets_feed (omtu s) t m sig data i) as (k & r & i' & E & Hr); try done; [lia|].
  exists (packets (omtu s) t m sig data), k, r, i'. split; [by apply avdtp_send_ok|]. by split.
Qed.

(** A session that is connected, with room for packets of 48 octets. *)
Definition connected_48 : avdtp unit :=
  Avdtp 5 AVDTP_SESSION_STATE_CONNECTED 672 48 (InBuf false 0 0 0 0 (replicate 1024 0) 0) None [] [] None [] [] false true 0 ∅ ∅ [] 1 [] [] [] [] tt.

Lemma message_roundtrip_witness : 0 ≤ sock connected_48 ∧ 3 ≤ omtu connected_48 ≤ imtu connected_48 ∧
  ∃ pkts k r i', avdtp_send 3 AVDTP_MSG_TYPE_ACCEPT AVDTP_GET_CAPABILITIES (replicate 100 7) connected_48 = Ret (true, set_sent (sent connected_48 ++ pkts) connected_48) ∧
    feed pkts (inb connected_48) = Ret (replicate k PARSE_FRAGMENT ++ [r], i') ∧
    (if decide (omtu connected_48 < 2 + Z.of_nat (length (replicate 100 7)) ∧ (Z.of_nat (length (replicate 100 7)) - (omtu connected_48 - 3)) mod (omtu connected_48 - 1) = 0) then r = PARSE_ERROR
     else r = PARSE_SUCCESS ∧ message i' 3 AVDTP_MSG_TYPE_ACCEPT AVDTP_GET_CAPABILITIES (replicate 100 7)).
Proof.
  split; [by vm_compute|]. split; [by vm_compute|].
  apply (message_roundtrip connected_48 3 AVDTP_MSG_TYPE_ACCEPT AVDTP_GET_CAPABILITIES (replicate 100 7) (inb connected_48)); try (by vm_compute).
  rewrite length_replicate. lia.
Defined.

(** Continue packets that fit exactly: the last packet is refused. *)
Example message_exact : match avdtp_send 3 AVDTP_MSG_TYPE_ACCEPT AVDTP_GET_CAPABILITIES (replicate 92 7) connected_48 with
  | Ret (ok, s) => ok = true ∧ match feed (sent s) (inb connected_48) with Ret (rs, _) => rs = [PARSE_FRAGMENT; PARSE_ERROR] | _ => False end
  | _ => False
  end.
Proof. by vm_compute. Qed.

(** The header of any packet is read inside the packet, and what it starts is a
    message that fits the buffer. *)
Lemma parse_header_safe pkt i : pkt ≠ [] → Forall byte_ok pkt → in_ok i →
  ∃ r, parse_header pkt i = Ret r ∧ ∀ i' payload, r = Some (i', payload) → in_ok i' ∧ Forall byte_ok payload.
Proof.
  intros Hp Hb Hi. destruct pkt as [|h pkt]; [done|]. unfold parse_header. cbn [rd8]. rewrite outcome_bind_ret. cbn zeta.
  apply Forall_cons in Hb as [_ Hb].
  assert (∀ c t m sig, in_ok (InBuf true c t m sig (buf i) 0)) as H0 by (intros; split; [apply Hi|split; [apply Hi|cbn; lia]]).
  repeat case_match; try (by eexists).
  - destruct pkt as [|b pkt]; [cbn in *; done|]. cbn [drop rd8]. rewrite outcome_bind_ret. eexists. split; [done|]. intros ? ? [= <- <-]. split; [done|]. by repeat (apply Forall_cons in Hb as [_ Hb]).
  - destruct pkt as [|b [|b' pkt]]; [cbn in *; done|cbn in *; done|]. cbn [drop rd8]. rewrite !outcome_bind_ret. eexists. split; [done|]. intros ? ? [= <- <-]. split; [done|]. by repeat (apply Forall_cons in Hb as [_ Hb]).
  - eexists. split; [done|]. intros ? ? [= <- <-]. by split.
  - eexists. split; [done|]. intros ? ? [= <- <-]. by split.
Qed.

(** On any packet the parser ends and stores inside its buffer. *)
Lemma parse_data_safe pkt i : pkt ≠ [] → Forall byte_ok pkt → in_ok i → ∃ r i', avdtp_parse_data pkt i = Ret (r, i') ∧ in_ok i'.
Proof.
  intros Hp Hb Hi. unfold avdtp_parse_data. destruct (parse_header_safe pkt i Hp Hb Hi) as (r & -> & Hr). rewrite outcome_bind_ret.
  destruct r as [[i1 payload]|]; [|by eexists _, _]. destruct (Hr _ _ eq_refl) as [(Hl & Hib & Hd) Hpb].
  destruct (Z.ltb_spec 1024 (data_size i1 + Z.of_nat (length payload))); [by eexists _, _|].
  unfold wr. rewrite decide_True by lia. rewrite outcome_bind_ret. cbn zeta. cbn [no_of_packets].
  destruct (1 <? no_of_packets i1); eexists _, _; (split; [done|]); (split; [cbn [buf]; rewrite !length_app, length_take, length_drop; lia|split; [by repeat apply Forall_app_2; auto using Forall_take, Forall_drop|]]); cbn; unfold to_u8; apply Z.mod_pos_bound; lia.
Qed.

(** * Capabilities *)

Definition cap_ok (c : capability) : Prop := cap_length c ≤ 255.

(** Whatever the octets, the list ends and holds what they say, in order, up to
    the first capability that is cut off. *)
Lemma caps_loop_total fuel data caps codec : (length data < fuel)%nat → Forall byte_ok data →
  ∃ new c, caps_loop fuel data caps codec = Ret (caps ++ new, c) ∧ Forall cap_ok new ∧ concat (map cap_bytes new) `prefix_of` data.
Proof.
  revert data caps codec. induction fuel as [|fuel IH]; intros data caps codec Hf Hb; [lia|]. cbn [caps_loop].
  destruct (Z.leb_spec (Z.of_nat (length data)) 2).
  { exists [], codec. rewrite app_nil_r. split; [done|]. split; [done|]. apply prefix_nil. }
  destruct data as [|b0 [|b1 data]]; [cbn in *; lia|cbn in *; lia|]. cbn [rd8 drop]. rewrite !outcome_bind_ret, drop_0.
  apply Forall_cons in Hb as [_ [H1 Hb]%Forall_cons]. unfold byte_ok in H1. cbn [length] in *.
  destruct (Z.ltb_spec (Z.of_nat (S (S (length data)))) (2 + b1)).
  { exists [], codec. rewrite app_nil_r. split; [done|]. split; [done|]. apply prefix_nil. }
  cbn zeta. set (c := Cap b0 (take (Z.to_nat b1) data)). set (cd := if _ && _ then _ else _).
  replace (Z.to_nat (2 + b1)) with (S (S (Z.to_nat b1))) by lia. cbn [drop].
  destruct (IH (drop (Z.to_nat b1) data) (caps ++ [c]) cd) as (new & c' & -> & Hok & Hpre); [rewrite length_drop; lia|by apply Forall_drop|].
  exists (c :: new), c'. rewrite <- app_assoc. split; [done|].
  assert (cap_length c = b1) as El by (unfold cap_length, c; cbn; rewrite length_take; lia).
  split; [constructor; [unfold cap_ok; lia|done]|].
  change (concat (map cap_bytes (c :: new))) with (b0 :: cap_length c :: take (Z.to_nat b1) data ++ concat (map cap_bytes new)). rewrite El.
  apply prefix_cons, prefix_cons. destruct Hpre as [k Hk]. exists k. rewrite <- app_assoc, <- Hk. symmetry. apply take_drop.
Qed.

(** Written capabilities are read back, but for an empty one at the end. *)
Fixpoint drop_empty_last (l : list capability) : list capability :=
  match l with
  | [] => []
  | [c] => if decide (cap_data c = []) then [] else [c]
  | c :: l => c :: drop_empty_last l
  end.

Lemma caps_loop_roundtrip fuel l caps codec : (length (concat (map cap_bytes l)) < fuel)%nat →
  ∃ c, caps_loop fuel (concat (map cap_bytes l)) caps codec = Ret (caps ++ drop_empty_last l, c).
Proof.
  revert l caps codec. induction fuel as [|fuel IH]; intros l caps codec Hf; [lia|]. cbn [caps_loop].
  destruct l as [|c l]; [cbn; rewrite app_nil_r; by eexists|].
  assert (concat (map cap_bytes (c :: l)) = category c :: cap_length c :: cap_data c ++ concat (map cap_bytes l)) as E by done.
  rewrite E in *. cbn [length] in Hf |- *. rewrite length_app in Hf |- *.
  destruct (Z.leb_spec (Z.of_nat (S (S (length (cap_data c) + length (concat (map cap_bytes l)))))) 2).
  { assert (cap_data c = []) as Ec by (apply nil_length_inv; lia). destruct l as [|c' l]; [|cbn in *; lia].
    cbn [drop_empty_last]. rewrite decide_True by done. rewrite app_nil_r. by eexists. }
  cbn [rd8 drop]. rewrite !outcome_bind_ret, drop_0. unfold cap_length at 1.
  destruct (Z.ltb_spec (Z.of_nat (S (S (length (cap_data c) + length (concat (map cap_bytes l)))))) (2 + Z.of_nat (length (cap_data c)))); [lia|].
  cbn zeta. assert (Z.to_nat (cap_length c) = length (cap_data c)) as El by (unfold cap_length; lia). rewrite El, take_app_length.
  replace (Z.to_nat (2 + cap_length c)) with (S (S (length (cap_data c)))) by (unfold cap_length; lia). cbn [drop]. rewrite drop_app_length.
  destruct (IH l (caps ++ [Cap (category c) (cap_data c)]) (if (category c =? AVDTP_MEDIA_CODEC) && (2 <=? cap_length c) then Some (Cap (category c) (cap_data c)) else codec)) as [cd ->]; [lia|].
  exists cd. rewrite <- app_assoc. assert (Cap (category c) (cap_data c) = c) as -> by (by destruct c). destruct l as [|c' l]; [|done].
  cbn [drop_empty_last app]. rewrite decide_False; [done|]. intros Ec. rewrite Ec in *. cbn in *. lia.
Qed.

(** C23: the capabilities written into a message are those read from it, in
    order, whatever they are, except that one without data at the end is lost;
    and from any octets at all the parser reads whole capabilities only and ends
    inside the message. *)
Theorem capabilities_roundtrip :
  (∀ l, ∃ codec, caps_to_list (concat (map cap_bytes l)) = Ret (drop_empty_last l, codec)) ∧
  (∀ data, Forall byte_ok data → ∃ l codec, caps_to_list data = Ret (l, codec) ∧ concat (map cap_bytes l) `prefix_of` data).
Proof.
  split.
  - intros l. destruct (caps_loop_roundtrip (S (length (concat (map cap_bytes l)))) l [] None) as [c E]; [lia|]. by exists c.
  - intros data Hb. destruct (caps_loop_total (S (length data)) data [] None) as (l & c & E & _ & Hp); [lia|done|]. by exists l, c.
Qed.

Lemma capabilities_roundtrip_witness : Forall byte_ok [1; 0; 7; 4; 0; 0; 33; 21; 4] ∧
  ∃ l codec, caps_to_list [1; 0; 7; 4; 0; 0; 33; 21; 4] = Ret (l, codec) ∧ concat (map cap_bytes l) `prefix_of` [1; 0; 7; 4; 0; 0; 33; 21; 4].
Proof.
  assert (Forall byte_ok [1; 0; 7; 4; 0; 0; 33; 21; 4]) as H by (repeat constructor; unfold byte_ok; lia).
  split; [exact H|]. destruct capabilities_roundtrip as [_ Hc]. exact (Hc _ H).
Defined.
