(* ===== verification/AvdtpAcceptor.v ===== *)
(** utils/audio/avdtp.c: the acceptor. The state of a session and its stream
    end points stays consistent under any packets of the other device and any
    events of the transport channels and timers, with nothing freed used; and
    every command has the effect and the answer the table of the stream end
    point's states says. *)

From stdpp Require Import base list numbers gmap.
From Stdlib Require Import ZArith Lia.
From S2P Require Import Prelude CString SdpTypes SdpList Heap Avdtp AvdtpFrame.

Local Open Scope Z_scope.

(** * The invariant *)

Record wf {U} (s : avdtp U) : Prop := {
  wf_in : in_ok (inb s);
  wf_mtu : 0 ≤ sock s → 3 ≤ omtu s ≤ imtu s;
  wf_local : NoDup (local_seps s) ∧ ∀ a, a ∈ local_seps s ↔ is_Some (sep_at s !! a);
  wf_free : ∀ a l, sep_at s !! a = Some l → seid l < free_seid s;
  wf_seid : ∀ a b x y, sep_at s !! a = Some x → sep_at s !! b = Some y → seid x = seid y → a = b;
  wf_nodup : NoDup (streams s);
  wf_stream : ∀ st, st ∈ streams s → ∃ x l, stream_at s !! st = Some x ∧ sep_at s !! s_lsep x = Some l ∧ ls_stream l = Some st;
  wf_sep : ∀ a l st, sep_at s !! a = Some l → ls_stream l = Some st → st ∈ streams s ∧ ∃ x, stream_at s !! st = Some x ∧ s_lsep x = a;
  wf_active : ∀ st x, stream_at s !! st = Some x → s_io x = true ∨ s_timer x ≠ None → st ∈ streams s;
  wf_idle : ∀ a l, sep_at s !! a = Some l → ls_stream l = None → state l = AVDTP_STATE_IDLE;
  wf_pending : ∀ st, pending_open s = Some st → st ∈ streams s;
  wf_reqs : ∀ r, req s = Some r ∨ r ∈ req_queue s ∨ r ∈ prio_queue s → r_signal_id r = AVDTP_ABORT
}.

Section acceptor.
Context {U : Type} (malloc : gset Z → Z) (malloc_fresh : ∀ X, malloc X ∉ X) (calls : callbacks U).
Implicit Types s : avdtp U.

(** What the invariant does not look at. *)
Lemma wf_same s s' : wf s → inb s' = inb s → (0 ≤ sock s' → sock s' = sock s) → imtu s' = imtu s → omtu s' = omtu s → local_seps s' = local_seps s →
  free_seid s' = free_seid s → sep_at s' = sep_at s → streams s' = streams s → stream_at s' = stream_at s → pending_open s' = pending_open s →
  req s' = req s → req_queue s' = req_queue s → prio_queue s' = prio_queue s → wf s'.
Proof.
  intros [] E1 E2 E3 E4 E5 E5' E6 E7 E8 E9 E10 E11 E12. split; rewrite ?E1, ?E3, ?E4, ?E5, ?E5', ?E6, ?E7, ?E8, ?E9, ?E10, ?E11, ?E12; try done.
  intros H. rewrite E2 in H by done. auto.
Qed.

(** A stream whose fields change, but for its end point. *)
Lemma wf_set_stream st x y s : wf s → stream_at s !! st = Some x → s_lsep y = s_lsep x → st ∈ streams s → wf (set_stream st y s).
Proof.
  intros [] Hx Hy Hst. split; cbn; try done.
  - intros st' Hin. destruct (wf_stream0 st' Hin) as (x' & l & Hx' & Hl & Hs). destruct (decide (st = st')) as [<-|Hne].
    + exists y, l. rewrite lookup_insert_eq. simplify_eq. by rewrite Hy.
    + exists x', l. by rewrite lookup_insert_ne.
  - intros a l st' Hl Hs. destruct (wf_sep0 a l st' Hl Hs) as [Hin (x' & Hx' & Ha)]. split; [done|]. destruct (decide (st = st')) as [<-|Hne].
    + exists y. rewrite lookup_insert_eq. simplify_eq. by rewrite Hy.
    + exists x'. by rewrite lookup_insert_ne.
  - intros st' z Hz Ha. apply lookup_insert_Some in Hz as [[<- _]|[_ Hz]]; [done|by eapply wf_active0].
Qed.

(** An end point with a stream changes its state. *)
Lemma wf_set_state a l st new s : wf s → sep_at s !! a = Some l → ls_stream l = Some st → wf (set_sep a (with_state new l) s).
Proof.
  intros [] Hl Hs. split; cbn; try done.
  - destruct wf_local0 as [H1 H2]. split; [done|]. intros b. rewrite H2. destruct (decide (a = b)) as [<-|Hne]; [rewrite lookup_insert_eq, Hl; split; eauto|by rewrite lookup_insert_ne].
  - intros b x Hx. apply lookup_insert_Some in Hx as [[<- <-]|[Hb Hx]]; [by apply (wf_free0 a l)|by eapply wf_free0].
  - intros b c x y Hx Hy E. apply lookup_insert_Some in Hx as [[<- <-]|[Hb Hx]], Hy as [[<- <-]|[Hc Hy]]; [done|by apply (wf_seid0 a c l y)|by apply (wf_seid0 b a x l)|by apply (wf_seid0 b c x y)].
  - intros st' Hin. destruct (wf_stream0 st' Hin) as (x & l' & Hx & Hl' & Hs'). destruct (decide (a = s_lsep x)) as [->|Hne].
    + exists x, (with_state new l). rewrite lookup_insert_eq. by simplify_eq.
    + exists x, l'. by rewrite lookup_insert_ne.
  - intros b l' st' Hl' Hs'. apply lookup_insert_Some in Hl' as [[<- <-]|[_ Hl']]; [by apply (wf_sep0 a l)|by apply (wf_sep0 b l')].
  - intros b l' Hl' Hs'. apply lookup_insert_Some in Hl' as [[<- <-]|[_ Hl']]; [cbn in Hs'; congruence|by apply (wf_idle0 b l')].
Qed.

(** ** Sending *)

Lemma try_send_total d s : ∃ ok sn f, try_send d s = (ok, set_sent sn (set_faults f s)).
Proof.
  unfold try_send. destruct (faults s) as [|[] f].
  - by eexists _, _, _.
  - by eexists _, _, _.
  - exists false, (sent s), f. by destruct s.
Qed.

Lemma send_loop_total fuel t m data s : 3 ≤ omtu s → (length data < fuel)%nat →
  ∃ ok sn f, send_loop fuel t m data s = Ret (ok, set_sent sn (set_faults f s)).
Proof.
  revert data s. induction fuel as [|fuel IH]; intros data s Ho Hl; [lia|]. cbn [send_loop].
  destruct (Z.eqb_spec (Z.of_nat (length data)) 0).
  { exists true, (sent s), (faults s). by destruct s. }
  destruct (if _ : bool then _ else _) as [pt tc] eqn:E.
  assert (1 ≤ tc) as Htc by (destruct (omtu s <? Z.of_nat (length data) + 1); injection E as _ <-; lia).
  destruct (try_send_total (header t pt m :: take (Z.to_nat tc) data) s) as (ok & sn & f & ->). destruct ok; [|by eexists _, _, _].
  destruct (IH (drop (Z.to_nat tc) data) (set_sent sn (set_faults f s)) Ho) as (ok & sn' & f' & ->); [rewrite length_drop; lia|].
  by exists ok, sn', f'.
Qed.

Lemma avdtp_send_total t m sig data s : (0 ≤ sock s → 3 ≤ omtu s ≤ imtu s) →
  ∃ ok sn f, avdtp_send t m sig data s = Ret (ok, set_sent sn (set_faults f s)).
Proof.
  intros Ho. unfold avdtp_send. cbn zeta. destruct (Z.ltb_spec (sock s) 0).
  { exists false, (sent s), (faults s). by destruct s. }
  destruct (Z.leb_spec (2 + Z.of_nat (length data)) (omtu s)).
  - destruct (Z.ltb_spec (imtu s) (2 + Z.of_nat (length data))); [lia|].
    destruct (try_send_total (header t AVDTP_PKT_TYPE_SINGLE m :: signal_octet sig :: data) s) as (ok & sn & f & ->). by eexists _, _, _.
  - destruct (Z.ltb_spec (omtu s) 3); [lia|]. destruct (Z.ltb_spec (imtu s) (omtu s)); [lia|].
    match goal with |- context [try_send ?d s] => destruct (try_send_total d s) as (ok & sn & f & ->) end. destruct ok; [|by eexists _, _, _].
    destruct (send_loop_total (S (length data)) t m (drop (Z.to_nat (omtu s - 3)) data) (set_sent sn (set_faults f s))) as (ok & sn' & f' & ->); [cbn; lia|rewrite length_drop; lia|].
    by exists ok, sn', f'.
Qed.

Lemma wf_sent sn f s : wf s → wf (set_sent sn (set_faults f s)).
Proof. intros Hwf. by apply (wf_same s). Qed.

Lemma send_wf t m sig data s : wf s → ∃ ok s', avdtp_send t m sig data s = Ret (ok, s') ∧ wf s'.
Proof.
  intros Hwf. destruct (avdtp_send_total t m sig data s (wf_mtu _ Hwf)) as (ok & sn & f & ->). eexists _, _. split; [done|]. by apply wf_sent.
Qed.
(** ** Changes of state *)

Lemma set_stream_id st x s : stream_at s !! st = Some x → set_stream st x s = s.
Proof. intros Hx. unfold set_stream. rewrite insert_id by done. by destruct s. Qed.

(** A stream that leaves: its end point is free, the stream is gone, nothing
    else of them changes. *)
Definition released (st a : Z) s s' : Prop :=
  streams s' = sdp_list_remove (streams s) st ∧ stream_at s' = delete st (stream_at s) ∧ local_seps s' = local_seps s ∧
  (∀ b, b ≠ a → sep_at s' !! b = sep_at s !! b) ∧
  (∃ l, sep_at s' !! a = Some l ∧ ls_stream l = None ∧ state l = AVDTP_STATE_IDLE) ∧
  sock s' = sock s ∧ omtu s' = omtu s ∧ imtu s' = imtu s.

Lemma stream_idle_spec st x l s : wf s → st ∈ streams s → stream_at s !! st = Some x → sep_at s !! s_lsep x = Some l → state l = AVDTP_STATE_IDLE →
  ∃ s', stream_idle calls st s = Ret s' ∧ wf s' ∧ released st (s_lsep x) s s'.
Proof.
  intros Hwf Hin Hx Hl Hst. pose proof Hwf as []. destruct (wf_stream0 st Hin) as (x' & l' & Hx' & Hl' & Hs). simplify_eq.
  unfold stream_idle. rewrite (at_ptr_Some _ _ _ Hx), outcome_bind_ret. cbn zeta.
  set (s1 := set_streams _ _).
  assert (∃ p, (if bool_decide (pending_open s1 = Some st) then transport_failed calls s1 else Ret s1) = Ret (set_pending_open p s1) ∧
    (∀ st', p = Some st' → pending_open s = Some st' ∧ st' ≠ st)) as (p & -> & Hp).
  { case_bool_decide as Ep; change (pending_open s1) with (pending_open s) in Ep.
    - exists None. split; [|done]. unfold transport_failed. change (pending_open s1) with (pending_open s). rewrite Ep.
      assert (stream_at s1 !! st = Some (with_idle_timer false x)) as E1 by (cbn; by rewrite lookup_insert_eq).
      rewrite (at_ptr_Some _ _ _ E1), outcome_bind_ret. rewrite bool_decide_true; [done|]. cbn. rewrite elem_of_list_remove by done. tauto.
    - exists (pending_open s). split; [by destruct s|]. intros st' Hst'. split; [done|]. congruence. }
  rewrite outcome_bind_ret. set (s2 := set_pending_open p s1).
  assert (∃ r, (match req s2 with Some r => if bool_decide (r_stream r = Some st) then set_req (Some (Req (r_transaction r) (r_signal_id r) (r_data r) None)) s2 else s2 | None => s2 end) = set_req r s2 ∧
    (∀ r', r = Some r' → ∃ r0, req s = Some r0 ∧ r_signal_id r' = r_signal_id r0)) as (r & -> & Hr).
  { change (req s2) with (req s). destruct (req s) as [r0|] eqn:Er; [case_bool_decide|].
    - eexists. split; [done|]. intros r' [= <-]. by exists r0.
    - exists (req s). split; [by destruct s|]. rewrite Er. intros r' [= <-]. by exists r0.
    - exists (req s). split; [by destruct s|]. rewrite Er. done. }
  unfold stream_free. rewrite (at_ptr_Some _ _ (with_idle_timer false x)), outcome_bind_ret by (cbn; by rewrite lookup_insert_eq).
  rewrite (at_ptr_Some _ _ l), outcome_bind_ret by done. cbn zeta. eexists. split; [done|].
  match goal with |- context [if 0 <=? ?fd then ?A else ?B] => set (s3 := if 0 <=? fd then A else B) end.
  assert (stream_at s3 = <[st := with_idle_timer false x]> (stream_at s) ∧ streams s3 = sdp_list_remove (streams s) st ∧ local_seps s3 = local_seps s ∧
    sep_at s3 = <[s_lsep x := LocalSep (state l) None (seid l) false (ls_type l) (ls_media_type l) (ls_codec l)]> (sep_at s) ∧ pending_open s3 = p ∧
    req s3 = r ∧ free_seid s3 = free_seid s ∧ req_queue s3 = req_queue s ∧ prio_queue s3 = prio_queue s ∧ inb s3 = inb s ∧ sock s3 = sock s ∧ omtu s3 = omtu s ∧ imtu s3 = imtu s)
    as (E1 & E2 & E3 & E4 & E5 & E6 & E6' & E7 & E8 & E9 & E10 & E11 & E12) by (unfold s3; destruct (0 <=? _); by repeat split).
  clearbody s3. split; [|unfold released; cbn; rewrite E1, E2, E3, E4, delete_insert_eq, E10, E11, E12; split_and!; try done;
    [intros b Hb; by rewrite lookup_insert_ne|eexists; by rewrite lookup_insert_eq]].
  split; cbn; rewrite ?E1, ?E2, ?E3, ?E4, ?E5, ?E6, ?E6', ?E7, ?E8, ?E9, ?E10, ?E11, ?E12, ?delete_insert_eq; try done.
  - destruct wf_local0 as [H1 H2]. split; [done|]. intros b. rewrite H2. destruct (decide (s_lsep x = b)) as [<-|Hne]; [rewrite lookup_insert_eq, Hl; split; eauto|by rewrite lookup_insert_ne].
  - intros b y Hy. apply lookup_insert_Some in Hy as [[<- <-]|[_ Hy]]; [by apply (wf_free0 (s_lsep x) l)|by eapply wf_free0].
  - intros b c y z Hy Hz E. apply lookup_insert_Some in Hy as [[<- <-]|[Hb Hy]], Hz as [[<- <-]|[Hc Hz]]; [done|by apply (wf_seid0 (s_lsep x) c l z)|by apply (wf_seid0 b (s_lsep x) y l)|by apply (wf_seid0 b c y z)].
  - by apply list_remove_NoDup.
  - intros st' [Hin' Hne]%elem_of_list_remove; [|done]. destruct (wf_stream0 st' Hin') as (y & ly & Hy & Hly & Hsy). exists y, ly.
    rewrite lookup_delete_ne by done. split; [done|]. rewrite lookup_insert_ne; [done|]. intros E. rewrite <- E in Hly. congruence.
  - intros b ly st' Hly Hsy. apply lookup_insert_Some in Hly as [[_ <-]|[Hb Hly]]; [done|]. destruct (wf_sep0 b ly st' Hly Hsy) as [Hin' (y & Hy & Ey)].
    assert (st' ≠ st) by (intros ->; congruence). rewrite elem_of_list_remove, lookup_delete_ne by done. split; [done|]. by exists y.
  - intros st' y [Hne Hy]%lookup_delete_Some Ha. rewrite elem_of_list_remove by done. split; [by eapply wf_active0|done].
  - intros b ly Hly Hsy. apply lookup_insert_Some in Hly as [[_ <-]|[Hb Hly]]; [done|by apply (wf_idle0 b)].
  - intros st' Hst'. destruct (Hp st' Hst') as [Hpo Hne]. rewrite elem_of_list_remove by done. auto.
  - intros r' [Hr'|Hr']; [|by apply wf_reqs0; right]. destruct (Hr r' Hr') as (r0 & E0 & ->). apply wf_reqs0. by left.
Qed.
Lemma wf_upper u s : wf s → wf (set_upper u s).
Proof. intros Hwf. by apply (wf_same s). Qed.

Lemma set_state_spec a l st new s : wf s → sep_at s !! a = Some l → ls_stream l = Some st → new ≠ AVDTP_STATE_IDLE →
  ∃ x x' u, stream_at s !! st = Some x ∧ s_lsep x = a ∧ (x' = x ∨ x' = with_idle_timer false x) ∧
    avdtp_sep_set_state calls a new s = Ret (set_stream st x' (set_upper u (set_sep a (with_state new l) s))) ∧
    wf (set_stream st x' (set_upper u (set_sep a (with_state new l) s))).
Proof.
  intros Hwf Hl Hs Hn. destruct (wf_sep _ Hwf a l st Hl Hs) as [Hin (x & Hx & Ha)]. unfold avdtp_sep_set_state.
  rewrite (at_ptr_Some _ _ _ Hl), outcome_bind_ret. cbn zeta. rewrite Hs. set (u := state_cb calls _ _ _ _ _).
  assert (wf (set_upper u (set_sep a (with_state new l) s))) as Hwf' by (by eapply wf_upper, wf_set_state).
  assert (∀ x', x' = x ∨ x' = with_idle_timer false x → wf (set_stream st x' (set_upper u (set_sep a (with_state new l) s)))) as Hwf2.
  { intros x' Hx'. eapply wf_set_stream; [done|exact Hx| |done]. by destruct Hx' as [->| ->]. }
  assert (set_stream st x (set_upper u (set_sep a (with_state new l) s)) = set_upper u (set_sep a (with_state new l) s)) as Eid by (by apply set_stream_id).
  exists x. destruct new; try done;
    first [exists x, u; split_and!; [done|done|by left|by rewrite Eid|by apply Hwf2; left]
          |exists (with_idle_timer false x), u; split_and!; [done|done|by right| |by apply Hwf2; right];
           cbn [stream_at]; by rewrite (at_ptr_Some _ _ x), outcome_bind_ret].
Qed.

Lemma set_idle_spec a l st s : wf s → sep_at s !! a = Some l → ls_stream l = Some st →
  ∃ s', avdtp_sep_set_state calls a AVDTP_STATE_IDLE s = Ret s' ∧ wf s' ∧ released st a s s'.
Proof.
  intros Hwf Hl Hs. destruct (wf_sep _ Hwf a l st Hl Hs) as [Hin (x & Hx & Ha)]. unfold avdtp_sep_set_state.
  rewrite (at_ptr_Some _ _ _ Hl), outcome_bind_ret. cbn zeta. rewrite Hs. set (u := state_cb calls _ _ _ _ _).
  set (s1 := set_upper u _). assert (wf s1) as Hwf1 by (by eapply wf_upper, wf_set_state).
  rewrite bool_decide_true by done.
  destruct (stream_idle_spec st x (with_state AVDTP_STATE_IDLE l) s1) as (s' & E & Hwf' & Hr); try done.
  { cbn. by rewrite Ha, lookup_insert_eq. }
  exists s'. split; [done|]. split; [done|]. rewrite Ha in Hr. destruct Hr as (R1 & R2 & R3 & R4 & R5 & R6).
  split; [exact R1|]. split; [exact R2|]. split; [exact R3|]. split; [|split; [exact R5|exact R6]].
  intros b Hb. rewrite R4 by done. cbn. by rewrite lookup_insert_ne.
Qed.

(** The end point of a stream of the session. *)
Lemma wf_stream_sep st s : wf s → st ∈ streams s → ∃ x l, stream_at s !! st = Some x ∧ sep_at s !! s_lsep x = Some l ∧ ls_stream l = Some st.
Proof. intros Hwf. apply wf_stream, Hwf. Qed.

(** ** The end of the connection *)

Lemma release_stream_spec st s : wf s → st ∈ streams s → ∃ s', release_stream calls st s = Ret s' ∧ wf s' ∧ streams s' = sdp_list_remove (streams s) st ∧ sock s' = sock s.
Proof.
  intros Hwf Hin. destruct (wf_stream_sep st s Hwf Hin) as (x & l & Hx & Hl & Hs). unfold release_stream.
  rewrite (at_ptr_Some _ _ _ Hx), outcome_bind_ret.
  destruct (set_idle_spec (s_lsep x) l st (confirm calls AVDTP_ABORT (s_lsep x) (Some st) None s)) as (s' & E & Hwf' & R1 & _ & _ & _ & _ & R2 & _); [by apply wf_upper|done|done|].
  by exists s'.
Qed.

Lemma release_streams_spec s : wf s → ∃ s', release_streams calls (streams s) s = Ret s' ∧ wf s' ∧ streams s' = [] ∧ sock s' = sock s.
Proof.
  intros Hwf. remember (streams s) as l eqn:El. revert s Hwf El. induction l as [|st l IH]; intros s Hwf El; cbn [release_streams]; [by exists s|].
  destruct (release_stream_spec st s Hwf) as (s1 & -> & Hwf1 & E1 & Ek1); [rewrite <- El; by left|]. rewrite outcome_bind_ret.
  rewrite <- El, list_remove_head in E1. destruct (IH s1 Hwf1 (eq_sym E1)) as (s' & -> & Hwf' & E' & Ek). exists s'. by rewrite Ek.
Qed.

Lemma connection_lost_spec err s : wf s → ∃ s', connection_lost calls err s = Ret s' ∧ wf s' ∧ streams s' = [] ∧ sstate s' = AVDTP_SESSION_STATE_DISCONNECTED ∧ sock s' < 0.
Proof.
  intros Hwf. unfold connection_lost. cbn zeta.
  assert (wf (finalize_discovery calls err s) ∧ streams (finalize_discovery calls err s) = streams s) as [Hwf1 _].
  { unfold finalize_discovery. destruct (discovering s); [|done]. split; [|done]. by apply (wf_same s). }
  destruct (release_streams_spec _ Hwf1) as (s2 & -> & Hwf2 & E2 & Ek). rewrite outcome_bind_ret. eexists. split; [done|].
  assert (set_streams [] s2 = s2) as -> by (destruct s2; cbn in *; by subst). destruct (Z.leb_spec 0 (sock s2)).
  - split; [|by rewrite <- E2]. by apply (wf_same s2).
  - split; [by apply (wf_same s2)|]. by rewrite <- E2.
Qed.

(** ** Transport channels *)

Lemma transport_cb_spec st s : wf s → st ∈ streams s → ∃ s', transport_cb calls st s = Ret s' ∧ wf s'.
Proof.
  intros Hwf Hin. destruct (wf_stream_sep st s Hwf Hin) as (x & l & Hx & Hl & Hs). unfold transport_cb.
  rewrite (at_ptr_Some _ _ _ Hx), outcome_bind_ret. cbn zeta. set (s1 := if close_int x then _ else _).
  assert (wf s1 ∧ stream_at s1 = stream_at s ∧ sep_at s1 = sep_at s ∧ streams s1 = streams s) as (Hwf1 & E1 & E2 & E3) by (unfold s1; destruct (close_int x); [split; [by apply wf_upper|done]|done]).
  clearbody s1. rewrite <- E1 in Hx. rewrite <- E2 in Hl. rewrite <- E3 in Hin. set (y := Stream _ _ _ _ _ _ _ _ _ _).
  destruct (set_idle_spec (s_lsep x) l st (set_stream st y s1)) as (s' & E & Hwf' & _); [apply (wf_set_stream st x); try done|done|done|]. by exists s'.
Qed.

Lemma pending_none s : wf s → wf (set_pending_open None s).
Proof. intros []. by split. Qed.

Lemma transport_connect_spec fd s : wf s → is_Some (pending_open s) → ∃ s', handle_transport_connect calls fd s = Ret s' ∧ wf s'.
Proof.
  intros Hwf [st Hp]. pose proof (wf_pending _ Hwf st Hp) as Hin. destruct (wf_stream_sep st s Hwf Hin) as (x & l & Hx & Hl & Hs).
  pose proof (pending_none _ Hwf) as Hwf0.
  unfold handle_transport_connect, transport_failed. rewrite Hp, (at_ptr_Some _ _ _ Hx), !outcome_bind_ret. cbn zeta.
  change (streams (set_pending_open None s)) with (streams s). rewrite bool_decide_false by tauto. destruct (fd <? 0).
  { eexists. split; [done|]. pose proof (wf_set_stream st x (with_timer None x) (set_pending_open None s) Hwf0 Hx eq_refl Hin). destruct (open_acp x); [done|by apply wf_upper]. }
  set (y := Stream _ _ _ _ _ _ _ _ _ _). pose proof (wf_set_stream st x y (set_pending_open None s) Hwf0 Hx eq_refl Hin) as Hwf1.
  set (s1 := if open_acp y then _ else _).
  assert (wf s1 ∧ sep_at s1 = sep_at s ∧ streams s1 = streams s) as (Hwf2 & E2 & E3) by (unfold s1; destruct (open_acp y); [done|split; [by apply wf_upper|done]]). clearbody s1.
  destruct (set_state_spec (s_lsep x) l st AVDTP_STATE_OPEN s1) as (z & z' & u & Hz & _ & Hz' & E & Hwf3); try done; [by rewrite E2|].
  change (s_lsep y) with (s_lsep x). rewrite E, outcome_bind_ret. rewrite (at_ptr_Some _ _ z'), outcome_bind_ret by (cbn; by rewrite lookup_insert_eq).
  eexists. split; [done|]. eapply wf_set_stream; [done|cbn; by rewrite lookup_insert_eq|done|cbn; by rewrite E3].
Qed.

(** ** Streams that come and go *)

Lemma wf_fresh s : wf s → stream_at s !! malloc (dom (stream_at s)) = None ∧ malloc (dom (stream_at s)) ∉ streams s.
Proof using malloc_fresh.
  intros Hwf. assert (stream_at s !! malloc (dom (stream_at s)) = None) as E by apply not_elem_of_dom, malloc_fresh. split; [done|].
  intros Hin. destruct (wf_stream _ Hwf _ Hin) as (x & _ & Hx & _). congruence.
Qed.

Lemma wf_new_stream st x s : wf s → st ∉ streams s → s_io x = false → s_timer x = None → wf (set_stream st x s).
Proof.
  intros [] Hst Hio Ht. split; cbn; try done.
  - intros st' Hin. assert (st ≠ st') by (by intros ->). rewrite lookup_insert_ne by done. auto.
  - intros a l st' Hl Hs. destruct (wf_sep0 a l st' Hl Hs) as [Hin (x' & Hx' & Ha)]. split; [done|].
    assert (st ≠ st') by (by intros ->). exists x'. by rewrite lookup_insert_ne.
  - intros st' z Hz Ha. apply lookup_insert_Some in Hz as [[<- <-]|[_ Hz]]; [by destruct Ha; congruence|by eapply wf_active0].
Qed.

(** An end point whose flags change. *)
Definition same_sep (l l' : local_sep) : Prop := state l' = state l ∧ ls_stream l' = ls_stream l ∧ seid l' = seid l.

Lemma wf_set_sep a l l' s : wf s → sep_at s !! a = Some l → same_sep l l' → wf (set_sep a l' s).
Proof.
  intros [] Hl (Es & El & Ei). split; cbn; try done.
  - destruct wf_local0 as [H1 H2]. split; [done|]. intros b. rewrite H2. destruct (decide (a = b)) as [<-|Hne]; [rewrite lookup_insert_eq, Hl; split; eauto|by rewrite lookup_insert_ne].
  - intros b x Hx. apply lookup_insert_Some in Hx as [[<- <-]|[Hb Hx]]; [rewrite Ei; by apply (wf_free0 a l)|by eapply wf_free0].
  - intros b c x y Hx Hy E. apply lookup_insert_Some in Hx as [[<- <-]|[Hb Hx]], Hy as [[<- <-]|[Hc Hy]]; rewrite ?Ei in E;
      [done|by apply (wf_seid0 a c l y)|by apply (wf_seid0 b a x l)|by apply (wf_seid0 b c x y)].
  - intros st' Hin. destruct (wf_stream0 st' Hin) as (x & k & Hx & Hk & Hs'). destruct (decide (a = s_lsep x)) as [->|Hne].
    + exists x, l'. rewrite lookup_insert_eq. simplify_eq. by rewrite El.
    + exists x, k. by rewrite lookup_insert_ne.
  - intros b k st' Hk Hs'. apply lookup_insert_Some in Hk as [[<- <-]|[_ Hk]]; [apply (wf_sep0 a l); [done|congruence]|by apply (wf_sep0 b k)].
  - intros b k Hk Hs'. apply lookup_insert_Some in Hk as [[<- <-]|[_ Hk]]; [rewrite Es; apply (wf_idle0 a l); [done|congruence]|by apply (wf_idle0 b k)].
Qed.

(** A stream that is not of the session is freed. *)
Lemma stream_free_spec st x l s : wf s → st ∉ streams s → stream_at s !! st = Some x → sep_at s !! s_lsep x = Some l → ls_stream l = None →
  yields (stream_free st s) (λ s', wf s' ∧ sep_at s' = <[s_lsep x := LocalSep (state l) None (seid l) false (ls_type l) (ls_media_type l) (ls_codec l)]> (sep_at s) ∧
    streams s' = streams s ∧ stream_at s' = delete st (stream_at s) ∧ sock s' = sock s ∧ omtu s' = omtu s ∧ imtu s' = imtu s ∧ faults s' = faults s ∧ sent s' = sent s ∧ upper s' = upper s).
Proof.
  intros Hwf Hst Hx Hl Hs. unfold stream_free. rewrite (at_ptr_Some _ _ _ Hx), outcome_bind_ret, (at_ptr_Some _ _ _ Hl), outcome_bind_ret. cbn zeta.
  apply yields_ret. split; [|destruct (0 <=? s_sock x); by repeat split].
  set (l' := LocalSep _ _ _ _ _ _ _). assert (wf (set_sep (s_lsep x) l' s)) as Hwf1 by (apply (wf_set_sep _ l); [done|done|by split_and!]).
  match goal with |- wf (set_stream_at _ ?t) => assert (wf t ∧ stream_at t = stream_at s ∧ streams t = streams s) as (Hwf2 & E1 & E2) end.
  { destruct (0 <=? s_sock x); (split; [by apply (wf_same (set_sep (s_lsep x) l' s))|by split]). }
  match goal with |- wf (set_stream_at _ ?t) => revert Hwf2 E1 E2; generalize t end. clear Hwf1. intros t [] E1 E2. rewrite <- E2 in Hst.
  split; cbn; try done.
  - intros st' Hin. assert (st ≠ st') by (by intros ->). rewrite lookup_delete_ne by done. auto.
  - intros a k st' Hk Hs'. destruct (wf_sep0 a k st' Hk Hs') as [Hin (x' & Hx' & Ha)]. split; [done|].
    assert (st ≠ st') by (by intros ->). exists x'. by rewrite lookup_delete_ne.
  - intros st' z [_ Hz]%lookup_delete_Some Ha. by eapply wf_active0.
Qed.

(** A stream joins the session. *)
Lemma wf_attach a l st x s : wf s → sep_at s !! a = Some l → ls_stream l = None → stream_at s !! st = Some x → s_lsep x = a → st ∉ streams s →
  wf (set_streams (streams s ++ [st]) (set_sep a (with_stream (Some st) l) s)).
Proof.
  intros [] Hl Hs Hx Ha Hst. split; cbn; try done.
  - destruct wf_local0 as [H1 H2]. split; [done|]. intros b. rewrite H2. destruct (decide (a = b)) as [<-|Hne]; [rewrite lookup_insert_eq, Hl; split; eauto|by rewrite lookup_insert_ne].
  - intros b y Hy. apply lookup_insert_Some in Hy as [[<- <-]|[Hb Hy]]; [by apply (wf_free0 a l)|by eapply wf_free0].
  - intros b c y z Hy Hz E. apply lookup_insert_Some in Hy as [[<- <-]|[Hb Hy]], Hz as [[<- <-]|[Hc Hz]]; [done|by apply (wf_seid0 a c l z)|by apply (wf_seid0 b a y l)|by apply (wf_seid0 b c y z)].
  - apply NoDup_app. split_and!; [done| |apply NoDup_singleton]. intros b Hb Eb%list_elem_of_singleton. congruence.
  - intros st' Hin. rewrite elem_of_app, list_elem_of_singleton in Hin. destruct Hin as [Hin| ->].
    + destruct (wf_stream0 st' Hin) as (y & k & Hy & Hk & Hs'). exists y, k. split; [done|]. rewrite lookup_insert_ne; [done|]. intros E. rewrite <- E in Hk. congruence.
    + exists x, (with_stream (Some st) l). rewrite Ha, lookup_insert_eq. done.
  - intros b k st' Hk Hs'. apply lookup_insert_Some in Hk as [[<- <-]|[_ Hk]].
    + cbn in Hs'. injection Hs' as <-. split; [apply elem_of_app; right; by apply list_elem_of_singleton|]. by exists x.
    + destruct (wf_sep0 b k st' Hk Hs') as [Hin H]. split; [apply elem_of_app; by left|done].
  - intros st' y Hy Hact. apply elem_of_app. left. by eapply wf_active0.
  - intros b k Hk Hs'. apply lookup_insert_Some in Hk as [[<- <-]|[_ Hk]]; [done|by apply (wf_idle0 b k)].
  - intros st' Hp. apply elem_of_app. left. auto.
Qed.

Lemma wf_pending_open st s : wf s → st ∈ streams s → wf (set_pending_open (Some st) s).
Proof. intros [] Hst. split; cbn; try done. by intros st' [= <-]. Qed.
End acceptor.
