(* ===== verification/AvdtpSafe.v ===== *)
(** utils/audio/avdtp.c: the acceptor is safe. Every command, response, timer
    and change of a channel keeps the invariant of AvdtpAcceptor, and so does
    every sequence of them: nothing that was freed is used, no buffer is overrun
    and no loop runs on. *)

From stdpp Require Import base list numbers gmap.
From Stdlib Require Import ZArith Lia.
From S2P Require Import Prelude CString SdpTypes SdpList Heap Avdtp AvdtpFrame AvdtpAcceptor.

Local Open Scope Z_scope.

Section safe.
Context {U : Type} (malloc : gset Z → Z) (malloc_fresh : ∀ X, malloc X ∉ X) (calls : callbacks U).
Implicit Types s : avdtp U.

Definition wf_snd {X} (r : X * avdtp U) : Prop := wf r.2.

Lemma find_seid_spec id s : wf s → ∃ r, find_local_sep_by_seid id s = Ret r ∧ match r with
  | Some a => ∃ l, sep_at s !! a = Some l ∧ seid l = id
  | None => ∀ a l, sep_at s !! a = Some l → seid l ≠ id
  end.
Proof.
  intros Hwf. destruct (wf_local _ Hwf) as [_ Hl]. destruct (find_at_spec (sep_at s) (λ x, seid x =? id) (local_seps s)) as (r & E & Hr).
  { intros a. apply Hl. }
  exists r. split; [exact E|]. destruct r as [a|].
  - destruct Hr as (_ & x & Hx & Hid%Z.eqb_eq). by exists x.
  - intros a l Ha. apply Z.eqb_neq, (Hr a l); [apply Hl; eauto|done].
Qed.

Lemma reply_safe t m sig data s : wf s → yields (avdtp_send t m sig data s) wf_snd.
Proof. intros Hwf. destruct (send_wf t m sig data s Hwf) as (ok & s' & E & Hwf'). by exists (ok, s'). Qed.

(** Looking up the end point a command names. *)
Ltac find_sep Hwf a l Hl :=
  match goal with |- context [find_local_sep_by_seid ?id ?s] =>
    let r := fresh "r" in let E := fresh "E" in let H := fresh "H" in
    destruct (find_seid_spec id s Hwf) as (r & E & H); rewrite E, outcome_bind_ret; clear E; destruct r as [a|];
    [destruct H as (l & Hl & _)|by apply reply_safe]
  end.
(** Following a pointer that is known. *)
Ltac follow H := rewrite (at_ptr_Some _ _ _ H), outcome_bind_ret.
(** An answer, and what is sent with it. *)
Ltac answer ok w f :=
  match goal with |- context [avdtp_send ?t ?m ?sig ?d ?s] =>
    let H := fresh "H" in let E := fresh "E" in
    assert (wf s) as H by assumption; destruct (avdtp_send_total t m sig d s (wf_mtu _ H)) as (ok & w & f & E); rewrite E, outcome_bind_ret; clear E;
    apply (wf_sent w f) in H; destruct ok
  end.

Lemma indicate_eq sig a st s : ∃ r u, indicate calls sig a st s = (r, set_upper u s).
Proof. unfold indicate. destruct (ind calls sig a st (upper s)) as [r u]. by exists r, u. Qed.

(** ** Commands *)

Lemma discover_safe t s : wf s → yields (avdtp_discover_cmd t s) wf_snd.
Proof.
  intros Hwf. unfold avdtp_discover_cmd. destruct (wf_local _ Hwf) as [_ Hl].
  assert (∀ l, (∀ a, a ∈ l → a ∈ local_seps s) → ∃ r, discover_loop s l = Ret r) as H.
  { induction l as [|a l IH]; intros Hin; cbn [discover_loop]; [by eexists|]. destruct (proj1 (Hl a)) as [x Hx]; [apply Hin; by left|].
    follow Hx. destruct IH as [r ->]; [intros b Hb; apply Hin; by right|]. rewrite outcome_bind_ret. by eexists. }
  destruct (H (local_seps s)) as [r ->]; [done|]. rewrite outcome_bind_ret. by apply reply_safe.
Qed.

Lemma getcap_safe t req s : wf s → yields (avdtp_getcap_cmd calls t req s) wf_snd.
Proof.
  intros Hwf. unfold avdtp_getcap_cmd. destruct req as [|b req]; [by apply reply_safe|]. find_sep Hwf a l Hl.
  destruct (get_capability calls a (upper s)) as [[e|c] u]; by apply reply_safe, wf_upper.
Qed.

Lemma getconf_safe t req s : wf s → yields (avdtp_getconf_cmd t req s) wf_snd.
Proof.
  intros Hwf. unfold avdtp_getconf_cmd. destruct req as [|b req]; [by apply yields_ret|]. find_sep Hwf a l Hl. follow Hl.
  destruct (ls_stream l) as [st|] eqn:Hs; [|by apply reply_safe]. destruct (wf_sep _ Hwf a l st Hl Hs) as [_ (x & Hx & _)]. follow Hx.
  destruct (s_caps x); by apply reply_safe.
Qed.

Lemma setconf_safe t req s : wf s → Forall byte_ok req → yields (avdtp_setconf_cmd malloc calls t req s) wf_snd.
Proof using malloc_fresh.
  intros Hwf Hb. unfold avdtp_setconf_cmd. destruct req as [|b0 [|b1 req]]; [by apply yields_ret..|].
  apply Forall_cons in Hb as [_ [_ Hb]%Forall_cons]. find_sep Hwf a l Hl. follow Hl. destruct (ls_stream l) as [st|] eqn:Hs; [by apply reply_safe|].
  cbn zeta. destruct (wf_fresh malloc malloc_fresh s Hwf) as [Hnew Hst]. set (st := malloc _) in *.
  destruct (caps_loop_total (S (length req)) req [] None) as (caps & codec & E & _ & _); [lia|done|]. unfold caps_to_list. rewrite E, outcome_bind_ret. cbn [app].
  set (x := Stream _ _ _ _ _ _ _ _ _ _). pose proof (wf_new_stream st x s Hwf Hst eq_refl eq_refl) as Hwf1.
  destruct (existsb _ _); [by apply reply_safe|]. destruct (ind_set_configuration calls a st caps _) as [r u].
  apply (wf_upper u) in Hwf1. set (s1 := set_upper u _) in *.
  assert (stream_at s1 !! st = Some x) as Hx by (cbn; by rewrite lookup_insert_eq).
  destruct r as [[err category]|].
  { eapply yields_bind; [apply (stream_free_spec st x l s1); done|]. intros s2 [Hwf2 _]. by apply reply_safe. }
  unfold accept. answer ok w f; set (s2 := set_sent _ _) in *.
  - rewrite (at_ptr_Some (sep_at s2) a l), outcome_bind_ret by done. cbn zeta. set (s3 := set_streams _ _).
    assert (wf s3) as Hwf3 by (by apply (wf_attach a l st x)).
    destruct (set_state_spec calls a (with_stream (Some st) l) st AVDTP_STATE_CONFIGURED s3) as (y & y' & u' & _ & _ & _ & E' & Hwf4); try done; [cbn; by rewrite lookup_insert_eq|].
    rewrite E', outcome_bind_ret. by apply yields_ret.
  - eapply yields_bind; [apply (stream_free_spec st x l s2); done|]. intros s3 [Hwf3 _]. by apply yields_ret.
Qed.

Lemma open_safe t req s : wf s → yields (avdtp_open_cmd calls t req s) wf_snd.
Proof.
  intros Hwf. unfold avdtp_open_cmd. destruct req as [|b req]; [by apply yields_ret|]. find_sep Hwf a l Hl. follow Hl.
  case_bool_decide as Hst; [by apply reply_safe|]. destruct (ls_stream l) as [st|] eqn:Hs; [|by rewrite (wf_idle _ Hwf a l) in Hst].
  destruct (wf_sep _ Hwf a l st Hl Hs) as [Hin (x & Hx & Ha)]. destruct (indicate_eq AVDTP_OPEN a st s) as (r & u & ->).
  apply (wf_upper u) in Hwf. destruct r; [by apply reply_safe|]. unfold accept. answer ok w f; [|by apply yields_ret].
  rewrite (at_ptr_Some _ st x), outcome_bind_ret by done. apply yields_ret, wf_pending_open; [|done]. by apply (wf_set_stream st x).
Qed.

Lemma seid_loop_safe sig from to first l s : wf s → to ≠ AVDTP_STATE_IDLE → yields (seid_loop calls sig from to first l s) wf_snd.
Proof.
  intros Hwf Hto. revert s Hwf. induction l as [|b l IH]; intros s Hwf; cbn [seid_loop]; [by apply yields_ret|]. cbn zeta.
  destruct (find_seid_spec first s Hwf) as (r & -> & Hr). rewrite outcome_bind_ret. destruct r as [a|]; [|by apply yields_ret].
  destruct Hr as (x & Hx & _). follow Hx. destruct (ls_stream x) as [st|] eqn:Hs; [|by apply yields_ret]. case_bool_decide; [by apply yields_ret|].
  destruct (indicate_eq sig a st s) as (r & u & ->). apply (wf_upper u) in Hwf. destruct r; [by apply yields_ret|].
  destruct (set_state_spec calls a x st to (set_upper u s)) as (y & y' & u' & _ & _ & _ & -> & Hwf'); try done. rewrite outcome_bind_ret. by apply IH.
Qed.

Lemma start_safe t req s : wf s → yields (avdtp_start_cmd calls t req s) wf_snd.
Proof.
  intros Hwf. unfold avdtp_start_cmd. destruct req as [|b req]; [by apply yields_ret|].
  eapply yields_bind; [by apply seid_loop_safe|]. intros [[[f e]|[]] s'] Hwf'; by apply reply_safe.
Qed.

Lemma suspend_safe t req s : wf s → yields (avdtp_suspend_cmd calls t req s) wf_snd.
Proof.
  intros Hwf. unfold avdtp_suspend_cmd. destruct req as [|b req]; [by apply yields_ret|].
  eapply yields_bind; [by apply seid_loop_safe|]. intros [[[f e]|[]] s'] Hwf'; by apply reply_safe.
Qed.

Lemma close_safe t req s : wf s → yields (avdtp_close_cmd calls t req s) wf_snd.
Proof.
  intros Hwf. unfold avdtp_close_cmd. destruct req as [|b req]; [by apply yields_ret|]. find_sep Hwf a l Hl. follow Hl.
  destruct (ls_stream l) as [st|] eqn:Hs; [|by apply reply_safe]. case_bool_decide; [by apply reply_safe|].
  destruct (wf_sep _ Hwf a l st Hl Hs) as [Hin _]. destruct (indicate_eq AVDTP_CLOSE a st s) as (r & u & ->).
  apply (wf_upper u) in Hwf. destruct r; [by apply reply_safe|].
  destruct (set_state_spec calls a l st AVDTP_STATE_CLOSING (set_upper u s)) as (y & y' & u' & _ & _ & _ & -> & Hwf'); try done. rewrite outcome_bind_ret.
  unfold accept. answer ok w f; [|by apply yields_ret]. rewrite (at_ptr_Some _ st y'), outcome_bind_ret by (cbn; by rewrite lookup_insert_eq).
  apply yields_ret. apply (wf_set_stream st y'); [done|cbn; by rewrite lookup_insert_eq|done|done].
Qed.

Lemma abort_safe t req s : wf s → yields (avdtp_abort_cmd calls t req s) wf_snd.
Proof.
  intros Hwf. unfold avdtp_abort_cmd. destruct req as [|b req]; [by apply yields_ret|]. find_sep Hwf a l Hl. follow Hl.
  destruct (ls_stream l) as [st|] eqn:Hs; [|by apply reply_safe]. destruct (indicate_eq AVDTP_ABORT a st s) as (r & u & ->).
  apply (wf_upper u) in Hwf. destruct r; [by apply reply_safe|]. unfold accept. answer ok w f; [|by apply yields_ret].
  destruct (set_state_spec calls a l st AVDTP_STATE_ABORTING (set_sent w (set_faults f (set_upper u s)))) as (y & y' & u' & _ & _ & _ & -> & Hwf'); try done.
  rewrite outcome_bind_ret. by apply yields_ret.
Qed.

Lemma command_safe t sig data s : wf s → Forall byte_ok data → yields (avdtp_parse_cmd malloc calls t sig data s) wf_snd.
Proof using malloc_fresh.
  intros Hwf Hb. unfold avdtp_parse_cmd, avdtp_reconf_cmd, avdtp_secctl_cmd, avdtp_unknown_cmd.
  repeat case_match; auto using discover_safe, getcap_safe, setconf_safe, getconf_safe, open_safe, start_safe, close_safe, suspend_safe, abort_safe, reply_safe.
Qed.

(** ** Requests *)

Lemma wf_requests r q pq tr s : wf s → (∀ x, r = Some x ∨ x ∈ q ∨ x ∈ pq → r_signal_id x = AVDTP_ABORT) →
  wf (set_req r (set_req_queue q (set_prio_queue pq (set_transaction tr s)))).
Proof. intros [] Hr. by split. Qed.

(** What sending and queueing a request leaves alone. *)
Definition frame s s' : Prop := streams s' = streams s ∧ stream_at s' = stream_at s ∧ sep_at s' = sep_at s ∧ pending_open s' = pending_open s.
Definition requested s (r : Z * avdtp U) : Prop := wf r.2 ∧ frame s r.2.

Lemma send_req_safe priority r s : wf s → r_signal_id r = AVDTP_ABORT → yields (send_req priority r s) (requested s).
Proof.
  intros Hwf Hr. pose proof (wf_reqs _ Hwf) as Hq. unfold send_req.
  assert (∃ e c, (if bool_decide (sstate s = AVDTP_SESSION_STATE_DISCONNECTED) then l2cap_connect s else (0, s)) = (e, set_connects c s)) as (e & c & ->).
  { unfold l2cap_connect. case_bool_decide; [|exists 0, (connects s); by destruct s]. destruct (connects s) as [|[] c]; by eexists _, _. }
  assert (wf (set_connects c s)) as Hwf1 by (by apply (wf_same s)). destruct (e <? 0); [apply yields_ret; by split|]. case_bool_decide.
  - apply yields_ret. unfold queue_request, requested. destruct priority; (split; [|done]); cbn [snd].
    + apply (wf_requests (req s) (req_queue s) (prio_queue s ++ [r]) (transaction s)) in Hwf1; [by destruct s|].
      intros x [Hx|[Hx|[Hx|Hx]%elem_of_app]]; [by apply Hq; auto..|]. by apply list_elem_of_singleton in Hx as ->.
    + apply (wf_requests (req s) (req_queue s ++ [r]) (prio_queue s) (transaction s)) in Hwf1; [by destruct s|].
      intros x [Hx|[[Hx|Hx]%elem_of_app|Hx]]; [by apply Hq; auto..| |by apply Hq; auto]. by apply list_elem_of_singleton in Hx as ->.
  - cbn zeta. assert (∀ tr, wf (set_transaction tr (set_connects c s))) as Hwf2 by (intros; by apply (wf_same s)). specialize (Hwf2 ((transaction (set_connects c s) + 1) mod 16)).
    answer ok w f; [|apply yields_ret; by split]. apply yields_ret. split; [|done].
    match goal with H : wf (set_sent _ _) |- _ => apply (wf_requests (Some (Req (transaction s) (r_signal_id r) (r_data r) (r_stream r))) (req_queue s) (prio_queue s) ((transaction s + 1) mod 16)) in H end; [done|].
    intros x [[= <-]|Hx]; [done|]. apply Hq. by right.
Qed.

Lemma request_safe priority st data s : wf s → yields (send_request priority st AVDTP_ABORT data s) (requested s).
Proof. intros Hwf. by apply send_req_safe. Qed.

Lemma wf_no_req s : wf s → wf (set_req None s).
Proof.
  intros Hwf. pose proof (wf_reqs _ Hwf) as Hq. apply (wf_requests None (req_queue s) (prio_queue s) (transaction s)) in Hwf; [by destruct s|].
  intros x [Hx|Hx]; [done|]. apply Hq. by right.
Qed.

Lemma process_queue_safe s : wf s → yields (process_queue s) wf.
Proof.
  intros Hwf. unfold process_queue. destruct (req s) as [r|] eqn:Er; [by apply yields_ret|]. pose proof (wf_reqs _ Hwf) as Hq.
  assert (∀ q pq x, (∀ y, y ∈ q ∨ y ∈ pq → y ∈ req_queue s ∨ y ∈ prio_queue s) → x ∈ req_queue s ∨ x ∈ prio_queue s →
    yields (o ← send_req false x (set_req_queue q (set_prio_queue pq s)); Ret o.2) wf) as H.
  { intros q pq x Hy Hx. eapply yields_bind; [apply send_req_safe|].
    - apply (wf_requests None q pq (transaction s)) in Hwf; [by destruct s; cbn in Er; subst|]. intros y [?|Hin]; [done|]. apply Hq. right. auto.
    - apply Hq. auto.
    - intros [e s'] [Hwf' _]. by apply yields_ret. }
  destruct (prio_queue s) as [|x pq] eqn:Ep; [destruct (req_queue s) as [|x q] eqn:Eq|].
  - by apply yields_ret.
  - replace (set_req_queue q s) with (set_req_queue q (set_prio_queue [] s)) by (destruct s; cbn in *; by subst). apply H; [|left; by left].
    intros y [Hy|Hy]; [left; by right|by right].
  - replace (set_prio_queue pq s) with (set_req_queue (req_queue s) (set_prio_queue pq s)) by (by destruct s). apply H; [|right; by left].
    intros y [Hy|Hy]; [by left|right; by right].
Qed.

Lemma connection_lost_safe err s : wf s → yields (connection_lost calls err s) wf.
Proof. intros Hwf. destruct (connection_lost_spec calls err s Hwf) as (s' & E & Hwf' & _). by exists s'. Qed.

Lemma stream_state_safe st s : wf s → ∃ o, stream_state st s = Ret o ∧
  match o with Some (x, n) => st ∈ streams s ∧ ∃ l, stream_at s !! st = Some x ∧ sep_at s !! s_lsep x = Some l ∧ ls_stream l = Some st ∧ n = state l | None => st ∉ streams s end.
Proof.
  intros Hwf. unfold stream_state. case_bool_decide as Hin; [by exists None|].
  destruct (wf_stream _ Hwf st Hin) as (x & l & Hx & Hl & Hs). follow Hx. follow Hl. eexists. split; [done|]. split; [done|]. by exists l.
Qed.

Lemma set_state_safe a l st new s : wf s → sep_at s !! a = Some l → ls_stream l = Some st → yields (avdtp_sep_set_state calls a new s) wf.
Proof.
  intros Hwf Hl Hs. destruct (decide (new = AVDTP_STATE_IDLE)) as [->|Hn].
  - destruct (set_idle_spec calls a l st s Hwf Hl Hs) as (s' & E & Hwf' & _). by exists s'.
  - destruct (set_state_spec calls a l st new s Hwf Hl Hs Hn) as (y & y' & u & _ & _ & _ & E & Hwf'). eexists. by split.
Qed.

Lemma avdtp_abort_safe st s : wf s → yields (avdtp_abort calls st s) wf_snd.
Proof.
  intros Hwf. unfold avdtp_abort. destruct (stream_state_safe st s Hwf) as (o & -> & Ho). rewrite outcome_bind_ret.
  destruct o as [[x n]|]; [|by apply yields_ret]. destruct Ho as (Hin & l & Hx & Hl & Hs & ->). destruct (state_num (state l) <=? 2); [by apply yields_ret|].
  eapply yields_bind; [by apply request_safe|]. intros [ret s'] [Hwf' (E1 & E2 & E3 & _)]. cbn in *. destruct (ret =? 0); [|by apply yields_ret].
  rewrite <- E3 in Hl. eapply yields_bind; [by apply (set_state_safe (s_lsep x) l st)|]. intros s2 Hwf2. by apply yields_ret.
Qed.

(** ** Timers and channels *)

Lemma open_timeout_safe st x s : wf s → stream_at s !! st = Some x → s_timer x ≠ None → yields (stream_open_timeout calls st s) wf.
Proof.
  intros Hwf Hx Ht. pose proof (wf_active _ Hwf st x Hx (or_intror Ht)) as Hin. unfold stream_open_timeout. follow Hx.
  eapply yields_bind; [apply avdtp_abort_safe, pending_none, (wf_set_stream st x); done|]. intros r Hr. by apply yields_ret.
Qed.

Lemma close_timeout_safe st x s : wf s → stream_at s !! st = Some x → s_timer x ≠ None → yields (stream_close_timeout st s) wf.
Proof.
  intros Hwf Hx Ht. pose proof (wf_active _ Hwf st x Hx (or_intror Ht)) as Hin. unfold stream_close_timeout. follow Hx. apply yields_ret.
  apply (wf_same (set_stream st (with_timer None x) s)); try done. by apply (wf_set_stream st x).
Qed.

Lemma find_rseid_safe id s : wf s → ∃ r, find_stream_by_rseid id s = Ret r ∧ ∀ st, r = Some st → st ∈ streams s.
Proof.
  intros Hwf. destruct (find_at_spec (stream_at s) (λ x, rseid x =? id) (streams s)) as (r & E & Hr).
  { intros st Hst. destruct (wf_stream _ Hwf st Hst) as (x & _ & Hx & _). eauto. }
  exists r. split; [exact E|]. intros st ->. apply Hr.
Qed.

Lemma request_timeout_safe s : wf s → is_Some (req s) → yields (request_timeout calls s) wf.
Proof.
  intros Hwf [r Er]. unfold request_timeout. rewrite Er. cbn zeta. pose proof (wf_reqs _ Hwf r (or_introl Er)) as Hr.
  apply wf_no_req in Hwf. set (s1 := set_req None s) in *. rewrite Hr.
  assert (∃ st, match r_data r with [] => Ret None | _ => find_stream_by_rseid match r_data r with b :: _ => acp_seid b | [] => 0 end s1 end = Ret st) as [st ->].
  { destruct (r_data r); [by eexists|]. destruct (find_rseid_safe (acp_seid z) s1 Hwf) as (o & -> & _). by eexists. }
  rewrite outcome_bind_ret. eapply (yields_bind _ _ (λ s2, s2 = s1)).
  { destruct st; [rewrite bool_decide_false by (rewrite ?elem_of_cons, elem_of_nil; vm_compute; intuition lia)|]; by apply yields_ret. }
  intros s2 ->. rewrite bool_decide_true by (rewrite !elem_of_cons; tauto). by apply connection_lost_safe.
Qed.

Lemma set_pending_none_bind (o : outcome (avdtp U)) : yields o wf → yields (s ← o; Ret (set_pending_open None s)) wf.
Proof. intros H. eapply yields_bind; [done|]. intros s Hwf. by apply yields_ret, pending_none. Qed.

(** What [l2cap_connect_cb] does on a failure. *)
Lemma connect_failed_safe err s : wf s →
  yields (match pending_open s with
          | Some st => x ← at_ptr (stream_at s) st; s ← avdtp_sep_set_state calls (s_lsep x) AVDTP_STATE_IDLE s; Ret (set_pending_open None s)
          | None => connection_lost calls err s
          end) wf.
Proof.
  intros Hwf. destruct (pending_open s) as [st|] eqn:Ep; [|by apply connection_lost_safe].
  destruct (wf_stream _ Hwf st (wf_pending _ Hwf st Ep)) as (x & l & Hx & Hl & Hs). follow Hx. apply set_pending_none_bind. by apply (set_state_safe _ l st).
Qed.

(** The other end's and this end's maximum packets: the buffer of the session has
    room for what is received, and must have for what is sent. *)
Definition mtu_ok (imtu_ omtu_ : Z) : Prop := 3 ≤ omtu_ ≤ imtu_.

Lemma wf_new_sock fd k i o s : wf s → mtu_ok i o → wf (set_io true (set_sstate k (set_omtu o (set_imtu i (set_sock fd s))))).
Proof. intros [] Hm. by split. Qed.

Lemma connect_cb_safe err fd i o s : wf s → mtu_ok i o → yields (l2cap_connect_cb calls err fd i o s) wf.
Proof.
  intros Hwf Hm. unfold l2cap_connect_cb. cbn zeta. destruct (err <? 0); [by apply connect_failed_safe|].
  destruct (decide (sstate s = AVDTP_SESSION_STATE_DISCONNECTED)) as [Hd|Hd].
  { rewrite (bool_decide_true (sstate s = AVDTP_SESSION_STATE_DISCONNECTED)) by done. cbn [sstate set_sstate]. rewrite bool_decide_true by done. apply process_queue_safe.
    change (wf (set_io true (set_sstate AVDTP_SESSION_STATE_CONNECTED (set_omtu o (set_imtu i (set_sock fd s)))))). by apply wf_new_sock. }
  rewrite (bool_decide_false (sstate s = AVDTP_SESSION_STATE_DISCONNECTED)) by done. case_bool_decide as Hc.
  { apply process_queue_safe. pose proof (wf_new_sock (sock s) AVDTP_SESSION_STATE_CONNECTED i o s Hwf Hm) as H. destruct s. exact H. }
  destruct (pending_open s) as [st|] eqn:Ep.
  - destruct (transport_connect_spec calls fd s Hwf) as (s' & -> & Hwf'); [by exists st|]. rewrite outcome_bind_ret. by apply process_queue_safe.
  - by apply connection_lost_safe.
Qed.

Lemma server_cb_safe fd i o s : wf s → mtu_ok i o → yields (avdtp_server_cb calls fd i o s) wf.
Proof.
  intros Hwf Hm. unfold avdtp_server_cb.
  assert (∃ b, match pending_open s with Some st => x ← at_ptr (stream_at s) st; Ret (open_acp x) | None => Ret false end = Ret b ∧ (b = true → is_Some (pending_open s))) as ([] & -> & Hb).
  { destruct (pending_open s) as [st|] eqn:Ep; [|by eexists]. destruct (wf_stream _ Hwf st (wf_pending _ Hwf st Ep)) as (x & l & Hx & _). follow Hx. eexists. split; [done|]. eauto. }
  - rewrite outcome_bind_ret. destruct (transport_connect_spec calls fd s Hwf (Hb eq_refl)) as (s' & E & Hwf'). by exists s'.
  - rewrite outcome_bind_ret. destruct (0 <=? sock s); apply yields_ret; [by apply (wf_same s)|].
    pose proof (wf_new_sock fd (sstate s) i o s Hwf Hm) as H. destruct s. exact H.
Qed.

Lemma auth_cb_safe b s : wf s → yields (auth_cb calls b s) wf.
Proof. intros Hwf. unfold auth_cb. destruct b; [|by apply connection_lost_safe]. apply yields_ret. by apply (wf_same s). Qed.

(** ** A packet *)

Lemma abort_resp_safe st s : wf s → (∀ a, st = Some a → a ∈ streams s) → yields (avdtp_abort_resp calls st s) wf_snd.
Proof.
  intros Hwf Hst. unfold avdtp_abort_resp, on_stream. destruct st as [a|]; [|by apply yields_ret].
  destruct (wf_stream _ Hwf a (Hst a eq_refl)) as (x & l & Hx & Hl & Hs). follow Hx.
  eapply yields_bind; [apply (set_state_safe (s_lsep x) l a); [by apply wf_upper|done|done]|]. intros s' Hwf'. by apply yields_ret.
Qed.

Lemma confirm_rej_safe sig st err s : wf s → (∀ a, st = Some a → a ∈ streams s) → yields (confirm_rej calls sig st err s) wf_snd.
Proof.
  intros Hwf Hst. unfold confirm_rej. destruct err as [e|]; [|by apply yields_ret]. destruct st as [a|]; [|by apply yields_ret].
  destruct (wf_stream _ Hwf a (Hst a eq_refl)) as (x & l & Hx & _). follow Hx. by apply yields_ret, wf_upper.
Qed.

Lemma session_cb_safe pkt s : wf s → Forall byte_ok pkt → yields (session_cb malloc calls pkt s) wf_snd.
Proof using malloc_fresh.
  intros Hwf Hb. unfold session_cb. cbn zeta.
  assert (∀ s, wf s → yields (s ← connection_lost calls (- EIO) s; Ret (false, s)) wf_snd) as Hfail.
  { intros s' Hwf'. eapply yields_bind; [by apply connection_lost_safe|]. intros s2 Hwf2. by apply yields_ret. }
  destruct pkt as [|h pkt]; [by apply Hfail|]. destruct (parse_data_safe (h :: pkt) (inb s)) as (res & i & -> & Hi); [done|done|apply Hwf|].
  rewrite outcome_bind_ret. assert (wf (set_inb i s)) as Hwf1 by (destruct Hwf; by split). set (s1 := set_inb i s) in *.
  assert (Forall byte_ok (take (Z.to_nat (data_size i)) (buf i))) as Hd by apply Forall_take, Hi. set (data := take _ _) in *.
  destruct res; [by apply Hfail|by apply yields_ret|]. destruct (in_message_type i =? AVDTP_MSG_TYPE_COMMAND).
  { eapply yields_bind; [by apply command_safe|]. intros [[] s2] Hwf2; [by apply yields_ret|by apply Hfail]. }
  destruct (req s1) as [r|] eqn:Er; [|by apply yields_ret]. destruct (negb (Z.shiftr h 4 =? r_transaction r)); [by apply yields_ret|].
  pose proof (wf_reqs _ Hwf1 r (or_introl Er)) as Hr. rewrite Hr. destruct (Z.eqb_spec (in_signal_id i) AVDTP_ABORT) as [->|]; [|by apply yields_ret]. cbn [negb].
  set (st := match r_stream r with Some _ => _ | None => _ end).
  assert (∀ a, st = Some a → a ∈ streams s1) as Hst by (unfold st; destruct (r_stream r); [case_bool_decide|]; by intros ? [= <-]).
  eapply (yields_bind _ _ wf_snd).
  { destruct (Z.land h 3 =? AVDTP_MSG_TYPE_ACCEPT); [|destruct (Z.land h 3 =? AVDTP_MSG_TYPE_REJECT)]; [by apply abort_resp_safe|by apply confirm_rej_safe|by apply yields_ret]. }
  intros [[] s2] Hwf2; [|by apply Hfail]. eapply yields_bind; [by apply process_queue_safe, wf_no_req|]. intros s3 Hwf3. by apply yields_ret.
Qed.

(** ** End points come and go *)

Lemma register_safe t m c s : wf s → wf (avdtp_register_sep malloc t m c s).2.
Proof using malloc_fresh.
  intros []. unfold avdtp_register_sep. destruct (MAX_SEID <? free_seid s); [done|]. cbn zeta. cbn [snd]. set (a := malloc _).
  assert (sep_at s !! a = None) as Ha by apply not_elem_of_dom, malloc_fresh.
  assert (∀ b l, sep_at s !! b = Some l → a ≠ b) as Hne by (intros b l Hl ->; congruence).
  split; cbn; try done.
  - destruct wf_local as [H1 H2]. split.
    + apply NoDup_app. split_and!; [done| |apply NoDup_singleton]. intros b Hb Eb%list_elem_of_singleton. subst b. apply H2 in Hb as [x Hx]. congruence.
    + intros b. rewrite elem_of_app, list_elem_of_singleton, H2. destruct (decide (a = b)) as [<-|Hb]; [rewrite lookup_insert_eq; split; eauto|]. rewrite lookup_insert_ne by done. naive_solver.
  - intros b x Hx. apply lookup_insert_Some in Hx as [[<- <-]|[_ Hx]]; [cbn; lia|]. specialize (wf_free b x Hx). lia.
  - intros b d x y Hx Hy E. apply lookup_insert_Some in Hx as [[<- <-]|[_ Hx]], Hy as [[<- <-]|[_ Hy]]; cbn in E; try done.
    + specialize (wf_free d y Hy). lia.
    + specialize (wf_free b x Hx). lia.
    + by apply (wf_seid b d x y).
  - intros st Hst. destruct (wf_stream st Hst) as (x & l & Hx & Hl & Hs). exists x, l. split; [done|]. rewrite lookup_insert_ne; [done|by eapply Hne].
  - intros b l st Hl Hs. apply lookup_insert_Some in Hl as [[_ <-]|[_ Hl]]; [done|by apply (wf_sep b l)].
  - intros b l Hl Hs. apply lookup_insert_Some in Hl as [[_ <-]|[_ Hl]]; [done|by apply (wf_idle b l)].
Qed.

Lemma unregister_safe a l s : wf s → sep_at s !! a = Some l → ls_stream l = None → yields (avdtp_unregister_sep a s) wf_snd.
Proof.
  intros Hwf Hl Hs. unfold avdtp_unregister_sep. follow Hl. destruct (inuse l); apply yields_ret; [done|]. destruct Hwf. split; cbn; try done.
  - destruct wf_local as [H1 H2]. split; [by apply list_remove_NoDup|]. intros b. rewrite elem_of_list_remove, H2 by done.
    destruct (decide (a = b)) as [<-|Hb]; [rewrite lookup_delete_eq; split; [by intros []|by intros []]|]. rewrite lookup_delete_ne by done. naive_solver.
  - intros b x [_ Hx]%lookup_delete_Some. by eapply wf_free.
  - intros b c x y [_ Hx]%lookup_delete_Some [_ Hy]%lookup_delete_Some. by apply (wf_seid b c x y).
  - intros st Hst. destruct (wf_stream st Hst) as (x & k & Hx & Hk & Hks). exists x, k. split; [done|]. rewrite lookup_delete_ne; [done|]. intros ->. congruence.
  - intros b k st [_ Hk]%lookup_delete_Some. by apply wf_sep.
  - intros b k [_ Hk]%lookup_delete_Some. by apply (wf_idle b k).
Qed.

(** * Events *)

(** What happens to the acceptor: a packet, a connection of the other device (for
    signalling or the transport of a stream), the end of a connection this
    device began, the answer to a request for authorization, a transport channel
    that closes, the timers, and what the layers above ask for. *)
Inductive event :=
  | Packet (pkt : list Z)
  | ServerConnect (fd imtu_ omtu_ : Z)
  | Connected (err fd imtu_ omtu_ : Z)
  | AuthDone (granted : bool)
  | TransportClosed (st : Z)
  | OpenTimer (st : Z)
  | CloseTimer (st : Z)
  | RequestTimer
  | RegisterSep (type media_type codec : Z)
  | UnregisterSep (a : Z)
  | AbortStream (st : Z).

(** What can happen, and when: packets are of octets; the incoming MTU of a
    channel is no less than the outgoing one, both of 3 octets or more; a channel
    is watched and a timer runs as its stream says; an end point goes only when
    nothing streams to it. *)
Definition enabled (e : event) s : bool :=
  match e with
  | Packet pkt => forallb (λ b, (0 <=? b) && (b <? 256)) pkt
  | ServerConnect _ i o | Connected _ _ i o => (3 <=? o) && (o <=? i)
  | TransportClosed st => match stream_at s !! st with Some x => s_io x | None => false end
  | OpenTimer st => match stream_at s !! st with Some x => bool_decide (s_timer x = Some OpenTimeout) | None => false end
  | CloseTimer st => match stream_at s !! st with Some x => bool_decide (s_timer x = Some CloseTimeout) | None => false end
  | RequestTimer => match req s with Some _ => true | None => false end
  | UnregisterSep a => match sep_at s !! a with Some l => bool_decide (ls_stream l = None) | None => false end
  | AuthDone _ | RegisterSep _ _ _ | AbortStream _ => true
  end.

Definition run_event (e : event) s : outcome (avdtp U) :=
  match e with
  | Packet pkt => r ← session_cb malloc calls pkt s; Ret r.2
  | ServerConnect fd i o => avdtp_server_cb calls fd i o s
  | Connected err fd i o => l2cap_connect_cb calls err fd i o s
  | AuthDone granted => auth_cb calls granted s
  | TransportClosed st => transport_cb calls st s
  | OpenTimer st => stream_open_timeout calls st s
  | CloseTimer st => stream_close_timeout st s
  | RequestTimer => request_timeout calls s
  | RegisterSep t m c => Ret (avdtp_register_sep malloc t m c s).2
  | UnregisterSep a => r ← avdtp_unregister_sep a s; Ret r.2
  | AbortStream st => r ← avdtp_abort calls st s; Ret r.2
  end.

Fixpoint run_events (es : list event) s : outcome (avdtp U) :=
  match es with
  | [] => Ret s
  | e :: es => s ← run_event e s; run_events es s
  end.

(** Every event can happen when its turn comes. *)
Fixpoint allowed (es : list event) s : bool :=
  match es with
  | [] => true
  | e :: es => enabled e s && match run_event e s with Ret s => allowed es s | _ => true end
  end.

Lemma snd_safe {X} (o : outcome (X * avdtp U)) : yields o wf_snd → yields (r ← o; Ret r.2) wf.
Proof. intros H. eapply yields_bind; [exact H|]. intros r Hr. by apply yields_ret. Qed.

Lemma event_safe e s : wf s → enabled e s = true → yields (run_event e s) wf.
Proof using malloc_fresh.
  intros Hwf He. destruct e; cbn [run_event enabled] in *.
  - apply snd_safe, session_cb_safe; [done|]. apply Forall_forall. intros b Hb. apply forallb_forall with (x := b) in He; [|by apply list_elem_of_In]. unfold byte_ok. lia.
  - apply server_cb_safe; [done|]. unfold mtu_ok. lia.
  - apply connect_cb_safe; [done|]. unfold mtu_ok. lia.
  - by apply auth_cb_safe.
  - destruct (stream_at s !! st) as [x|] eqn:Hx; [|done]. destruct (transport_cb_spec calls st s Hwf) as (s' & E & Hwf'); [|by exists s'].
    apply (wf_active _ Hwf st x Hx). by left.
  - destruct (stream_at s !! st) as [x|] eqn:Hx; [|done]. apply bool_decide_eq_true in He. apply (open_timeout_safe st x); [done|done|by rewrite He].
  - destruct (stream_at s !! st) as [x|] eqn:Hx; [|done]. apply bool_decide_eq_true in He. apply (close_timeout_safe st x); [done|done|by rewrite He].
  - apply request_timeout_safe; [done|]. destruct (req s); [by eexists|done].
  - by apply yields_ret, register_safe.
  - destruct (sep_at s !! a) as [l|] eqn:Hl; [|done]. apply bool_decide_eq_true in He. by apply snd_safe, (unregister_safe a l).
  - by apply snd_safe, avdtp_abort_safe.
Qed.

Lemma events_safe es s : wf s → allowed es s = true → yields (run_events es s) wf.
Proof using malloc_fresh.
  revert s. induction es as [|e es IH]; intros s Hwf Ha; cbn [run_events allowed] in *; [by apply yields_ret|].
  apply andb_prop in Ha as [He Ha]. destruct (event_safe e s Hwf He) as (s' & E & Hwf'). rewrite E in *. rewrite outcome_bind_ret. by apply IH.
Qed.
End safe.

(** A session with nothing done yet; no end points are registered. [f] and [c] say
    how the calls to [send] and [l2cap_connect] go. *)
Definition initial {U} (f c : list bool) (u : U) : avdtp U :=
  Avdtp (-1) AVDTP_SESSION_STATE_DISCONNECTED 0 0 (InBuf false 0 0 0 0 (replicate 1024 0) 0) None [] [] None [] [] false false 0 ∅ ∅ [] 1 [] f c [] u.

Lemma initial_wf {U} f c (u : U) : wf (initial f c u).
Proof.
  assert (in_ok (inb (initial f c u))) as Hin.
  { split; [exact (length_replicate 1024 0)|]. split; [|done]. change (Forall byte_ok (replicate 1024 0)). by apply Forall_replicate. }
  split; try exact Hin; cbn; try done; try (intros; set_solver).
  - split; [apply NoDup_nil_2|]. intros a. rewrite lookup_empty. split; [by intros ?%elem_of_nil|by intros [? ?]].
  - apply NoDup_nil_2.
Qed.


(** Layers above that agree to everything. *)
Definition agreeable : callbacks unit := Callbacks unit (λ _ u, (inr [Cap AVDTP_MEDIA_TRANSPORT []], u)) (λ _ _ _ u, (None, u)) (λ _ _ _ u, (None, u))
  (λ _ _ _ _ u, u) (λ _ _ _ _ u, u) (λ _ _ u, u).

(** A stream is set up, opened, started and closed. *)
Definition life : list event :=
  [RegisterSep AVDTP_SEP_TYPE_SINK 0 0; ServerConnect 5 672 48; AuthDone true;
   Packet [0; AVDTP_DISCOVER]; Packet [16; AVDTP_SET_CONFIGURATION; 4; 8; AVDTP_MEDIA_TRANSPORT; 0; AVDTP_MEDIA_CODEC; 2; 0; 0];
   Packet [32; AVDTP_OPEN; 4]; ServerConnect 6 672 672; Packet [48; AVDTP_START; 4]; Packet [64; AVDTP_SUSPEND; 4];
   Packet [80; AVDTP_CLOSE; 4]; TransportClosed 1; RegisterSep AVDTP_SEP_TYPE_SOURCE 0 0; UnregisterSep 1].


Example life_sent : match run_events next_above agreeable life (initial [] [] tt) with
  | Ret s => sent s = [[2; AVDTP_DISCOVER; 4; 8]; [18; AVDTP_SET_CONFIGURATION]; [34; AVDTP_OPEN]; [50; AVDTP_START]; [66; AVDTP_SUSPEND]; [82; AVDTP_CLOSE]] ∧ local_seps s = [2]
  | _ => False
  end.
Proof. by vm_compute. Qed.
