(* ===== verification/AvdtpTable.v ===== *)
(** utils/audio/avdtp.c: the acceptor follows the table of the stream end
    point's states. What each command answers and does is a function of the state
    of the end point it names and of what the layers above say. *)

From stdpp Require Import base list numbers gmap.
From Stdlib Require Import ZArith Lia.
From S2P Require Import Prelude CString SdpTypes SdpList Heap Avdtp AvdtpFrame AvdtpAcceptor AvdtpSafe.

Local Open Scope Z_scope.

(** * The table *)

(** The commands on a stream. *)
Definition stream_commands : list Z := [AVDTP_SET_CONFIGURATION; AVDTP_OPEN; AVDTP_START; AVDTP_SUSPEND; AVDTP_CLOSE; AVDTP_ABORT].

(** Whether the state of the end point allows the command; if not, the error. *)
Definition acp_check (sig : Z) (st : avdtp_state) (attached : bool) (caps : list capability) : option Z :=
  if sig =? AVDTP_SET_CONFIGURATION then
    if attached then Some AVDTP_SEP_IN_USE else if existsb bad_media_transport caps then Some AVDTP_BAD_MEDIA_TRANSPORT_FORMAT else None
  else if sig =? AVDTP_OPEN then if bool_decide (st = AVDTP_STATE_CONFIGURED) then None else Some AVDTP_BAD_STATE
  else if negb attached then Some AVDTP_BAD_ACP_SEID
  else
    let from := if sig =? AVDTP_START then [AVDTP_STATE_OPEN]
                else if sig =? AVDTP_SUSPEND then [AVDTP_STATE_STREAMING]
                else if sig =? AVDTP_CLOSE then [AVDTP_STATE_OPEN; AVDTP_STATE_STREAMING]
                else [st] in
    if bool_decide (st ∈ from) then None else Some AVDTP_BAD_STATE.

(** The state after an accepted command; what follows OPEN is the transport. *)
Definition acp_next (sig : Z) (st : avdtp_state) : avdtp_state :=
  if sig =? AVDTP_SET_CONFIGURATION then AVDTP_STATE_CONFIGURED
  else if sig =? AVDTP_OPEN then st
  else if sig =? AVDTP_START then AVDTP_STATE_STREAMING
  else if sig =? AVDTP_SUSPEND then AVDTP_STATE_OPEN
  else if sig =? AVDTP_CLOSE then AVDTP_STATE_CLOSING
  else AVDTP_STATE_ABORTING.

(** The type of the answer and its octets. A START that is refused is answered
    with an acceptance that holds the refusal. *)
Definition acp_reply (sig id : Z) (refused : option (Z * Z)) : Z * list Z :=
  match refused with
  | None => (AVDTP_MSG_TYPE_ACCEPT, [])
  | Some (err, category) =>
      if sig =? AVDTP_SET_CONFIGURATION then (AVDTP_MSG_TYPE_REJECT, [category; err])
      else if sig =? AVDTP_START then (AVDTP_MSG_TYPE_ACCEPT, [4 * id; err])
      else if sig =? AVDTP_SUSPEND then (AVDTP_MSG_TYPE_REJECT, [4 * id; err])
      else (AVDTP_MSG_TYPE_REJECT, [err])
  end.

(** What the layers above say, if they are asked. *)
Definition acp_asked {U} (malloc : gset Z → Z) (calls : callbacks U) (sig a : Z) (l : local_sep) (caps : list capability) (s : avdtp U) : option (Z * Z) :=
  if sig =? AVDTP_SET_CONFIGURATION then (ind_set_configuration calls a (malloc (dom (stream_at s))) caps (upper s)).1
  else (λ e, (e, 0)) <$> (ind calls sig a (default 0 (ls_stream l)) (upper s)).1.

Definition acp_refused {U} malloc calls sig a l caps (s : avdtp U) : option (Z * Z) :=
  match acp_check sig (state l) (bool_decide (ls_stream l ≠ None)) caps with
  | Some err => Some (err, 0)
  | None => acp_asked malloc calls sig a l caps s
  end.

(** The octets of a command for the end point [id]: a configuration has the
    other end point and the capabilities after it. *)
Definition acp_command (sig id int : Z) (caps : list Z) : list Z :=
  if sig =? AVDTP_SET_CONFIGURATION then 4 * id :: int :: caps else [4 * id].

(** * The commands follow it *)

Section table.
Context {U : Type} (malloc : gset Z → Z) (malloc_fresh : ∀ X, malloc X ∉ X) (calls : callbacks U).
Implicit Types s : avdtp U.

Lemma acp_seid_4 id : acp_seid (4 * id) = id.
Proof. unfold acp_seid. rewrite Z.shiftr_div_pow2 by lia. change (2 ^ 2) with 4. rewrite Z.mul_comm. by apply Z.div_mul. Qed.

Lemma find_seid_known s a (l : local_sep) : wf s → sep_at s !! a = Some l → find_local_sep_by_seid (seid l) s = Ret (Some a).
Proof.
  intros Hwf Hl. destruct (find_seid_spec (seid l) s Hwf) as (r & -> & Hr). destruct r as [b|].
  - destruct Hr as (k & Hk & E). by rewrite (wf_seid _ Hwf b a k l).
  - by destruct (Hr a l Hl).
Qed.

Lemma find_seid_unknown s id : wf s → (∀ a l, sep_at s !! a = Some l → seid l ≠ id) → find_local_sep_by_seid id s = Ret None.
Proof.
  intros Hwf Hn. destruct (find_seid_spec id s Hwf) as (r & -> & Hr). destruct r as [b|]; [|done]. destruct Hr as (k & Hk & E). by destruct (Hn b k).
Qed.

(** A working channel. *)
Definition up s : Prop := wf s ∧ 0 ≤ sock s ∧ faults s = [].

Lemma up_send s t m sig data : up s → avdtp_send t m sig data s = Ret (true, set_sent (sent s ++ packets (omtu s) t m sig data) s).
Proof. intros (Hwf & Hs & Hf). apply avdtp_send_ok; [done|done|by apply wf_mtu]. Qed.

(** What a command has done: its answer is sent, the end point [a] has the state
    [new] and the others theirs. *)
Definition done_with s (a : Z) (new : avdtp_state) t (reply : Z * list Z) sig (o : outcome (bool * avdtp U)) : Prop :=
  ∃ s', o = Ret (true, s') ∧ sent s' = sent s ++ packets (omtu s) t reply.1 sig reply.2 ∧ state <$> sep_at s' = <[a := new]> (state <$> sep_at s).

(** An answer that changes no state. *)
Lemma reply_done s s0 a l t m sig data : up s → sep_at s !! a = Some l → omtu s = omtu s0 → sent s = sent s0 → state <$> sep_at s = state <$> sep_at s0 →
  done_with s0 a (state l) t (m, data) sig (avdtp_send t m sig data s).
Proof.
  intros Hup Hl Eo Es Ep. rewrite up_send by done. eexists. split; [done|]. cbn. rewrite Eo, Es. split; [done|]. rewrite <- Ep, insert_id; [done|].
  by rewrite lookup_fmap, Hl.
Qed.

Lemma up_upper u s : up s → up (set_upper u s).
Proof. intros (Hwf & Hs & Hf). split; [by apply wf_upper|done]. Qed.

(** The state an end point has after a command. *)
Definition acp_after (sig : Z) (l : local_sep) (refused : option (Z * Z)) : avdtp_state :=
  match refused with None => acp_next sig (state l) | Some _ => state l end.

Definition obeys s a l t sig caps (o : outcome (bool * avdtp U)) : Prop :=
  let r := acp_refused malloc calls sig a l caps s in done_with s a (acp_after sig l r) t (acp_reply sig (seid l) r) sig o.

(** A refusal by the table. *)
Lemma obeys_refused s a l t sig caps err m data : up s → sep_at s !! a = Some l →
  acp_check sig (state l) (bool_decide (ls_stream l ≠ None)) caps = Some err → acp_reply sig (seid l) (Some (err, 0)) = (m, data) →
  obeys s a l t sig caps (avdtp_send t m sig data s).
Proof. intros Hup Hl Hc Hr. unfold obeys, acp_refused. rewrite Hc, Hr. by apply reply_done. Qed.

(** What the layers above say. *)
Lemma obeys_asked s a l t sig caps o : acp_check sig (state l) (bool_decide (ls_stream l ≠ None)) caps = None →
  (let r := acp_asked malloc calls sig a l caps s in done_with s a (acp_after sig l r) t (acp_reply sig (seid l) r) sig o) → obeys s a l t sig caps o.
Proof. intros Hc Ho. unfold obeys, acp_refused. by rewrite Hc. Qed.

Lemma asked_eq sig a l st caps s : sig ≠ AVDTP_SET_CONFIGURATION → ls_stream l = Some st →
  ∃ u r, indicate calls sig a st s = (r, set_upper u s) ∧ acp_asked malloc calls sig a l caps s = (λ e, (e, 0)) <$> r.
Proof.
  intros Hs Hl. unfold indicate, acp_asked. rewrite Hl. change (default 0 (Some st)) with st. destruct (Z.eqb_spec sig AVDTP_SET_CONFIGURATION); [done|].
  destruct (ind calls sig a st (upper s)) as [r u]. by exists u, r.
Qed.

Ltac known Hwf Hl := rewrite acp_seid_4, (find_seid_known _ _ _ Hwf Hl), outcome_bind_ret, (at_ptr_Some _ _ _ Hl), outcome_bind_ret.

Lemma attached_true l st : ls_stream l = Some st → bool_decide (ls_stream l ≠ None) = true.
Proof. intros ->. by apply bool_decide_true. Qed.

Lemma open_obeys s a l t rest : up s → sep_at s !! a = Some l → obeys s a l t AVDTP_OPEN [] (avdtp_open_cmd calls t (4 * seid l :: rest) s).
Proof.
  intros Hup Hl. pose proof Hup as (Hwf & _). unfold avdtp_open_cmd. known Hwf Hl. case_bool_decide as Hst.
  { eapply obeys_refused; [done|done| |done]. cbn. by rewrite bool_decide_false. }
  destruct (ls_stream l) as [st|] eqn:Hs; [|by rewrite (wf_idle _ Hwf a l) in Hst].
  apply obeys_asked; [cbn; by rewrite bool_decide_true|]. destruct (asked_eq AVDTP_OPEN a l st [] s) as (u & r & -> & ->); [done|done|]. cbn zeta. destruct r as [err|]; cbn [fmap option_fmap option_map].
  - apply (reply_done (set_upper u s)); [by apply up_upper|done..].
  - unfold accept. rewrite up_send by (by apply up_upper). rewrite outcome_bind_ret. destruct (wf_sep _ Hwf a l st Hl Hs) as [_ (x & Hx & _)].
    rewrite (at_ptr_Some _ st x), outcome_bind_ret by done. eexists. split; [done|]. split; [done|]. cbn. rewrite insert_id; [done|]. by rewrite lookup_fmap, Hl.
Qed.

(** The state of an end point with a stream changes, then the answer goes. *)
Lemma set_state_done s a l st new : up s → sep_at s !! a = Some l → ls_stream l = Some st → new ≠ AVDTP_STATE_IDLE →
  ∃ s' x, avdtp_sep_set_state calls a new s = Ret s' ∧ up s' ∧ sent s' = sent s ∧ omtu s' = omtu s ∧ sep_at s' = <[a := with_state new l]> (sep_at s) ∧ stream_at s' !! st = Some x.
Proof.
  intros (Hwf & Hs & Hf) Hl Hst Hn. destruct (set_state_spec calls a l st new s Hwf Hl Hst Hn) as (x & x' & u & _ & _ & _ & -> & Hwf').
  eexists _, x'. split; [done|]. split_and!; [done..|]. cbn. by rewrite lookup_insert_eq.
Qed.

Lemma abort_obeys s a l t rest : up s → sep_at s !! a = Some l → obeys s a l t AVDTP_ABORT [] (avdtp_abort_cmd calls t (4 * seid l :: rest) s).
Proof.
  intros Hup Hl. pose proof Hup as (Hwf & _). unfold avdtp_abort_cmd. known Hwf Hl. destruct (ls_stream l) as [st|] eqn:Hs.
  2: { eapply obeys_refused; [done|done|cbn; by rewrite Hs|done]. }
  apply obeys_asked; [rewrite (attached_true l st Hs); cbn; by rewrite bool_decide_true by (by left)|].
  destruct (asked_eq AVDTP_ABORT a l st [] s) as (u & r & -> & ->); [done|done|]. cbn zeta. destruct r as [err|]; cbn [fmap option_fmap option_map].
  - apply (reply_done (set_upper u s)); [by apply up_upper|done..].
  - unfold accept. pose proof (up_upper u s Hup) as Hup1. rewrite up_send by done. rewrite outcome_bind_ret. set (s1 := set_sent _ _).
    destruct (set_state_done s1 a l st AVDTP_STATE_ABORTING) as (s2 & x & -> & _ & Es & _ & Ep & _); [|done..|].
    { destruct Hup1 as (Hwf1 & ? & ?). split; [|done]. by apply (wf_same (set_upper u s)). }
    rewrite outcome_bind_ret. eexists. split; [done|]. split; [by rewrite Es|]. by rewrite Ep, fmap_insert.
Qed.

Lemma close_obeys s a l t rest : up s → sep_at s !! a = Some l → obeys s a l t AVDTP_CLOSE [] (avdtp_close_cmd calls t (4 * seid l :: rest) s).
Proof.
  intros Hup Hl. pose proof Hup as (Hwf & _). unfold avdtp_close_cmd. known Hwf Hl. destruct (ls_stream l) as [st|] eqn:Hs.
  2: { eapply obeys_refused; [done|done|cbn; by rewrite Hs|done]. }
  case_bool_decide as Hst.
  { eapply obeys_refused; [done|done| |done]. rewrite (attached_true l st Hs). cbn. rewrite bool_decide_false; [done|]. rewrite !elem_of_cons, elem_of_nil. tauto. }
  apply obeys_asked; [rewrite (attached_true l st Hs); cbn; rewrite bool_decide_true; [done|]; rewrite !elem_of_cons; destruct (decide (state l = AVDTP_STATE_OPEN)), (decide (state l = AVDTP_STATE_STREAMING)); tauto|].
  destruct (asked_eq AVDTP_CLOSE a l st [] s) as (u & r & -> & ->); [done|done|]. cbn zeta. destruct r as [err|]; cbn [fmap option_fmap option_map].
  - apply (reply_done (set_upper u s)); [by apply up_upper|done..].
  - destruct (set_state_done (set_upper u s) a l st AVDTP_STATE_CLOSING) as (s2 & x & -> & Hup2 & Es & Eo & Ep & Hx); [by apply up_upper|done..|].
    rewrite outcome_bind_ret. unfold accept. rewrite up_send, outcome_bind_ret by done. rewrite (at_ptr_Some _ st x), outcome_bind_ret by done.
    eexists. split; [done|]. cbn. rewrite Es, Eo, Ep. split; [done|]. by rewrite fmap_insert.
Qed.

(** START and SUSPEND of one end point. *)
Lemma seid_loop_one s a l sig from to : up s → sep_at s !! a = Some l → sig ≠ AVDTP_SET_CONFIGURATION → to ≠ AVDTP_STATE_IDLE →
  let o := seid_loop calls sig from to (acp_seid (4 * seid l)) [4 * seid l] s in
  match (if bool_decide (ls_stream l = None) then Some (AVDTP_BAD_ACP_SEID, 0) else if bool_decide (state l = from) then acp_asked malloc calls sig a l [] s else Some (AVDTP_BAD_STATE, 0)) with
  | Some (err, _) => ∃ u, o = Ret (inl (seid l, err), set_upper u s)
  | None => ∃ s', o = Ret (inr tt, s') ∧ up s' ∧ sent s' = sent s ∧ omtu s' = omtu s ∧ sep_at s' = <[a := with_state to l]> (sep_at s)
  end.
Proof.
  intros Hup Hl Hsig Hto. pose proof Hup as (Hwf & _). cbn zeta. cbn [seid_loop]. cbn zeta. known Hwf Hl.
  assert (set_upper (upper s) s = s) as Eid by (by destruct s).
  destruct (ls_stream l) as [st|] eqn:Hs.
  2: { rewrite bool_decide_true by done. exists (upper s). by rewrite Eid. }
  rewrite (bool_decide_false (Some st = None)) by done. destruct (decide (state l = from)) as [Hst|Hst].
  2: { rewrite (bool_decide_true (state l ≠ from)), (bool_decide_false (state l = from)) by done. exists (upper s). by rewrite Eid. }
  rewrite (bool_decide_false (state l ≠ from)), (bool_decide_true (state l = from)) by tauto.
  destruct (asked_eq sig a l st [] s) as (u & r & -> & ->); [done|done|]. destruct r as [err|]; cbn [fmap option_fmap option_map]; [by exists u|].
  destruct (set_state_done (set_upper u s) a l st to) as (s2 & x & -> & Hup2 & Es & Eo & Ep & _); [by apply up_upper|done..|].
  rewrite outcome_bind_ret. by exists s2.
Qed.

Lemma refused_from s a l sig from : (sig = AVDTP_START ∧ from = AVDTP_STATE_OPEN) ∨ (sig = AVDTP_SUSPEND ∧ from = AVDTP_STATE_STREAMING) →
  acp_refused malloc calls sig a l [] s =
  if bool_decide (ls_stream l = None) then Some (AVDTP_BAD_ACP_SEID, 0) else if bool_decide (state l = from) then acp_asked malloc calls sig a l [] s else Some (AVDTP_BAD_STATE, 0).
Proof.
  intros H. unfold acp_refused. destruct (ls_stream l) as [st|].
  - rewrite (bool_decide_true (Some st ≠ None)), (bool_decide_false (Some st = None)) by done.
    assert (bool_decide (state l ∈ [from]) = bool_decide (state l = from)) as E by (apply bool_decide_ext, list_elem_of_singleton).
    remember (bool_decide (state l = from)) as bd eqn:Ebd. clear Ebd. destruct H as [[-> ->]|[-> ->]]; cbn; rewrite E; by destruct bd.
  - rewrite (bool_decide_false (None ≠ None)), (bool_decide_true (None = None)) by tauto. by destruct H as [[-> ->]|[-> ->]].
Qed.

Lemma start_obeys s a l t : up s → sep_at s !! a = Some l → obeys s a l t AVDTP_START [] (avdtp_start_cmd calls t [4 * seid l] s).
Proof.
  intros Hup Hl. unfold obeys. rewrite (refused_from s a l AVDTP_START AVDTP_STATE_OPEN) by tauto. unfold avdtp_start_cmd.
  pose proof (seid_loop_one s a l AVDTP_START AVDTP_STATE_OPEN AVDTP_STATE_STREAMING Hup Hl) as H. cbn zeta in *. destruct (if bool_decide (ls_stream l = None) then _ else _) as [[err c]|].
  - destruct H as (u & ->); [done..|]. rewrite outcome_bind_ret. apply (reply_done (set_upper u s)); [by apply up_upper|done..].
  - destruct H as (s2 & -> & Hup2 & Es & Eo & Ep); [done..|]. rewrite outcome_bind_ret. unfold accept. rewrite up_send by done. eexists. split; [done|].
    cbn. rewrite Es, Eo, Ep, fmap_insert. done.
Qed.

Lemma suspend_obeys s a l t : up s → sep_at s !! a = Some l → obeys s a l t AVDTP_SUSPEND [] (avdtp_suspend_cmd calls t [4 * seid l] s).
Proof.
  intros Hup Hl. unfold obeys. rewrite (refused_from s a l AVDTP_SUSPEND AVDTP_STATE_STREAMING) by tauto. unfold avdtp_suspend_cmd.
  pose proof (seid_loop_one s a l AVDTP_SUSPEND AVDTP_STATE_STREAMING AVDTP_STATE_OPEN Hup Hl) as H. cbn zeta in *. destruct (if bool_decide (ls_stream l = None) then _ else _) as [[err c]|].
  - destruct H as (u & ->); [done..|]. rewrite outcome_bind_ret. apply (reply_done (set_upper u s)); [by apply up_upper|done..].
  - destruct H as (s2 & -> & Hup2 & Es & Eo & Ep); [done..|]. rewrite outcome_bind_ret. unfold accept. rewrite up_send by done. eexists. split; [done|].
    cbn. rewrite Es, Eo, Ep, fmap_insert. done.
Qed.

Lemma setconf_obeys s a l t int octets caps codec : up s → sep_at s !! a = Some l → caps_to_list octets = Ret (caps, codec) →
  obeys s a l t AVDTP_SET_CONFIGURATION caps (avdtp_setconf_cmd malloc calls t (4 * seid l :: int :: octets) s).
Proof using malloc_fresh.
  intros Hup Hl Hc. pose proof Hup as (Hwf & Hsock & Hf). unfold avdtp_setconf_cmd. known Hwf Hl. destruct (ls_stream l) as [st|] eqn:Hs.
  { eapply obeys_refused; [done|done|rewrite (attached_true l st Hs); done|done]. }
  assert (acp_check AVDTP_SET_CONFIGURATION (state l) (bool_decide (ls_stream l ≠ None)) caps = if existsb bad_media_transport caps then Some AVDTP_BAD_MEDIA_TRANSPORT_FORMAT else None) as Ec.
  { rewrite bool_decide_false by tauto. done. }
  destruct (wf_fresh malloc malloc_fresh s Hwf) as [Hnew Hst]. cbn zeta. rewrite Hc, outcome_bind_ret. set (x := Stream _ _ _ _ _ _ _ _ _ _).
  set (st := malloc _) in *. pose proof (wf_new_stream st x s Hwf Hst eq_refl eq_refl) as Hwf1. assert (up (set_stream st x s)) as Hup1 by by split.
  unfold obeys, acp_refused. rewrite Ec. destruct (existsb _ _); [by apply (reply_done (set_stream st x s))|].
  unfold acp_asked. cbn [Z.eqb AVDTP_SET_CONFIGURATION Pos.eqb]. change (upper (set_stream st x s)) with (upper s). fold st.
  destruct (ind_set_configuration calls a st caps (upper s)) as [r u]. apply (up_upper u) in Hup1. set (s1 := set_upper u _) in *. cbn [fst]. pose proof Hup1 as (Hwf2 & _).
  assert (stream_at s1 !! st = Some x) as Hx by (cbn; by rewrite lookup_insert_eq). destruct r as [[err category]|].
  - destruct (stream_free_spec st x l s1) as (s2 & -> & Hwf3 & Ep & _ & _ & E1 & E2 & E3 & E4 & E5 & _); [done..|]. rewrite outcome_bind_ret.
    eapply (reply_done s2 s a (LocalSep (state l) None (seid l) false (ls_type l) (ls_media_type l) (ls_codec l))).
    + split; [done|]. by rewrite E1, E4.
    + rewrite Ep. by rewrite lookup_insert_eq.
    + by rewrite E2.
    + by rewrite E5.
    + rewrite Ep, fmap_insert, insert_id; [done|]. cbn. by rewrite lookup_fmap, Hl.
  - unfold accept. rewrite up_send, outcome_bind_ret by done. set (s2 := set_sent _ _).
    rewrite (at_ptr_Some (sep_at s2) a l), outcome_bind_ret by done. cbn zeta. set (s3 := set_streams _ _).
    assert (up s3) as Hup3.
    { split; [|done]. apply (wf_attach a l st x s2); try done. by apply (wf_same s1). }
    destruct (set_state_done s3 a (with_stream (Some st) l) st AVDTP_STATE_CONFIGURED) as (s4 & y & -> & _ & Es & _ & Ep & _); [done|cbn; by rewrite lookup_insert_eq|done..|].
    rewrite outcome_bind_ret. eexists. split; [done|]. rewrite Es, Ep. split; [done|]. rewrite fmap_insert. cbn. by rewrite fmap_insert, insert_insert_eq.
Qed.

Lemma command_known s a l t sig int octets caps codec : up s → sep_at s !! a = Some l → sig ∈ stream_commands → caps_to_list octets = Ret (caps, codec) →
  obeys s a l t sig caps (avdtp_parse_cmd malloc calls t sig (acp_command sig (seid l) int octets) s).
Proof using malloc_fresh.
  intros Hup Hl Hs Hc. unfold stream_commands in Hs. rewrite !elem_of_cons, elem_of_nil in Hs.
  destruct Hs as [->|[->|[->|[->|[->|[->|[]]]]]]]; unfold avdtp_parse_cmd; cbn -[avdtp_setconf_cmd avdtp_open_cmd avdtp_start_cmd avdtp_suspend_cmd avdtp_close_cmd avdtp_abort_cmd].
  - by eapply setconf_obeys.
  - by apply (open_obeys s a l t []).
  - by apply (start_obeys s a l t).
  - by apply (suspend_obeys s a l t).
  - by apply (close_obeys s a l t []).
  - by apply (abort_obeys s a l t []).
Qed.

Lemma command_unknown s id t sig int octets : up s → (∀ a l, sep_at s !! a = Some l → seid l ≠ id) → sig ∈ stream_commands →
  let '(m, data) := acp_reply sig id (Some (AVDTP_BAD_ACP_SEID, 0)) in
  avdtp_parse_cmd malloc calls t sig (acp_command sig id int octets) s = Ret (true, set_sent (sent s ++ packets (omtu s) t m sig data) s).
Proof.
  intros Hup Hn Hs. pose proof Hup as (Hwf & _). pose proof (find_seid_unknown s id Hwf Hn) as Hf. unfold stream_commands in Hs. rewrite !elem_of_cons, elem_of_nil in Hs.
  destruct Hs as [->|[->|[->|[->|[->|[->|[]]]]]]]; unfold avdtp_parse_cmd; cbn -[avdtp_setconf_cmd avdtp_open_cmd avdtp_start_cmd avdtp_suspend_cmd avdtp_close_cmd avdtp_abort_cmd stream_rej acp_seid];
    unfold avdtp_setconf_cmd, avdtp_open_cmd, avdtp_start_cmd, avdtp_suspend_cmd, avdtp_close_cmd, avdtp_abort_cmd; cbn [seid_loop]; rewrite ?acp_seid_4, Hf, ?outcome_bind_ret; by apply up_send.
Qed.
End table.


(** A session with an end point that streams. *)
Definition streaming : avdtp unit :=
  Avdtp 5 AVDTP_SESSION_STATE_CONNECTED 672 48 (InBuf false 0 0 0 0 (replicate 1024 0) 0) None [] [] None [1] [] false true 0
    {[1 := Stream 6 1 2 [] None true None true false false]} {[1 := LocalSep AVDTP_STATE_STREAMING (Some 1) 1 false AVDTP_SEP_TYPE_SINK 0 0]} [1] 2 [] [] [] [] tt.

Lemma streaming_wf : wf streaming.
Proof.
  split; cbn.
  - split; [exact (length_replicate 1024 0)|]. split; [|done]. change (Forall byte_ok (replicate 1024 0)). by apply Forall_replicate.
  - done.
  - split; [apply NoDup_singleton|]. intros a. rewrite list_elem_of_singleton, lookup_singleton_is_Some. done.
  - intros a l [_ <-]%lookup_singleton_Some. done.
  - intros a b x y [<- _]%lookup_singleton_Some [<- _]%lookup_singleton_Some. done.
  - apply NoDup_singleton.
  - intros st ->%list_elem_of_singleton. by eexists _, _.
  - intros a l st [<- <-]%lookup_singleton_Some [= <-]. split; [by left|]. by eexists.
  - intros st x [<- _]%lookup_singleton_Some _. by left.
  - intros a l [_ <-]%lookup_singleton_Some. done.
  - done.
  - intros r [?|[?%elem_of_nil|?%elem_of_nil]]; done.
Qed.

