(* ===== verification/AvdtpPair.v ===== *)
(** utils/audio/avdtp.c: two devices. A procedure on an established stream (START,
    SUSPEND, CLOSE) runs through both: the request of the initiator, its packet,
    the command and answer of the acceptor, and what the initiator makes of it.
    When the acceptor agrees, the two ends have the same state afterwards; when it
    refuses, only SUSPEND leaves them in step. *)

From stdpp Require Import base list numbers gmap.
From Stdlib Require Import ZArith Lia.
From S2P Require Import Prelude CString SdpTypes SdpList Heap Avdtp AvdtpFrame AvdtpAcceptor AvdtpSafe AvdtpTable.

Local Open Scope Z_scope.

(** The one packet of a short message. *)
Definition single (t m sig : Z) (data : list Z) : list Z := header t AVDTP_PKT_TYPE_SINGLE m :: signal_octet sig :: data.

Lemma packets_single omtu t m sig data : 2 + Z.of_nat (length data) ≤ omtu → packets omtu t m sig data = [single t m sig data].
Proof. intros H. unfold packets. cbn zeta. by destruct (Z.leb_spec (2 + Z.of_nat (length data)) omtu); [|lia]. Qed.

Lemma single_arrives t m sig data i : 0 ≤ t < 16 → 0 ≤ m < 4 → 0 ≤ sig < 64 → (length data ≤ 255)%nat → active i = false → length (buf i) = 1024%nat →
  ∃ i', avdtp_parse_data (single t m sig data) i = Ret (PARSE_SUCCESS, i') ∧ message i' t m sig data ∧ take (Z.to_nat (data_size i')) (buf i') = data.
Proof.
  intros Ht Hm Hs Hl Ha Hb. destruct (parse_first t m sig 0 i data Ht Hm Hs Ha) as [E _].
  destruct (parse_payload _ _ _ [] data E ltac:(by split_and!) ltac:(cbn; lia)) as (i' & Ei & (Hh & R1 & R2 & R3) & Ha').
  exists i'. split; [exact Ei|]. split; [by split_and!|]. destruct Hh as (Hd & Ht' & _). rewrite Hd, Nat2Z.id. exact Ht'.
Qed.

Section session.
Context {U : Type} (malloc : gset Z → Z) (calls : callbacks U).
Implicit Types s : avdtp U.

(** The session gives up. *)
Definition drop_connection s : outcome (bool * avdtp U) := s ← connection_lost calls (- EIO) s; Ret (false, s).

Lemma command_arrives t sig data s : 0 ≤ t < 16 → 0 ≤ sig < 64 → (length data ≤ 255)%nat → active (inb s) = false → length (buf (inb s)) = 1024%nat →
  ∃ i, session_cb malloc calls (single t AVDTP_MSG_TYPE_COMMAND sig data) s =
    (o ← avdtp_parse_cmd malloc calls t sig data (set_inb i s); let '(ok, s) := o in if ok : bool then Ret (true, s) else drop_connection s) ∧
    avdtp_parse_data (single t AVDTP_MSG_TYPE_COMMAND sig data) (inb s) = Ret (PARSE_SUCCESS, i).
Proof.
  intros Ht Hs Hl Ha Hb. destruct (single_arrives t AVDTP_MSG_TYPE_COMMAND sig data (inb s)) as (i & E & (_ & E1 & E2 & E3 & _) & Hd); try done.
  exists i. split; [|done]. unfold session_cb, single at 1. fold (single t AVDTP_MSG_TYPE_COMMAND sig data). rewrite E, outcome_bind_ret. cbn zeta.
  by rewrite Hd, E1, E2, E3.
Qed.

Lemma answer_arrives r m data s : req s = Some r → 0 ≤ r_transaction r < 16 → 0 ≤ r_signal_id r < 64 → m = AVDTP_MSG_TYPE_ACCEPT ∨ m = AVDTP_MSG_TYPE_REJECT →
  (length data ≤ 255)%nat → active (inb s) = false → length (buf (inb s)) = 1024%nat →
  ∃ i, session_cb malloc calls (single (r_transaction r) m (r_signal_id r) data) s =
    (o ← (let st := match r_stream r with Some a => if bool_decide (a ∈ streams s) then Some a else None | None => None end in
          if m =? AVDTP_MSG_TYPE_ACCEPT then avdtp_parse_resp calls r st (r_signal_id r) data (set_inb i s) else avdtp_parse_rej calls st (r_signal_id r) data (set_inb i s));
     let '(ok, s) := o in if ok : bool then s ← process_queue (set_req None s); Ret (true, s) else drop_connection s).
Proof.
  intros Er Ht Hs Hm Hl Ha Hb. assert (0 ≤ m < 4) as Hm4 by (unfold AVDTP_MSG_TYPE_ACCEPT, AVDTP_MSG_TYPE_REJECT in Hm; lia).
  destruct (single_arrives (r_transaction r) m (r_signal_id r) data (inb s)) as (i & E & (_ & E1 & E2 & E3 & _) & Hd); try done.
  exists i. unfold session_cb, single at 1. fold (single (r_transaction r) m (r_signal_id r) data). rewrite E, outcome_bind_ret. cbn zeta.
  destruct (header_fields (r_transaction r) AVDTP_PKT_TYPE_SINGLE m Ht ltac:(done) Hm4) as (-> & _ & ->).
  change (req (set_inb i s)) with (req s). rewrite Hd, E2, E3, Er, !Z.eqb_refl. cbn [negb].
  change (streams (set_inb i s)) with (streams s).
  by destruct Hm as [->| ->].
Qed.

Lemma process_queue_idle s : prio_queue s = [] → req_queue s = [] → process_queue (set_req None s) = Ret (set_req None s).
Proof.
  intros Ep Eq. unfold process_queue. cbn [req set_req].
  change (prio_queue (set_req None s)) with (prio_queue s). change (req_queue (set_req None s)) with (req_queue s). by rewrite Ep, Eq.
Qed.

(** ** The initiator *)

(** A stream of a connected session with nothing else going on. *)
Record quiet (s : avdtp U) (st : Z) (x : stream) (l : local_sep) : Prop := {
  q_state : sstate s = AVDTP_SESSION_STATE_CONNECTED;
  q_req : req s = None ∧ prio_queue s = [] ∧ req_queue s = [];
  q_sock : 0 ≤ sock s ∧ faults s = [] ∧ 4 ≤ omtu s ≤ imtu s;
  q_transaction : 0 ≤ transaction s < 16;
  q_in : active (inb s) = false ∧ length (buf (inb s)) = 1024%nat;
  q_stream : st ∈ streams s ∧ stream_at s !! st = Some x;
  q_sep : sep_at s !! s_lsep x = Some l ∧ ls_stream l = Some st
}.

(** The procedures. *)
Definition procedures : list Z := [AVDTP_START; AVDTP_SUSPEND; AVDTP_CLOSE].
Definition request (sig st : Z) s : outcome (Z * avdtp U) :=
  if sig =? AVDTP_START then avdtp_start st s else if sig =? AVDTP_SUSPEND then avdtp_suspend st s else avdtp_close st s.

(** A request was sent and is waited for; the stream is as it was, but for what
    it notes of who closes it. *)
Definition waiting sig st x s s1 : Prop :=
  sent s1 = sent s ++ [single (transaction s) AVDTP_MSG_TYPE_COMMAND sig [4 * rseid x]] ∧
  req s1 = Some (Req (transaction s) sig [4 * rseid x] (Some st)) ∧ prio_queue s1 = [] ∧ req_queue s1 = [] ∧
  streams s1 = streams s ∧ sep_at s1 = sep_at s ∧ inb s1 = inb s ∧ upper s1 = upper s ∧
  ∃ y, stream_at s1 !! st = Some y ∧ s_lsep y = s_lsep x.

Lemma send_request_quiet sig st x l s : quiet s st x l → ∃ s1, send_request false (Some st) sig (seid_req (rseid x)) s = Ret (0, s1) ∧ waiting sig st x s s1 ∧ stream_at s1 = stream_at s.
Proof.
  intros [Hc (Hr & Hp & Hq) (Hs & Hf & Ho) Ht Hi [Hin Hx] [Hl Hls]]. unfold send_request, send_req.
  rewrite (bool_decide_false (sstate s = AVDTP_SESSION_STATE_DISCONNECTED)) by (by rewrite Hc). cbn [Z.ltb Z.compare]. rewrite bool_decide_false by (rewrite Hr, Hc; tauto).
  cbn zeta. cbn [r_transaction r_signal_id r_data r_stream]. set (s0 := set_transaction _ s).
  rewrite (avdtp_send_ok _ _ _ _ s0 Hs Hf ltac:(cbn; lia)), outcome_bind_ret. rewrite packets_single by (cbn; lia).
  eexists. split; [done|]. split; [|done]. split_and!; try done. by exists x.
Qed.

Lemma request_quiet sig st x l s : quiet s st x l → sig ∈ procedures → acp_check sig (state l) true [] = None →
  ∃ s1, request sig st s = Ret (0, s1) ∧ waiting sig st x s s1.
Proof.
  intros Hq Hsig Hc. destruct (send_request_quiet sig st x l s Hq) as (s1 & E & Hw & Es). destruct Hq as [_ _ _ _ _ [Hin Hx] [Hl Hls]].
  assert (stream_state st s = Ret (Some (x, state l))) as Est.
  { unfold stream_state. rewrite bool_decide_false by tauto. by rewrite (at_ptr_Some _ _ _ Hx), outcome_bind_ret, (at_ptr_Some _ _ _ Hl), outcome_bind_ret. }
  unfold procedures in Hsig. rewrite !elem_of_cons, elem_of_nil in Hsig. destruct Hsig as [->|[->|[->|[]]]]; unfold request; cbn [Z.eqb Pos.eqb AVDTP_START AVDTP_SUSPEND AVDTP_CLOSE].
  - unfold avdtp_start, stream_request. rewrite Est, outcome_bind_ret. exists s1. split; [|done].
    cbn in Hc. destruct (state l); try done; cbn [state_num Z.eqb Pos.eqb]; exact E.
  - unfold avdtp_suspend, stream_request. rewrite Est, outcome_bind_ret. exists s1. split; [|done].
    cbn in Hc. destruct (state l); try done; cbn [state_num Z.ltb Z.compare Pos.compare Pos.compare_cont]; exact E.
  - unfold avdtp_close, stream_request. rewrite Est, outcome_bind_ret.
    assert ((2 <=? state_num (state l)) = true) as -> by (cbn in Hc; by destruct (state l)). fold AVDTP_CLOSE in *. rewrite E, outcome_bind_ret. cbn [Z.eqb].
    assert (stream_at s1 !! st = Some x) as Hx1 by (by rewrite Es). rewrite (at_ptr_Some _ _ _ Hx1), outcome_bind_ret. eexists. split; [done|].
    destruct Hw as (W1 & W2 & W3 & W4 & W5 & W6 & W7 & W8 & _). split_and!; try done. eexists. cbn. by rewrite lookup_insert_eq.
Qed.

(** The state of an end point is set, on whichever side. *)
Lemma set_state_direct a l st y new s : sep_at s !! a = Some l → ls_stream l = Some st → stream_at s !! st = Some y → new ≠ AVDTP_STATE_IDLE →
  ∃ s', avdtp_sep_set_state calls a new s = Ret s' ∧ sep_at s' = <[a := with_state new l]> (sep_at s) ∧ (∃ y', stream_at s' !! st = Some y' ∧ s_lsep y' = s_lsep y) ∧
    prio_queue s' = prio_queue s ∧ req_queue s' = req_queue s.
Proof.
  intros Hl Hs Hy Hn. unfold avdtp_sep_set_state. rewrite (at_ptr_Some _ _ _ Hl), outcome_bind_ret. cbn zeta. rewrite Hs. set (s1 := set_upper _ _).
  assert (stream_at s1 !! st = Some y) as Hy1 by done.
  destruct new; try done; rewrite ?(at_ptr_Some _ _ _ Hy1), ?outcome_bind_ret; eexists; (split; [done|]); (split; [done|]); (split; [|done]); cbn;
    first [by exists y|rewrite lookup_insert_eq; by eexists].
Qed.

(** The state of the initiator's end point after the answer; nothing when the
    answer makes it drop the connection. *)
Definition ini_after (sig : Z) (st : avdtp_state) (refused : option (Z * Z)) : option avdtp_state :=
  match refused with
  | None => Some (acp_next sig st)
  | Some _ => if sig =? AVDTP_START then Some AVDTP_STATE_STREAMING else if sig =? AVDTP_SUSPEND then Some st else None
  end.

(** What the initiator makes of an answer. *)
Definition understood sig x l refused (o : outcome (bool * avdtp U)) s1 : Prop :=
  match ini_after sig (state l) refused with
  | Some n => ∃ s2 l2, o = Ret (true, s2) ∧ req s2 = None ∧ sep_at s2 !! s_lsep x = Some l2 ∧ state l2 = n
  | None => ∃ s2, o = drop_connection s2 ∧ sep_at s2 = sep_at s1
  end.

(** A response that moves the end point to [new]. *)
Lemma response_moves t st y l new x : sep_at t !! s_lsep x = Some l → ls_stream l = Some st → stream_at t !! st = Some y → s_lsep y = s_lsep x →
  prio_queue t = [] → req_queue t = [] → new ≠ AVDTP_STATE_IDLE →
  ∃ s2 l2 y', avdtp_sep_set_state calls (s_lsep y) new t = Ret s2 ∧
    sep_at s2 !! s_lsep x = Some l2 ∧ state l2 = new ∧ stream_at s2 !! st = Some y' ∧ prio_queue s2 = [] ∧ req_queue s2 = [].
Proof.
  intros Hl Hls Hy Ey Hp Hq Hn. destruct (set_state_direct (s_lsep y) l st y new t) as (s2 & -> & Ep & (y' & Hy' & _) & E1 & E2); [by rewrite Ey|done..|].
  exists s2, (with_state new l), y'. rewrite Ep, Ey, lookup_insert_eq, E1, E2. by split_and!.
Qed.

Lemma answer_understood sig st x l s s1 refused : quiet s st x l → waiting sig st x s s1 → sig ∈ procedures → acp_check sig (state l) true [] = None →
  let '(m, data) := acp_reply sig (rseid x) refused in
  understood sig x l refused (session_cb malloc calls (single (transaction s) m sig data) s1) s1.
Proof.
  intros [_ _ _ Ht [Ha Hb] [Hin _] [Hl Hls]] (_ & Er & Hp & Hq & Est & Ep & Ei & _ & y & Hy & Ey) Hsig Hc.
  rewrite <- Est in Hin. rewrite <- Ep in Hl. rewrite <- Ei in Ha, Hb.
  assert (0 ≤ sig < 64) as Hs64 by (unfold procedures in Hsig; rewrite !elem_of_cons, elem_of_nil in Hsig; destruct Hsig as [->|[->|[->|[]]]]; done).
  destruct (acp_reply sig (rseid x) refused) as [m data] eqn:Er'.
  assert ((m = AVDTP_MSG_TYPE_ACCEPT ∨ m = AVDTP_MSG_TYPE_REJECT) ∧ (length data ≤ 2)%nat) as [Hm Hlen].
  { unfold acp_reply in Er'. repeat case_match; injection Er' as <- <-; cbn; (split; [by auto|lia]). }
  destruct (answer_arrives _ m data s1 Er Ht Hs64 Hm ltac:(lia) Ha Hb) as (i & E). cbn [r_transaction r_signal_id r_stream] in E. rewrite E. clear E. cbn zeta.
  rewrite bool_decide_true by done. set (s0 := set_inb i s1).
  unfold procedures in Hsig. rewrite !elem_of_cons, elem_of_nil in Hsig. unfold understood.
  destruct Hsig as [->|[->|[->|[]]]]; destruct refused as [[err category]|]; cbn in Er'; injection Er' as <- <-;
    unfold avdtp_parse_resp, avdtp_parse_rej; cbn -[avdtp_sep_set_state process_queue drop_connection confirm s0];
    unfold avdtp_start_resp, avdtp_suspend_resp, avdtp_close_resp, on_stream, confirm_rej; cbn -[avdtp_sep_set_state process_queue drop_connection confirm s0].
  all: try (rewrite (at_ptr_Some (stream_at s0) st y Hy), outcome_bind_ret).
  1,2: destruct (response_moves (confirm calls AVDTP_START (s_lsep y) (Some st) None s0) st y l AVDTP_STATE_STREAMING x Hl Hls Hy Ey Hp Hq) as (s2 & l2 & y' & -> & Hl2 & E2 & _ & Ep2 & Eq2); [done|];
    rewrite !outcome_bind_ret, (process_queue_idle s2 Ep2 Eq2), outcome_bind_ret; by eexists _, l2.
  - change (stream_rej_to_err [4 * rseid x; err]) with (Some err). rewrite (at_ptr_Some (stream_at s0) st y Hy), !outcome_bind_ret.
    rewrite (process_queue_idle (confirm calls AVDTP_SUSPEND (s_lsep y) (Some st) (Some (AVDTP_ERROR_ERROR_CODE err)) s0) Hp Hq), outcome_bind_ret. by eexists _, l.
  - destruct (response_moves s0 st y l AVDTP_STATE_OPEN x Hl Hls Hy Ey Hp Hq) as (s2 & l2 & y' & -> & Hl2 & E2 & Hy2 & Ep2 & Eq2); [done|].
    rewrite outcome_bind_ret, (at_ptr_Some _ _ _ Hy2), !outcome_bind_ret.
    rewrite (process_queue_idle (confirm calls AVDTP_SUSPEND (s_lsep y') (Some st) None (set_stream st (with_idle_timer true y') s2)) Ep2 Eq2), outcome_bind_ret. by eexists _, l2.
  - by exists s0.
  - destruct (response_moves s0 st y l AVDTP_STATE_CLOSING x Hl Hls Hy Ey Hp Hq) as (s2 & l2 & y' & -> & Hl2 & E2 & Hy2 & Ep2 & Eq2); [done|].
    rewrite outcome_bind_ret, (at_ptr_Some _ _ _ Hy2), !outcome_bind_ret.
    match goal with |- context [set_req None ?t] => rewrite (process_queue_idle t Ep2 Eq2), outcome_bind_ret end. by eexists _, l2.
Qed.
End session.

Lemma single_bytes t m sig data : Forall byte_ok data → Forall byte_ok (single t m sig data).
Proof.
  intros Hd. unfold single, header, signal_octet, AVDTP_PKT_TYPE_SINGLE. constructor; [|constructor; [|done]]; unfold byte_ok; Z.to_euclidean_division_equations; lia.
Qed.

(** The acceptor's part: a command that comes in one packet, and its answer. *)
Lemma acceptor_part {U} malloc (calls : callbacks U) s a l t sig : (∀ X, malloc X ∉ X) → up s → 4 ≤ omtu s → active (inb s) = false →
  sep_at s !! a = Some l → 0 ≤ seid l < 64 → 0 ≤ t < 16 → sig ∈ procedures →
  let refused := acp_refused malloc calls sig a l [] s in
  let '(m, data) := acp_reply sig (seid l) refused in
  ∃ s' l', session_cb malloc calls (single t AVDTP_MSG_TYPE_COMMAND sig [4 * seid l]) s = Ret (true, s') ∧
    sent s' = sent s ++ [single t m sig data] ∧ sep_at s' !! a = Some l' ∧ state l' = acp_after sig l refused.
Proof.
  intros Hm (Hwf & Hs & Hf) Ho Ha Hl Hid Ht Hsig. cbn zeta. destruct (acp_reply sig (seid l) _) as [m data] eqn:Er.
  unfold procedures in Hsig. rewrite !elem_of_cons, elem_of_nil in Hsig.
  assert (0 ≤ sig < 64 ∧ sig ∈ stream_commands ∧ acp_command sig (seid l) 0 [] = [4 * seid l] ∧ (length data ≤ 2)%nat) as (Hs64 & Hcmd & Ecmd & Hlen).
  { unfold stream_commands. rewrite !elem_of_cons. split_and!; [destruct Hsig as [->|[->|[->|[]]]]; done..|tauto|destruct Hsig as [->|[->|[->|[]]]]; done|].
    unfold acp_reply in Er. repeat case_match; injection Er as <- <-; cbn; lia. }
  pose proof (wf_in _ Hwf) as (Hlb & _ & _).
  destruct (command_arrives malloc calls t sig [4 * seid l] s Ht Hs64) as (i & E & Ep); [cbn; lia|done|done|]. rewrite E.
  assert (up (set_inb i s)) as Hup.
  { destruct (parse_data_safe (single t AVDTP_MSG_TYPE_COMMAND sig [4 * seid l]) (inb s)) as (r & i' & Ei & Hi); [done| |apply Hwf|].
    - apply single_bytes. constructor; [|done]. unfold byte_ok. lia.
    - rewrite Ep in Ei. injection Ei as <- <-. split; [|done]. destruct Hwf; by split. }
  pose proof (command_known malloc Hm calls (set_inb i s) a l t sig 0 [] [] None Hup Hl Hcmd eq_refl) as (s' & Es' & Es & Eseps). rewrite Ecmd in Es'.
  change (acp_refused malloc calls sig a l [] (set_inb i s)) with (acp_refused malloc calls sig a l [] s) in *. rewrite Er in Es. cbn [fst snd] in Es.
  rewrite Es', outcome_bind_ret. rewrite packets_single in Es by (cbn; lia).
  assert ((state <$> sep_at s') !! a = Some (acp_after sig l (acp_refused malloc calls sig a l [] s))) as E' by (by rewrite Eseps, lookup_insert_eq).
  rewrite lookup_fmap in E'. apply fmap_Some in E' as (l' & Hl' & E'). by exists s', l'.
Qed.

(** C8: a START, SUSPEND or CLOSE through two devices. The initiator has a stream
    with nothing else under way, the acceptor has the end point it goes to, in
    the same state, and the state is one the procedure starts from. Then the
    request is sent in one packet, which the acceptor takes, asks the layers above
    about and answers in one packet, which the initiator takes: afterwards the
    request is done with and the two end points are in the same state if the
    procedure was accepted, or if it was a SUSPEND that was refused. A START that
    was refused leaves the initiator streaming alone, since the refusal is sent as
    an acceptance; and a refusal of CLOSE, which is one octet where two are
    looked for, makes the initiator drop the connection. *)
Theorem procedures_agree {U V} mi ma (ci : callbacks U) (ca : callbacks V) (si : avdtp U) (sa : avdtp V) st x l a la sig :
  quiet si st x l → (∀ X, ma X ∉ X) → wf sa → 0 ≤ sock sa → faults sa = [] → 4 ≤ omtu sa → active (inb sa) = false →
  sep_at sa !! a = Some la → seid la = rseid x → 0 ≤ rseid x < 64 → ls_stream la ≠ None → state la = state l →
  sig ∈ procedures → acp_check sig (state l) true [] = None →
  let refused := acp_asked ma ca sig a la [] sa in
  ∃ s1 p sa' q la',
    request sig st si = Ret (0, s1) ∧ sent s1 = sent si ++ [p] ∧
    session_cb ma ca p sa = Ret (true, sa') ∧ sent sa' = sent sa ++ [q] ∧ sep_at sa' !! a = Some la' ∧
    match ini_after sig (state l) refused with
    | Some n => ∃ s2 l2, session_cb mi ci q s1 = Ret (true, s2) ∧ req s2 = None ∧ sep_at s2 !! s_lsep x = Some l2 ∧ state l2 = n ∧
        (state l2 = state la' ↔ refused = None ∨ sig = AVDTP_SUSPEND)
    | None => ∃ s2, session_cb mi ci q s1 = drop_connection ci s2 ∧ state la' = state l
    end.
Proof.
  intros Hq Hm Hwf Hs Hf Ho Ha Hla Hid Hid64 Hst Hsame Hsig Hc. cbn zeta.
  destruct (request_quiet sig st x l si Hq Hsig Hc) as (s1 & Ereq & Hw). pose proof Hw as (Esent & _).
  assert (acp_refused ma ca sig a la [] sa = acp_asked ma ca sig a la [] sa) as Eref.
  { unfold acp_refused. rewrite (bool_decide_true (ls_stream la ≠ None)), Hsame, Hc by done. done. }
  pose proof (acceptor_part ma ca sa a la (transaction si) sig Hm) as Hacc. cbn zeta in Hacc. rewrite Eref, Hid in Hacc.
  pose proof (answer_understood mi ci sig st x l si s1 (acp_asked ma ca sig a la [] sa) Hq Hw Hsig Hc) as Hans.
  destruct (acp_reply sig (rseid x) (acp_asked ma ca sig a la [] sa)) as [m data].
  destruct Hacc as (sa' & la' & Ecb & Esa & Hla' & Estate); try done; [apply (q_transaction _ _ _ _ Hq)|].
  exists s1, (single (transaction si) AVDTP_MSG_TYPE_COMMAND sig [4 * rseid x]), sa', (single (transaction si) m sig data), la'.
  split_and!; try done. unfold understood in Hans. unfold acp_after in Estate. rewrite Hsame in Estate.
  unfold procedures in Hsig. rewrite !elem_of_cons, elem_of_nil in Hsig.
  destruct Hsig as [->|[->|[->|[]]]]; destruct (acp_asked _ _ _ a la [] sa) as [e|]; cbn [ini_after Z.eqb Pos.eqb AVDTP_START AVDTP_SUSPEND AVDTP_CLOSE] in *;
    first [destruct Hans as (s2 & l2 & E & Er & Hl2 & E2); exists s2, l2; split_and!; try done; rewrite E2, Estate
          |destruct Hans as (s2 & E & _); by exists s2].
  all: cbn in Hc |- *.
  - split; [|by intros [?|?]]. intros E'. destruct (state l); try done.
  - split; [by left|done].
  - split; [by right|done].
  - split; [by left|done].
  - split; [by left|done].
Qed.

(** The initiator of the stream that [streaming] accepts. *)
Definition initiating : avdtp unit := set_stream_at {[1 := Stream 6 1 1 [] None true None false false false]} streaming.

Lemma procedures_agree_witness : quiet initiating 1 (Stream 6 1 1 [] None true None false false false) (LocalSep AVDTP_STATE_STREAMING (Some 1) 1 false AVDTP_SEP_TYPE_SINK 0 0) ∧
  let la := LocalSep AVDTP_STATE_STREAMING (Some 1) 1 false AVDTP_SEP_TYPE_SINK 0 0 in
  let refused := acp_asked next_above agreeable AVDTP_SUSPEND 1 la [] streaming in
  ∃ s1 p sa' q la',
    request AVDTP_SUSPEND 1 initiating = Ret (0, s1) ∧ sent s1 = sent initiating ++ [p] ∧
    session_cb next_above agreeable p streaming = Ret (true, sa') ∧ sent sa' = sent streaming ++ [q] ∧ sep_at sa' !! 1 = Some la' ∧
    match ini_after AVDTP_SUSPEND AVDTP_STATE_STREAMING refused with
    | Some n => ∃ s2 l2, session_cb next_above agreeable q s1 = Ret (true, s2) ∧ req s2 = None ∧ sep_at s2 !! 1 = Some l2 ∧ state l2 = n ∧
        (state l2 = state la' ↔ refused = None ∨ AVDTP_SUSPEND = AVDTP_SUSPEND)
    | None => ∃ s2, session_cb next_above agreeable q s1 = drop_connection agreeable s2 ∧ state la' = AVDTP_STATE_STREAMING
    end.
Proof.
  assert (quiet initiating 1 (Stream 6 1 1 [] None true None false false false) (LocalSep AVDTP_STATE_STREAMING (Some 1) 1 false AVDTP_SEP_TYPE_SINK 0 0)) as Hq.
  { split; try done. split; [by left|done]. }
  split; [exact Hq|]. cbv zeta.
  exact (procedures_agree next_above next_above agreeable agreeable initiating streaming 1 _ _ 1 (LocalSep AVDTP_STATE_STREAMING (Some 1) 1 false AVDTP_SEP_TYPE_SINK 0 0) AVDTP_SUSPEND Hq
    next_above_fresh streaming_wf ltac:(done) ltac:(done) ltac:(done) ltac:(done) ltac:(done) ltac:(done) ltac:(done) ltac:(done) ltac:(done) ltac:(by right; left) ltac:(done)).
Defined.
