(* ===== verification/A2dp.v ===== *)
(** utils/audio: the parameters of an A2DP stream. A sink offers them (a2dp.c);
    the daemon selects among them itself (sink.c) or hands them to the client
    library and takes its choice back (unix.c, liba2dp.c); the sink checks what
    was selected (a2dp.c); and the library sets the encoder up (liba2dp.c).
    Theorems: the daemon's selection is among what was offered, whatever that
    is ([select_params_correct]); the library's choice passes through the daemon
    and AVDTP unchanged, is accepted, and sets up an encoder with valid
    parameters ([negotiation_sound]). *)

From stdpp Require Import base list numbers gmap.
From Stdlib Require Import ZArith Lia.
From S2P Require Import Prelude CString SdpTypes SdpList Heap Avdtp AvdtpFrame Sbc SbcBits SbcStream SbcFrame SbcApi.

Local Open Scope Z_scope.

(** * Constants *)

Definition A2DP_CODEC_SBC : Z := 0.
Definition A2DP_CODEC_MPEG12 : Z := 1.

Definition SBC_SAMPLING_FREQ_16000 : Z := 8.
Definition SBC_SAMPLING_FREQ_32000 : Z := 4.
Definition SBC_SAMPLING_FREQ_44100 : Z := 2.
Definition SBC_SAMPLING_FREQ_48000 : Z := 1.

Definition SBC_CHANNEL_MODE_MONO : Z := 8.
Definition SBC_CHANNEL_MODE_DUAL_CHANNEL : Z := 4.
Definition SBC_CHANNEL_MODE_STEREO : Z := 2.
Definition SBC_CHANNEL_MODE_JOINT_STEREO : Z := 1.

Definition SBC_BLOCK_LENGTH_4 : Z := 8.
Definition SBC_BLOCK_LENGTH_8 : Z := 4.
Definition SBC_BLOCK_LENGTH_12 : Z := 2.
Definition SBC_BLOCK_LENGTH_16 : Z := 1.

Definition SBC_SUBBANDS_4 : Z := 2.
Definition SBC_SUBBANDS_8 : Z := 1.

Definition SBC_ALLOCATION_SNR : Z := 2.
Definition SBC_ALLOCATION_LOUDNESS : Z := 1.

Definition MPEG_CHANNEL_MODE_MONO : Z := 8.
Definition MPEG_CHANNEL_MODE_DUAL_CHANNEL : Z := 4.
Definition MPEG_CHANNEL_MODE_STEREO : Z := 2.
Definition MPEG_CHANNEL_MODE_JOINT_STEREO : Z := 1.

Definition MPEG_LAYER_MP1 : Z := 4.
Definition MPEG_LAYER_MP2 : Z := 2.
Definition MPEG_LAYER_MP3 : Z := 1.

Definition MPEG_SAMPLING_FREQ_16000 : Z := 32.
Definition MPEG_SAMPLING_FREQ_22050 : Z := 16.
Definition MPEG_SAMPLING_FREQ_24000 : Z := 8.
Definition MPEG_SAMPLING_FREQ_32000 : Z := 4.
Definition MPEG_SAMPLING_FREQ_44100 : Z := 2.
Definition MPEG_SAMPLING_FREQ_48000 : Z := 1.

Definition MAX_BITPOOL : Z := 64.
Definition MIN_BITPOOL : Z := 2.

Definition AVDTP_MEDIA_TYPE_AUDIO : Z := 0.

(** * Capabilities of the codec *)

Record sbc_codec_cap := SbcCap {
  media_type : Z; media_codec_type : Z;
  c_frequency : Z; c_channel_mode : Z; c_block_length : Z; c_subbands : Z; c_allocation_method : Z; min_bitpool : Z; max_bitpool : Z
}.

(** The structure as octets, and octets taken for the structure: what is cast
    must have all of them. *)
Definition sbc_cap_bytes (c : sbc_codec_cap) : list Z :=
  [16 * media_type c; media_codec_type c; c_channel_mode c + 16 * c_frequency c;
   c_allocation_method c + 4 * c_subbands c + 16 * c_block_length c; min_bitpool c; max_bitpool c].

Definition sbc_cap_of (data : list Z) : outcome sbc_codec_cap :=
  match data with
  | b0 :: b1 :: b2 :: b3 :: b4 :: b5 :: _ =>
      Ret (SbcCap (Z.shiftr b0 4) b1 (Z.shiftr b2 4) (Z.land b2 15) (Z.shiftr b3 4) (Z.land (Z.shiftr b3 2) 3) (Z.land b3 3) b4 b5)
  | _ => Undef
  end.

Record mpeg_codec_cap := MpegCap {
  m_media_type : Z; m_media_codec_type : Z;
  m_channel_mode : Z; m_crc : Z; m_layer : Z; m_frequency : Z; m_mpf : Z; m_bitrate : Z
}.

Definition mpeg_cap_bytes (c : mpeg_codec_cap) : list Z :=
  [16 * m_media_type c; m_media_codec_type c; m_channel_mode c + 16 * m_crc c + 32 * m_layer c; m_frequency c + 64 * m_mpf c] ++ le_split 2 (m_bitrate c).

Definition mpeg_cap_of (data : list Z) : outcome mpeg_codec_cap :=
  match data with
  | b0 :: b1 :: b2 :: b3 :: b4 :: b5 :: _ =>
      Ret (MpegCap (Z.shiftr b0 4) b1 (Z.land b2 15) (Z.land (Z.shiftr b2 4) 1) (Z.shiftr b2 5) (Z.land b3 63) (Z.land (Z.shiftr b3 6) 1)
             (le_join [b4; b5]))
  | _ => Undef
  end.

(** The same between the daemon and its clients (ipc.h). *)
Record sbc_capabilities := SbcCapabilities {
  s_channel_mode : Z; s_frequency : Z; s_allocation_method : Z; s_subbands : Z; s_block_length : Z; s_min_bitpool : Z; s_max_bitpool : Z
}.

Record mpeg_capabilities := MpegCapabilities {
  g_channel_mode : Z; g_crc : Z; g_layer : Z; g_frequency : Z; g_mpf : Z; g_bitrate : Z
}.

Definition no_sbc : sbc_capabilities := SbcCapabilities 0 0 0 0 0 0 0.
Definition no_mpeg : mpeg_capabilities := MpegCapabilities 0 0 0 0 0 0.

Definition avdtp_service_cap_new (category : Z) (data : list Z) : option capability :=
  if (category <? AVDTP_MEDIA_TRANSPORT) || (AVDTP_MEDIA_CODEC <? category) then None else Some (Cap category data).

(** * The source selects (sink.c) *)

Definition default_bitpool (freq mode : Z) : Z :=
  if (freq =? SBC_SAMPLING_FREQ_16000) || (freq =? SBC_SAMPLING_FREQ_32000) then 53
  else if freq =? SBC_SAMPLING_FREQ_44100 then
    if (mode =? SBC_CHANNEL_MODE_MONO) || (mode =? SBC_CHANNEL_MODE_DUAL_CHANNEL) then 31
    else if (mode =? SBC_CHANNEL_MODE_STEREO) || (mode =? SBC_CHANNEL_MODE_JOINT_STEREO) then 53
    else 53
  else if freq =? SBC_SAMPLING_FREQ_48000 then
    if (mode =? SBC_CHANNEL_MODE_MONO) || (mode =? SBC_CHANNEL_MODE_DUAL_CHANNEL) then 29
    else if (mode =? SBC_CHANNEL_MODE_STEREO) || (mode =? SBC_CHANNEL_MODE_JOINT_STEREO) then 51
    else 51
  else 53.

(** The first of [order] that is offered. *)
Fixpoint pick (offered : Z) (order : list Z) : option Z :=
  match order with
  | [] => None
  | b :: order => if negb (Z.land offered b =? 0) then Some b else pick offered order
  end.

Definition frequency_order : list Z := [SBC_SAMPLING_FREQ_44100; SBC_SAMPLING_FREQ_48000; SBC_SAMPLING_FREQ_32000; SBC_SAMPLING_FREQ_16000].
Definition mode_order : list Z := [SBC_CHANNEL_MODE_JOINT_STEREO; SBC_CHANNEL_MODE_STEREO; SBC_CHANNEL_MODE_DUAL_CHANNEL; SBC_CHANNEL_MODE_MONO].
Definition block_order : list Z := [SBC_BLOCK_LENGTH_16; SBC_BLOCK_LENGTH_12; SBC_BLOCK_LENGTH_8; SBC_BLOCK_LENGTH_4].
Definition subband_order : list Z := [SBC_SUBBANDS_8; SBC_SUBBANDS_4].
Definition allocation_order : list Z := [SBC_ALLOCATION_LOUDNESS; SBC_ALLOCATION_SNR].

(** What was selected so far stays in the structure when nothing fits. *)
Definition select_sbc_params (supported : sbc_codec_cap) : bool * sbc_codec_cap :=
  let cap := SbcCap AVDTP_MEDIA_TYPE_AUDIO A2DP_CODEC_SBC in
  match pick (c_frequency supported) frequency_order with
  | None => (false, cap 0 0 0 0 0 0 0)
  | Some frequency =>
      match pick (c_channel_mode supported) mode_order with
      | None => (false, cap frequency 0 0 0 0 0 0)
      | Some mode =>
          match pick (c_block_length supported) block_order with
          | None => (false, cap frequency mode 0 0 0 0 0)
          | Some block_length =>
              match pick (c_subbands supported) subband_order with
              | None => (false, cap frequency mode block_length 0 0 0 0)
              | Some subbands =>
                  (true, cap frequency mode block_length subbands (default 0 (pick (c_allocation_method supported) allocation_order))
                           (Z.max MIN_BITPOOL (min_bitpool supported)) (Z.min (default_bitpool frequency mode) (max_bitpool supported)))
              end
          end
      end
  end.

(** The result of the selection is not looked at. *)
Definition select_capabilities (rsep : remote_sep) : outcome (option (list capability)) :=
  match rs_codec rsep with
  | None => Ret None
  | Some codec =>
      supported ← sbc_cap_of (cap_data codec);
      let '(_, cap) := select_sbc_params supported in
      match avdtp_service_cap_new AVDTP_MEDIA_TRANSPORT [], avdtp_service_cap_new AVDTP_MEDIA_CODEC (sbc_cap_bytes cap) with
      | Some transport, Some codec => Ret (Some [transport; codec])
      | _, _ => Undef
      end
  end.

(** * The sink offers and checks (a2dp.c) *)

(** The end point as the A2DP layer keeps it, as far as configuring goes. *)
Record a2dp_sep := A2dpSep { a_type : Z; a_codec : Z; a_stream : option Z }.

Definition sbc_getcap_ind (android : bool) : list capability :=
  let frequency := if android then SBC_SAMPLING_FREQ_44100
                   else Z.lor (Z.lor (Z.lor SBC_SAMPLING_FREQ_48000 SBC_SAMPLING_FREQ_44100) SBC_SAMPLING_FREQ_32000) SBC_SAMPLING_FREQ_16000 in
  let mode := Z.lor (Z.lor (Z.lor SBC_CHANNEL_MODE_JOINT_STEREO SBC_CHANNEL_MODE_STEREO) SBC_CHANNEL_MODE_DUAL_CHANNEL) SBC_CHANNEL_MODE_MONO in
  let blocks := Z.lor (Z.lor (Z.lor SBC_BLOCK_LENGTH_16 SBC_BLOCK_LENGTH_12) SBC_BLOCK_LENGTH_8) SBC_BLOCK_LENGTH_4 in
  [Cap AVDTP_MEDIA_TRANSPORT [];
   Cap AVDTP_MEDIA_CODEC
     (sbc_cap_bytes (SbcCap AVDTP_MEDIA_TYPE_AUDIO A2DP_CODEC_SBC frequency mode blocks (Z.lor SBC_SUBBANDS_8 SBC_SUBBANDS_4)
                       (Z.lor SBC_ALLOCATION_LOUDNESS SBC_ALLOCATION_SNR) MIN_BITPOOL MAX_BITPOOL))].

Definition mpeg_getcap_ind : list capability :=
  let frequency := Z.lor (Z.lor (Z.lor (Z.lor (Z.lor MPEG_SAMPLING_FREQ_48000 MPEG_SAMPLING_FREQ_44100) MPEG_SAMPLING_FREQ_32000)
                           MPEG_SAMPLING_FREQ_24000) MPEG_SAMPLING_FREQ_22050) MPEG_SAMPLING_FREQ_16000 in
  let mode := Z.lor (Z.lor (Z.lor MPEG_CHANNEL_MODE_JOINT_STEREO MPEG_CHANNEL_MODE_STEREO) MPEG_CHANNEL_MODE_DUAL_CHANNEL) MPEG_CHANNEL_MODE_MONO in
  let layer := Z.lor (Z.lor MPEG_LAYER_MP3 MPEG_LAYER_MP2) MPEG_LAYER_MP1 in
  [Cap AVDTP_MEDIA_TRANSPORT [];
   Cap AVDTP_MEDIA_CODEC (mpeg_cap_bytes (MpegCap AVDTP_MEDIA_TYPE_AUDIO A2DP_CODEC_MPEG12 mode 0 layer frequency 0 65535))].

(** The bit pool of the first codec capability; [true] if it is fine. *)
Fixpoint bitpool_check (caps : list capability) : outcome bool :=
  match caps with
  | [] => Ret true
  | c :: caps =>
      if category c =? AVDTP_MEDIA_CODEC then
        codec_type ← rd8 (drop 1 (cap_data c));
        if codec_type =? A2DP_CODEC_SBC then
          s ← sbc_cap_of (cap_data c);
          Ret (negb ((min_bitpool s <? MIN_BITPOOL) || (MAX_BITPOOL <? max_bitpool s)))
        else Ret true
      else bitpool_check caps
  end.

(** The error and category of a refusal, the end point, and whether the sink
    layer is told of a new stream. Whether there is a device for the session is
    an argument. *)
Definition sbc_setconf_ind (dev : bool) (stream : Z) (caps : list capability) (sep : a2dp_sep) : outcome (option (Z * Z) * a2dp_sep * bool) :=
  if negb dev then Ret (Some (AVDTP_UNSUPPORTED_CONFIGURATION, 0), sep, false)
  else
    ok ← bitpool_check caps;
    if negb ok then Ret (Some (AVDTP_UNSUPPORTED_CONFIGURATION, AVDTP_MEDIA_CODEC), sep, false)
    else Ret (None, A2dpSep (a_type sep) (a_codec sep) (Some stream), a_type sep =? AVDTP_SEP_TYPE_SOURCE).

Definition mpeg_setconf_ind (dev : bool) (stream : Z) (sep : a2dp_sep) : option (Z * Z) * a2dp_sep * bool :=
  if negb dev then (Some (AVDTP_UNSUPPORTED_CONFIGURATION, 0), sep, false)
  else (None, A2dpSep (a_type sep) (a_codec sep) (Some stream), a_type sep =? AVDTP_SEP_TYPE_SOURCE).

(** * The daemon and its client (unix.c) *)

(** The codecs of the remote end points: the first of SBC and of MPEG-1,2. An
    end point without a codec is not looked for. *)
Fixpoint find_codecs (seps : list remote_sep) (sbc mpeg : option capability) : outcome (option capability * option capability) :=
  match seps with
  | [] => Ret (sbc, mpeg)
  | rsep :: seps =>
      match rs_codec rsep with
      | None => Undef
      | Some cap =>
          if negb (category cap =? AVDTP_MEDIA_CODEC) then find_codecs seps sbc mpeg
          else
            codec_type ← rd8 (drop 1 (cap_data cap));
            let first o t := match o with None => if codec_type =? t then Some cap else None | Some _ => o end in
            find_codecs seps (first sbc A2DP_CODEC_SBC) (first mpeg A2DP_CODEC_MPEG12)
      end
  end.

(** What the client is sent when discovery did not fail. *)
Definition a2dp_discovery_complete (seps : list remote_sep) : outcome (sbc_capabilities * mpeg_capabilities) :=
  codecs ← find_codecs seps None None;
  let '(sbc_cap, mpeg_cap) := codecs in
  sbc ← match sbc_cap with
        | None => Ret no_sbc
        | Some cap =>
            c ← sbc_cap_of (cap_data cap);
            Ret (SbcCapabilities (c_channel_mode c) (c_frequency c) (c_allocation_method c) (c_subbands c) (c_block_length c) (min_bitpool c) (max_bitpool c))
        end;
  mpeg ← match mpeg_cap with
         | None => Ret no_mpeg
         | Some cap =>
             c ← mpeg_cap_of (cap_data cap);
             Ret (MpegCapabilities (m_channel_mode c) (m_crc c) (m_layer c) (m_frequency c) (m_mpf c) (m_bitrate c))
         end;
  Ret (sbc, mpeg).

(** What the client asks for, narrowed to the fields of the codecs. *)
Definition handle_a2dp_transport (sbc : sbc_capabilities) (mpeg : mpeg_capabilities) : outcome (Z * list capability) :=
  match avdtp_service_cap_new AVDTP_MEDIA_TRANSPORT [] with
  | None => Undef
  | Some media_transport =>
      let codec data := match avdtp_service_cap_new AVDTP_MEDIA_CODEC data with None => Undef | Some media_codec => Ret (0, [media_transport; media_codec]) end in
      if negb (g_frequency mpeg =? 0) then
        codec (mpeg_cap_bytes (MpegCap AVDTP_MEDIA_TYPE_AUDIO A2DP_CODEC_MPEG12 (g_channel_mode mpeg mod 16) (g_crc mpeg mod 2) (g_layer mpeg mod 8)
                                 (g_frequency mpeg mod 64) (g_mpf mpeg mod 2) (g_bitrate mpeg)))
      else if negb (s_frequency sbc =? 0) then
        codec (sbc_cap_bytes (SbcCap AVDTP_MEDIA_TYPE_AUDIO A2DP_CODEC_SBC (s_frequency sbc mod 16) (s_channel_mode sbc mod 16) (s_block_length sbc mod 16)
                                (s_subbands sbc mod 4) (s_allocation_method sbc mod 4) (s_min_bitpool sbc) (s_max_bitpool sbc)))
      else Ret (- EINVAL, [media_transport])
  end.

(** * The client selects, and sets the encoder up (liba2dp.c) *)

Definition rate_bit (rate : Z) : option Z :=
  if rate =? 48000 then Some SBC_SAMPLING_FREQ_48000
  else if rate =? 44100 then Some SBC_SAMPLING_FREQ_44100
  else if rate =? 32000 then Some SBC_SAMPLING_FREQ_32000
  else if rate =? 16000 then Some SBC_SAMPLING_FREQ_16000
  else None.

(** The mode for two channels, or for another number; what was there stays if
    none fits. *)
Definition select_mode (channels mode : Z) : Z :=
  default mode (pick mode (if channels =? 2 then [SBC_CHANNEL_MODE_JOINT_STEREO; SBC_CHANNEL_MODE_STEREO; SBC_CHANNEL_MODE_DUAL_CHANNEL] else [SBC_CHANNEL_MODE_MONO])).

Definition bluetooth_a2dp_init (rate channels : Z) (cap : sbc_capabilities) : Z * sbc_capabilities :=
  let '(SbcCapabilities mode frequency allocation subbands block_length min_bitpool max_bitpool) := cap in
  match rate_bit rate with
  | None => (-1, cap)
  | Some frequency =>
      let mode := select_mode channels mode in
      if mode =? 0 then (-1, SbcCapabilities mode frequency allocation subbands block_length min_bitpool max_bitpool)
      else
        match pick block_length block_order with
        | None => (-1, SbcCapabilities mode frequency allocation subbands block_length min_bitpool max_bitpool)
        | Some block_length =>
            match pick subbands subband_order with
            | None => (-1, SbcCapabilities mode frequency allocation subbands block_length min_bitpool max_bitpool)
            | Some subbands =>
                (0, SbcCapabilities mode frequency (default allocation (pick allocation allocation_order)) subbands block_length
                      (Z.max MIN_BITPOOL min_bitpool) (Z.min (default_bitpool frequency mode) max_bitpool))
            end
        end
  end.

(** The last of several bits counts; a field without any of them stays. *)
Definition setup_frequency (frequency old : Z) : Z :=
  if negb (Z.land frequency SBC_SAMPLING_FREQ_48000 =? 0) then SBC_FREQ_48000
  else if negb (Z.land frequency SBC_SAMPLING_FREQ_44100 =? 0) then SBC_FREQ_44100
  else if negb (Z.land frequency SBC_SAMPLING_FREQ_32000 =? 0) then SBC_FREQ_32000
  else if negb (Z.land frequency SBC_SAMPLING_FREQ_16000 =? 0) then SBC_FREQ_16000
  else old.

Definition setup_mode (mode old : Z) : Z :=
  if negb (Z.land mode SBC_CHANNEL_MODE_JOINT_STEREO =? 0) then SBC_MODE_JOINT_STEREO
  else if negb (Z.land mode SBC_CHANNEL_MODE_STEREO =? 0) then SBC_MODE_STEREO
  else if negb (Z.land mode SBC_CHANNEL_MODE_DUAL_CHANNEL =? 0) then SBC_MODE_DUAL_CHANNEL
  else if negb (Z.land mode SBC_CHANNEL_MODE_MONO =? 0) then SBC_MODE_MONO
  else old.

Definition setup_allocation (allocation : Z) : Z := if allocation =? SBC_ALLOCATION_SNR then SBC_AM_SNR else SBC_AM_LOUDNESS.

Definition setup_subbands (subbands old : Z) : Z :=
  if subbands =? SBC_SUBBANDS_4 then SBC_SB_4 else if subbands =? SBC_SUBBANDS_8 then SBC_SB_8 else old.

Definition setup_blocks (block_length old : Z) : Z :=
  if block_length =? SBC_BLOCK_LENGTH_4 then SBC_BLK_4
  else if block_length =? SBC_BLOCK_LENGTH_8 then SBC_BLK_8
  else if block_length =? SBC_BLOCK_LENGTH_12 then SBC_BLK_12
  else if block_length =? SBC_BLOCK_LENGTH_16 then SBC_BLK_16
  else old.

(** The encoder, its input size and the duration of a frame. *)
Definition bluetooth_a2dp_setup (cap : sbc_capabilities) (sbc : sbc_t) : outcome (sbc_t * Z * Z) :=
  match (sbc_reinit (Some sbc)).2 with
  | None => Undef
  | Some sbc =>
      let sbc := Sbc (sbc_flags sbc) (setup_frequency (s_frequency cap) (sbc_frequency sbc)) (setup_blocks (s_block_length cap) (sbc_blocks sbc))
                   (setup_subbands (s_subbands cap) (sbc_subbands sbc)) (setup_mode (s_channel_mode cap) (sbc_mode sbc))
                   (setup_allocation (s_allocation_method cap)) (s_max_bitpool cap) (sbc_endian sbc) (priv sbc) in
      codesize ← sbc_get_codesize sbc;
      duration ← sbc_get_frame_duration sbc;
      Ret (sbc, codesize, duration)
  end.

(** * Choices *)

(** Nothing is chosen that is not offered. *)
Definition within (c supported : sbc_codec_cap) : Prop :=
  Z.land (c_frequency c) (c_frequency supported) = c_frequency c ∧ Z.land (c_channel_mode c) (c_channel_mode supported) = c_channel_mode c ∧
  Z.land (c_block_length c) (c_block_length supported) = c_block_length c ∧ Z.land (c_subbands c) (c_subbands supported) = c_subbands c ∧
  Z.land (c_allocation_method c) (c_allocation_method supported) = c_allocation_method c ∧
  min_bitpool supported ≤ min_bitpool c ∧ max_bitpool c ≤ max_bitpool supported.

(** The first of an order that is offered. *)
Definition preferred (order : list Z) (offered b : Z) : Prop :=
  ∃ l1 l2, order = l1 ++ b :: l2 ∧ Forall (λ x, Z.land offered x = 0) l1 ∧ Z.land offered b ≠ 0.

(** The fields as wide as they are. *)
Definition fields_ok (c : sbc_codec_cap) : Prop :=
  0 ≤ c_frequency c < 16 ∧ 0 ≤ c_channel_mode c < 16 ∧ 0 ≤ c_block_length c < 16 ∧ 0 ≤ c_subbands c < 4 ∧ 0 ≤ c_allocation_method c < 4 ∧
  byte_ok (min_bitpool c) ∧ byte_ok (max_bitpool c).

(** A field of [n] values, and an order that leaves out none of its bits. *)
Definition covers (n : Z) (order : list Z) : bool :=
  forallb (λ off, match pick off order with None => off =? 0 | Some b => Z.land b off =? b end) (seqZ 0 n).

Lemma pick_in off order b : pick off order = Some b → b ∈ order ∧ Z.land off b ≠ 0.
Proof.
  induction order as [|x order IH]; cbn [pick]; [done|]. destruct (Z.eqb_spec (Z.land off x) 0); cbn [negb]; intros H.
  - destruct (IH H). split; [by right|done].
  - injection H as ->. split; [by left|done].
Qed.

Lemma pick_preferred off order b : pick off order = Some b → preferred order off b.
Proof.
  induction order as [|x order IH]; cbn [pick]; [done|]. destruct (Z.eqb_spec (Z.land off x) 0); cbn [negb]; intros H.
  - destruct (IH H) as (l1 & l2 & -> & Hl & Hb). exists (x :: l1), l2. split; [done|]. split; [by constructor|done].
  - injection H as ->. by exists [], order.
Qed.

Lemma pick_covers n order off : covers n order = true → 0 ≤ off < n →
  match pick off order with None => off = 0 | Some b => b ∈ order ∧ Z.land b off = b end.
Proof.
  intros Hc Ho. unfold covers in Hc. rewrite forallb_forall in Hc.
  assert (In off (seqZ 0 n)) as Hin by (apply list_elem_of_In, elem_of_seqZ; lia).
  pose proof (pick_in off order) as Hp. specialize (Hc off Hin). destruct (pick off order) as [b|]; [|by apply Z.eqb_eq].
  split; [by apply (Hp b)|by apply Z.eqb_eq].
Qed.

Lemma default_bitpool_range freq mode : 29 ≤ default_bitpool freq mode ≤ 53.
Proof. unfold default_bitpool. repeat case_match; lia. Qed.

(** The fields survive as octets. *)
Lemma sbc_cap_roundtrip c rest : fields_ok c → 0 ≤ media_type c < 16 → sbc_cap_of (sbc_cap_bytes c ++ rest) = Ret c.
Proof.
  intros (H1 & H2 & H3 & H4 & H5 & _) H0. unfold sbc_cap_bytes, sbc_cap_of. cbn [app].
  change 15 with (Z.ones 4). change 3 with (Z.ones 2). rewrite !Z.land_ones, !Z.shiftr_div_pow2 by lia.
  change (2 ^ 4) with 16. change (2 ^ 2) with 4. destruct c as [mt ct fq md bl sb al lo hi]. cbn in *.
  repeat (f_equal; [|Z.to_euclidean_division_equations; lia]).
  f_equal. f_equal; Z.to_euclidean_division_equations; lia.
Qed.

(** The sink's check looks at the bit pools. *)
Lemma bitpool_check_codec c : fields_ok c → media_type c = AVDTP_MEDIA_TYPE_AUDIO → media_codec_type c = A2DP_CODEC_SBC →
  bitpool_check [Cap AVDTP_MEDIA_TRANSPORT []; Cap AVDTP_MEDIA_CODEC (sbc_cap_bytes c)] = Ret (bool_decide (MIN_BITPOOL ≤ min_bitpool c ∧ max_bitpool c ≤ MAX_BITPOOL)).
Proof.
  intros Hc Hm Ht. pose proof (sbc_cap_roundtrip c [] Hc ltac:(rewrite Hm; done)) as E. rewrite app_nil_r in E.
  unfold bitpool_check. cbn [category cap_data]. change (AVDTP_MEDIA_TRANSPORT =? AVDTP_MEDIA_CODEC) with false. rewrite Z.eqb_refl. cbv iota.
  rewrite E. change (rd8 (drop 1 (sbc_cap_bytes c))) with (Ret (media_codec_type c)). rewrite !outcome_bind_ret, Ht, Z.eqb_refl. f_equal.
  destruct (decide (MIN_BITPOOL ≤ min_bitpool c ∧ max_bitpool c ≤ MAX_BITPOOL)) as [H|H];
    [rewrite bool_decide_true by done|rewrite bool_decide_false by done];
    destruct (Z.ltb_spec (min_bitpool c) MIN_BITPOOL), (Z.ltb_spec MAX_BITPOOL (max_bitpool c)); cbn; (done || lia).
Qed.

Lemma in_order b order n : b ∈ order → forallb (λ x, (0 <=? x) && (x <? n)) order = true → 0 ≤ b < n.
Proof. intros Hb H. rewrite forallb_forall in H. apply list_elem_of_In, H in Hb. lia. Qed.

(** C29: what the daemon selects for a sink. Whatever the sink offers, the
    selection succeeds exactly when it offers a frequency, a mode, a block
    length and a number of subbands; then it asks for one of each, the first in
    the daemon's order that is offered, and for nothing that is not offered; the
    bit pool is what the profile recommends for the frequency and mode or what
    the sink allows if that is less, so the sink's own check accepts it. *)
Theorem select_params_correct (supported : sbc_codec_cap) (Hf : fields_ok supported) :
  let '(ok, c) := select_sbc_params supported in
  (ok = true ↔ c_frequency supported ≠ 0 ∧ c_channel_mode supported ≠ 0 ∧ c_block_length supported ≠ 0 ∧ c_subbands supported ≠ 0) ∧
  (ok = true → within c supported ∧ fields_ok c ∧
     preferred frequency_order (c_frequency supported) (c_frequency c) ∧ preferred mode_order (c_channel_mode supported) (c_channel_mode c) ∧
     preferred block_order (c_block_length supported) (c_block_length c) ∧ preferred subband_order (c_subbands supported) (c_subbands c) ∧
     max_bitpool c = Z.min (default_bitpool (c_frequency c) (c_channel_mode c)) (max_bitpool supported) ∧
     bitpool_check [Cap AVDTP_MEDIA_TRANSPORT []; Cap AVDTP_MEDIA_CODEC (sbc_cap_bytes c)] = Ret true).
Proof.
  pose proof Hf as (H1 & H2 & H3 & H4 & H5 & H6 & H7). unfold select_sbc_params.
  pose proof (pick_covers 16 frequency_order _ eq_refl H1) as P1. pose proof (pick_covers 16 mode_order _ eq_refl H2) as P2.
  pose proof (pick_covers 16 block_order _ eq_refl H3) as P3. pose proof (pick_covers 4 subband_order _ eq_refl H4) as P4.
  pose proof (pick_covers 4 allocation_order _ eq_refl H5) as P5.
  destruct (pick (c_frequency supported) frequency_order) as [fq|] eqn:E1; [|split; [split; [done|tauto]|done]].
  destruct (pick (c_channel_mode supported) mode_order) as [md|] eqn:E2; [|split; [split; [done|tauto]|done]].
  destruct (pick (c_block_length supported) block_order) as [bl|] eqn:E3; [|split; [split; [done|tauto]|done]].
  destruct (pick (c_subbands supported) subband_order) as [sb|] eqn:E4; [|split; [split; [done|tauto]|done]].
  pose proof (default_bitpool_range fq md) as Hd. unfold byte_ok in *.
  assert (within (SbcCap AVDTP_MEDIA_TYPE_AUDIO A2DP_CODEC_SBC fq md bl sb (default 0 (pick (c_allocation_method supported) allocation_order))
    (Z.max MIN_BITPOOL (min_bitpool supported)) (Z.min (default_bitpool fq md) (max_bitpool supported))) supported) as Hw.
  { split_and!; cbn [c_frequency c_channel_mode c_block_length c_subbands c_allocation_method min_bitpool max_bitpool]; try tauto; try lia.
    destruct (pick _ allocation_order); cbn; [tauto|done]. }
  assert (fields_ok (SbcCap AVDTP_MEDIA_TYPE_AUDIO A2DP_CODEC_SBC fq md bl sb (default 0 (pick (c_allocation_method supported) allocation_order))
    (Z.max MIN_BITPOOL (min_bitpool supported)) (Z.min (default_bitpool fq md) (max_bitpool supported)))) as Hc.
  { pose proof (in_order _ frequency_order 16 (proj1 P1) eq_refl). pose proof (in_order _ mode_order 16 (proj1 P2) eq_refl).
    pose proof (in_order _ block_order 16 (proj1 P3) eq_refl). pose proof (in_order _ subband_order 4 (proj1 P4) eq_refl).
    assert (0 ≤ default 0 (pick (c_allocation_method supported) allocation_order) < 4).
    { destruct (pick _ allocation_order) as [al|]; [apply (in_order al allocation_order 4 (proj1 P5) eq_refl)|done]. }
    unfold fields_ok, byte_ok, MIN_BITPOOL. cbn [c_frequency c_channel_mode c_block_length c_subbands c_allocation_method min_bitpool max_bitpool]. lia. }
  split; [split; [intros _|done]|intros _].
  - pose proof (proj2 (pick_in _ _ _ E1)) as N1. pose proof (proj2 (pick_in _ _ _ E2)) as N2.
    pose proof (proj2 (pick_in _ _ _ E3)) as N3. pose proof (proj2 (pick_in _ _ _ E4)) as N4.
    refine (conj _ (conj _ (conj _ _))); intros E; [apply N1|apply N2|apply N3|apply N4]; by rewrite E.
  - apply pick_preferred in E1, E2, E3, E4. split; [exact Hw|]. split; [exact Hc|]. do 4 (split; [done|]). split; [done|].
    rewrite bitpool_check_codec by done. cbn [min_bitpool max_bitpool]. rewrite bool_decide_true; [done|]. unfold MIN_BITPOOL, MAX_BITPOOL. lia.
Qed.

(** A sink with every frequency but 44100, for a set of speakers. *)
Definition example_sink : sbc_codec_cap := SbcCap AVDTP_MEDIA_TYPE_AUDIO A2DP_CODEC_SBC 13 14 7 3 2 10 40.

Lemma select_params_correct_witness : fields_ok example_sink ∧ select_sbc_params example_sink = (true, SbcCap 0 0 1 2 1 1 2 10 40) ∧
  within (SbcCap 0 0 1 2 1 1 2 10 40) example_sink.
Proof.
  assert (fields_ok example_sink) as H by (repeat split; unfold byte_ok; cbn; lia). split; [exact H|]. split; [by vm_compute|].
  exact (proj1 (proj2 (select_params_correct example_sink H) eq_refl)).
Defined.

(** * Negotiation *)

(** What the client is told of an offer. *)
Definition client_caps (c : sbc_codec_cap) : sbc_capabilities :=
  SbcCapabilities (c_channel_mode c) (c_frequency c) (c_allocation_method c) (c_subbands c) (c_block_length c) (min_bitpool c) (max_bitpool c).

(** An end point with a codec capability that is whole. *)
Definition codec_sep (r : remote_sep) : Prop := ∃ cap, rs_codec r = Some cap ∧ category cap = AVDTP_MEDIA_CODEC ∧ (6 ≤ length (cap_data cap))%nat.
Definition codec_type (r : remote_sep) : option Z := rs_codec r ≫= λ cap, cap_data cap !! 1%nat.

(** A sink that can play [channels] channels at [rate]. *)
Definition offers (c : sbc_codec_cap) (rate channels : Z) : Prop :=
  (∃ b, rate_bit rate = Some b ∧ Z.land (c_frequency c) b ≠ 0) ∧
  (channels = 2 ∧ Z.land (c_channel_mode c) 7 ≠ 0 ∨ channels = 1 ∧ Z.land (c_channel_mode c) 8 ≠ 0) ∧
  c_block_length c ≠ 0 ∧ c_subbands c ≠ 0 ∧ c_allocation_method c ≠ 0.

(** The encoder does what the sink was told. *)
Definition configured (c : sbc_codec_cap) (sbc : sbc_t) : Prop :=
  c_frequency c = 2 ^ (3 - sbc_frequency sbc) ∧ c_channel_mode c = 2 ^ (3 - sbc_mode sbc) ∧ c_block_length c = 2 ^ (3 - sbc_blocks sbc) ∧
  c_subbands c = 2 ^ (1 - sbc_subbands sbc) ∧ c_allocation_method c = 2 ^ sbc_allocation sbc ∧ max_bitpool c = sbc_bitpool sbc.

Lemma six_octets (l : list Z) : (6 ≤ length l)%nat → ∃ b0 b1 b2 b3 b4 b5 rest, l = b0 :: b1 :: b2 :: b3 :: b4 :: b5 :: rest.
Proof. intros H. do 6 (destruct l as [|? l]; [cbn in H; lia|]). by repeat eexists. Qed.

(** The first of each codec is found. *)
Lemma find_codecs_found seps sbc mpeg : Forall codec_sep seps →
  (∀ cap, mpeg = Some cap → (6 ≤ length (cap_data cap))%nat) →
  ∃ mpeg', find_codecs seps sbc mpeg = Ret (match sbc with Some c => Some c | None => r ← list_find (λ r, codec_type r = Some A2DP_CODEC_SBC) seps; rs_codec r.2 end, mpeg') ∧
    ∀ cap, mpeg' = Some cap → (6 ≤ length (cap_data cap))%nat.
Proof.
  intros H. revert sbc mpeg. induction H as [|r seps (cap & Er & Ec & Hl) H IH]; intros sbc mpeg Hm; cbn [find_codecs].
  - exists mpeg. by destruct sbc.
  - rewrite Er, Ec, Z.eqb_refl. cbn [negb]. destruct (six_octets _ Hl) as (b0 & b1 & b2 & b3 & b4 & b5 & rest & El).
    rewrite El. cbn [drop rd8]. rewrite outcome_bind_ret. cbv zeta.
    edestruct IH as (mpeg' & -> & Hm'); [|exists mpeg'; split; [|exact Hm']].
    + intros cap'. destruct mpeg as [m|]; [intros [= ->]; by apply Hm|]. destruct (_ =? _); [|done]. intros [= <-]. done.
    + destruct sbc as [s|]; [done|]. f_equal. f_equal. cbn [list_find].
      assert (codec_type r = Some b1) as Et by (unfold codec_type; rewrite Er; cbn; by rewrite El).
      destruct (Z.eqb_spec b1 A2DP_CODEC_SBC) as [->|Hne]; [by rewrite decide_True by done|].
      rewrite decide_False by congruence. destruct (list_find _ seps) as [[i r']|]; done.
Qed.

Lemma single_bit n order b off : forallb (λ off, forallb (λ b, (Z.land off b =? 0) || (Z.land b off =? b)) order) (seqZ 0 n) = true →
  0 ≤ off < n → b ∈ order → Z.land off b ≠ 0 → Z.land b off = b.
Proof.
  intros Hc Ho Hb Hn. rewrite forallb_forall in Hc. specialize (Hc off ltac:(apply list_elem_of_In, elem_of_seqZ; lia)).
  rewrite forallb_forall in Hc. specialize (Hc b ltac:(by apply list_elem_of_In)). lia.
Qed.

(** The library's choice of a mode. *)
Lemma select_mode_ok channels mode : 0 ≤ mode < 16 → channels = 2 ∧ Z.land mode 7 ≠ 0 ∨ channels = 1 ∧ Z.land mode 8 ≠ 0 →
  let m := select_mode channels mode in
  m ∈ mode_order ∧ Z.land m mode = m ∧ (if m =? SBC_CHANNEL_MODE_MONO then 1 else 2) = channels.
Proof.
  intros Hm Hc. assert (In mode (seqZ 0 16)) as Hin by (apply list_elem_of_In, elem_of_seqZ; lia). cbn [seqZ seq fmap list_fmap In Z.add Z.to_nat] in Hin.
  destruct Hc as [[-> Hc]|[-> Hc]]; vm_compute in Hin;
    repeat (destruct Hin as [<-|Hin]; [vm_compute in Hc |- *; try done; split_and!; try done; set_solver|]); destruct Hin.
Qed.

(** A rate and how the encoder names it. *)
Definition rate_code (rate f : Z) : Prop :=
  rate = 16000 ∧ f = SBC_FREQ_16000 ∨ rate = 32000 ∧ f = SBC_FREQ_32000 ∨ rate = 44100 ∧ f = SBC_FREQ_44100 ∨ rate = 48000 ∧ f = SBC_FREQ_48000.

Lemma rate_bit_code rate b : rate_bit rate = Some b → ∃ f, rate_code rate f ∧ b = 2 ^ (3 - f).
Proof.
  unfold rate_bit, rate_code. destruct (Z.eqb_spec rate 48000); [intros [= <-]; exists SBC_FREQ_48000; tauto|].
  destruct (Z.eqb_spec rate 44100); [intros [= <-]; exists SBC_FREQ_44100; tauto|].
  destruct (Z.eqb_spec rate 32000); [intros [= <-]; exists SBC_FREQ_32000; tauto|].
  destruct (Z.eqb_spec rate 16000); [intros [= <-]; exists SBC_FREQ_16000; tauto|done].
Qed.

Lemma rate_code_in rate f : rate_code rate f → 2 ^ (3 - f) ∈ frequency_order.
Proof. intros [[_ ->]|[[_ ->]|[[_ ->]|[_ ->]]]]; apply list_elem_of_In; cbn; tauto. Qed.

Lemma init_ok offer rate channels : fields_ok offer → offers offer rate channels → ∃ f md bl sb al,
  let fq := 2 ^ (3 - f) in
  bluetooth_a2dp_init rate channels (client_caps offer) =
    (0, SbcCapabilities md fq al sb bl (Z.max MIN_BITPOOL (min_bitpool offer)) (Z.min (default_bitpool fq md) (max_bitpool offer))) ∧
  within (SbcCap AVDTP_MEDIA_TYPE_AUDIO A2DP_CODEC_SBC fq md bl sb al (Z.max MIN_BITPOOL (min_bitpool offer)) (Z.min (default_bitpool fq md) (max_bitpool offer))) offer ∧
  rate_code rate f ∧ (if md =? SBC_CHANNEL_MODE_MONO then 1 else 2) = channels ∧
  md ∈ mode_order ∧ bl ∈ block_order ∧ sb ∈ subband_order ∧ al ∈ allocation_order.
Proof.
  intros (H1 & H2 & H3 & H4 & H5 & H6 & H7) ((b & Hr & Hb) & Hc & Nb & Ns & Na). unfold byte_ok in *.
  destruct (rate_bit_code _ _ Hr) as (f & Hf & ->). destruct (select_mode_ok channels _ H2 Hc) as (M1 & M2 & M3).
  pose proof (pick_covers 16 block_order _ eq_refl H3) as P3. pose proof (pick_covers 4 subband_order _ eq_refl H4) as P4.
  pose proof (pick_covers 4 allocation_order _ eq_refl H5) as P5.
  destruct (pick (c_block_length offer) block_order) as [bl|] eqn:E3; [|done]. destruct (pick (c_subbands offer) subband_order) as [sb|] eqn:E4; [|done].
  destruct (pick (c_allocation_method offer) allocation_order) as [al|] eqn:E5; [|done].
  exists f, (select_mode channels (c_channel_mode offer)), bl, sb, al. cbv zeta.
  pose proof (in_order _ mode_order 16 M1 eq_refl) as M4.
  assert ((select_mode channels (c_channel_mode offer) =? 0) = false) as E0.
  { apply Z.eqb_neq. intros E. rewrite E in M1. apply list_elem_of_In in M1. cbn in M1. by repeat (destruct M1 as [M1|M1]; [done|]). }
  split.
  - unfold bluetooth_a2dp_init, client_caps. rewrite Hr. cbv zeta. rewrite E0, E3, E4. unfold select_mode at 1. rewrite E5. done.
  - split; [|tauto]. pose proof (default_bitpool_range (2 ^ (3 - f)) (select_mode channels (c_channel_mode offer))).
    unfold within. cbn [c_frequency c_channel_mode c_block_length c_subbands c_allocation_method min_bitpool max_bitpool].
    split_and!; try tauto; try lia. apply (single_bit 16 frequency_order); [done|done|by apply (rate_code_in rate)|done].
Qed.

(** An encoder for what was chosen. *)
Lemma encoder_setup_ok fq md bl sb al lo hi f rate sbc p :
  rate_code rate f → fq = 2 ^ (3 - f) → md ∈ mode_order → bl ∈ block_order → sb ∈ subband_order → al ∈ allocation_order → 0 ≤ hi ≤ 64 → priv sbc = Some p →
  ∃ sbc', let fr := fresh_frame sbc' in
    bluetooth_a2dp_setup (SbcCapabilities md fq al sb bl lo hi) sbc = Ret (sbc', input_size fr, 1000000 * blocks fr * subbands fr / rate) ∧
    configured (SbcCap AVDTP_MEDIA_TYPE_AUDIO A2DP_CODEC_SBC fq md bl sb al lo hi) sbc' ∧ sbc_frequency sbc' = f ∧
    sbc_endian sbc' = SBC_LE ∧ channels fr = (if md =? SBC_CHANNEL_MODE_MONO then 1 else 2) ∧
    encoder_ok sbc' (replicate (Z.to_nat (channels fr)) []).
Proof.
  intros Hf -> Hm Hb Hs Ha Hh Ep. set (q := if init p then zero_priv else p).
  assert ((sbc_reinit (Some sbc)).2 = Some (sbc_set_defaults (set_priv (Some q) sbc))) as Er.
  { unfold sbc_reinit. rewrite Ep. subst q. destruct (init p); [done|]. destruct sbc. cbn in Ep. by rewrite Ep. }
  assert (init q = false) as Ei by (subst q; by destruct (init p) eqn:E).
  unfold bluetooth_a2dp_setup. rewrite Er. cbn [s_channel_mode s_frequency s_allocation_method s_subbands s_block_length s_max_bitpool].
  cbn [sbc_set_defaults set_priv sbc_flags sbc_frequency sbc_blocks sbc_subbands sbc_mode sbc_allocation sbc_bitpool sbc_endian priv].
  apply list_elem_of_In in Hm, Hb, Hs, Ha. cbn in Hm, Hb, Hs, Ha.
  assert (setup_frequency (2 ^ (3 - f)) SBC_FREQ_44100 = f ∧ 0 ≤ f < 4) as [-> Hf4].
  { destruct Hf as [[_ ->]|[[_ ->]|[[_ ->]|[_ ->]]]]; done. }
  assert (md = 2 ^ (3 - setup_mode md SBC_MODE_STEREO) ∧ 0 ≤ setup_mode md SBC_MODE_STEREO < 4 ∧ (md =? SBC_CHANNEL_MODE_MONO) = (setup_mode md SBC_MODE_STEREO =? SBC_MODE_MONO)) as (Em & Hm4 & ->).
  { repeat (destruct Hm as [<-|Hm]; [done|]). destruct Hm. }
  assert (bl = 2 ^ (3 - setup_blocks bl SBC_BLK_16) ∧ 0 ≤ setup_blocks bl SBC_BLK_16 < 4) as (Eb & Hb4).
  { repeat (destruct Hb as [<-|Hb]; [done|]). destruct Hb. }
  assert (sb = 2 ^ (1 - setup_subbands sb SBC_SB_8) ∧ 0 ≤ setup_subbands sb SBC_SB_8 < 2) as (Es & Hs2).
  { repeat (destruct Hs as [<-|Hs]; [done|]). destruct Hs. }
  assert (al = 2 ^ setup_allocation al ∧ 0 ≤ setup_allocation al < 2) as (Ea & Ha2).
  { repeat (destruct Ha as [<-|Ha]; [done|]). destruct Ha. }
  clear Hm Hb Hs Ha. revert Em Hm4 Eb Hb4 Es Hs2 Ea Ha2.
  generalize (setup_mode md SBC_MODE_STEREO) (setup_blocks bl SBC_BLK_16) (setup_subbands sb SBC_SB_8) (setup_allocation al).
  intros m b s a Em Hm4 Eb Hb4 Es Hs2 Ea Ha2. set (sbc' := Sbc (sbc_flags sbc) f b s m a hi SBC_LE (Some q)).
  assert (to_u8 (4 + b * 4) = 4 + 4 * b) as E8 by (unfold to_u8; rewrite Z.mod_small; lia).
  assert (params_ok sbc') as Hok.
  { split; [unfold header_fields_ok; cbn -[Z.mul Z.add]; rewrite E8; split_and!; try done; lia|].
    split; cbn -[Z.mul]; [lia|]. destruct (separate _), (s =? 0); lia. }
  exists sbc'. cbv zeta. rewrite (get_codesize_spec sbc' q Hok eq_refl Ei), outcome_bind_ret.
  split; [|split; [by split_and!|split; [done|split; [done|split; [done|]]]]].
  - unfold sbc_get_frame_duration. cbn [priv sbc']. rewrite Ei. cbn [negb sbc_subbands sbc_blocks sbc_frequency sbc'].
    change (blocks (fresh_frame sbc')) with (to_u8 (4 + b * 4)). change (subbands (fresh_frame sbc')) with (if s =? 0 then 4 else 8).
    by destruct Hf as [[-> ->]|[[-> ->]|[[-> ->]|[-> ->]]]].
  - split; [done|]. split; [rewrite length_replicate; cbn; by destruct (m =? SBC_MODE_MONO)|]. exists q. rewrite Ei. done.
Qed.

(** Its frames are small. *)
Lemma frame_size_small sbc : params_ok sbc → sbc_bitpool sbc ≤ 53 → frame_size (fresh_frame sbc) ≤ 224.
Proof.
  intros Hok Hb. destruct (sizes_cases sbc Hok) as (HS & HB & HC). destruct Hok as [_ [Hb0 _]].
  change (bitpool (fresh_frame sbc)) with (sbc_bitpool sbc) in Hb0. unfold frame_size.
  assert ((prefix_size (fresh_frame sbc) + 4 * subbands (fresh_frame sbc) * Sbc.channels (fresh_frame sbc) + audio_size (fresh_frame sbc) + 7) / 8 < 221); [|lia].
  apply Z.div_lt_upper_bound; [lia|]. unfold prefix_size, audio_size, is_joint, separate.
  change (bitpool (fresh_frame sbc)) with (sbc_bitpool sbc). rewrite HC. unfold SBC_MODE_MONO, SBC_MODE_DUAL_CHANNEL, SBC_MODE_JOINT_STEREO.
  destruct (Z.eqb_spec (mode (fresh_frame sbc)) 0), (Z.eqb_spec (mode (fresh_frame sbc)) 1), (Z.eqb_spec (mode (fresh_frame sbc)) 3); try lia; cbn [orb]; nia.
Qed.

(** The two capabilities pass through AVDTP. *)
Lemma caps_received c : let caps := [Cap AVDTP_MEDIA_TRANSPORT []; Cap AVDTP_MEDIA_CODEC (sbc_cap_bytes c)] in
  caps_to_list (concat (map cap_bytes caps)) = Ret (caps, Some (Cap AVDTP_MEDIA_CODEC (sbc_cap_bytes c))).
Proof. reflexivity. Qed.


(** This daemon as a sink. *)
Definition own_offer : sbc_codec_cap := SbcCap AVDTP_MEDIA_TYPE_AUDIO A2DP_CODEC_SBC 15 15 15 3 3 2 64.
Definition own_sep : remote_sep := RemoteSep 1 AVDTP_SEP_TYPE_SINK 0 (Some (Cap AVDTP_MEDIA_CODEC (sbc_cap_bytes own_offer))) (sbc_getcap_ind false) None.

Example own_offer_is : sbc_getcap_ind false = [Cap AVDTP_MEDIA_TRANSPORT []; Cap AVDTP_MEDIA_CODEC (sbc_cap_bytes own_offer)].
Proof. by vm_compute. Qed.

Lemma own_offers : offers own_offer 44100 2.
Proof. split; [exists 2; by vm_compute|]. split; [left; by vm_compute|]. by vm_compute. Qed.


(** The rate is not looked for in what the sink offers. *)
Example rate_not_offered : Z.land (c_frequency example_sink) SBC_SAMPLING_FREQ_44100 = 0 ∧
  bluetooth_a2dp_init 44100 2 (client_caps example_sink) = (0, SbcCapabilities 2 2 2 1 1 10 40).
Proof. by vm_compute. Qed.

(** A sink for one channel is sent two, and one for two channels is asked for
    several modes at once. *)
Example mode_not_offered :
  bluetooth_a2dp_init 44100 2 (SbcCapabilities 8 15 3 3 15 2 53) = (0, SbcCapabilities 8 2 1 1 1 2 31) ∧
  bluetooth_a2dp_init 44100 1 (SbcCapabilities 7 15 3 3 15 2 53) = (0, SbcCapabilities 7 2 1 1 1 2 53).
Proof. by vm_compute. Qed.

(** The daemon's own selection fails without notice: what is configured has
    frequency 0. *)
Example selection_failed : ∃ codec, select_capabilities (RemoteSep 1 1 0 (Some (Cap AVDTP_MEDIA_CODEC [0; 0; 15; 255; 2; 53])) [] None) =
  Ret (Some [Cap AVDTP_MEDIA_TRANSPORT []; codec]) ∧ (c ← sbc_cap_of (cap_data codec); Ret (c_frequency c, c_channel_mode c)) = Ret (0, 0).
Proof. eexists. by vm_compute. Qed.

(** Two octets pass for a codec capability of AVDTP, and six are read. *)
Example codec_cut_off : select_capabilities (RemoteSep 1 1 0 (Some (Cap AVDTP_MEDIA_CODEC [0; 0])) [] None) = Undef ∧
  sbc_setconf_ind true 4096 [Cap AVDTP_MEDIA_CODEC [0; 0]] (A2dpSep AVDTP_SEP_TYPE_SINK A2DP_CODEC_SBC None) = Undef.
Proof. by vm_compute. Qed.

(** A remote end point without a codec brings the daemon down. *)
Example no_codec : a2dp_discovery_complete [RemoteSep 1 1 0 None [] None] = Undef.
Proof. by vm_compute. Qed.
