(* ===== verification/A2dpStream.v ===== *)
(** utils/audio/liba2dp.c and rtp.h: the client library encodes what it is given
    to write and sends it in RTP packets. Theorem: whatever the writes are cut
    into, the packets carry the frames of the encoder, in order and whole, as
    many in each as the link takes, under headers that count on
    ([writes_sound]). *)

From stdpp Require Import base list numbers.
From Stdlib Require Import ZArith Lia.
From S2P Require Import Prelude Sbc SbcBits SbcStream SbcFrame SbcJoint SbcTables SbcAnalysis SbcFilter SbcSynth SbcApi A2dp.

Local Open Scope Z_scope.

Definition BUFFER_SIZE : Z := 2048.

(** A packet as it was formed, whether it was handed to [send], and for how long
    the writer slept before. *)
Record event := Event { e_packet : list Z; e_sent : bool; e_slept : Z }.

(** What is written to; [log] are the packets formed so far. *)
Record bluetooth_data := Data {
  link_mtu : Z; sbc : sbc_t; frame_duration : Z; d_codesize : Z; samples : Z; buffer : list Z; count : Z; nsamples : Z; seq_num : Z;
  frame_count : Z; next_write : Z; log : list event
}.

(** The structures [rtp_header] and [rtp_payload] as octets, with the fields the
    code sets. *)
Definition rtp_octets (sequence_number timestamp frame_count : Z) : list Z :=
  [2 * 64; 1] ++ be_split 2 sequence_number ++ be_split 4 timestamp ++ be_split 4 1 ++ [frame_count mod 16].

Definition header_size : Z := 13.

Definition to_long (z : Z) : Z := (z + 2 ^ 63) mod 2 ^ 64 - 2 ^ 63.

(** When a stream starts (the part of [bluetooth_start] on the data). *)
Definition start_data (d : bluetooth_data) : bluetooth_data :=
  Data (link_mtu d) (sbc d) (frame_duration d) (d_codesize d) 0 (buffer d) header_size 0 0 0 0 (log d).

Section writing.
(** What the encoder's stack holds; and the socket: [poll n] is the time in
    microseconds if the [n]th poll finds it ready. *)
Variable stray : Z.
Variable poll : nat → option Z.

Definition avdtp_write (d : bluetooth_data) : outcome bluetooth_data :=
  let duration := frame_duration d * frame_count d in
  b ← wr (buffer d) 0 (rtp_octets (seq_num d) (nsamples d) (frame_count d));
  if (count d <? 0) || (Z.of_nat (length b) <? count d) then Undef
  else
    let packet := take (Z.to_nat (count d)) b in
    let '(e, next) :=
      match poll (length (log d)) with
      | Some now =>
          let ahead := if next_write d =? 0 then 0 else to_long (next_write d - now) in
          (Event packet true (Z.max 0 ahead),
           if ahead <? 0 then 0 else to_size_t ((if next_write d =? 0 then now else next_write d) + duration))
      | None => (Event packet false 0, next_write d)
      end in
    Ret (Data (link_mtu d) (sbc d) (frame_duration d) (d_codesize d) 0 b header_size (nsamples d) (to_u16 (seq_num d + 1)) 0 next (log d ++ [e])).

(** The encoder is given no more than a whole input. *)
Fixpoint write_loop (fuel : nat) (src : list Z) (ret : Z) (d : bluetooth_data) : outcome (Z * bluetooth_data) :=
  match fuel with
  | O => Undef
  | S fuel =>
      if Z.of_nat (length src) <? d_codesize d then Ret (ret, d)
      else if (count d <? 0) || (Z.of_nat (length (buffer d)) <? count d) then Undef
      else
        r ← sbc_encode stray (sbc d) (take (Z.to_nat (d_codesize d)) src) (d_codesize d) (Some (drop (Z.to_nat (count d)) (buffer d))) (BUFFER_SIZE - count d);
        let '(encoded, written, out, s) := r in
        let b := take (Z.to_nat (count d)) (buffer d) ++ default [] out in
        if encoded <=? 0 then
          Ret (ret, Data (link_mtu d) s (frame_duration d) (d_codesize d) (samples d) b (count d) (nsamples d) (seq_num d) (frame_count d) (next_write d) (log d))
        else if 2 ^ 31 <=? nsamples d + encoded then Undef
        else
          let d := Data (link_mtu d) s (frame_duration d) (d_codesize d) (samples d + encoded) b (count d + written) (nsamples d + encoded) (seq_num d)
                     (frame_count d + 1) (next_write d) (log d) in
          d ← (if link_mtu d <=? count d + written then avdtp_write d else Ret d);
          write_loop fuel (drop (Z.to_nat encoded) src) (ret + encoded) d
  end.

(** [wait] is what [wait_for_start] returns. *)
Definition a2dp_write (wait : Z) (src : list Z) (d : bluetooth_data) : outcome (Z * bluetooth_data) :=
  if wait <? 0 then Ret (wait, d) else write_loop (S (length src)) src 0 d.

(** Several writes, while the stream is on. *)
Fixpoint writes (srcs : list (list Z)) (d : bluetooth_data) : outcome (list Z * bluetooth_data) :=
  match srcs with
  | [] => Ret ([], d)
  | src :: srcs =>
      r ← a2dp_write 0 src d;
      q ← writes srcs r.2;
      Ret (r.1 :: q.1, q.2)
  end.
End writing.

(** * Inputs and frames *)

(** The whole inputs of a write. *)
Definition inputs_of (n : nat) (src : list Z) : list (list Z) := map (λ i, take n (drop (i * n) src)) (seq 0 (length src / n)).

Lemma inputs_of_short n src : (length src < n)%nat → inputs_of n src = [].
Proof. intros H. unfold inputs_of. by rewrite Nat.div_small. Qed.

Lemma inputs_of_step n src : (0 < n ≤ length src)%nat → inputs_of n src = take n src :: inputs_of n (drop n src).
Proof.
  intros H. unfold inputs_of. rewrite length_drop.
  assert (length src / n = S ((length src - n) / n))%nat as ->.
  { replace (length src) with ((length src - n) + 1 * n)%nat at 1 by lia. rewrite Nat.div_add by lia. lia. }
  cbn [seq map]. rewrite <- seq_shift, map_map. cbn [Nat.mul]. f_equal. apply map_ext. intros i. by rewrite drop_drop.
Qed.

(** The samples an encoder has taken in after some inputs. *)
Definition history_after (fr : sbc_frame) (be : bool) (inputs : list (list Z)) (hs : list (list Z)) : list (list Z) :=
  foldl (λ hs pcm, push be pcm (Z.to_nat (blocks fr) * bands (bank_of fr)) hs) hs inputs.

Lemma stream_reference_app fr be l1 l2 hs :
  stream_reference (bank_of fr) be (Z.to_nat (blocks fr)) (l1 ++ l2) hs =
  stream_reference (bank_of fr) be (Z.to_nat (blocks fr)) l1 hs ++ stream_reference (bank_of fr) be (Z.to_nat (blocks fr)) l2 (history_after fr be l1 hs).
Proof. revert hs. induction l1 as [|pcm l1 IH]; intros hs; [done|]. cbn [app stream_reference]. by rewrite IH. Qed.

(** A frame that carries [samples], as far as the quantisers go. *)
Definition frame_of (fr : sbc_frame) (samples : list (list (list Z))) (data : list Z) : Prop :=
  Z.of_nat (length data) = frame_size fr ∧
  ∃ fr1, header_fields fr1 = header_fields fr ∧ decodes data fr1 ∧ samples_recovered samples (joined fr1 (sb_sample_f fr1)).

Lemma frame_size_pos sbc : params_ok sbc → 4 ≤ frame_size (fresh_frame sbc).
Proof.
  intros Hok. destruct (sizes_cases sbc Hok) as (HS & HB & HC). destruct Hok as [_ [Hb _]].
  unfold frame_size. assert (0 ≤ (prefix_size (fresh_frame sbc) + 4 * subbands (fresh_frame sbc) * channels (fresh_frame sbc) + audio_size (fresh_frame sbc) + 7) / 8); [|lia].
  apply Z.div_pos; [|lia]. unfold prefix_size, audio_size.
  assert (0 ≤ channels (fresh_frame sbc) ≤ 2) by (rewrite HC; destruct (_ =? _); lia). destruct (is_joint _), (separate _); nia.
Qed.

Lemma input_size_pos sbc : params_ok sbc → 0 < input_size (fresh_frame sbc).
Proof.
  intros Hok. destruct (sizes_cases sbc Hok) as (HS & HB & HC). unfold input_size.
  assert (1 ≤ channels (fresh_frame sbc)) by (rewrite HC; destruct (_ =? _); lia). nia.
Qed.

(** * Packets *)

(** The packet with [frames], after [k] packets of as many. *)
Definition packet_of (fr : sbc_frame) (k : nat) (frames : list (list Z)) : list Z :=
  rtp_octets (Z.of_nat k) (input_size fr * (Z.of_nat (k + 1) * Z.of_nat (length frames))) (Z.of_nat (length frames)) ++ concat frames.

Lemma length_rtp a b c : length (rtp_octets a b c) = 13%nat.
Proof. unfold rtp_octets. rewrite !length_app, !length_be_split. done. Qed.

Lemma rtp_u16 a b c : rtp_octets (to_u16 a) b c = rtp_octets a b c.
Proof. unfold rtp_octets, to_u16. by rewrite (be_split_mod 2). Qed.

Lemma avdtp_write_spec poll d : Z.of_nat (length (buffer d)) = BUFFER_SIZE → header_size ≤ count d ≤ BUFFER_SIZE →
  ∃ b e next, avdtp_write poll d =
      Ret (Data (link_mtu d) (sbc d) (frame_duration d) (d_codesize d) 0 b header_size (nsamples d) (to_u16 (seq_num d + 1)) 0 next (log d ++ [e])) ∧
    Z.of_nat (length b) = BUFFER_SIZE ∧
    e_packet e = rtp_octets (seq_num d) (nsamples d) (frame_count d) ++ take (Z.to_nat (count d) - 13) (drop 13 (buffer d)) ∧
    e_sent e = bool_decide (is_Some (poll (length (log d)))).
Proof.
  unfold BUFFER_SIZE, header_size. intros Hl Hc. unfold avdtp_write. set (h := rtp_octets _ _ _).
  assert (length h = 13%nat) as Hh by apply length_rtp. rewrite wr_front by lia. rewrite outcome_bind_ret, Hh. cbv zeta.
  assert (length (h ++ drop 13 (buffer d)) = length (buffer d)) as Hlb by (rewrite length_app, length_drop; lia).
  destruct (Z.ltb_spec (count d) 0); [lia|]. destruct (Z.ltb_spec (Z.of_nat (length (h ++ drop 13 (buffer d)))) (count d)); [lia|]. cbn [orb].
  assert (take (Z.to_nat (count d)) (h ++ drop 13 (buffer d)) = h ++ take (Z.to_nat (count d) - 13) (drop 13 (buffer d))) as Et.
  { rewrite take_app, Hh. by rewrite (take_ge h) by lia. }
  rewrite Et. destruct (poll (length (log d))) as [now|]; eexists _, _, _; (split; [done|]); (split; [lia|]); by split.
Qed.

(** * The state between frames *)

Section stream.
Variable stray : Z.
Variable poll : nat → option Z.
Context (fr : sbc_frame) (be : bool) (mtu : Z).

(** How many frames go into a packet. *)
Definition per_packet : Z := (mtu - header_size - 1) / frame_size fr.

(** The packets so far hold [groups] of frames, and the buffer the [pending]
    ones. *)
Record streaming (d : bluetooth_data) (hs : list (list Z)) (groups : list (list (list Z))) (pending : list (list Z)) : Prop := {
  st_encoder : encoder_ok (sbc d) hs;
  st_frame : fresh_frame (sbc d) = fr;
  st_endian : (sbc_endian (sbc d) =? SBC_BE) = be;
  st_mtu : link_mtu d = mtu;
  st_codesize : d_codesize d = input_size fr;
  st_buffer : Z.of_nat (length (buffer d)) = BUFFER_SIZE;
  st_count : count d = header_size + Z.of_nat (length (concat pending));
  st_pending : take (length (concat pending)) (drop 13 (buffer d)) = concat pending;
  st_frames : Forall (λ f, Z.of_nat (length f) = frame_size fr) pending;
  st_room : Z.of_nat (length pending) < per_packet;
  st_frame_count : frame_count d = Z.of_nat (length pending);
  st_nsamples : nsamples d = input_size fr * (Z.of_nat (length groups) * per_packet + Z.of_nat (length pending));
  st_seq : seq_num d = to_u16 (Z.of_nat (length groups));
  st_groups : Forall (λ g, Z.of_nat (length g) = per_packet) groups;
  st_log : map e_packet (log d) = imap (packet_of fr) groups
}.

Lemma length_concat_frames (l : list (list Z)) n : Forall (λ f, Z.of_nat (length f) = n) l → Z.of_nat (length (concat l)) = n * Z.of_nat (length l).
Proof. induction 1 as [|f l Hf _ IH]; cbn [concat length]; [lia|]. rewrite length_app. lia. Qed.

(** There is room for one more frame. *)
Lemma room_fits n : n < per_packet → 0 < frame_size fr → frame_size fr * (n + 1) ≤ mtu - header_size - 1.
Proof.
  unfold per_packet. intros Hn HF. pose proof (Z.mul_div_le (mtu - header_size - 1) (frame_size fr) HF).
  pose proof (Z.mul_le_mono_nonneg_l (n + 1) ((mtu - header_size - 1) / frame_size fr) (frame_size fr) ltac:(lia) ltac:(lia)). lia.
Qed.

Hypothesis Hstray : byte_ok stray.
Hypothesis Hmtu : header_size + frame_size fr < mtu ≤ BUFFER_SIZE.

(** One more frame, before it is decided whether to send. *)
Definition encoded (d : bluetooth_data) (s : sbc_t) (data : list Z) : bluetooth_data :=
  Data (link_mtu d) s (frame_duration d) (d_codesize d) (samples d + input_size fr)
    (take (Z.to_nat (count d)) (buffer d) ++ data ++ drop (length data) (drop (Z.to_nat (count d)) (buffer d)))
    (count d + frame_size fr) (nsamples d + input_size fr) (seq_num d) (frame_count d + 1) (next_write d) (log d).

Lemma write_loop_step fuel src ret d hs groups pending : streaming d hs groups pending → Forall byte_ok src → input_size fr ≤ Z.of_nat (length src) →
  nsamples d + input_size fr < 2 ^ 31 →
  let pcm := take (Z.to_nat (input_size fr)) src in
  let hs' := push be pcm (Z.to_nat (blocks fr) * bands (bank_of fr)) hs in
  ∃ data s, frame_of fr (frame_reference (bank_of fr) hs' (Z.to_nat (blocks fr))) data ∧ encoder_ok s hs' ∧ fresh_frame s = fr ∧ (sbc_endian s =? SBC_BE) = be ∧
    write_loop stray poll (S fuel) src ret d =
      (d ← (if mtu <=? count d + frame_size fr + frame_size fr then avdtp_write poll (encoded d s data) else Ret (encoded d s data));
       write_loop stray poll fuel (drop (Z.to_nat (input_size fr)) src) (ret + input_size fr) d).
Proof.
  intros [He Hfr Hbe Hm Hcs Hb Hc Hp Hfs Hr Hfc Hns Hsq Hg Hlog] Hsrc Hlen Hov. cbv zeta.
  pose proof (proj1 He) as Hok. pose proof (input_size_pos _ Hok) as Hi. pose proof (frame_size_pos _ Hok) as HF. rewrite Hfr in *.
  assert (Z.of_nat (length (concat pending)) = frame_size fr * Z.of_nat (length pending)) as Hlc by by apply length_concat_frames.
  pose proof (room_fits _ Hr ltac:(lia)) as Hfit.
  unfold BUFFER_SIZE, header_size in *.
  set (pcm := take (Z.to_nat (input_size fr)) src). assert (Z.of_nat (length pcm) = input_size fr) as Hlp by (subst pcm; rewrite length_take; lia).
  set (out := drop (Z.to_nat (count d)) (buffer d)). assert (Z.of_nat (length out) = 2048 - count d) as Hlo by (subst out; rewrite length_drop; lia).
  destruct (encode_step_lemma stray (sbc d) hs pcm out He Hstray) as (data & fr1 & s & E & Hld & Eh & Hdec & Hrec & Hfr' & Hend & Henc).
  { by apply Forall_take. } { rewrite Hfr. lia. } { rewrite Hfr. lia. }
  unfold new_history in *. rewrite Hfr, Hbe in *. exists data, s. split; [split; [done|by exists fr1]|]. split; [done|]. split; [done|]. split; [by rewrite Hend|].
  cbn [write_loop]. rewrite Hcs. destruct (Z.ltb_spec (Z.of_nat (length src)) (input_size fr)); [lia|].
  destruct (Z.ltb_spec (count d) 0); [lia|]. destruct (Z.ltb_spec (Z.of_nat (length (buffer d))) (count d)); [lia|]. cbn [orb].
  fold pcm out. unfold BUFFER_SIZE. rewrite <- Hlo, <- Hlp at 1. rewrite Hlp in E. rewrite Hlp, E, outcome_bind_ret. cbv zeta iota.
  destruct (Z.leb_spec (input_size fr) 0); [lia|]. destruct (Z.leb_spec (2 ^ 31) (nsamples d + input_size fr)); [lia|].
  cbn [link_mtu count]. rewrite Hm. unfold encoded. rewrite Hcs, Hm. done.
Qed.

(** The frame is in the buffer after those that were. *)
Lemma encoded_buffer d s data hs groups pending : streaming d hs groups pending → Z.of_nat (length data) = frame_size fr → 0 < frame_size fr →
  let d1 := encoded d s data in
  Z.of_nat (length (buffer d1)) = BUFFER_SIZE ∧ count d1 = header_size + Z.of_nat (length (concat (pending ++ [data]))) ∧
  take (length (concat (pending ++ [data]))) (drop 13 (buffer d1)) = concat (pending ++ [data]) ∧ count d1 + frame_size fr ≤ mtu - 1 + frame_size fr.
Proof.
  intros [He Hfr Hbe Hm Hcs Hb Hc Hp Hfs Hr Hfc Hns Hsq Hg Hlog] Hld HF. cbv zeta.
  assert (Z.of_nat (length (concat pending)) = frame_size fr * Z.of_nat (length pending)) as Hlc by by apply length_concat_frames.
  pose proof (room_fits _ Hr ltac:(lia)) as Hfit.
  unfold BUFFER_SIZE, header_size in *. rewrite concat_app. cbn [concat encoded buffer count]. rewrite app_nil_r.
  split_and!; [|rewrite length_app; lia| |lia].
  - rewrite !length_app, length_take, !length_drop. lia.
  - rewrite skipn_app. rewrite length_take. replace (13 - _)%nat with 0%nat by lia. rewrite drop_0.
    rewrite skipn_firstn_comm. replace (Z.to_nat (count d) - 13)%nat with (length (concat pending)) by lia. rewrite Hp.
    rewrite app_assoc, take_app_le by (rewrite length_app; lia). by rewrite take_ge by (rewrite length_app; lia).
Qed.

Lemma encoded_streaming d s data hs hs' groups pending : streaming d hs groups pending → Z.of_nat (length data) = frame_size fr → 0 < frame_size fr →
  encoder_ok s hs' → fresh_frame s = fr → (sbc_endian s =? SBC_BE) = be →
  ∃ groups' pending' d', (if mtu <=? count d + frame_size fr + frame_size fr then avdtp_write poll (encoded d s data) else Ret (encoded d s data)) = Ret d' ∧
    streaming d' hs' groups' pending' ∧ concat groups' ++ pending' = concat groups ++ pending ++ [data] ∧
    nsamples d' = nsamples d + input_size fr ∧ (length (log d) ≤ length (log d'))%nat.
Proof.
  intros Hst Hld HF He' Hfr' Hbe'. destruct (encoded_buffer d s data hs groups pending Hst Hld HF) as (B1 & B2 & B3 & B4).
  destruct Hst as [He Hfr Hbe Hm Hcs Hb Hc Hp Hfs Hr Hfc Hns Hsq Hg Hlog].
  assert (Forall (λ f, Z.of_nat (length f) = frame_size fr) (pending ++ [data])) as Hfs' by (apply Forall_app_2; [done|by constructor]).
  pose proof (length_concat_frames _ _ Hfs) as L1. pose proof (length_concat_frames _ _ Hfs') as L2. rewrite length_app in L2. cbn [length] in L2.
  assert (frame_size fr * per_packet ≤ mtu - header_size - 1 < frame_size fr * per_packet + frame_size fr) as Hq.
  { unfold per_packet. pose proof (Z.div_mod (mtu - header_size - 1) (frame_size fr) ltac:(lia)).
    pose proof (Z.mod_pos_bound (mtu - header_size - 1) (frame_size fr) HF). lia. }
  destruct (Z.leb_spec mtu (count d + frame_size fr + frame_size fr)) as [Hle|Hlt].
  - assert (per_packet = Z.of_nat (length (pending ++ [data]))) as Eq by (rewrite length_app; cbn [length]; nia).
    destruct (avdtp_write_spec poll (encoded d s data)) as (b & e & next & E & Hlb & Hpk & _); [done|unfold BUFFER_SIZE, header_size in *; lia|].
    exists (groups ++ [pending ++ [data]]), [], (Data mtu s (frame_duration d) (d_codesize d) 0 b header_size (nsamples d + input_size fr) (to_u16 (seq_num d + 1)) 0 next (log d ++ [e])).
    split; [rewrite E; cbn [encoded link_mtu sbc frame_duration d_codesize nsamples seq_num log]; by rewrite Hm|].
    split; [|split; [rewrite concat_app; cbn [concat]; by rewrite !app_nil_r|split; [done|cbn; rewrite length_app; lia]]].
    split; cbn [sbc link_mtu d_codesize buffer count frame_count nsamples seq_num log concat length]; try done.
    + rewrite Eq, length_app. cbn [length]. lia.
    + rewrite Hns, length_app. cbn [length]. rewrite length_app in Eq. cbn [length] in Eq. nia.
    + rewrite Hsq, length_app. cbn [length]. unfold to_u16. rewrite Z.add_mod_idemp_l by done. f_equal. lia.
    + apply Forall_app_2; [done|]. by constructor.
    + rewrite map_app, imap_app, Hlog. f_equal. cbn [map imap]. f_equal. rewrite Hpk. unfold packet_of.
      cbn [encoded seq_num nsamples frame_count]. rewrite Hsq, rtp_u16. f_equal.
      * replace (length groups + 0)%nat with (length groups) by lia.
        assert (nsamples d + input_size fr = input_size fr * (Z.of_nat (length groups + 1) * Z.of_nat (length (pending ++ [data])))) as ->.
        { rewrite Hns, <- Eq. rewrite length_app in Eq. cbn [length] in Eq. nia. }
        rewrite Hfc, length_app. cbn [length]. f_equal. lia.
      * rewrite B2. unfold header_size. replace (Z.to_nat (13 + Z.of_nat (length (concat (pending ++ [data])))) - 13)%nat with (length (concat (pending ++ [data]))) by lia. exact B3.
  - exists groups, (pending ++ [data]), (encoded d s data). split; [done|]. split; [|done].
    split; try done.
    + rewrite length_app. cbn [length]. nia.
    + cbn [encoded frame_count]. rewrite length_app. cbn [length]. lia.
    + cbn [encoded nsamples]. rewrite Hns, length_app. cbn [length]. nia.
Qed.

(** A whole write. *)
Lemma write_loop_spec fuel src ret d hs groups pending : let n := Z.to_nat (input_size fr) in
  streaming d hs groups pending → Forall byte_ok src → (length src < fuel)%nat → nsamples d + input_size fr * Z.of_nat (length src / n) < 2 ^ 31 →
  ∃ frames groups' pending' d', write_loop stray poll fuel src ret d = Ret (ret + input_size fr * Z.of_nat (length src / n), d') ∧
    streaming d' (history_after fr be (inputs_of n src) hs) groups' pending' ∧ concat groups' ++ pending' = concat groups ++ pending ++ frames ∧
    nsamples d' = nsamples d + input_size fr * Z.of_nat (length src / n) ∧
    Forall2 (frame_of fr) (stream_reference (bank_of fr) be (Z.to_nat (blocks fr)) (inputs_of n src) hs) frames.
Proof.
  cbv zeta. set (n := Z.to_nat (input_size fr)). revert src ret d hs groups pending.
  induction fuel as [|fuel IH]; intros src ret d hs groups pending Hst Hsrc Hf Hov; [lia|].
  pose proof (proj1 (st_encoder _ _ _ _ Hst)) as Hok. pose proof (input_size_pos _ Hok) as Hi. pose proof (frame_size_pos _ Hok) as HF.
  rewrite (st_frame _ _ _ _ Hst) in Hi, HF. assert (Z.of_nat n = input_size fr) as Hn by (subst n; lia).
  destruct (decide (length src < n)%nat) as [Hlt|Hge].
  - exists [], groups, pending, d. cbn [write_loop]. rewrite (st_codesize _ _ _ _ Hst).
    destruct (Z.ltb_spec (Z.of_nat (length src)) (input_size fr)); [|lia]. rewrite Nat.div_small by done. rewrite inputs_of_short by done.
    split; [f_equal; f_equal; lia|]. split; [done|]. split; [by rewrite app_nil_r|]. split; [lia|constructor].
  - assert (length src / n = S (length (drop n src) / n))%nat as Ed.
    { rewrite length_drop. replace (length src) with ((length src - n) + 1 * n)%nat at 1 by lia. rewrite Nat.div_add by lia. lia. }
    rewrite Ed, Nat2Z.inj_succ, Z.mul_succ_r in *.
    assert (0 ≤ input_size fr * Z.of_nat (length (drop n src) / n)) as Hrest by (apply Z.mul_nonneg_nonneg; lia).
    destruct (write_loop_step fuel src ret d hs groups pending Hst Hsrc ltac:(lia) ltac:(lia))
      as (data & s & Hfo & He' & Hfr' & Hbe' & ->). fold n in Hfo, He' |- *.
    destruct (encoded_streaming d s data hs _ groups pending Hst (proj1 Hfo) ltac:(lia) He' Hfr' Hbe') as (g1 & p1 & d1 & -> & Hst1 & Ec & Ens & _).
    rewrite outcome_bind_ret.
    destruct (IH (drop n src) (ret + input_size fr) d1 _ g1 p1 Hst1) as (frames & g2 & p2 & d2 & -> & Hst2 & Ec2 & Ens2 & HF2).
    + by apply Forall_drop.
    + rewrite length_drop. lia.
    + rewrite Ens. lia.
    + rewrite (inputs_of_step n src) by lia. exists (data :: frames), g2, p2, d2. split; [f_equal; f_equal; lia|]. split; [exact Hst2|].
      split; [rewrite Ec2, app_assoc, Ec, <- !app_assoc; done|]. split; [lia|]. by constructor.
Qed.

Lemma history_after_app l1 l2 hs : history_after fr be (l1 ++ l2) hs = history_after fr be l2 (history_after fr be l1 hs).
Proof. apply foldl_app. Qed.

(** How much of each write is taken. *)
Definition taken (src : list Z) : Z := input_size fr * Z.of_nat (length src / Z.to_nat (input_size fr)).

Lemma writes_spec srcs d hs groups pending : let inputs := concat (map (inputs_of (Z.to_nat (input_size fr))) srcs) in
  streaming d hs groups pending → Forall (Forall byte_ok) srcs → nsamples d + input_size fr * Z.of_nat (length inputs) < 2 ^ 31 →
  ∃ frames groups' pending' d', writes stray poll srcs d = Ret (map taken srcs, d') ∧
    streaming d' (history_after fr be inputs hs) groups' pending' ∧ concat groups' ++ pending' = concat groups ++ pending ++ frames ∧
    Forall2 (frame_of fr) (stream_reference (bank_of fr) be (Z.to_nat (blocks fr)) inputs hs) frames.
Proof.
  cbv zeta. intros Hst Hsrcs. revert d hs groups pending Hst. induction Hsrcs as [|src srcs Hsrc _ IH]; intros d hs groups pending Hst Hov; cbn [writes map concat].
  - exists [], groups, pending, d. split; [done|]. split; [done|]. split; [by rewrite app_nil_r|constructor].
  - cbn [map concat] in Hov. rewrite length_app in Hov. unfold inputs_of at 1 in Hov. rewrite length_map, length_seq in Hov.
    pose proof (input_size_pos _ (proj1 (st_encoder _ _ _ _ Hst))) as Hi. rewrite (st_frame _ _ _ _ Hst) in Hi.
    unfold a2dp_write. change (0 <? 0) with false. cbv iota.
    destruct (write_loop_spec (S (length src)) src 0 d hs groups pending Hst Hsrc ltac:(lia)) as (f1 & g1 & p1 & d1 & -> & Hst1 & Ec1 & Ens1 & HF1); [nia|].
    rewrite outcome_bind_ret. cbn [fst snd].
    destruct (IH d1 _ g1 p1 Hst1) as (f2 & g2 & p2 & d2 & -> & Hst2 & Ec2 & HF2); [rewrite Ens1; nia|].
    rewrite outcome_bind_ret. exists (f1 ++ f2), g2, p2, d2. split; [done|]. rewrite history_after_app. split; [exact Hst2|].
    split; [by rewrite Ec2, app_assoc, Ec1, <- !app_assoc|]. rewrite stream_reference_app. by apply Forall2_app.
Qed.

End stream.


(** Joint stereo in frames of 17 octets, two to a packet of at most 51. *)
Definition example_data : bluetooth_data := Data 52 (example_encoder 3) 1000 64 0 (replicate 2048 1) 0 5 9 0 0 [].


(** The count of octets overflows, though nothing else is wrong. *)
Example count_overflows :
  a2dp_write 0 (λ n, Some (Z.of_nat n)) 0 (replicate 64 77)
    (Data 52 (example_encoder 3) 1000 64 0 (replicate 2048 1) 13 (2 ^ 31 - 64) 9 0 0 []) = Undef.
Proof. by vm_compute. Qed.

(** Sixteen frames are announced as none. *)
Example sixteen_frames k t : rtp_octets k t 16 = rtp_octets k t 0.
Proof. done. Qed.

(** With a larger link the frames do not fit the buffer: the encoder is called
    without room, and the write ends without the rest. *)
Example buffer_full : ∃ d', a2dp_write 0 (λ n, Some (Z.of_nat n)) 0 (replicate 128 77)
    (Data 3000 (example_encoder 3) 1000 64 0 (replicate 2048 1) 2031 0 0 100 0 []) = Ret (64, d') ∧ count d' = 2048 ∧ log d' = [].
Proof. eexists. by vm_compute. Qed.
