(* ===== verification/A2dpThread.v ===== *)
(** utils/audio/liba2dp.c: the thread of the client library and those that wait
    for it. A step relation interleaves the thread, any number of writers in
    [wait_for_start] and the commands of other calls; the locked parts are single
    steps, as are the accesses without the lock. Theorems: the state follows its
    diagram in every interleaving, and no writer gets through to a stream that
    was not started ([state_protocol]); a signal between two looks at the state
    is lost, and the writer sleeps until its time is up ([wakeup_lost]). *)

From stdpp Require Import base list numbers.
From Stdlib Require Import ZArith Lia.
From S2P Require Import Prelude.

Local Open Scope Z_scope.

(** * Data *)

Definition ENODEV : Z := 19.
Definition ETIMEDOUT : Z := 110.

Inductive a2dp_state :=
  | A2DP_STATE_NONE | A2DP_STATE_INITIALIZED | A2DP_STATE_CONFIGURING | A2DP_STATE_CONFIGURED | A2DP_STATE_STARTING | A2DP_STATE_STARTED
  | A2DP_STATE_STOPPING.

Inductive a2dp_command := A2DP_CMD_NONE | A2DP_CMD_CONFIGURE | A2DP_CMD_START | A2DP_CMD_STOP | A2DP_CMD_QUIT.

#[export] Instance a2dp_state_dec : EqDecision a2dp_state.
Proof. solve_decision. Defined.
#[export] Instance a2dp_command_dec : EqDecision a2dp_command.
Proof. solve_decision. Defined.

(** Where the thread is: before it waits, in [pthread_cond_wait], woken there,
    with a command, in an exchange with the daemon, or gone. *)
Inductive worker := Idle | Waiting | Woken | Have (c : a2dp_command) | Configuring | Starting | Stopping | Finished.

(** How an exchange ends: all went well; something failed; or the connection was
    found broken and closed. *)
Inductive reply := Done | Failed | Broken.

(** Where a writer is: not in a call; at the head of the loop of
    [wait_for_start], with the state and error it has; before it waits; in
    [pthread_cond_timedwait]; woken there; or back, with a result. *)
Inductive writer := Out | Loop (state : a2dp_state) (err : Z) | Lock | InWait | Signalled | Returned (ret : Z).

#[export] Instance writer_dec : EqDecision writer.
Proof. solve_decision. Defined.

(** The shared structure, the threads, and what the state was so far, the latest
    first. *)
Record world := World { state : a2dp_state; command : a2dp_command; thread : worker; writers : list writer; history : list a2dp_state }.

(** * The thread *)

Definition bluetooth_init (ok : bool) (s : a2dp_state) : a2dp_state := if ok then A2DP_STATE_INITIALIZED else s.

(** The switch over the command: where the thread goes, and the state it sets. *)
Definition switch (c : a2dp_command) (s : a2dp_state) : worker * a2dp_state :=
  match c with
  | A2DP_CMD_CONFIGURE => if bool_decide (s = A2DP_STATE_INITIALIZED) then (Configuring, A2DP_STATE_CONFIGURING) else (Idle, s)
  | A2DP_CMD_START => if bool_decide (s = A2DP_STATE_CONFIGURED) then (Starting, A2DP_STATE_STARTING) else (Idle, s)
  | A2DP_CMD_STOP => if bool_decide (s = A2DP_STATE_STARTED) then (Stopping, A2DP_STATE_STOPPING) else (Idle, s)
  | A2DP_CMD_QUIT => (Finished, A2DP_STATE_NONE)
  | A2DP_CMD_NONE => (Idle, s)
  end.

(** The ends of the exchanges: the state, and whether it is signalled. A broken
    connection is closed on the way, which is not. *)
Definition bluetooth_configure_end (r : reply) : a2dp_state * bool :=
  match r with Done => (A2DP_STATE_CONFIGURED, true) | Failed => (A2DP_STATE_INITIALIZED, true) | Broken => (A2DP_STATE_NONE, false) end.
Definition bluetooth_start_end (r : reply) : a2dp_state * bool :=
  match r with Done => (A2DP_STATE_STARTED, true) | Failed => (A2DP_STATE_INITIALIZED, true) | Broken => (A2DP_STATE_NONE, false) end.
Definition bluetooth_stop_end (r : reply) : a2dp_state * bool :=
  match r with Done | Failed => (A2DP_STATE_CONFIGURED, true) | Broken => (A2DP_STATE_NONE, false) end.

Definition exchange_end (t : worker) (r : reply) : option (a2dp_state * bool) :=
  match t with
  | Configuring => Some (bluetooth_configure_end r)
  | Starting => Some (bluetooth_start_end r)
  | Stopping => Some (bluetooth_stop_end r)
  | _ => None
  end.

(** * The writers *)

(** One round of [wait_for_start]: it returns, or gives a command or none and
    goes to wait. *)
Definition wait_round (s : a2dp_state) (err : Z) : Z + option a2dp_command :=
  if bool_decide (s = A2DP_STATE_STARTED) || negb (err =? 0) then inl (- err)
  else
    match s with
    | A2DP_STATE_NONE => inl (- ENODEV)
    | A2DP_STATE_INITIALIZED => inr (Some A2DP_CMD_CONFIGURE)
    | A2DP_STATE_CONFIGURED => inr (Some A2DP_CMD_START)
    | _ => inr None
    end.

(** * Steps *)

Definition set_writer (i : nat) (p : writer) (w : world) : world := World (state w) (command w) (thread w) (<[i := p]> (writers w)) (history w).

(** [data->state] is stored. *)
Definition store (s : a2dp_state) (w : world) : world := World s (command w) (thread w) (writers w) (s :: history w).
Definition go (t : worker) (w : world) : world := World (state w) (command w) t (writers w) (history w).

(** The thread is woken if it waits. *)
Definition set_command (c : a2dp_command) (w : world) : world :=
  World (state w) c (match thread w with Waiting => Woken | t => t end) (writers w) (history w).

(** A signal on [client_wait]: one of those who wait is woken, if any. *)
Inductive signalled : list writer → list writer → Prop :=
  | signal_one l i : l !! i = Some InWait → signalled l (<[i := Signalled]> l)
  | signal_lost l : InWait ∉ l → signalled l l.

Definition with_writers (l : list writer) (w : world) : world := World (state w) (command w) (thread w) l (history w).

(** Who makes the step. A wait that ends without a signal does so in time, or at
    once when the time it is given is not valid. *)
Inductive label := Thread | Writer (i : nat) | Timeout (i : nat) | Spurious | Call (i : nat) | Command (c : a2dp_command).

Inductive step : world → label → world → Prop :=
  | thread_waits w : thread w = Idle → step w Thread (go Waiting w)
  | thread_reads w : thread w = Woken → step w Thread (go (Have (command w)) w)
  | thread_switches w c ok s t s' : thread w = Have c →
      s = (if bool_decide (state w = A2DP_STATE_NONE ∧ c ≠ A2DP_CMD_QUIT) then bluetooth_init ok (state w) else state w) → switch c s = (t, s') →
      step w Thread (go t (store s' (store s w)))
  | thread_exchange w r s l sig : exchange_end (thread w) r = Some (s, sig) →
      (if sig : bool then signalled (writers w) l else l = writers w) →
      step w Thread (go Idle (with_writers l (store s w)))
  | thread_spurious w : thread w = Waiting → step w Spurious (go Woken w)
  | command_given w c : c ∈ [A2DP_CMD_CONFIGURE; A2DP_CMD_STOP; A2DP_CMD_QUIT] → step w (Command c) (set_command c w)
  | writer_calls w i : writers w !! i = Some Out → step w (Call i) (set_writer i (Loop (state w) 0) w)
  | writer_returns w i s err ret : writers w !! i = Some (Loop s err) → wait_round s err = inl ret → step w (Writer i) (set_writer i (Returned ret) w)
  | writer_commands w i s err o : writers w !! i = Some (Loop s err) → wait_round s err = inr o →
      step w (Writer i) (set_writer i Lock (match o with Some c => set_command c w | None => w end))
  | writer_locks w i : writers w !! i = Some Lock → step w (Writer i) (set_writer i InWait w)
  | writer_wakes w i : writers w !! i = Some Signalled → step w (Writer i) (set_writer i (Loop (state w) 0) w)
  | writer_spurious w i : writers w !! i = Some InWait → step w Spurious (set_writer i (Loop (state w) 0) w)
  | writer_timeout w i err : writers w !! i = Some InWait → err ∈ [ETIMEDOUT; EINVAL] → step w (Timeout i) (set_writer i (Loop (state w) err) w)
  | writer_leaves w i ret : writers w !! i = Some (Returned ret) → step w (Writer i) (set_writer i Out w).

(** After [a2dp_init], with [n] threads that will write. *)
Definition initial (n : nat) : world := World A2DP_STATE_NONE A2DP_CMD_NONE Idle (replicate n Out) [A2DP_STATE_NONE].

Inductive reachable (n : nat) : world → Prop :=
  | reach_initial : reachable n (initial n)
  | reach_step w l w' : reachable n w → step w l w' → reachable n w'.

(** * The diagram of the state *)

Definition allowed (a b : a2dp_state) : bool :=
  match a, b with
  | _, A2DP_STATE_NONE => true
  | A2DP_STATE_NONE, A2DP_STATE_INITIALIZED => true
  | A2DP_STATE_INITIALIZED, (A2DP_STATE_INITIALIZED | A2DP_STATE_CONFIGURING) => true
  | A2DP_STATE_CONFIGURING, (A2DP_STATE_CONFIGURED | A2DP_STATE_INITIALIZED) => true
  | A2DP_STATE_CONFIGURED, (A2DP_STATE_CONFIGURED | A2DP_STATE_STARTING) => true
  | A2DP_STATE_STARTING, (A2DP_STATE_STARTED | A2DP_STATE_INITIALIZED) => true
  | A2DP_STATE_STARTED, (A2DP_STATE_STARTED | A2DP_STATE_STOPPING) => true
  | A2DP_STATE_STOPPING, A2DP_STATE_CONFIGURED => true
  | _, _ => false
  end.

Fixpoint follows (h : list a2dp_state) : Prop :=
  match h with
  | b :: ((a :: _) as h) => allowed a b = true ∧ follows h
  | _ => True
  end.

(** What the thread does and the state it set. *)
Definition agree (t : worker) (s : a2dp_state) : Prop :=
  match t with
  | Configuring => s = A2DP_STATE_CONFIGURING
  | Starting => s = A2DP_STATE_STARTING
  | Stopping => s = A2DP_STATE_STOPPING
  | Finished => s = A2DP_STATE_NONE
  | _ => s ∈ [A2DP_STATE_NONE; A2DP_STATE_INITIALIZED; A2DP_STATE_CONFIGURED; A2DP_STATE_STARTED]
  end.

(** What a writer knows. *)
Definition knows (h : list a2dp_state) (p : writer) : Prop :=
  match p with
  | Loop s err => s ∈ h ∧ 0 ≤ err
  | Returned ret => ret ≤ 0 ∧ (ret = 0 → A2DP_STATE_STARTED ∈ h)
  | _ => True
  end.

Record inv (w : world) : Prop := {
  inv_head : ∃ h, history w = state w :: h;
  inv_follows : follows (history w);
  inv_agree : agree (thread w) (state w);
  inv_writers : Forall (knows (history w)) (writers w)
}.

Lemma knows_mono h s p : knows h p → knows (s :: h) p.
Proof. destruct p; cbn; try done; rewrite elem_of_cons; tauto. Qed.

Lemma follows_cons h b a : follows (a :: h) → allowed a b = true → follows (b :: a :: h).
Proof. done. Qed.

(** The thread stores a state that may follow. *)
Lemma inv_store w s t : inv w → allowed (state w) s = true → agree t s → inv (go t (store s w)).
Proof.
  intros [[h Hh] Hf _ Hw] Ha Ht. split; cbn; [by eexists|rewrite Hh in *; by apply follows_cons|done|].
  eapply Forall_impl; [|exact Hw]. intros p. apply knows_mono.
Qed.

(** The switch stores what may follow, and goes where that belongs. *)
Lemma switch_ok c s t s' : s ∈ [A2DP_STATE_NONE; A2DP_STATE_INITIALIZED; A2DP_STATE_CONFIGURED; A2DP_STATE_STARTED] → switch c s = (t, s') →
  allowed s s' = true ∧ agree t s'.
Proof.
  intros Hs. destruct c, s; try (by apply list_elem_of_In in Hs; cbn in Hs; intuition congruence); vm_compute bool_decide in *; cbn; intros [= <- <-]; cbn; split; try done; try exact Hs.
Qed.

Lemma exchange_ok t st r s sig : agree t st → exchange_end t r = Some (s, sig) → allowed st s = true ∧ agree Idle s.
Proof.
  destruct t; try done; cbn [agree]; intros ->; destruct r; intros [= <- <-]; (split; [done|]); apply list_elem_of_In; cbn; tauto.
Qed.

Lemma inv_set_writer w i p : inv w → knows (history w) p → inv (set_writer i p w).
Proof. intros [H1 H2 H3 H4] Hp. split; try done. by apply Forall_insert. Qed.

Lemma inv_set_command w c : inv w → inv (set_command c w).
Proof. intros [H1 H2 H3 H4]. split; try done. cbn. by destruct (thread w). Qed.

Lemma inv_state_known w : inv w → state w ∈ history w.
Proof. intros [[h ->] _ _ _]. left. Qed.

Lemma inv_loop w i s err : inv w → writers w !! i = Some (Loop s err) → s ∈ history w ∧ 0 ≤ err.
Proof. intros [_ _ _ Hw] E. exact (Forall_lookup_1 _ _ _ _ Hw E). Qed.

Lemma wait_round_inl s err ret : wait_round s err = inl ret → 0 ≤ err → ret ≤ 0 ∧ (ret = 0 → s = A2DP_STATE_STARTED).
Proof.
  unfold wait_round. destruct (decide (s = A2DP_STATE_STARTED)) as [->|Hs].
  - rewrite bool_decide_true by done. intros [= <-] He. split; [lia|done].
  - rewrite bool_decide_false by done. cbn [orb]. destruct (Z.eqb_spec err 0); cbn [negb].
    + destruct s; try done. intros [= <-] _. split; [done|done].
    + intros [= <-] He. split; lia.
Qed.

Lemma signalled_knows h l l' : signalled l l' → Forall (knows h) l → Forall (knows h) l'.
Proof. intros [l0 i _|l0 _] H; [by apply Forall_insert|done]. Qed.

Lemma thread_inv_step w l w' : inv w → step w l w' → inv w'.
Proof.
  intros Hi Hs. pose proof (inv_state_known w Hi) as Hk.
  destruct Hs as [w E|w E|w c ok s t s' E Es Esw|w r s l sig E Hl|w E|w c Hc|w i E|w i s err ret E Er|w i s err o E Er|w i E|w i E|w i E|w i err E Herr|w i ret E].
  - destruct Hi as [H1 H2 H3 H4]. rewrite E in H3. by split.
  - destruct Hi as [H1 H2 H3 H4]. rewrite E in H3. by split.
  - assert (agree Idle (state w)) as Ha by (pose proof (inv_agree w Hi) as Ha; by rewrite E in Ha).
    assert (allowed (state w) s = true ∧ agree Idle s) as [Hal Has].
    { rewrite Es. destruct (decide (state w = A2DP_STATE_NONE ∧ c ≠ A2DP_CMD_QUIT)) as [[-> Hc]|H].
      - rewrite bool_decide_true by done. destruct ok; (split; [done|]); apply list_elem_of_In; cbn; tauto.
      - rewrite bool_decide_false by done. split; [|done]. apply list_elem_of_In in Ha. cbn in Ha. by destruct Ha as [<-|[<-|[<-|[<-|[]]]]]. }
    destruct (switch_ok c s t s' Has Esw) as [Hal' Hat].
    pose proof (inv_store w s Idle Hi Hal Has) as Hi'. exact (inv_store _ s' t Hi' Hal' Hat).
  - destruct (exchange_ok _ _ _ _ _ (inv_agree w Hi) E) as [Hal Has].
    assert (Forall (knows (history w)) l) as Hl' by (destruct sig; [by eapply signalled_knows; [exact Hl|apply Hi]|subst l; apply Hi]).
    assert (inv (with_writers l w)) as Hi' by (destruct Hi; by split). exact (inv_store (with_writers l w) s Idle Hi' Hal Has).
  - destruct Hi as [H1 H2 H3 H4]. rewrite E in H3. by split.
  - by apply inv_set_command.
  - apply inv_set_writer; [done|]. by split.
  - destruct (inv_loop w i s err Hi E) as [Hs He]. destruct (wait_round_inl _ _ _ Er He) as [Hr H0]. apply inv_set_writer; [done|].
    split; [done|]. intros H. by rewrite <- (H0 H).
  - assert (inv (match o with Some c => set_command c w | None => w end)) as Hi' by (destruct o; [by apply inv_set_command|done]).
    by apply inv_set_writer.
  - by apply inv_set_writer.
  - apply inv_set_writer; [done|]. by split.
  - apply inv_set_writer; [done|]. by split.
  - apply inv_set_writer; [done|]. split; [done|]. apply list_elem_of_In in Herr. unfold ETIMEDOUT, EINVAL in Herr. cbn in Herr. lia.
  - by apply inv_set_writer.
Qed.

Lemma reachable_inv n w : reachable n w → inv w.
Proof.
  induction 1 as [|w l w' _ IH Hs]; [|by eapply thread_inv_step]. split; cbn; [by eexists|done|left|]. by apply Forall_replicate.
Qed.

Lemma signalled_total l : ∃ l', signalled l l'.
Proof.
  destruct (decide (InWait ∈ l)) as [H|H]; [|exists l; by constructor]. apply list_elem_of_lookup in H as [i Hi].
  exists (<[i := Signalled]> l). by constructor.
Qed.


(** * Signals that nobody hears *)

(** One more step of a run. *)
Ltac run R c := eapply reach_step in R; [|first [apply c; reflexivity|eapply c; reflexivity]]; vm_compute in R.

(** The stream is on; the writer who asked for it sleeps. *)
Definition asleep : world :=
  World A2DP_STATE_STARTED A2DP_CMD_START Waiting [InWait]
    [A2DP_STATE_STARTED; A2DP_STATE_STARTING; A2DP_STATE_CONFIGURED; A2DP_STATE_CONFIGURED; A2DP_STATE_CONFIGURING; A2DP_STATE_INITIALIZED; A2DP_STATE_NONE].

(** After a call of [a2dp_set_sink]. *)
Lemma configuring_reachable n : reachable n (World A2DP_STATE_CONFIGURING A2DP_CMD_CONFIGURE Configuring (replicate n Out)
  [A2DP_STATE_CONFIGURING; A2DP_STATE_INITIALIZED; A2DP_STATE_NONE]).
Proof.
  pose proof (reach_initial n) as R. eapply reach_step in R; [|by apply thread_waits].
  eapply reach_step in R; [|apply (command_given _ A2DP_CMD_CONFIGURE); compute_done]. eapply reach_step in R; [|by eapply thread_reads].
  eapply reach_step in R; [|eapply (thread_switches _ _ true); reflexivity]. exact R.
Qed.

Lemma asleep_reachable : reachable 1 asleep.
Proof.
  pose proof (configuring_reachable 1) as R. vm_compute in R.
  eapply reach_step in R; [|eapply (thread_exchange _ Done); [reflexivity|apply signal_lost; compute_done]]. vm_compute in R.
  run R thread_waits. eapply reach_step in R; [|apply (writer_calls _ 0); reflexivity]. vm_compute in R.
  eapply reach_step in R; [|eapply (writer_commands _ 0); reflexivity]. vm_compute in R. run R thread_reads.
  eapply reach_step in R; [|eapply (thread_switches _ _ true); reflexivity]. vm_compute in R.
  eapply reach_step in R; [|eapply (thread_exchange _ Done); [reflexivity|apply signal_lost; compute_done]]. vm_compute in R.
  run R thread_waits. eapply reach_step in R; [|apply (writer_locks _ 0); reflexivity]. exact R.
Qed.

(** Who sleeps is not woken: neither the thread nor the writer can make a step. *)
Lemma asleep_stays n w l w' : reachable n w → thread w = Waiting → writers w = [InWait] → step w l w' →
  l = Timeout 0 ∨ l = Spurious ∨ ∃ c, l = Command c ∧ c ≠ A2DP_CMD_START.
Proof.
  intros _ Et Ew Hs. assert (∀ i p, writers w !! i = Some p → i = 0%nat ∧ p = InWait) as Hp.
  { intros i p H. rewrite Ew in H. destruct i; [cbn in H; split; congruence|done]. }
  destruct Hs as [w E|w E|w c ok s t s' E Es Esw|w r s l sig E Hl|w E|w c Hc|w i E|w i s err ret E Er|w i s err o E Er|w i E|w i E|w i E|w i err E Herr|w i ret E];
    try (by rewrite Et in E); try (by destruct (Hp _ _ E)).
  - by right; left.
  - right; right. exists c. split; [done|]. intros ->. apply list_elem_of_In in Hc. cbn in Hc. intuition congruence.
  - by right; left.
  - destruct (Hp _ _ E) as [-> _]. by left.
Qed.

(** C31: signals are lost. [wait_for_start] gives its command, then takes the lock
    and waits, without a look at the state in between. There is a run without
    any failure, after a single call of [a2dp_set_sink], in which the thread
    starts the stream in that time: the stream is on, the writer sleeps and the
    thread waits, and from there on nobody wakes the writer; it goes on when its
    time is up, which it reports as an error, unless someone calls for something
    else or the system wakes it for no reason. *)
Theorem wakeup_lost : ∃ w, reachable 1 w ∧ state w = A2DP_STATE_STARTED ∧ thread w = Waiting ∧ writers w = [InWait] ∧
  (∀ l w', step w l w' → l = Timeout 0 ∨ l = Spurious ∨ ∃ c, l = Command c ∧ c ≠ A2DP_CMD_START) ∧
  ∀ err, err ∈ [ETIMEDOUT; EINVAL] → ∃ w1 w2, step w (Timeout 0) w1 ∧ step w1 (Writer 0) w2 ∧ writers w2 = [Returned (- err)].
Proof.
  exists asleep. split; [exact asleep_reachable|]. do 3 (split; [done|]). split.
  - intros l w'. by apply (asleep_stays 1); [exact asleep_reachable|..].
  - intros err He. exists (set_writer 0 (Loop A2DP_STATE_STARTED err) asleep), (set_writer 0 (Returned (- err)) asleep).
    split; [by apply (writer_timeout asleep 0)|]. split; [|done].
    apply (writer_returns (set_writer 0 (Loop A2DP_STATE_STARTED err) asleep) 0 A2DP_STATE_STARTED err (- err)); done.
Qed.

Lemma wakeup_lost_witness : ∃ w, reachable 1 w ∧ writers w = [InWait] ∧ (∃ w1, step w (Timeout 0) w1) ∧ ∀ l w', step w l w' → l ≠ Thread.
Proof.
  destruct wakeup_lost as (w & H1 & _ & _ & H2 & H3 & H4). exists w. split; [exact H1|]. split; [exact H2|]. split.
  - destruct (H4 ETIMEDOUT) as (w1 & _ & H & _); [left|]. by exists w1.
  - intros l w' Hs ->. destruct (H3 _ _ Hs) as [H|[H|(c & H & _)]]; discriminate H.
Defined.

(** A command given while the thread is busy is not executed: the library is to
    be closed, and the thread waits for ever, with its memory. *)
Example quit_lost : ∃ w, reachable 0 w ∧ command w = A2DP_CMD_QUIT ∧ thread w = Waiting ∧ state w = A2DP_STATE_CONFIGURED.
Proof.
  pose proof (configuring_reachable 0) as R. vm_compute in R.
  eapply reach_step in R; [|apply (command_given _ A2DP_CMD_QUIT); compute_done]. vm_compute in R.
  eapply reach_step in R; [|eapply (thread_exchange _ Done); [reflexivity|apply signal_lost; compute_done]]. vm_compute in R.
  run R thread_waits. eexists. split; [exact R|done].
Qed.

(** The thread frees what a writer is about to lock. *)
Example freed_before_lock : ∃ w, reachable 1 w ∧ thread w = Finished ∧ writers w = [Lock].
Proof.
  pose proof (configuring_reachable 1) as R. vm_compute in R.
  eapply reach_step in R; [|eapply (thread_exchange _ Failed); [reflexivity|apply signal_lost; compute_done]]. vm_compute in R.
  run R thread_waits. eapply reach_step in R; [|apply (writer_calls _ 0); reflexivity]. vm_compute in R.
  eapply reach_step in R; [|eapply (writer_commands _ 0); reflexivity]. vm_compute in R.
  eapply reach_step in R; [|apply (command_given _ A2DP_CMD_QUIT); compute_done]. vm_compute in R.
  run R thread_reads. eapply reach_step in R; [|eapply (thread_switches _ _ true); reflexivity]. vm_compute in R.
  eexists. split; [exact R|done].
Qed.

